(* ===== verification/_CoqProject ===== *)
-Q . S2P
Prelude.v
CInt.v
Memory.v
Buddy.v
BuddyInv.v
BuddyOps.v
BuddyProof.v
BuddyInit.v
BuddyThm.v
PageAlloc.v
Slab.v
SlabInv.v
SlabProof.v
SlabThm.v
KString.v
Vm.v
VmInv.v
VmWalk.v
VmMap.v
VmUser.v
VmSpace.v
VmCopy.v
VmFree.v
VmThm.v
KMonad.v
Riscv.v
KState.v
Blocks.v
Spinlock.v
Sched.v
KAlloc.v
Console.v
Virtio.v
Bio.v
Log.v
Fs.v
Files.v
Process.v
Exec.v
Syscalls.v
Trap.v
Mkfs.v
LockProof.v
BioList.v
BioInv.v
BioProof.v
LogSpec.v
Sample.v
LogProof.v
LogThm.v
FsProof.v
FsThm.v
FileInv.v
FileRead.v
FileWrite.v
FileUpdate.v
FileThm.v
LockThm.v
SpinMutex.v
User.v
Ulib.v
UlibProof.v
Grep.v
GrepThm.v
UlibThm.v
Umalloc.v
UmallocInv.v
UmallocProof.v
UmallocThm.v
Shell.v
ShellSpec.v
ShellLex.v
ShellHeap.v
ShellParse.v
ShellThm.v
Progs.v
UTest.v
Usertests.v
Grind.v
GrindThm.v
