(* ===== verification/Prelude.v ===== *)
(** * A verification development for xv6 with a buddy and a slab allocator

    The repository is the xv6 kernel for RISC-V in which the page allocator is
    replaced by a buddy allocator (lib/buddy_alloc) and small kernel objects
    come from a slab allocator (lib/slab_alloc).  The development translates
    the two libraries, the C code of the kernel, the tool that builds the file
    system and the user programs, and proves the properties listed below.

    ** How the code is modelled

    C code is a state and error monad (Memory): an operation takes a state to a
    result and a new state, or ends in [Panic], a failed [Assert] with its
    source line, a memory [Fault], or [Diverge] when a loop runs out of fuel.
    RAM is a map from addresses to bytes with a range of backed addresses; the
    structs whose bytes matter (free lists, page tables, buffers, pipes,
    trapframes, heap blocks, command trees) are in RAM at the offsets of the C
    layout, the others are records (KState).  Integers are [Z] with the
    conversions of C written out (CInt).  Pointers to array elements are
    indices, locks and sleep channels are names.

    What is not C code under src/ is a parameter: the devices and the linker
    symbols ([Device], [Machine] in KState), the disk driver as the buffer cache
    sees it ([Disk], with the laws [DiskLaws] in BioInv), the operating system
    of a user program ([Os] in User, [TestOs] in UTest for programs of several
    processes, with [Stream], [Brk] and [ForkLaws] for what a file, sbrk, fork
    and wait do).  Sample has a concrete machine and disk; the examples at the
    end of the theorem files run on it or on small operating systems of their
    own.

    ** Files

    - Prelude, CInt, Memory, KMonad, Blocks: tactics, integers, RAM, the monad,
      loops and record update, blocks of bytes.
    - Buddy (lib/buddy_alloc), BuddyInv, BuddyOps, BuddyProof, BuddyInit and
      BuddyThm: the buddy allocator, its invariant and its theorems.
      PageAlloc: the interface [PageAllocator] that its clients use, and its
      instance.
    - Slab (lib/slab_alloc), SlabInv, SlabProof, SlabThm: the slab
      allocator over any [PageAllocator].
    - KString (kernel/string.c).
    - Vm (kernel/vm.c, riscv.h), VmInv, VmWalk, VmMap, VmUser, VmSpace,
      VmCopy, VmFree, VmThm: page tables and user memory over any
      [PageAllocator].
    - Riscv, KState: registers and the state of the kernel.  Spinlock, Sched
      (spinlock.c, sleeplock.c and the scheduling part of proc.c), KAlloc
      (buddy_alloc.c, slab_alloc.c, kalloc.c of the kernel), Console (uart.c,
      printf.c, console.c), Virtio, Bio, Log, Fs, Files (file.c, pipe.c),
      Process (proc.c), Exec, Syscalls (syscall.c, sysproc.c, sysfile.c), Trap
      (trap.c, plic.c, start.c, main.c).  Mkfs (mkfs/mkfs.c).
    - LockProof, LockThm: critical sections of one thread, wakeup, the locked
      allocators.  SpinMutex: spinlock.c on any number of harts.
    - BioList, BioInv, BioProof: the contract of the buffer cache.
      LogSpec, LogProof, LogThm: the log and its recovery.  FsProof,
      FsThm: changing blocks in a transaction, and the free map of fs.c.
      FileInv: files as the bytes of the blocks their inodes name, and what
      adding and writing blocks does to them; FileRead (bmap of a block that
      is there, readi), FileWrite (bmap that allocates, one block of writei),
      FileUpdate (iupdate, ilock, the loop and the end of writei), FileThm.
    - User, Ulib (ulib.c, printf.c of user/), UlibProof, UlibThm; Grep,
      GrepThm; Umalloc, UmallocInv, UmallocProof, UmallocThm; Shell (sh.c),
      ShellSpec, ShellLex, ShellHeap, ShellParse, ShellThm; Progs (echo, cat, wc,
      ls, kill, ln, mkdir, rm, ps, buddy_info, init, zombie).
    - UTest: processes that fork, wait, exec and exit; Usertests
      (usertests.c); Grind, GrindThm (grind.c, forktest.c, stressfs.c).

    ** What the theorems show

    - Buddy allocator: initialisation, allocation and release implement an
      abstract allocator over lists of page numbers; reachable states partition
      the working pages, hand out disjoint blocks and do not fail on valid
      requests; invalid requests end in the documented assertion.  Two
      theorems show behaviours that differ from the comments: blocks are never
      merged on RISC-V, and with a signed [char] a live page is handed out twice.
    - Slab allocator: cells are disjoint, marked exactly while in use, and the
      pages go back to the page allocator; releasing a cell of a page that is
      not the first of its list corrupts the lists.
    - Virtual memory: mapping, growing, duplicating and releasing address
      spaces change the abstract page table as intended and leak no page, and
      copies between kernel and user move the bytes the page table says or fail.
    - Locks: mutual exclusion and progress over all interleavings of harts; on
      one thread the locked allocators equal the libraries, and wakeup wakes
      exactly the sleepers on its channel.
    - Buffer cache and log: bread and brelse refine a view of blocks in use;
      log_write absorbs; a commit is atomic under a crash after any number of
      block writes, and recovery may itself be interrupted.
    - File system: balloc returns the first free block, zeroed, and marks it
      alone; bfree clears the mark or panics; one undoes the other.
    - Files: inside a transaction readi delivers the bytes of the file and
      writei makes the file have the bytes written and no other change, with
      the inode on disk updated; other files keep their blocks and bytes; what
      is written is read back; ilock loads the inode that iupdate stored; a
      write of the size filewrite uses stays below
      the number of blocks begin_op reserves in the log.
    - User programs: malloc and free give separate buffers over every sequence
      of calls; the matcher of grep computes the language of its pattern, and
      grep prints the matching lines; atoi reads what printf writes; the parser
      of the shell builds the tree of every line of the grammar, and the child
      starts exactly the programs of the command with the right open files.
      The generator of grind computes the documented recurrence, and forktest
      passes on every system with the contract of fork and wait.

    ** Fuel

    Loops with a counter run as often as the counter allows.  Loops over lists
    or strings in RAM get the number of nodes or bytes that fit into RAM, so
    that a well-formed list or string ends first; the theorems show that they
    return.  Loops that wait for another hart, a device or a process get
    [rounds] iterations of the [Machine].  The parser of the shell gets four
    calls per character of the line; runcmd the depth that a tree of this
    line can have at most.  grep, cat, wc and ls take fuel for the pieces of the
    file; the theorem on grep asks for one more than the bytes of the file.  Loops of
    the test programs that only the system ends get [turns] of the [Image].

    ** Not modelled

    - Assembly (swtch.S, trampoline.S, kernelvec.S, entry.S, initcode.S):
      instructions, not C; what the C code relies on is part of [Machine].
    - ramdisk.c: it uses fields and constants that no header declares any more
      ([flags], [B_DIRTY], [RAMDISK]) and is not part of the build.
    - The C++ tests of the two libraries (test/), which run on the host.
    - writei and readi are proved for kernel addresses, as directories and exec
      use them; for user addresses they go through copyin and copyout, which
      are proved on their own (VmThm).
    - No theorems are stated about the files Console, Virtio, Files,
      Process, Exec, Syscalls, Trap, Mkfs, Progs and Usertests, and
      of Fs only about the free map, inodes on disk and the contents of files; their
      definitions are translations of the source that the kernel type-checks
      and that can be evaluated. *)

From stdpp Require Export base list list_numbers gmap numbers strings sorting.
From Stdlib Require Export ZArith Lia.

#[global] Open Scope Z_scope.
#[global] Set Default Goal Selector "!".

(** ** Automation shared by every file *)

Create HintDb kernel discriminated.
#[export] Hint Constants Opaque : kernel.

(** Split the booleans the source's conditions become into propositions. *)
Ltac bool_to_prop :=
  repeat match goal with
  | H : (_ =? _) = true |- _ => apply Z.eqb_eq in H
  | H : (_ =? _) = false |- _ => apply Z.eqb_neq in H
  | H : (_ <? _) = true |- _ => apply Z.ltb_lt in H
  | H : (_ <? _) = false |- _ => apply Z.ltb_ge in H
  | H : (_ <=? _) = true |- _ => apply Z.leb_le in H
  | H : (_ <=? _) = false |- _ => apply Z.leb_gt in H
  | H : (_ && _)%bool = true |- _ => apply andb_prop in H as [? ?]
  | H : (_ || _)%bool = false |- _ => apply orb_false_elim in H as [? ?]
  | H : negb _ = true |- _ => apply negb_true_iff in H
  | H : negb _ = false |- _ => apply negb_false_iff in H
  end.

(** Case on the first integer comparison of the goal, discarding the branch
    that arithmetic refutes. *)
Ltac case_cmp :=
  match goal with
  | |- context [?a =? ?b] => destruct (Z.eqb_spec a b); try lia
  | |- context [?a <? ?b] => destruct (Z.ltb_spec a b); try lia
  | |- context [?a <=? ?b] => destruct (Z.leb_spec a b); try lia
  end.

(** Closed arithmetic side conditions of the witnesses. *)
Ltac closed := first [lia | cbn; lia | by vm_compute].

(** ** Lists and integers *)

Lemma pow2_pos (n : Z) : 0 <= n -> 0 < 2 ^ n.
Proof. intros. apply Z.pow_pos_nonneg; lia. Qed.

Lemma pow2_succ (n : Z) : 0 <= n -> 2 ^ (n + 1) = 2 * 2 ^ n.
Proof. intros. rewrite Z.pow_add_r, Z.mul_comm by lia. reflexivity. Qed.

Lemma pow2_mono (a b : Z) : 0 <= a <= b -> 2 ^ a <= 2 ^ b.
Proof. intros. apply Z.pow_le_mono_r; lia. Qed.

Lemma divide_pow2_le (a b x : Z) : 0 <= a <= b -> (2 ^ b | x) -> (2 ^ a | x).
Proof.
  intros Hab Hx. etransitivity; [|exact Hx].
  exists (2 ^ (b - a)). rewrite <- Z.pow_add_r by lia. f_equal; lia.
Qed.

Lemma seqZ_split (a n k : Z) :
  0 <= k <= n -> seqZ a n = seqZ a k ++ seqZ (a + k) (n - k).
Proof. intros. rewrite <- seqZ_app by lia. f_equal; lia. Qed.

Lemma list_insert_middle {A} (l1 l2 : list A) (x y : A) :
  <[length l1 := y]> (l1 ++ x :: l2) = l1 ++ y :: l2.
Proof. rewrite insert_app_r_alt by lia. by rewrite Nat.sub_diag. Qed.

Lemma lookup_middle {A} (l1 l2 : list A) (x : A) :
  (l1 ++ x :: l2) !! length l1 = Some x.
Proof. rewrite lookup_app_r by lia. by rewrite Nat.sub_diag. Qed.

Lemma NoDup_Z_length (l : list Z) (n : Z) :
  0 <= n -> NoDup l -> (forall q, q ∈ l -> 0 <= q < n) -> Z.of_nat (length l) <= n.
Proof.
  intros Hn Hnd Hl. assert (length l <= length (seqZ 0 n))%nat as Hlen.
  { apply submseteq_length, NoDup_submseteq; [done|]. intros q Hq. apply elem_of_seqZ.
    specialize (Hl q Hq). lia. }
  rewrite length_seqZ in Hlen. lia.
Qed.

(** ** A list of lists, updated at one position *)

Lemma elem_of_concat {A} (G : list (list A)) x :
  x ∈ concat G <-> exists k ps, G !! k = Some ps /\ x ∈ ps.
Proof.
  induction G as [|ps G IH]; cbn [concat].
  - split; [by intros ?%elem_of_nil|]. intros (k & ps & H & _). by rewrite lookup_nil in H.
  - rewrite elem_of_app, IH. split.
    + intros [H|(k & ps' & H & Hx)]; [by exists O, ps|by exists (S k), ps'].
    + intros ([|k] & ps' & H & Hx); cbn in H; simplify_eq; eauto.
Qed.

Lemma concat_push {A} (G : list (list A)) k ps x :
  G !! k = Some ps -> concat (<[k := x :: ps]> G) ≡ₚ x :: concat G.
Proof.
  revert k. induction G as [|ps' G IH]; intros [|k] H; cbn in H; simplify_eq.
  - done.
  - cbn [concat insert list_insert]. rewrite (IH k H). by rewrite Permutation_middle.
Qed.

Lemma concat_pop {A} (G : list (list A)) k ps x :
  G !! k = Some (x :: ps) -> concat G ≡ₚ x :: concat (<[k := ps]> G).
Proof.
  intros H. rewrite <- (concat_push (<[k := ps]> G) k ps x).
  - rewrite list_insert_insert_eq. by rewrite list_insert_id.
  - apply list_lookup_insert_eq. by eapply lookup_lt_Some.
Qed.

Lemma concat_level_nodup {A} (G : list (list A)) k ps : NoDup (concat G) -> G !! k = Some ps -> NoDup ps.
Proof.
  revert k. induction G as [|qs G IH]; intros [|k] Hnd Hk; cbn in Hk; simplify_eq;
    cbn [concat] in Hnd; apply NoDup_app in Hnd as (? & _ & ?); eauto.
Qed.

Lemma concat_levels_apart {A} (G : list (list A)) i j ps qs x :
  NoDup (concat G) -> G !! i = Some ps -> G !! j = Some qs -> i <> j -> x ∈ ps -> x ∉ qs.
Proof.
  revert i j. induction G as [|rs G IH]; intros [|i] [|j] Hnd Hi Hj Hne Hx Hq; cbn in Hi, Hj; simplify_eq;
    cbn [concat] in Hnd; apply NoDup_app in Hnd as (_ & Hd & Hnd).
  - apply (Hd x Hx), elem_of_concat. eauto.
  - apply (Hd x Hq), elem_of_concat. eauto.
  - eapply (IH i j); eauto.
Qed.

(** ** Counting over a range *)

Section Filter.
Context {A : Type} (P Q : A -> Prop) `{!forall x, Decision (P x)} `{!forall x, Decision (Q x)}.

Lemma filter_agree (l : list A) : (forall x, x ∈ l -> (P x <-> Q x)) -> filter P l = filter Q l.
Proof.
  induction l as [|x l IH]; intros Hl; [done|].
  assert (P x <-> Q x) by (apply Hl; by left). rewrite !filter_cons, IH by (intros; apply Hl; by right).
  repeat case_decide; tauto.
Qed.
Lemma filter_full (l : list A) : (forall x, x ∈ l -> P x) -> filter P l = l.
Proof.
  induction l as [|x l IH]; intros Hl; [done|].
  rewrite filter_cons_True by (apply Hl; by left). f_equal. apply IH. intros. apply Hl. by right.
Qed.
Lemma filter_none (l : list A) : (forall x, x ∈ l -> ~ P x) -> filter P l = [].
Proof.
  induction l as [|x l IH]; intros Hl; [done|].
  rewrite filter_cons_False by (apply Hl; by left). apply IH. intros. apply Hl. by right.
Qed.
End Filter.

(** Flipping one position of a predicate changes the count by one. *)
Lemma count_flip (P Q : Z -> Prop) `{!forall i, Decision (P i)} `{!forall i, Decision (Q i)} (n i : Z) :
  0 <= i < n -> ~ P i -> Q i -> (forall j, 0 <= j < n -> j <> i -> (P j <-> Q j)) ->
  length (filter Q (seqZ 0 n)) = S (length (filter P (seqZ 0 n))).
Proof.
  intros Hi HP HQ He.
  rewrite (seqZ_split 0 n i), (seqZ_split (0 + i) (n - i) 1) by lia.
  rewrite !filter_app, !length_app, Z.add_0_l.
  assert (forall a k, 0 <= a -> a + k <= n -> (i < a \/ a + k <= i) ->
    filter Q (seqZ a k) = filter P (seqZ a k)) as Hf.
  { intros a k Ha Hk Hd. apply filter_agree. intros j Hj.
    apply elem_of_seqZ in Hj. symmetry. apply He; lia. }
  rewrite (Hf 0) by lia. change (seqZ i 1) with [i].
  rewrite filter_cons_True, filter_cons_False by done. rewrite !filter_nil. cbn [length]. rewrite (Hf (i + 1)) by lia. lia.
Qed.

Lemma count_prefix (P : Z -> Prop) `{!forall i, Decision (P i)} (n i : Z) :
  0 <= i <= n -> (forall j, 0 <= j < i -> P j) -> i <= Z.of_nat (length (filter P (seqZ 0 n))).
Proof.
  intros Hi HP. rewrite (seqZ_split 0 n i), filter_app, length_app by lia.
  assert (filter P (seqZ 0 i) = seqZ 0 i) as ->.
  { apply filter_full. intros j Hj. apply elem_of_seqZ in Hj. apply HP. lia. }
  rewrite length_seqZ. lia.
Qed.

Lemma count_none (P : Z -> Prop) `{!forall i, Decision (P i)} (n : Z) :
  (forall j, 0 <= j < n -> ~ P j) -> length (filter P (seqZ 0 n)) = O.
Proof.
  intros HP. assert (filter P (seqZ 0 n) = []) as ->; [|done].
  apply filter_none. intros j Hj. apply elem_of_seqZ in Hj. apply HP. lia.
Qed.

Lemma count_unique (P : Z -> Prop) `{!forall i, Decision (P i)} (n i j : Z) :
  length (filter P (seqZ 0 n)) = 1%nat -> 0 <= i < n -> 0 <= j < n -> P i -> P j -> i = j.
Proof.
  intros H1 Hi Hj Pi Pj.
  assert (forall x, 0 <= x < n -> P x -> x ∈ filter P (seqZ 0 n)) as Hin.
  { intros x Hx Px. apply list_elem_of_filter. split; [done|]. apply elem_of_seqZ. lia. }
  pose proof (Hin i Hi Pi) as H2. pose proof (Hin j Hj Pj) as H3.
  destruct (filter P (seqZ 0 n)) as [|x [|y l]]; cbn in H1; try lia.
  apply list_elem_of_singleton in H2, H3. congruence.
Qed.
