(* ===== verification/CInt.v ===== *)
(** * C integer types at their width

    The conversions that the C code performs implicitly are written out with
    the functions of this file: [u8], [u32], [u64] reduce modulo the width,
    [i8], [i32], [i64] reduce to the two's complement representative.  [int]
    is 32 bits wide, [uint64] and pointers are 64 bits wide. *)

From S2P Require Import Prelude.

Definition u8 (z : Z) : Z := z mod 2 ^ 8.
Definition u16 (z : Z) : Z := z mod 2 ^ 16.
Definition u32 (z : Z) : Z := z mod 2 ^ 32.
Definition u64 (z : Z) : Z := z mod 2 ^ 64.
Definition i8 (z : Z) : Z := (z + 2 ^ 7) mod 2 ^ 8 - 2 ^ 7.
Definition i16 (z : Z) : Z := (z + 2 ^ 15) mod 2 ^ 16 - 2 ^ 15.
Definition i32 (z : Z) : Z := (z + 2 ^ 31) mod 2 ^ 32 - 2 ^ 31.
Definition i64 (z : Z) : Z := (z + 2 ^ 63) mod 2 ^ 64 - 2 ^ 63.

(** [1 << n] at type [int], and [x << n] at type [uint64].  The shift
    instructions of both build targets (RV64 [sllw]/[sll], x86-64 [shl]) use
    the low five, respectively six, bits of the shift count. *)
Definition shl1_int (n : Z) : Z := i32 (Z.shiftl 1 (n mod 32)).
Definition shl_u64 (x n : Z) : Z := u64 (Z.shiftl x (n mod 64)).

(** The build target.  The C language leaves the signedness of plain [char] to
    the implementation: the RISC-V psABI, for which the kernel is built
    (Makefile), makes it unsigned, the x86-64 ABI, for which CMake builds the
    allocator's tests, makes it signed. *)
Record target := Target { char_signed : bool }.
Definition riscv64 : target := Target false.
Definition x86_64 : target := Target true.

(** The value of a [char] object whose byte is [b]. *)
Definition char_val (tg : target) (b : Z) : Z :=
  if char_signed tg then i8 b else u8 b.

Lemma u8_range z : 0 <= u8 z < 2 ^ 8.
Proof. apply Z.mod_pos_bound; lia. Qed.
Lemma u32_range z : 0 <= u32 z < 2 ^ 32.
Proof. apply Z.mod_pos_bound; lia. Qed.
Lemma u64_range z : 0 <= u64 z < 2 ^ 64.
Proof. apply Z.mod_pos_bound; lia. Qed.
Lemma i32_range z : - 2 ^ 31 <= i32 z < 2 ^ 31.
Proof. unfold i32. pose proof (Z.mod_pos_bound (z + 2 ^ 31) (2 ^ 32)). lia. Qed.

Lemma u8_id z : 0 <= z < 2 ^ 8 -> u8 z = z.
Proof. apply Z.mod_small. Qed.
Lemma u32_id z : 0 <= z < 2 ^ 32 -> u32 z = z.
Proof. apply Z.mod_small. Qed.
Lemma u64_id z : 0 <= z < 2 ^ 64 -> u64 z = z.
Proof. apply Z.mod_small. Qed.
Lemma i32_id z : - 2 ^ 31 <= z < 2 ^ 31 -> i32 z = z.
Proof. intros. unfold i32. rewrite Z.mod_small; lia. Qed.
Lemma i8_id z : - 2 ^ 7 <= z < 2 ^ 7 -> i8 z = z.
Proof. intros. unfold i8. rewrite Z.mod_small; lia. Qed.
Lemma i64_id z : - 2 ^ 63 <= z < 2 ^ 63 -> i64 z = z.
Proof. intros. unfold i64. rewrite Z.mod_small; lia. Qed.

Lemma shl1_int_pow n : 0 <= n < 31 -> shl1_int n = 2 ^ n.
Proof.
  intros. unfold shl1_int. rewrite Z.mod_small, Z.shiftl_1_l by lia.
  apply i32_id. pose proof (pow2_mono n 30). pose proof (pow2_pos n). lia.
Qed.

Lemma char_val_small tg b : 0 <= b < 128 -> char_val tg b = b.
Proof.
  intros. unfold char_val. destruct (char_signed tg).
  - apply i8_id; lia.
  - apply u8_id; lia.
Qed.

(** Remove the width reductions that are the identity in the context. *)
Ltac widths :=
  repeat match goal with
  | |- context [u8 ?z] => rewrite (u8_id z) by lia
  | |- context [u32 ?z] => rewrite (u32_id z) by lia
  | |- context [u64 ?z] => rewrite (u64_id z) by lia
  | |- context [i8 ?z] => rewrite (i8_id z) by lia
  | |- context [i32 ?z] => rewrite (i32_id z) by lia
  | |- context [i64 ?z] => rewrite (i64_id z) by lia
  end.
