(* ===== verification/Memory.v ===== *)
(** * Physical memory and the monad of C code

    RAM is a finite map from byte addresses to bytes together with the range of
    addresses that are backed; a load or a store outside that range, such as
    one through a null pointer, faults.  Multi-byte objects are little endian.

    The code is written in a state monad whose outcomes are a result with the
    new state, a [panic], a failed [ASSERT] (with its source line), a memory
    fault, or a loop whose fuel ran out ([Diverge]). *)

From S2P Require Import Prelude CInt.

(** ** Outcomes and the monad *)

Inductive res (A : Type) : Type :=
| Ok (a : A)
| Panic (msg : string)
| Assert (line : Z)
| Fault (addr : Z)
| Diverge.
Arguments Ok {A} a.
Arguments Panic {A} msg.
Arguments Assert {A} line.
Arguments Fault {A} addr.
Arguments Diverge {A}.

Definition M (S A : Type) : Type := S -> res (A * S).

Definition ret {S A} (a : A) : M S A := fun s => Ok (a, s).
Definition bind {S A B} (c : M S A) (k : A -> M S B) : M S B := fun s =>
  match c s with
  | Ok (a, s') => k a s'
  | Panic msg => Panic msg
  | Assert line => Assert line
  | Fault addr => Fault addr
  | Diverge => Diverge
  end.
Definition panic {S A} (msg : string) : M S A := fun _ => Panic msg.
Definition diverge {S A} : M S A := fun _ => Diverge.
(** The [ASSERT] macro of the two allocators: it prints its line and panics. *)
Definition assert_line {S} (line : Z) (c : bool) : M S unit := fun s =>
  if c then Ok (tt, s) else Assert line.
Definition when {S} (c : bool) (k : M S unit) : M S unit :=
  if c then k else ret tt.
Definition get {S} : M S S := fun s => Ok (s, s).
Definition put {S} (s : S) : M S unit := fun _ => Ok (tt, s).

Declare Scope c_scope.
Delimit Scope c_scope with c.
Notation "x <- c ;; k" := (bind c (fun x => k))
  (at level 100, c at next level, right associativity) : c_scope.
Notation "'let*' p := c 'in' k" := (bind c (fun x => match x with p => k end))
  (at level 100, p pattern, c at next level, right associativity) : c_scope.
Notation "c ;;; k" := (bind c (fun _ => k))
  (at level 100, right associativity) : c_scope.
#[global] Open Scope c_scope.

(** ** RAM *)

Record ram := Ram { ram_lo : Z; ram_hi : Z; ram_bytes : gmap Z Z }.

Definition byte_at (m : ram) (a : Z) : Z := u8 (default 0 (ram_bytes m !! a)).
Definition set_byte (m : ram) (a v : Z) : ram :=
  Ram (ram_lo m) (ram_hi m) (<[a := u8 v]> (ram_bytes m)).

(** [n] bytes at [a], little endian. *)
Fixpoint peek (n : nat) (m : ram) (a : Z) : Z :=
  match n with
  | O => 0
  | S n => byte_at m a + 256 * peek n m (a + 1)
  end.
Fixpoint poke (n : nat) (m : ram) (a v : Z) : ram :=
  match n with
  | O => m
  | S n => poke n (set_byte m a v) (a + 1) (v / 256)
  end.

Definition backed (m : ram) (a : Z) (n : nat) : bool :=
  (ram_lo m <=? a) && (a + Z.of_nat n <=? ram_hi m).

Definition load (n : nat) (a : Z) : M ram Z := fun m =>
  if backed m a n then Ok (peek n m a, m) else Fault a.
Definition store (n : nat) (a v : Z) : M ram unit := fun m =>
  if backed m a n then Ok (tt, poke n m a v) else Fault a.

(** Computations on the RAM, in a state of which it is a part. *)
Class RamIn (St : Type) := inram : forall A, M ram A -> M St A.
Arguments inram {St _ A} c.
#[export] Instance ram_self : RamIn ram := fun A c => c.
(** On the RAM itself they are what they are. *)
Ltac unram := unfold inram, ram_self; fold ram_self.

(** The object types of the source: pointers and [uint64], [int], [uint],
    and bytes. *)
Definition ld64 (a : Z) : M ram Z := load 8 a.
Definition ld32 (a : Z) : M ram Z := load 4 a.
Definition ldint (a : Z) : M ram Z := v <- load 4 a ;; ret (i32 v).
Definition ldchar (tg : target) (a : Z) : M ram Z :=
  v <- load 1 a ;; ret (char_val tg v).
Definition ld8 (a : Z) : M ram Z := load 1 a.
Definition st64 (a v : Z) : M ram unit := store 8 a v.
Definition st32 (a v : Z) : M ram unit := store 4 a v.
Definition st8 (a v : Z) : M ram unit := store 1 a v.

(** ** Monad equations *)

Section MonadLaws.
Context {St A B C : Type}.

Lemma bind_ok (c : M St A) (k : A -> M St B) s a s' :
  c s = Ok (a, s') -> bind c k s = k a s'.
Proof. intros H. unfold bind. by rewrite H. Qed.

Lemma bind_ret (a : A) (k : A -> M St B) s : bind (ret a) k s = k a s.
Proof. reflexivity. Qed.

Lemma bind_assoc (c : M St A) (k : A -> M St B) (k' : B -> M St C) s :
  bind (bind c k) k' s = bind c (fun a => bind (k a) k') s.
Proof. unfold bind. by destruct (c s) as [[? ?]| | | |]. Qed.

Lemma bind_inv (c : M St A) (k : A -> M St B) s b s' :
  bind c k s = Ok (b, s') ->
  exists a s1, c s = Ok (a, s1) /\ k a s1 = Ok (b, s').
Proof.
  unfold bind. destruct (c s) as [[a s1]| | | |] eqn:E; intros H; try discriminate.
  eauto.
Qed.

Lemma assert_true line s :
  assert_line (S := St) line true s = Ok (tt, s).
Proof. reflexivity. Qed.
End MonadLaws.

(** ** Bytes *)

Lemma byte_at_range m a : 0 <= byte_at m a < 256.
Proof. apply u8_range. Qed.

Lemma byte_at_set m a v x :
  byte_at (set_byte m a v) x = if decide (x = a) then u8 v else byte_at m x.
Proof.
  unfold byte_at, set_byte; simpl. case_decide as E.
  - subst. rewrite lookup_insert_eq. simpl. unfold u8. by rewrite Z.mod_mod.
  - by rewrite lookup_insert_ne.
Qed.

Lemma ram_lo_poke n m a v : ram_lo (poke n m a v) = ram_lo m.
Proof. revert m a v. induction n as [|n IH]; intros; simpl; [done|]. by rewrite IH. Qed.
Lemma ram_hi_poke n m a v : ram_hi (poke n m a v) = ram_hi m.
Proof. revert m a v. induction n as [|n IH]; intros; simpl; [done|]. by rewrite IH. Qed.

Lemma byte_at_poke_ne n m a v x :
  x < a \/ a + Z.of_nat n <= x -> byte_at (poke n m a v) x = byte_at m x.
Proof.
  revert m a v. induction n as [|n IH]; intros m a v Hx; cbn [poke]; [done|].
  rewrite IH by lia. rewrite byte_at_set. case_decide; [lia|done].
Qed.

Lemma peek_ext n m m' a :
  (forall x, a <= x < a + Z.of_nat n -> byte_at m x = byte_at m' x) ->
  peek n m a = peek n m' a.
Proof.
  revert a. induction n as [|n IH]; intros a H; cbn [peek]; [done|].
  rewrite (H a) by lia. rewrite IH; [done|]. intros. apply H. lia.
Qed.

Lemma peek_range n m a : 0 <= peek n m a < 256 ^ Z.of_nat n.
Proof.
  revert a. induction n as [|n IH]; intros a; cbn [peek]; [lia|].
  pose proof (byte_at_range m a). pose proof (IH (a + 1)).
  rewrite Nat2Z.inj_succ, Z.pow_succ_r by lia. lia.
Qed.

Lemma peek_poke_eq n m a v : peek n (poke n m a v) a = v mod 256 ^ Z.of_nat n.
Proof.
  revert m a v. induction n as [|n IH]; intros m a v; cbn [peek poke].
  - by rewrite Z.mod_1_r.
  - rewrite IH, byte_at_poke_ne by lia. rewrite byte_at_set.
    case_decide; [|done]. unfold u8.
    rewrite Nat2Z.inj_succ, Z.pow_succ_r by lia.
    by rewrite Z.rem_mul_r by (try apply Z.pow_nonzero; lia).
Qed.

Lemma peek_poke_ne n k m a v x :
  x + Z.of_nat n <= a \/ a + Z.of_nat k <= x ->
  peek n (poke k m a v) x = peek n m x.
Proof. intros. apply peek_ext. intros. apply byte_at_poke_ne. lia. Qed.

Lemma backed_poke n m a v x k : backed (poke n m a v) x k = backed m x k.
Proof. unfold backed. by rewrite ram_lo_poke, ram_hi_poke. Qed.

Lemma backed_true m a n :
  ram_lo m <= a -> a + Z.of_nat n <= ram_hi m -> backed m a n = true.
Proof. intros. unfold backed. apply andb_true_intro. split; apply Z.leb_le; lia. Qed.

(** ** Running loads and stores *)

Lemma load_ok n a m : backed m a n = true -> load n a m = Ok (peek n m a, m).
Proof. intros H. unfold load. by rewrite H. Qed.
Lemma store_ok n a v m : backed m a n = true -> store n a v m = Ok (tt, poke n m a v).
Proof. intros H. unfold store. by rewrite H. Qed.

Lemma ld64_ok a m : backed m a 8 = true -> ld64 a m = Ok (peek 8 m a, m).
Proof. apply load_ok. Qed.
Lemma ld32_ok a m : backed m a 4 = true -> ld32 a m = Ok (peek 4 m a, m).
Proof. apply load_ok. Qed.
Lemma ld8_ok a m : backed m a 1 = true -> ld8 a m = Ok (peek 1 m a, m).
Proof. apply load_ok. Qed.
Lemma ldint_ok a m : backed m a 4 = true -> ldint a m = Ok (i32 (peek 4 m a), m).
Proof. intros H. unfold ldint. by rewrite (bind_ok _ _ _ _ _ (load_ok _ _ _ H)). Qed.
Lemma ldchar_ok tg a m :
  backed m a 1 = true -> ldchar tg a m = Ok (char_val tg (peek 1 m a), m).
Proof. intros H. unfold ldchar. by rewrite (bind_ok _ _ _ _ _ (load_ok _ _ _ H)). Qed.
Lemma st64_ok a v m : backed m a 8 = true -> st64 a v m = Ok (tt, poke 8 m a v).
Proof. apply store_ok. Qed.
Lemma st32_ok a v m : backed m a 4 = true -> st32 a v m = Ok (tt, poke 4 m a v).
Proof. apply store_ok. Qed.
Lemma st8_ok a v m : backed m a 1 = true -> st8 a v m = Ok (tt, poke 1 m a v).
Proof. apply store_ok. Qed.

Lemma peek1_byte m a : peek 1 m a = byte_at m a.
Proof. cbn [peek]. lia. Qed.

Lemma byte_at_poke1 m a v x :
  byte_at (poke 1 m a v) x = if decide (x = a) then u8 v else byte_at m x.
Proof. apply byte_at_set. Qed.

Lemma peek8_poke_eq m a v : 0 <= v < 2 ^ 64 -> peek 8 (poke 8 m a v) a = v.
Proof. intros. rewrite peek_poke_eq. by apply Z.mod_small. Qed.
Lemma peek4_poke_eq m a v : 0 <= v < 2 ^ 32 -> peek 4 (poke 4 m a v) a = v.
Proof. intros. rewrite peek_poke_eq. by apply Z.mod_small. Qed.
Lemma peek8_range m a : 0 <= peek 8 m a < 2 ^ 64.
Proof. apply peek_range. Qed.
Lemma peek4_range m a : 0 <= peek 4 m a < 2 ^ 32.
Proof. apply peek_range. Qed.

(** Overwriting an object with its own value changes no byte. *)
Lemma byte_at_poke_id n m a x : byte_at (poke n m a (peek n m a)) x = byte_at m x.
Proof.
  revert m a. induction n as [|n IH]; intros m a; cbn [poke peek]; [done|].
  replace ((byte_at m a + 256 * peek n m (a + 1)) / 256)
    with (peek n (set_byte m a (byte_at m a + 256 * peek n m (a + 1))) (a + 1)).
  - rewrite IH, byte_at_set. case_decide as E; [|done]. subst x.
    unfold u8. rewrite Z.add_comm, Z.mul_comm.
    change 256 with (2 ^ 8). rewrite Z.add_comm, Z.mod_add by lia.
    apply Z.mod_small, byte_at_range.
  - pose proof (byte_at_range m a).
    rewrite Z.mul_comm, Z.div_add, Z.div_small, Z.add_0_l by lia.
    apply peek_ext. intros y Hy. rewrite byte_at_set. case_decide; [lia|done].
Qed.

(** ** Memories that agree outside a set of addresses *)

Definition same_off (P : Z -> Prop) (m m' : ram) : Prop :=
  ram_lo m' = ram_lo m /\ ram_hi m' = ram_hi m /\
  forall x, ~ P x -> byte_at m' x = byte_at m x.

Lemma same_off_refl P m : same_off P m m.
Proof. by repeat split. Qed.
Lemma same_off_trans P Q R m m' m'' :
  same_off P m m' -> same_off Q m' m'' -> (forall x, P x \/ Q x -> R x) ->
  same_off R m m''.
Proof.
  intros (L1 & H1 & B1) (L2 & H2 & B2) HR. split_and!; [congruence..|].
  intros x Hx. rewrite B2, B1; [done|..]; intros ?; apply Hx, HR; auto.
Qed.
Lemma same_off_weaken (P Q : Z -> Prop) m m' :
  same_off P m m' -> (forall x, P x -> Q x) -> same_off Q m m'.
Proof. intros (? & ? & H) HPQ. split_and!; [done..|]. intros x Hx. apply H. auto. Qed.
Lemma same_off_poke n m a v : same_off (fun x => a <= x < a + Z.of_nat n) m (poke n m a v).
Proof.
  split_and!; [apply ram_lo_poke|apply ram_hi_poke|].
  intros. apply byte_at_poke_ne. lia.
Qed.
Lemma same_off_peek P m m' n a :
  same_off P m m' -> (forall x, a <= x < a + Z.of_nat n -> ~ P x) ->
  peek n m' a = peek n m a.
Proof. intros (_ & _ & H) HP. apply peek_ext. intros. by apply H, HP. Qed.

(** ** Symbolic execution

    [bk] proves that an access is backed, [cstep] runs the load or store at the
    head of a program, [peeks] reads through a sequence of writes. *)

Ltac bk := rewrite ?backed_poke; apply backed_true; lia.

Ltac cstep :=
  first
  [ rewrite bind_ret
  | rewrite bind_assoc
  | erewrite (bind_ok (ld64 _)) by (apply ld64_ok; bk)
  | erewrite (bind_ok (ld32 _)) by (apply ld32_ok; bk)
  | erewrite (bind_ok (ld8 _)) by (apply ld8_ok; bk)
  | erewrite (bind_ok (ldint _)) by (apply ldint_ok; bk)
  | erewrite (bind_ok (ldchar _ _)) by (apply ldchar_ok; bk)
  | erewrite (bind_ok (st64 _ _)) by (apply st64_ok; bk)
  | erewrite (bind_ok (st32 _ _)) by (apply st32_ok; bk)
  | erewrite (bind_ok (st8 _ _)) by (apply st8_ok; bk)
  ]; cbv beta.

Ltac peeks :=
  repeat first
  [ rewrite peek8_poke_eq by lia
  | rewrite peek4_poke_eq by lia
  | rewrite peek_poke_ne by lia ].

(** Discharge a true assertion. *)
Ltac cassert :=
  match goal with
  | |- context [bind (assert_line ?l ?c) ?k ?m] =>
      let H := fresh in
      assert (c = true) as H; [|rewrite H; clear H; rewrite (bind_ok _ _ _ _ _ (assert_true l m)); cbv beta]
  end.
