(* ===== verification/Buddy.v ===== *)
(** * The buddy allocator: data and operations

    A translation of lib/buddy_alloc/buddy_alloc.c.  The allocator's record
    ([buddy_allocator_t]) lives outside the memory it manages; the free lists,
    the list nodes at the start of free blocks and the state table are bytes of
    RAM, at the offsets the C layout gives them, so that a write past the end
    of [lists] lands in [state_table] here as it does there. *)

From S2P Require Import Prelude CInt Memory.

(** ** Data *)

(** [buddy_free_block_t]: the addresses of the fields of the node at [b]. *)
Definition blk_next (b : Z) : Z := b.
Definition blk_prev (b : Z) : Z := b + 8.
Definition blk_list (b : Z) : Z := b + 16.
Definition blk_level (b : Z) : Z := b + 24.
Definition sizeof_block : Z := 32.

(** [buddy_list_t]: a node [head] and the length. *)
Definition list_head (l : Z) : Z := l.
Definition list_len (l : Z) : Z := l + 32.
Definition sizeof_list : Z := 40.

Definition BUDDY_NOTHING : Z := -1.

Record buddy_allocator := Buddy {
  levels : Z;       (* number of block levels *)
  pgsize : Z;       (* page size *)
  lists : Z;        (* address of the array of free lists *)
  state_table : Z;  (* address of the state table *)
  pages : Z;        (* number of working pages *)
  data : Z          (* address of the first working page *)
}.

(** [&mem->lists[lvl]] *)
Definition list_at (al : buddy_allocator) (lvl : Z) : Z :=
  lists al + sizeof_list * lvl.

(** ** List operations *)

Definition list_init (list level : Z) : M ram unit :=
  st64 (blk_prev (list_head list)) 0 ;;;
  st64 (blk_next (list_head list)) 0 ;;;
  st64 (blk_list (list_head list)) list ;;;
  st32 (blk_level (list_head list)) level ;;;
  st64 (list_len list) 0.

Definition insert_block (base_block new_block : Z) : M ram unit :=
  list <- ld64 (blk_list base_block) ;;
  head_level <- ldint (blk_level (list_head list)) ;;
  base_level <- ldint (blk_level base_block) ;;
  assert_line 58 (head_level =? base_level) ;;;
  level <- ldint (blk_level (list_head list)) ;;
  st32 (blk_level new_block) level ;;;
  st64 (blk_list new_block) list ;;;
  st64 (blk_prev new_block) base_block ;;;
  next <- ld64 (blk_next base_block) ;;
  st64 (blk_next new_block) next ;;;
  st64 (blk_next base_block) new_block ;;;
  len <- ld64 (list_len list) ;;
  st64 (list_len list) (u64 (len + 1)).

Definition remove_block (block : Z) : M ram unit :=
  list <- ld64 (blk_list block) ;;
  assert_line 72 (negb (block =? list_head list)) ;;;
  prev <- ld64 (blk_prev block) ;;
  assert_line 74 (negb (prev =? 0)) ;;;
  len <- ld64 (list_len list) ;;
  assert_line 75 (0 <? len) ;;;
  prev <- ld64 (blk_prev block) ;;
  next <- ld64 (blk_next block) ;;
  st64 (blk_next prev) next ;;;
  when (negb (next =? 0)) (st64 (blk_prev next) prev) ;;;
  len <- ld64 (list_len list) ;;
  st64 (list_len list) (u64 (len - 1)).

Definition list_add (list new_block : Z) : M ram unit :=
  insert_block (list_head list) new_block.

(** ** Addresses and page numbers *)

Definition get_page_number (al : buddy_allocator) (page_ptr : Z) : Z :=
  let d := i32 (page_ptr - data al) in
  if negb (u64 d mod pgsize al =? 0) then -1
  else
    let res := i32 (u64 d / pgsize al) in
    if negb ((0 <=? res) && (u64 res <? pages al)) then -1 else res.

Definition get_page_ptr (al : buddy_allocator) (page_number : Z) : Z :=
  if negb ((0 <=? page_number) && (u64 page_number <? pages al)) then 0
  else data al + u64 (pgsize al * u64 page_number).

(** ** Initialisation *)

Definition get_serv_pages (levels pgsize pages : Z) : Z :=
  let serv_size := u64 (u64 (u64 levels * sizeof_list) + pages) in
  u64 (serv_size / pgsize + 1).

(** [for(int i = 0; i < mem->pages; i++)], [n] iterations left. *)
Fixpoint init_state_table_loop (al : buddy_allocator) (n : nat) (i : Z) : M ram unit :=
  match n with
  | O => ret tt
  | S n =>
      st8 (state_table al + i) BUDDY_NOTHING ;;;
      init_state_table_loop al n (i + 1)
  end.

Definition init_state_table (al : buddy_allocator) : M ram unit :=
  init_state_table_loop al (Z.to_nat (pages al)) 0.

(** The top-level blocks: [n] of them left; returns [curr_page] and the
    remaining [pages]. *)
Fixpoint init_lists_top (al : buddy_allocator) (list lvl : Z) (n : nat)
    (curr_page pages : Z) : M ram (Z * Z) :=
  match n with
  | O => ret (curr_page, pages)
  | S n =>
      list_add list curr_page ;;;
      init_lists_top al list lvl n
        (curr_page + u64 (u64 (shl1_int lvl) * pgsize al))
        (u64 (pages - u64 (shl1_int lvl)))
  end.

(** [while(lvl > 0)] *)
Fixpoint init_lists_rest (al : buddy_allocator) (lvl : nat)
    (list curr_page pages : Z) : M ram unit :=
  match lvl with
  | O => ret tt
  | S l =>
      let lvl := Z.of_nat l in
      let list := list - sizeof_list in
      list_init list lvl ;;;
      if u64 (shl1_int lvl) <=? pages then
        list_add list curr_page ;;;
        let curr_page := curr_page + u64 (u64 (shl1_int lvl) * pgsize al) in
        let pages := u64 (pages - u64 (shl1_int lvl)) in
        assert_line 162 (pages <? u64 (shl1_int lvl)) ;;;
        init_lists_rest al l list curr_page pages
      else
        assert_line 162 (pages <? u64 (shl1_int lvl)) ;;;
        init_lists_rest al l list curr_page pages
  end.

Definition init_lists (al : buddy_allocator) : M ram unit :=
  let lvl := levels al - 1 in
  let list := list_at al lvl in
  list_init list lvl ;;;
  let top_lvl_count := Z.shiftr (pages al) lvl in
  let* (curr_page, pages) :=
    init_lists_top al list lvl (Z.to_nat top_lvl_count) (data al) (pages al) in
  assert_line 150 (pages <? u64 (shl1_int lvl)) ;;;
  init_lists_rest al (Z.to_nat lvl) list curr_page pages.

(** The result and the allocator record as the call leaves it: on the two
    early returns the fields not yet assigned keep their old values. *)
Definition lib_buddy_init (mem : buddy_allocator) (levels pgsize pages ptr : Z)
    : M ram (Z * buddy_allocator) :=
  assert_line 172 (0 <? levels) ;;;
  if pgsize <? sizeof_block then ret (-1, mem)
  else
    let serv_pages := get_serv_pages levels pgsize pages in
    if pages <? serv_pages then
      ret (-1, Buddy levels pgsize (lists mem) (state_table mem)
                     (Buddy.pages mem) (data mem))
    else
      let al := Buddy levels pgsize ptr (ptr + u64 (sizeof_list * u64 levels))
                      (u64 (pages - serv_pages))
                      (ptr + u64 (serv_pages * pgsize)) in
      init_state_table al ;;;
      init_lists al ;;;
      ret (0, al).

(** ** Allocation *)

(** [for(int log = 0; log < sizeof(n) * 8; log++)], [k] iterations left. *)
Fixpoint buddy_log2_loop (k : nat) (n log : Z) : Z :=
  match k with
  | O => -1
  | S k => if n =? u64 (shl1_int log) then log else buddy_log2_loop k n (log + 1)
  end.

Definition buddy_log2 (n : Z) : Z := buddy_log2_loop 64 n 0.

(** [while(lvl < mem->levels)] with [k] iterations of fuel. *)
Fixpoint find_free_block_loop (al : buddy_allocator) (k : nat) (lvl : Z) : M ram Z :=
  if lvl <? levels al then
    match k with
    | O => diverge
    | S k =>
        len <- ld64 (list_len (list_at al lvl)) ;;
        if 0 <? len then ld64 (blk_next (list_head (list_at al lvl)))
        else find_free_block_loop al k (lvl + 1)
    end
  else ret 0.

Definition find_free_block (al : buddy_allocator) (lvl : Z) : M ram Z :=
  find_free_block_loop al (Z.to_nat (levels al - lvl)) lvl.

(** [while(initial_lvl > final_lvl)], [k] iterations left. *)
Fixpoint buddy_devide_loop (al : buddy_allocator) (free_block : Z) (k : nat)
    (initial_lvl : Z) : M ram unit :=
  match k with
  | O => ret tt
  | S k =>
      let initial_lvl := initial_lvl - 1 in
      let second_part := free_block + shl_u64 (pgsize al) initial_lvl in
      list_add (list_at al initial_lvl) second_part ;;;
      buddy_devide_loop al free_block k initial_lvl
  end.

Definition buddy_devide (al : buddy_allocator) (free_block final_lvl : Z) : M ram Z :=
  initial_lvl <- ldint (blk_level free_block) ;;
  assert_line 230 (final_lvl <=? initial_lvl) ;;;
  remove_block free_block ;;;
  buddy_devide_loop al free_block (Z.to_nat (initial_lvl - final_lvl)) initial_lvl ;;;
  ret free_block.

Definition lib_buddy_alloc (al : buddy_allocator) (pages : Z) : M ram Z :=
  let lvl := buddy_log2 pages in
  if lvl =? -1 then ret 0
  else
    assert_line 259 (pages =? u64 (shl1_int lvl)) ;;;
    if levels al <=? lvl then ret 0
    else
      free_block <- find_free_block al lvl ;;
      if free_block =? 0 then ret 0
      else
        level <- ldint (blk_level free_block) ;;
        assert_line 267 (lvl <=? level) ;;;
        res_block <- buddy_devide al free_block lvl ;;
        let pn := get_page_number al res_block in
        assert_line 274 (0 <=? pn) ;;;
        st8 (state_table al + pn) lvl ;;;
        ret res_block.

(** ** Release *)

Definition block_exists (al : buddy_allocator) (pn lvl : Z) : bool :=
  if negb ((0 <=? lvl) && (lvl <? levels al)) then false
  else if negb (Z.land pn (i32 (shl1_int lvl - 1)) =? 0) then false
  else if negb ((0 <=? pn) && (u64 (i32 (pn + shl1_int lvl)) <=? pages al)) then false
  else true.

(** [while(lvl < mem->levels)] with [k] iterations of fuel; returns [pn] and
    [lvl] as the loop leaves them. *)
Fixpoint add_free_block_loop (tg : target) (al : buddy_allocator) (k : nat)
    (pn lvl : Z) : M ram (Z * Z) :=
  if lvl <? levels al then
    match k with
    | O => diverge
    | S k =>
        assert_line 320 (block_exists al (i32 pn) lvl) ;;;
        let npn := Z.lxor pn (shl_u64 1 lvl) in
        if negb (block_exists al (i32 npn) lvl) then ret (pn, lvl)
        else
          st <- ldchar tg (state_table al + npn) ;;
          if negb (st =? BUDDY_NOTHING) then ret (pn, lvl)
          else
            let free_block := get_page_ptr al (i32 npn) in
            level <- ldint (blk_level free_block) ;;
            assert_line 331 (level <=? lvl) ;;;
            level <- ldint (blk_level free_block) ;;
            if level <? lvl then ret (pn, lvl)
            else
              remove_block free_block ;;;
              add_free_block_loop tg al k (if npn <? pn then npn else pn) (lvl + 1)
    end
  else ret (pn, lvl).

Definition add_free_block (tg : target) (al : buddy_allocator) (pn lvl : Z) : M ram unit :=
  assert_line 316 (lvl <? levels al) ;;;
  assert_line 317 (block_exists al (i32 pn) lvl) ;;;
  let* (pn, lvl) := add_free_block_loop tg al (Z.to_nat (levels al - lvl)) pn lvl in
  list_add (list_at al lvl) (get_page_ptr al (i32 pn)).

Definition lib_buddy_free (tg : target) (al : buddy_allocator) (addr : Z) : M ram unit :=
  let pn := get_page_number al addr in
  if pn =? -1 then panic "buddy_free - address is not correct!"
  else
    lvl <- ldchar tg (state_table al + pn) ;;
    if negb (0 <=? lvl) then panic "buddy_free - address is not correct!"
    else
      assert_line 367 (lvl <? levels al) ;;;
      st8 (state_table al + pn) BUDDY_NOTHING ;;;
      add_free_block tg al (u64 pn) lvl.

(** ** Statistics *)

(** [for(int lvl = 0; lvl < mem->levels; lvl++)], [k] iterations left: the
    accumulated [free_pages] and the counts of the levels visited. *)
Fixpoint buddy_stat_loop (al : buddy_allocator) (k : nat) (lvl free_pages : Z)
    : M ram (Z * list Z) :=
  match k with
  | O => ret (free_pages, [])
  | S k =>
      count <- ld64 (list_len (list_at al lvl)) ;;
      let* (free_pages, counts) :=
        buddy_stat_loop al k (lvl + 1) (u64 (free_pages + shl_u64 count lvl)) in
      ret (free_pages, count :: counts)
  end.

(** The three out-parameters are optional: a null pointer is [false]. *)
Definition lib_buddy_stat (al : buddy_allocator) (total free free_by_size : bool)
    : M ram (option Z * option Z * option (list Z)) :=
  let serv_pages := i32 (u64 (data al - lists al) / pgsize al) in
  let* (free_pages, counts) := buddy_stat_loop al (Z.to_nat (levels al)) 0 0 in
  ret (if total then Some (u64 (pages al + u64 serv_pages)) else None,
       if free then Some free_pages else None,
       if free_by_size then Some counts else None).
