(* ===== verification/BuddyInv.v ===== *)
(** * The buddy allocator: representation invariant

    The abstract state of the allocator is, for each level, the list of the
    page numbers of its free blocks, and the list of the allocated blocks.
    This file relates it to the bytes in RAM and proves what each list
    operation does to the representation. *)

From S2P Require Import Prelude CInt Memory Buddy.

(** The address of page [pn]. *)
Definition baddr (al : buddy_allocator) (pn : Z) : Z := data al + pgsize al * pn.

(** The layout that [lib_buddy_init] produces, within the bounds under which
    the [int] arithmetic of the code is exact. *)
Record geom (al : buddy_allocator) (m : ram) : Prop := {
  g_levels : 0 < levels al <= 30;
  g_pgsize : 32 <= pgsize al;
  g_pages : 0 <= pages al;
  g_lists : 0 < lists al;
  g_lo : ram_lo m <= lists al;
  g_table : state_table al = lists al + 40 * levels al;
  g_data : state_table al + pages al <= data al;
  g_size : pgsize al * pages al < 2 ^ 31;
  g_hi : baddr al (pages al) <= ram_hi m;
  g_addr : ram_hi m < 2 ^ 64
}.

Lemma geom_same al m m' P : same_off P m m' -> geom al m -> geom al m'.
Proof.
  intros (Hlo & Hhi & _) [? ? ? ? ? ? ? ? ? ?]. split; rewrite ?Hlo, ?Hhi; done.
Qed.

(** The nodes of a free list, from the pointer [p]: every node's [prev] is the
    list's head, because [insert_block] does not update the [prev] of the node
    it pushes down. *)
Fixpoint chain (al : buddy_allocator) (m : ram) (lvl p : Z) (bs : list Z) : Prop :=
  match bs with
  | [] => p = 0
  | pn :: bs =>
      p = baddr al pn /\
      peek 8 m (blk_prev p) = list_at al lvl /\
      peek 8 m (blk_list p) = list_at al lvl /\
      peek 4 m (blk_level p) = lvl /\
      chain al m lvl (peek 8 m (blk_next p)) bs
  end.

(** List [lvl] holds the blocks [bs] and its length field is [n]. *)
Record list_rep (al : buddy_allocator) (m : ram) (lvl n : Z) (bs : list Z) : Prop := {
  lr_prev : peek 8 m (blk_prev (list_at al lvl)) = 0;
  lr_list : peek 8 m (blk_list (list_at al lvl)) = list_at al lvl;
  lr_level : peek 4 m (blk_level (list_at al lvl)) = lvl;
  lr_len : peek 8 m (list_len (list_at al lvl)) = n;
  lr_chain : chain al m lvl (peek 8 m (blk_next (list_at al lvl))) bs
}.

(** The bytes of the list head [lvl] and of the node at page [pn]. *)
Definition in_head (al : buddy_allocator) (lvl x : Z) : Prop :=
  list_at al lvl <= x < list_at al lvl + 40.
Definition in_node (al : buddy_allocator) (pn x : Z) : Prop :=
  baddr al pn <= x < baddr al pn + 32.

Section Geometry.
Context (al : buddy_allocator) (m : ram) (G : geom al m).

Lemma baddr_range pn : 0 <= pn < pages al ->
  data al <= baddr al pn /\ baddr al pn + pgsize al <= ram_hi m.
Proof using G.
  intros H. destruct G as [? Hpg ? ? ? ? ? ? Hhi ?]. unfold baddr in *. nia.
Qed.

Lemma baddr_apart pn pn' : pn <> pn' ->
  baddr al pn + 32 <= baddr al pn' \/ baddr al pn' + 32 <= baddr al pn.
Proof using G.
  intros H. pose proof (g_pgsize _ _ G). unfold baddr.
  destruct (Z.lt_ge_cases pn pn'); [left|right]; nia.
Qed.

Lemma list_at_range lvl : 0 <= lvl < levels al ->
  lists al <= list_at al lvl /\ list_at al lvl + 40 <= state_table al.
Proof using G. intros. rewrite (g_table _ _ G). unfold list_at, sizeof_list. lia. Qed.

Lemma pages_bound : pages al < 2 ^ 26.
Proof using G. pose proof (g_size _ _ G). pose proof (g_pgsize _ _ G). pose proof (g_pages _ _ G). nia. Qed.
End Geometry.

Lemma list_at_apart al i j : i <> j ->
  list_at al i + 40 <= list_at al j \/ list_at al j + 40 <= list_at al i.
Proof. unfold list_at, sizeof_list. lia. Qed.

(** ** Framing *)

Lemma chain_frame al m m' lvl p bs :
  (forall pn x, pn ∈ bs -> in_node al pn x -> byte_at m' x = byte_at m x) ->
  chain al m lvl p bs -> chain al m' lvl p bs.
Proof.
  revert p. induction bs as [|pn bs IH]; intros p Hb; cbn [chain]; [done|].
  intros (-> & H1 & H2 & H3 & H4).
  assert (forall k n, 0 <= k -> k + Z.of_nat n <= 32 ->
    peek n m' (baddr al pn + k) = peek n m (baddr al pn + k)) as Hp.
  { intros k n Hk Hn. apply peek_ext. intros x Hx. apply (Hb pn); [by left|].
    unfold in_node. lia. }
  pose proof (Hp 0 8%nat) as Hp0. rewrite !Z.add_0_r in Hp0.
  unfold blk_prev, blk_list, blk_level, blk_next in *.
  rewrite !Hp, Hp0 by lia.
  split_and!; try done. apply IH; [|done]. intros pn' x Hin. apply Hb. by right.
Qed.

Lemma chain_app al m lvl p bs1 bs2 :
  chain al m lvl p (bs1 ++ bs2) -> exists q, chain al m lvl q bs2.
Proof.
  revert p. induction bs1 as [|pn bs1 IH]; intros p; cbn [app chain]; [eauto|].
  intros (_ & _ & _ & _ & H). eauto.
Qed.

Lemma list_rep_frame al m m' lvl n bs :
  (forall x, in_head al lvl x -> byte_at m' x = byte_at m x) ->
  (forall pn x, pn ∈ bs -> in_node al pn x -> byte_at m' x = byte_at m x) ->
  list_rep al m lvl n bs -> list_rep al m' lvl n bs.
Proof.
  intros Hh Hn [R1 R2 R3 R4 R5].
  assert (forall k w, 0 <= k -> k + Z.of_nat w <= 40 ->
    peek w m' (list_at al lvl + k) = peek w m (list_at al lvl + k)) as Hp.
  { intros k w Hk Hw. apply peek_ext. intros x Hx. apply Hh. unfold in_head. lia. }
  unfold blk_prev, blk_list, blk_level, list_len in *.
  split; unfold blk_prev, blk_list, blk_level, list_len, blk_next; rewrite ?Hp by lia; try done.
  pose proof (Hp 0 8%nat) as Hp0. rewrite !Z.add_0_r in Hp0. rewrite Hp0 by lia.
  by eapply chain_frame.
Qed.

Lemma list_rep_same al m m' lvl n bs P :
  same_off P m m' ->
  (forall x, P x -> ~ in_head al lvl x) ->
  (forall x pn, P x -> pn ∈ bs -> ~ in_node al pn x) ->
  list_rep al m lvl n bs -> list_rep al m' lvl n bs.
Proof.
  intros (_ & _ & H) Hh Hn. apply list_rep_frame.
  - intros x Hx. apply H. intros HP. by apply (Hh x HP).
  - intros pn x Hpn Hx. apply H. intros HP. by apply (Hn x pn HP Hpn).
Qed.

(** ** List operations *)

Section ListOps.
Context (al : buddy_allocator) (m : ram) (G : geom al m).

(** Pushing page [pn] on the list [lvl]. *)
Lemma list_add_spec lvl n bs pn :
  0 <= lvl < levels al -> 0 <= pn < pages al -> pn ∉ bs -> 0 <= n < 2 ^ 63 ->
  Forall (fun p => 0 <= p < pages al) bs ->
  list_rep al m lvl n bs ->
  exists m', list_add (list_at al lvl) (baddr al pn) m = Ok (tt, m') /\
    same_off (fun x => in_head al lvl x \/ in_node al pn x) m m' /\
    list_rep al m' lvl (n + 1) (pn :: bs).
Proof using G.
  intros Hl Hpn Hni Hn Hr [R1 R2 R3 R4 R5].
  pose proof (baddr_range _ _ G pn Hpn) as [Hb1 Hb2].
  pose proof (list_at_range _ _ G lvl Hl) as [Hl1 Hl2].
  destruct G as [? ? ? ? ? ? ? ? ? ?].
  assert (forall pn', pn' ∈ bs -> baddr al pn + 32 <= baddr al pn' \/
    baddr al pn' + 32 <= baddr al pn) as Hap.
  { intros pn' Hin. apply (baddr_apart al m G). intros ->. done. }
  assert (forall pn', pn' ∈ bs -> data al <= baddr al pn') as Hno.
  { intros pn' Hin. rewrite Forall_forall in Hr. apply (baddr_range al m G). auto. }
  remember (list_at al lvl) as l eqn:El. remember (baddr al pn) as b eqn:Eb.
  unfold list_add, insert_block, list_head, blk_prev, blk_list, blk_level, list_len, blk_next in *.
  eexists. split.
  - cstep. rewrite R2. do 2 cstep. rewrite R3.
    cassert; [lia|]. repeat cstep. peeks.
    rewrite st64_ok by bk. reflexivity.
  - rewrite R3. rewrite i32_id by lia. split.
    + split_and!; [by rewrite !ram_lo_poke|by rewrite !ram_hi_poke|].
      intros x Hx. unfold in_head, in_node in Hx. rewrite <- El, <- Eb in Hx.
      rewrite !byte_at_poke_ne by lia. done.
    + rewrite R4, u64_id by lia. pose proof (peek8_range m l).
      split; unfold blk_prev, blk_list, blk_level, list_len, blk_next; rewrite <- El; peeks; try done.
      cbn [chain]. unfold blk_prev, blk_list, blk_level, blk_next. rewrite <- El. peeks.
      split_and!; try done.
      apply (chain_frame al m); [|done]. intros pn' x Hin Hx.
      pose proof (Hap pn' Hin). pose proof (Hno pn' Hin). unfold in_node in Hx.
      rewrite !byte_at_poke_ne by lia. done.
Qed.

(** Removing a block: since the removed node's [prev] is the list's head, the
    blocks that precede it leave the list with it; the length field drops by
    one. *)
Lemma remove_block_spec lvl n pre pn post :
  0 <= lvl < levels al -> 0 < n < 2 ^ 63 ->
  Forall (fun p => 0 <= p < pages al) (pre ++ pn :: post) -> NoDup (pre ++ pn :: post) ->
  list_rep al m lvl n (pre ++ pn :: post) ->
  exists m', remove_block (baddr al pn) m = Ok (tt, m') /\
    same_off (in_head al lvl) m m' /\
    list_rep al m' lvl (n - 1) post.
Proof using G.
  intros Hl Hn Hr Hnd [R1 R2 R3 R4 R5].
  apply chain_app in R5 as (p & R5). cbn [chain] in R5.
  destruct R5 as (-> & C1 & C2 & C3 & C4).
  assert (0 <= pn < pages al) as Hpn by (rewrite Forall_app, Forall_cons in Hr; tauto).
  pose proof (baddr_range _ _ G pn Hpn) as [Hb1 Hb2].
  pose proof (list_at_range _ _ G lvl Hl) as [Hl1 Hl2].
  assert (forall q, q ∈ post -> 0 <= q < pages al /\ q <> pn) as Hpost.
  { intros q Hq. rewrite Forall_app, Forall_cons, !Forall_forall in Hr.
    apply NoDup_app in Hnd as (_ & _ & Hnd). apply NoDup_cons in Hnd as [Hnd _].
    split; [by apply Hr|]. intros ->. done. }
  destruct G as [? ? ? ? ? ? ? ? ? ?].
  remember (list_at al lvl) as l eqn:El. remember (baddr al pn) as b eqn:Eb.
  unfold remove_block, list_head, blk_prev, blk_list, blk_level, list_len, blk_next in *.
  remember (peek 8 m b) as nx eqn:Enx.
  assert (nx = 0 \/ (nx <> 0 /\ peek 8 m (nx + 8) = l /\ data al <= nx /\ nx + 32 <= ram_hi m)) as Hnx.
  { destruct post as [|q post]; cbn [chain] in C4; [by left|right].
    destruct C4 as (-> & C4 & _). destruct (Hpost q) as [Hq _]; [by left|].
    pose proof (baddr_range _ _ G q Hq). unfold blk_prev in C4. split_and!; [lia|congruence|lia..]. }
  assert (exists m2, when (negb (nx =? 0)) (st64 (nx + 8) l) (poke 8 m l nx) = Ok (tt, m2) /\
    same_off (fun _ => False) (poke 8 m l nx) m2) as (m2 & E2 & S2).
  { destruct Hnx as [->|(Hnz & Hp & Hd & Hh)].
    - exists (poke 8 m l 0). split; [done|apply same_off_refl].
    - exists (poke 8 (poke 8 m l nx) (nx + 8) l). split.
      + rewrite (proj2 (Z.eqb_neq nx 0)) by done. cbn [negb when]. apply st64_ok. bk.
      + split_and!; [by rewrite ram_lo_poke|by rewrite ram_hi_poke|]. intros x _.
        rewrite <- (byte_at_poke_id 8 (poke 8 m l nx) (nx + 8)). by rewrite peek_poke_ne, Hp by lia. }
  assert (forall x, ~ (l <= x < l + 8) -> byte_at m2 x = byte_at m x) as B2.
  { intros x Hx. rewrite (proj2 (proj2 S2)) by tauto. apply byte_at_poke_ne. lia. }
  destruct S2 as (Slo & Shi & SB). rewrite ram_lo_poke in Slo. rewrite ram_hi_poke in Shi.
  assert (forall w k, 8 <= k -> peek w m2 (l + k) = peek w m (l + k)) as Hk.
  { intros w k Hk. apply peek_ext. intros. apply B2. lia. }
  exists (poke 8 m2 (l + 32) (n - 1)). split; [|split].
  - cstep. rewrite C2. cassert; [lia|]. cstep. rewrite C1. cassert; [lia|].
    cstep. rewrite R4. cassert; [lia|]. cstep. rewrite C1. cstep. rewrite <- Enx. cstep.
    rewrite (bind_ok _ _ _ _ _ E2). cstep. rewrite Hk, R4, u64_id by lia. apply st64_ok. bk.
  - split_and!; [by rewrite ram_lo_poke|by rewrite ram_hi_poke|].
    intros x Hx. unfold in_head in Hx. rewrite <- El in Hx. rewrite byte_at_poke_ne by lia.
    apply B2. lia.
  - assert (peek 8 m2 l = nx) as Hl0.
    { rewrite (peek_ext 8 m2 (poke 8 m l nx)) by (intros; apply SB; tauto).
      rewrite peek_poke_eq. rewrite Enx. apply Z.mod_small. apply peek8_range. }
    split; unfold blk_prev, blk_list, blk_level, list_len, blk_next; rewrite <- El; peeks;
      rewrite ?Hk by lia; try done.
    rewrite Hl0. apply (chain_frame al m); [|done]. intros q x Hq Hx. unfold in_node in Hx.
    destruct (Hpost q Hq) as [Hq' _]. pose proof (baddr_range _ _ G q Hq').
    rewrite byte_at_poke_ne by lia. apply B2. lia.
Qed.

(** Resetting a list head. *)
Lemma list_init_spec lvl :
  0 <= lvl < levels al ->
  exists m', list_init (list_at al lvl) lvl m = Ok (tt, m') /\
    same_off (in_head al lvl) m m' /\
    list_rep al m' lvl 0 [].
Proof using G.
  intros Hl. pose proof (list_at_range _ _ G lvl Hl) as [Hl1 Hl2].
  pose proof (g_data _ _ G). pose proof (g_pages _ _ G). pose proof (g_lo _ _ G). pose proof (g_lists _ _ G).
  pose proof (g_addr _ _ G). pose proof (g_levels _ _ G).
  assert (data al <= ram_hi m).
  { pose proof (g_hi _ _ G) as Hhi. pose proof (g_pgsize _ _ G). unfold baddr in Hhi. nia. }
  remember (list_at al lvl) as l eqn:El.
  unfold list_init, list_head, blk_prev, blk_list, blk_level, list_len, blk_next.
  eexists. split; [|split].
  - repeat cstep. apply st64_ok. bk.
  - split_and!; [by rewrite !ram_lo_poke|by rewrite !ram_hi_poke|].
    intros x Hx. unfold in_head in Hx. rewrite <- El in Hx. by rewrite !byte_at_poke_ne by lia.
  - split; unfold blk_prev, blk_list, blk_level, list_len, blk_next; rewrite <- El; peeks; done.
Qed.
End ListOps.

(** ** Blocks and the partition of the working pages *)

(** A block is its first page and its level. *)
Definition block_pages (b : Z * Z) : list Z := seqZ b.1 (2 ^ b.2).
Definition pages_of (bs : list (Z * Z)) : list Z := bs ≫= block_pages.

Definition block_ok (al : buddy_allocator) (b : Z * Z) : Prop :=
  0 <= b.1 /\ 0 <= b.2 < levels al /\ (2 ^ b.2 | b.1).

(** The blocks of the free lists of levels [k], [k + 1], ... *)
Fixpoint free_from (k : Z) (F : list (list Z)) : list (Z * Z) :=
  match F with
  | [] => []
  | bs :: F => ((fun pn => (pn, k)) <$> bs) ++ free_from (k + 1) F
  end.

(** [inv al m F A H]: in memory [m] the free lists are [F], the allocated
    blocks are [A] (first page to level) and the blocks [H] are in the hands of
    the running operation; together they partition the working pages. *)
Record inv (al : buddy_allocator) (m : ram) (F : list (list Z)) (A : gmap Z Z)
    (H : list (Z * Z)) : Prop := {
  i_geom : geom al m;
  i_levels : Z.of_nat (length F) = levels al;
  i_lists : forall i bs, F !! i = Some bs ->
    list_rep al m (Z.of_nat i) (Z.of_nat (length bs)) bs;
  i_table : forall pn, 0 <= pn < pages al ->
    byte_at m (state_table al + pn) = default 255 (A !! pn);
  i_blocks : Forall (block_ok al) (free_from 0 F ++ map_to_list A ++ H);
  i_part : pages_of (free_from 0 F ++ map_to_list A ++ H) ≡ₚ seqZ 0 (pages al)
}.

#[export] Instance pages_of_Proper : Proper ((≡ₚ) ==> (≡ₚ)) pages_of.
Proof. intros l1 l2 H. unfold pages_of. by rewrite H. Qed.

Lemma pages_of_cons b bs : pages_of (b :: bs) = block_pages b ++ pages_of bs.
Proof. reflexivity. Qed.
Lemma pages_of_app bs bs' : pages_of (bs ++ bs') = pages_of bs ++ pages_of bs'.
Proof. apply bind_app. Qed.
Lemma elem_of_pages_of p bs : p ∈ pages_of bs <-> exists b, b ∈ bs /\ p ∈ block_pages b.
Proof. unfold pages_of. rewrite list_elem_of_bind. split; intros (b & ? & ?); eauto. Qed.
Lemma elem_of_block_pages p b : 0 <= b.2 -> p ∈ block_pages b <-> b.1 <= p < b.1 + 2 ^ b.2.
Proof. intros. unfold block_pages. rewrite elem_of_seqZ. lia. Qed.
Lemma block_start_in b : 0 <= b.2 -> b.1 ∈ block_pages b.
Proof. intros. apply elem_of_block_pages; [done|]. pose proof (pow2_pos b.2). lia. Qed.

Lemma block_pages_split pn l : 0 <= l ->
  block_pages (pn, l + 1) = block_pages (pn, l) ++ block_pages (pn + 2 ^ l, l).
Proof.
  intros. unfold block_pages; cbn. rewrite (seqZ_split pn (2 ^ (l + 1)) (2 ^ l)).
  - f_equal. f_equal. rewrite pow2_succ by lia. lia.
  - rewrite pow2_succ by lia. pose proof (pow2_pos l). lia.
Qed.

Lemma elem_of_free_from k F b :
  b ∈ free_from k F <-> exists i bs, F !! i = Some bs /\ b.1 ∈ bs /\ b.2 = k + Z.of_nat i.
Proof.
  revert k. induction F as [|bs F IH]; intros k; cbn [free_from].
  - split; [by intros ?%elem_of_nil|]. intros (i & bs & H & _). by rewrite lookup_nil in H.
  - rewrite elem_of_app, list_elem_of_fmap, IH. split.
    + intros [(pn & -> & Hin)|(i & bs' & H & ? & ?)].
      * exists O, bs. split_and!; [done..|]. cbn. lia.
      * exists (S i), bs'. split_and!; [done..|]. lia.
    + intros ([|i] & bs' & H & Hin & Hk); cbn in H; simplify_eq.
      * left. exists b.1. split; [|done]. destruct b. cbn in *. f_equal. lia.
      * right. exists i, bs'. split_and!; [done..|]. lia.
Qed.

Lemma free_from_push k F i bs pn : F !! i = Some bs ->
  free_from k (<[i := pn :: bs]> F) ≡ₚ (pn, k + Z.of_nat i) :: free_from k F.
Proof.
  revert k i. induction F as [|bs' F IH]; intros k [|i] H; cbn in H; simplify_eq.
  - cbn [free_from insert list_insert fmap list_fmap app]. by rewrite Z.add_0_r.
  - cbn [free_from insert list_insert]. rewrite (IH (k + 1) i H).
    replace (k + 1 + Z.of_nat i) with (k + Z.of_nat (S i)) by lia.
    by rewrite Permutation_middle.
Qed.

Lemma free_from_pop k F i bs pn : F !! i = Some (pn :: bs) ->
  free_from k F ≡ₚ (pn, k + Z.of_nat i) :: free_from k (<[i := bs]> F).
Proof.
  intros H. rewrite <- (free_from_push k (<[i := bs]> F) i bs pn).
  - rewrite list_insert_insert_eq. by rewrite list_insert_id.
  - apply list_lookup_insert_eq. by eapply lookup_lt_Some.
Qed.

Lemma free_from_mid k F i bs : F !! i = Some bs -> exists X Y,
  free_from k F = X ++ ((fun pn => (pn, k + Z.of_nat i)) <$> bs) ++ Y.
Proof.
  revert k i. induction F as [|bs' F IH]; intros k i Hi; [by rewrite lookup_nil in Hi|].
  destruct i as [|i]; cbn in Hi; simplify_eq; cbn [free_from].
  - exists [], (free_from (k + 1) F). by rewrite Z.add_0_r.
  - destruct (IH (k + 1) i Hi) as (X & Y & ->). exists (((fun pn => (pn, k)) <$> bs') ++ X), Y.
    rewrite <- app_assoc. replace (k + Z.of_nat (S i)) with (k + 1 + Z.of_nat i) by lia. done.
Qed.

(** Blocks that share no page have different first pages. *)
Lemma NoDup_starts L : Forall (fun b : Z * Z => 0 <= b.2) L -> NoDup (pages_of L) -> NoDup L.*1.
Proof.
  induction L as [|b L IH]; intros Hp Hnd; [constructor|].
  apply Forall_cons in Hp as [Hb Hp]. rewrite pages_of_cons in Hnd.
  apply NoDup_app in Hnd as (_ & Hd & Hnd). rewrite fmap_cons. constructor; [|by apply IH].
  intros (b' & E & Hin)%list_elem_of_fmap. apply (Hd b.1); [by apply block_start_in|].
  apply elem_of_pages_of. exists b'. split; [done|]. rewrite E. apply block_start_in.
  rewrite Forall_forall in Hp. auto.
Qed.
