(* ===== verification/BuddyOps.v ===== *)
(** * The buddy allocator: steps of the operations on the invariant

    Each lemma takes a piece of an operation (push a block on a list, pop the
    first block, split, mark in the state table) from the invariant to the
    invariant, and bounds the bytes it may change. *)

From S2P Require Import Prelude CInt Memory Buddy BuddyInv.

(** The bytes outside the allocated blocks [A]. *)
Definition off_alloc (al : buddy_allocator) (A : gmap Z Z) (x : Z) : Prop :=
  forall pn lvl, A !! pn = Some lvl ->
    ~ (baddr al pn <= x < baddr al pn + pgsize al * 2 ^ lvl).

Section Facts.
Context (al : buddy_allocator) (m : ram) (F : list (list Z)) (A : gmap Z Z) (H : list (Z * Z)).
Context (I : inv al m F A H).

Lemma inv_block_ok b : b ∈ free_from 0 F ++ map_to_list A ++ H -> block_ok al b.
Proof using I. intros Hb. pose proof (i_blocks _ _ _ _ _ I) as Hf. rewrite Forall_forall in Hf. auto. Qed.

Lemma inv_block_range b : b ∈ free_from 0 F ++ map_to_list A ++ H ->
  block_ok al b /\ b.1 + 2 ^ b.2 <= pages al.
Proof using I.
  intros Hb. pose proof (inv_block_ok b Hb) as Hok. split; [done|].
  destruct Hok as (H0 & H1 & _). pose proof (pow2_pos b.2).
  assert (b.1 + 2 ^ b.2 - 1 ∈ seqZ 0 (pages al)) as Hin.
  { rewrite <- (i_part _ _ _ _ _ I). apply elem_of_pages_of. exists b. split; [done|].
    apply elem_of_block_pages; lia. }
  apply elem_of_seqZ in Hin. lia.
Qed.

Lemma inv_nodup : NoDup (pages_of (free_from 0 F ++ map_to_list A ++ H)).
Proof using I. rewrite (i_part _ _ _ _ _ I). apply NoDup_seqZ. Qed.

(** A block of the partition shares no page with another one. *)
Lemma inv_disjoint b L b' :
  free_from 0 F ++ map_to_list A ++ H ≡ₚ b :: L -> b' ∈ L ->
  b.1 + 2 ^ b.2 <= b'.1 \/ b'.1 + 2 ^ b'.2 <= b.1.
Proof using I.
  intros HL Hb'. pose proof inv_nodup as Hnd. rewrite HL, pages_of_cons in Hnd.
  apply NoDup_app in Hnd as (_ & Hnd & _).
  assert (block_ok al b) as (_ & Hb & _) by (apply inv_block_ok; rewrite HL; by left).
  assert (block_ok al b') as (_ & Hb2 & _) by (apply inv_block_ok; rewrite HL; by right).
  pose proof (pow2_pos b.2). pose proof (pow2_pos b'.2).
  destruct (Z.le_gt_cases (b.1 + 2 ^ b.2) b'.1); [by left|].
  destruct (Z.le_gt_cases (b'.1 + 2 ^ b'.2) b.1); [by right|exfalso].
  apply (Hnd (Z.max b.1 b'.1)).
  - apply elem_of_block_pages; lia.
  - apply elem_of_pages_of. exists b'. split; [done|]. apply elem_of_block_pages; lia.
Qed.

Lemma inv_starts : NoDup (free_from 0 F ++ map_to_list A ++ H).*1.
Proof using I.
  apply NoDup_starts; [|apply inv_nodup]. apply Forall_forall. intros b Hb.
  destruct (inv_block_ok b Hb) as (_ & ? & _). lia.
Qed.

Lemma inv_list i bs : F !! i = Some bs ->
  0 <= Z.of_nat i < levels al /\ Forall (fun p => 0 <= p < pages al) bs /\ NoDup bs.
Proof using I.
  intros Hi. pose proof (lookup_lt_Some _ _ _ Hi). pose proof (i_levels _ _ _ _ _ I).
  split; [lia|].
  assert (forall pn, pn ∈ bs -> (pn, Z.of_nat i) ∈ free_from 0 F) as Hin.
  { intros pn Hpn. apply elem_of_free_from. exists i, bs. cbn. split_and!; [done..|lia]. }
  split.
  - apply Forall_forall. intros pn Hpn.
    destruct (inv_block_range (pn, Z.of_nat i)) as [(?&?&_) ?].
    + apply elem_of_app. auto.
    + cbn in *. pose proof (pow2_pos (Z.of_nat i)). lia.
  - pose proof inv_starts as Hnd. destruct (free_from_mid 0 F i bs Hi) as (X & Y & E).
    rewrite E, !fmap_app in Hnd. apply NoDup_app in Hnd as (Hnd & _ & _).
    apply NoDup_app in Hnd as (_ & _ & Hnd). apply NoDup_app in Hnd as (Hnd & _ & _).
    rewrite <- list_fmap_compose in Hnd. cbn in Hnd. by rewrite list_fmap_id in Hnd.
Qed.

(** A block in hand starts at no free page of any list and at no allocated page. *)
Lemma inv_hand pn lvl : (pn, lvl) ∈ H ->
  (forall i bs, F !! i = Some bs -> pn ∉ bs) /\ A !! pn = None.
Proof using I.
  intros HH. assert (pn ∈ H.*1) as Hpn by (apply list_elem_of_fmap; by exists (pn, lvl)).
  pose proof inv_starts as Hnd. rewrite !fmap_app in Hnd.
  apply NoDup_app in Hnd as (_ & Hd1 & Hnd). apply NoDup_app in Hnd as (_ & Hd2 & _).
  split.
  - intros i bs Hi Hin. apply (Hd1 pn).
    + apply list_elem_of_fmap. exists (pn, Z.of_nat i). split; [done|].
      apply elem_of_free_from. exists i, bs. cbn. split_and!; [done..|lia].
    + rewrite elem_of_app. by right.
  - destruct (A !! pn) as [l|] eqn:E; [exfalso|done]. apply (Hd2 pn); [|done].
    apply list_elem_of_fmap. exists (pn, l). split; [done|]. by apply elem_of_map_to_list.
Qed.

(** No byte of the metadata, and no byte of the node at the start of a page
    that is not allocated, is a byte of an allocated block. *)
Lemma off_alloc_meta x : x < data al -> off_alloc al A x.
Proof using I.
  intros Hx pn lvl Hl Hin. destruct (inv_block_range (pn, lvl)) as [(?&?&_) ?].
  - rewrite !elem_of_app, elem_of_map_to_list. auto.
  - pose proof (i_geom _ _ _ _ _ I). pose proof (g_pgsize _ _ H3). unfold baddr in Hin. cbn in *. nia.
Qed.

Lemma off_alloc_node b x L :
  free_from 0 F ++ map_to_list A ++ H ≡ₚ b :: L ->
  (forall pn lvl, A !! pn = Some lvl -> (pn, lvl) ∈ L) ->
  in_node al b.1 x -> off_alloc al A x.
Proof using I.
  intros HL HA Hx pn lvl Hl Hin. pose proof (HA _ _ Hl) as HinL.
  destruct (inv_disjoint b L (pn, lvl) HL HinL) as [Hd|Hd].
  all: assert (block_ok al b) as (?&?&_) by (apply inv_block_ok; rewrite HL; by left).
  all: assert (block_ok al (pn, lvl)) as (?&?&_) by (apply inv_block_ok; rewrite HL; by right).
  all: pose proof (pow2_pos b.2); pose proof (pow2_pos lvl).
  all: pose proof (g_pgsize _ _ (i_geom _ _ _ _ _ I)); unfold in_node, baddr in *; cbn in *; nia.
Qed.
End Facts.

Section Steps.
Context (al : buddy_allocator).

(** What survives a change of the bytes of one list head and one node. *)
Lemma lists_frame m m' F A H lvl P :
  inv al m F A H -> 0 <= lvl < levels al ->
  same_off P m m' ->
  (forall x, P x -> in_head al lvl x \/ exists pn, in_node al pn x /\ 0 <= pn < pages al /\
     forall i bs, F !! i = Some bs -> pn ∉ bs) ->
  (forall i bs, F !! i = Some bs -> Z.of_nat i <> lvl ->
     list_rep al m' (Z.of_nat i) (Z.of_nat (length bs)) bs) /\
  (forall pn, 0 <= pn < pages al -> byte_at m' (state_table al + pn) = default 255 (A !! pn)).
Proof.
  intros I Hl S HP. pose proof (i_geom _ _ _ _ _ I) as G.
  pose proof (list_at_range _ _ G lvl Hl). pose proof (g_data _ _ G). split.
  - intros i bs Hi Hne. destruct (inv_list _ _ _ _ _ I i bs Hi) as (Hir & Hbs & _).
    pose proof (list_at_range _ _ G _ Hir). pose proof (list_at_apart al (Z.of_nat i) lvl Hne).
    apply (list_rep_same _ m m' _ _ _ P S); [..|by apply (i_lists _ _ _ _ _ I)].
    + intros x Hx Hh. apply HP in Hx as [Hx|(pn & Hx & Hpn & _)].
      * unfold in_head in *. lia.
      * pose proof (baddr_range _ _ G pn Hpn). unfold in_head, in_node in *.
        pose proof (g_pages _ _ G). lia.
    + intros x q Hx Hq Hn. rewrite Forall_forall in Hbs. pose proof (baddr_range _ _ G q (Hbs q Hq)).
      pose proof (g_pages _ _ G). apply HP in Hx as [Hx|(pn & Hx & Hpn & Hni)].
      * unfold in_head, in_node in *. lia.
      * destruct (decide (pn = q)) as [->|Hq']; [by apply (Hni i bs Hi)|].
        pose proof (baddr_apart _ _ G _ _ Hq'). unfold in_node in *. lia.
  - intros pn Hpn. rewrite <- (i_table _ _ _ _ _ I pn Hpn). apply S.
    intros Hx. apply HP in Hx as [Hx|(q & Hx & Hq & _)].
    + unfold in_head in Hx. lia.
    + pose proof (baddr_range _ _ G q Hq). unfold in_node in Hx. lia.
Qed.

(** [list_add] puts a block in hand on the list of its level. *)
Lemma inv_push m F A pn lvl H bs :
  inv al m F A ((pn, lvl) :: H) -> F !! Z.to_nat lvl = Some bs ->
  exists m', list_add (list_at al lvl) (baddr al pn) m = Ok (tt, m') /\
    inv al m' (<[Z.to_nat lvl := pn :: bs]> F) A H /\
    same_off (fun x => off_alloc al A x /\ (in_head al lvl x \/ in_node al pn x)) m m'.
Proof.
  intros I Hbs. pose proof (i_geom _ _ _ _ _ I) as G.
  destruct (inv_hand _ _ _ _ _ I pn lvl) as [Hni HA]; [by left|].
  destruct (inv_block_range _ _ _ _ _ I (pn, lvl)) as [(Hp0 & Hl & Hdiv) Hp1].
  { rewrite !elem_of_app. right. right. by left. }
  cbn in Hp0, Hl, Hdiv, Hp1. pose proof (pow2_pos lvl).
  assert (Z.of_nat (Z.to_nat lvl) = lvl) as Ei by lia.
  destruct (inv_list _ _ _ _ _ I _ _ Hbs) as (_ & Hr & Hnd).
  pose proof (i_lists _ _ _ _ _ I _ _ Hbs) as Hrep. rewrite Ei in Hrep.
  assert (Z.of_nat (length bs) <= pages al).
  { apply NoDup_Z_length; [apply (g_pages _ _ G)|done|]. by apply Forall_forall. }
  pose proof (pages_bound _ _ G).
  destruct (list_add_spec al m G lvl (Z.of_nat (length bs)) bs pn) as (m' & E & So & R);
    [lia|lia|by apply (Hni _ _ Hbs)|lia|done|done|].
  exists m'. split; [done|].
  destruct (lists_frame m m' F A _ lvl _ I Hl So) as [HL HT].
  { intros x [Hx|Hx]; [by left|]. right. exists pn. split_and!; [done|lia|lia|done]. }
  assert (free_from 0 (<[Z.to_nat lvl := pn :: bs]> F) ++ map_to_list A ++ H ≡ₚ
          free_from 0 F ++ map_to_list A ++ (pn, lvl) :: H) as HP.
  { rewrite (free_from_push 0 F _ bs pn Hbs), Ei, Z.add_0_l. solve_Permutation. }
  split.
  - split.
    + by apply (geom_same _ _ _ _ So).
    + rewrite length_insert. apply (i_levels _ _ _ _ _ I).
    + intros i bs' Hi. destruct (decide (i = Z.to_nat lvl)) as [->|Hne].
      * rewrite list_lookup_insert_eq in Hi by (by eapply lookup_lt_Some). simplify_eq.
        rewrite Ei. cbn [length]. by replace (Z.of_nat (S (length bs))) with (Z.of_nat (length bs) + 1) by lia.
      * rewrite list_lookup_insert_ne in Hi by done. apply HL; [done|lia].
    + done.
    + rewrite HP. apply (i_blocks _ _ _ _ _ I).
    + rewrite HP. apply (i_part _ _ _ _ _ I).
  - apply (same_off_weaken _ _ _ _ So). intros x Hhn. split; [|done]. destruct Hhn as [Hx|Hx].
    + apply (off_alloc_meta _ _ _ _ _ I). pose proof (list_at_range _ _ G lvl Hl).
      pose proof (g_data _ _ G). pose proof (g_pages _ _ G). unfold in_head in Hx. lia.
    + apply (off_alloc_node _ _ _ _ _ I (pn, lvl) x (free_from 0 F ++ map_to_list A ++ H)); [solve_Permutation| |done].
      intros q l Hq. rewrite !elem_of_app, elem_of_map_to_list. auto.
Qed.

(** [remove_block] takes the first block of a list in hand. *)
Lemma inv_pop m F A H lvl pn bs :
  inv al m F A H -> 0 <= lvl -> F !! Z.to_nat lvl = Some (pn :: bs) ->
  exists m', remove_block (baddr al pn) m = Ok (tt, m') /\
    inv al m' (<[Z.to_nat lvl := bs]> F) A ((pn, lvl) :: H) /\
    same_off (off_alloc al A) m m'.
Proof.
  intros I Hl0 Hbs. pose proof (i_geom _ _ _ _ _ I) as G.
  assert (Z.of_nat (Z.to_nat lvl) = lvl) as Ei by lia.
  destruct (inv_list _ _ _ _ _ I _ _ Hbs) as (Hl & Hr & Hnd). rewrite Ei in Hl.
  pose proof (i_lists _ _ _ _ _ I _ _ Hbs) as Hrep. rewrite Ei in Hrep.
  assert (Z.of_nat (length bs) < pages al).
  { assert (Z.of_nat (length (pn :: bs)) <= pages al) as Hlen.
    { apply NoDup_Z_length; [apply (g_pages _ _ G)|done|]. by apply Forall_forall. }
    cbn [length] in Hlen. lia. }
  pose proof (pages_bound _ _ G).
  destruct (remove_block_spec al m G lvl (Z.of_nat (length (pn :: bs))) [] pn bs)
    as (m' & E & So & R); [done|cbn [length]; lia|done..|].
  exists m'. split; [done|].
  destruct (lists_frame m m' F A _ lvl _ I Hl So) as [HL HT].
  { intros x Hx. by left. }
  assert (free_from 0 (<[Z.to_nat lvl := bs]> F) ++ map_to_list A ++ (pn, lvl) :: H ≡ₚ
          free_from 0 F ++ map_to_list A ++ H) as HP.
  { rewrite (free_from_pop 0 F _ bs pn Hbs), Ei, Z.add_0_l. solve_Permutation. }
  split.
  - split.
    + by apply (geom_same _ _ _ _ So).
    + rewrite length_insert. apply (i_levels _ _ _ _ _ I).
    + intros i bs' Hi. destruct (decide (i = Z.to_nat lvl)) as [->|Hne].
      * rewrite list_lookup_insert_eq in Hi by (by eapply lookup_lt_Some). simplify_eq.
        rewrite Ei. cbn [length] in R.
        by replace (Z.of_nat (length bs')) with (Z.of_nat (S (length bs')) - 1) by lia.
      * rewrite list_lookup_insert_ne in Hi by done. apply HL; [done|lia].
    + done.
    + rewrite HP. apply (i_blocks _ _ _ _ _ I).
    + rewrite HP. apply (i_part _ _ _ _ _ I).
  - apply (same_off_weaken _ _ _ _ So). intros x Hx.
    apply (off_alloc_meta _ _ _ _ _ I). pose proof (list_at_range _ _ G lvl Hl).
    pose proof (g_data _ _ G). pose proof (g_pages _ _ G). unfold in_head in Hx. lia.
Qed.

(** A block in hand is its two halves. *)
Lemma inv_split m F A pn lvl H :
  inv al m F A ((pn, lvl) :: H) -> 0 < lvl ->
  inv al m F A ((pn + 2 ^ (lvl - 1), lvl - 1) :: (pn, lvl - 1) :: H).
Proof.
  intros [G IL Il IT IB IP] Hl. split; [done..| |].
  - rewrite !Forall_app, !Forall_cons in *. destruct IB as (B1 & B2 & (Hp & Hlv & Hd) & B3).
    cbn in Hp, Hlv, Hd. pose proof (pow2_pos (lvl - 1)).
    assert (2 ^ (lvl - 1) | pn) by (apply (divide_pow2_le _ lvl); [lia|done]).
    split_and!; try done; unfold block_ok; cbn; split_and!; try lia; try done.
    apply Z.divide_add_r; [done|apply Z.divide_refl].
  - rewrite !pages_of_app, !pages_of_cons in *. rewrite <- IP.
    pose proof (block_pages_split pn (lvl - 1)) as E. rewrite Z.sub_add in E. rewrite E by lia.
    solve_Permutation.
Qed.

(** A write to the state table leaves the lists alone. *)
Lemma table_write m F A H pn v :
  inv al m F A H -> 0 <= pn < pages al ->
  let m' := poke 1 m (state_table al + pn) v in
  st8 (state_table al + pn) v m = Ok (tt, m') /\ geom al m' /\
  (forall i bs, F !! i = Some bs -> list_rep al m' (Z.of_nat i) (Z.of_nat (length bs)) bs) /\
  (forall q, 0 <= q < pages al ->
    byte_at m' (state_table al + q) = if decide (q = pn) then u8 v else default 255 (A !! q)) /\
  same_off (off_alloc al A) m m'.
Proof.
  intros I Hpn m'. pose proof (i_geom _ _ _ _ _ I) as G. subst m'.
  pose proof (same_off_poke 1 m (state_table al + pn) v) as So.
  pose proof (g_data _ _ G). pose proof (g_lo _ _ G). pose proof (g_table _ _ G).
  pose proof (g_levels _ _ G).
  assert (data al <= ram_hi m).
  { pose proof (g_hi _ _ G) as Hhi. pose proof (g_pgsize _ _ G). unfold baddr in Hhi. nia. }
  split_and!.
  - apply st8_ok. bk.
  - by apply (geom_same _ _ _ _ So).
  - intros i bs Hi. destruct (inv_list _ _ _ _ _ I i bs Hi) as (Hir & Hbs & _).
    pose proof (list_at_range _ _ G _ Hir).
    eapply list_rep_same; [exact So|..|by apply (i_lists _ _ _ _ _ I)].
    + cbv beta. intros x Hx Hh. unfold in_head in Hh. lia.
    + cbv beta. intros x q Hx Hq Hn. rewrite Forall_forall in Hbs. pose proof (baddr_range _ _ G q (Hbs q Hq)).
      unfold in_node in Hn. lia.
  - intros q Hq. rewrite byte_at_poke1. destruct (decide (q = pn)) as [->|Hne].
    + by rewrite decide_True.
    + rewrite decide_False by lia. by apply (i_table _ _ _ _ _ I).
  - apply (same_off_weaken _ _ _ _ So). cbv beta. intros x Hx. apply (off_alloc_meta _ _ _ _ _ I). lia.
Qed.

(** Marking a block in hand as allocated in the state table. *)
Lemma inv_mark m F A pn lvl H :
  inv al m F A ((pn, lvl) :: H) ->
  exists m', st8 (state_table al + pn) lvl m = Ok (tt, m') /\
    inv al m' F (<[pn := lvl]> A) H /\ same_off (off_alloc al A) m m'.
Proof.
  intros I. destruct (inv_hand _ _ _ _ _ I pn lvl) as [Hni HA]; [by left|].
  destruct (inv_block_range _ _ _ _ _ I (pn, lvl)) as [(Hp0 & Hl & Hdiv) Hp1].
  { rewrite !elem_of_app. right. right. by left. }
  cbn in Hp0, Hl, Hdiv, Hp1. pose proof (pow2_pos lvl).
  pose proof (g_levels _ _ (i_geom _ _ _ _ _ I)).
  destruct (table_write m F A _ pn lvl I) as (E & G' & HL & HT & So); [lia|].
  assert (free_from 0 F ++ map_to_list (<[pn := lvl]> A) ++ H ≡ₚ
          free_from 0 F ++ map_to_list A ++ (pn, lvl) :: H) as HP.
  { rewrite map_to_list_insert by done. solve_Permutation. }
  eexists. split; [done|]. split; [|done]. split; try done.
  - apply (i_levels _ _ _ _ _ I).
  - intros q Hq. rewrite HT by done. rewrite lookup_insert.
    repeat case_decide; try congruence. cbn. apply u8_id. lia.
  - rewrite HP. apply (i_blocks _ _ _ _ _ I).
  - rewrite HP. apply (i_part _ _ _ _ _ I).
Qed.

(** Clearing the mark of an allocated block. *)
Lemma inv_unmark m F A pn lvl H :
  inv al m F A H -> A !! pn = Some lvl ->
  exists m', st8 (state_table al + pn) BUDDY_NOTHING m = Ok (tt, m') /\
    inv al m' F (delete pn A) ((pn, lvl) :: H) /\ same_off (off_alloc al A) m m'.
Proof.
  intros I HA. destruct (inv_block_range _ _ _ _ _ I (pn, lvl)) as [(Hp0 & Hl & Hdiv) Hp1].
  { rewrite !elem_of_app, elem_of_map_to_list. auto. }
  cbn in Hp0, Hl, Hdiv, Hp1. pose proof (pow2_pos lvl).
  destruct (table_write m F A _ pn BUDDY_NOTHING I) as (E & G' & HL & HT & So); [lia|].
  assert (free_from 0 F ++ map_to_list (delete pn A) ++ (pn, lvl) :: H ≡ₚ
          free_from 0 F ++ map_to_list A ++ H) as HP.
  { rewrite <- (map_to_list_delete A pn lvl HA). solve_Permutation. }
  eexists. split; [done|]. split; [|done]. split; try done.
  - apply (i_levels _ _ _ _ _ I).
  - intros q Hq. rewrite HT by done. rewrite lookup_delete.
    repeat case_decide; try congruence. done.
  - rewrite HP. apply (i_blocks _ _ _ _ _ I).
  - rewrite HP. apply (i_part _ _ _ _ _ I).
Qed.

(** Whatever the owners of the allocated blocks write into them, the
    invariant stays. *)
Lemma inv_client m m' F A H :
  inv al m F A H ->
  same_off (fun x => exists pn lvl, A !! pn = Some lvl /\
    baddr al pn <= x < baddr al pn + pgsize al * 2 ^ lvl) m m' ->
  inv al m' F A H.
Proof.
  intros I So. pose proof (i_geom _ _ _ _ _ I) as G.
  assert (forall x, off_alloc al A x -> byte_at m' x = byte_at m x) as HB.
  { intros x Hx. apply So. intros (pn & lvl & HA & Hin). by apply (Hx pn lvl). }
  split.
  - by apply (geom_same _ _ _ _ So).
  - apply (i_levels _ _ _ _ _ I).
  - intros i bs Hi. destruct (inv_list _ _ _ _ _ I i bs Hi) as (Hir & Hbs & _).
    apply (list_rep_frame _ m); [..|by apply (i_lists _ _ _ _ _ I)].
    + intros x Hx. apply HB, (off_alloc_meta _ _ _ _ _ I). pose proof (list_at_range _ _ G _ Hir).
      pose proof (g_data _ _ G). pose proof (g_pages _ _ G). unfold in_head in Hx. lia.
    + intros q x Hq Hx. apply HB.
      assert ((q, Z.of_nat i) ∈ free_from 0 F) as Hin.
      { apply elem_of_free_from. exists i, bs. cbn. split_and!; [done..|lia]. }
      apply elem_of_Permutation in Hin as (L & HL).
      apply (off_alloc_node _ _ _ _ _ I (q, Z.of_nat i) x (L ++ map_to_list A ++ H)); [by rewrite HL| |done].
      intros p l Hp. rewrite !elem_of_app, elem_of_map_to_list. auto.
  - intros pn Hpn. rewrite HB; [by apply (i_table _ _ _ _ _ I)|].
    apply (off_alloc_meta _ _ _ _ _ I). pose proof (g_data _ _ G). lia.
  - apply (i_blocks _ _ _ _ _ I).
  - apply (i_part _ _ _ _ _ I).
Qed.
End Steps.
