(* ===== verification/BuddyProof.v ===== *)
(** * The buddy allocator: correctness of the operations

    An abstract allocator over lists of page numbers, and the proof that
    [lib_buddy_alloc] and, on the kernel's target, [lib_buddy_free] implement
    it; what the operations do with invalid requests; the arithmetic helpers. *)

From S2P Require Import Prelude CInt Memory Buddy BuddyInv BuddyOps.

(** ** The abstract allocator *)

(** The first non-empty list at level [lvl] or above. *)
Fixpoint abs_find (k : nat) (lvl : nat) (F : list (list Z)) : option (nat * Z * list Z) :=
  match k with
  | O => None
  | S k =>
      match F !! lvl with
      | Some (pn :: bs) => Some (lvl, pn, bs)
      | _ => abs_find k (S lvl) F
      end
  end.

Definition abs_push (lvl : nat) (pn : Z) (F : list (list Z)) : list (list Z) :=
  alter (cons pn) lvl F.

(** Splitting the block [pn] of level [hi] [k] times: the second halves are
    freed. *)
Fixpoint abs_split (k : nat) (pn : Z) (hi : nat) (F : list (list Z)) : list (list Z) :=
  match k with
  | O => F
  | S k => abs_split k pn (hi - 1) (abs_push (hi - 1) (pn + 2 ^ (Z.of_nat hi - 1)) F)
  end.

Definition abs_alloc (lvl : nat) (F : list (list Z)) (A : gmap Z Z)
    : option (Z * list (list Z) * gmap Z Z) :=
  match abs_find (length F - lvl) lvl F with
  | None => None
  | Some (i, pn, bs) =>
      Some (pn, abs_split (i - lvl) pn i (<[i := bs]> F), <[pn := Z.of_nat lvl]> A)
  end.

Definition abs_free (pn : Z) (lvl : nat) (F : list (list Z)) (A : gmap Z Z)
    : list (list Z) * gmap Z Z := (abs_push lvl pn F, delete pn A).

(** ** Arithmetic *)

Lemma buddy_log2_loop_spec k n log :
  let r := buddy_log2_loop k n log in
  r = -1 \/ (log <= r < log + Z.of_nat k /\ n = u64 (shl1_int r) /\
             forall j, log <= j < r -> n <> u64 (shl1_int j)).
Proof.
  revert log. induction k as [|k IH]; intros log; cbn [buddy_log2_loop]; [by left|].
  destruct (Z.eqb_spec n (u64 (shl1_int log))) as [E|E].
  - right. split_and!; [lia..|done|lia].
  - destruct (IH (log + 1)) as [->|(H1 & H2 & H3)]; [by left|right].
    split_and!; [lia..|done|]. intros j Hj. destruct (decide (j = log)) as [->|]; [done|].
    apply H3. lia.
Qed.

Lemma u64_pow2 k : 0 <= k <= 30 -> u64 (shl1_int k) = 2 ^ k.
Proof.
  intros. rewrite shl1_int_pow by lia. apply u64_id.
  pose proof (pow2_pos k). pose proof (pow2_mono k 30). lia.
Qed.

Lemma buddy_log2_cases n :
  buddy_log2 n = -1 \/ (0 <= buddy_log2 n <= 30 /\ n = 2 ^ buddy_log2 n) \/
  (buddy_log2 n = 31 /\ n = 2 ^ 64 - 2 ^ 31).
Proof.
  unfold buddy_log2. destruct (buddy_log2_loop_spec 64 n 0) as [H|(H1 & H2 & H3)]; [by left|right].
  set (r := buddy_log2_loop 64 n 0) in *.
  destruct (Z.le_gt_cases r 30); [left; rewrite H2 at 1; rewrite u64_pow2 by lia; split; [lia|done]|].
  right. destruct (decide (r = 31)) as [Er|Hne].
  - rewrite Er in H2. split; [done|]. rewrite H2. by vm_compute.
  - exfalso. apply (H3 (r - 32)); [lia|]. rewrite H2. unfold shl1_int.
    replace (r mod 32) with ((r - 32) mod 32); [done|].
    rewrite <- (Z.mod_add (r - 32) 1 32) by lia. f_equal. lia.
Qed.

Lemma buddy_log2_pow k : 0 <= k <= 30 -> buddy_log2 (2 ^ k) = k.
Proof.
  intros Hk. unfold buddy_log2.
  assert (forall j, 0 <= j <= 30 -> (forall k0, (Z.of_nat k0 = k - j) ->
    buddy_log2_loop (S k0 + (63 - Z.to_nat k)) (2 ^ k) j = k)) as Hl.
  { intros j Hj k0. revert j Hj. induction k0 as [|k0 IH]; intros j Hj E.
    - cbn [buddy_log2_loop Nat.add]. rewrite u64_pow2 by lia. replace j with k by lia.
      by rewrite Z.eqb_refl.
    - replace (S (S k0) + (63 - Z.to_nat k))%nat with (S (S k0 + (63 - Z.to_nat k))) by lia.
      cbn [buddy_log2_loop]. rewrite u64_pow2 by lia.
      destruct (Z.eqb_spec (2 ^ k) (2 ^ j)) as [Ek|_].
      + apply Z.pow_inj_r in Ek; lia.
      + apply IH; lia. }
  replace 64%nat with (S (Z.to_nat k) + (63 - Z.to_nat k))%nat by lia.
  apply (Hl 0); lia.
Qed.

Section Arith.
Context (al : buddy_allocator) (m : ram) (G : geom al m).

Lemma get_page_number_baddr pn : 0 <= pn < pages al -> get_page_number al (baddr al pn) = pn.
Proof using G.
  intros Hpn. unfold get_page_number, baddr.
  replace (data al + pgsize al * pn - data al) with (pn * pgsize al) by lia.
  pose proof (g_size _ _ G). pose proof (g_pgsize _ _ G). pose proof (pages_bound _ _ G).
  assert (0 <= pn * pgsize al < 2 ^ 31) by nia.
  rewrite i32_id by lia. rewrite u64_id by lia.
  rewrite Z.mod_mul, Z.div_mul by lia. cbn [negb Z.eqb]. rewrite i32_id by lia. rewrite u64_id by lia.
  case_cmp. case_cmp. done.
Qed.

Lemma get_page_ptr_baddr pn : 0 <= pn < pages al -> get_page_ptr al pn = baddr al pn.
Proof using G.
  intros Hpn. unfold get_page_ptr, baddr.
  pose proof (g_size _ _ G). pose proof (g_pgsize _ _ G). pose proof (pages_bound _ _ G).
  rewrite !(u64_id pn) by lia. rewrite u64_id by nia. case_cmp. case_cmp. done.
Qed.

(** [get_page_number] accepts an address close to the working area only when
    it is the start of one of its pages. *)
Lemma get_page_number_inv p :
  - 2 ^ 31 <= p - data al < 2 ^ 31 ->
  (exists k, pgsize al = 2 ^ k /\ 0 <= k) ->
  get_page_number al p <> -1 ->
  0 <= get_page_number al p < pages al /\ p = baddr al (get_page_number al p).
Proof using G.
  intros Hp (k & Hk & Hk0). unfold get_page_number. rewrite (i32_id (p - data al)) by lia.
  set (d := p - data al) in *. pose proof (g_pgsize _ _ G). pose proof (pages_bound _ _ G).
  destruct (Z.eqb_spec (u64 d mod pgsize al) 0) as [Hm|]; cbn [negb]; [|done].
  destruct (Z.leb_spec 0 (i32 (u64 d / pgsize al))) as [Hr|]; cbn [negb andb]; [|done].
  destruct (Z.ltb_spec (u64 (i32 (u64 d / pgsize al))) (pages al)) as [Hlt|]; cbn [negb]; [|done].
  intros _. pose proof (i32_range (u64 d / pgsize al)). rewrite u64_id in Hlt by lia.
  pose proof (g_size _ _ G). assert (pgsize al < 2 ^ 31) by nia.
  assert (k < 31) by (apply (Z.pow_lt_mono_r_iff 2); lia).
  pose proof (pow2_pos k Hk0).
  split; [lia|]. unfold baddr. destruct (Z.lt_ge_cases d 0) as [Hneg|Hpos].
  - exfalso. assert (u64 d = d + 2 ^ (64 - k) * pgsize al) as Eu.
    { rewrite Hk, <- Z.pow_add_r by lia. replace (64 - k + k) with 64 by lia.
      unfold u64. rewrite <- (Z.mod_add d 1 (2 ^ 64)) by lia. apply Z.mod_small. lia. }
    rewrite Eu, Z.div_add in Hr by lia.
    assert (- 2 ^ 31 <= d / pgsize al < 0).
    { pose proof (Z.div_le_lower_bound d (pgsize al) (- 2 ^ 31)).
      pose proof (Z.div_lt_upper_bound d (pgsize al) 0). nia. }
    replace (i32 (d / pgsize al + 2 ^ (64 - k))) with (d / pgsize al) in Hr; [lia|].
    rewrite <- (i32_id (d / pgsize al)) at 1 by lia. unfold i32. f_equal.
    replace (2 ^ (64 - k)) with (2 ^ (32 - k) * 2 ^ 32) by (rewrite <- Z.pow_add_r by lia; f_equal; lia).
    replace (d / pgsize al + 2 ^ (32 - k) * 2 ^ 32 + 2 ^ 31)
      with (d / pgsize al + 2 ^ 31 + 2 ^ (32 - k) * 2 ^ 32) by lia.
    by rewrite Z.mod_add by lia.
  - rewrite (u64_id d) in * by lia.
    assert (0 <= d / pgsize al < 2 ^ 31).
    { split; [apply Z.div_pos; lia|]. apply Z.div_lt_upper_bound; nia. }
    rewrite i32_id by lia. pose proof (Z.div_mod d (pgsize al)). lia.
Qed.

Lemma block_exists_true pn lvl :
  0 <= pn < pages al -> block_exists al pn lvl = true <->
  0 <= lvl < levels al /\ (2 ^ lvl | pn) /\ pn + 2 ^ lvl <= pages al.
Proof using G.
  intros Hpn. unfold block_exists. pose proof (g_levels _ _ G). pose proof (pages_bound _ _ G).
  destruct (Z.leb_spec 0 lvl); cbn [andb negb]; [|split; [done|lia]].
  destruct (Z.ltb_spec lvl (levels al)); cbn [andb negb]; [|split; [done|lia]].
  rewrite shl1_int_pow by lia. pose proof (pow2_pos lvl). pose proof (pow2_mono lvl 29).
  rewrite (i32_id (2 ^ lvl - 1)) by lia. rewrite (i32_id (pn + 2 ^ lvl)) by lia.
  rewrite u64_id by lia.
  assert (Z.land pn (2 ^ lvl - 1) = pn mod 2 ^ lvl) as ->.
  { replace (2 ^ lvl - 1) with (Z.ones lvl) by (rewrite Z.ones_equiv; lia). by apply Z.land_ones. }
  assert (pn mod 2 ^ lvl = 0 <-> (2 ^ lvl | pn)) as Hd by (apply Z.mod_divide; lia).
  destruct (Z.eqb_spec (pn mod 2 ^ lvl) 0) as [E|E]; cbn [negb]; [|split; [done|tauto]].
  case_cmp. destruct (Z.leb_spec (pn + 2 ^ lvl) (pages al)); cbn; split; try done; try tauto; lia.
Qed.
End Arith.

(** ** The abstract search *)

Lemma abs_find_Some k lvl F i pn bs :
  abs_find k lvl F = Some (i, pn, bs) ->
  (lvl <= i < lvl + k)%nat /\ F !! i = Some (pn :: bs) /\
  forall j, (lvl <= j < i)%nat -> F !! j = Some [] \/ F !! j = None.
Proof.
  revert lvl. induction k as [|k IH]; intros lvl; cbn [abs_find]; [done|].
  destruct (F !! lvl) as [[|pn' bs']|] eqn:E; intros H.
  1, 3: apply IH in H as (H1 & H2 & H3); split_and!; [lia..|done|];
    intros j Hj; destruct (decide (j = lvl)) as [->|]; [auto|apply H3; lia].
  simplify_eq. split_and!; [lia..|done|]. intros. lia.
Qed.

Lemma abs_find_None k lvl F :
  abs_find k lvl F = None -> forall j, (lvl <= j < lvl + k)%nat -> F !! j = Some [] \/ F !! j = None.
Proof.
  revert lvl. induction k as [|k IH]; intros lvl; cbn [abs_find]; [lia|].
  destruct (F !! lvl) as [[|pn' bs']|] eqn:E; intros H j Hj; try done;
    (destruct (decide (j = lvl)) as [->|]; [auto|apply (IH (S lvl)); [done|lia]]).
Qed.

Section Alloc.
Context (al : buddy_allocator).

Lemma find_free_block_spec m F A H lvl :
  inv al m F A H ->
  find_free_block al (Z.of_nat lvl) m =
  Ok (match abs_find (length F - lvl) lvl F with
      | Some (_, pn, _) => baddr al pn
      | None => 0
      end, m).
Proof.
  intros I. unfold find_free_block. pose proof (i_levels _ _ _ _ _ I) as Hlen.
  pose proof (i_geom _ _ _ _ _ I) as G.
  replace (Z.to_nat (levels al - Z.of_nat lvl)) with (length F - lvl)%nat by lia.
  remember (length F - lvl)%nat as k eqn:Ek. revert lvl Ek.
  induction k as [|k IH]; intros lvl Ek; cbn [find_free_block_loop abs_find].
  - destruct (Z.ltb_spec (Z.of_nat lvl) (levels al)); [lia|done].
  - destruct (Z.ltb_spec (Z.of_nat lvl) (levels al)); [|lia].
    destruct (lookup_lt_is_Some_2 F lvl) as [bs Hbs]; [lia|]. rewrite Hbs.
    destruct (inv_list _ _ _ _ _ I _ _ Hbs) as (Hl & Hr & _).
    pose proof (i_lists _ _ _ _ _ I _ _ Hbs) as [R1 R2 R3 R4 R5].
    pose proof (list_at_range _ _ G _ Hl). pose proof (g_data _ _ G). pose proof (g_lo _ _ G).
    pose proof (g_pages _ _ G).
    assert (data al <= ram_hi m).
    { pose proof (g_hi _ _ G) as Hhi. pose proof (g_pgsize _ _ G). unfold baddr in Hhi. nia. }
    unfold list_len, list_head, blk_next in *. cstep. rewrite R4.
    destruct bs as [|pn bs]; cbn [length].
    + cbn. rewrite <- IH by lia. by rewrite Nat2Z.inj_succ.
    + destruct (Z.ltb_spec 0 (Z.of_nat (S (length bs)))); [|lia].
      rewrite ld64_ok by bk. cbn [chain] in R5. destruct R5 as [-> _]. done.
Qed.

Lemma abs_push_insert F i pn bs : F !! i = Some bs -> abs_push i pn F = <[i := pn :: bs]> F.
Proof.
  intros E. unfold abs_push. apply list_eq. intros j. rewrite list_lookup_alter, list_lookup_insert.
  pose proof (lookup_lt_Some _ _ _ E).
  repeat case_decide; subst; try done; try tauto. by rewrite E.
Qed.

Lemma inv_push_abs m F A pn lvl H :
  inv al m F A ((pn, lvl) :: H) ->
  exists m', list_add (list_at al lvl) (baddr al pn) m = Ok (tt, m') /\
    inv al m' (abs_push (Z.to_nat lvl) pn F) A H /\
    same_off (fun x => off_alloc al A x /\ (in_head al lvl x \/ in_node al pn x)) m m'.
Proof.
  intros I. destruct (inv_block_ok _ _ _ _ _ I (pn, lvl)) as (_ & Hl & _).
  { rewrite !elem_of_app. right. right. by left. }
  cbn in Hl. destruct (lookup_lt_is_Some_2 F (Z.to_nat lvl)) as [bs Hbs].
  { pose proof (i_levels _ _ _ _ _ I). lia. }
  destruct (inv_push al m F A pn lvl H bs I Hbs) as (m' & ? & ? & ?).
  exists m'. rewrite (abs_push_insert _ _ _ _ Hbs). done.
Qed.

Lemma buddy_devide_loop_spec k m F A pn hi H :
  inv al m F A ((pn, Z.of_nat hi) :: H) -> (k <= hi)%nat ->
  exists m', buddy_devide_loop al (baddr al pn) k (Z.of_nat hi) m = Ok (tt, m') /\
    inv al m' (abs_split k pn hi F) A ((pn, Z.of_nat hi - Z.of_nat k) :: H) /\
    same_off (off_alloc al A) m m'.
Proof.
  revert m F hi. induction k as [|k IH]; intros m F hi I Hk; cbn [buddy_devide_loop abs_split].
  - exists m. split_and!; [done| |apply same_off_refl]. by rewrite Z.sub_0_r.
  - pose proof (i_geom _ _ _ _ _ I) as G.
    destruct (inv_block_range _ _ _ _ _ I (pn, Z.of_nat hi)) as [(Hp0 & Hl & Hdiv) Hp1].
    { rewrite !elem_of_app. right. right. by left. }
    cbn in Hp0, Hl, Hdiv, Hp1.
    apply inv_split in I; [|lia].
    assert (baddr al pn + shl_u64 (pgsize al) (Z.of_nat hi - 1) =
            baddr al (pn + 2 ^ (Z.of_nat hi - 1))) as Ea.
    { pose proof (g_levels _ _ G). pose proof (g_size _ _ G). pose proof (g_pgsize _ _ G).
      unfold shl_u64. rewrite (Z.mod_small (Z.of_nat hi - 1)), Z.shiftl_mul_pow2 by lia.
      pose proof (pow2_pos (Z.of_nat hi - 1)). pose proof (pow2_mono (Z.of_nat hi - 1) (Z.of_nat hi)).
      rewrite u64_id by nia. unfold baddr. lia. }
    rewrite Ea. destruct (inv_push_abs _ _ _ _ _ _ I) as (m1 & E1 & I1 & S1).
    rewrite (bind_ok _ _ _ _ _ E1).
    replace (Z.of_nat hi - 1) with (Z.of_nat (hi - 1)) in * by lia. rewrite Nat2Z.id in I1.
    destruct (IH m1 _ _ I1) as (m2 & E2 & I2 & S2); [lia|].
    exists m2. split; [done|]. split.
    + replace (Z.of_nat hi - Z.of_nat (S k)) with (Z.of_nat (hi - 1) - Z.of_nat k) by lia.
      done.
    + apply (same_off_trans _ _ _ _ _ _ S1 S2). tauto.
Qed.

(** [lib_buddy_alloc] implements the abstract allocation. *)
Lemma alloc_refines m F A lvl :
  inv al m F A [] -> (Z.of_nat lvl < levels al) ->
  match abs_alloc lvl F A with
  | None => lib_buddy_alloc al (2 ^ Z.of_nat lvl) m = Ok (0, m)
  | Some (pn, F', A') =>
      exists m', lib_buddy_alloc al (2 ^ Z.of_nat lvl) m = Ok (baddr al pn, m') /\
        inv al m' F' A' [] /\ same_off (off_alloc al A) m m'
  end.
Proof.
  intros I Hl. pose proof (i_geom _ _ _ _ _ I) as G. pose proof (g_levels _ _ G).
  unfold lib_buddy_alloc. rewrite buddy_log2_pow by lia.
  destruct (Z.eqb_spec (Z.of_nat lvl) (-1)); [lia|].
  assert (forall r, (bind (assert_line 259 (2 ^ Z.of_nat lvl =? u64 (shl1_int (Z.of_nat lvl)))) (fun _ =>
     if levels al <=? Z.of_nat lvl then ret 0 else r)) m = r m) as Hpre.
  { intros r. rewrite u64_pow2, Z.eqb_refl by lia.
    destruct (Z.leb_spec (levels al) (Z.of_nat lvl)); [lia|]. done. }
  rewrite Hpre. clear Hpre. rewrite (bind_ok _ _ _ _ _ (find_free_block_spec m F A [] lvl I)).
  unfold abs_alloc. destruct (abs_find (length F - lvl) lvl F) as [[[i pn] bs]|] eqn:Ef.
  2: { by rewrite Z.eqb_refl. }
  apply abs_find_Some in Ef as (Hi & Hbs & _).
  destruct (inv_list _ _ _ _ _ I _ _ Hbs) as (Hil & Hr & _).
  apply Forall_cons in Hr as [Hpn _].
  pose proof (baddr_range _ _ G pn Hpn). pose proof (g_data _ _ G). pose proof (g_pgsize _ _ G).
  pose proof (g_table _ _ G). pose proof (g_lists _ _ G). pose proof (g_lo _ _ G).
  destruct (Z.eqb_spec (baddr al pn) 0); [lia|].
  destruct (i_lists _ _ _ _ _ I _ _ Hbs) as [_ _ _ _ RC].
  cbn [chain] in RC. destruct RC as (Eb & _ & _ & Elv & _). rewrite Eb in Elv.
  unfold blk_level in *. cstep. rewrite Elv, i32_id by lia.
  cassert; [lia|]. unfold buddy_devide, blk_level. rewrite bind_assoc.
  cstep. rewrite Elv, i32_id by lia. rewrite bind_assoc. cassert; [lia|].
  rewrite bind_assoc.
  assert (F !! Z.to_nat (Z.of_nat i) = Some (pn :: bs)) as Hbs' by (by rewrite Nat2Z.id).
  destruct (inv_pop al m F A [] (Z.of_nat i) pn bs I) as (m1 & E1 & I1 & S1); [lia|done|].
  rewrite (bind_ok _ _ _ _ _ E1), bind_assoc. rewrite Nat2Z.id in I1.
  destruct (buddy_devide_loop_spec (i - lvl) m1 _ A pn i [] I1) as (m2 & E2 & I2 & S2); [lia|].
  replace (Z.to_nat (Z.of_nat i - Z.of_nat lvl)) with (i - lvl)%nat by lia.
  rewrite (bind_ok _ _ _ _ _ E2), bind_ret.
  rewrite (get_page_number_baddr _ _ G) by lia. cassert; [lia|].
  replace (Z.of_nat i - Z.of_nat (i - lvl)) with (Z.of_nat lvl) in I2 by lia.
  destruct (inv_mark al m2 _ _ _ _ _ I2) as (m3 & E3 & I3 & S3).
  exists m3. rewrite (bind_ok _ _ _ _ _ E3). split_and!; [done..|].
  eapply same_off_trans; [exact S1| |].
  - eapply same_off_trans; [exact S2|exact S3|]. intros x Hx. exact Hx.
  - tauto.
Qed.
End Alloc.

(** ** Release on the kernel's target *)

Lemma lxor_bound a b n : 0 < n -> 0 <= a < 2 ^ n -> 0 <= b < 2 ^ n -> 0 <= Z.lxor a b < 2 ^ n.
Proof.
  intros Hn Ha Hb. assert (0 <= Z.lxor a b) as H0 by (apply Z.lxor_nonneg; lia). split; [done|].
  destruct (decide (Z.lxor a b = 0)) as [->|]; [lia|].
  assert (forall x, 0 <= x < 2 ^ n -> Z.log2 x < n) as Hlog.
  { intros x Hx. destruct (decide (x = 0)) as [->|]; [cbn; lia|]. apply Z.log2_lt_pow2; lia. }
  apply Z.log2_lt_pow2; [lia|].
  pose proof (Z.log2_lxor a b). pose proof (Hlog a). pose proof (Hlog b). lia.
Qed.

Section Free.
Context (al : buddy_allocator).

(** Page numbers of neighbours do not overflow [int]. *)
Lemma neighbour_range m pn lvl :
  geom al m -> 0 <= pn < pages al -> 0 <= lvl < levels al ->
  let npn := Z.lxor pn (shl_u64 1 lvl) in
  0 <= npn < 2 ^ 30 /\ (block_exists al (i32 npn) lvl = true -> npn < pages al).
Proof.
  intros G Hpn Hl npn. pose proof (pages_bound _ _ G). pose proof (g_levels _ _ G).
  assert (0 <= npn < 2 ^ 30) as Hn.
  { apply lxor_bound; [lia..|]. unfold shl_u64.
    rewrite (Z.mod_small lvl), Z.shiftl_1_l by lia. pose proof (pow2_pos lvl).
    pose proof (pow2_mono lvl 29). rewrite u64_id by lia. lia. }
  split; [done|]. rewrite i32_id by lia. intros Hex.
  destruct (Z.lt_ge_cases npn (pages al)); [done|exfalso].
  unfold block_exists in Hex. case_match; [done|]. case_match; [done|].
  rewrite shl1_int_pow in * by lia. pose proof (pow2_pos lvl). pose proof (pow2_mono lvl 29).
  rewrite i32_id in Hex by lia. rewrite u64_id in Hex by lia.
  destruct (Z.leb_spec 0 npn), (Z.leb_spec (npn + 2 ^ lvl) (pages al)); cbn in Hex; try done; lia.
Qed.

(** A byte of the state table, read as the kernel's [char], is never
    [BUDDY_NOTHING]: the search for a free neighbour always gives up. *)
Lemma add_free_block_loop_riscv m k pn lvl :
  geom al m -> 0 <= pn < pages al -> 0 <= lvl < levels al ->
  block_exists al pn lvl = true -> (0 < k)%nat ->
  add_free_block_loop riscv64 al k pn lvl m = Ok ((pn, lvl), m).
Proof.
  intros G Hpn Hl Hex Hk. destruct k as [|k]; [lia|]. cbn [add_free_block_loop].
  destruct (Z.ltb_spec lvl (levels al)); [|lia].
  pose proof (pages_bound _ _ G). rewrite (i32_id pn) by lia.
  cassert; [done|]. destruct (neighbour_range m pn lvl G Hpn Hl) as [Hn Hnp].
  set (npn := Z.lxor pn (shl_u64 1 lvl)) in *.
  destruct (block_exists al (i32 npn) lvl) eqn:Hne; cbn [negb]; [|done].
  specialize (Hnp eq_refl). pose proof (g_data _ _ G). pose proof (g_lo _ _ G).
  pose proof (g_table _ _ G). pose proof (g_levels _ _ G).
  assert (data al <= ram_hi m).
  { pose proof (g_hi _ _ G) as Hhi. pose proof (g_pgsize _ _ G). unfold baddr in Hhi. nia. }
  cstep. unfold char_val. cbn [riscv64 char_signed].
  pose proof (u8_range (peek 1 m (state_table al + npn))).
  destruct (Z.eqb_spec (u8 (peek 1 m (state_table al + npn))) BUDDY_NOTHING) as [E|];
    [unfold BUDDY_NOTHING in E; lia|done].
Qed.

(** [lib_buddy_free] implements the abstract release, on the kernel's target. *)
Lemma free_refines m F A pn lvl :
  inv al m F A [] -> A !! pn = Some lvl ->
  let '(F', A') := abs_free pn (Z.to_nat lvl) F A in
  exists m', lib_buddy_free riscv64 al (baddr al pn) m = Ok (tt, m') /\
    inv al m' F' A' [] /\
    same_off (fun x => off_alloc al A' x /\ ~ (baddr al pn + 32 <= x < baddr al pn + pgsize al)) m m'.
Proof.
  intros I HA. cbn [abs_free]. pose proof (i_geom _ _ _ _ _ I) as G.
  destruct (inv_block_range _ _ _ _ _ I (pn, lvl)) as [(Hp0 & Hl & Hdiv) Hp1].
  { rewrite !elem_of_app, elem_of_map_to_list. auto. }
  cbn in Hp0, Hl, Hdiv, Hp1. pose proof (pow2_pos lvl). pose proof (g_levels _ _ G).
  pose proof (g_data _ _ G). pose proof (g_lo _ _ G). pose proof (g_table _ _ G).
  assert (data al <= ram_hi m).
  { pose proof (g_hi _ _ G) as Hhi. pose proof (g_pgsize _ _ G). unfold baddr in Hhi. nia. }
  pose proof (pages_bound _ _ G).
  unfold lib_buddy_free. rewrite (get_page_number_baddr _ _ G) by lia.
  destruct (Z.eqb_spec pn (-1)); [lia|]. cstep.
  rewrite peek1_byte, (i_table _ _ _ _ _ I pn), HA by lia. cbn [default from_option id].
  rewrite char_val_small by lia. destruct (Z.leb_spec 0 lvl); [|lia]. cbn [negb].
  cassert; [lia|].
  destruct (inv_unmark al m F A pn lvl [] I HA) as (m1 & E1 & I1 & S1).
  rewrite (bind_ok _ _ _ _ _ E1). rewrite u64_id by lia. unfold add_free_block.
  pose proof (i_geom _ _ _ _ _ I1) as G1.
  assert (block_exists al pn lvl = true) as Hex by (apply (block_exists_true _ _ G); [lia|done]).
  cassert; [lia|]. rewrite (i32_id pn) by lia. cassert; [done|].
  rewrite (bind_ok _ _ _ _ _ (add_free_block_loop_riscv m1 (Z.to_nat (levels al - lvl)) pn lvl G1 ltac:(lia) Hl Hex ltac:(lia))).
  rewrite (i32_id pn), (get_page_ptr_baddr _ _ G) by lia.
  destruct (inv_push_abs al _ _ _ _ _ _ I1) as (m2 & E2 & I2 & S2).
  exists m2. split_and!; [done..|].
  eapply same_off_trans; [exact S1|exact S2|]. intros x [Hx|[Hx Hhn]].
  - split; [intros q l Hq; apply Hx; rewrite lookup_delete in Hq; by case_decide|].
    intros Hin. apply (Hx pn lvl HA). pose proof (g_pgsize _ _ G). nia.
  - split; [done|]. pose proof (list_at_range _ _ G _ Hl). pose proof (baddr_range _ _ G pn).
    unfold in_head, in_node in Hhn. lia.
Qed.
End Free.
