(* ===== verification/BuddyInit.v ===== *)
(** * The buddy allocator: initialisation

    [lib_buddy_init] lays out the metadata, and distributes the working pages
    over the free lists so that they are partitioned into free blocks. *)

From S2P Require Import Prelude CInt Memory Buddy BuddyInv BuddyOps BuddyProof.

(** ** What initialisation computes *)

(** [n] top-level blocks from page [s] on, pushed one after the other. *)
Fixpoint abs_init_top (lvl : Z) (n : nat) (s : Z) (bs : list Z) : list Z :=
  match n with
  | O => bs
  | S n => abs_init_top lvl n (s + 2 ^ lvl) (s :: bs)
  end.

(** The levels below [lvl]: at most one block each; [s] is the first page that
    is not yet in a list. *)
Fixpoint abs_init_rest (lvl : nat) (s n : Z) (F : list (list Z)) : list (list Z) :=
  match lvl with
  | O => F
  | S l =>
      if 2 ^ Z.of_nat l <=? n - s then abs_init_rest l (s + 2 ^ Z.of_nat l) n ([s] :: F)
      else abs_init_rest l s n ([] :: F)
  end.

Definition abs_init (levels pages : Z) : list (list Z) :=
  let lvl := levels - 1 in
  let top := pages / 2 ^ lvl in
  abs_init_rest (Z.to_nat lvl) (top * 2 ^ lvl) pages
    [abs_init_top lvl (Z.to_nat top) 0 []].

Section Init.
Context (al : buddy_allocator).

(** The lists from level [lvl] up hold the pages below [s]. *)
Record pinv (m : ram) (lvl : Z) (F : list (list Z)) (s : Z) : Prop := {
  p_geom : geom al m;
  p_len : lvl + Z.of_nat (length F) = levels al;
  p_lvl : 0 <= lvl;
  p_lists : forall i bs, F !! i = Some bs ->
    list_rep al m (lvl + Z.of_nat i) (Z.of_nat (length bs)) bs;
  p_table : forall pn, 0 <= pn < pages al -> byte_at m (state_table al + pn) = 255;
  p_blocks : Forall (block_ok al) (free_from lvl F);
  p_part : pages_of (free_from lvl F) ≡ₚ seqZ 0 s;
  p_s : 0 <= s <= pages al;
  p_div : (2 ^ lvl | s)
}.

Lemma pinv_pages m lvl F s i bs pn :
  pinv m lvl F s -> F !! i = Some bs -> pn ∈ bs -> 0 <= pn < s.
Proof.
  intros P Hi Hpn. assert ((pn, lvl + Z.of_nat i) ∈ free_from lvl F) as Hin.
  { apply elem_of_free_from. exists i, bs. done. }
  pose proof (p_blocks _ _ _ _ P) as Hb. rewrite Forall_forall in Hb.
  destruct (Hb _ Hin) as (_ & Hl & _). cbn in Hl.
  assert (pn ∈ seqZ 0 s) as Hs.
  { rewrite <- (p_part _ _ _ _ P). apply elem_of_pages_of. eexists. split; [exact Hin|].
    apply (block_start_in (pn, lvl + Z.of_nat i)). cbn. lia. }
  apply elem_of_seqZ in Hs. lia.
Qed.

(** Bytes written outside the heads and nodes of the initialised lists. *)
Lemma pinv_frame m m' lvl F s Q i bs :
  pinv m lvl F s -> same_off Q m m' -> F !! i = Some bs ->
  (forall x, Q x -> in_head al (lvl - 1) x \/ in_head al lvl x \/ in_node al s x) ->
  s < pages al \/ (forall x, Q x -> x < data al) ->
  (i <> O \/ forall x, Q x -> ~ in_head al lvl x) ->
  list_rep al m' (lvl + Z.of_nat i) (Z.of_nat (length bs)) bs.
Proof.
  intros P So Hi HQ Hs Hi0. pose proof (p_geom _ _ _ _ P) as G.
  pose proof (p_len _ _ _ _ P). pose proof (p_lvl _ _ _ _ P). pose proof (lookup_lt_Some _ _ _ Hi).
  assert (0 <= lvl + Z.of_nat i < levels al) as Hl by lia.
  pose proof (list_at_range _ _ G _ Hl) as Hlr. pose proof (g_data _ _ G). pose proof (g_pages _ _ G).
  pose proof (p_s _ _ _ _ P).
  eapply list_rep_same; [exact So|..|by apply (p_lists _ _ _ _ P)].
  - intros x Hx Hh. pose proof (HQ x Hx) as Hc.
    pose proof (list_at_apart al (lvl + Z.of_nat i) (lvl - 1)).
    pose proof (list_at_apart al (lvl + Z.of_nat i) lvl).
    destruct Hc as [Hc|[Hc|Hc]].
    + unfold in_head in *. lia.
    + destruct Hi0 as [Hi0|Hi0]; [unfold in_head in *; lia|by apply (Hi0 x)].
    + destruct Hs as [Hs|Hs]; [|specialize (Hs x Hx); unfold in_node, baddr in *; pose proof (g_pgsize _ _ G); unfold in_head in *; nia].
      pose proof (baddr_range _ _ G s). unfold in_head, in_node in *. lia.
  - intros x q Hx Hq Hn. pose proof (pinv_pages _ _ _ _ _ _ _ P Hi Hq) as Hqr.
    pose proof (baddr_range _ _ G q). pose proof (baddr_apart _ _ G q s).
    destruct (HQ x Hx) as [Hc|[Hc|Hc]].
    + unfold in_head, in_node, list_at, sizeof_list in *. lia.
    + unfold in_head, in_node, list_at, sizeof_list in *. lia.
    + unfold in_node in *. lia.
Qed.

Lemma pinv_level m lvl F s :
  pinv m (lvl + 1) F s -> 0 <= lvl ->
  exists m', list_init (list_at al lvl) lvl m = Ok (tt, m') /\ pinv m' lvl ([] :: F) s.
Proof.
  intros P Hl. pose proof (p_geom _ _ _ _ P) as G. pose proof (p_len _ _ _ _ P).
  assert (0 <= lvl < levels al) as Hl' by lia.
  pose proof (list_at_range _ _ G _ Hl'). pose proof (g_data _ _ G). pose proof (g_pages _ _ G).
  destruct (list_init_spec al m G lvl Hl') as (m' & E & So & R).
  exists m'. split; [done|]. split.
  - by apply (geom_same _ _ _ _ So).
  - cbn [length]. lia.
  - done.
  - intros [|i] bs Hi; cbn in Hi; simplify_eq.
    + rewrite Z.add_0_r. done.
    + replace (lvl + Z.of_nat (S i)) with (lvl + 1 + Z.of_nat i) by lia.
      apply (pinv_frame m m' (lvl + 1) F s _ i bs P So Hi).
      * intros x Hx. left. by rewrite Z.add_simpl_r.
      * right. unfold in_head. lia.
      * right. intros x Hx Hh. pose proof (list_at_apart al lvl (lvl + 1)). unfold in_head in *. lia.
  - intros pn Hpn. rewrite <- (p_table _ _ _ _ P pn Hpn). apply So. unfold in_head. lia.
  - cbn. apply (p_blocks _ _ _ _ P).
  - cbn. apply (p_part _ _ _ _ P).
  - apply (p_s _ _ _ _ P).
  - apply (divide_pow2_le _ (lvl + 1)); [lia|]. apply (p_div _ _ _ _ P).
Qed.

Lemma pinv_add m lvl bs F s :
  pinv m lvl (bs :: F) s -> s + 2 ^ lvl <= pages al ->
  exists m', list_add (list_at al lvl) (baddr al s) m = Ok (tt, m') /\
    pinv m' lvl ((s :: bs) :: F) (s + 2 ^ lvl).
Proof.
  intros P Hs. pose proof (p_geom _ _ _ _ P) as G. pose proof (p_len _ _ _ _ P) as Hlen.
  pose proof (p_lvl _ _ _ _ P) as Hl0. cbn [length] in Hlen. pose proof (pow2_pos lvl Hl0).
  assert (0 <= lvl < levels al) as Hl by lia. pose proof (p_s _ _ _ _ P).
  assert (forall q, q ∈ bs -> 0 <= q < s) as Hq.
  { intros q Hq. by apply (pinv_pages m lvl (bs :: F) s 0%nat bs). }
  pose proof (p_lists _ _ _ _ P 0%nat bs eq_refl) as R. rewrite Z.add_0_r in R.
  assert (Z.of_nat (length bs) <= s).
  { apply NoDup_Z_length; [lia| |done].
    pose proof (NoDup_seqZ 0 s) as Hnd. rewrite <- (p_part _ _ _ _ P) in Hnd.
    apply NoDup_starts in Hnd.
    - cbn [free_from] in Hnd. rewrite fmap_app in Hnd. apply NoDup_app in Hnd as (Hnd & _ & _).
      rewrite <- list_fmap_compose in Hnd. cbn in Hnd. by rewrite list_fmap_id in Hnd.
    - eapply Forall_impl; [apply (p_blocks _ _ _ _ P)|]. intros b (_ & ? & _). lia. }
  pose proof (pages_bound _ _ G).
  destruct (list_add_spec al m G lvl (Z.of_nat (length bs)) bs s) as (m' & E & So & R');
    [lia|lia|intros Hin; specialize (Hq s Hin); lia|lia| |done|].
  { apply Forall_forall. intros q Hin. specialize (Hq q Hin). lia. }
  exists m'. split; [done|]. split.
  - by apply (geom_same _ _ _ _ So).
  - done.
  - done.
  - intros [|i] bs' Hi; cbn in Hi; simplify_eq.
    + rewrite Z.add_0_r. cbn [length].
      by replace (Z.of_nat (S (length bs))) with (Z.of_nat (length bs) + 1) by lia.
    + apply (pinv_frame m m' lvl (bs :: F) s _ (S i) bs' P So Hi).
      * intros x Hx. right. exact Hx.
      * left. lia.
      * by left.
  - intros pn Hpn. rewrite <- (p_table _ _ _ _ P pn Hpn). apply So.
    pose proof (list_at_range _ _ G _ Hl). pose proof (baddr_range _ _ G s).
    pose proof (g_data _ _ G). unfold in_head, in_node. lia.
  - cbn. constructor; [|apply (p_blocks _ _ _ _ P)]. unfold block_ok; cbn.
    split_and!; [lia..|]. apply (p_div _ _ _ _ P).
  - cbn [free_from fmap list_fmap app]. rewrite pages_of_cons.
    pose proof (p_part _ _ _ _ P) as Hp. cbn [free_from] in Hp. rewrite Hp.
    unfold block_pages; cbn. rewrite (seqZ_split 0 (s + 2 ^ lvl) s) by lia.
    rewrite Z.add_simpl_l, Z.add_0_l. apply Permutation_app_comm.
  - lia.
  - apply Z.divide_add_r; [apply (p_div _ _ _ _ P)|apply Z.divide_refl].
Qed.

Lemma init_block_size m lvl s :
  geom al m -> 0 <= lvl < levels al -> 0 <= s -> s + 2 ^ lvl <= pages al ->
  baddr al s + u64 (u64 (shl1_int lvl) * pgsize al) = baddr al (s + 2 ^ lvl) /\
  u64 (pages al - s - u64 (shl1_int lvl)) = pages al - (s + 2 ^ lvl).
Proof.
  intros G Hl Hs Hp. pose proof (g_levels _ _ G). pose proof (g_size _ _ G).
  pose proof (g_pgsize _ _ G). pose proof (pages_bound _ _ G). pose proof (pow2_pos lvl).
  rewrite u64_pow2 by lia. rewrite (u64_id (2 ^ lvl * pgsize al)) by nia.
  rewrite u64_id by lia. unfold baddr. lia.
Qed.

Lemma init_lists_top_spec n m lvl bs F s :
  pinv m lvl (bs :: F) s -> s + Z.of_nat n * 2 ^ lvl <= pages al ->
  exists m', init_lists_top al (list_at al lvl) lvl n (baddr al s) (pages al - s) m =
    Ok ((baddr al (s + Z.of_nat n * 2 ^ lvl), pages al - (s + Z.of_nat n * 2 ^ lvl)), m') /\
    pinv m' lvl (abs_init_top lvl n s bs :: F) (s + Z.of_nat n * 2 ^ lvl).
Proof.
  revert m bs s. induction n as [|n IH]; intros m bs s P Hn; cbn [init_lists_top abs_init_top].
  - exists m. rewrite Z.mul_0_l, Z.add_0_r. done.
  - pose proof (p_lvl _ _ _ _ P). pose proof (p_len _ _ _ _ P) as Hlen. cbn [length] in Hlen.
    pose proof (pow2_pos lvl). pose proof (p_s _ _ _ _ P).
    destruct (pinv_add m lvl bs F s P) as (m1 & E1 & P1); [lia|].
    rewrite (bind_ok _ _ _ _ _ E1).
    destruct (init_block_size m lvl s) as [-> ->]; [apply (p_geom _ _ _ _ P)|lia..|].
    destruct (IH m1 _ _ P1) as (m2 & E2 & P2); [lia|]. exists m2. rewrite E2.
    replace (s + Z.of_nat (S n) * 2 ^ lvl) with (s + 2 ^ lvl + Z.of_nat n * 2 ^ lvl) by lia.
    done.
Qed.

Lemma init_lists_rest_spec lvl m F s :
  pinv m (Z.of_nat lvl) F s -> pages al - s < 2 ^ Z.of_nat lvl ->
  exists m', init_lists_rest al lvl (list_at al (Z.of_nat lvl)) (baddr al s) (pages al - s) m = Ok (tt, m') /\
    pinv m' 0 (abs_init_rest lvl s (pages al) F) (pages al).
Proof.
  revert m F s. induction lvl as [|l IH]; intros m F s P Hs; cbn [init_lists_rest abs_init_rest].
  - exists m. split; [done|]. pose proof (p_s _ _ _ _ P). cbn in Hs.
    replace (pages al) with s by lia. exact P.
  - rewrite Nat2Z.inj_succ in *. pose proof (p_len _ _ _ _ P). pose proof (p_geom _ _ _ _ P) as G.
    pose proof (g_levels _ _ G). pose proof (p_s _ _ _ _ P).
    replace (list_at al (Z.succ (Z.of_nat l)) - sizeof_list) with (list_at al (Z.of_nat l))
      by (unfold list_at, sizeof_list; lia).
    rewrite <- Z.add_1_r in *. rewrite pow2_succ in Hs by lia.
    destruct (pinv_level m (Z.of_nat l) F s P) as (m1 & E1 & P1); [lia|].
    rewrite (bind_ok _ _ _ _ _ E1). pose proof (u64_pow2 (Z.of_nat l) ltac:(lia)) as Eu.
    destruct (Z.leb_spec (2 ^ Z.of_nat l) (pages al - s)) as [Hle|Hgt];
      destruct (Z.leb_spec (u64 (shl1_int (Z.of_nat l))) (pages al - s)); try lia.
    + destruct (pinv_add m1 _ [] F s P1) as (m2 & E2 & P2); [lia|].
      rewrite (bind_ok _ _ _ _ _ E2).
      destruct (init_block_size m (Z.of_nat l) s) as [-> ->]; [done|lia..|].
      cassert; [lia|]. apply IH; [done|lia].
    + cassert; [lia|]. apply IH; [done|lia].
Qed.

Lemma init_lists_spec m :
  geom al m -> (forall pn, 0 <= pn < pages al -> byte_at m (state_table al + pn) = 255) ->
  exists m', init_lists al m = Ok (tt, m') /\
    pinv m' 0 (abs_init (levels al) (pages al)) (pages al).
Proof.
  intros G HT. pose proof (g_levels _ _ G). unfold init_lists, abs_init.
  set (lvl := levels al - 1) in *. assert (0 <= lvl) as Hl0 by lia.
  pose proof (pow2_pos lvl Hl0) as Hpos. pose proof (g_pages _ _ G).
  assert (pinv m (lvl + 1) [] 0) as P0.
  { split; try done; try (cbn; lia).
    apply Z.divide_0_r. }
  destruct (pinv_level m lvl [] 0 P0 Hl0) as (m1 & E1 & P1). rewrite (bind_ok _ _ _ _ _ E1).
  rewrite Z.shiftr_div_pow2 by lia.
  pose proof (Z.div_mod (pages al) (2 ^ lvl)). pose proof (Z.mod_pos_bound (pages al) (2 ^ lvl) Hpos).
  assert (0 <= pages al / 2 ^ lvl) by (apply Z.div_pos; lia).
  destruct (init_lists_top_spec (Z.to_nat (pages al / 2 ^ lvl)) m1 lvl [] [] 0 P1) as (m2 & E2 & P2); [lia|].
  rewrite Z2Nat.id, Z.add_0_l in * by lia.
  unfold baddr in E2 at 1. rewrite Z.mul_0_r, Z.add_0_r, Z.sub_0_r in E2.
  rewrite (bind_ok _ _ _ _ _ E2). rewrite u64_pow2 by lia. cassert; [lia|].
  replace lvl with (Z.of_nat (Z.to_nat lvl)) in P2 at 1 by lia.
  destruct (init_lists_rest_spec (Z.to_nat lvl) m2 _ _ P2) as (m3 & E3 & P3); [rewrite Z2Nat.id by lia; lia|].
  rewrite Z2Nat.id in E3 by lia. eauto.
Qed.
End Init.

(** The state table starts with no allocated block. *)
Lemma init_state_table_loop_spec al n m i :
  ram_lo m <= state_table al + i -> state_table al + i + Z.of_nat n <= ram_hi m ->
  exists m', init_state_table_loop al n i m = Ok (tt, m') /\
    same_off (fun x => state_table al + i <= x < state_table al + i + Z.of_nat n) m m' /\
    forall j, i <= j < i + Z.of_nat n -> byte_at m' (state_table al + j) = 255.
Proof.
  revert m i. induction n as [|n IH]; intros m i Hlo Hhi; cbn [init_state_table_loop].
  - exists m. split_and!; [done|apply same_off_refl|]. lia.
  - erewrite bind_ok by (apply st8_ok; bk).
    pose proof (same_off_poke 1 m (state_table al + i) BUDDY_NOTHING) as S1.
    destruct (IH (poke 1 m (state_table al + i) BUDDY_NOTHING) (i + 1)) as (m' & E & S2 & HB).
    { rewrite ram_lo_poke. lia. }
    { rewrite ram_hi_poke. lia. }
    exists m'. split_and!; [done| |].
    + eapply same_off_trans; [exact S1|exact S2|]. cbv beta. intros. lia.
    + intros j Hj. destruct (decide (j = i)) as [->|]; [|apply HB; lia].
      rewrite (proj2 (proj2 S2)) by (cbv beta; lia). rewrite byte_at_poke1.
      by rewrite decide_True.
Qed.

Section InitMain.
Context (mem : buddy_allocator) (lv psz np ptr : Z) (m : ram).
Context (Hlv : 0 < lv <= 30) (Hpsz : 32 <= psz) (Hnp : 0 <= np) (Hptr : 0 < ptr).
Context (Hlo : ram_lo m <= ptr) (Hhi : ptr + psz * np <= ram_hi m) (Ha : ram_hi m < 2 ^ 64).
Context (Hsz : psz * np < 2 ^ 31).

Lemma get_serv_pages_eq : get_serv_pages lv psz np = (40 * lv + np) / psz + 1.
Proof using Hlv Hpsz Hnp Hsz.
  unfold get_serv_pages, sizeof_list. assert (np < 2 ^ 31) by nia.
  rewrite (u64_id lv) by lia. rewrite (u64_id (lv * 40)) by lia. rewrite (u64_id (lv * 40 + np)) by lia.
  rewrite Z.mul_comm. apply u64_id.
  assert (0 <= (40 * lv + np) / psz) by (apply Z.div_pos; lia).
  assert ((40 * lv + np) / psz <= 40 * lv + np) by (apply Z.div_le_upper_bound; nia).
  lia.
Qed.

Definition init_al : buddy_allocator :=
  let serv := (40 * lv + np) / psz + 1 in
  Buddy lv psz ptr (ptr + 40 * lv) (np - serv) (ptr + serv * psz).

Lemma init_refines :
  (40 * lv + np) / psz + 1 <= np ->
  exists m', lib_buddy_init mem lv psz np ptr m = Ok ((0, init_al), m') /\
    inv init_al m' (abs_init lv (pages init_al)) ∅ [].
Proof using Hlv Hpsz Hnp Hptr Hlo Hhi Ha Hsz.
  intros Hserv. unfold lib_buddy_init. rewrite get_serv_pages_eq.
  assert (np < 2 ^ 31) by nia.
  pose proof (Z.div_mod (40 * lv + np) psz ltac:(lia)) as Hdm.
  pose proof (Z.mod_pos_bound (40 * lv + np) psz ltac:(lia)) as Hmb.
  assert (0 <= (40 * lv + np) / psz) as Hd0 by (apply Z.div_pos; lia).
  cassert; [lia|]. unfold sizeof_block.
  destruct (Z.ltb_spec psz 32); [lia|].
  destruct (Z.ltb_spec np ((40 * lv + np) / psz + 1)); [lia|].
  unfold sizeof_list. rewrite (u64_id lv), (u64_id (40 * lv)) by lia.
  rewrite (u64_id (np - _)), (u64_id (_ * psz)) by nia.
  fold init_al. set (serv := (40 * lv + np) / psz + 1) in *.
  assert (geom init_al m) as G.
  { split; unfold init_al, baddr; cbn; fold serv; try lia; try nia. }
  destruct (init_state_table_loop_spec init_al (Z.to_nat (pages init_al)) m 0) as (m1 & E1 & S1 & HT).
  { pose proof (g_table _ _ G). pose proof (g_lo _ _ G). pose proof (g_levels _ _ G). lia. }
  { pose proof (g_hi _ _ G) as Hhi'. pose proof (g_data _ _ G). pose proof (g_pgsize _ _ G).
    pose proof (g_pages _ _ G). unfold baddr in Hhi'. nia. }
  unfold init_state_table. rewrite (bind_ok _ _ _ _ _ E1).
  destruct (init_lists_spec init_al m1) as (m2 & E2 & P).
  { by apply (geom_same _ _ _ _ S1). }
  { intros pn Hpn. apply HT. lia. }
  rewrite (bind_ok _ _ _ _ _ E2). exists m2. split; [done|].
  destruct P as [PG PL _ PR PT PB PP _ _]. split.
  - done.
  - exact PL.
  - intros i bs Hi. by apply PR.
  - intros pn Hpn. rewrite lookup_empty. by apply PT.
  - rewrite map_to_list_empty, !app_nil_r. done.
  - rewrite map_to_list_empty, !app_nil_r. done.
Qed.
End InitMain.
