(* ===== verification/BuddyThm.v ===== *)
(** * The buddy allocator: theorems

    The properties of lib/buddy_alloc/buddy_alloc.c, stated about the
    operations of [Buddy] and proved with the lemmas of the files before this
    one: initialisation, allocation and release implement the abstract
    allocator; every reachable state partitions the working pages, never hands
    out overlapping blocks and never panics on valid requests; what invalid
    requests do; and three behaviours that differ from what the comments of the
    code describe (no coalescing on RISC-V, lost list nodes and coalescing past
    the top level on targets with a signed [char]). *)

From S2P Require Import Prelude CInt Memory Buddy BuddyInv BuddyOps BuddyProof BuddyInit.

(** ** A small concrete allocator for the witnesses: ten 64-byte pages at
    address 4096, two levels, eight working pages. *)
Definition ex_ram : ram := Ram 4096 8192 ∅.
Definition ex_al : buddy_allocator := Buddy 2 64 4096 4176 8 4224.
Definition ex_mem : buddy_allocator := Buddy 0 0 0 0 0 0.
Definition ex_init : ram :=
  match lib_buddy_init ex_mem 2 64 10 4096 ex_ram with Ok (_, m) => m | _ => ex_ram end.

Lemma ex_inv : inv ex_al ex_init (abs_init 2 8) ∅ [].
Proof.
  destruct (init_refines ex_mem 2 64 10 4096 ex_ram) as (m' & E & I); [closed..|].
  unfold ex_init. rewrite E. exact I.
Qed.

(** ** Initialisation *)

(** C11. [lib_buddy_init] on a usable region returns 0, lays the metadata out in
    its first pages, and leaves an allocator in which no block is allocated and
    the working pages are partitioned into the free blocks [abs_init]: as many
    top-level blocks as fit, then at most one block per lower level. *)
Theorem buddy_init_correct (mem : buddy_allocator) (lv psz np ptr : Z) (m : ram) :
  0 < lv <= 30 -> 32 <= psz -> 0 <= np -> 0 < ptr -> ram_lo m <= ptr ->
  ptr + psz * np <= ram_hi m -> ram_hi m < 2 ^ 64 -> psz * np < 2 ^ 31 ->
  (40 * lv + np) / psz + 1 <= np ->
  let al := init_al lv psz np ptr in
  exists m', lib_buddy_init mem lv psz np ptr m = Ok ((0, al), m') /\
    inv al m' (abs_init lv (pages al)) ∅ [].
Proof. intros. by apply init_refines. Qed.

Lemma buddy_init_correct_witness :
  let al := init_al 2 64 10 4096 in
  pages al = 8 /\ data al = 4224 /\ abs_init 2 8 = [[]; [6; 4; 2; 0]] /\
  exists m', lib_buddy_init ex_mem 2 64 10 4096 ex_ram = Ok ((0, al), m') /\
    inv al m' (abs_init 2 (pages al)) ∅ [].
Proof.
  split; [reflexivity|]. split; [reflexivity|]. split; [reflexivity|].
  apply buddy_init_correct; closed.
Defined.

(** [lib_buddy_init] returns -1, without touching the region, when a page
    cannot hold a list node or the metadata does not fit in the pages. *)
Theorem buddy_init_fails (mem : buddy_allocator) (lv psz np ptr : Z) (m : ram) :
  0 < lv <= 30 -> 0 < psz -> 0 <= np -> psz * np < 2 ^ 31 -> np < 2 ^ 31 ->
  psz < 32 \/ np < (40 * lv + np) / psz + 1 ->
  exists al, lib_buddy_init mem lv psz np ptr m = Ok ((-1, al), m).
Proof.
  intros Hlv Hp Hn Hs Hn2 H. unfold lib_buddy_init. cassert; [lia|]. unfold sizeof_block.
  destruct (Z.ltb_spec psz 32); [by eexists|].
  rewrite get_serv_pages_eq by lia. case_cmp. by eexists.
Qed.

Lemma buddy_init_fails_witness :
  exists al, lib_buddy_init ex_mem 1 31 100 4096 ex_ram = Ok ((-1, al), ex_ram).
Proof. apply (buddy_init_fails ex_mem 1 31 100 4096 ex_ram); lia. Defined.

(** ** Allocation and release *)

(** C1. A request for [2 ^ lvl] pages behaves as the abstract allocation: when
    some list at [lvl] or above is not empty, the first block of the first such
    list is split down to level [lvl], the lower half is returned and marked in
    the state table, the upper halves are freed, and no byte of a block that
    was allocated before changes; otherwise the result is null and memory is
    unchanged. *)
Theorem buddy_alloc_refines (al : buddy_allocator) (m : ram) F A (lvl : nat) :
  inv al m F A [] -> Z.of_nat lvl < levels al ->
  match abs_alloc lvl F A with
  | None => lib_buddy_alloc al (2 ^ Z.of_nat lvl) m = Ok (0, m)
  | Some (pn, F', A') =>
      exists m', lib_buddy_alloc al (2 ^ Z.of_nat lvl) m = Ok (baddr al pn, m') /\
        inv al m' F' A' [] /\ same_off (off_alloc al A) m m'
  end.
Proof. apply alloc_refines. Qed.

Lemma buddy_alloc_refines_witness :
  exists m', lib_buddy_alloc ex_al 1 ex_init = Ok (baddr ex_al 6, m') /\
    inv ex_al m' [[7]; [4; 2; 0]] {[6 := 0]} [] /\
    same_off (off_alloc ex_al ∅) ex_init m'.
Proof. exact (buddy_alloc_refines ex_al ex_init _ _ 0%nat ex_inv eq_refl). Defined.

(** C2. On the kernel's target, releasing an allocated block succeeds, clears
    its mark, puts it at the front of the free list of its level and changes no
    byte of the blocks that stay allocated. *)
Theorem buddy_free_refines (al : buddy_allocator) (m : ram) F A (pn lvl : Z) :
  inv al m F A [] -> A !! pn = Some lvl ->
  let '(F', A') := abs_free pn (Z.to_nat lvl) F A in
  exists m', lib_buddy_free riscv64 al (baddr al pn) m = Ok (tt, m') /\
    inv al m' F' A' [] /\ same_off (off_alloc al A') m m'.
Proof.
  intros I HA. destruct (free_refines al m F A pn lvl I HA) as (m' & ? & ? & So).
  exists m'. split_and!; [done..|]. apply (same_off_weaken _ _ _ _ So). tauto.
Qed.

Lemma buddy_free_refines_witness :
  exists m1 m2, lib_buddy_alloc ex_al 2 ex_init = Ok (baddr ex_al 6, m1) /\
    lib_buddy_free riscv64 ex_al (baddr ex_al 6) m1 = Ok (tt, m2) /\
    inv ex_al m2 [[]; [6; 4; 2; 0]] ∅ [].
Proof.
  pose proof (alloc_refines ex_al ex_init _ _ 1%nat ex_inv eq_refl) as (m1 & E1 & I1 & _).
  destruct (buddy_free_refines ex_al m1 _ _ 6 1 I1 eq_refl) as (m2 & E2 & I2 & _).
  exists m1, m2. split; [exact E1|]. split; [exact E2|]. exact I2.
Defined.

(** ** Invalid requests *)

Lemma buddy_alloc_invalid_core (al : buddy_allocator) (n : Z) (m : ram) :
  0 < levels al <= 30 ->
  (forall k, 0 <= k < levels al -> n <> 2 ^ k) ->
  lib_buddy_alloc al n m = Ok (0, m).
Proof.
  intros Hl Hn. unfold lib_buddy_alloc.
  destruct (buddy_log2_cases n) as [->|[[Hr E]|[-> ->]]]; [done|..].
  - destruct (Z.eqb_spec (buddy_log2 n) (-1)); [lia|]. rewrite u64_pow2 by lia.
    cassert; [lia|]. destruct (Z.leb_spec (levels al) (buddy_log2 n)); [done|].
    exfalso. apply (Hn (buddy_log2 n)); [lia|done].
  - cbn [Z.eqb]. cassert; [by vm_compute|]. case_cmp. done.
Qed.

(** C35. A request for a number of pages that is not a power of two, or is not
    below [2 ^ levels], returns null and changes nothing, whatever is in
    memory. *)
Theorem buddy_alloc_invalid (al : buddy_allocator) (n : Z) (m : ram) :
  0 < levels al <= 30 ->
  (forall k, 0 <= k < levels al -> n <> 2 ^ k) ->
  lib_buddy_alloc al n m = Ok (0, m).
Proof. apply buddy_alloc_invalid_core. Qed.

Lemma buddy_alloc_invalid_witness :
  lib_buddy_alloc ex_al 3 ex_init = Ok (0, ex_init) /\
  lib_buddy_alloc ex_al 4 ex_init = Ok (0, ex_init).
Proof.
  split; apply buddy_alloc_invalid; try (cbn; lia).
  all: intros k Hk; assert (k = 0 \/ k = 1) as [-> | ->] by (cbn in Hk; lia); lia.
Defined.

(** Releasing an address at which no block was allocated never goes
    through: an address that is not the start of a working page panics, and so
    does the start of a page that is not marked in the state table (on a
    target where [char] is unsigned it is the assertion on the level that
    fires). *)
Theorem buddy_free_invalid (tg : target) (al : buddy_allocator) (m : ram) F A (p : Z) :
  inv al m F A [] -> (exists k, 0 <= k /\ pgsize al = 2 ^ k) ->
  - 2 ^ 31 <= p - data al < 2 ^ 31 ->
  (forall pn lvl, A !! pn = Some lvl -> p <> baddr al pn) ->
  lib_buddy_free tg al p m =
  if (get_page_number al p =? -1) || char_signed tg
  then Panic "buddy_free - address is not correct!" else Assert 367.
Proof.
  intros I (k & Hk & Hpg) Hp HA. pose proof (i_geom _ _ _ _ _ I) as G.
  unfold lib_buddy_free. destruct (Z.eqb_spec (get_page_number al p) (-1)) as [E|E]; [done|].
  destruct (get_page_number_inv al m G p Hp ltac:(eauto) E) as [Hpn Ep].
  set (pn := get_page_number al p) in *. cbn [orb].
  assert (A !! pn = None) as HN.
  { destruct (A !! pn) as [lvl|] eqn:EA; [|done]. by destruct (HA _ _ EA). }
  pose proof (g_data _ _ G). pose proof (g_lo _ _ G). pose proof (g_table _ _ G).
  pose proof (g_levels _ _ G).
  assert (data al <= ram_hi m).
  { pose proof (g_hi _ _ G) as Hhi. pose proof (g_pgsize _ _ G). unfold baddr in Hhi. nia. }
  cstep. rewrite peek1_byte, (i_table _ _ _ _ _ I pn), HN by lia. cbn [default from_option id].
  unfold char_val. destruct (char_signed tg); cbn [negb]; [done|].
  rewrite u8_id by lia. cbn [negb Z.leb Z.compare]. unfold bind, assert_line.
  destruct (Z.ltb_spec 255 (levels al)); [lia|done].
Qed.

Lemma buddy_free_invalid_witness :
  lib_buddy_free riscv64 ex_al 4288 ex_init = Assert 367 /\
  lib_buddy_free riscv64 ex_al 4100 ex_init = Panic "buddy_free - address is not correct!" /\
  lib_buddy_free x86_64 ex_al 4288 ex_init = Panic "buddy_free - address is not correct!".
Proof.
  split; [|split].
  - apply (buddy_free_invalid riscv64 ex_al ex_init _ _ 4288 ex_inv); [by exists 6|cbn; lia|done].
  - apply (buddy_free_invalid riscv64 ex_al ex_init _ _ 4100 ex_inv); [by exists 6|cbn; lia|done].
  - apply (buddy_free_invalid x86_64 ex_al ex_init _ _ 4288 ex_inv); [by exists 6|cbn; lia|done].
Defined.

(** ** Statistics *)

Lemma length_block_pages b : 0 <= b.2 -> Z.of_nat (length (block_pages b)) = 2 ^ b.2.
Proof. intros. unfold block_pages. rewrite length_seqZ. pose proof (pow2_pos b.2). lia. Qed.

Lemma length_free_level lvl bs : 0 <= lvl ->
  Z.of_nat (length (pages_of ((fun pn => (pn, lvl)) <$> bs))) = Z.of_nat (length bs) * 2 ^ lvl.
Proof.
  intros Hl. induction bs as [|pn bs IH]; [done|]. rewrite fmap_cons, pages_of_cons, length_app.
  rewrite Nat2Z.inj_add, length_block_pages, IH by done. cbn [length fst snd]. lia.
Qed.

Lemma buddy_stat_loop_spec al m F A H k lvl acc :
  inv al m F A H -> (lvl + k = length F)%nat ->
  0 <= acc -> acc + Z.of_nat (length (pages_of (free_from (Z.of_nat lvl) (drop lvl F)))) < 2 ^ 64 ->
  buddy_stat_loop al k (Z.of_nat lvl) acc m =
  Ok ((acc + Z.of_nat (length (pages_of (free_from (Z.of_nat lvl) (drop lvl F)))),
       (fun bs => Z.of_nat (length bs)) <$> drop lvl F), m).
Proof.
  intros I. pose proof (i_geom _ _ _ _ _ I) as G. pose proof (i_levels _ _ _ _ _ I).
  pose proof (g_levels _ _ G).
  revert lvl acc. induction k as [|k IH]; intros lvl acc Hk Hacc Hb; cbn [buddy_stat_loop].
  - rewrite drop_ge by lia. cbn. by rewrite Z.add_0_r.
  - destruct (lookup_lt_is_Some_2 F lvl) as [bs Hbs]; [lia|].
    rewrite (drop_S _ _ _ Hbs) in *. cbn [free_from] in *.
    rewrite pages_of_app, length_app, Nat2Z.inj_add in *.
    rewrite length_free_level in * by lia.
    destruct (inv_list _ _ _ _ _ I _ _ Hbs) as (Hl & _ & _).
    pose proof (lr_len _ _ _ _ _ (i_lists _ _ _ _ _ I _ _ Hbs)) as R.
    pose proof (list_at_range _ _ G _ Hl). pose proof (g_data _ _ G). pose proof (g_lo _ _ G).
    pose proof (g_pages _ _ G).
    assert (data al <= ram_hi m).
    { pose proof (g_hi _ _ G) as Hhi. pose proof (g_pgsize _ _ G). unfold baddr in Hhi. nia. }
    pose proof (pow2_pos (Z.of_nat lvl)).
    unfold list_len in *. cstep. rewrite R. unfold shl_u64.
    rewrite (Z.mod_small (Z.of_nat lvl)), Z.shiftl_mul_pow2 by lia.
    assert (0 <= Z.of_nat (length bs) * 2 ^ Z.of_nat lvl) by (apply Z.mul_nonneg_nonneg; lia).
    rewrite (u64_id (Z.of_nat (length bs) * _)) by lia. rewrite u64_id by lia.
    replace (Z.of_nat lvl + 1) with (Z.of_nat (S lvl)) in * by lia.
    erewrite bind_ok by (apply IH; lia). cbv beta. unfold ret. rewrite fmap_cons.
    match goal with |- Ok ((?a, _), _) = Ok ((?b, _), _) => replace b with a by lia end. done.
Qed.

(** [lib_buddy_stat] reports the total number of pages, the number of
    blocks in each free list, and as free pages exactly the working pages that
    belong to no allocated block. *)
Theorem buddy_stat_correct (al : buddy_allocator) (m : ram) F A :
  inv al m F A [] -> (data al - lists al) / pgsize al < 2 ^ 31 ->
  exists free,
    lib_buddy_stat al true true true m =
    Ok ((Some (pages al + (data al - lists al) / pgsize al), Some free,
         Some ((fun bs => Z.of_nat (length bs)) <$> F)), m) /\
    free + Z.of_nat (length (pages_of (map_to_list A))) = pages al.
Proof.
  intros I Hs. pose proof (i_geom _ _ _ _ _ I) as G. pose proof (i_levels _ _ _ _ _ I).
  pose proof (pages_bound _ _ G). pose proof (g_pages _ _ G). pose proof (g_pgsize _ _ G).
  pose proof (Permutation_length (i_part _ _ _ _ _ I)) as HP.
  rewrite pages_of_app, app_nil_r, length_app, length_seqZ in HP.
  pose proof (buddy_stat_loop_spec al m F A [] (length F) 0 0 I eq_refl) as HL.
  rewrite drop_0 in HL. change (Z.of_nat 0) with 0 in HL. exists (Z.of_nat (length (pages_of (free_from 0 F)))). split; [|lia].
  unfold lib_buddy_stat. rewrite <- H, Nat2Z.id.
  erewrite bind_ok by (apply HL; lia).
  assert (0 <= data al - lists al < 2 ^ 64).
  { pose proof (g_data _ _ G). pose proof (g_table _ _ G). pose proof (g_hi _ _ G) as Hhi.
    pose proof (g_addr _ _ G). pose proof (g_lists _ _ G). pose proof (g_levels _ _ G).
    unfold baddr in Hhi. nia. }
  assert (0 <= (data al - lists al) / pgsize al) by (apply Z.div_pos; lia).
  rewrite (u64_id (data al - lists al)) by lia. rewrite i32_id by lia. rewrite (u64_id ((data al - lists al) / pgsize al)) by lia. rewrite u64_id by lia. done.
Qed.

Lemma buddy_stat_correct_witness :
  exists free,
    lib_buddy_stat ex_al true true true ex_init = Ok ((Some 10, Some free, Some [0; 4]), ex_init) /\
    free + 0 = 8.
Proof. apply (buddy_stat_correct ex_al ex_init _ _ ex_inv). by vm_compute. Defined.

(** ** Reachable states

    The clients' view: [L] maps the address of every live block to its number
    of pages.  Clients allocate, release what they own and write anywhere in
    their blocks. *)

Inductive bstep (al : buddy_allocator) : ram * gmap Z Z -> ram * gmap Z Z -> Prop :=
| bstep_alloc m L n p m' :
    lib_buddy_alloc al n m = Ok (p, m') -> p <> 0 -> bstep al (m, L) (m', <[p := n]> L)
| bstep_alloc_null m L n m' :
    lib_buddy_alloc al n m = Ok (0, m') -> bstep al (m, L) (m', L)
| bstep_free m L p n m' :
    L !! p = Some n -> lib_buddy_free riscv64 al p m = Ok (tt, m') -> bstep al (m, L) (m', delete p L)
| bstep_write m L p n a v :
    L !! p = Some n -> p <= a < p + n * pgsize al -> bstep al (m, L) (poke 1 m a v, L).

Definition live_rep (al : buddy_allocator) (A L : gmap Z Z) : Prop :=
  forall p n, L !! p = Some n <-> exists pn lvl, A !! pn = Some lvl /\ p = baddr al pn /\ n = 2 ^ lvl.

Definition live_inv (al : buddy_allocator) (s : ram * gmap Z Z) : Prop :=
  exists F A, inv al s.1 F A [] /\ live_rep al A s.2.

Lemma baddr_inj al m pn pn' : geom al m -> baddr al pn = baddr al pn' -> pn = pn'.
Proof. intros G. pose proof (g_pgsize _ _ G). unfold baddr. nia. Qed.

Lemma alloc_cases al m F A n :
  inv al m F A [] ->
  (lib_buddy_alloc al n m = Ok (0, m)) \/
  (exists (lvl : nat) pn F' m', n = 2 ^ Z.of_nat lvl /\ abs_alloc lvl F A = Some (pn, F', <[pn := Z.of_nat lvl]> A) /\
     A !! pn = None /\ 0 < baddr al pn /\
     lib_buddy_alloc al n m = Ok (baddr al pn, m') /\ inv al m' F' (<[pn := Z.of_nat lvl]> A) []).
Proof.
  intros I. pose proof (i_geom _ _ _ _ _ I) as G. pose proof (g_levels _ _ G) as Hlv.
  destruct (decide (Exists (fun k => n = 2 ^ k) (seqZ 0 (levels al)))) as [He|He].
  - apply Exists_exists in He as (k & Hk & ->). apply elem_of_seqZ in Hk.
    replace k with (Z.of_nat (Z.to_nat k)) by lia. set (lvl := Z.to_nat k) in *.
    pose proof (alloc_refines al m F A lvl I ltac:(lia)) as R.
    destruct (abs_alloc lvl F A) as [[[pn F'] A']|] eqn:E; [right|by left].
    destruct R as (m' & E' & I' & _). pose proof E as Ea. unfold abs_alloc in E.
    destruct (abs_find (length F - lvl) lvl F) as [[[i pn'] bs]|] eqn:Ef; [|done]. simplify_eq.
    apply abs_find_Some in Ef as (_ & Hbs & _).
    destruct (inv_list _ _ _ _ _ I _ _ Hbs) as (_ & Hr & _). apply Forall_cons in Hr as [Hpn _].
    eexists lvl, pn, _, m'. split_and!; [done..| | |done|done].
    + pose proof (inv_starts _ _ _ _ _ I) as Hnd. rewrite !fmap_app in Hnd.
      apply NoDup_app in Hnd as (_ & Hd & _). destruct (A !! pn) as [l|] eqn:EA; [exfalso|done].
      apply (Hd pn); [|rewrite elem_of_app; left].
      * apply list_elem_of_fmap. exists (pn, Z.of_nat i). split; [done|]. apply elem_of_free_from.
        exists i, (pn :: bs). cbn. split_and!; [done|by left|lia].
      * apply list_elem_of_fmap. exists (pn, l). split; [done|]. by apply elem_of_map_to_list.
    + pose proof (baddr_range _ _ G pn Hpn). pose proof (g_data _ _ G). pose proof (g_table _ _ G).
      pose proof (g_lists _ _ G). pose proof (g_pages _ _ G). lia.
  - left. apply buddy_alloc_invalid_core; [done|]. intros k Hk ->. apply He. apply Exists_exists.
    exists k. split; [|done]. apply elem_of_seqZ. lia.
Qed.

Lemma live_step al s s' : live_inv al s -> bstep al s s' -> live_inv al s'.
Proof.
  intros (F & A & I & HL) Hs. pose proof (i_geom _ _ _ _ _ I) as G. unfold live_rep in HL.
  destruct Hs; cbn [fst snd] in *.
  - destruct (alloc_cases al m F A n I) as [E|(lvl & pn & F' & m1 & -> & _ & HA & Hp & E & I')].
    + rewrite E in H. simplify_eq.
    + rewrite E in H. simplify_eq. exists F', (<[pn := Z.of_nat lvl]> A). split; [done|].
      intros p n. cbn [snd]. rewrite lookup_insert_Some, HL. split.
      * intros [[<- <-]|(Hne & q & l & Hq & -> & ->)].
        -- exists pn, (Z.of_nat lvl). by rewrite lookup_insert_eq.
        -- exists q, l. rewrite lookup_insert_ne by (intros ->; done). done.
      * intros (q & l & Hq & -> & ->). apply lookup_insert_Some in Hq as [[<- <-]|[Hne Hq]]; [by left|].
        right. split; [intros E1; apply (baddr_inj _ _ _ _ G) in E1; done|]. eauto.
  - destruct (alloc_cases al m F A n I) as [E|(lvl & pn & F' & m1 & -> & _ & HA & Hp & E & I')];
      rewrite E in H; simplify_eq; [by exists F, A|lia].
  - apply HL in H as (pn & lvl & HA & -> & ->).
    pose proof (free_refines al m F A pn lvl I HA) as (m1 & E & I' & _).
    rewrite E in H0. simplify_eq. eexists _, (delete pn A). split; [done|].
    intros p n. cbn [snd]. rewrite lookup_delete_Some, HL. split.
    + intros (Hne & q & l & Hq & -> & ->). exists q, l.
      rewrite lookup_delete_ne by (intros ->; done). done.
    + intros (q & l & Hq & -> & ->). apply lookup_delete_Some in Hq as [Hne Hq].
      split; [intros E1; apply (baddr_inj _ _ _ _ G) in E1; done|]. eauto.
  - exists F, A. split; [|done]. apply HL in H as (pn & lvl & HA & -> & ->).
    apply (inv_client al m _ F A []); [done|].
    eapply same_off_weaken; [apply same_off_poke|]. cbv beta. intros x Hx.
    exists pn, lvl. split; [done|]. lia.
Qed.

Lemma live_reach al s s' : live_inv al s -> rtc (bstep al) s s' -> live_inv al s'.
Proof. intros I H. induction H; [done|]. eauto using live_step. Qed.

Lemma live_init al m F : inv al m F ∅ [] -> live_inv al (m, ∅).
Proof.
  intros I. exists F, ∅. split; [done|]. intros p n. cbn. rewrite lookup_empty.
  split; [done|]. intros (? & ? & H & _). by rewrite lookup_empty in H.
Qed.

Lemma live_disjoint al m F A L p n q k :
  inv al m F A [] -> live_rep al A L -> L !! p = Some n -> L !! q = Some k -> p <> q ->
  p + n * pgsize al <= q \/ q + k * pgsize al <= p.
Proof.
  intros I HL Hp Hq Hne. pose proof (g_pgsize _ _ (i_geom _ _ _ _ _ I)).
  apply HL in Hp as (pn & lvl & HA & -> & ->). apply HL in Hq as (qn & lvl' & HA' & -> & ->).
  assert (pn <> qn) by (intros ->; done).
  destruct (inv_disjoint _ _ _ _ _ I (pn, lvl) (free_from 0 F ++ map_to_list (delete pn A)) (qn, lvl')) as [Hd|Hd].
  - rewrite app_nil_r, <- (map_to_list_delete A pn lvl HA). solve_Permutation.
  - rewrite elem_of_app, elem_of_map_to_list, lookup_delete_ne by done. auto.
  - left. cbn in Hd. unfold baddr. nia.
  - right. cbn in Hd. unfold baddr. nia.
Qed.

(** C12. In every state that clients can reach from a freshly initialised
    allocator on the kernel's target, live blocks lie in the working area,
    are aligned to their size and do not overlap. *)
Theorem buddy_reachable_disjoint (al : buddy_allocator) (m0 m : ram) F0 (L : gmap Z Z) :
  inv al m0 F0 ∅ [] -> rtc (bstep al) (m0, ∅) (m, L) ->
  (forall p n, L !! p = Some n ->
     data al <= p /\ p + n * pgsize al <= data al + pages al * pgsize al /\
     (n * pgsize al | p - data al)) /\
  (forall p n q k, L !! p = Some n -> L !! q = Some k -> p <> q ->
     p + n * pgsize al <= q \/ q + k * pgsize al <= p).
Proof.
  intros I0 HR. destruct (live_reach _ _ _ (live_init _ _ _ I0) HR) as (F & A & I & HL).
  cbn [fst snd] in *. pose proof (i_geom _ _ _ _ _ I) as G. pose proof (g_pgsize _ _ G). split.
  - intros p n Hp. apply HL in Hp as (pn & lvl & HA & -> & ->).
    destruct (inv_block_range _ _ _ _ _ I (pn, lvl)) as [(Hp0 & Hl & Hdiv) Hp1].
    { rewrite !elem_of_app, elem_of_map_to_list. auto. }
    cbn in Hp0, Hl, Hdiv, Hp1. unfold baddr. split_and!; [nia..|].
    replace (data al + pgsize al * pn - data al) with (pn * pgsize al) by lia.
    by apply Z.mul_divide_mono_r.
  - intros p n q k Hp Hq Hne. by apply (live_disjoint al m F A L).
Qed.

Lemma buddy_reachable_disjoint_witness :
  exists m1 m2 p q,
    rtc (bstep ex_al) (ex_init, ∅) (m2, <[q := 2]> (<[p := 1]> ∅)) /\ p <> q /\
    (p + 1 * 64 <= q \/ q + 2 * 64 <= p) /\ lib_buddy_alloc ex_al 1 ex_init = Ok (p, m1).
Proof.
  destruct (alloc_refines ex_al ex_init _ _ 0%nat ex_inv eq_refl) as (m1 & E1 & I1 & _).
  destruct (alloc_refines ex_al m1 _ _ 1%nat I1 eq_refl) as (m2 & E2 & I2 & _).
  assert (rtc (bstep ex_al) (ex_init, ∅) (m2, <[baddr ex_al 4 := 2]> (<[baddr ex_al 6 := 1]> ∅))) as HR.
  { eapply rtc_l; [apply (bstep_alloc ex_al _ _ 1 _ _ E1); by vm_compute|].
    apply rtc_once. apply (bstep_alloc ex_al _ _ 2 _ _ E2). by vm_compute. }
  exists m1, m2, (baddr ex_al 6), (baddr ex_al 4). split; [exact HR|]. split; [by vm_compute|].
  split; [|exact E1].
  destruct (buddy_reachable_disjoint ex_al ex_init m2 _ _ ex_inv HR) as [_ HD].
  apply (HD (baddr ex_al 6) 1 (baddr ex_al 4) 2); [reflexivity|reflexivity|by vm_compute].
Defined.

(** C34. In every reachable state every request is answered (with a block or
    with null) and every live block can be released: no assertion fails, no
    access faults, no loop runs forever. *)
Theorem buddy_reachable_progress (al : buddy_allocator) (m0 m : ram) F0 (L : gmap Z Z) :
  inv al m0 F0 ∅ [] -> rtc (bstep al) (m0, ∅) (m, L) ->
  (forall n, exists p m', lib_buddy_alloc al n m = Ok (p, m')) /\
  (forall p n, L !! p = Some n -> exists m', lib_buddy_free riscv64 al p m = Ok (tt, m')).
Proof.
  intros I0 HR. destruct (live_reach _ _ _ (live_init _ _ _ I0) HR) as (F & A & I & HL).
  cbn [fst snd] in *. split.
  - intros n. destruct (alloc_cases al m F A n I) as [E|(lvl & pn & F' & m1 & _ & _ & _ & _ & E & _)]; eauto.
  - intros p n Hp. apply HL in Hp as (pn & lvl & HA & -> & ->).
    pose proof (free_refines al m F A pn lvl I HA) as (m1 & E & _). eauto.
Qed.

Lemma buddy_reachable_progress_witness :
  exists p m', lib_buddy_alloc ex_al 2 ex_init = Ok (p, m').
Proof.
  apply (buddy_reachable_progress ex_al ex_init ex_init _ ∅ ex_inv). apply rtc_refl.
Defined.

(** ** Behaviours that differ from the comments of the code *)

(** C38. On the kernel's target the search for a free neighbour never coalesces
    anything: whatever is in memory, if the loop of [add_free_block] returns,
    it returns the block it was given and has changed nothing, although the
    comment above it describes merging with the neighbour. *)
Theorem buddy_riscv_never_coalesces (al : buddy_allocator) (k : nat) (pn lvl : Z) (m : ram) r m' :
  add_free_block_loop riscv64 al k pn lvl m = Ok (r, m') -> r = (pn, lvl) /\ m' = m.
Proof.
  unfold ret, diverge. destruct k as [|k]; cbn [add_free_block_loop]; unfold ret, diverge;
    destruct (lvl <? levels al); intros H; try (by simplify_eq).
  apply bind_inv in H as ([] & m1 & H1 & H).
  unfold assert_line in H1. destruct (block_exists al (i32 pn) lvl); [|done]. simplify_eq.
  destruct (negb _); [by simplify_eq|].
  apply bind_inv in H as (st & m2 & H1 & H).
  unfold ldchar in H1. apply bind_inv in H1 as (v & m3 & H1 & H2).
  unfold load in H1. destruct (backed m1 _ _); [|done]. unfold ret in H2. simplify_eq.
  destruct (Z.eqb_spec (char_val riscv64 (byte_at m2 (state_table al + Z.lxor pn (shl_u64 1 lvl)) + 256 * 0)) BUDDY_NOTHING) as [E|].
  - unfold char_val, BUDDY_NOTHING in E. cbn [riscv64 char_signed] in E.
    pose proof (u8_range (byte_at m2 (state_table al + Z.lxor pn (shl_u64 1 lvl)) + 256 * 0)). lia.
  - cbn [negb] in H. by simplify_eq.
Qed.

Fixpoint alloc_many (al : buddy_allocator) (k : nat) (n : Z) : M ram (list Z) :=
  match k with
  | O => ret []
  | S k => p <- lib_buddy_alloc al n ;; ps <- alloc_many al k n ;; ret (p :: ps)
  end.
Fixpoint free_pages (tg : target) (al : buddy_allocator) (pns : list Z) : M ram unit :=
  match pns with
  | [] => ret tt
  | pn :: pns => lib_buddy_free tg al (baddr al pn) ;;; free_pages tg al pns
  end.
(** The value a run returns, without the final memory. *)
Definition outcome {A} (r : res (A * ram)) : res A :=
  match r with
  | Ok (a, _) => Ok a
  | Panic s => Panic s
  | Assert l => Assert l
  | Fault a => Fault a
  | Diverge => Diverge
  end.

Lemma buddy_riscv_never_coalesces_witness :
  outcome ((alloc_many ex_al 8 1 ;;; free_pages riscv64 ex_al [0; 1; 2; 3; 4; 5; 6; 7] ;;;
            p <- lib_buddy_alloc ex_al 2 ;; s <- lib_buddy_stat ex_al true true true ;; ret (p, s)) ex_init)
  = Ok (0, (Some 10, Some 8, Some [8; 0])) /\
  forall r m', add_free_block_loop riscv64 ex_al 2 0 0 ex_init = Ok (r, m') -> r = (0, 0) /\ m' = ex_init.
Proof.
  split; [vm_compute; reflexivity|]. intros r m' H.
  exact (buddy_riscv_never_coalesces ex_al 2 0 0 ex_init r m' H).
Defined.

(** C0. [remove_block] applied to a block that is not the first of its list
    drops every block in front of it as well, while the length field only goes
    down by one: [insert_block] never updates the [prev] link of the node it
    pushes down, so every node's [prev] is the list head. *)
Theorem buddy_remove_drops_prefix (al : buddy_allocator) (m : ram) (lvl n : Z) (pre : list Z) (pn : Z) (post : list Z) :
  geom al m -> 0 <= lvl < levels al -> 0 < n < 2 ^ 63 ->
  Forall (fun p => 0 <= p < pages al) (pre ++ pn :: post) -> NoDup (pre ++ pn :: post) ->
  list_rep al m lvl n (pre ++ pn :: post) ->
  exists m', remove_block (baddr al pn) m = Ok (tt, m') /\
    same_off (in_head al lvl) m m' /\
    list_rep al m' lvl (n - 1) post.
Proof. intros. by apply (remove_block_spec al m) with pre. Qed.

Lemma buddy_remove_drops_prefix_witness :
  exists m', remove_block (baddr ex_al 2) ex_init = Ok (tt, m') /\
    same_off (in_head ex_al 1) ex_init m' /\ list_rep ex_al m' 1 3 [0].
Proof.
  apply (buddy_remove_drops_prefix ex_al ex_init 1 4 [6; 4] 2 [0]).
  - exact (i_geom _ _ _ _ _ ex_inv).
  - cbn; lia.
  - lia.
  - repeat constructor; cbn; lia.
  - refine (bool_decide_unpack _ _). by vm_compute.
  - exact (i_lists _ _ _ _ _ ex_inv 1%nat [6; 4; 2; 0] eq_refl).
Defined.


(** On a target with a signed [char], releasing two neighbouring blocks of
    the top level coalesces them into a level that has no list: [list_add] is
    called on [lists[levels]], which is the state table, and the access it
    makes through the bytes found there faults. *)
Example buddy_x86_coalesce_past_top :
  outcome ((alloc_many ex_al 4 2 ;;; free_pages x86_64 ex_al [0; 2]) ex_init) = Fault 24.
Proof. vm_compute. reflexivity. Qed.
