(* ===== verification/PageAlloc.v ===== *)
(** * The page allocator as its clients see it

    The slab allocator and the virtual memory code use the buddy allocator
    through [buddy_alloc]/[buddy_free] (function pointers of [slab_alloc_t])
    and [kalloc]/[kfree].  [PageAllocator] states what they rely on; the
    instance at the end of the file shows that the buddy allocator provides it.
    The state of the interface is the map [L] of live blocks, from address to
    number of pages. *)

From S2P Require Import Prelude CInt Memory Buddy BuddyInv BuddyOps BuddyProof BuddyInit BuddyThm.

(** The bytes of the live blocks [L], for pages of [psz] bytes. *)
Definition in_live (psz : Z) (L : gmap Z Z) (x : Z) : Prop :=
  exists p n, L !! p = Some n /\ p <= x < p + n * psz.

Class PageAllocator (psz : Z) (pg_alloc : Z -> M ram Z) (pg_free : Z -> M ram unit) := {
  pa_inv : ram -> gmap Z Z -> Prop;
  pa_psz : 32 <= psz;
  (** an allocation returns null and changes nothing, or a block that is not
      live, and leaves the bytes of the live blocks alone *)
  pa_alloc m L n : pa_inv m L ->
    exists p m', pg_alloc n m = Ok (p, m') /\
      ((p = 0 /\ m' = m) \/
       (p <> 0 /\ L !! p = None /\ pa_inv m' (<[p := n]> L) /\
        same_off (fun x => ~ in_live psz L x) m m'));
  (** releasing a live block; the bytes of the other live blocks, and those of
      the released page beyond its first 32, stay *)
  pa_free m L p n : pa_inv m L -> L !! p = Some n ->
    exists m', pg_free p m = Ok (tt, m') /\ pa_inv m' (delete p L) /\
      same_off (fun x => ~ in_live psz (delete p L) x /\ ~ (p + 32 <= x < p + psz)) m m';
  (** owners write into their blocks *)
  pa_write m m' L : pa_inv m L -> same_off (in_live psz L) m m' -> pa_inv m' L;
  (** a write into a page that was live, beyond its first 32 bytes, is
      harmless even after its release *)
  pa_scribble m m' L p n : pa_inv m L -> L !! p = Some n -> pa_inv m' (delete p L) ->
    forall m'', same_off (fun x => p + 32 <= x < p + psz) m' m'' -> pa_inv m'' (delete p L);
  pa_disjoint m L p n q k : pa_inv m L -> L !! p = Some n -> L !! q = Some k -> p <> q ->
    p + n * psz <= q \/ q + k * psz <= p;
  pa_range m L p n : pa_inv m L -> L !! p = Some n ->
    0 < n /\ 0 < p /\ ram_lo m <= p /\ p + n * psz <= ram_hi m /\ ram_hi m < 2 ^ 64;
  pa_aligned m L p n : pa_inv m L -> L !! p = Some n -> (psz | p)
}.
Arguments pa_inv {psz pg_alloc pg_free PA} : rename.

Section Client.
Context {psz : Z} {pg_alloc : Z -> M ram Z} {pg_free : Z -> M ram unit}.
Context {PA : PageAllocator psz pg_alloc pg_free}.

(** A store into a live block. *)
Lemma pa_poke m L p n k a v :
  pa_inv m L -> L !! p = Some n -> p <= a -> a + Z.of_nat k <= p + n * psz ->
  pa_inv (poke k m a v) L.
Proof.
  intros I HL Ha Hb. apply (pa_write m); [done|].
  eapply same_off_weaken; [apply same_off_poke|]. cbv beta. intros x Hx. exists p, n.
  split; [done|lia].
Qed.
End Client.

(** ** The buddy allocator is a page allocator *)

Section BuddyInstance.
Context (al : buddy_allocator) (Hpg : 32 <= pgsize al) (Hal : (pgsize al | data al)).

Definition buddy_pa_inv (m : ram) (L : gmap Z Z) : Prop := live_inv al (m, L).

(** [in_live] and the allocated blocks of the invariant are the same bytes. *)
Lemma in_live_alloc A L x : live_rep al A L ->
  in_live (pgsize al) L x <->
  exists pn lvl, A !! pn = Some lvl /\ baddr al pn <= x < baddr al pn + pgsize al * 2 ^ lvl.
Proof.
  intros HL. split.
  - intros (p & n & Hp & Hx). apply HL in Hp as (pn & lvl & HA & -> & ->). exists pn, lvl.
    split; [done|lia].
  - intros (pn & lvl & HA & Hx). exists (baddr al pn), (2 ^ lvl). split; [|lia].
    apply HL. eauto.
Qed.

Lemma off_alloc_live A L x : live_rep al A L -> off_alloc al A x <-> ~ in_live (pgsize al) L x.
Proof.
  intros HL. rewrite (in_live_alloc A L x HL). unfold off_alloc. split.
  - intros H (pn & lvl & HA & Hx). by apply (H pn lvl).
  - intros H pn lvl HA Hx. apply H. eauto.
Qed.

(** Only the first 32 bytes of a free block matter to the allocator. *)
Lemma inv_tail m m' F A pn :
  inv al m F A [] -> 0 <= pn < pages al ->
  same_off (fun x => baddr al pn + 32 <= x < baddr al pn + pgsize al) m m' ->
  inv al m' F A [].
Proof using Hpg.
  intros I Hpn So. pose proof (i_geom _ _ _ _ _ I) as G. pose proof (baddr_range _ _ G pn Hpn).
  pose proof (g_data _ _ G). pose proof (g_pages _ _ G). split.
  - by apply (geom_same _ _ _ _ So).
  - apply (i_levels _ _ _ _ _ I).
  - intros i bs Hi. destruct (inv_list _ _ _ _ _ I i bs Hi) as (Hir & Hbs & _).
    pose proof (list_at_range _ _ G _ Hir).
    eapply list_rep_same; [exact So|..|by apply (i_lists _ _ _ _ _ I)]; cbv beta.
    + intros x Hx Hh. unfold in_head in Hh. lia.
    + intros x q Hx Hq Hn. unfold in_node, baddr in *. destruct (decide (q = pn)) as [->|]; [lia|].
      destruct (Z.lt_ge_cases q pn); nia.
  - intros q Hq. rewrite <- (i_table _ _ _ _ _ I q Hq). apply So. lia.
  - apply (i_blocks _ _ _ _ _ I).
  - apply (i_part _ _ _ _ _ I).
Qed.

#[export] Instance buddy_page_allocator :
  PageAllocator (pgsize al) (lib_buddy_alloc al) (lib_buddy_free riscv64 al).
Proof using Hpg Hal.
  refine {| pa_inv := buddy_pa_inv |}; [exact Hpg|..]; unfold buddy_pa_inv.
  - intros m L n (F & A & I & HL). cbn [fst snd] in *. pose proof (i_geom _ _ _ _ _ I) as G.
    destruct (alloc_cases al m F A n I) as [E|(lvl & pn & F' & m' & -> & Ea & HA & Hp & E & I')].
    { exists 0, m. split; [done|by left]. }
    exists (baddr al pn), m'. split; [done|right].
    assert (L !! baddr al pn = None) as HN.
    { destruct (L !! baddr al pn) as [k|] eqn:EL; [|done].
      apply HL in EL as (q & l & Hq & Eq & _). apply (baddr_inj _ _ _ _ G) in Eq. congruence. }
    split_and!; [lia|done| |].
    + apply (live_step al (m, L)); [by exists F, A|]. by apply bstep_alloc; [|lia].
    + pose proof (alloc_refines al m F A lvl I) as R. rewrite Ea in R.
      destruct R as (m1 & E1 & _ & So).
      { pose proof (i_blocks _ _ _ _ _ I') as HB. rewrite !Forall_app in HB.
        destruct HB as (_ & HB & _). rewrite Forall_forall in HB.
        assert (block_ok al (pn, Z.of_nat lvl)) as (_ & ? & _); [|cbn in *; lia].
        apply HB. apply elem_of_map_to_list. by rewrite lookup_insert_eq. }
      rewrite E in E1. simplify_eq. apply (same_off_weaken _ _ _ _ So). intros x.
      by apply off_alloc_live.
  - intros m L p n (F & A & I & HL) Hp. cbn [fst snd] in *. pose proof (i_geom _ _ _ _ _ I) as G.
    pose proof Hp as Hp'. apply HL in Hp as (pn & lvl & HA & -> & ->).
    pose proof (free_refines al m F A pn lvl I HA) as (m' & E & I' & So).
    exists m'. split; [done|].
    assert (live_inv al (m', delete (baddr al pn) L)) as HI.
    { apply (live_step al (m, L)); [by exists F, A|]. by eapply bstep_free. }
    split; [done|]. apply (same_off_weaken _ _ _ _ So). intros x [Hx1 Hx2]. split; [|done].
    intros (q & k & Hq & Hin). apply lookup_delete_Some in Hq as [Hne Hq].
    apply HL in Hq as (qn & l & Hqn & -> & ->). apply (Hx1 qn l); [|lia].
    rewrite lookup_delete_ne; [done|]. intros ->. done.
  - intros m m' L (F & A & I & HL) So. cbn [fst snd] in *. exists F, A. split; [|done].
    apply (inv_client al m); [done|]. apply (same_off_weaken _ _ _ _ So). intros x.
    by apply in_live_alloc.
  - intros m m' L p n (F & A & I & HL) Hp (F' & A' & I' & HL') m'' So. cbn [fst snd] in *.
    exists F', A'. split; [|done]. apply HL in Hp as (pn & lvl & HA & -> & ->).
    destruct (inv_block_range _ _ _ _ _ I (pn, lvl)) as [(Hp0 & Hl & _) Hp1].
    { rewrite !elem_of_app, elem_of_map_to_list. auto. }
    cbn in Hp0, Hl, Hp1. pose proof (pow2_pos lvl).
    apply (inv_tail m' m'' F' A' pn); [done|lia|done].
  - intros m L p n q k (F & A & I & HL) Hp Hq Hne. cbn [fst snd] in *.
    by apply (live_disjoint al m F A L).
  - intros m L p n (F & A & I & HL) Hp. cbn [fst snd] in *. pose proof (i_geom _ _ _ _ _ I) as G.
    apply HL in Hp as (pn & lvl & HA & -> & ->).
    destruct (inv_block_range _ _ _ _ _ I (pn, lvl)) as [(Hp0 & Hl & _) Hp1].
    { rewrite !elem_of_app, elem_of_map_to_list. auto. }
    cbn in Hp0, Hl, Hp1. pose proof (pow2_pos lvl). destruct G as [? ? ? ? ? ? ? ? ? ?].
    unfold baddr in *. split_and!; nia.
  - intros m L p n (F & A & I & HL) Hp. cbn [fst snd] in *.
    apply HL in Hp as (pn & lvl & HA & -> & ->). unfold baddr.
    apply Z.divide_add_r; [done|]. apply Z.divide_factor_l.
Defined.
End BuddyInstance.
