(* ===== verification/Slab.v ===== *)
(** * The slab allocator: data and operations

    A translation of lib/slab_alloc/slab_alloc.c over RAM.  A slab page holds a
    list node, the cells and one byte per cell (the code's bitmap); the pages
    with the same number of used cells are in one list.  The page allocator it
    draws from is the three function pointers of [slab_alloc_t]; they may work on
    more than the RAM, as the kernel's do, which take a lock, so the state is any
    that has a RAM ([RamIn]). *)

From S2P Require Import Prelude CInt Memory.

(** ** Data *)

(** [slab_page_t] *)
Definition pg_next (p : Z) : Z := p.
Definition pg_prev (p : Z) : Z := p + 8.
Definition pg_list (p : Z) : Z := p + 16.
Definition pg_used_cells (p : Z) : Z := p + 24.
Definition sizeof_page : Z := 32.

(** [slab_list_t]: the node [head] and a 32-bit length. *)
Definition sl_head (l : Z) : Z := l.
Definition sl_len (l : Z) : Z := l + 32.
Definition sizeof_slist : Z := 40.

Record slab_alloc_t {St : Type} := SlabAlloc {
  lists : Z;
  pgsize : Z;
  ssize : Z;       (* struct size *)
  cells : Z;       (* cells in a page *)
  buddy_alloc : Z -> M St Z;
  buddy_free : Z -> M St unit;
  pgbegin : Z -> Z
}.
Arguments slab_alloc_t : clear implicits.
Arguments SlabAlloc {St}.

Section Slab.
Context {St : Type} `{RamIn St}.
Notation slab_alloc_t := (slab_alloc_t St).

(** [&slab->lists[i]] *)
Definition list_at (slab : slab_alloc_t) (i : Z) : Z := lists slab + sizeof_slist * i.

(** ** List operations *)

Definition list_init (list used_cells : Z) : M ram unit :=
  st64 (pg_prev (sl_head list)) 0 ;;;
  st64 (pg_next (sl_head list)) 0 ;;;
  st64 (pg_list (sl_head list)) list ;;;
  st32 (pg_used_cells (sl_head list)) used_cells ;;;
  st32 (sl_len list) 0.

Definition list_insert (base_block new_block : Z) : M ram unit :=
  list <- ld64 (pg_list base_block) ;;
  head_used <- ld32 (pg_used_cells (sl_head list)) ;;
  base_used <- ld32 (pg_used_cells base_block) ;;
  assert_line 71 (head_used =? base_used) ;;;
  used <- ld32 (pg_used_cells (sl_head list)) ;;
  st32 (pg_used_cells new_block) used ;;;
  st64 (pg_list new_block) list ;;;
  st64 (pg_prev new_block) base_block ;;;
  next <- ld64 (pg_next base_block) ;;
  st64 (pg_next new_block) next ;;;
  st64 (pg_next base_block) new_block ;;;
  len <- ld32 (sl_len list) ;;
  st32 (sl_len list) (u32 (len + 1)).

Definition list_remove (block : Z) : M ram unit :=
  list <- ld64 (pg_list block) ;;
  prev <- ld64 (pg_prev block) ;;
  assert_line 85 (negb (prev =? 0)) ;;;
  len <- ld32 (sl_len list) ;;
  assert_line 86 (0 <? len) ;;;
  prev <- ld64 (pg_prev block) ;;
  next <- ld64 (pg_next block) ;;
  st64 (pg_next prev) next ;;;
  when (negb (next =? 0)) (st64 (pg_prev next) prev) ;;;
  len <- ld32 (sl_len list) ;;
  st32 (sl_len list) (u32 (len - 1)).

Definition list_add (list new_block : Z) : M ram unit :=
  list_insert (sl_head list) new_block.

(** ** The parts of a page *)

Definition bitmaps_ptr (slab : slab_alloc_t) (page : Z) : Z :=
  page + sizeof_page + u32 (cells slab * ssize slab).

Definition cells_ptr (slab : slab_alloc_t) (page : Z) : Z := page + sizeof_page.

(** ** Initialisation *)

(** [while(1)]: once [res] has wrapped to 0, after 64 doublings, the loop does
    not end. *)
Fixpoint serv_pages_loop (k : nat) (pgsize n res : Z) : option Z :=
  match k with
  | O => None
  | S k =>
      if n <=? u64 (res * pgsize) then Some res
      else serv_pages_loop k pgsize n (u64 (res * 2))
  end.

Definition serv_pages (pgsize n : Z) : option Z := serv_pages_loop 65 pgsize n 1.

(** [for(int i = 0; i < slab->cells; i++)], [k] iterations left. *)
Fixpoint init_lists_loop (slab : slab_alloc_t) (k : nat) (i : Z) : M ram unit :=
  match k with
  | O => ret tt
  | S k => list_init (list_at slab i) i ;;; init_lists_loop slab k (i + 1)
  end.

(** Returns the record with its [lists] field set. *)
Definition init_lists (slab : slab_alloc_t) : M St slab_alloc_t :=
  let lists_size := u64 (sizeof_slist * cells slab) in
  match serv_pages (pgsize slab) lists_size with
  | None => diverge
  | Some serv =>
      lists <- buddy_alloc slab serv ;;
      assert_line 133 (negb (lists =? 0)) ;;;
      let slab := SlabAlloc lists (pgsize slab) (ssize slab) (cells slab)
                            (buddy_alloc slab) (buddy_free slab) (pgbegin slab) in
      inram (init_lists_loop slab (Z.to_nat (cells slab)) 0) ;;;
      ret slab
  end.

Definition lib_slab_init (slab : slab_alloc_t) (pgsize ssize : Z)
    (buddy_alloc : Z -> M St Z) (buddy_free : Z -> M St unit) (pgbegin : Z -> Z)
    : M St slab_alloc_t :=
  let cells := u32 (u64 (pgsize - sizeof_page) / u32 (1 + ssize)) in
  init_lists (SlabAlloc (lists slab) pgsize ssize cells buddy_alloc buddy_free pgbegin).

(** ** Allocation *)

(** [bitmaps[i] = 0] for [k] more values of [i]. *)
Fixpoint clear_bitmaps (bitmaps : Z) (k : nat) (i : Z) : M ram unit :=
  match k with
  | O => ret tt
  | S k => st8 (bitmaps + i) 0 ;;; clear_bitmaps bitmaps k (i + 1)
  end.

Definition new_page (slab : slab_alloc_t) : M St Z :=
  page <- buddy_alloc slab 1 ;;
  assert_line 167 (negb (page =? 0)) ;;;
  let bitmaps := bitmaps_ptr slab page in
  inram (clear_bitmaps bitmaps (Z.to_nat (cells slab)) 0) ;;;
  b0 <- inram (ld8 bitmaps) ;;
  assert_line 172 (b0 =? 0) ;;;
  inram (list_add (list_at slab 0) page) ;;;
  assert_line 174 (bitmaps_ptr slab page =? bitmaps) ;;;
  b0 <- inram (ld8 bitmaps) ;;
  assert_line 175 (b0 =? 0) ;;;
  used <- inram (ld32 (pg_used_cells page)) ;;
  assert_line 176 (used =? 0) ;;;
  l <- inram (ld64 (pg_list page)) ;;
  assert_line 177 (l =? list_at slab 0) ;;;
  ret page.

(** [while(bitmaps[i] == 1)] with [k] iterations of fuel: the assertion in the
    body bounds the iterations by [page->used_cells]. *)
Fixpoint find_cell (page bitmaps : Z) (k : nat) (i : Z) : M ram Z :=
  b <- ld8 (bitmaps + i) ;;
  if b =? 1 then
    match k with
    | O => diverge
    | S k =>
        used <- ld32 (pg_used_cells page) ;;
        assert_line 187 (i <? used) ;;;
        find_cell page bitmaps k (u32 (i + 1))
    end
  else ret i.

Definition page_alloc_cell (slab : slab_alloc_t) (page : Z) : M ram Z :=
  used <- ld32 (pg_used_cells page) ;;
  assert_line 182 (used <? cells slab) ;;;
  let bitmaps := bitmaps_ptr slab page in
  i <- find_cell page bitmaps (S (Z.to_nat used)) 0 ;;
  b <- ld8 (bitmaps + i) ;;
  assert_line 191 (b =? 0) ;;;
  st8 (bitmaps + i) 1 ;;;
  list_remove page ;;;
  used <- ld32 (pg_used_cells page) ;;
  list_add (list_at slab (u32 (used + 1))) page ;;;
  ret (cells_ptr slab page + u32 (i * ssize slab)).

(** [while(cells >= 0)], [k] iterations left: the page found, or the value of
    [cells] when the loop ends. *)
Fixpoint find_page (slab : slab_alloc_t) (k : nat) (cells : Z) : M ram (Z + Z) :=
  match k with
  | O => ret (inr cells)
  | S k =>
      len <- ld32 (sl_len (list_at slab cells)) ;;
      if 0 <? len then
        page <- ld64 (pg_next (sl_head (list_at slab cells))) ;; ret (inl page)
      else find_page slab k (cells - 1)
  end.

Definition lib_slab_alloc (slab : slab_alloc_t) : M St Z :=
  let cells := i32 (u32 (cells slab - 2)) in
  found <- inram (find_page slab (Z.to_nat (cells + 1)) cells) ;;
  match found with
  | inl page => inram (page_alloc_cell slab page)
  | inr cells =>
      assert_line 212 (cells =? -1) ;;;
      page <- new_page slab ;;
      inram (page_alloc_cell slab page)
  end.

(** ** Release *)

Definition page_clean_cell (slab : slab_alloc_t) (page ptr : Z) : M ram unit :=
  let bitmaps := bitmaps_ptr slab page in
  let i := i32 (Z.quot (ptr - cells_ptr slab page) (ssize slab)) in
  b <- ld8 (bitmaps + i) ;;
  assert_line 227 (b =? 1) ;;;
  st8 (bitmaps + i) 0.

Definition lib_slab_free (slab : slab_alloc_t) (ptr : Z) : M St unit :=
  let page := pgbegin slab ptr in
  inram (list_remove page) ;;;
  used <- inram (ld32 (pg_used_cells page)) ;;
  (if used =? 1 then buddy_free slab page
   else
     used <- inram (ld32 (pg_used_cells page)) ;;
     inram (list_add (list_at slab (u32 (used - 1))) page)) ;;;
  inram (page_clean_cell slab page ptr).
End Slab.
