(* ===== verification/SlabInv.v ===== *)
(** * The slab allocator: representation invariant

    The abstract state is [G]: for each number of used cells, the list of the
    pages with that many.  This file relates it to RAM and proves what the list
    operations do, over any [PageAllocator]. *)

From S2P Require Import Prelude CInt Memory PageAlloc Slab.

(** The pages of a list, from the pointer [p]; as in the buddy allocator every
    node's [prev] is the list's head. *)
Fixpoint schain (m : ram) (l used p : Z) (ps : list Z) : Prop :=
  match ps with
  | [] => p = 0
  | q :: ps =>
      p = q /\
      peek 8 m (pg_prev q) = l /\
      peek 8 m (pg_list q) = l /\
      peek 4 m (pg_used_cells q) = used /\
      schain m l used (peek 8 m (pg_next q)) ps
  end.

Record srep (m : ram) (l used n : Z) (ps : list Z) : Prop := {
  sr_prev : peek 8 m (pg_prev l) = 0;
  sr_list : peek 8 m (pg_list l) = l;
  sr_used : peek 4 m (pg_used_cells l) = used;
  sr_len : peek 4 m (sl_len l) = n;
  sr_chain : schain m l used (peek 8 m (pg_next l)) ps
}.

Lemma schain_frame m m' l used p ps :
  (forall q x, q ∈ ps -> q <= x < q + 32 -> byte_at m' x = byte_at m x) ->
  schain m l used p ps -> schain m' l used p ps.
Proof.
  revert p. induction ps as [|q ps IH]; intros p Hb; cbn [schain]; [done|].
  intros (-> & H1 & H2 & H3 & H4).
  assert (forall k n, 0 <= k -> k + Z.of_nat n <= 32 -> peek n m' (q + k) = peek n m (q + k)) as Hp.
  { intros k n Hk Hn. apply peek_ext. intros x Hx. apply (Hb q); [by left|lia]. }
  pose proof (Hp 0 8%nat) as Hp0. rewrite !Z.add_0_r in Hp0.
  unfold pg_prev, pg_list, pg_used_cells, pg_next in *. rewrite !Hp, Hp0 by lia.
  split_and!; try done. apply IH; [|done]. intros q' x Hin. apply Hb. by right.
Qed.

(** The pages of a list are determined by the memory. *)
Lemma schain_unique m l used p ps qs :
  (forall q, q ∈ ps -> q <> 0) -> (forall q, q ∈ qs -> q <> 0) ->
  schain m l used p ps -> schain m l used p qs -> ps = qs.
Proof.
  revert p qs. induction ps as [|x ps IH]; intros p [|y qs] Hp Hq; cbn [schain]; [done|..].
  - intros -> [E _]. symmetry in E. by destruct (Hq y ltac:(left) E).
  - intros [-> _] E. by destruct (Hp x ltac:(left) E).
  - intros (-> & _ & _ & _ & C) (-> & _ & _ & _ & C'). f_equal.
    apply (IH _ qs) in C; [done|intros q ?; apply Hp; by right|intros q ?; apply Hq; by right|done].
Qed.

Lemma srep_frame m m' l used n ps :
  (forall x, l <= x < l + 40 -> byte_at m' x = byte_at m x) ->
  (forall q x, q ∈ ps -> q <= x < q + 32 -> byte_at m' x = byte_at m x) ->
  srep m l used n ps -> srep m' l used n ps.
Proof.
  intros Hh Hn [R1 R2 R3 R4 R5].
  assert (forall k w, 0 <= k -> k + Z.of_nat w <= 40 -> peek w m' (l + k) = peek w m (l + k)) as Hp.
  { intros k w Hk Hw. apply peek_ext. intros x Hx. apply Hh. lia. }
  pose proof (Hp 0 8%nat) as Hp0. rewrite !Z.add_0_r in Hp0.
  unfold pg_prev, pg_list, pg_used_cells, sl_len, pg_next in *.
  split; unfold pg_prev, pg_list, pg_used_cells, sl_len, pg_next; rewrite ?Hp by lia; try done.
  rewrite Hp0 by lia. by eapply schain_frame.
Qed.

Section ListOps.
Context (m : ram) (l : Z).
Context (Hlo : ram_lo m <= l) (Hl : 0 < l) (Hhi : l + 40 <= ram_hi m) (Ha : ram_hi m < 2 ^ 64).

Lemma slist_add_spec used n ps b :
  0 <= used < 2 ^ 31 -> 0 <= n < 2 ^ 31 ->
  ram_lo m <= b -> 0 < b -> b + 32 <= ram_hi m -> l + 40 <= b \/ b + 32 <= l ->
  (forall q, q ∈ ps -> (b + 32 <= q \/ q + 32 <= b) /\ (l + 40 <= q \/ q + 32 <= l)) ->
  srep m l used n ps ->
  exists m', list_add l b m = Ok (tt, m') /\
    same_off (fun x => l <= x < l + 40 \/ b <= x < b + 32) m m' /\
    srep m' l used (n + 1) (b :: ps).
Proof using Hlo Hl Hhi Ha.
  intros Hu Hn Hb1 Hb0 Hb2 Hsep Hps [R1 R2 R3 R4 R5].
  unfold list_add, list_insert, sl_head, pg_prev, pg_list, pg_used_cells, sl_len, pg_next in *.
  eexists. split.
  - cstep. rewrite R2. do 2 cstep. rewrite R3.
    cassert; [lia|]. repeat cstep. peeks. rewrite st32_ok by bk. reflexivity.
  - rewrite R3. split.
    + split_and!; [by rewrite !ram_lo_poke|by rewrite !ram_hi_poke|].
      intros x Hx. rewrite !byte_at_poke_ne by lia. done.
    + rewrite R4, u32_id by lia. pose proof (peek8_range m l).
      split; unfold pg_prev, pg_list, pg_used_cells, sl_len, pg_next; peeks; try done.
      cbn [schain]. unfold pg_prev, pg_list, pg_used_cells, pg_next. peeks.
      split_and!; try done.
      apply (schain_frame m); [|done]. intros q x Hin Hx.
      destruct (Hps q Hin). rewrite !byte_at_poke_ne by lia. done.
Qed.

Lemma slist_remove_spec used n pre b post :
  0 < n < 2 ^ 31 ->
  (forall q, q ∈ b :: post -> ram_lo m <= q /\ 0 < q /\ q + 32 <= ram_hi m /\
     (l + 40 <= q \/ q + 32 <= l)) ->
  srep m l used n (pre ++ b :: post) ->
  exists m', list_remove b m = Ok (tt, m') /\
    same_off (fun x => l <= x < l + 40) m m' /\
    srep m' l used (n - 1) post.
Proof using Hlo Hl Hhi Ha.
  intros Hn Hps [R1 R2 R3 R4 R5].
  assert (exists p, schain m l used p (b :: post)) as (p & C).
  { revert R5. generalize (peek 8 m (pg_next l)). clear. induction pre as [|q pre IH]; intros p; cbn [app]; [eauto|].
    cbn [schain]. intros (_ & _ & _ & _ & H). eauto. }
  clear R5. cbn [schain] in C. destruct C as (-> & C1 & C2 & C3 & C4).
  destruct (Hps b) as (Hb1 & Hb2 & Hb3 & Hb4); [by left|].
  unfold list_remove, sl_head, pg_prev, pg_list, pg_used_cells, sl_len, pg_next in *.
  remember (peek 8 m b) as nx eqn:Enx.
  assert (nx = 0 \/ (nx <> 0 /\ peek 8 m (nx + 8) = l /\ ram_lo m <= nx /\ nx + 32 <= ram_hi m /\
    (l + 40 <= nx \/ nx + 32 <= l))) as Hnx.
  { destruct post as [|q post]; cbn [schain] in C4; [by left|right].
    destruct C4 as (-> & C4 & _). destruct (Hps q) as (? & ? & ? & ?); [by right; left|].
    split_and!; [lia|done|lia..]. }
  assert (exists m2, when (negb (nx =? 0)) (st64 (nx + 8) l) (poke 8 m l nx) = Ok (tt, m2) /\
    same_off (fun _ => False) (poke 8 m l nx) m2) as (m2 & E2 & S2).
  { destruct Hnx as [->|(Hnz & Hp & Hd & Hh & Hs)].
    - exists (poke 8 m l 0). split; [done|apply same_off_refl].
    - exists (poke 8 (poke 8 m l nx) (nx + 8) l). split.
      + rewrite (proj2 (Z.eqb_neq nx 0)) by done. cbn [negb when]. apply st64_ok. bk.
      + split_and!; [by rewrite ram_lo_poke|by rewrite ram_hi_poke|]. intros x _.
        rewrite <- (byte_at_poke_id 8 (poke 8 m l nx) (nx + 8)). by rewrite peek_poke_ne, Hp by lia. }
  assert (forall x, ~ (l <= x < l + 8) -> byte_at m2 x = byte_at m x) as B2.
  { intros x Hx. rewrite (proj2 (proj2 S2)) by tauto. apply byte_at_poke_ne. lia. }
  destruct S2 as (Slo & Shi & SB). rewrite ram_lo_poke in Slo. rewrite ram_hi_poke in Shi.
  assert (forall w k, 8 <= k -> peek w m2 (l + k) = peek w m (l + k)) as Hk.
  { intros w k Hk. apply peek_ext. intros. apply B2. lia. }
  exists (poke 4 m2 (l + 32) (n - 1)). split; [|split].
  - cstep. rewrite C2. cstep. rewrite C1. cassert; [lia|].
    cstep. rewrite R4. cassert; [lia|]. cstep. rewrite C1. cstep. rewrite <- Enx. cstep.
    rewrite (bind_ok _ _ _ _ _ E2). cstep. rewrite Hk, R4, u32_id by lia. apply st32_ok. bk.
  - split_and!; [by rewrite ram_lo_poke|by rewrite ram_hi_poke|].
    intros x Hx. rewrite byte_at_poke_ne by lia. apply B2. lia.
  - assert (peek 8 m2 l = nx) as Hl0.
    { rewrite (peek_ext 8 m2 (poke 8 m l nx)) by (intros; apply SB; tauto).
      rewrite peek_poke_eq. rewrite Enx. apply Z.mod_small. apply peek8_range. }
    split; unfold pg_prev, pg_list, pg_used_cells, sl_len, pg_next; peeks;
      rewrite ?Hk by lia; try done.
    rewrite Hl0. apply (schain_frame m); [|done]. intros q x Hq Hx.
    destruct (Hps q) as (? & ? & ? & ?); [by right|].
    rewrite byte_at_poke_ne by lia. apply B2. lia.
Qed.

Lemma slist_init_spec used :
  0 <= used < 2 ^ 31 ->
  exists m', list_init l used m = Ok (tt, m') /\
    same_off (fun x => l <= x < l + 40) m m' /\ srep m' l used 0 [].
Proof using Hlo Hl Hhi Ha.
  intros Hu. unfold list_init, sl_head, pg_prev, pg_list, pg_used_cells, sl_len, pg_next.
  eexists. split; [|split].
  - repeat cstep. apply st32_ok. bk.
  - split_and!; [by rewrite !ram_lo_poke|by rewrite !ram_hi_poke|].
    intros x Hx. by rewrite !byte_at_poke_ne by lia.
  - split; unfold pg_prev, pg_list, pg_used_cells, sl_len, pg_next; peeks; done.
Qed.
End ListOps.

(** ** The structure of a slab *)

Section Struct.
Context {psz : Z} {pg_alloc : Z -> M ram Z} {pg_free : Z -> M ram unit}.
Context {PA : PageAllocator psz pg_alloc pg_free}.
Context (sl : slab_alloc_t ram).

(** What [lib_slab_init] sets up. *)
Record sgeom : Prop := {
  sg_alloc : buddy_alloc sl = pg_alloc;
  sg_free : buddy_free sl = pg_free;
  sg_begin : forall p, pgbegin sl p = p - p mod psz;
  sg_psz : psz < 2 ^ 31;
  sg_ssize : 0 < ssize sl;
  sg_cells : 2 <= cells sl;
  sg_fit : 32 + cells sl * ssize sl + cells sl <= psz
}.

(** [L]: live blocks; [G]: pages by number of used cells; [H]: pages in hand. *)
Record sstruct (m : ram) (L : gmap Z Z) (G : list (list Z)) (H : list Z) : Prop := {
  ss_pa : pa_inv m L;
  ss_lists : exists serv, L !! lists sl = Some serv /\ 40 * cells sl <= serv * psz;
  ss_len : Z.of_nat (length G) = cells sl;
  ss_rep : forall k ps, G !! k = Some ps ->
    srep m (list_at sl (Z.of_nat k)) (Z.of_nat k) (Z.of_nat (length ps)) ps;
  ss_page : forall p, p ∈ concat G ++ H -> L !! p = Some 1 /\ p <> lists sl;
  ss_nodup : NoDup (concat G ++ H);
  ss_ram : ram_hi m <= 2 ^ 35
}.

Context (SG : sgeom).

Lemma ss_lists_range m L G H k :
  sstruct m L G H -> 0 <= k < cells sl ->
  0 < list_at sl k /\ ram_lo m <= list_at sl k /\ list_at sl k + 40 <= ram_hi m /\
  ram_hi m < 2 ^ 64 /\
  exists serv, L !! lists sl = Some serv /\ lists sl <= list_at sl k /\
    list_at sl k + 40 <= lists sl + serv * psz.
Proof using SG.
  intros S Hk. destruct (ss_lists _ _ _ _ S) as (serv & HL & Hs).
  destruct (pa_range m L _ _ (ss_pa _ _ _ _ S) HL) as (? & ? & ? & ? & ?).
  unfold list_at, sizeof_slist. split_and!; try lia. exists serv. split_and!; [done|lia..].
Qed.

Lemma ss_page_range m L G H p :
  sstruct m L G H -> p ∈ concat G ++ H ->
  0 < p /\ ram_lo m <= p /\ p + psz <= ram_hi m /\ 32 < psz /\ (psz | p) /\
  forall k, 0 <= k < cells sl -> list_at sl k + 40 <= p \/ p + psz <= list_at sl k.
Proof using SG.
  intros S Hp. destruct (ss_page _ _ _ _ S p Hp) as [HL Hne].
  pose proof (ss_pa _ _ _ _ S) as P.
  destruct (pa_range m L _ _ P HL) as (? & ? & ? & ? & ?).
  pose proof (sg_fit SG). pose proof (sg_cells SG). pose proof (sg_ssize SG).
  split_and!; try lia; try nia; [by apply (pa_aligned m L p 1 P)|]. intros k Hk.
  destruct (ss_lists_range m L G H k S Hk) as (_ & _ & _ & _ & serv & HLs & ? & ?).
  destruct (pa_disjoint m L p 1 _ _ P HL HLs Hne); lia.
Qed.

Lemma ss_pages_apart m L G H p q :
  sstruct m L G H -> p ∈ concat G ++ H -> q ∈ concat G ++ H -> p <> q ->
  p + psz <= q \/ q + psz <= p.
Proof.
  intros S Hp Hq Hne. destruct (ss_page _ _ _ _ S p Hp) as [HLp _].
  destruct (ss_page _ _ _ _ S q Hq) as [HLq _].
  destruct (pa_disjoint m L p 1 q 1 (ss_pa _ _ _ _ S) HLp HLq Hne); lia.
Qed.

(** Bytes of the owned memory: the lists and the pages. *)
Lemma ss_in_live_head m L G H k x :
  sstruct m L G H -> 0 <= k < cells sl -> list_at sl k <= x < list_at sl k + 40 -> in_live psz L x.
Proof using SG.
  intros S Hk Hx. destruct (ss_lists_range m L G H k S Hk) as (_ & _ & _ & _ & serv & HL & ? & ?).
  exists (lists sl), serv. split; [done|lia].
Qed.
Lemma ss_in_live_page m L G H p x :
  sstruct m L G H -> p ∈ concat G ++ H -> p <= x < p + psz -> in_live psz L x.
Proof. intros S Hp Hx. destruct (ss_page _ _ _ _ S p Hp) as [HL _]. exists p, 1. split; [done|lia]. Qed.

(** Pages are distinct multiples of the page size, so their number fits the
    32-bit length fields. *)
Lemma ss_length m L G H k ps :
  sstruct m L G H -> G !! k = Some ps -> Z.of_nat (length ps) < 2 ^ 31 - 1.
Proof using SG.
  intros S Hk. assert (forall p, p ∈ ps -> p ∈ concat G ++ H) as Hin.
  { intros p Hp. rewrite elem_of_app, elem_of_concat. left. eauto. }
  assert (NoDup ps) as Hnd.
  { pose proof (ss_nodup _ _ _ _ S) as Hnd. apply NoDup_app in Hnd as (Hnd & _ & _). by eapply concat_level_nodup. }
  assert (Z.of_nat (length ((fun p => p / psz) <$> ps)) <= 2 ^ 30) as Hl.
  { apply NoDup_Z_length; [lia| |].
    - apply NoDup_fmap_2_strong; [|done]. intros p q Hp Hq E.
      destruct (ss_page_range _ _ _ _ _ S (Hin p Hp)) as (_ & _ & _ & ? & (a & ->) & _).
      destruct (ss_page_range _ _ _ _ _ S (Hin q Hq)) as (_ & _ & _ & _ & (b & ->) & _).
      rewrite !Z.div_mul in E by lia. by subst.
    - intros q (p & -> & Hp)%list_elem_of_fmap.
      destruct (ss_page_range _ _ _ _ _ S (Hin p Hp)) as (? & ? & ? & ? & _ & _).
      pose proof (ss_ram _ _ _ _ S). split; [apply Z.div_pos; lia|].
      apply Z.div_lt_upper_bound; nia. }
  rewrite length_fmap in Hl. lia.
Qed.

Lemma elem_of_level m L G H k ps p :
  sstruct m L G H -> G !! k = Some ps -> p ∈ ps -> p ∈ concat G ++ H.
Proof. intros S Hk Hp. rewrite elem_of_app, elem_of_concat. left. eauto. Qed.

(** A list that is not touched. *)
Lemma ss_rep_same m m' L G H k ps Q :
  sstruct m L G H -> G !! k = Some ps -> same_off Q m m' ->
  (forall x, Q x -> ~ (list_at sl (Z.of_nat k) <= x < list_at sl (Z.of_nat k) + 40)) ->
  (forall x q, Q x -> q ∈ ps -> ~ (q <= x < q + 32)) ->
  srep m' (list_at sl (Z.of_nat k)) (Z.of_nat k) (Z.of_nat (length ps)) ps.
Proof.
  intros S Hk So Hh Hn. apply (srep_frame m).
  - intros x Hx. apply So. intros HQ. by apply (Hh x).
  - intros q x Hq Hx. apply So. intros HQ. by apply (Hn x q).
  - by apply (ss_rep _ _ _ _ S).
Qed.

Lemma list_at_sep i j : i <> j -> list_at sl i + 40 <= list_at sl j \/ list_at sl j + 40 <= list_at sl i.
Proof. unfold list_at, sizeof_slist. lia. Qed.

(** [list_add] puts the page in hand on the list [k]. *)
Lemma sstruct_push m L G H p k ps :
  sstruct m L G (p :: H) -> G !! k = Some ps ->
  exists m', list_add (list_at sl (Z.of_nat k)) p m = Ok (tt, m') /\
    sstruct m' L (<[k := p :: ps]> G) H /\
    same_off (fun x => list_at sl (Z.of_nat k) <= x < list_at sl (Z.of_nat k) + 40 \/ p <= x < p + 32) m m'.
Proof using SG.
  intros S Hk. pose proof (ss_length _ _ _ _ _ _ S Hk) as Hlen. cbn [length] in Hlen.
  pose proof (lookup_lt_Some _ _ _ Hk) as Hkl. pose proof (ss_len _ _ _ _ S).
  assert (0 <= Z.of_nat k < cells sl) as Hkc by lia.
  assert (p ∈ concat G ++ p :: H) as Hp by (rewrite elem_of_app; right; by left).
  destruct (ss_lists_range _ _ _ _ _ S Hkc) as (Hl0 & Hl1 & Hl2 & Hl3 & _).
  destruct (ss_page_range _ _ _ _ _ S Hp) as (Hp0 & Hp1 & Hp2 & Hp3 & _ & Hpl).
  assert (forall i qs q, G !! i = Some qs -> q ∈ qs -> q <> p) as Hni.
  { intros i qs q Hi Hq ->. pose proof (ss_nodup _ _ _ _ S) as Hnd.
    apply NoDup_app in Hnd as (_ & Hd & _). apply (Hd p); [|by left]. apply elem_of_concat. eauto. }
  assert (cells sl < 2 ^ 31) by (pose proof (sg_fit SG); pose proof (sg_psz SG); pose proof (sg_ssize SG); nia).
  assert (forall i qs q, G !! i = Some qs -> q ∈ qs ->
     (p + psz <= q \/ q + psz <= p) /\
     (list_at sl (Z.of_nat k) + 40 <= q \/ q + psz <= list_at sl (Z.of_nat k))) as Hq.
  { intros i qs q Hi Hq. pose proof (elem_of_level _ _ _ _ _ _ _ S Hi Hq) as Hq'.
    destruct (ss_page_range _ _ _ _ _ S Hq') as (_ & _ & _ & _ & _ & Hql).
    split; [|by apply Hql]. apply (ss_pages_apart _ _ _ _ _ _ S Hp Hq'). intros E. by apply (Hni i qs q). }
  destruct (slist_add_spec m _ Hl1 Hl0 Hl2 Hl3 (Z.of_nat k) (Z.of_nat (length ps)) ps p)
    as (m' & E & So & R); try lia.
  { destruct (Hpl _ Hkc); lia. }
  { intros q Hin. destruct (Hq k ps q Hk Hin). lia. }
  { by apply (ss_rep _ _ _ _ S). }
  exists m'. split; [done|]. split; [|done].
  assert (concat (<[k := p :: ps]> G) ++ H ≡ₚ concat G ++ p :: H) as HP.
  { rewrite (concat_push G k ps p Hk). solve_Permutation. }
  split.
  - apply (pa_write m); [apply (ss_pa _ _ _ _ S)|]. apply (same_off_weaken _ _ _ _ So).
    intros x [Hx|Hx]; [by apply (ss_in_live_head _ _ _ _ _ _ S Hkc)|].
    apply (ss_in_live_page _ _ _ _ _ _ S Hp). lia.
  - apply (ss_lists _ _ _ _ S).
  - rewrite length_insert. done.
  - intros i qs Hi. destruct (decide (i = k)) as [->|Hne].
    + rewrite list_lookup_insert_eq in Hi by done. simplify_eq. cbn [length].
      by replace (Z.of_nat (Datatypes.S (length ps))) with (Z.of_nat (length ps) + 1) by lia.
    + rewrite list_lookup_insert_ne in Hi by done.
      pose proof (list_at_sep (Z.of_nat i) (Z.of_nat k) ltac:(lia)).
      pose proof (lookup_lt_Some _ _ _ Hi).
      eapply (ss_rep_same m); [exact S|done|exact So|..]; cbv beta.
      * intros x [Hx|Hx] Hh; [lia|]. destruct (Hpl (Z.of_nat i)); lia.
      * intros x q Hx Hin Hn. destruct (Hq i qs q Hi Hin). lia.
  - intros q. rewrite HP. apply (ss_page _ _ _ _ S).
  - rewrite HP. apply (ss_nodup _ _ _ _ S).
  - rewrite (proj1 (proj2 So)). apply (ss_ram _ _ _ _ S).
Qed.

(** [list_remove] takes the first page of a list in hand. *)
Lemma sstruct_pop m L G H p k ps :
  sstruct m L G H -> G !! k = Some (p :: ps) ->
  exists m', list_remove p m = Ok (tt, m') /\
    sstruct m' L (<[k := ps]> G) (p :: H) /\
    same_off (fun x => list_at sl (Z.of_nat k) <= x < list_at sl (Z.of_nat k) + 40) m m'.
Proof using SG.
  intros S Hk. pose proof (ss_length _ _ _ _ _ _ S Hk) as Hlen. cbn [length] in Hlen.
  pose proof (lookup_lt_Some _ _ _ Hk) as Hkl. pose proof (ss_len _ _ _ _ S).
  assert (0 <= Z.of_nat k < cells sl) as Hkc by lia.
  destruct (ss_lists_range _ _ _ _ _ S Hkc) as (Hl0 & Hl1 & Hl2 & Hl3 & _).
  assert (forall i qs q, G !! i = Some qs -> q ∈ qs ->
     list_at sl (Z.of_nat k) + 40 <= q \/ q + 32 <= list_at sl (Z.of_nat k)) as Hq.
  { intros i qs q Hi Hq. pose proof (elem_of_level _ _ _ _ _ _ _ S Hi Hq) as Hq'.
    destruct (ss_page_range _ _ _ _ _ S Hq') as (_ & _ & _ & ? & _ & Hql). destruct (Hql _ Hkc); lia. }
  destruct (slist_remove_spec m _ Hl1 Hl0 Hl2 Hl3 (Z.of_nat k) (Z.of_nat (length (p :: ps))) [] p ps)
    as (m' & E & So & R).
  { cbn [length]. lia. }
  { intros q Hin. pose proof (elem_of_level _ _ _ _ _ _ _ S Hk Hin) as Hq'.
    destruct (ss_page_range _ _ _ _ _ S Hq') as (? & ? & ? & ? & _ & _).
    pose proof (Hq k (p :: ps) q Hk Hin). lia. }
  { by apply (ss_rep _ _ _ _ S). }
  exists m'. split; [done|]. split; [|done].
  assert (concat (<[k := ps]> G) ++ p :: H ≡ₚ concat G ++ H) as HP.
  { rewrite (concat_pop G k ps p Hk). solve_Permutation. }
  split.
  - apply (pa_write m); [apply (ss_pa _ _ _ _ S)|]. apply (same_off_weaken _ _ _ _ So).
    intros x Hx. by apply (ss_in_live_head _ _ _ _ _ _ S Hkc).
  - apply (ss_lists _ _ _ _ S).
  - rewrite length_insert. done.
  - intros i qs Hi. destruct (decide (i = k)) as [->|Hne].
    + rewrite list_lookup_insert_eq in Hi by done. simplify_eq. cbn [length] in R.
      by replace (Z.of_nat (length qs)) with (Z.of_nat (Datatypes.S (length qs)) - 1) by lia.
    + rewrite list_lookup_insert_ne in Hi by done.
      pose proof (list_at_sep (Z.of_nat i) (Z.of_nat k) ltac:(lia)).
      eapply (ss_rep_same m); [exact S|done|exact So|..]; cbv beta.
      * intros x Hx Hh. lia.
      * intros x q Hx Hin Hn. destruct (Hq i qs q Hi Hin); lia.
  - intros q. rewrite HP. apply (ss_page _ _ _ _ S).
  - rewrite HP. apply (ss_nodup _ _ _ _ S).
  - rewrite (proj1 (proj2 So)). apply (ss_ram _ _ _ _ S).
Qed.

(** Writes into the pages, beyond the list node. *)
Lemma sstruct_write m m' L G H Q :
  sstruct m L G H -> same_off Q m m' ->
  (forall x, Q x -> exists p, p ∈ concat G ++ H /\ p + 32 <= x < p + psz) ->
  sstruct m' L G H.
Proof using SG.
  intros S So HQ. split.
  - apply (pa_write m); [apply (ss_pa _ _ _ _ S)|]. apply (same_off_weaken _ _ _ _ So).
    intros x Hx. destruct (HQ x Hx) as (p & Hp & Hr). apply (ss_in_live_page _ _ _ _ _ _ S Hp). lia.
  - apply (ss_lists _ _ _ _ S).
  - apply (ss_len _ _ _ _ S).
  - intros k ps Hk. pose proof (lookup_lt_Some _ _ _ Hk). pose proof (ss_len _ _ _ _ S).
    eapply (ss_rep_same m); [exact S|done|exact So|..].
    + intros x Hx Hh. destruct (HQ x Hx) as (p & Hp & Hr).
      destruct (ss_page_range _ _ _ _ _ S Hp) as (_ & _ & _ & _ & _ & Hpl).
      destruct (Hpl (Z.of_nat k)); lia.
    + intros x q Hx Hq Hn. destruct (HQ x Hx) as (p & Hp & Hr).
      pose proof (elem_of_level _ _ _ _ _ _ _ S Hk Hq) as Hq'.
      destruct (decide (p = q)) as [->|Hne]; [lia|].
      destruct (ss_pages_apart _ _ _ _ _ _ S Hp Hq' Hne); lia.
  - apply (ss_page _ _ _ _ S).
  - apply (ss_nodup _ _ _ _ S).
  - rewrite (proj1 (proj2 So)). apply (ss_ram _ _ _ _ S).
Qed.

(** A fresh page comes in hand; the memory the slab owns is not touched. *)
Lemma sstruct_new m m' L G p :
  sstruct m L G [] -> p <> 0 -> L !! p = None -> pa_inv m' (<[p := 1]> L) ->
  same_off (fun x => ~ in_live psz L x) m m' ->
  sstruct m' (<[p := 1]> L) G [p].
Proof using SG.
  intros S Hp HL P So. destruct (ss_lists _ _ _ _ S) as (serv & Hs & Hsz).
  assert (p <> lists sl) by congruence. split.
  - done.
  - exists serv. by rewrite lookup_insert_ne.
  - apply (ss_len _ _ _ _ S).
  - intros k ps Hk. pose proof (lookup_lt_Some _ _ _ Hk). pose proof (ss_len _ _ _ _ S).
    eapply (ss_rep_same m); [exact S|done|exact So|..]; cbv beta.
    + intros x Hx Hh. apply Hx. eapply (ss_in_live_head _ _ _ _ (Z.of_nat k)); [exact S|lia|done].
    + intros x q Hx Hq Hn. apply Hx. pose proof (elem_of_level _ _ _ _ _ _ _ S Hk Hq) as Hq'.
      eapply ss_in_live_page; [exact S|exact Hq'|].
      destruct (ss_page_range _ _ _ _ _ S Hq') as (_ & _ & _ & ? & _). lia.
  - intros q [Hq|Hq]%elem_of_app.
    + destruct (ss_page _ _ _ _ S q) as [HLq Hne]; [rewrite app_nil_r; done|].
      rewrite lookup_insert_ne by congruence. done.
    + apply list_elem_of_singleton in Hq as ->. by rewrite lookup_insert_eq.
  - pose proof (ss_nodup _ _ _ _ S) as Hnd. rewrite app_nil_r in Hnd. apply NoDup_app.
    split_and!; [done| |apply NoDup_singleton]. intros q Hq Hin.
    apply list_elem_of_singleton in Hin as ->.
    destruct (ss_page _ _ _ _ S p) as [HLq _]; [rewrite app_nil_r; done|]. congruence.
  - rewrite (proj1 (proj2 So)). apply (ss_ram _ _ _ _ S).
Qed.

(** Giving the page in hand back. *)
Lemma sstruct_free m m' L G p Q :
  sstruct m L G [p] -> pa_inv m' (delete p L) -> same_off Q m m' ->
  (forall x, Q x -> ~ in_live psz (delete p L) x) ->
  sstruct m' (delete p L) G [].
Proof using SG.
  intros S P So HQ. assert (p ∈ concat G ++ [p]) as Hp by (rewrite elem_of_app; right; by left).
  destruct (ss_page _ _ _ _ S p Hp) as [HLp Hne].
  destruct (ss_lists _ _ _ _ S) as (serv & Hs & Hsz).
  pose proof (ss_nodup _ _ _ _ S) as Hnd. apply NoDup_app in Hnd as (Hnd & Hd & _).
  assert (forall q, q ∈ concat G -> q <> p) as Hqp by (intros q Hq ->; apply (Hd p Hq); by left).
  split.
  - done.
  - exists serv. by rewrite lookup_delete_ne.
  - apply (ss_len _ _ _ _ S).
  - intros k ps Hk. pose proof (lookup_lt_Some _ _ _ Hk). pose proof (ss_len _ _ _ _ S).
    eapply (ss_rep_same m); [exact S|done|exact So|..]; cbv beta.
    + intros x Hx Hh. apply (HQ x Hx). exists (lists sl), serv. rewrite lookup_delete_ne by done.
      split; [done|]. unfold list_at, sizeof_slist in Hh. lia.
    + intros x q Hx Hq Hn. apply (HQ x Hx).
      assert (q ∈ concat G) as Hq' by (apply elem_of_concat; eauto).
      destruct (ss_page _ _ _ _ S q) as [HLq _]; [rewrite elem_of_app; by left|].
      exists q, 1. rewrite lookup_delete_ne by (intros <-; by apply (Hqp p)).
      split; [done|]. destruct (ss_page_range _ _ _ _ _ S Hp) as (_ & _ & _ & ? & _). lia.
  - intros q Hq. rewrite app_nil_r in Hq.
    destruct (ss_page _ _ _ _ S q) as [HLq Hne']; [rewrite elem_of_app; by left|].
    rewrite lookup_delete_ne by (intros <-; by apply (Hqp p)). done.
  - rewrite app_nil_r. done.
  - rewrite (proj1 (proj2 So)). apply (ss_ram _ _ _ _ S).
Qed.
End Struct.
