(* ===== verification/SlabProof.v ===== *)
(** * The slab allocator: allocation and release of cells

    The full invariant adds the bitmaps: a page in the list of [k] used cells
    has exactly [k] cells marked. *)

From S2P Require Import Prelude CInt Memory PageAlloc Slab SlabInv.

Section Cells.
Context {psz : Z} {pg_alloc : Z -> M ram Z} {pg_free : Z -> M ram unit}.
Context {PA : PageAllocator psz pg_alloc pg_free}.
Context (sl : slab_alloc_t ram) (SG : sgeom (psz := psz) (pg_alloc := pg_alloc) (pg_free := pg_free) sl).

(** The mark of cell [i] of page [p]. *)
Definition mark (m : ram) (p i : Z) : Z := byte_at m (bitmaps_ptr sl p + i).
Definition cell (p i : Z) : Z := p + 32 + i * ssize sl.

Definition page_ok (m : ram) (p k : Z) : Prop :=
  (forall i, 0 <= i < cells sl -> mark m p i = 0 \/ mark m p i = 1) /\
  Z.of_nat (length (filter (fun i => mark m p i = 1) (seqZ 0 (cells sl)))) = k.

Record sinv (m : ram) (L : gmap Z Z) (G : list (list Z)) : Prop := {
  si_struct : sstruct sl m L G [];
  si_marks : forall k ps p, G !! k = Some ps -> p ∈ ps -> page_ok m p (Z.of_nat k)
}.

(** The addresses of the allocated cells. *)
Definition cell_live (m : ram) (G : list (list Z)) (a : Z) : Prop :=
  exists p i, p ∈ concat G /\ 0 <= i < cells sl /\ mark m p i = 1 /\ a = cell p i.

Lemma cells_bound : cells sl * ssize sl < 2 ^ 31 /\ cells sl < 2 ^ 31.
Proof using SG. pose proof (sg_fit _ SG). pose proof (sg_psz _ SG). pose proof (sg_cells _ SG). pose proof (sg_ssize _ SG). nia. Qed.

Lemma bitmaps_ptr_eq p : bitmaps_ptr sl p = p + 32 + cells sl * ssize sl.
Proof using SG.
  unfold bitmaps_ptr, sizeof_page. pose proof cells_bound. pose proof (sg_cells _ SG). pose proof (sg_ssize _ SG).
  rewrite u32_id by nia. done.
Qed.

(** The mark lies in the page, behind the cells. *)
Lemma mark_addr p i : 0 <= i < cells sl ->
  p + 32 + cells sl * ssize sl <= bitmaps_ptr sl p + i < p + psz.
Proof using SG. intros. rewrite bitmaps_ptr_eq. pose proof (sg_fit _ SG). lia. Qed.

Lemma cell_range p i : 0 <= i < cells sl ->
  p + 32 <= cell p i /\ cell p i + ssize sl <= p + 32 + cells sl * ssize sl.
Proof using SG. intros. unfold cell. pose proof (sg_ssize _ SG). nia. Qed.

Lemma cell_inj m L G H p i q j : sstruct sl m L G H ->
  p ∈ concat G ++ H -> q ∈ concat G ++ H -> 0 <= i < cells sl -> 0 <= j < cells sl ->
  cell p i = cell q j -> p = q /\ i = j.
Proof using SG.
  intros S Hp Hq Hi Hj E. pose proof (cell_range p i Hi). pose proof (cell_range q j Hj).
  pose proof (sg_fit _ SG). pose proof (sg_cells _ SG). pose proof (sg_ssize _ SG).
  destruct (decide (p = q)) as [->|Hne].
  - split; [done|]. unfold cell in E. nia.
  - destruct (ss_pages_apart _ _ _ _ _ _ _ S Hp Hq Hne); lia.
Qed.

(** ** Searching a free cell *)

Lemma find_cell_spec m p k n i :
  page_ok m p k -> k < cells sl -> peek 4 m (pg_used_cells p) = k ->
  ram_lo m <= p -> p + psz <= ram_hi m ->
  0 <= i <= k -> (forall j, 0 <= j < i -> mark m p j = 1) -> k < i + Z.of_nat n ->
  exists i', find_cell p (bitmaps_ptr sl p) n i m = Ok (i', m) /\
    0 <= i' < cells sl /\ mark m p i' = 0.
Proof using SG.
  intros [H01 Hcnt] Hk Hu Hlo Hhi. revert i. induction n as [|n IH]; intros i Hi Hpre Hf.
  - lia.
  - pose proof (mark_addr p i ltac:(lia)). pose proof (sg_cells _ SG). pose proof (sg_ssize _ SG).
    pose proof cells_bound. assert (0 <= cells sl * ssize sl) by nia.
    cbn [find_cell]. cstep. rewrite peek1_byte. fold (mark m p i).
    destruct (Z.eqb_spec (mark m p i) 1) as [E|E].
    + assert (i + 1 <= k).
      { rewrite <- Hcnt. apply count_prefix; [lia|]. intros j Hj.
        destruct (decide (j = i)) as [->|]; [done|apply Hpre; lia]. }
      unfold pg_used_cells in *. cstep. rewrite Hu. cassert; [lia|]. rewrite u32_id by lia.
      apply IH; [lia| |lia]. intros j Hj. destruct (decide (j = i)) as [->|]; [done|apply Hpre; lia].
    + exists i. split; [done|]. split; [lia|]. destruct (H01 i); [lia|done|done].
Qed.

(** The bytes that allocating in, or releasing from, page [p] may change:
    the mark, the list heads and the page's node. *)
Definition touched (p i : Z) (x : Z) : Prop :=
  x = bitmaps_ptr sl p + i \/ p <= x < p + 32 \/
  exists k, 0 <= k < cells sl /\ list_at sl k <= x < list_at sl k + 40.

Lemma touched_mark m L G p i q j :
  sstruct sl m L G [] -> p ∈ concat G -> q ∈ concat G -> 0 <= i < cells sl -> 0 <= j < cells sl ->
  touched p i (bitmaps_ptr sl q + j) -> p = q /\ i = j.
Proof using SG.
  intros S Hp Hq Hi Hj Ht. rewrite <- (app_nil_r (concat G)) in Hp, Hq.
  pose proof (mark_addr p i Hi). pose proof (mark_addr q j Hj). pose proof (sg_cells _ SG).
  pose proof (sg_ssize _ SG). assert (0 <= cells sl * ssize sl) by nia. pose proof (sg_fit _ SG).
  destruct (ss_page_range _ SG _ _ _ _ _ S Hq) as (_ & _ & _ & _ & _ & Hql).
  assert (p = q).
  { destruct (decide (p = q)) as [|Hne]; [done|exfalso].
    destruct (ss_pages_apart _ _ _ _ _ _ _ S Hp Hq Hne); destruct Ht as [Ht|[Ht|(k & Hk & Ht)]]; try lia.
    all: destruct (Hql k Hk); lia. }
  subst. split; [done|]. destruct Ht as [Ht|[Ht|(k & Hk & Ht)]]; [lia..|]. destruct (Hql k Hk); lia.
Qed.

(** The contents of the cells are never touched. *)
Lemma touched_cell m L G p i q x :
  sstruct sl m L G [] -> p ∈ concat G -> q ∈ concat G -> 0 <= i < cells sl ->
  q + 32 <= x < q + 32 + cells sl * ssize sl -> ~ touched p i x.
Proof using SG.
  intros S Hp Hq Hi Hx Ht. rewrite <- (app_nil_r (concat G)) in Hp, Hq.
  pose proof (mark_addr p i Hi). pose proof (sg_cells _ SG).
  pose proof (sg_ssize _ SG). assert (0 <= cells sl * ssize sl) by nia. pose proof (sg_fit _ SG).
  destruct (ss_page_range _ SG _ _ _ _ _ S Hq) as (_ & _ & _ & _ & _ & Hql).
  destruct Ht as [Ht|[Ht|(k & Hk & Ht)]].
  - destruct (decide (p = q)) as [->|Hne]; [lia|].
    destruct (ss_pages_apart _ _ _ _ _ _ _ S Hp Hq Hne); lia.
  - destruct (decide (p = q)) as [->|Hne]; [lia|].
    destruct (ss_pages_apart _ _ _ _ _ _ _ S Hp Hq Hne); lia.
  - destruct (Hql k Hk); lia.
Qed.

(** Moving page [p] from list [k] to list [k'] after writing the mark [i]. *)
Lemma move_spec m L G p k ps k' ps' i v :
  sstruct sl m L G [] -> G !! k = Some (p :: ps) -> G !! k' = Some ps' -> k <> k' ->
  0 <= i < cells sl ->
  exists m1 m2, list_remove p (poke 1 m (bitmaps_ptr sl p + i) v) = Ok (tt, m1) /\
    peek 4 m1 (pg_used_cells p) = Z.of_nat k /\ ram_lo m1 = ram_lo m /\ ram_hi m1 = ram_hi m /\
    list_add (list_at sl (Z.of_nat k')) p m1 = Ok (tt, m2) /\
    sstruct sl m2 L (<[k' := p :: ps']> (<[k := ps]> G)) [] /\
    same_off (touched p i) m m2 /\ mark m2 p i = u8 v.
Proof using SG.
  intros S Hk Hk' Hne Hi. pose proof (mark_addr p i Hi) as Hma.
  assert (p ∈ concat G ++ []) as Hp.
  { rewrite app_nil_r. apply elem_of_concat. exists k, (p :: ps). split; [done|by left]. }
  pose proof (sg_cells _ SG). pose proof (sg_ssize _ SG). assert (0 <= cells sl * ssize sl) by nia.
  pose proof (same_off_poke 1 m (bitmaps_ptr sl p + i) v) as S0.
  set (m0 := poke 1 m (bitmaps_ptr sl p + i) v) in *.
  assert (sstruct sl m0 L G []) as T0.
  { eapply (sstruct_write _ SG); [exact S|exact S0|]. cbv beta. intros x Hx. exists p. split; [done|lia]. }
  destruct (sstruct_pop _ SG _ _ _ _ _ _ _ T0 Hk) as (m1 & E1 & T1 & S1).
  assert ((<[k := ps]> G) !! k' = Some ps') as Hk1 by (by rewrite list_lookup_insert_ne).
  destruct (sstruct_push _ SG _ _ _ _ _ _ _ T1 Hk1) as (m2 & E2 & T2 & S2).
  pose proof (lookup_lt_Some _ _ _ Hk). pose proof (lookup_lt_Some _ _ _ Hk').
  pose proof (ss_len _ _ _ _ _ S).
  destruct (ss_page_range _ SG _ _ _ _ _ S Hp) as (_ & _ & _ & ? & _ & Hpl).
  exists m1, m2. split_and!; [done| | | |done|done| |].
  - rewrite (same_off_peek _ _ _ _ _ S1).
    + pose proof (sr_chain _ _ _ _ _ (ss_rep _ _ _ _ _ T0 _ _ Hk)) as C. cbn [schain] in C. tauto.
    + unfold pg_used_cells. intros x Hx Hh. destruct (Hpl (Z.of_nat k)); lia.
  - destruct S1 as (-> & _). apply S0.
  - destruct S1 as (_ & -> & _). apply S0.
  - eapply same_off_trans; [exact S0| |].
    + eapply same_off_trans; [exact S1|exact S2|]. intros x Hx. exact Hx.
    + cbv beta. intros x [Hx|[Hx|[Hx|Hx]]]; unfold touched.
      * left. lia.
      * right. right. exists (Z.of_nat k). split; [lia|done].
      * right. right. exists (Z.of_nat k'). split; [lia|done].
      * right. by left.
  - unfold mark. rewrite (proj2 (proj2 S2)), (proj2 (proj2 S1)).
    + unfold m0. rewrite byte_at_poke1. by rewrite decide_True.
    + intros Hx. destruct (Hpl (Z.of_nat k)); lia.
    + intros [Hx|Hx]; [|lia]. destruct (Hpl (Z.of_nat k')); lia.
Qed.

Lemma marks_after m m' L G p i q j :
  sstruct sl m L G [] -> same_off (touched p i) m m' -> p ∈ concat G -> q ∈ concat G ->
  0 <= i < cells sl -> 0 <= j < cells sl -> ~ (p = q /\ i = j) -> mark m' q j = mark m q j.
Proof using SG.
  intros S So Hp Hq Hi Hj Hne. apply So. intros Ht. apply Hne. by eapply touched_mark.
Qed.

Lemma page_ok_same m m' q k :
  (forall j, 0 <= j < cells sl -> mark m' q j = mark m q j) -> page_ok m q k -> page_ok m' q k.
Proof.
  intros He [H01 Hc]. split; [intros i Hi; rewrite He by done; auto|].
  rewrite <- Hc. do 2 f_equal. apply filter_agree. intros j Hj. apply elem_of_seqZ in Hj.
  rewrite He by lia. done.
Qed.

Lemma page_ok_set m m' p k i :
  page_ok m p k -> 0 <= i < cells sl -> mark m p i = 0 -> mark m' p i = 1 ->
  (forall j, 0 <= j < cells sl -> j <> i -> mark m' p j = mark m p j) -> page_ok m' p (k + 1).
Proof.
  intros [H01 Hc] Hi H0 H1 He. split.
  - intros j Hj. destruct (decide (j = i)) as [->|]; [by right|]. rewrite He by done. auto.
  - rewrite <- Hc. rewrite (count_flip (fun j => mark m p j = 1) (fun j => mark m' p j = 1) (cells sl) i); try lia.
    intros j Hj Hne. rewrite He by done. done.
Qed.

Lemma page_ok_clear m m' p k i :
  page_ok m p k -> 0 <= i < cells sl -> mark m p i = 1 -> mark m' p i = 0 ->
  (forall j, 0 <= j < cells sl -> j <> i -> mark m' p j = mark m p j) -> page_ok m' p (k - 1).
Proof.
  intros [H01 Hc] Hi H0 H1 He. split.
  - intros j Hj. destruct (decide (j = i)) as [->|]; [by left|]. rewrite He by done. auto.
  - rewrite <- Hc. rewrite (count_flip (fun j => mark m' p j = 1) (fun j => mark m p j = 1) (cells sl) i); try lia.
    intros j Hj Hne. rewrite He by done. done.
Qed.

(** The pages after a move are the pages before. *)
Lemma move_concat (G : list (list Z)) (p : Z) k ps k' ps' :
  G !! k = Some (p :: ps) -> G !! k' = Some ps' -> k <> k' ->
  concat (<[k' := p :: ps']> (<[k := ps]> G)) ≡ₚ concat G.
Proof.
  intros Hk Hk' Hne. rewrite (concat_push _ k' ps' p) by (by rewrite list_lookup_insert_ne).
  by rewrite <- (concat_pop G k ps p).
Qed.

(** The invariant after moving [p] from [k] to [k'], when its marks fit. *)
Lemma move_sinv m m' L G p k ps k' ps' i :
  sinv m L G -> G !! k = Some (p :: ps) -> G !! k' = Some ps' -> k <> k' -> 0 <= i < cells sl ->
  sstruct sl m' L (<[k' := p :: ps']> (<[k := ps]> G)) [] -> same_off (touched p i) m m' ->
  page_ok m' p (Z.of_nat k') ->
  sinv m' L (<[k' := p :: ps']> (<[k := ps]> G)).
Proof using SG.
  intros [S Mk] Hk Hk' Hne Hi S' So Hok. split; [done|].
  assert (p ∈ concat G) as Hp by (apply elem_of_concat; exists k, (p :: ps); split; [done|by left]).
  assert (forall j qs q, G !! j = Some qs -> q ∈ qs -> q <> p -> page_ok m' q (Z.of_nat j)) as Hold.
  { intros j qs q Hj Hq Hqp. apply (page_ok_same m); [|by eapply Mk].
    intros c Hc. apply (marks_after m m' L G p i); try done; [|by intros [? _]].
    apply elem_of_concat. eauto. }
  assert (forall qs, (G !! k = Some (p :: qs)) -> p ∉ qs) as Hnp.
  { intros qs E Hin. pose proof (ss_nodup _ _ _ _ _ S) as Hnd. rewrite app_nil_r in Hnd.
    rewrite (concat_pop G k qs p E) in Hnd. apply NoDup_cons in Hnd as [Hnd _]. apply Hnd.
    apply elem_of_concat. exists k, qs. rewrite list_lookup_insert_eq by (by eapply lookup_lt_Some). done. }
  assert (forall j qs, j <> k -> G !! j = Some qs -> p ∉ qs) as Hnj.
  { intros j qs Hj E Hin. pose proof (ss_nodup _ _ _ _ _ S) as Hnd. rewrite app_nil_r in Hnd.
    rewrite (concat_pop G k ps p Hk) in Hnd. apply NoDup_cons in Hnd as [Hnd _]. apply Hnd.
    apply elem_of_concat. exists j, qs. rewrite list_lookup_insert_ne by done. done. }
  intros j qs q Hj Hq. destruct (decide (j = k')) as [->|].
  - rewrite list_lookup_insert_eq in Hj
      by (rewrite length_insert; by eapply lookup_lt_Some). simplify_eq.
    apply elem_of_cons in Hq as [->|Hq]; [done|]. apply (Hold k' ps'); [done..|].
    intros ->. by apply (Hnj k' ps').
  - rewrite list_lookup_insert_ne in Hj by done. destruct (decide (j = k)) as [->|].
    + rewrite list_lookup_insert_eq in Hj by (by eapply lookup_lt_Some). simplify_eq.
      apply (Hold k (p :: qs)); [done|by right|]. intros ->. by apply (Hnp qs).
    + rewrite list_lookup_insert_ne in Hj by done. apply (Hold j qs); [done..|].
      intros ->. by apply (Hnj j qs).
Qed.

Lemma page_alloc_cell_spec m L G p k ps ps' :
  sinv m L G -> G !! k = Some (p :: ps) -> G !! (S k) = Some ps' ->
  exists m' i, page_alloc_cell sl p m = Ok (cell p i, m') /\ 0 <= i < cells sl /\
    mark m p i = 0 /\ mark m' p i = 1 /\ same_off (touched p i) m m' /\
    sinv m' L (<[S k := p :: ps']> (<[k := ps]> G)).
Proof using SG.
  intros I Hk Hk'. pose proof (si_struct _ _ _ I) as T. pose proof (ss_len _ _ _ _ _ T) as Hlen.
  pose proof (lookup_lt_Some _ _ _ Hk'). pose proof cells_bound as [Hcb Hcb'].
  assert (p ∈ concat G ++ []) as Hp.
  { rewrite app_nil_r. apply elem_of_concat. exists k, (p :: ps). split; [done|by left]. }
  destruct (ss_page_range _ SG _ _ _ _ _ T Hp) as (? & ? & ? & ? & _ & _).
  pose proof (si_marks _ _ _ I k (p :: ps) p Hk ltac:(by left)) as Hok.
  pose proof (sr_chain _ _ _ _ _ (ss_rep _ _ _ _ _ T _ _ Hk)) as C. cbn [schain] in C.
  destruct C as (_ & _ & _ & Hu & _).
  destruct (find_cell_spec m p (Z.of_nat k) (S (Z.to_nat (Z.of_nat k))) 0) as (i & Ef & Hi & Hm0);
    [done|lia|done|lia..|].
  destruct (move_spec m L G p k ps (S k) ps' i 1 T Hk Hk' ltac:(lia) Hi)
    as (m1 & m2 & E1 & Hu1 & Hlo1 & Hhi1 & E2 & T2 & So & Hm1).
  pose proof (mark_addr p i Hi) as Hma. pose proof (sg_ssize _ SG). pose proof (sg_cells _ SG).
  assert (0 <= cells sl * ssize sl) by nia.
  exists m2, i. split_and!; [|lia|lia|done..|].
  - unfold page_alloc_cell, pg_used_cells in *. cstep. rewrite Hu. cassert; [lia|].
    rewrite (bind_ok _ _ _ _ _ Ef). cstep. rewrite peek1_byte. fold (mark m p i). rewrite Hm0.
    cassert; [done|]. cstep. rewrite (bind_ok _ _ _ _ _ E1). cstep. rewrite Hu1.
    rewrite u32_id by lia. replace (Z.of_nat k + 1) with (Z.of_nat (S k)) by lia.
    rewrite (bind_ok _ _ _ _ _ E2). unfold cells_ptr, sizeof_page, cell. rewrite u32_id by nia. done.
  - apply (move_sinv m m2 L G p k ps (S k) ps' i I Hk Hk'); try done.
    rewrite Nat2Z.inj_succ, <- Z.add_1_r. apply (page_ok_set m m2 p (Z.of_nat k) i); try done.
    intros j Hj Hne. rewrite app_nil_r in Hp. apply (marks_after m m2 L G p i p j); try done.
    by intros [_ ?].
Qed.

(** ** The live cells after an operation *)

Lemma cell_live_set m m' L G G' p i :
  sinv m L G -> p ∈ concat G -> 0 <= i < cells sl -> same_off (touched p i) m m' ->
  concat G' ≡ₚ concat G -> mark m p i = 0 -> mark m' p i = 1 ->
  ~ cell_live m G (cell p i) /\
  (forall a, cell_live m' G' a <-> cell_live m G a \/ a = cell p i).
Proof using SG.
  intros [T _] Hp Hi So HG H0 H1. split.
  - intros (q & j & Hq & Hj & Hm & E). destruct (cell_inj m L G [] p i q j T) as [<- <-]; try done.
    all: try (by rewrite app_nil_r). lia.
  - intros a. split.
    + intros (q & j & Hq & Hj & Hm & ->). rewrite HG in Hq.
      destruct (decide (p = q /\ i = j)) as [[<- <-]|Hne]; [by right|]. left.
      exists q, j. rewrite <- (marks_after m m' L G p i q j) by done. done.
    + intros [(q & j & Hq & Hj & Hm & ->)| ->]; [|exists p, i; by rewrite HG].
      exists q, j. rewrite HG. rewrite (marks_after m m' L G p i q j); try done.
      intros [<- <-]. lia.
Qed.

Lemma cell_live_clear m m' L G G' p i :
  sinv m L G -> p ∈ concat G -> 0 <= i < cells sl -> same_off (touched p i) m m' ->
  concat G' ≡ₚ concat G -> mark m p i = 1 -> mark m' p i = 0 ->
  forall a, cell_live m' G' a <-> cell_live m G a /\ a <> cell p i.
Proof using SG.
  intros [T _] Hp Hi So HG H0 H1 a. split.
  - intros (q & j & Hq & Hj & Hm & ->). rewrite HG in Hq.
    assert (~ (p = q /\ i = j)) as Hne by (intros [<- <-]; lia).
    rewrite (marks_after m m' L G p i q j) in Hm by done. split; [by exists q, j|].
    intros E. apply Hne. symmetry in E.
    apply (cell_inj m L G [] p i q j T); try done; by rewrite app_nil_r.
  - intros [(q & j & Hq & Hj & Hm & ->) Hne]. exists q, j. rewrite HG.
    rewrite (marks_after m m' L G p i q j); try done. by intros [<- <-].
Qed.

(** ** A new page *)

Lemma clear_bitmaps_spec b k : forall i m,
  ram_lo m <= b + i -> b + i + Z.of_nat k <= ram_hi m -> 0 < b + i -> ram_hi m < 2 ^ 64 ->
  exists m', clear_bitmaps b k i m = Ok (tt, m') /\
    same_off (fun x => b + i <= x < b + i + Z.of_nat k) m m' /\
    forall x, b + i <= x < b + i + Z.of_nat k -> byte_at m' x = 0.
Proof.
  induction k as [|k IH]; intros i m Hlo Hhi H0 Hb; cbn [clear_bitmaps].
  - exists m. split_and!; [done|apply same_off_refl|lia].
  - cstep. destruct (IH (i + 1) (poke 1 m (b + i) 0)) as (m' & E & So & Hz);
      rewrite ?ram_lo_poke, ?ram_hi_poke; try lia.
    exists m'. split_and!; [done| |].
    + eapply same_off_trans; [apply same_off_poke|exact So|]. cbv beta. intros; lia.
    + intros x Hx. destruct (decide (x = b + i)) as [->|]; [|apply Hz; lia].
      rewrite (proj2 (proj2 So)) by lia. rewrite byte_at_poke1. by rewrite decide_True.
Qed.

Definition fresh_frame (L : gmap Z Z) (x : Z) : Prop :=
  ~ in_live psz L x \/ list_at sl 0 <= x < list_at sl 0 + 40.

Lemma marks_new m m' L G q j :
  sinv m L G -> same_off (fresh_frame L) m m' -> q ∈ concat G -> 0 <= j < cells sl ->
  mark m' q j = mark m q j.
Proof using SG.
  intros [T _] So Hq Hj. apply So. rewrite <- (app_nil_r (concat G)) in Hq.
  pose proof (mark_addr q j Hj). pose proof (sg_cells _ SG). pose proof (sg_ssize _ SG).
  assert (0 <= cells sl * ssize sl) by nia.
  destruct (ss_page_range _ SG _ _ _ _ _ T Hq) as (_ & _ & _ & _ & _ & Hql).
  intros [Hx|Hx]; [|destruct (Hql 0); lia]. apply Hx. eapply ss_in_live_page; [exact T|exact Hq|lia].
Qed.

(** The invariant once a page with no marked cell is on the list 0. *)
Lemma new_page_sinv m m' L G p ps :
  sinv m L G -> G !! O = Some ps -> L !! p = None ->
  sstruct sl m' (<[p := 1]> L) (<[O := p :: ps]> G) [] -> same_off (fresh_frame L) m m' ->
  (forall i, 0 <= i < cells sl -> mark m' p i = 0) ->
  sinv m' (<[p := 1]> L) (<[O := p :: ps]> G).
Proof using SG.
  intros I Hk HL T' So Hz. split; [done|].
  assert (page_ok m' p 0) as Hp.
  { split; [intros i Hi; left; auto|]. rewrite count_none; [done|]. intros j Hj. rewrite Hz by done. lia. }
  assert (forall j qs q, G !! j = Some qs -> q ∈ qs -> page_ok m' q (Z.of_nat j)) as Hold.
  { intros j qs q Hj Hq. apply (page_ok_same m); [|by eapply (si_marks _ _ _ I)].
    intros i Hi. apply (marks_new m m' L G); [done..| |done]. apply elem_of_concat. eauto. }
  intros j qs q Hj Hq. destruct (decide (j = O)) as [->|].
  - rewrite list_lookup_insert_eq in Hj by (by eapply lookup_lt_Some). simplify_eq.
    apply elem_of_cons in Hq as [->|Hq]; [done|by eapply Hold].
  - rewrite list_lookup_insert_ne in Hj by done. by eapply Hold.
Qed.

Lemma new_page_spec m L G ps :
  sinv m L G -> G !! O = Some ps ->
  (pg_alloc 1 m = Ok (0, m) /\ new_page sl m = Assert 167) \/
  exists p m', new_page sl m = Ok (p, m') /\ L !! p = None /\
    sinv m' (<[p := 1]> L) (<[O := p :: ps]> G) /\ same_off (fresh_frame L) m m' /\
    (forall i, 0 <= i < cells sl -> mark m' p i = 0).
Proof using SG.
  intros [T Mk] Hk. destruct (pa_alloc m L 1 (ss_pa _ _ _ _ _ T)) as (p & m1 & E & Hc).
  unfold new_page; unram. rewrite (sg_alloc _ SG), (bind_ok _ _ _ _ _ E).
  destruct Hc as [[-> ->]|(Hp & HL & P1 & So1)]; [by left|right].
  pose proof (sstruct_new _ SG m m1 L G p T Hp HL P1 So1) as T1.
  assert (p ∈ concat G ++ [p]) as Hpin by (rewrite elem_of_app; right; by left).
  destruct (ss_page_range _ SG _ _ _ _ _ T1 Hpin) as (? & ? & ? & ? & _ & Hpl).
  pose proof (pa_range m1 _ p 1 P1 ltac:(by rewrite lookup_insert_eq)) as (_ & _ & _ & _ & Hb).
  pose proof (sg_cells _ SG). pose proof (sg_ssize _ SG). pose proof (sg_fit _ SG).
  assert (0 <= cells sl * ssize sl) by nia. pose proof (bitmaps_ptr_eq p) as Hbm.
  destruct (clear_bitmaps_spec (bitmaps_ptr sl p) (Z.to_nat (cells sl)) 0 m1) as (m2 & E2 & So2 & Hz);
    try lia.
  assert (sstruct sl m2 (<[p := 1]> L) G [p]) as T2.
  { eapply (sstruct_write _ SG); [exact T1|exact So2|]. cbv beta. intros x Hx. exists p. split; [done|lia]. }
  destruct (sstruct_push _ SG _ _ _ _ _ _ _ T2 Hk) as (m3 & E3 & T3 & So3). change (Z.of_nat 0) with 0 in E3, So3.
  assert (forall i, 0 <= i < cells sl -> mark m3 p i = 0) as Hz3.
  { intros i Hi. unfold mark. rewrite (proj2 (proj2 So3)); [apply Hz; lia|].
    intros [Hx|Hx]; [|lia]. destruct (Hpl 0); lia. }
  assert (peek 4 m3 (pg_used_cells p) = 0 /\ peek 8 m3 (pg_list p) = list_at sl 0) as [Hu Hl].
  { pose proof (ss_rep _ _ _ _ _ T3 O (p :: ps)) as R. rewrite list_lookup_insert_eq in R
      by (by eapply lookup_lt_Some). pose proof (sr_chain _ _ _ _ _ (R eq_refl)) as C. cbn in C. tauto. }
  assert (ram_lo m2 = ram_lo m1 /\ ram_hi m2 = ram_hi m1) as [] by (split; apply So2).
  assert (ram_lo m3 = ram_lo m2 /\ ram_hi m3 = ram_hi m2) as [] by (split; apply So3).
  assert (byte_at m2 (bitmaps_ptr sl p) = 0) as Hb2 by (apply Hz; lia).
  pose proof (Hz3 0 ltac:(lia)) as Hb3. unfold mark in Hb3. rewrite Z.add_0_r in Hb3.
  assert (same_off (fresh_frame L) m m3) as Hsame.
  { assert (forall x, p <= x < p + psz -> ~ in_live psz L x) as Hfr.
    { intros x Hx (q & n & Hq & Hxq). assert (p <> q) as Hpq by congruence.
      destruct (pa_disjoint m1 _ p 1 q n P1) as [Hd|Hd]; rewrite ?lookup_insert_eq, ?lookup_insert_ne; try done; lia. }
    eapply same_off_trans; [exact So1|eapply same_off_trans; [exact So2|exact So3|]; intros x Hx; exact Hx|].
    cbv beta. unfold fresh_frame. intros x [Hx|[Hx|[Hx|Hx]]]; [by left| |by right|]; left; apply Hfr; lia. }
  exists p, m3. split_and!; [|done| | |done].
  - cassert; [case_cmp; done|]. rewrite (bind_ok _ _ _ _ _ E2). cstep. rewrite peek1_byte, Hb2.
    cassert; [done|]. rewrite (bind_ok _ _ _ _ _ E3). cassert; [lia|]. cstep. rewrite peek1_byte, Hb3.
    cassert; [done|]. unfold pg_used_cells, pg_list in *. cstep. rewrite Hu. cassert; [done|].
    cstep. rewrite Hl. cassert; [lia|]. done.
  - eapply (new_page_sinv m m3); [done..|]. exact Hz3.
  - exact Hsame.
Qed.
Lemma cell_live_new m m' L G p ps :
  sinv m L G -> G !! O = Some ps -> same_off (fresh_frame L) m m' ->
  (forall i, 0 <= i < cells sl -> mark m' p i = 0) ->
  forall a, cell_live m' (<[O := p :: ps]> G) a <-> cell_live m G a.
Proof using SG.
  intros I Hk So Hz a. split.
  - intros (q & j & Hq & Hj & Hm & ->). rewrite (concat_push G O ps p Hk), elem_of_cons in Hq.
    destruct Hq as [->|Hq]; [rewrite Hz in Hm by done; lia|].
    exists q, j. by rewrite <- (marks_new m m' L G) by done.
  - intros (q & j & Hq & Hj & Hm & ->). exists q, j. rewrite (concat_push G O ps p Hk), elem_of_cons.
    rewrite (marks_new m m' L G) by done. split_and!; [by right|lia|lia|done|done].
Qed.

Lemma fresh_cells m L G q x :
  sinv m L G -> q ∈ concat G -> q + 32 <= x < q + 32 + cells sl * ssize sl -> ~ fresh_frame L x.
Proof using SG.
  intros [T _] Hq Hx. rewrite <- (app_nil_r (concat G)) in Hq. pose proof (sg_fit _ SG). pose proof (sg_cells _ SG).
  destruct (ss_page_range _ SG _ _ _ _ _ T Hq) as (_ & _ & _ & _ & _ & Hql).
  intros [Hf|Hf]; [|destruct (Hql 0); lia]. apply Hf. eapply ss_in_live_page; [exact T|exact Hq|lia].
Qed.
End Cells.

(** * The slab allocator: initialisation

    [serv_pages] finds the least power of two of pages for the lists, and
    [lib_slab_init] sets the invariant up with every list empty. *)

(** ** The number of service pages *)

Lemma serv_pages_loop_spec psz n k e :
  0 < psz < 2 ^ 31 -> 0 <= n < 2 ^ 40 -> 0 <= e -> 40 < e + Z.of_nat k -> 
  (e = 0 \/ 2 ^ (e - 1) * psz < n) ->
  exists e', serv_pages_loop k psz n (2 ^ e) = Some (2 ^ e') /\ 0 <= e' <= 40 /\
    n <= 2 ^ e' * psz /\ (e' = 0 \/ 2 ^ (e' - 1) * psz < n).
Proof.
  intros Hp Hn. revert e. induction k as [|k IH]; intros e He Hk Hs; cbn [serv_pages_loop].
  - destruct Hs as [->|Hs]; [lia|]. pose proof (pow2_mono 40 (e - 1)). nia.
  - assert (2 ^ e * psz < 2 ^ 41 /\ e <= 40) as [Hb Hle].
    { destruct Hs as [->|Hs]; [lia|]. destruct (Z.eq_dec e 0) as [->|]; [lia|].
      replace e with (e - 1 + 1) at 1 by lia. rewrite pow2_succ by lia.
      destruct (Z.le_gt_cases e 40); [nia|]. pose proof (pow2_mono 40 (e - 1)). nia. }
    pose proof (pow2_pos e He). pose proof (pow2_mono e 40 ltac:(lia)).
    rewrite (u64_id (2 ^ e * psz)), (u64_id (2 ^ e * 2)) by nia. case_cmp.
    + exists e. split_and!; [done|lia..|lia|done].
    + rewrite Z.mul_comm, <- pow2_succ by lia. apply IH; [lia..|].
      right. replace (e + 1 - 1) with e by lia. done.
Qed.

Lemma serv_pages_spec psz n :
  0 < psz < 2 ^ 31 -> 0 <= n < 2 ^ 40 ->
  exists e, serv_pages psz n = Some (2 ^ e) /\ 0 <= e <= 40 /\
    n <= 2 ^ e * psz /\ (e = 0 \/ 2 ^ (e - 1) * psz < n).
Proof. intros Hp Hn. apply (serv_pages_loop_spec psz n 65 0 Hp Hn); lia. Qed.

(** ** The lists *)

Lemma init_lists_loop_spec (sl : slab_alloc_t ram) n : forall i m,
  0 < list_at sl i -> ram_lo m <= list_at sl i -> list_at sl (i + Z.of_nat n) <= ram_hi m ->
  ram_hi m < 2 ^ 64 -> 0 <= i -> i + Z.of_nat n < 2 ^ 31 ->
  exists m', init_lists_loop sl n i m = Ok (tt, m') /\
    same_off (fun x => list_at sl i <= x < list_at sl (i + Z.of_nat n)) m m' /\
    forall k, i <= k < i + Z.of_nat n -> srep m' (list_at sl k) k 0 [].
Proof.
  induction n as [|n IH]; intros i m H0 Hlo Hhi Hb Hi Hn; cbn [init_lists_loop].
  - exists m. split_and!; [done|apply same_off_refl|lia].
  - assert (list_at sl (i + 1) = list_at sl i + 40) as Hs by (unfold list_at, sizeof_slist; lia).
    assert (list_at sl (i + 1) <= list_at sl (i + Z.of_nat (S n))) by (unfold list_at, sizeof_slist; lia).
    replace (i + Z.of_nat (S n)) with (i + 1 + Z.of_nat n) in * by lia.
    destruct (slist_init_spec m (list_at sl i) Hlo H0 ltac:(lia) Hb i ltac:(lia)) as (m1 & E1 & S1 & R1).
    rewrite (bind_ok _ _ _ _ _ E1). pose proof (proj1 S1). pose proof (proj1 (proj2 S1)).
    destruct (IH (i + 1) m1) as (m2 & E2 & S2 & R2); try lia.
    exists m2. split_and!; [done| |].
    + eapply same_off_trans; [exact S1|exact S2|]. cbv beta. lia.
    + intros k Hk. destruct (decide (k = i)) as [->|]; [|apply R2; lia].
      apply (srep_frame m1); [|by intros q x ?%elem_of_nil|done].
      intros x Hx. apply S2. lia.
Qed.

Section Init.
Context {psz : Z} {pg_alloc : Z -> M ram Z} {pg_free : Z -> M ram unit}.
Context {PA : PageAllocator psz pg_alloc pg_free}.
Context (slab : slab_alloc_t ram) (ssz : Z) (pb : Z -> Z).
Context (Hpsz : psz < 2 ^ 31) (Hssz : 0 < ssz < 2 ^ 31) (Hfit : 2 * (ssz + 1) <= psz - 32).
Context (Hpb : forall p, pb p = p - p mod psz).

(** The number of cells [lib_slab_init] computes. *)
Definition init_cells : Z := (psz - 32) / (1 + ssz).
Definition init_slab (lists : Z) : slab_alloc_t ram :=
  SlabAlloc lists psz ssz init_cells pg_alloc pg_free pb.

Lemma init_cells_range : 2 <= init_cells /\ init_cells * (1 + ssz) <= psz - 32 < 2 ^ 31.
Proof using Hpsz Hssz Hfit.
  unfold init_cells. pose proof (Z.mul_div_le (psz - 32) (1 + ssz) ltac:(lia)).
  assert (2 <= (psz - 32) / (1 + ssz)) by (apply Z.div_le_lower_bound; lia). lia.
Qed.

Lemma init_geom l : sgeom (psz := psz) (pg_alloc := pg_alloc) (pg_free := pg_free) (init_slab l).
Proof using Hpsz Hssz Hfit Hpb.
  pose proof init_cells_range. split; cbn; try done; lia.
Qed.

Lemma lib_slab_init_spec m L :
  pa_inv m L -> ram_hi m <= 2 ^ 35 ->
  exists e, serv_pages psz (40 * init_cells) = Some (2 ^ e) /\ 0 <= e /\
  ((pg_alloc (2 ^ e) m = Ok (0, m) /\ lib_slab_init slab psz ssz pg_alloc pg_free pb m = Assert 133) \/
   exists l m', lib_slab_init slab psz ssz pg_alloc pg_free pb m = Ok (init_slab l, m') /\
     L !! l = None /\
     sinv (psz := psz) (pg_alloc := pg_alloc) (pg_free := pg_free) (init_slab l) m' (<[l := 2 ^ e]> L)
       (replicate (Z.to_nat init_cells) []) /\
     same_off (fun x => ~ in_live psz L x) m m').
Proof using Hpsz Hssz Hfit Hpb.
  intros P Hram. pose proof init_cells_range as [Hc1 Hc2].
  pose proof (pa_psz (PageAllocator := PA)) as H32.
  assert (init_cells < 2 ^ 31) as Hc3 by nia.
  destruct (serv_pages_spec psz (40 * init_cells)) as (e & Es & He & Hsz & _); [lia..|].
  exists e. split; [done|]. split; [lia|].
  destruct (pa_alloc m L (2 ^ e) P) as (l & m1 & E1 & Hl).
  assert (lib_slab_init slab psz ssz pg_alloc pg_free pb = init_lists (init_slab (lists slab))) as ->.
  { unfold lib_slab_init, init_slab, init_cells, sizeof_page; unram.
    rewrite (u32_id (1 + ssz)), (u64_id (psz - 32)) by lia. rewrite u32_id by (unfold init_cells in *; lia). done. }
  unfold init_lists; unram. cbn [cells pgsize buddy_alloc init_slab]. unfold sizeof_slist.
  rewrite u64_id, Es by lia. rewrite (bind_ok _ _ _ _ _ E1).
  destruct Hl as [[-> ->]|(Hnz & HL & P1 & S1)]; [by left|right].
  pose proof (pa_range m1 _ l (2 ^ e) P1 ltac:(by rewrite lookup_insert_eq)) as (? & ? & ? & ? & ?).
  cassert; [case_cmp; done|]. cbn [lists ssize buddy_free pgbegin init_slab].
  fold (init_slab l).
  destruct (init_lists_loop_spec (init_slab l) (Z.to_nat init_cells) 0 m1) as (m2 & E2 & S2 & R2);
    unfold list_at, sizeof_slist in *; cbn [lists init_slab] in *; try lia.
  rewrite (bind_ok _ _ _ _ _ E2). exists l, m2. split_and!; [done|done| |].
  - assert (concat (replicate (Z.to_nat init_cells) ([] : list Z)) = []) as Hcc.
    { clear. induction (Z.to_nat init_cells); done. }
    split; [split|].
    + apply (pa_write m1); [done|]. apply (same_off_weaken _ _ _ _ S2). intros x Hx.
      exists l, (2 ^ e). rewrite lookup_insert_eq. split; [done|lia].
    + exists (2 ^ e). cbn [lists cells init_slab]. rewrite lookup_insert_eq. split; [done|lia].
    + rewrite length_replicate. cbn [cells init_slab]. lia.
    + intros k ps Hk. apply lookup_replicate in Hk as [-> Hk]. apply R2. lia.
    + intros p Hp. rewrite Hcc in Hp. by apply elem_of_nil in Hp.
    + rewrite Hcc. apply NoDup_nil_2.
    + rewrite (proj1 (proj2 S2)), (proj1 (proj2 S1)). done.
    + intros k ps p Hk Hp. apply lookup_replicate in Hk as [-> Hk]. by apply elem_of_nil in Hp.
  - eapply same_off_trans; [exact S1|exact S2|]. cbv beta. intros x [Hx|Hx]; [done|].
    intros (q & n & Hq & Hxq). assert (l <> q) as Hlq by congruence.
    destruct (pa_disjoint m1 _ l (2 ^ e) q n P1) as [Hd|Hd]; rewrite ?lookup_insert_eq, ?lookup_insert_ne; try done; lia.
Qed.
End Init.
