(* ===== verification/SlabThm.v ===== *)
(** * The slab allocator: theorems

    Allocation and release of cells over any [PageAllocator], initialisation
    over the interface, and what the list operations do to a page that is not
    the first of its list. *)

From S2P Require Import Prelude CInt Memory Buddy BuddyThm PageAlloc Slab SlabInv SlabProof.

Section Alloc.
Context {psz : Z} {pg_alloc : Z -> M ram Z} {pg_free : Z -> M ram unit}.
Context {PA : PageAllocator psz pg_alloc pg_free}.
Context (sl : slab_alloc_t ram) (SG : sgeom (psz := psz) (pg_alloc := pg_alloc) (pg_free := pg_free) sl).

(** ** Searching a page *)

Lemma find_page_spec m L G n : forall c,
  sinv sl m L G -> c = Z.of_nat n - 1 -> c < cells sl ->
  (exists j p ps, find_page sl n c m = Ok (inl p, m) /\ Z.of_nat j <= c /\ G !! j = Some (p :: ps)) \/
  (find_page sl n c m = Ok (inr (-1), m) /\ forall j ps, Z.of_nat j <= c -> G !! j = Some ps -> ps = []).
Proof using SG.
  induction n as [|n IH]; intros c I -> Hc; cbn [find_page].
  - right. split; [done|]. lia.
  - pose proof (si_struct _ _ _ _ I) as T. pose proof (ss_len _ _ _ _ _ T).
    replace (Z.of_nat (S n) - 1) with (Z.of_nat n) in * by lia.
    destruct (ss_lists_range _ SG _ _ _ _ (Z.of_nat n) T ltac:(lia)) as (? & ? & ? & ? & _).
    destruct (lookup_lt_is_Some_2 G n) as [ps Hps]; [lia|].
    pose proof (ss_rep _ _ _ _ _ T _ _ Hps) as R. pose proof (ss_length _ SG _ _ _ _ _ _ T Hps).
    unfold sl_len, pg_next, sl_head. cstep.
    pose proof (sr_len _ _ _ _ _ R) as Hl. unfold sl_len in Hl. rewrite Hl.
    destruct ps as [|p ps]; cbn [length] in *.
    + case_cmp. destruct (IH (Z.of_nat n - 1) I eq_refl ltac:(lia)) as [(j & p & ps & E & Hj & HG)|[E Ha]].
      * left. exists j, p, ps. split_and!; [done|lia|done].
      * right. split; [done|]. intros j ps Hj HG. destruct (decide (j = n)) as [->|]; [congruence|].
        apply (Ha j); [lia|done].
    + case_cmp. cstep. left. exists n, p, ps. split_and!; [|lia|done].
      pose proof (sr_chain _ _ _ _ _ R) as C. cbn [schain] in C. unfold pg_next in C. destruct C as (-> & _). done.
Qed.

(** ** Allocation *)

(** The bytes of the cells of the pages [G]. *)
Definition in_cells (G : list (list Z)) (x : Z) : Prop :=
  exists q, q ∈ concat G /\ q + 32 <= x < q + 32 + cells sl * ssize sl.

Lemma alloc_from m L G j p ps :
  sinv sl m L G -> Z.of_nat j <= cells sl - 2 -> G !! j = Some (p :: ps) ->
  exists m' G' i, page_alloc_cell sl p m = Ok (cell sl p i, m') /\ sinv sl m' L G' /\
    p ∈ concat G /\ 0 <= i < cells sl /\ concat G' ≡ₚ concat G /\
    ~ cell_live sl m G (cell sl p i) /\
    (forall a, cell_live sl m' G' a <-> cell_live sl m G a \/ a = cell sl p i) /\
    same_off (fun x => ~ in_cells G x) m m'.
Proof using SG.
  intros I Hj Hk. pose proof (si_struct _ _ _ _ I) as T. pose proof (ss_len _ _ _ _ _ T).
  destruct (lookup_lt_is_Some_2 G (S j)) as [ps' Hk']; [lia|].
  destruct (page_alloc_cell_spec sl SG m L G p j ps ps' I Hk Hk') as (m' & i & E & Hi & H0 & H1 & So & I').
  assert (p ∈ concat G) as Hp by (apply elem_of_concat; exists j, (p :: ps); split; [done|by left]).
  assert (concat (<[S j := p :: ps']> (<[j := ps]> G)) ≡ₚ concat G) as HG by (apply move_concat; [done..|lia]).
  destruct (cell_live_set sl SG m m' L G _ p i I Hp Hi So HG H0 H1) as [Hn Hl].
  exists m', (<[S j := p :: ps']> (<[j := ps]> G)), i. split_and!; try done; [lia..|].
  apply (same_off_weaken _ _ _ _ So). intros x Ht (q & Hq & Hx). by apply (touched_cell sl SG m L G p i q x).
Qed.


(** ** Release *)

Lemma cell_page m L G p i :
  sinv sl m L G -> p ∈ concat G -> 0 <= i < cells sl -> pgbegin sl (cell sl p i) = p.
Proof using SG.
  intros [T _] Hp Hi. rewrite <- (app_nil_r (concat G)) in Hp.
  destruct (ss_page_range _ SG _ _ _ _ _ T Hp) as (_ & _ & _ & ? & [b ->] & _).
  pose proof (cell_range sl SG (b * psz) i Hi). pose proof (sg_fit _ SG). pose proof (sg_ssize _ SG).
  pose proof (sg_cells _ SG). rewrite (sg_begin _ SG).
  rewrite <- (Z.mod_unique (cell sl (b * psz) i) psz b (cell sl (b * psz) i - b * psz)); lia.
Qed.

Lemma page_clean_cell_spec m p i :
  0 <= i < cells sl -> mark sl m p i = 1 -> ram_lo m <= p -> 0 < p -> p + psz <= ram_hi m ->
  page_clean_cell sl p (cell sl p i) m = Ok (tt, poke 1 m (bitmaps_ptr sl p + i) 0).
Proof using SG.
  intros Hi Hm Hlo H0 Hhi. pose proof (mark_addr sl SG p i Hi). pose proof (cells_bound sl SG).
  pose proof (sg_ssize _ SG). pose proof (sg_cells _ SG). assert (0 <= cells sl * ssize sl) by nia.
  unfold page_clean_cell, cells_ptr, sizeof_page, cell. cbv zeta.
  replace (p + 32 + i * ssize sl - (p + 32)) with (i * ssize sl) by lia.
  rewrite Z.quot_mul, i32_id by lia. cstep. rewrite peek1_byte. fold (mark sl m p i). rewrite Hm.
  cassert; [done|]. apply st8_ok. bk.
Qed.

(** A page with [k >= 2] used cells moves to the list below. *)
Lemma free_move m L G p k ps ps' i :
  sinv sl m L G -> G !! S k = Some (p :: ps) -> G !! k = Some ps' -> (0 < k)%nat ->
  0 <= i < cells sl -> mark sl m p i = 1 ->
  exists m', lib_slab_free sl (cell sl p i) m = Ok (tt, m') /\
    sstruct sl m' L (<[k := p :: ps']> (<[S k := ps]> G)) [] /\
    same_off (touched sl p i) m m' /\ mark sl m' p i = 0.
Proof using SG.
  intros I Hk Hk' Hpos Hi Hm. pose proof (si_struct _ _ _ _ I) as T. pose proof (ss_len _ _ _ _ _ T) as Hlen.
  assert (p ∈ concat G) as Hp by (apply elem_of_concat; exists (S k), (p :: ps); split; [done|by left]).
  pose proof (cell_page m L G p i I Hp Hi) as Hpb. rewrite <- (app_nil_r (concat G)) in Hp.
  destruct (ss_page_range _ SG _ _ _ _ _ T Hp) as (? & ? & ? & ? & _ & Hpl).
  pose proof (mark_addr sl SG p i Hi). pose proof (sg_cells _ SG). pose proof (sg_ssize _ SG).
  assert (0 <= cells sl * ssize sl) by nia. pose proof (cells_bound sl SG).
  destruct (sstruct_pop _ SG _ _ _ _ _ _ _ T Hk) as (m1 & E1 & T1 & S1).
  assert ((<[S k := ps]> G) !! k = Some ps') as Hk1 by (rewrite list_lookup_insert_ne by lia; done).
  destruct (sstruct_push _ SG _ _ _ _ _ _ _ T1 Hk1) as (m2 & E2 & T2 & S2).
  pose proof (lookup_lt_Some _ _ _ Hk).
  assert (peek 4 m1 (pg_used_cells p) = Z.of_nat (S k)) as Hu.
  { rewrite (same_off_peek _ _ _ _ _ S1).
    - pose proof (sr_chain _ _ _ _ _ (ss_rep _ _ _ _ _ T _ _ Hk)) as C. cbn [schain] in C. tauto.
    - unfold pg_used_cells. intros x Hx Hh. destruct (Hpl (Z.of_nat (S k))); lia. }
  assert (mark sl m2 p i = 1) as Hm2.
  { unfold mark. rewrite (proj2 (proj2 S2)), (proj2 (proj2 S1)); [done| |].
    - intros Hx. destruct (Hpl (Z.of_nat (S k))); lia.
    - intros [Hx|Hx]; [|lia]. destruct (Hpl (Z.of_nat k)); lia. }
  assert (ram_lo m1 = ram_lo m /\ ram_hi m1 = ram_hi m) as [] by (split; apply S1).
  assert (ram_lo m2 = ram_lo m1 /\ ram_hi m2 = ram_hi m1) as [] by (split; apply S2).
  exists (poke 1 m2 (bitmaps_ptr sl p + i) 0). split_and!.
  - unfold lib_slab_free; unram. rewrite Hpb. rewrite (bind_ok _ _ _ _ _ E1). unfold pg_used_cells in *.
    cstep. rewrite Hu. case_cmp. rewrite bind_assoc. cstep. rewrite Hu, u32_id by lia.
    replace (Z.of_nat (S k) - 1) with (Z.of_nat k) by lia. rewrite (bind_ok _ _ _ _ _ E2).
    apply page_clean_cell_spec; try lia; done.
  - eapply (sstruct_write _ SG); [exact T2|apply same_off_poke|]. cbv beta. intros x Hx. exists p.
    split; [|lia]. rewrite app_nil_r, move_concat by (done || lia). by rewrite <- (app_nil_r (concat G)).
  - eapply same_off_trans; [exact S1|eapply same_off_trans; [exact S2|apply same_off_poke|]; intros x Hx; exact Hx|].
    cbv beta. unfold touched. intros x [Hx|[[Hx|Hx]|Hx]].
    + right. right. exists (Z.of_nat (S k)). split; [lia|done].
    + right. right. exists (Z.of_nat k). split; [lia|done].
    + right. by left.
    + left. lia.
  - unfold mark. rewrite byte_at_poke1. by rewrite decide_True.
Qed.

(** A page whose last used cell is released goes back to the page allocator;
    its mark is cleared after that. *)
Lemma free_last m L G p ps i :
  sinv sl m L G -> G !! 1%nat = Some (p :: ps) -> 0 <= i < cells sl -> mark sl m p i = 1 ->
  exists m', lib_slab_free sl (cell sl p i) m = Ok (tt, m') /\
    sstruct sl m' (delete p L) (<[1%nat := ps]> G) [] /\
    same_off (fun x => ~ in_live psz (delete p L) x \/ list_at sl 1 <= x < list_at sl 1 + 40) m m'.
Proof using SG.
  intros I Hk Hi Hm. pose proof (si_struct _ _ _ _ I) as T.
  assert (p ∈ concat G) as Hp by (apply elem_of_concat; exists 1%nat, (p :: ps); split; [done|by left]).
  pose proof (cell_page m L G p i I Hp Hi) as Hpb. rewrite <- (app_nil_r (concat G)) in Hp.
  destruct (ss_page_range _ SG _ _ _ _ _ T Hp) as (? & ? & ? & ? & _ & Hpl).
  pose proof (mark_addr sl SG p i Hi). pose proof (sg_cells _ SG). pose proof (sg_ssize _ SG).
  assert (0 <= cells sl * ssize sl) by nia.
  destruct (sstruct_pop _ SG _ _ _ _ _ _ _ T Hk) as (m1 & E1 & T1 & S1). change (Z.of_nat 1) with 1 in S1.
  destruct (ss_page _ _ _ _ _ T p Hp) as [HLp _].
  destruct (pa_free m1 L p 1 (ss_pa _ _ _ _ _ T1) HLp) as (m2 & E2 & P2 & S2).
  assert (peek 4 m1 (pg_used_cells p) = 1) as Hu.
  { rewrite (same_off_peek _ _ _ _ _ S1).
    - pose proof (sr_chain _ _ _ _ _ (ss_rep _ _ _ _ _ T _ _ Hk)) as C. cbn [schain] in C. tauto.
    - unfold pg_used_cells. intros x Hx Hh. destruct (Hpl 1); lia. }
  assert (mark sl m2 p i = 1) as Hm2.
  { unfold mark. rewrite (proj2 (proj2 S2)), (proj2 (proj2 S1)); [done| |].
    - intros Hx. destruct (Hpl 1); lia.
    - intros [_ Hx]. lia. }
  assert (ram_lo m1 = ram_lo m /\ ram_hi m1 = ram_hi m) as [] by (split; apply S1).
  assert (ram_lo m2 = ram_lo m1 /\ ram_hi m2 = ram_hi m1) as [] by (split; apply S2).
  pose proof (same_off_poke 1 m2 (bitmaps_ptr sl p + i) 0) as S3.
  assert (forall x, p <= x < p + psz -> ~ in_live psz (delete p L) x) as Hfr.
  { intros x Hx (q & n & Hq & Hxq). apply lookup_delete_Some in Hq as [Hpq Hq].
    destruct (pa_disjoint m L p 1 q n (ss_pa _ _ _ _ _ T)); done || lia. }
  assert (same_off (fun x => ~ in_live psz (delete p L) x) m1 (poke 1 m2 (bitmaps_ptr sl p + i) 0)) as S13.
  { eapply same_off_trans; [exact S2|exact S3|]. cbv beta. intros x [[Hx _]|Hx]; [done|]. apply Hfr. lia. }
  exists (poke 1 m2 (bitmaps_ptr sl p + i) 0). split_and!.
  - unfold lib_slab_free; unram. rewrite Hpb. rewrite (bind_ok _ _ _ _ _ E1). unfold pg_used_cells in *.
    cstep. rewrite Hu. case_cmp. rewrite (sg_free _ SG), (bind_ok _ _ _ _ _ E2).
    apply page_clean_cell_spec; try lia; done.
  - eapply (sstruct_free _ SG); [exact T1| |exact S13|]; [|cbv beta; tauto].
    eapply (pa_scribble m1 m2 L p 1); [apply (ss_pa _ _ _ _ _ T1)|done..|].
    apply (same_off_weaken _ _ _ _ S3). cbv beta. intros; lia.
  - eapply same_off_trans; [exact S1|exact S13|]. cbv beta. tauto.
Qed.

(** The frame of [free_last] leaves the cells and marks of the other pages. *)
Lemma free_last_frame m L G p ps q x :
  sinv sl m L G -> G !! 1%nat = Some (p :: ps) -> q ∈ concat (<[1%nat := ps]> G) ->
  q + 32 <= x < q + psz ->
  ~ (~ in_live psz (delete p L) x \/ list_at sl 1 <= x < list_at sl 1 + 40).
Proof using SG.
  intros [T _] Hk Hq Hx. pose proof (sg_cells _ SG).
  assert (q ∈ concat G ++ [] /\ q <> p) as [Hq' Hne].
  { pose proof (ss_nodup _ _ _ _ _ T) as Hnd. rewrite app_nil_r in *.
    rewrite (concat_pop G 1 ps p Hk) in *. apply NoDup_cons in Hnd as [Hnd _].
    split; [by right|]. by intros ->. }
  destruct (ss_page_range _ SG _ _ _ _ _ T Hq') as (_ & _ & _ & _ & _ & Hql).
  intros [Hf|Hf]; [|destruct (Hql 1); lia]. apply Hf. exists q, 1. rewrite lookup_delete_ne by done.
  split; [apply (ss_page _ _ _ _ _ T q Hq')|lia].
Qed.

Lemma free_last_sinv m m' L G p ps i :
  sinv sl m L G -> G !! 1%nat = Some (p :: ps) -> 0 <= i < cells sl -> mark sl m p i = 1 ->
  sstruct sl m' (delete p L) (<[1%nat := ps]> G) [] ->
  same_off (fun x => ~ in_live psz (delete p L) x \/ list_at sl 1 <= x < list_at sl 1 + 40) m m' ->
  sinv sl m' (delete p L) (<[1%nat := ps]> G) /\
  (forall a, cell_live sl m' (<[1%nat := ps]> G) a <-> cell_live sl m G a /\ a <> cell sl p i).
Proof using SG.
  intros I Hk Hi Hm T' So. pose proof (si_struct _ _ _ _ I) as T. pose proof (sg_cells _ SG). pose proof (sg_ssize _ SG).
  assert (0 <= cells sl * ssize sl) by nia.
  assert (forall q j, q ∈ concat (<[1%nat := ps]> G) -> 0 <= j < cells sl -> mark sl m' q j = mark sl m q j) as Hmk.
  { intros q j Hq Hj. apply So. eapply free_last_frame; [done..|]. pose proof (mark_addr sl SG q j Hj). lia. }
  assert (p ∈ concat G) as Hp by (apply elem_of_concat; exists 1%nat, (p :: ps); split; [done|by left]).
  split.
  - split; [done|]. intros k qs q Hq Hin. apply (page_ok_same sl m).
    + intros j Hj. apply Hmk; [|done]. apply elem_of_concat. eauto.
    + destruct (decide (k = 1%nat)) as [->|].
      * rewrite list_lookup_insert_eq in Hq by (by eapply lookup_lt_Some). simplify_eq.
        eapply (si_marks _ _ _ _ I); [done|by right].
      * rewrite list_lookup_insert_ne in Hq by done. by eapply (si_marks _ _ _ _ I).
  - intros a. split.
    + intros (q & j & Hq & Hj & Hmq & ->). rewrite Hmk in Hmq by done.
      assert (q ∈ concat G) as Hq' by (rewrite (concat_pop G 1 ps p Hk); by right).
      split; [by exists q, j|]. intros E.
      destruct (cell_inj sl SG m L G [] q j p i T) as [-> _]; rewrite ?app_nil_r; try done.
      pose proof (ss_nodup _ _ _ _ _ T) as Hnd. rewrite app_nil_r, (concat_pop G 1 ps p Hk) in Hnd.
      by apply NoDup_cons in Hnd as [Hnd _].
    + intros [(q & j & Hq & Hj & Hmq & ->) Hne]. rewrite (concat_pop G 1 ps p Hk), elem_of_cons in Hq.
      destruct Hq as [->|Hq]; [exfalso|exists q, j; by rewrite Hmk].
      destruct (si_marks _ _ _ _ I 1%nat (p :: ps) p Hk ltac:(by left)) as [_ Hc].
      apply Hne. f_equal. apply (count_unique (fun i => mark sl m p i = 1) (cells sl)); try done. lia.
Qed.

(** C15. [lib_slab_free] of a live cell whose page is the first of its list
    succeeds, keeps the invariant, removes exactly that cell from the live
    ones and leaves the contents of the cells of the pages the slab still owns
    alone; the page goes back to the page allocator exactly when it was its
    last used cell. *)
Theorem slab_free_correct m L G k p ps i :
  sinv sl m L G -> G !! k = Some (p :: ps) -> 0 <= i < cells sl -> mark sl m p i = 1 ->
  exists m' L' G', lib_slab_free sl (cell sl p i) m = Ok (tt, m') /\ sinv sl m' L' G' /\
    L' = (if decide (k = 1%nat) then delete p L else L) /\
    (forall a, cell_live sl m' G' a <-> cell_live sl m G a /\ a <> cell sl p i) /\
    (forall x, in_cells G' x -> byte_at m' x = byte_at m x).
Proof using SG.
  intros I Hk Hi Hm. pose proof (si_struct _ _ _ _ I) as T. pose proof (ss_len _ _ _ _ _ T) as Hlen.
  assert (p ∈ concat G) as Hp by (apply elem_of_concat; exists k, (p :: ps); split; [done|by left]).
  pose proof (si_marks _ _ _ _ I k (p :: ps) p Hk ltac:(by left)) as Hok.
  destruct k as [|k].
  { exfalso. pose proof (proj2 Hok) as Hc.
    assert (i ∈ filter (fun i => mark sl m p i = 1) (seqZ 0 (cells sl))) as Hin.
    { apply list_elem_of_filter. split; [done|]. apply elem_of_seqZ. lia. }
    destruct (filter _ _); [by apply elem_of_nil in Hin|]. cbn [length] in Hc. lia. }
  destruct k as [|k].
  - destruct (free_last m L G p ps i I Hk Hi Hm) as (m' & E & T' & So).
    destruct (free_last_sinv m m' L G p ps i I Hk Hi Hm T' So) as [I' Hl].
    exists m', (delete p L), (<[1%nat := ps]> G). split_and!; try done. intros x (q & Hq & Hx). apply So.
    apply (free_last_frame m L G p ps q x I Hk Hq). pose proof (sg_fit _ SG). pose proof (sg_cells _ SG). lia.
  - destruct (lookup_lt_is_Some_2 G (S k)) as [ps' Hk']; [apply lookup_lt_Some in Hk; lia|].
    destruct (free_move m L G p (S k) ps ps' i I Hk Hk' ltac:(lia) Hi Hm) as (m' & E & T' & So & Hm').
    assert (concat (<[S k := p :: ps']> (<[S (S k) := ps]> G)) ≡ₚ concat G) as HG by (apply move_concat; [done..|lia]).
    exists m', L, (<[S k := p :: ps']> (<[S (S k) := ps]> G)). split_and!; try done.
    + apply (move_sinv sl SG m m' L G p (S (S k)) ps (S k) ps' i); try done.
      replace (Z.of_nat (S k)) with (Z.of_nat (S (S k)) - 1) by lia.
      apply (page_ok_clear sl m m' p _ i); try done. intros j Hj Hne.
      apply (marks_after sl SG m m' L G p i p j); try done. by intros [_ ?].
    + by apply (cell_live_clear sl SG m m' L).
    + intros x (q & Hq & Hx). apply So. rewrite HG in Hq. by apply (touched_cell sl SG m L G p i q x).
Qed.

(** Taking a page that is not the first off its list, and putting it on the
    list below. *)
Lemma inner_move m L G pre p post k ps' :
  sinv sl m L G -> G !! S k = Some (pre ++ p :: post) -> G !! k = Some ps' ->
  exists m1 m2, list_remove p m = Ok (tt, m1) /\ list_add (list_at sl (Z.of_nat k)) p m1 = Ok (tt, m2) /\
    peek 4 m1 (pg_used_cells p) = Z.of_nat (S k) /\
    srep m1 (list_at sl (Z.of_nat (S k))) (Z.of_nat (S k)) (Z.of_nat (length pre + length post)) post /\
    same_off (fun x => list_at sl (Z.of_nat (S k)) <= x < list_at sl (Z.of_nat (S k)) + 40) m m1 /\
    same_off (fun x => list_at sl (Z.of_nat k) <= x < list_at sl (Z.of_nat k) + 40 \/ p <= x < p + 32) m1 m2.
Proof using SG.
  intros I Hk Hk'. pose proof (si_struct _ _ _ _ I) as T. pose proof (ss_len _ _ _ _ _ T) as Hlen.
  pose proof (ss_nodup _ _ _ _ _ T) as Hnd. rewrite app_nil_r in Hnd.
  pose proof (lookup_lt_Some _ _ _ Hk) as Hlt. assert (0 <= Z.of_nat (S k) < cells sl /\ 0 <= Z.of_nat k < cells sl) as [Hc1 Hc0] by lia.
  destruct (ss_lists_range _ SG _ _ _ _ _ T Hc1) as (A0 & A1 & A2 & A3 & _).
  destruct (ss_lists_range _ SG _ _ _ _ _ T Hc0) as (B0 & B1 & B2 & B3 & _).
  assert (forall q, q ∈ pre ++ p :: post \/ q ∈ ps' -> ram_lo m <= q /\ 0 < q /\ q + psz <= ram_hi m /\ 32 < psz /\
    (forall j, 0 <= j < cells sl -> list_at sl j + 40 <= q \/ q + psz <= list_at sl j) /\ q ∈ concat G ++ []) as Hq.
  { intros q Hq. assert (q ∈ concat G ++ []) as Hin by (destruct Hq as [Hq|Hq]; [exact (elem_of_level _ _ _ _ _ _ _ _ T Hk Hq)|exact (elem_of_level _ _ _ _ _ _ _ _ T Hk' Hq)]).
    destruct (ss_page_range _ SG _ _ _ _ _ T Hin) as (? & ? & ? & ? & _ & Hpl). split_and!; done. }
  assert (p ∈ pre ++ p :: post) as Hpin by set_solver.
  pose proof (ss_length _ SG _ _ _ _ _ _ T Hk) as Hln. rewrite length_app in Hln. cbn [length] in Hln.
  destruct (slist_remove_spec m _ A1 A0 A2 A3 (Z.of_nat (S k)) (Z.of_nat (length (pre ++ p :: post))) pre p post) as (m1 & E1 & S1 & R1).
  { rewrite length_app. cbn [length]. lia. }
  { intros q Hin. destruct (Hq q) as (? & ? & ? & ? & Hj & _); [left; set_solver|]. destruct (Hj _ Hc1); lia. }
  { by apply (ss_rep _ _ _ _ _ T). }
  assert (srep m1 (list_at sl (Z.of_nat k)) (Z.of_nat k) (Z.of_nat (length ps')) ps') as R0.
  { eapply (ss_rep_same sl m m1); [exact T|done|exact S1|..]; cbv beta.
    - intros x Hx Hh. pose proof (list_at_sep sl (Z.of_nat (S k)) (Z.of_nat k) ltac:(lia)). lia.
    - intros x q Hx Hin Hh. destruct (Hq q (or_intror Hin)) as (? & ? & ? & ? & Hj & _). destruct (Hj _ Hc1); lia. }
  destruct (Hq p (or_introl Hpin)) as (P1 & P0 & P2 & P3 & Pj & Pin). destruct S1 as (Sl & Sh & Sb).
  destruct (slist_add_spec m1 (list_at sl (Z.of_nat k)) ltac:(lia) B0 ltac:(lia) ltac:(lia) (Z.of_nat k) (Z.of_nat (length ps')) ps' p)
    as (m2 & E2 & S2 & _); try lia.
  { pose proof (cells_bound sl SG). lia. } { pose proof (ss_length _ SG _ _ _ _ _ _ T Hk'). lia. } { destruct (Pj _ Hc0); lia. }
  { intros q Hin. destruct (Hq q (or_intror Hin)) as (? & ? & ? & ? & Hj & Qin). assert (p <> q) as Hne.
    { intros <-. by apply (concat_levels_apart G (S k) k _ _ p Hnd Hk Hk' ltac:(lia) Hpin). }
    destruct (ss_pages_apart _ _ _ _ _ _ _ T Pin Qin Hne), (Hj _ Hc0); lia. }
  { exact R0. }
  exists m1, m2. split_and!; try done.
  - rewrite (peek_ext 4 m1 m).
    + assert (forall l, schain m (list_at sl (Z.of_nat (S k))) (Z.of_nat (S k)) l (pre ++ p :: post) ->
        peek 4 m (pg_used_cells p) = Z.of_nat (S k)) as Hs; [|by eapply Hs, (sr_chain _ _ _ _ _ (ss_rep _ _ _ _ _ T _ _ Hk))].
      clear. induction pre as [|x pre IH]; intros l; cbn [app schain]; [tauto|]. intros (_ & _ & _ & _ & C). eauto.
    + unfold pg_used_cells. intros x Hx. apply Sb. destruct (Pj _ Hc1); lia.
  - rewrite length_app in R1. cbn [length] in R1. by replace (Z.of_nat (length pre + length post)) with (Z.of_nat (length pre + S (length post)) - 1) by lia.
Qed.

(** A list whose length is not the number of its pages is not well formed. *)
Lemma not_sinv m k n ps :
  Z.of_nat k < cells sl -> srep m (list_at sl (Z.of_nat k)) (Z.of_nat k) (Z.of_nat n) ps ->
  (forall q, q ∈ ps -> q <> 0) -> n <> length ps -> forall L G, ~ sinv sl m L G.
Proof using SG.
  intros Hk R Hps Hn L G [T _]. destruct (lookup_lt_is_Some_2 G k) as [qs Hq]; [pose proof (ss_len _ _ _ _ _ T); lia|].
  pose proof (ss_rep _ _ _ _ _ T k qs Hq) as R'. pose proof (sr_len _ _ _ _ _ R) as E. rewrite (sr_len _ _ _ _ _ R') in E.
  apply Hn. rewrite (schain_unique m (list_at sl (Z.of_nat k)) (Z.of_nat k) (peek 8 m (pg_next (list_at sl (Z.of_nat k)))) ps qs Hps); [lia| |exact (sr_chain _ _ _ _ _ R)|exact (sr_chain _ _ _ _ _ R')].
  intros q Hin. pose proof (elem_of_level _ _ _ _ _ _ _ _ T Hq Hin) as Hc. destruct (ss_page_range _ SG _ _ _ _ _ T Hc). lia.
Qed.

(** C40. Releasing a cell of a page that is not the first of its list, and has
    another used cell, returns but breaks the slab: the list of the page then
    consists of the pages behind it only, those before it are on no list any
    more though their cells are in use, while the length still counts them.
    No state of the slab that is well formed has this memory, whatever blocks
    and pages it consists of. *)
Theorem slab_free_loses_pages m L G pre p post k ps' i :
  sinv sl m L G -> G !! S k = Some (pre ++ p :: post) -> G !! k = Some ps' -> (0 < k)%nat -> pre <> [] ->
  0 <= i < cells sl -> mark sl m p i = 1 ->
  exists m', lib_slab_free sl (cell sl p i) m = Ok (tt, m') /\
    srep m' (list_at sl (Z.of_nat (S k))) (Z.of_nat (S k)) (Z.of_nat (length pre + length post)) post /\
    forall L' G', ~ sinv sl m' L' G'.
Proof using SG.
  intros I Hk Hk' Hpos Hpre Hi Hm. pose proof (si_struct _ _ _ _ I) as T. pose proof (ss_len _ _ _ _ _ T) as Hlen.
  destruct (inner_move m L G pre p post k ps' I Hk Hk') as (m1 & m2 & E1 & E2 & Hu & R1 & S1 & S2).
  pose proof (lookup_lt_Some _ _ _ Hk) as Hlt. pose proof (cells_bound sl SG). pose proof (mark_addr sl SG p i Hi).
  pose proof (ss_nodup _ _ _ _ _ T) as Hnd. rewrite app_nil_r in Hnd.
  assert (forall q, q ∈ pre ++ p :: post -> q ∈ concat G) as Hin by (intros q Hq; apply elem_of_concat; eauto).
  pose proof (cell_page m L G p i I (Hin p ltac:(set_solver)) Hi) as Hpb.
  assert (forall q, q ∈ pre ++ p :: post -> 0 < q /\ ram_lo m <= q /\ q + psz <= ram_hi m /\ 32 < psz /\
    forall j, 0 <= j < cells sl -> list_at sl j + 40 <= q \/ q + psz <= list_at sl j) as Hq.
  { intros q Hq. destruct (ss_page_range _ SG _ _ _ _ q T) as (? & ? & ? & ? & _ & ?); [rewrite app_nil_r; auto|]. split_and!; done. }
  destruct (Hq p) as (? & ? & ? & ? & Hpl); [set_solver|].
  pose proof (Hpl (Z.of_nat k) ltac:(lia)). pose proof (Hpl (Z.of_nat (S k)) ltac:(lia)).
  pose proof (list_at_sep sl (Z.of_nat k) (Z.of_nat (S k)) ltac:(lia)).
  pose proof (sg_cells _ SG). pose proof (sg_ssize _ SG). assert (0 <= cells sl * ssize sl) by nia.
  assert (ram_lo m1 = ram_lo m /\ ram_hi m1 = ram_hi m) as [] by (split; apply S1).
  assert (ram_lo m2 = ram_lo m1 /\ ram_hi m2 = ram_hi m1) as [] by (split; apply S2).
  assert (mark sl m2 p i = 1) as Hm2 by (unfold mark; rewrite (proj2 (proj2 S2)), (proj2 (proj2 S1)); [done|lia|lia]).
  set (m' := poke 1 m2 (bitmaps_ptr sl p + i) 0).
  assert (forall x, ~ (list_at sl (Z.of_nat k) <= x < list_at sl (Z.of_nat k) + 40 \/ p <= x < p + psz) -> byte_at m' x = byte_at m1 x) as Hb.
  { intros x Hx. unfold m'. rewrite byte_at_poke_ne by lia. apply S2. lia. }
  assert (srep m' (list_at sl (Z.of_nat (S k))) (Z.of_nat (S k)) (Z.of_nat (length pre + length post)) post) as R'.
  { apply (srep_frame m1); [|intros q x Hqp Hx|done]; [intros x Hx; apply Hb; lia|]. apply Hb.
    destruct (Hq q) as (? & ? & ? & ? & Hql); [set_solver|]. pose proof (Hql (Z.of_nat k) ltac:(lia)).
    assert (p <> q) as Hne.
    { intros <-. pose proof (concat_level_nodup G (S k) _ Hnd Hk) as Hd. apply NoDup_app in Hd as (_ & _ & Hd). by apply NoDup_cons in Hd as [? _]. }
    destruct (ss_pages_apart _ _ _ _ _ p q T); [rewrite app_nil_r; apply Hin; set_solver..|done| |]; lia. }
  exists m'. split_and!; [|done|].
  - unfold lib_slab_free; unram. rewrite Hpb. rewrite (bind_ok _ _ _ _ _ E1). unfold pg_used_cells in *.
    cstep. rewrite Hu. case_cmp. rewrite bind_assoc. cstep. rewrite Hu, u32_id by lia.
    replace (Z.of_nat (S k) - 1) with (Z.of_nat k) by lia. rewrite (bind_ok _ _ _ _ _ E2).
    apply page_clean_cell_spec; try lia; done.
  - apply (not_sinv m' (S k) (length pre + length post) post); [lia|done|intros q Hqp; destruct (Hq q); [set_solver|lia]|].
    destruct pre; [done|cbn; lia].
Qed.

(** Distinct live cells do not overlap, and each lies inside one page of
    the slab, clear of that page's list node and marks. *)
Theorem slab_cells_disjoint m L G a b :
  sinv sl m L G -> cell_live sl m G a -> cell_live sl m G b ->
  (a <> b -> a + ssize sl <= b \/ b + ssize sl <= a) /\
  exists p, L !! p = Some 1 /\ p + sizeof_page <= a /\ a + ssize sl <= bitmaps_ptr sl p.
Proof using SG.
  intros [T _] (p & i & Hp & Hi & _ & ->) (q & j & Hq & Hj & _ & ->).
  rewrite <- (app_nil_r (concat G)) in Hp, Hq.
  pose proof (cell_range sl SG p i Hi) as []. pose proof (cell_range sl SG q j Hj) as [].
  pose proof (sg_ssize _ SG). pose proof (sg_fit _ SG). pose proof (sg_cells _ SG). split.
  - intros Hne. destruct (decide (p = q)) as [->|Hpq].
    + unfold cell in *. destruct (Z.lt_trichotomy i j) as [|[->|]]; [nia|lia|nia].
    + destruct (ss_pages_apart _ _ _ _ _ _ _ T Hp Hq Hpq); lia.
  - exists p. rewrite (bitmaps_ptr_eq sl SG). unfold sizeof_page. split_and!; [|lia..].
    apply (ss_page _ _ _ _ _ T p Hp).
Qed.
End Alloc.

(** ** Initialisation *)

(** C33. [lib_slab_init] on a page allocator either fails its assertion because
    the allocator has no block for the lists, or allocates the least power of
    two of pages that holds one list per number of used cells and establishes
    the invariant with no live cell, leaving every block that was live before
    untouched. *)
Theorem slab_init_correct {psz : Z} {pg_alloc : Z -> M ram Z} {pg_free : Z -> M ram unit}
    {PA : PageAllocator psz pg_alloc pg_free} (slab : slab_alloc_t ram) (ssz : Z) (pb : Z -> Z) m L :
  psz < 2 ^ 31 -> 0 < ssz < 2 ^ 31 -> 2 * (ssz + 1) <= psz - 32 ->
  (forall p, pb p = p - p mod psz) -> pa_inv m L -> ram_hi m <= 2 ^ 35 ->
  exists n, serv_pages psz (40 * ((psz - 32) / (1 + ssz))) = Some n /\
  ((pg_alloc n m = Ok (0, m) /\ lib_slab_init slab psz ssz pg_alloc pg_free pb m = Assert 133) \/
   exists sl m', lib_slab_init slab psz ssz pg_alloc pg_free pb m = Ok (sl, m') /\
     sgeom (psz := psz) (pg_alloc := pg_alloc) (pg_free := pg_free) sl /\
     cells sl = (psz - 32) / (1 + ssz) /\ L !! lists sl = None /\
     sinv (psz := psz) (pg_alloc := pg_alloc) (pg_free := pg_free) sl m' (<[lists sl := n]> L)
       (replicate (Z.to_nat (cells sl)) []) /\
     same_off (fun x => ~ in_live psz L x) m m').
Proof.
  intros H1 H2 H3 H4 P H5.
  destruct (lib_slab_init_spec slab ssz pb H1 H2 H3 H4 m L P H5) as (e & Es & He & [Hl|(l & m' & E & HL & I & So)]).
  - exists (2 ^ e). split; [done|by left].
  - exists (2 ^ e). split; [done|right]. eexists _, m'.
    split_and!; try done. by apply init_geom.
Qed.

(** [serv_pages] terminates for every list size the allocator can ask for,
    and returns the least power of two of pages that holds it. *)
Theorem serv_pages_least psz n :
  0 < psz < 2 ^ 31 -> 0 <= n < 2 ^ 40 ->
  exists e, serv_pages psz n = Some (2 ^ e) /\ 0 <= e /\ n <= 2 ^ e * psz /\
    forall f, 0 <= f -> n <= 2 ^ f * psz -> e <= f.
Proof.
  intros Hp Hn. destruct (serv_pages_spec psz n Hp Hn) as (e & E & He & Hs & Hl).
  exists e. split_and!; [done|lia|done|]. intros f Hf Hfn.
  destruct Hl as [->|Hl]; [lia|]. destruct (Z.le_gt_cases e f) as [|Hfe]; [done|].
  pose proof (pow2_mono f (e - 1) ltac:(lia)). nia.
Qed.

Lemma serv_pages_least_witness :
  serv_pages 4096 (40 * 90) = Some 1 /\ serv_pages 4096 10000 = Some 4 /\
  exists e, serv_pages 4096 10000 = Some (2 ^ e) /\ 0 <= e /\ 10000 <= 2 ^ e * 4096 /\
    forall f, 0 <= f -> 10000 <= 2 ^ f * 4096 -> e <= f.
Proof. split_and!; [reflexivity..|]. apply (serv_pages_least 4096 10000); lia. Defined.

(** ** A slab over the buddy allocator *)

#[local] Instance ex_pa : PageAllocator 64 (lib_buddy_alloc ex_al) (lib_buddy_free riscv64 ex_al) :=
  buddy_page_allocator ex_al ltac:(cbn; lia) ltac:(by exists 66).

Definition ex_slab0 : slab_alloc_t ram :=
  SlabAlloc 0 0 0 0 (fun _ => ret 0) (fun _ => ret tt) (fun p => p).
Definition ex_slab : slab_alloc_t ram * ram :=
  match lib_slab_init ex_slab0 64 8 (lib_buddy_alloc ex_al) (lib_buddy_free riscv64 ex_al)
          (fun p => p - p mod 64) ex_init with
  | Ok r => r
  | _ => (ex_slab0, ex_init)
  end.

Lemma ex_pa_inv : pa_inv ex_init ∅.
Proof.
  exists (BuddyInit.abs_init 2 8), ∅. split; [exact ex_inv|]. intros p n. cbn [snd].
  rewrite lookup_empty. split; [done|]. intros (pn & lvl & H & _). by rewrite lookup_empty in H.
Qed.

Lemma slab_init_correct_witness :
  exists n, serv_pages 64 (40 * ((64 - 32) / (1 + 8))) = Some n /\
  ((lib_buddy_alloc ex_al n ex_init = Ok (0, ex_init) /\
    lib_slab_init ex_slab0 64 8 (lib_buddy_alloc ex_al) (lib_buddy_free riscv64 ex_al)
      (fun p => p - p mod 64) ex_init = Assert 133) \/
   exists sl m', lib_slab_init ex_slab0 64 8 (lib_buddy_alloc ex_al) (lib_buddy_free riscv64 ex_al)
      (fun p => p - p mod 64) ex_init = Ok (sl, m') /\
     sgeom (psz := 64) (pg_alloc := lib_buddy_alloc ex_al) (pg_free := lib_buddy_free riscv64 ex_al) sl /\
     cells sl = (64 - 32) / (1 + 8) /\ (∅ : gmap Z Z) !! lists sl = None /\
     sinv (psz := 64) (pg_alloc := lib_buddy_alloc ex_al) (pg_free := lib_buddy_free riscv64 ex_al)
       sl m' (<[lists sl := n]> ∅) (replicate (Z.to_nat (cells sl)) []) /\
     same_off (fun x => ~ in_live 64 ∅ x) ex_init m').
Proof.
  apply (slab_init_correct ex_slab0 8 (fun p => p - p mod 64) ex_init ∅); try lia; [exact ex_pa_inv|].
  by vm_compute.
Defined.

Definition is_ok {A} (r : res A) : bool := match r with Ok _ => true | _ => false end.
Definition ex_sinv_at := (sinv (psz := 64) (pg_alloc := lib_buddy_alloc ex_al)
                             (pg_free := lib_buddy_free riscv64 ex_al) (fst ex_slab)).

Lemma ex_slab_sinv :
  sgeom (psz := 64) (pg_alloc := lib_buddy_alloc ex_al) (pg_free := lib_buddy_free riscv64 ex_al) (fst ex_slab) /\
  cells (fst ex_slab) = 3 /\ ssize (fst ex_slab) = 8 /\
  ex_sinv_at (snd ex_slab) {[lists (fst ex_slab) := 2]} [[]; []; []].
Proof.
  destruct (lib_slab_init_spec (psz := 64) (pg_alloc := lib_buddy_alloc ex_al)
    (pg_free := lib_buddy_free riscv64 ex_al) ex_slab0 8 (fun p => p - p mod 64)
    ltac:(lia) ltac:(lia) ltac:(lia) ltac:(done) ex_init ∅ ex_pa_inv ltac:(by vm_compute))
    as (e & Es & He & [[_ E]|(l & m' & E & HL & I & So)]).
  { exfalso. assert (is_ok (lib_slab_init ex_slab0 64 8 (lib_buddy_alloc ex_al)
      (lib_buddy_free riscv64 ex_al) (fun p => p - p mod 64) ex_init) = true) as H by (by vm_compute).
    by rewrite E in H. }
  assert (2 ^ e = 2) as He2.
  { assert (serv_pages 64 (40 * init_cells (psz := 64) 8) = Some 2) as E2 by reflexivity. congruence. }
  unfold ex_sinv_at, ex_slab. rewrite E. cbn [fst snd].
  rewrite He2 in I. split_and!; [apply init_geom; [lia..|done]|reflexivity|reflexivity|exact I].
Qed.


Definition ex_page : Z * ram :=
  match new_page (fst ex_slab) (snd ex_slab) with Ok r => r | _ => (0, ex_init) end.
Definition ex_cell : Z * ram :=
  match page_alloc_cell (fst ex_slab) (fst ex_page) (snd ex_page) with Ok r => r | _ => (0, ex_init) end.

Lemma ex_cell_sinv :
  exists L, ex_sinv_at (snd ex_cell) L [[]; [fst ex_page]; []] /\
    mark (fst ex_slab) (snd ex_cell) (fst ex_page) 0 = 1.
Proof.
  destruct ex_slab_sinv as (SG & Hc & Hs & I).
  destruct (new_page_spec (fst ex_slab) SG (snd ex_slab) _ _ [] I eq_refl) as [[_ E]|(p & m1 & E & _ & I1 & _)].
  { exfalso. assert (is_ok (new_page (fst ex_slab) (snd ex_slab)) = true) as H by (by vm_compute).
    rewrite E in H. discriminate H. }
  destruct (page_alloc_cell_spec (fst ex_slab) SG m1 _ _ p O [] [] I1 eq_refl eq_refl)
    as (m2 & i & E2 & Hi & _ & Hm & _ & I2).
  assert (ex_page = (p, m1)) as Ep by (unfold ex_page; by rewrite E).
  assert (ex_cell = (cell (fst ex_slab) p i, m2)) as Ec by (unfold ex_cell; rewrite Ep; cbn [fst snd]; by rewrite E2).
  assert (fst ex_cell = fst ex_page + 32) as E0 by (by vm_compute).
  rewrite Ep, Ec in *. cbn [fst snd] in *. unfold cell in E0. rewrite Hs in E0. assert (i = 0) as -> by lia.
  eexists. split; [exact I2|exact Hm].
Qed.

Lemma slab_free_correct_witness :
  exists m' L' G', lib_slab_free (fst ex_slab) (fst ex_page + 32) (snd ex_cell) = Ok (tt, m') /\
    ex_sinv_at m' L' G' /\ forall a, ~ cell_live (fst ex_slab) m' G' a.
Proof.
  destruct ex_slab_sinv as (SG & Hc & Hs & _). destruct ex_cell_sinv as (L & I & Hm).
  destruct (slab_free_correct (fst ex_slab) SG (snd ex_cell) L _ 1 (fst ex_page) [] 0 I eq_refl ltac:(lia) Hm)
    as (m' & L' & G' & E & I' & _ & Hl & _).
  exists m', L', G'. split_and!; [|exact I'|].
  - rewrite <- E. unfold cell. rewrite Z.mul_0_l, Z.add_0_r. reflexivity.
  - intros a Ha. apply Hl in Ha as [(q & j & Hq & Hj & Hmq & ->) Hne]. cbn in Hq.
    apply list_elem_of_singleton in Hq as ->. apply Hne. apply (f_equal (cell _ _)).
    pose proof (si_marks _ _ _ _ I 1%nat [fst ex_page] (fst ex_page) eq_refl ltac:(by left)) as [_ Hcnt].
    apply (count_unique (fun i => mark (fst ex_slab) (snd ex_cell) (fst ex_page) i = 1) (cells (fst ex_slab)));
      [lia|lia|lia|exact Hmq|exact Hm].
Defined.

Definition ex_cell2 : Z * ram :=
  match page_alloc_cell (fst ex_slab) (fst ex_page) (snd ex_cell) with Ok r => r | _ => (0, ex_init) end.

Lemma ex_cell2_sinv :
  exists L, ex_sinv_at (snd ex_cell2) L [[]; []; [fst ex_page]] /\
    mark (fst ex_slab) (snd ex_cell2) (fst ex_page) 0 = 1 /\
    mark (fst ex_slab) (snd ex_cell2) (fst ex_page) 1 = 1.
Proof.
  destruct ex_slab_sinv as (SG & Hc & Hs & _). destruct ex_cell_sinv as (L & I & Hm).
  destruct (page_alloc_cell_spec (fst ex_slab) SG (snd ex_cell) L _ (fst ex_page) 1 [] [] I eq_refl eq_refl)
    as (m2 & i & E2 & Hi & _ & Hm2 & So & I2).
  assert (ex_cell2 = (cell (fst ex_slab) (fst ex_page) i, m2)) as Ec by (unfold ex_cell2; rewrite E2; reflexivity).
  assert (fst ex_cell2 = fst ex_page + 40) as E0 by (by vm_compute).
  rewrite Ec in E0 |- *. cbn [fst snd] in E0 |- *. unfold cell in E0. rewrite Hs in E0. assert (i = 1) as -> by lia.
  exists L. split; [exact I2|]. split; [|exact Hm2].
  rewrite (marks_after (fst ex_slab) SG (snd ex_cell) m2 L [[]; [fst ex_page]; []] (fst ex_page) 1 (fst ex_page) 0
    (si_struct _ _ _ _ I) So); [exact Hm|left|left|lia|lia|lia].
Qed.

Lemma slab_cells_disjoint_witness :
  let a := fst ex_page + 32 in let b := fst ex_page + 40 in
  (a + ssize (fst ex_slab) <= b \/ b + ssize (fst ex_slab) <= a) /\
  exists p (L : gmap Z Z), L !! p = Some 1 /\ p + sizeof_page <= a /\ a + ssize (fst ex_slab) <= bitmaps_ptr (fst ex_slab) p.
Proof.
  destruct ex_slab_sinv as (SG & Hc & Hs & _). destruct ex_cell2_sinv as (L & I & Hm0 & Hm1).
  assert (forall i, i = 0 \/ i = 1 ->
    cell_live (fst ex_slab) (snd ex_cell2) [[]; []; [fst ex_page]] (fst ex_page + 32 + 8 * i)) as Hl.
  { intros i Hi. exists (fst ex_page), i. split_and!; [by left|lia|lia| |unfold cell; lia].
    destruct Hi as [->| ->]; [exact Hm0|exact Hm1]. }
  destruct (slab_cells_disjoint (fst ex_slab) SG (snd ex_cell2) L _ (fst ex_page + 32) (fst ex_page + 40) I)
    as (Hd & p & Hp).
  - replace (fst ex_page + 32) with (fst ex_page + 32 + 8 * 0) by lia. apply Hl. by left.
  - replace (fst ex_page + 40) with (fst ex_page + 32 + 8 * 1) by lia. apply Hl. by right.
  - split; [apply Hd; lia|]. exists p, L. exact Hp.
Defined.

(** ** A page that is not the first of its list *)

(** A second page of the slab, with two of its cells in use as well. *)
Definition ex_page2 : Z * ram :=
  match new_page (fst ex_slab) (snd ex_cell2) with Ok r => r | _ => (0, ex_init) end.
Definition ex_two : ram :=
  match (page_alloc_cell (fst ex_slab) (fst ex_page2) ;;; page_alloc_cell (fst ex_slab) (fst ex_page2)) (snd ex_page2) with
  | Ok (_, m) => m
  | _ => ex_init
  end.

Lemma ex_two_sinv : exists L, ex_sinv_at ex_two L [[]; []; [fst ex_page2; fst ex_page]].
Proof.
  destruct ex_slab_sinv as (SG & Hc & Hs & _). destruct ex_cell2_sinv as (L & I & _).
  destruct (new_page_spec (fst ex_slab) SG (snd ex_cell2) _ _ [] I eq_refl) as [[_ E]|(p & m1 & E & _ & I1 & _)].
  { exfalso. assert (is_ok (new_page (fst ex_slab) (snd ex_cell2)) = true) as H by (by vm_compute).
    rewrite E in H. discriminate H. }
  destruct (page_alloc_cell_spec (fst ex_slab) SG m1 _ _ p O [] [] I1 eq_refl eq_refl) as (m2 & i & E2 & _ & _ & _ & _ & I2).
  destruct (page_alloc_cell_spec (fst ex_slab) SG m2 _ _ p 1 [] [fst ex_page] I2 eq_refl eq_refl) as (m3 & j & E3 & _ & _ & _ & _ & I3).
  assert (ex_page2 = (p, m1)) as Ep by (unfold ex_page2; by rewrite E).
  assert (ex_two = m3) as -> by (unfold ex_two; rewrite Ep; cbn [fst snd]; by rewrite (bind_ok _ _ _ _ _ E2), E3).
  rewrite Ep. eexists. exact I3.
Qed.

Lemma slab_free_loses_pages_witness : exists m', lib_slab_free (fst ex_slab) (fst ex_page + 32) ex_two = Ok (tt, m') /\
  peek 4 m' (sl_len (list_at (fst ex_slab) 2)) = 1 /\ peek 8 m' (pg_next (list_at (fst ex_slab) 2)) = 0.
Proof.
  destruct ex_slab_sinv as (SG & Hc & Hs & _). destruct ex_two_sinv as (L & I).
  destruct (slab_free_loses_pages (fst ex_slab) SG ex_two L _ [fst ex_page2] (fst ex_page) [] 1 [] 0 I eq_refl eq_refl) as (m' & E & R & _);
    [lia|done|lia|by vm_compute|].
  exists m'. split_and!; [|exact (sr_len _ _ _ _ _ R)|exact (sr_chain _ _ _ _ _ R)].
  rewrite <- E. unfold cell. by rewrite Z.mul_0_l, Z.add_0_r.
Defined.

(** A buddy allocator with 62 pages of 256 bytes and a slab with 40-byte cells
    over it. *)
Definition ex_big : buddy_allocator * ram :=
  match lib_buddy_init ex_mem 4 256 63 4096 (Ram 4096 32768 ∅) with
  | Ok ((_, al), m) => (al, m)
  | _ => (ex_mem, ex_ram)
  end.

Fixpoint slab_allocs (sl : slab_alloc_t ram) (n : nat) : M ram (list Z) :=
  match n with
  | O => ret []
  | S n => p <- lib_slab_alloc sl ;; ps <- slab_allocs sl n ;; ret (p :: ps)
  end.

(** Eight allocations fill 4 of the 5 cells of two pages; the cells with the
    indices [frees] are released in order, and one more cell is allocated. *)
Definition ex_slab_run (frees : list nat) : M ram Z :=
  sl <- lib_slab_init ex_slab0 256 40 (lib_buddy_alloc (fst ex_big)) (lib_buddy_free riscv64 (fst ex_big))
          (fun p => p - p mod 256) ;;
  ps <- slab_allocs sl 8 ;;
  (fix go (l : list nat) : M ram unit :=
     match l with
     | [] => ret tt
     | i :: l => lib_slab_free sl (nth i ps 0) ;;; go l
     end) frees ;;;
  lib_slab_alloc sl.

