(* ===== verification/KString.v ===== *)
(** * String and memory routines

    A translation of kernel/string.c over RAM.  Loops take the number of
    iterations their counter allows as fuel; [strlen], which has no counter,
    takes the number of bytes up to the end of RAM, where the next load
    faults. *)

From S2P Require Import Prelude CInt Memory.

(** ** Routines *)

(** [for(i = 0; i < n; i++)], [k] iterations left. *)
Fixpoint memset_loop (cdst c : Z) (k : nat) (i : Z) : M ram unit :=
  match k with
  | O => ret tt
  | S k => st8 (cdst + i) c ;;; memset_loop cdst c k (i + 1)
  end.

Definition memset (dst c n : Z) : M ram Z :=
  memset_loop dst c (Z.to_nat (u32 n)) 0 ;;; ret dst.

(** [while(n-- > 0)], [n] iterations left. *)
Fixpoint memcmp_loop (n : nat) (s1 s2 : Z) : M ram Z :=
  match n with
  | O => ret 0
  | S n =>
      c1 <- ld8 s1 ;;
      c2 <- ld8 s2 ;;
      if negb (c1 =? c2) then ret (c1 - c2)
      else memcmp_loop n (s1 + 1) (s2 + 1)
  end.

Definition memcmp (v1 v2 n : Z) : M ram Z := memcmp_loop (Z.to_nat (u32 n)) v1 v2.

(** [*--d = *--s] and [*d++ = *s++], [n] iterations left. *)
Fixpoint move_down (n : nat) (d s : Z) : M ram unit :=
  match n with
  | O => ret tt
  | S n => c <- ld8 (s - 1) ;; st8 (d - 1) c ;;; move_down n (d - 1) (s - 1)
  end.
Fixpoint move_up (n : nat) (d s : Z) : M ram unit :=
  match n with
  | O => ret tt
  | S n => c <- ld8 s ;; st8 d c ;;; move_up n (d + 1) (s + 1)
  end.

Definition memmove (dst src n : Z) : M ram Z :=
  let n := u32 n in
  if n =? 0 then ret dst
  else if (src <? dst) && (dst <? u64 (src + n)) then
    move_down (Z.to_nat n) (u64 (dst + n)) (u64 (src + n)) ;;; ret dst
  else
    move_up (Z.to_nat n) dst src ;;; ret dst.

Definition memcpy (dst src n : Z) : M ram Z := memmove dst src n.

(** The loop of [strncmp]: the values of [n], [p] and [q] after it. *)
Fixpoint strncmp_loop (n : nat) (p q : Z) : M ram (nat * Z * Z) :=
  match n with
  | O => ret (O, p, q)
  | S n' =>
      c <- ld8 p ;;
      if c =? 0 then ret (n, p, q)
      else
        d <- ld8 q ;;
        if c =? d then strncmp_loop n' (p + 1) (q + 1) else ret (n, p, q)
  end.

Definition strncmp (p q n : Z) : M ram Z :=
  let* (n, p, q) := strncmp_loop (Z.to_nat (u32 n)) p q in
  match n with
  | O => ret 0
  | S _ => c <- ld8 p ;; d <- ld8 q ;; ret (c - d)
  end.

(** The first loop of [strncpy], also that of [safestrcpy]: [n] and [s] after
    it; [n] counts the iterations that are still allowed. *)
Fixpoint copy_loop (n : nat) (s t : Z) : M ram (nat * Z) :=
  match n with
  | O => ret (O, s)
  | S n =>
      c <- ld8 t ;;
      st8 s c ;;;
      if c =? 0 then ret (n, s + 1) else copy_loop n (s + 1) (t + 1)
  end.
Fixpoint pad_loop (n : nat) (s : Z) : M ram unit :=
  match n with
  | O => ret tt
  | S n => st8 s 0 ;;; pad_loop n (s + 1)
  end.

Definition strncpy (s t n : Z) : M ram Z :=
  let os := s in
  let* (n, s) := copy_loop (Z.to_nat n) s t in
  pad_loop n s ;;;
  ret os.

(** When the copied byte is 0, [s] has already moved past it. *)
Definition safestrcpy (s t n : Z) : M ram Z :=
  let os := s in
  if n <=? 0 then ret os
  else
    let* (_, s) := copy_loop (Z.to_nat (n - 1)) s t in
    st8 s 0 ;;;
    ret os.

Fixpoint strlen_loop (k : nat) (s n : Z) : M ram Z :=
  match k with
  | O => diverge
  | S k => c <- ld8 (s + n) ;; if c =? 0 then ret n else strlen_loop k s (i32 (n + 1))
  end.

Definition strlen (s : Z) : M ram Z := fun m =>
  strlen_loop (S (Z.to_nat (ram_hi m - s))) s 0 m.

(** ** Memory routines *)

Lemma memset_loop_spec d c k : forall i m,
  ram_lo m <= d + i -> d + i + Z.of_nat k <= ram_hi m ->
  exists m', memset_loop d c k i m = Ok (tt, m') /\
    same_off (fun x => d + i <= x < d + i + Z.of_nat k) m m' /\
    forall x, d + i <= x < d + i + Z.of_nat k -> byte_at m' x = u8 c.
Proof.
  induction k as [|k IH]; intros i m Hlo Hhi; cbn [memset_loop].
  - exists m. split_and!; [done|apply same_off_refl|lia].
  - cstep. destruct (IH (i + 1) (poke 1 m (d + i) c)) as (m' & E & So & Hz);
      rewrite ?ram_lo_poke, ?ram_hi_poke; try lia.
    exists m'. split_and!; [done| |].
    + eapply same_off_trans; [apply same_off_poke|exact So|]. cbv beta. lia.
    + intros x Hx. destruct (decide (x = d + i)) as [->|]; [|apply Hz; lia].
      rewrite (proj2 (proj2 So)) by lia. rewrite byte_at_poke1. by rewrite decide_True.
Qed.

Lemma memset_spec d c n m :
  0 <= n < 2 ^ 31 -> ram_lo m <= d -> d + n <= ram_hi m ->
  exists m', memset d c n m = Ok (d, m') /\ same_off (fun x => d <= x < d + n) m m' /\
    forall x, d <= x < d + n -> byte_at m' x = u8 c.
Proof.
  intros Hn Hlo Hhi. unfold memset. rewrite u32_id by lia.
  destruct (memset_loop_spec d c (Z.to_nat n) 0 m) as (m' & E & So & Hz); [lia..|].
  rewrite (bind_ok _ _ _ _ _ E). exists m'. split_and!; [done| |].
  - apply (same_off_weaken _ _ _ _ So). lia.
  - intros x Hx. apply Hz. lia.
Qed.

Lemma move_down_spec n : forall d s m,
  ram_lo m <= s -> ram_lo m <= d -> s + Z.of_nat n <= ram_hi m -> d + Z.of_nat n <= ram_hi m -> s < d ->
  exists m', move_down n (d + Z.of_nat n) (s + Z.of_nat n) m = Ok (tt, m') /\
    same_off (fun x => d <= x < d + Z.of_nat n) m m' /\
    forall i, 0 <= i < Z.of_nat n -> byte_at m' (d + i) = byte_at m (s + i).
Proof.
  induction n as [|n IH]; intros d s m H1 H2 H3 H4 Hsd; cbn [move_down].
  - exists m. split_and!; [done|apply same_off_refl|lia].
  - replace (s + Z.of_nat (S n) - 1) with (s + Z.of_nat n) by lia.
    replace (d + Z.of_nat (S n) - 1) with (d + Z.of_nat n) by lia.
    cstep. cstep. set (m1 := poke 1 m _ _).
    destruct (IH d s m1) as (m' & E & So & Hb); unfold m1 in *; rewrite ?ram_lo_poke, ?ram_hi_poke; try lia.
    exists m'. split_and!; [done| |].
    + eapply same_off_trans; [apply same_off_poke|exact So|]. cbv beta. lia.
    + intros i Hi. destruct (decide (i = Z.of_nat n)) as [->|].
      * rewrite (proj2 (proj2 So)) by lia. rewrite byte_at_poke1, decide_True, peek1_byte by done.
        apply u8_id, byte_at_range.
      * rewrite Hb by lia. rewrite byte_at_poke1. case_decide; [lia|done].
Qed.

Lemma move_up_spec n : forall d s m,
  ram_lo m <= s -> ram_lo m <= d -> s + Z.of_nat n <= ram_hi m -> d + Z.of_nat n <= ram_hi m ->
  d <= s \/ s + Z.of_nat n <= d ->
  exists m', move_up n d s m = Ok (tt, m') /\
    same_off (fun x => d <= x < d + Z.of_nat n) m m' /\
    forall i, 0 <= i < Z.of_nat n -> byte_at m' (d + i) = byte_at m (s + i).
Proof.
  induction n as [|n IH]; intros d s m H1 H2 H3 H4 Hsd; cbn [move_up].
  - exists m. split_and!; [done|apply same_off_refl|lia].
  - cstep. cstep. set (m1 := poke 1 m _ _).
    destruct (IH (d + 1) (s + 1) m1) as (m' & E & So & Hb); unfold m1 in *;
      rewrite ?ram_lo_poke, ?ram_hi_poke; try lia.
    exists m'. split_and!; [done| |].
    + eapply same_off_trans; [apply same_off_poke|exact So|]. cbv beta. lia.
    + intros i Hi. destruct (decide (i = 0)) as [->|].
      * rewrite (proj2 (proj2 So)) by lia. rewrite byte_at_poke1, decide_True, peek1_byte by lia.
        rewrite Z.add_0_r. apply u8_id, byte_at_range.
      * replace (d + i) with (d + 1 + (i - 1)) by lia. rewrite Hb by lia. rewrite byte_at_poke1.
        case_decide; [lia|]. f_equal. lia.
Qed.

Lemma memmove_spec d s n m :
  0 <= n < 2 ^ 32 -> ram_lo m <= s -> ram_lo m <= d -> s + n <= ram_hi m -> d + n <= ram_hi m ->
  0 <= s -> 0 <= d -> ram_hi m < 2 ^ 64 ->
  exists m', memmove d s n m = Ok (d, m') /\ same_off (fun x => d <= x < d + n) m m' /\
    forall i, 0 <= i < n -> byte_at m' (d + i) = byte_at m (s + i).
Proof.
  intros Hn H1 H2 H3 H4 H5 H6 H7. unfold memmove. rewrite u32_id by lia. cbv zeta.
  destruct (Z.eqb_spec n 0) as [->|].
  { exists m. split_and!; [done|apply same_off_refl|lia]. }
  rewrite (u64_id (s + n)), (u64_id (d + n)) by lia.
  destruct ((s <? d) && (d <? s + n)) eqn:Eo; bool_to_prop.
  - destruct (move_down_spec (Z.to_nat n) d s m) as (m' & E & So & Hb); try lia.
    rewrite !Z2Nat.id in * by lia. rewrite (bind_ok _ _ _ _ _ E). by exists m'.
  - destruct (move_up_spec (Z.to_nat n) d s m) as (m' & E & So & Hb); try lia.
    rewrite !Z2Nat.id in * by lia. rewrite (bind_ok _ _ _ _ _ E). by exists m'.
Qed.

(** ** Strings *)

(** The bytes [l], none of them 0, and a terminating 0 at [a]. *)
Definition cstr (m : ram) (a : Z) (l : list Z) : Prop :=
  (forall i c, l !! i = Some c -> byte_at m (a + Z.of_nat i) = c /\ c <> 0) /\
  byte_at m (a + Z.of_nat (length l)) = 0.

Lemma cstr_nil m a : cstr m a [] <-> byte_at m a = 0.
Proof. unfold cstr. cbn. rewrite Z.add_0_r. split; [tauto|]. intros H. split; [|done]. intros i c E. by destruct i. Qed.

Lemma cstr_cons m a c l : cstr m a (c :: l) <-> byte_at m a = c /\ c <> 0 /\ cstr m (a + 1) l.
Proof.
  unfold cstr. split.
  - intros [H1 H2]. destruct (H1 O c eq_refl) as [H3 H4]. rewrite Z.add_0_r in H3. split_and!; [done..| |].
    + intros i d Hd. destruct (H1 (S i) d Hd) as [<- ?]. split; [f_equal; lia|done].
    + rewrite <- H2. f_equal. cbn [length]. lia.
  - intros (H1 & H2 & H3 & H4). split.
    + intros [|i] d Hd; cbn in Hd; [simplify_eq; by rewrite Z.add_0_r|].
      destruct (H3 i d Hd) as [<- ?]. split; [f_equal; lia|done].
    + rewrite <- H4. f_equal. cbn [length]. lia.
Qed.

Lemma copy_loop_spec n : forall s t l m,
  cstr m t l -> ram_lo m <= s -> s + Z.of_nat n <= ram_hi m ->
  ram_lo m <= t -> t + Z.of_nat (length l) < ram_hi m ->
  s + Z.of_nat n <= t \/ t + Z.of_nat (length l) < s ->
  let j := Nat.min n (S (length l)) in
  exists m', copy_loop n s t m = Ok ((n - j)%nat, s + Z.of_nat j, m') /\
    same_off (fun x => s <= x < s + Z.of_nat j) m m' /\
    forall i, 0 <= i < Z.of_nat j -> byte_at m' (s + i) = byte_at m (t + i).
Proof.
  induction n as [|n IH]; intros s t l m Hl H1 H2 H3 H4 Hd j; cbn [copy_loop].
  - exists m. unfold j. cbn [Nat.min]. rewrite Z.add_0_r. split_and!; [done|apply same_off_refl|lia].
  - cstep. cstep. rewrite peek1_byte. pose proof (same_off_poke 1 m s (byte_at m t)) as S1.
    assert (byte_at (poke 1 m s (byte_at m t)) s = byte_at m t) as Hs.
    { rewrite byte_at_poke1, decide_True by done. apply u8_id, byte_at_range. }
    set (m1 := poke 1 m s (byte_at m t)) in *. destruct l as [|c l].
    + rewrite cstr_nil in Hl. rewrite Hl. cbn [Z.eqb]. exists m1. unfold j. cbn [length] in *.
      replace (Nat.min (S n) 1) with 1%nat by lia. replace (S n - 1)%nat with n by lia.
      split_and!; [done|done|]. intros i Hi. replace i with 0 by lia. by rewrite !Z.add_0_r.
    + apply cstr_cons in Hl as (Hc & Hnz & Hl). rewrite Hc. destruct (Z.eqb_spec c 0); [done|].
      cbn [length] in *.
      assert (cstr m1 (t + 1) l) as Hl1.
      { destruct Hl as [Ha Hb]. split.
        - intros i d Hi. rewrite (proj2 (proj2 S1)) by (apply lookup_lt_Some in Hi; lia). by apply Ha.
        - rewrite (proj2 (proj2 S1)) by lia. done. }
      pose proof (proj1 S1). pose proof (proj1 (proj2 S1)).
      destruct (IH (s + 1) (t + 1) l m1 Hl1) as (m' & E & So & Hb); try lia.
      exists m'. unfold j in *. replace (Nat.min (S n) (S (S (length l)))) with (S (Nat.min n (S (length l)))) by lia.
      set (j' := Nat.min n (S (length l))) in *. split_and!.
      * rewrite E. do 3 f_equal; lia.
      * eapply same_off_trans; [exact S1|exact So|]. cbv beta. lia.
      * intros i Hi. destruct (decide (i = 0)) as [->|].
        -- rewrite !Z.add_0_r. rewrite (proj2 (proj2 So)) by lia. done.
        -- replace (s + i) with (s + 1 + (i - 1)) by lia. rewrite Hb by lia.
           rewrite (proj2 (proj2 S1)) by lia. f_equal. lia.
Qed.

Lemma pad_loop_spec n : forall s m,
  ram_lo m <= s -> s + Z.of_nat n <= ram_hi m ->
  exists m', pad_loop n s m = Ok (tt, m') /\
    same_off (fun x => s <= x < s + Z.of_nat n) m m' /\
    forall x, s <= x < s + Z.of_nat n -> byte_at m' x = 0.
Proof.
  induction n as [|n IH]; intros s m Hlo Hhi; cbn [pad_loop].
  - exists m. split_and!; [done|apply same_off_refl|lia].
  - cstep. destruct (IH (s + 1) (poke 1 m s 0)) as (m' & E & So & Hz); rewrite ?ram_lo_poke, ?ram_hi_poke; try lia.
    exists m'. split_and!; [done| |].
    + eapply same_off_trans; [apply same_off_poke|exact So|]. cbv beta. lia.
    + intros x Hx. destruct (decide (x = s)) as [->|]; [|apply Hz; lia].
      rewrite (proj2 (proj2 So)) by lia. rewrite byte_at_poke1. by rewrite decide_True.
Qed.

(** The string of at most [n] bytes at [a], as [strncmp] reads it. *)
Fixpoint strbytes (n : nat) (m : ram) (a : Z) : list Z :=
  match n with
  | O => []
  | S n => if byte_at m a =? 0 then [] else byte_at m a :: strbytes n m (a + 1)
  end.

Lemma strbytes_cstr n m a l :
  cstr m a l -> strbytes n m a = take n l.
Proof.
  revert a l. induction n as [|n IH]; intros a l Hl; [done|]. cbn [strbytes]. destruct l as [|c l].
  - apply cstr_nil in Hl. by rewrite Hl.
  - apply cstr_cons in Hl as (-> & Hc & Hl). destruct (Z.eqb_spec c 0); [done|]. cbn [take]. by rewrite (IH _ l).
Qed.

(** The index of the first position at which two strings differ or the first
    of them ends. *)
Lemma strncmp_loop_spec n : forall p q m,
  ram_lo m <= p -> p + Z.of_nat n <= ram_hi m -> ram_lo m <= q -> q + Z.of_nat n <= ram_hi m ->
  exists k i, strncmp_loop n p q m = Ok (k, p + i, q + i, m) /\ 0 <= i /\ i + Z.of_nat k = Z.of_nat n /\
    (strbytes n m p = strbytes n m q <-> strbytes k m (p + i) = strbytes k m (q + i)) /\
    (k <> O -> byte_at m (p + i) = 0 \/ byte_at m (p + i) <> byte_at m (q + i)).
Proof.
  induction n as [|n IH]; intros p q m H1 H2 H3 H4; cbn [strncmp_loop].
  - exists O, 0. rewrite !Z.add_0_r. split_and!; done.
  - cstep. rewrite peek1_byte. destruct (Z.eqb_spec (byte_at m p) 0) as [E|E].
    { exists (S n), 0. rewrite !Z.add_0_r. split_and!; [done|lia..|done|auto]. }
    cstep. rewrite peek1_byte. destruct (Z.eqb_spec (byte_at m p) (byte_at m q)) as [Eq|Eq].
    + destruct (IH (p + 1) (q + 1) m) as (k & i & El & Hi & Hk & Hs & Hd); try lia.
      exists k, (i + 1). rewrite El. replace (p + (i + 1)) with (p + 1 + i) by lia.
      replace (q + (i + 1)) with (q + 1 + i) by lia. split_and!; [done|lia|lia| |done].
      rewrite <- Hs. cbn [strbytes]. rewrite <- Eq. destruct (Z.eqb_spec (byte_at m p) 0); [done|].
      split; [by intros [=]|by intros ->].
    + exists (S n), 0. rewrite !Z.add_0_r. split_and!; [done|lia..|done|auto].
Qed.

Lemma strlen_loop_spec k : forall s n l m,
  cstr m (s + n) l -> ram_lo m <= s + n -> s + n + Z.of_nat (length l) < ram_hi m ->
  0 <= n -> n + Z.of_nat (length l) < 2 ^ 31 -> (length l < k)%nat ->
  strlen_loop k s n m = Ok (n + Z.of_nat (length l), m).
Proof.
  induction k as [|k IH]; intros s n l m Hl H1 H2 Hn H3 Hk; [lia|]. cbn [strlen_loop]. cstep. rewrite peek1_byte.
  destruct l as [|c l].
  - apply cstr_nil in Hl. rewrite Hl. cbn. by rewrite Z.add_0_r.
  - apply cstr_cons in Hl as (-> & Hc & Hl). destruct (Z.eqb_spec c 0); [done|]. cbn [length] in *.
    rewrite i32_id by lia. rewrite (IH s (n + 1) l); [do 2 f_equal; lia| |lia..].
    by replace (s + (n + 1)) with (s + n + 1) by lia.
Qed.

(** ** Theorems *)

(** [memmove] copies: after it the [n] bytes at [dst] are those that were
    at [src], also when the two regions overlap, and no other byte changed. *)
Theorem memmove_correct (d s n : Z) (m : ram) :
  0 <= n < 2 ^ 32 -> ram_lo m <= s -> ram_lo m <= d -> s + n <= ram_hi m -> d + n <= ram_hi m ->
  0 <= ram_lo m -> ram_hi m < 2 ^ 64 ->
  exists m', memmove d s n m = Ok (d, m') /\
    (forall i, 0 <= i < n -> byte_at m' (d + i) = byte_at m (s + i)) /\
    (forall x, x < d \/ d + n <= x -> byte_at m' x = byte_at m x).
Proof.
  intros. destruct (memmove_spec d s n m) as (m' & E & So & Hb); try lia.
  exists m'. split_and!; [done..|]. intros x Hx. apply So. lia.
Qed.

Definition ex_str : ram := Ram 100 200 (list_to_map (zip (seqZ 100 6) [104; 101; 108; 108; 111; 0])).

Lemma memmove_correct_witness :
  byte_at ex_str 101 = 101 /\
  exists m', memmove 102 100 5 ex_str = Ok (102, m') /\
    (forall i, 0 <= i < 5 -> byte_at m' (102 + i) = byte_at ex_str (100 + i)) /\
    (forall x, x < 102 \/ 107 <= x -> byte_at m' x = byte_at ex_str x).
Proof. split; [reflexivity|]. apply (memmove_correct 102 100 5 ex_str); closed. Defined.

(** [safestrcpy] always leaves a terminated string of at most [n] bytes:
    the longest prefix of the source that fits with its terminator; no byte
    outside the [n] bytes of the destination changes. *)
Theorem safestrcpy_correct (s t n : Z) (l : list Z) (m : ram) :
  cstr m t l -> 0 < n < 2 ^ 31 -> ram_lo m <= s -> s + n <= ram_hi m -> ram_lo m <= t ->
  t + Z.of_nat (length l) < ram_hi m -> s + n <= t \/ t + Z.of_nat (length l) < s ->
  exists m', safestrcpy s t n m = Ok (s, m') /\ cstr m' s (take (Z.to_nat (n - 1)) l) /\
    forall x, x < s \/ s + n <= x -> byte_at m' x = byte_at m x.
Proof.
  intros Hl Hn H1 H2 H3 H4 Hd. unfold safestrcpy. destruct (Z.leb_spec n 0); [lia|].
  destruct (copy_loop_spec (Z.to_nat (n - 1)) s t l m Hl) as (m1 & E & So & Hb); try lia.
  rewrite (bind_ok _ _ _ _ _ E). set (j := Nat.min (Z.to_nat (n - 1)) (S (length l))) in *.
  pose proof (proj1 So). pose proof (proj1 (proj2 So)). cbv beta iota. cstep.
  eexists. split_and!; [done| |].
  - destruct Hl as [Ha Hz]. split.
    + intros i c Hi. rewrite lookup_take_Some in Hi. destruct Hi as [Hi Hin].
      pose proof (lookup_lt_Some _ _ _ Hi). rewrite byte_at_poke_ne by lia. rewrite Hb by lia. by apply Ha.
    + rewrite length_take. destruct (decide (s + Z.of_nat (Nat.min (Z.to_nat (n - 1)) (length l)) = s + Z.of_nat j)) as [->|].
      * rewrite byte_at_poke1. by rewrite decide_True.
      * rewrite byte_at_poke_ne, Hb by lia. rewrite <- Hz. f_equal. lia.
  - intros x Hx. rewrite byte_at_poke_ne by lia. apply So. lia.
Qed.

Lemma safestrcpy_correct_witness :
  cstr ex_str 100 [104; 101; 108; 108; 111] /\
  exists m', safestrcpy 150 100 4 ex_str = Ok (150, m') /\ cstr m' 150 [104; 101; 108] /\
    forall x, x < 150 \/ 154 <= x -> byte_at m' x = byte_at ex_str x.
Proof.
  assert (cstr ex_str 100 [104; 101; 108; 108; 111]) as H.
  { repeat (apply cstr_cons; split_and!; [reflexivity|lia|]). by apply cstr_nil. }
  split; [exact H|]. apply (safestrcpy_correct 150 100 4 _ ex_str H); closed.
Defined.

(** [strncmp] on [n] readable bytes decides whether the two strings, each
    cut at its first 0 or at [n] bytes, are equal, and never writes. *)
Theorem strncmp_correct (p q n : Z) (m : ram) :
  0 <= n < 2 ^ 32 -> ram_lo m <= p -> p + n <= ram_hi m -> ram_lo m <= q -> q + n <= ram_hi m ->
  exists r, strncmp p q n m = Ok (r, m) /\
    (r = 0 <-> strbytes (Z.to_nat n) m p = strbytes (Z.to_nat n) m q).
Proof.
  intros Hn H1 H2 H3 H4. unfold strncmp. rewrite u32_id by lia.
  destruct (strncmp_loop_spec (Z.to_nat n) p q m) as (k & i & E & Hi & Hk & Hs & Hd); try lia.
  rewrite (bind_ok _ _ _ _ _ E). destruct k as [|k].
  - exists 0. split; [done|]. rewrite Hs. done.
  - cstep. cstep. rewrite !peek1_byte. exists (byte_at m (p + i) - byte_at m (q + i)). split; [done|].
    rewrite Hs. cbn [strbytes]. destruct (Hd ltac:(lia)) as [Hz|Hne].
    + rewrite Hz. cbn [Z.eqb]. destruct (Z.eqb_spec (byte_at m (q + i)) 0) as [->|]; [done|].
      split; [lia|done].
    + split; [lia|]. destruct (Z.eqb_spec (byte_at m (p + i)) 0), (Z.eqb_spec (byte_at m (q + i)) 0); try done; [lia|].
      by intros [=].
Qed.

Lemma strncmp_correct_witness :
  (exists r, strncmp 100 102 2 ex_str = Ok (r, ex_str) /\
    (r = 0 <-> strbytes 2 ex_str 100 = strbytes 2 ex_str 102)) /\
  strncmp 100 102 2 ex_str = Ok (-4, ex_str).
Proof. split; [apply (strncmp_correct 100 102 2 ex_str); closed|reflexivity]. Defined.

(** [strlen] of a terminated string. *)
Lemma strlen_spec (s : Z) (l : list Z) (m : ram) :
  cstr m s l -> ram_lo m <= s -> s + Z.of_nat (length l) < ram_hi m -> Z.of_nat (length l) < 2 ^ 31 ->
  strlen s m = Ok (Z.of_nat (length l), m).
Proof.
  intros Hl H1 H2 H3. unfold strlen.
  rewrite (strlen_loop_spec _ s 0 l) by (rewrite ?Z.add_0_r; done || lia). done.
Qed.

(** [strncpy]: the string, then zeros up to [n] bytes. *)
Lemma strncpy_spec (s t n : Z) (l : list Z) (m : ram) :
  cstr m t l -> 0 <= n < 2 ^ 31 -> ram_lo m <= s -> s + n <= ram_hi m -> ram_lo m <= t ->
  t + Z.of_nat (length l) < ram_hi m -> s + n <= t \/ t + Z.of_nat (length l) < s ->
  exists m', strncpy s t n m = Ok (s, m') /\ same_off (fun x => s <= x < s + n) m m' /\
    forall i, 0 <= i < n -> byte_at m' (s + i) = default 0 (l !! Z.to_nat i).
Proof.
  intros Hl Hn H1 H2 H3 H4 Hd. unfold strncpy.
  destruct (copy_loop_spec (Z.to_nat n) s t l m Hl) as (m1 & E & So & Hb); try lia.
  rewrite (bind_ok _ _ _ _ _ E). set (j := Nat.min (Z.to_nat n) (S (length l))) in *.
  pose proof (proj1 So). pose proof (proj1 (proj2 So)).
  destruct (pad_loop_spec (Z.to_nat n - j) (s + Z.of_nat j) m1) as (m2 & E2 & So2 & Hz); [lia..|].
  rewrite (bind_ok _ _ _ _ _ E2). exists m2. split_and!; [done| |].
  - eapply same_off_trans; [exact So|exact So2|]. cbv beta. lia.
  - intros i Hi. destruct (Z.lt_ge_cases i (Z.of_nat j)).
    + rewrite (proj2 (proj2 So2)), Hb by lia. destruct Hl as [Ha He].
      destruct (l !! Z.to_nat i) as [c|] eqn:Ec; cbn.
      * destruct (Ha _ _ Ec) as [<- _]. f_equal. lia.
      * apply lookup_ge_None in Ec. rewrite <- He. f_equal. lia.
    + rewrite Hz by lia. rewrite lookup_ge_None_2 by lia. done.
Qed.
