(* ===== verification/Vm.v ===== *)
(** * Virtual memory: data and operations

    A translation of kernel/vm.c and of the page-table macros of
    kernel/riscv.h, over RAM and the page allocator behind [kalloc] and
    [kfree].  The allocator may work on more than the RAM, as the kernel's does,
    which takes a lock; so the state is any that has a RAM ([RamIn]).  Addresses are physical, as the kernel runs on a direct map.

    Fuel: [mappages] and [uvmunmap] get the number of pages of their range,
    [freewalk] its depth, [copyout], [copyin] and [copyinstr] two more than the
    number of whole pages in the length; running out is [Diverge]. *)

From S2P Require Import Prelude CInt Memory KString.

(** ** Constants and macros of riscv.h and memlayout.h *)

Definition PGSIZE : Z := 4096.
Definition PGSHIFT : Z := 12.
Definition PGROUNDUP (sz : Z) : Z := Z.land (u64 (sz + PGSIZE - 1)) (Z.lnot (PGSIZE - 1)).
Definition PGROUNDDOWN (a : Z) : Z := Z.land a (Z.lnot (PGSIZE - 1)).

Definition PTE_V : Z := Z.shiftl 1 0.
Definition PTE_R : Z := Z.shiftl 1 1.
Definition PTE_W : Z := Z.shiftl 1 2.
Definition PTE_X : Z := Z.shiftl 1 3.
Definition PTE_U : Z := Z.shiftl 1 4.

Definition PA2PTE (pa : Z) : Z := u64 (Z.shiftl (Z.shiftr pa 12) 10).
Definition PTE2PA (pte : Z) : Z := u64 (Z.shiftl (Z.shiftr pte 10) 12).
Definition PTE_FLAGS (pte : Z) : Z := Z.land pte 0x3FF.

Definition PXMASK : Z := 0x1FF.
Definition PXSHIFT (level : Z) : Z := PGSHIFT + 9 * level.
Definition PX (level va : Z) : Z := Z.land (Z.shiftr va (PXSHIFT level)) PXMASK.
Definition MAXVA : Z := Z.shiftl 1 (9 + 9 + 9 + 12 - 1).

Definition UART0 : Z := 0x10000000.
Definition VIRTIO0 : Z := 0x10001000.
Definition PLIC : Z := 0x0c000000.
Definition KERNBASE : Z := 0x80000000.
Definition PHYSTOP : Z := KERNBASE + 128 * 1024 * 1024.
Definition TRAMPOLINE : Z := MAXVA - PGSIZE.
Definition KSTACK (p : Z) : Z := TRAMPOLINE - (p + 1) * 2 * PGSIZE.
Definition TRAPFRAME : Z := TRAMPOLINE - PGSIZE.

(** A condition on bits, as C tests it. *)
Definition bits (x mask : Z) : bool := negb (Z.land x mask =? 0).

(** [&pagetable[i]] *)
Definition pte_at (pagetable i : Z) : Z := pagetable + 8 * i.

Section Operations.
Context {St : Type} `{RamIn St} (pg_alloc : Z -> M St Z) (pg_free : Z -> M St unit).

(** kernel/kalloc.c *)
Definition kalloc : M St Z := pg_alloc 1.
Definition kfree (pa : Z) : M St unit := pg_free pa.

(** ** Walking the table *)

(** The loop of [walk] from [level] down to 1: the last table, [None] where the
    loop returns 0. *)
Fixpoint walk_loop (va : Z) (alloc : bool) (level : nat) (pagetable : Z) : M St (option Z) :=
  match level with
  | O => ret (Some pagetable)
  | S level' =>
      let pte := pte_at pagetable (PX (Z.of_nat level) va) in
      v <- inram (ld64 pte) ;;
      if bits v PTE_V then walk_loop va alloc level' (PTE2PA v)
      else if negb alloc then ret None
      else
        pagetable <- kalloc ;;
        if pagetable =? 0 then ret None
        else
          inram (memset pagetable 0 PGSIZE) ;;;
          inram (st64 pte (Z.lor (PA2PTE pagetable) PTE_V)) ;;;
          walk_loop va alloc level' pagetable
  end.

Definition walk (pagetable va : Z) (alloc : bool) : M St Z :=
  if MAXVA <=? va then panic "walk"
  else
    r <- walk_loop va alloc 2 pagetable ;;
    match r with
    | None => ret 0
    | Some pagetable => ret (pte_at pagetable (PX 0 va))
    end.

Definition walkaddr (pagetable va : Z) : M St Z :=
  if MAXVA <=? va then ret 0
  else
    pte <- walk pagetable va false ;;
    if pte =? 0 then ret 0
    else
      v <- inram (ld64 pte) ;;
      if negb (bits v PTE_V) then ret 0
      else
        v <- inram (ld64 pte) ;;
        if negb (bits v PTE_U) then ret 0
        else
          v <- inram (ld64 pte) ;;
          ret (PTE2PA v).

(** ** Mapping and unmapping *)

Fixpoint mappages_loop (pagetable last perm : Z) (k : nat) (a pa : Z) : M St Z :=
  match k with
  | O => diverge
  | S k =>
      pte <- walk pagetable a true ;;
      if pte =? 0 then ret (-1)
      else
        v <- inram (ld64 pte) ;;
        if bits v PTE_V then panic "mappages: remap"
        else
          inram (st64 pte (Z.lor (Z.lor (PA2PTE pa) perm) PTE_V)) ;;;
          if a =? last then ret 0
          else mappages_loop pagetable last perm k (u64 (a + PGSIZE)) (u64 (pa + PGSIZE))
  end.

(** When the range wraps around, [last] is below [a] and the loop runs until
    [walk] panics at [MAXVA]. *)
Definition mappages (pagetable va size pa perm : Z) : M St Z :=
  if size =? 0 then panic "mappages: size"
  else
    let a := PGROUNDDOWN va in
    let last := PGROUNDDOWN (u64 (va + size - 1)) in
    let k := S (Z.to_nat (((if a <=? last then last else MAXVA) - a) / PGSIZE)) in
    mappages_loop pagetable last perm k a pa.

Definition kvmmap (kpgtbl va pa sz perm : Z) : M St unit :=
  r <- mappages kpgtbl va sz pa perm ;;
  if negb (r =? 0) then panic "kvmmap" else ret tt.

Fixpoint uvmunmap_loop (pagetable last : Z) (do_free : bool) (k : nat) (a : Z) : M St unit :=
  if a <? last then
    match k with
    | O => diverge
    | S k =>
        pte <- walk pagetable a false ;;
        if pte =? 0 then panic "uvmunmap: walk"
        else
          v <- inram (ld64 pte) ;;
          if negb (bits v PTE_V) then panic "uvmunmap: not mapped"
          else
            v <- inram (ld64 pte) ;;
            if PTE_FLAGS v =? PTE_V then panic "uvmunmap: not a leaf"
            else
              (if do_free then v <- inram (ld64 pte) ;; kfree (PTE2PA v) else ret tt) ;;;
              inram (st64 pte 0) ;;;
              uvmunmap_loop pagetable last do_free k (u64 (a + PGSIZE))
    end
  else ret tt.

Definition uvmunmap (pagetable va npages : Z) (do_free : bool) : M St unit :=
  if negb (va mod PGSIZE =? 0) then panic "uvmunmap: not aligned"
  else
    let last := u64 (va + u64 (npages * PGSIZE)) in
    uvmunmap_loop pagetable last do_free (Z.to_nat ((last - va + PGSIZE - 1) / PGSIZE)) va.

(** ** Address spaces *)

Definition uvmcreate : M St Z :=
  pagetable <- kalloc ;;
  if pagetable =? 0 then ret 0
  else inram (memset pagetable 0 PGSIZE) ;;; ret pagetable.

Definition uvmfirst (pagetable src sz : Z) : M St unit :=
  if PGSIZE <=? sz then panic "uvmfirst: more than a page"
  else
    mem <- kalloc ;;
    inram (memset mem 0 PGSIZE) ;;;
    mappages pagetable 0 PGSIZE mem (Z.lor (Z.lor (Z.lor PTE_W PTE_R) PTE_X) PTE_U) ;;;
    inram (memmove mem src sz) ;;;
    ret tt.

Definition uvmdealloc (pagetable oldsz newsz : Z) : M St Z :=
  if oldsz <=? newsz then ret oldsz
  else
    (if PGROUNDUP newsz <? PGROUNDUP oldsz then
       let npages := i32 (u64 (PGROUNDUP oldsz - PGROUNDUP newsz) / PGSIZE) in
       uvmunmap pagetable (PGROUNDUP newsz) (u64 npages) true
     else ret tt) ;;;
    ret newsz.

Fixpoint uvmalloc_loop (pagetable oldsz newsz xperm : Z) (k : nat) (a : Z) : M St Z :=
  if a <? newsz then
    match k with
    | O => diverge
    | S k =>
        mem <- kalloc ;;
        if mem =? 0 then uvmdealloc pagetable a oldsz ;;; ret 0
        else
          inram (memset mem 0 PGSIZE) ;;;
          r <- mappages pagetable a PGSIZE mem (Z.lor (Z.lor PTE_R PTE_U) xperm) ;;
          if negb (r =? 0) then kfree mem ;;; uvmdealloc pagetable a oldsz ;;; ret 0
          else uvmalloc_loop pagetable oldsz newsz xperm k (u64 (a + PGSIZE))
    end
  else ret newsz.

Definition uvmalloc (pagetable oldsz newsz xperm : Z) : M St Z :=
  if newsz <? oldsz then ret oldsz
  else
    let oldsz := PGROUNDUP oldsz in
    uvmalloc_loop pagetable oldsz newsz xperm (Z.to_nat ((newsz - oldsz + PGSIZE - 1) / PGSIZE)) oldsz.

(** [for(int i = 0; i < 512; i++)], [k] iterations left; [rec] frees a child. *)
Fixpoint freewalk_loop (rec : Z -> M St unit) (pagetable : Z) (k : nat) (i : Z) : M St unit :=
  match k with
  | O => ret tt
  | S k =>
      pte <- inram (ld64 (pte_at pagetable i)) ;;
      (if bits pte PTE_V && negb (bits pte (Z.lor (Z.lor PTE_R PTE_W) PTE_X)) then
         rec (PTE2PA pte) ;;; inram (st64 (pte_at pagetable i) 0)
       else if bits pte PTE_V then panic "freewalk: leaf"
       else ret tt) ;;;
      freewalk_loop rec pagetable k (i + 1)
  end.

Fixpoint freewalk (depth : nat) (pagetable : Z) : M St unit :=
  match depth with
  | O => diverge
  | S depth => freewalk_loop (freewalk depth) pagetable 512 0 ;;; kfree pagetable
  end.

Definition uvmfree (pagetable sz : Z) : M St unit :=
  (if 0 <? sz then uvmunmap pagetable 0 (PGROUNDUP sz / PGSIZE) true else ret tt) ;;;
  freewalk 3 pagetable.

(** The loop returns where it stopped: [inl tt] at the end, [inr i] at [err]. *)
Fixpoint uvmcopy_loop (old new sz : Z) (k : nat) (i : Z) : M St (unit + Z) :=
  if i <? sz then
    match k with
    | O => diverge
    | S k =>
        pte <- walk old i false ;;
        if pte =? 0 then panic "uvmcopy: pte should exist"
        else
          v <- inram (ld64 pte) ;;
          if negb (bits v PTE_V) then panic "uvmcopy: page not present"
          else
            v <- inram (ld64 pte) ;;
            let pa := PTE2PA v in
            v <- inram (ld64 pte) ;;
            let flags := u32 (PTE_FLAGS v) in
            mem <- kalloc ;;
            if mem =? 0 then ret (inr i)
            else
              inram (memmove mem pa PGSIZE) ;;;
              r <- mappages new i PGSIZE mem flags ;;
              if negb (r =? 0) then kfree mem ;;; ret (inr i)
              else uvmcopy_loop old new sz k (u64 (i + PGSIZE))
    end
  else ret (inl tt).

Definition uvmcopy (old new sz : Z) : M St Z :=
  r <- uvmcopy_loop old new sz (Z.to_nat ((sz + PGSIZE - 1) / PGSIZE)) 0 ;;
  match r with
  | inl _ => ret 0
  | inr i => uvmunmap new 0 (i / PGSIZE) true ;;; ret (-1)
  end.

Definition uvmclear (pagetable va : Z) : M St unit :=
  pte <- walk pagetable va false ;;
  if pte =? 0 then panic "uvmclear"
  else
    v <- inram (ld64 pte) ;;
    inram (st64 pte (Z.land v (Z.lnot PTE_U))).

(** ** Copying between kernel and user memory *)

Definition chunk (va va0 len : Z) : Z :=
  let n := u64 (PGSIZE - (va - va0)) in
  if len <? n then len else n.

Fixpoint copyout_loop (pagetable : Z) (k : nat) (dstva src len : Z) : M St Z :=
  if 0 <? len then
    match k with
    | O => diverge
    | S k =>
        let va0 := PGROUNDDOWN dstva in
        pa0 <- walkaddr pagetable va0 ;;
        if pa0 =? 0 then ret (-1)
        else
          let n := chunk dstva va0 len in
          inram (memmove (pa0 + (dstva - va0)) src n) ;;;
          copyout_loop pagetable k (u64 (va0 + PGSIZE)) (src + n) (len - n)
    end
  else ret 0.

Definition copyout (pagetable dstva src len : Z) : M St Z :=
  copyout_loop pagetable (S (S (Z.to_nat (len / PGSIZE)))) dstva src len.

Fixpoint copyin_loop (pagetable : Z) (k : nat) (dst srcva len : Z) : M St Z :=
  if 0 <? len then
    match k with
    | O => diverge
    | S k =>
        let va0 := PGROUNDDOWN srcva in
        pa0 <- walkaddr pagetable va0 ;;
        if pa0 =? 0 then ret (-1)
        else
          let n := chunk srcva va0 len in
          inram (memmove dst (pa0 + (srcva - va0)) n) ;;;
          copyin_loop pagetable k (dst + n) (u64 (va0 + PGSIZE)) (len - n)
    end
  else ret 0.

Definition copyin (pagetable dst srcva len : Z) : M St Z :=
  copyin_loop pagetable (S (S (Z.to_nat (len / PGSIZE)))) dst srcva len.

(** The inner loop of [copyinstr]: [n] bytes left on the page; [got_null],
    [max] and [dst] after it. *)
Fixpoint copyinstr_page (n : nat) (p dst max : Z) : M ram (bool * Z * Z) :=
  match n with
  | O => ret (false, max, dst)
  | S n =>
      c <- ld8 p ;;
      if c =? 0 then st8 dst 0 ;;; ret (true, max, dst)
      else
        c <- ld8 p ;;
        st8 dst c ;;;
        copyinstr_page n (p + 1) (dst + 1) (max - 1)
  end.

Fixpoint copyinstr_loop (pagetable : Z) (k : nat) (dst srcva max : Z) : M St Z :=
  if 0 <? max then
    match k with
    | O => diverge
    | S k =>
        let va0 := PGROUNDDOWN srcva in
        pa0 <- walkaddr pagetable va0 ;;
        if pa0 =? 0 then ret (-1)
        else
          let n := chunk srcva va0 max in
          let p := pa0 + (srcva - va0) in
          let* (got_null, max, dst) := inram (copyinstr_page (Z.to_nat n) p dst max) in
          if (got_null : bool) then ret 0
          else copyinstr_loop pagetable k dst (u64 (va0 + PGSIZE)) max
    end
  else ret (-1).

Definition copyinstr (pagetable dst srcva max : Z) : M St Z :=
  copyinstr_loop pagetable (S (S (Z.to_nat (max / PGSIZE)))) dst srcva max.

(** ** The kernel's page table *)

Definition NPROC : Z := 64.

(** kernel/proc.c: one stack per process, [k] processes left. *)
Fixpoint proc_mapstacks_loop (kpgtbl : Z) (k : nat) (p : Z) : M St unit :=
  match k with
  | O => ret tt
  | S k =>
      pa <- kalloc ;;
      if pa =? 0 then panic "kalloc"
      else
        kvmmap kpgtbl (KSTACK p) pa PGSIZE (Z.lor PTE_R PTE_W) ;;;
        proc_mapstacks_loop kpgtbl k (p + 1)
  end.
Definition proc_mapstacks (kpgtbl : Z) : M St unit :=
  proc_mapstacks_loop kpgtbl (Z.to_nat NPROC) 0.

(** [etext] and [trampoline] are addresses the linker sets. *)
Definition kvmmake (etext trampoline : Z) : M St Z :=
  kpgtbl <- kalloc ;;
  inram (memset kpgtbl 0 PGSIZE) ;;;
  kvmmap kpgtbl UART0 UART0 PGSIZE (Z.lor PTE_R PTE_W) ;;;
  kvmmap kpgtbl VIRTIO0 VIRTIO0 PGSIZE (Z.lor PTE_R PTE_W) ;;;
  kvmmap kpgtbl PLIC PLIC 0x400000 (Z.lor PTE_R PTE_W) ;;;
  kvmmap kpgtbl KERNBASE KERNBASE (u64 (etext - KERNBASE)) (Z.lor PTE_R PTE_X) ;;;
  kvmmap kpgtbl etext etext (u64 (PHYSTOP - etext)) (Z.lor PTE_R PTE_W) ;;;
  kvmmap kpgtbl TRAMPOLINE trampoline PGSIZE (Z.lor PTE_R PTE_X) ;;;
  proc_mapstacks kpgtbl ;;;
  ret kpgtbl.
End Operations.
