(* ===== verification/VmInv.v ===== *)
(** * Virtual memory: page arithmetic and page-table entries

    The macros of kernel/riscv.h as arithmetic: rounding, the indices of an
    address, and what an entry built from an address and flags holds. *)

From S2P Require Import Prelude CInt Memory KString Vm PageAlloc.

Lemma land_lnot_ones (a n : Z) : 0 <= n -> Z.land a (Z.lnot (Z.ones n)) = a - a mod 2 ^ n.
Proof.
  intros Hn. rewrite <- Z.ldiff_land, Z.ldiff_ones_r, Z.shiftl_mul_pow2, Z.shiftr_div_pow2 by done.
  rewrite Z.mod_eq by (apply Z.pow_nonzero; lia). lia.
Qed.

Lemma PGROUNDDOWN_eq a : PGROUNDDOWN a = a - a mod 4096.
Proof. unfold PGROUNDDOWN, PGSIZE. change (4096 - 1) with (Z.ones 12). by rewrite land_lnot_ones. Qed.

Lemma PGROUNDUP_eq sz : 0 <= sz -> sz + 4095 < 2 ^ 64 -> PGROUNDUP sz = 4096 * ((sz + 4095) / 4096).
Proof.
  intros H0 H1. unfold PGROUNDUP, PGSIZE. change (4096 - 1) with (Z.ones 12).
  rewrite land_lnot_ones by lia. rewrite u64_id by lia.
  change (2 ^ 12) with 4096. replace (sz + 4096 - 1) with (sz + 4095) by lia.
  pose proof (Z.div_mod (sz + 4095) 4096). lia.
Qed.

Lemma PX_eq l va : 0 <= l -> PX l va = va / 2 ^ (12 + 9 * l) mod 512.
Proof.
  intros. unfold PX, PXMASK, PXSHIFT, PGSHIFT. change 0x1FF with (Z.ones 9).
  rewrite Z.land_ones, Z.shiftr_div_pow2 by lia. done.
Qed.

Lemma PX_range l va : 0 <= l -> 0 <= PX l va < 512.
Proof. intros. rewrite PX_eq by done. apply Z.mod_pos_bound. lia. Qed.

(** The three indices determine the page of an address of 39 bits. *)
Lemma PX_inj va va' :
  0 <= va < 2 ^ 39 -> 0 <= va' < 2 ^ 39 ->
  PX 2 va = PX 2 va' -> PX 1 va = PX 1 va' -> PX 0 va = PX 0 va' -> va / 4096 = va' / 4096.
Proof.
  assert (forall v, 0 <= v < 2 ^ 39 ->
    v / 4096 = PX 0 v + 512 * (PX 1 v + 512 * PX 2 v)) as Hv.
  { intros v Hv. rewrite !PX_eq by lia. cbn [Z.mul Z.add Pos.add].
    change (2 ^ (12 + 9 * 0)) with 4096. change (2 ^ (12 + 9 * 1)) with (4096 * 512).
    change (2 ^ (12 + 9 * 2)) with (4096 * 512 * 512). change (2 ^ 12) with 4096.
    rewrite <- !Z.div_div by lia. set (w := v / 4096).
    assert (0 <= w < 512 * 512 * 512) as Hw by (unfold w; split; [apply Z.div_pos; lia|apply Z.div_lt_upper_bound; lia]).
    assert (0 <= w / 512 / 512 < 512) by (split; [apply Z.div_pos; [apply Z.div_pos|]; lia|
      apply Z.div_lt_upper_bound; [lia|]; apply Z.div_lt_upper_bound; lia]).
    rewrite (Z.mod_small (w / 512 / 512)) by lia.
    pose proof (Z.div_mod w 512). pose proof (Z.div_mod (w / 512) 512). lia. }
  intros H1 H2 E2 E1 E0. rewrite (Hv va H1), (Hv va' H2). congruence.
Qed.

Lemma PX_page l va : 0 <= l -> PX l (va - va mod 4096) = PX l va.
Proof.
  intros. rewrite !PX_eq by done. f_equal. rewrite Z.pow_add_r by lia. change (2 ^ 12) with 4096.
  rewrite <- !Z.div_div by (apply pow2_pos || lia; lia). f_equal.
  rewrite (Z.div_mod va 4096) at 1 by lia.
  replace (4096 * (va / 4096) + va mod 4096 - va mod 4096) with (va / 4096 * 4096) by lia.
  apply Z.div_mul. lia.
Qed.

(** ** Entries *)

Lemma bits_V v : bits v PTE_V = Z.odd v.
Proof.
  unfold bits. change PTE_V with (Z.ones 1). rewrite Z.land_ones by lia. change (2 ^ 1) with 2.
  rewrite Zmod_odd. by destruct (Z.odd v).
Qed.

Lemma PA2PTE_eq pa : 0 <= pa < 2 ^ 64 -> PA2PTE pa = pa / 4096 * 1024.
Proof.
  intros. unfold PA2PTE. rewrite Z.shiftl_mul_pow2, Z.shiftr_div_pow2 by lia.
  change (2 ^ 12) with 4096. change (2 ^ 10) with 1024.
  assert (0 <= pa / 4096 <= 2 ^ 52) by (split; [apply Z.div_pos; lia|apply Z.div_le_upper_bound; lia]).
  apply u64_id. lia.
Qed.

Lemma PTE2PA_eq v : 0 <= v < 2 ^ 62 -> PTE2PA v = v / 1024 * 4096.
Proof.
  intros. unfold PTE2PA. rewrite Z.shiftl_mul_pow2, Z.shiftr_div_pow2 by lia.
  change (2 ^ 12) with 4096. change (2 ^ 10) with 1024.
  assert (0 <= v / 1024 < 2 ^ 52) by (split; [apply Z.div_pos; lia|apply Z.div_lt_upper_bound; lia]).
  apply u64_id. lia.
Qed.

(** An aligned address and flags below 1024 share no bit. *)
Lemma lor_flags a f : 0 <= a -> 0 <= f < 1024 -> Z.lor (a * 1024) f = a * 1024 + f.
Proof.
  intros Ha Hf. change 1024 with (2 ^ 10). rewrite <- Z.shiftl_mul_pow2 by lia.
  rewrite <- Z.lxor_lor, <- Z.add_nocarry_lxor; [done|..].
  all: apply Z.bits_inj'; intros n Hn; rewrite Z.land_spec, Z.bits_0.
  all: destruct (Z.lt_ge_cases n 10); [rewrite Z.shiftl_spec_low by lia; done|].
  all: assert (Z.testbit f n = false) as ->; [|apply andb_false_r].
  all: destruct (Z.eq_dec f 0) as [->|]; [apply Z.bits_0|].
  all: apply Z.bits_above_log2; [lia|]; apply Z.log2_lt_pow2; [lia|].
  all: pose proof (Z.pow_le_mono_r 2 10 n); lia.
Qed.

Lemma bits_pow2 x k : 0 <= k -> bits x (Z.shiftl 1 k) = Z.testbit x k.
Proof.
  intros Hk. unfold bits. rewrite Z.shiftl_1_l. destruct (Z.testbit x k) eqn:E.
  - destruct (Z.eqb_spec (Z.land x (2 ^ k)) 0) as [H|]; [|done].
    apply (f_equal (fun y => Z.testbit y k)) in H.
    rewrite Z.land_spec, E, Z.pow2_bits_true, Z.bits_0 in H by done. done.
  - destruct (Z.eqb_spec (Z.land x (2 ^ k)) 0) as [|H]; [done|]. exfalso. apply H.
    apply Z.bits_inj'. intros n Hn. rewrite Z.land_spec, Z.bits_0, Z.pow2_bits_eqb by done.
    destruct (Z.eqb_spec k n) as [->|]; [by rewrite E|apply andb_false_r].
Qed.

Lemma lor_bound a b k : 0 <= k -> 0 <= a < 2 ^ k -> 0 <= b < 2 ^ k -> 0 <= Z.lor a b < 2 ^ k.
Proof.
  intros Hk Ha Hb. split; [apply Z.lor_nonneg; lia|].
  apply Z.bounded_iff_bits_nonneg; [done|apply Z.lor_nonneg; lia|]. intros l Hl.
  rewrite Z.lor_spec. rewrite (proj1 (Z.bounded_iff_bits_nonneg k a Hk ltac:(lia)) ltac:(lia) l Hl).
  by rewrite (proj1 (Z.bounded_iff_bits_nonneg k b Hk ltac:(lia)) ltac:(lia) l Hl).
Qed.

(** The entry [mappages] writes. *)
Definition mkpte (pa perm : Z) : Z := Z.lor (Z.lor (PA2PTE pa) perm) PTE_V.

Section Entry.
Context (pa perm : Z) (Hpa : 0 <= pa < 2 ^ 64) (Hal : (4096 | pa)) (Hperm : 0 <= perm < 1024).

Lemma mkpte_eq : mkpte pa perm = pa / 4096 * 1024 + Z.lor perm 1.
Proof using Hpa Hperm.
  unfold mkpte. rewrite <- Z.lor_assoc, PA2PTE_eq by done. apply lor_flags.
  - apply Z.div_pos; lia.
  - change 1024 with (2 ^ 10). apply lor_bound; [lia|done|]. cbn. lia.
Qed.

Lemma mkpte_range : 0 <= mkpte pa perm < 2 ^ 62.
Proof using Hpa Hperm.
  rewrite mkpte_eq. pose proof (lor_bound perm 1 10).
  assert (0 <= pa / 4096 < 2 ^ 52) by (split; [apply Z.div_pos; lia|apply Z.div_lt_upper_bound; lia]). lia.
Qed.

Lemma mkpte_pa : PTE2PA (mkpte pa perm) = pa.
Proof using Hpa Hal Hperm.
  rewrite PTE2PA_eq by apply mkpte_range. rewrite mkpte_eq.
  pose proof (lor_bound perm 1 10). rewrite Z.div_add_l, (Z.div_small (Z.lor perm 1)), Z.add_0_r by lia.
  destruct Hal as [k ->]. by rewrite Z.div_mul.
Qed.

Lemma mkpte_flags : PTE_FLAGS (mkpte pa perm) = Z.lor perm 1.
Proof using Hpa Hperm.
  unfold PTE_FLAGS. change 0x3FF with (Z.ones 10). rewrite Z.land_ones by lia. rewrite mkpte_eq.
  change (2 ^ 10) with 1024. rewrite Z.add_comm, Z.mod_add by lia. apply Z.mod_small.
  change 1024 with (2 ^ 10). apply lor_bound; [lia|done|]. lia.
Qed.

Lemma mkpte_bit k : 0 <= k < 10 -> Z.testbit (mkpte pa perm) k = (Z.testbit perm k || (k =? 0))%bool.
Proof using Hpa Hperm.
  intros Hk. unfold mkpte. rewrite !Z.lor_spec, PA2PTE_eq by done.
  change 1024 with (2 ^ 10). rewrite Z.mul_pow2_bits_low by lia. cbn [orb].
  change PTE_V with (2 ^ 0). rewrite Z.pow2_bits_eqb by lia. f_equal.
Qed.

Lemma mkpte_V : bits (mkpte pa perm) PTE_V = true.
Proof using Hpa Hperm.
  unfold PTE_V. rewrite bits_pow2, mkpte_bit by lia. by rewrite orb_true_r.
Qed.
Lemma mkpte_U : bits (mkpte pa perm) PTE_U = bits perm PTE_U.
Proof using Hpa Hperm. unfold PTE_U. rewrite !bits_pow2, mkpte_bit by lia. cbn. by rewrite orb_false_r. Qed.
End Entry.

Lemma bits_0 mask : bits 0 mask = false.
Proof. unfold bits. by rewrite Z.land_0_l. Qed.

(** * Virtual memory: the page-table invariant

    A page table is seen through paths: [node m root p] is the table page
    reached from [root] by the indices [p].  The invariant says that the tables
    are live pages of the page allocator, each reached by one path only, and
    that the entries of the upper two levels are pointers without access bits.
    [pt_get] is the leaf entry of an address, the abstract page table. *)

#[global] Arguments peek : simpl never.
#[global] Arguments poke : simpl never.

Definition child (m : ram) (t i : Z) : option Z :=
  let v := peek 8 m (pte_at t i) in
  if bits v PTE_V then Some (PTE2PA v) else None.

Fixpoint node (m : ram) (t : Z) (p : list Z) : option Z :=
  match p with
  | [] => Some t
  | i :: p => child m t i ≫= fun c => node m c p
  end.

Definition idx_ok (i : Z) : Prop := 0 <= i < 512.
Definition path_ok (p : list Z) : Prop := Forall idx_ok p /\ (length p <= 2)%nat.

(** The tables on the way to the leaf entry of [va]. *)
Fixpoint idxs (n : nat) (va : Z) : list Z :=
  match n with
  | O => []
  | S n' => PX (Z.of_nat n) va :: idxs n' va
  end.

Definition pt_leaf (m : ram) (root va : Z) : option Z :=
  node m root (idxs 2 va) ≫= fun t => Some (pte_at t (PX 0 va)).
Definition pt_get (m : ram) (root va : Z) : Z :=
  match pt_leaf m root va with Some a => peek 8 m a | None => 0 end.

(** The bytes of the tables. *)
Definition tabbyte (m : ram) (root x : Z) : Prop :=
  exists p t, path_ok p /\ node m root p = Some t /\ t <= x < t + 4096.

Record ptwf (m : ram) (L : gmap Z Z) (root : Z) : Prop := {
  pw_live : forall p t, path_ok p -> node m root p = Some t -> L !! t = Some 1;
  pw_inj : forall p q t, path_ok p -> path_ok q ->
    node m root p = Some t -> node m root q = Some t -> p = q;
  pw_ptr : forall p t i, path_ok p -> (length p <= 1)%nat -> idx_ok i -> node m root p = Some t ->
    bits (peek 8 m (pte_at t i)) PTE_V = true ->
    bits (peek 8 m (pte_at t i)) (Z.lor (Z.lor PTE_R PTE_W) PTE_X) = false
}.

(** ** Paths *)

Lemma node_app m t p q : node m t (p ++ q) = node m t p ≫= fun t' => node m t' q.
Proof.
  revert t. induction p as [|i p IH]; intros t; cbn [node app]; [done|].
  destruct (child m t i); cbn; [apply IH|done].
Qed.

Lemma path_ok_nil : path_ok [].
Proof. split; [constructor|cbn; lia]. Qed.
Lemma path_ok_app p q : path_ok (p ++ q) -> path_ok p.
Proof. intros [H1 H2]. rewrite length_app in H2. apply Forall_app in H1 as [H1 _]. split; [done|lia]. Qed.
Lemma idx_ok_PX l va : 0 <= l -> idx_ok (PX l va).
Proof. apply PX_range. Qed.
Lemma idxs_ok n va : Forall idx_ok (idxs n va).
Proof. induction n; cbn [idxs]; constructor; [apply idx_ok_PX; lia|done]. Qed.
Lemma length_idxs n va : length (idxs n va) = n.
Proof. induction n; cbn [idxs length]; congruence. Qed.
Lemma path_ok_idxs va : path_ok (idxs 2 va).
Proof. split; [apply idxs_ok|by rewrite length_idxs]. Qed.

(** A path that reads the same entries reaches the same table. *)
Lemma node_same m m' t p :
  (forall p1 i p2 t', p = p1 ++ i :: p2 -> node m t p1 = Some t' ->
    peek 8 m' (pte_at t' i) = peek 8 m (pte_at t' i)) ->
  node m' t p = node m t p.
Proof.
  revert t. induction p as [|i p IH]; intros t H; cbn [node]; [done|].
  assert (child m' t i = child m t i) as E.
  { unfold child. by rewrite (H [] i p t eq_refl eq_refl). }
  rewrite E. destruct (child m t i) as [c|] eqn:Ec; cbn; [|done].
  apply IH. intros p1 j p2 t' -> Hn. apply (H (i :: p1) j p2); [done|]. cbn [node]. by rewrite Ec.
Qed.

Lemma pte_at_range t i : idx_ok i -> t <= pte_at t i /\ pte_at t i + 8 <= t + 4096.
Proof. unfold idx_ok, pte_at. lia. Qed.

Lemma node_frame m m' root Q :
  same_off Q m m' -> (forall x, Q x -> ~ tabbyte m root x) ->
  forall p, Forall idx_ok p -> (length p <= 3)%nat -> node m' root p = node m root p.
Proof.
  intros So HQ p Hp Hlen. apply node_same. intros p1 i p2 t' -> Hn.
  apply (same_off_peek _ _ _ _ _ So). intros x Hx Hq. apply (HQ x Hq). exists p1, t'.
  apply Forall_app in Hp as [Hp1 Hp]. apply Forall_cons in Hp as [Hi _]. rewrite length_app in Hlen. cbn in Hlen.
  pose proof (pte_at_range t' i Hi). split_and!; [split; [done|lia]|done|lia..].
Qed.

(** Leaf entries are read from table pages as well. *)
Lemma pt_get_frame m m' root Q va :
  same_off Q m m' -> (forall x, Q x -> ~ tabbyte m root x) -> pt_get m' root va = pt_get m root va.
Proof.
  intros So HQ. unfold pt_get, pt_leaf.
  rewrite (node_frame m m' root Q So HQ) by (apply idxs_ok || (rewrite length_idxs; lia)).
  destruct (node m root (idxs 2 va)) as [t|] eqn:E; cbn; [|done].
  apply (same_off_peek _ _ _ _ _ So). intros x Hx Hq. apply (HQ x Hq).
  pose proof (pte_at_range t (PX 0 va) (idx_ok_PX 0 va ltac:(lia))).
  exists (idxs 2 va), t. split_and!; [apply path_ok_idxs|done|lia..].
Qed.

Lemma tabbyte_frame m m' root Q x :
  same_off Q m m' -> (forall x, Q x -> ~ tabbyte m root x) -> tabbyte m' root x <-> tabbyte m root x.
Proof.
  intros So HQ. unfold tabbyte. split; intros (p & t & Hp & Hn & Hx); exists p, t;
    (split_and!; [done| |lia..]); rewrite (node_frame m m' root Q So HQ) in *; try apply Hp; try done;
    destruct Hp; lia.
Qed.

Lemma ptwf_frame m m' L L' root Q :
  ptwf m L root -> same_off Q m m' -> (forall x, Q x -> ~ tabbyte m root x) ->
  (forall t n, L !! t = Some n -> tabbyte m root t -> L' !! t = Some n) -> ptwf m' L' root.
Proof.
  intros [W1 W2 W3] So HQ HL.
  assert (forall p, path_ok p -> node m' root p = node m root p) as Hnode.
  { intros p [Hp Hl]. apply (node_frame m m' root Q So HQ); [done|lia]. }
  split.
  - intros p t Hp Hn. rewrite Hnode in Hn by done. apply HL; [by eapply W1|]. exists p, t. split_and!; [done..|lia|lia].
  - intros p q t Hp Hq Hn Hn'. rewrite Hnode in Hn, Hn' by done. by eapply W2.
  - intros p t i Hp Hl Hi Hn. rewrite Hnode in Hn by done.
    pose proof (pte_at_range t i Hi). rewrite (same_off_peek _ _ _ _ _ So); [by apply (W3 p t i)|].
    intros x Hx Hq. apply (HQ x Hq). exists p, t. split_and!; [done..|lia|lia].
Qed.
