(* ===== verification/VmWalk.v ===== *)
(** * Virtual memory: walking the page table

    [walk] without allocation reads the abstract table; with allocation it adds
    table pages and leaves every leaf entry as it was. *)

From S2P Require Import Prelude CInt Memory KString Vm VmInv PageAlloc.

Section Walk.
Context {pg_alloc : Z -> M ram Z} {pg_free : Z -> M ram unit}.
Context {PA : PageAllocator PGSIZE pg_alloc pg_free}.

(** What an operation that may add table pages to [root] does. *)
Record grown (root : Z) (m : ram) (L : gmap Z Z) (m' : ram) (L' : gmap Z Z) : Prop := {
  wk_pa : pa_inv m' L';
  wk_wf : ptwf m' L' root;
  wk_old : forall a n, L !! a = Some n -> L' !! a = Some n;
  wk_new : forall a n, L' !! a = Some n -> L !! a = None -> n = 1 /\ tabbyte m' root a;
  wk_node : forall p t, path_ok p -> node m root p = Some t -> node m' root p = Some t;
  wk_tab : forall x, tabbyte m' root x -> tabbyte m root x \/ ~ in_live PGSIZE L x;
  wk_off : same_off (fun x => ~ in_live PGSIZE L x \/ tabbyte m root x) m m'
}.

(** The same without a change to a leaf entry. *)
Record walked (root : Z) (m : ram) (L : gmap Z Z) (m' : ram) (L' : gmap Z Z) : Prop := {
  wk_grown :> grown root m L m' L';
  wk_get : forall va, pt_get m' root va = pt_get m root va
}.

Lemma grown_refl root m L : pa_inv m L -> ptwf m L root -> grown root m L m L.
Proof. intros P W. split; try done; [intros; congruence|auto]. Qed.

Lemma in_live_mono L L' x :
  (forall a n, L !! a = Some n -> L' !! a = Some n) -> in_live PGSIZE L x -> in_live PGSIZE L' x.
Proof. intros H (p & n & Hp & Hx). exists p, n. auto. Qed.

Lemma grown_trans root m L m1 L1 m2 L2 :
  grown root m L m1 L1 -> grown root m1 L1 m2 L2 -> grown root m L m2 L2.
Proof.
  intros A B. split.
  - apply (wk_pa _ _ _ _ _ B).
  - apply (wk_wf _ _ _ _ _ B).
  - intros a n H. by apply (wk_old _ _ _ _ _ B), (wk_old _ _ _ _ _ A).
  - intros a n H H0. destruct (L1 !! a) as [n1|] eqn:E.
    + pose proof (wk_old _ _ _ _ _ B _ _ E). destruct (wk_new _ _ _ _ _ A a n1 E H0) as [-> (p & t & Hp & Hn & Hx)].
      split; [congruence|]. exists p, t. split_and!; [done|by apply (wk_node _ _ _ _ _ B)|lia..].
    + by apply (wk_new _ _ _ _ _ B).
  - intros p t Hp H. by apply (wk_node _ _ _ _ _ B), (wk_node _ _ _ _ _ A).
  - intros x Hx. destruct (wk_tab _ _ _ _ _ B x Hx) as [Hx1|Hx1]; [by apply (wk_tab _ _ _ _ _ A)|].
    right. intros Hl. apply Hx1. apply (in_live_mono L); [apply (wk_old _ _ _ _ _ A)|done].
  - eapply same_off_trans; [apply (wk_off _ _ _ _ _ A)|apply (wk_off _ _ _ _ _ B)|]. cbv beta.
    intros x [Hx|[Hx|Hx]]; [done| |].
    + left. intros Hl. apply Hx. apply (in_live_mono L); [apply (wk_old _ _ _ _ _ A)|done].
    + destruct (wk_tab _ _ _ _ _ A x Hx); auto.
Qed.

Lemma walked_refl root m L : pa_inv m L -> ptwf m L root -> walked root m L m L.
Proof. intros P W. split; [by apply grown_refl|done]. Qed.

Lemma walked_trans root m L m1 L1 m2 L2 :
  walked root m L m1 L1 -> walked root m1 L1 m2 L2 -> walked root m L m2 L2.
Proof.
  intros A B. split; [by eapply grown_trans; apply wk_grown|].
  intros va. rewrite (wk_get _ _ _ _ _ B). apply (wk_get _ _ _ _ _ A).
Qed.

(** ** Where the tables are *)

Lemma pt_page m L root p t :
  pa_inv m L -> ptwf m L root -> path_ok p -> node m root p = Some t ->
  L !! t = Some 1 /\ 0 < t /\ ram_lo m <= t /\ t + 4096 <= ram_hi m /\ ram_hi m < 2 ^ 64 /\ (4096 | t).
Proof.
  intros P W Hp Hn. pose proof (pw_live _ _ _ W p t Hp Hn) as HL.
  destruct (pa_range m L t 1 P HL) as (? & ? & ? & ? & ?). unfold PGSIZE in *.
  split_and!; try done. apply (pa_aligned m L t 1 P HL).
Qed.

Lemma pages_apart m L t t' :
  pa_inv m L -> L !! t = Some 1 -> L !! t' = Some 1 -> t <> t' -> t + 4096 <= t' \/ t' + 4096 <= t.
Proof. intros P H1 H2 Hne. destruct (pa_disjoint m L t 1 t' 1 P H1 H2 Hne); unfold PGSIZE in *; lia. Qed.

Lemma tabbyte_live m L root x : ptwf m L root -> tabbyte m root x -> in_live PGSIZE L x.
Proof.
  intros W (p & t & Hp & Hn & Hx). exists t, 1. split; [by eapply (pw_live _ _ _ W)|]. unfold PGSIZE. lia.
Qed.

(** ** Linking a new table *)

Section Link.
Context (root t c i : Z) (p : list Z) (m m2 m3 : ram) (L : gmap Z Z).
Context (P : pa_inv m L) (W : ptwf m L root) (Hp : path_ok p) (Hlen : (length p <= 1)%nat) (Hi : idx_ok i).
Context (Hn : node m root p = Some t) (Hc : child m t i = None).
Context (HL : L !! c = None) (P3 : pa_inv m3 (<[c := 1]> L)) (Hc64 : 0 <= c < 2 ^ 64) (Hal : (4096 | c)).
Context (S2 : same_off (fun x => ~ in_live PGSIZE L x) m m2).
Context (Hz : forall x, c <= x < c + 4096 -> byte_at m2 x = 0).
Context (E3 : m3 = poke 8 m2 (pte_at t i) (Z.lor (PA2PTE c) PTE_V)).

Lemma link_pte : Z.lor (PA2PTE c) PTE_V = mkpte c 0.
Proof using All. unfold mkpte. by rewrite Z.lor_0_r. Qed.

Lemma link_apart q t' : path_ok q -> node m root q = Some t' -> c + 4096 <= t' \/ t' + 4096 <= c.
Proof using All.
  intros Hq Hn'. pose proof (pw_live _ _ _ W q t' Hq Hn') as HL'. assert (c <> t') by (intros E; rewrite <- E, HL in HL'; discriminate).
  apply (pages_apart m3 (<[c := 1]> L)); [done|by rewrite lookup_insert_eq|by rewrite lookup_insert_ne|done].
Qed.

Lemma link_node_m2 q : path_ok q -> node m2 root q = node m root q.
Proof using All.
  intros [Hq Hl]. apply (node_frame m m2 root _ S2); [|done|lia]. intros x Hx Ht. apply Hx.
  by apply (tabbyte_live m L root).
Qed.

(** Entries other than the new link are as before. *)
Lemma link_entry q t' j :
  path_ok q -> idx_ok j -> node m root q = Some t' -> ~ (q = p /\ j = i) ->
  peek 8 m3 (pte_at t' j) = peek 8 m (pte_at t' j).
Proof using All.
  intros Hq Hj Hn' Hne. pose proof (pte_at_range t' j Hj). pose proof (pte_at_range t i Hi).
  assert (pte_at t' j + 8 <= pte_at t i \/ pte_at t i + 8 <= pte_at t' j) as Hd.
  { destruct (decide (t' = t)) as [->|Hne'].
    - assert (q = p) as -> by (by apply (pw_inj _ _ _ W q p t)). unfold pte_at, idx_ok in *.
      assert (j <> i) by tauto. lia.
    - destruct (pages_apart m L t' t P (pw_live _ _ _ W q t' Hq Hn') (pw_live _ _ _ W p t Hp Hn) Hne'); lia. }
  rewrite E3, peek_poke_ne by (change (Z.of_nat 8) with 8; lia).
  apply (same_off_peek _ _ _ _ _ S2). intros x Hx Hl. apply Hl.
  exists t', 1. split; [apply (pw_live _ _ _ W q t' Hq Hn')|]. unfold PGSIZE. lia.
Qed.

Lemma link_new : peek 8 m3 (pte_at t i) = mkpte c 0.
Proof using All.
  rewrite E3, link_pte, peek8_poke_eq; [done|]. pose proof (mkpte_range c 0 Hc64 ltac:(lia)). lia.
Qed.

Lemma link_zero j : idx_ok j -> peek 8 m3 (pte_at c j) = 0.
Proof using All.
  intros Hj. pose proof (pte_at_range c j Hj). pose proof (pte_at_range t i Hi).
  pose proof (link_apart p t Hp Hn). rewrite E3, peek_poke_ne by (change (Z.of_nat 8) with 8; lia).
  assert (forall k a, c <= a -> a + Z.of_nat k <= c + 4096 -> peek k m2 a = 0) as Hk.
  { induction k as [|k IH]; intros a Ha Hb; [done|]. change (byte_at m2 a + 256 * peek k m2 (a + 1) = 0).
    rewrite IH, Hz by lia. done. }
  apply Hk; lia.
Qed.

(** The new table is at [p ++ [i]]; there is nothing below it. *)
Lemma link_below q2 : Forall idx_ok q2 -> node m3 root (p ++ i :: q2) = if decide (q2 = []) then Some c else None.
Proof using All.
  intros Hq2. rewrite node_app.
  assert (node m3 root p = Some t) as ->.
  { rewrite <- Hn. apply node_same. intros p1 j p2 t' Ep Hn'. pose proof Hp as Hp'. rewrite Ep in Hp'. apply (link_entry p1); [|..|done|].
    - by apply (path_ok_app p1 (j :: p2)).
    - destruct Hp' as [HF _]. apply Forall_app in HF as [_ HF]. by apply Forall_cons in HF as [? _].
    - intros [-> _]. apply (f_equal length) in Ep. rewrite length_app in Ep. cbn in Ep. lia. }
  cbn [mbind option_bind node]. unfold child at 1. rewrite link_new, mkpte_V, mkpte_pa by (done || lia).
  cbn [mbind option_bind]. destruct q2 as [|j q2]; cbn [node]; [by rewrite decide_True|].
  rewrite decide_False by done. apply Forall_cons in Hq2 as [Hj _].
  unfold child. by rewrite link_zero, bits_0.
Qed.

Lemma link_other q : path_ok q -> (forall q2, q <> p ++ i :: q2) -> node m3 root q = node m root q.
Proof using All.
  intros Hq Hne. apply node_same. intros q1 j q2 t' -> Hn'. destruct Hq as [HF Hl].
  apply Forall_app in HF as [HF1 HF2]. apply Forall_cons in HF2 as [Hj _]. rewrite length_app in Hl. cbn in Hl.
  apply (link_entry q1); [split; [done|lia]|done|done|]. intros [-> ->]. by apply (Hne q2).
Qed.

(** A path either goes through the new link or does not. *)
Lemma link_cases q : path_ok q ->
  (exists q2, q = p ++ i :: q2 /\ Forall idx_ok q2) \/ forall q2, q <> p ++ i :: q2.
Proof using All.
  intros [HF _]. destruct (decide (take (length p) q = p /\ q !! length p = Some i)) as [[Ht Hk]|Hne].
  - left. exists (drop (S (length p)) q). assert (q = p ++ i :: drop (S (length p)) q) as Eq.
    { rewrite <- Ht at 1. rewrite <- (take_drop (length p) q) at 1. f_equal. by apply drop_S. }
    split; [done|]. by apply Forall_drop.
  - right. intros q2 ->. apply Hne. rewrite take_app_length. split; [done|].
    apply lookup_middle.
Qed.

Lemma link_node q t' : path_ok q -> node m3 root q = Some t' ->
  (q = p ++ [i] /\ t' = c) \/ (node m root q = Some t' /\ forall q2, q <> p ++ i :: q2).
Proof using All.
  intros Hq Hn'. destruct (link_cases q Hq) as [(q2 & -> & HF)|Hne].
  - rewrite link_below in Hn' by done. case_decide; simplify_eq. by left.
  - rewrite link_other in Hn' by done. by right.
Qed.

Lemma link_wf : ptwf m3 (<[c := 1]> L) root.
Proof using All.
  split.
  - intros q t' Hq Hn'. destruct (link_node q t' Hq Hn') as [[_ ->]|[Hm _]]; [by rewrite lookup_insert_eq|].
    pose proof (pw_live _ _ _ W q t' Hq Hm) as HL'. rewrite lookup_insert_ne by congruence. done.
  - intros q q' t' Hq Hq' Hn1 Hn2.
    pose proof (link_node q t' Hq Hn1) as H1. pose proof (link_node q' t' Hq' Hn2) as H2.
    destruct H1 as [[-> E1]|[Hm1 _]], H2 as [[-> E2]|[Hm2 _]]; [done| | |].
    + pose proof (pw_live _ _ _ W q' t' Hq' Hm2). congruence.
    + pose proof (pw_live _ _ _ W q t' Hq Hm1). congruence.
    + by apply (pw_inj _ _ _ W q q' t').
  - intros q t' j Hq Hl Hj Hn' HV. destruct (link_node q t' Hq Hn') as [[-> ->]|[Hm Hne]].
    + rewrite (link_zero j Hj) in HV. by rewrite bits_0 in HV.
    + destruct (decide (q = p /\ j = i)) as [[-> ->]|Hne'].
      * assert (t' = t) as -> by congruence. rewrite link_new. unfold bits. apply negb_false_iff, Z.eqb_eq.
        apply Z.bits_inj'. intros n Hn0. rewrite Z.land_spec, Z.bits_0.
        destruct (Z.lt_ge_cases n 4).
        -- rewrite mkpte_bit by (done || lia). rewrite Z.bits_0. cbn [orb].
           assert (n = 0 \/ n = 1 \/ n = 2 \/ n = 3) as [->|[->|[->| ->]]] by lia; done.
        -- change (Z.lor (Z.lor PTE_R PTE_W) PTE_X) with 14. rewrite (Z.bits_above_log2 14), andb_false_r;
             [done|lia|change (Z.log2 14) with 3; lia].
      * rewrite (link_entry q t' j Hq Hj Hm Hne') in HV |- *. by apply (pw_ptr _ _ _ W q).
Qed.

Lemma link_get va : pt_get m3 root va = pt_get m root va.
Proof using All.
  unfold pt_get, pt_leaf. pose proof (path_ok_idxs va) as Hq.
  destruct (link_cases (idxs 2 va) Hq) as [(q2 & E & HF)|Hne].
  - rewrite E at 1. rewrite link_below by done.
    assert (node m root (idxs 2 va) = None) as ->.
    { rewrite E, node_app, Hn. cbn [mbind option_bind node]. by rewrite Hc. }
    cbn. case_decide; cbn; [|done]. apply link_zero, idx_ok_PX. lia.
  - rewrite (link_other _ Hq Hne). destruct (node m root (idxs 2 va)) as [t'|] eqn:En; cbn; [|done].
    apply (link_entry (idxs 2 va)); [done|apply idx_ok_PX; lia|done|]. intros [Ep _].
    apply (f_equal length) in Ep. rewrite length_idxs in Ep. lia.
Qed.

Lemma link_walked : walked root m L m3 (<[c := 1]> L) /\ node m3 root (p ++ [i]) = Some c.
Proof using All.
  assert (node m3 root (p ++ [i]) = Some c) as Hnew.
  { rewrite link_below by constructor. by rewrite decide_True. }
  assert (path_ok (p ++ [i])) as Hpi.
  { destruct Hp as [HF _]. split; [apply Forall_app; split; [done|by constructor]|]. rewrite length_app. cbn. lia. }
  split; [|done]. split; [|exact link_get]. split.
  - done.
  - apply link_wf.
  - intros a n Ha. rewrite lookup_insert_ne by congruence. done.
  - intros a n Ha H0. destruct (decide (c = a)) as [<-|]; [|rewrite lookup_insert_ne in Ha by done; congruence].
    rewrite lookup_insert_eq in Ha. split; [congruence|]. exists (p ++ [i]), c. split_and!; [done..|lia|lia].
  - intros q t' Hq Hm. destruct (link_cases q Hq) as [(q2 & -> & HF)|Hne]; [|by rewrite link_other].
    rewrite node_app, Hn in Hm. cbn [mbind option_bind node] in Hm. by rewrite Hc in Hm.
  - intros x (q & t' & Hq & Hm & Hx). destruct (link_node q t' Hq Hm) as [[_ ->]|[Hm' _]].
    + right. intros (b & n & Hb & Hxb). assert (c <> b) by congruence.
      destruct (pa_disjoint m3 (<[c := 1]> L) c 1 b n P3) as [Hd|Hd];
        rewrite ?lookup_insert_eq, ?lookup_insert_ne; try done; unfold PGSIZE in *; lia.
    + left. by exists q, t'.
  - eapply same_off_trans; [exact S2|rewrite E3; apply same_off_poke|]. cbv beta. intros x [Hx|Hx]; [by left|].
    right. exists p, t. pose proof (pte_at_range t i Hi). split_and!; [done..|lia|lia].
Qed.
End Link.

(** ** Walking *)

Lemma walk_loop_read root va m L n : forall p t,
  pa_inv m L -> ptwf m L root -> path_ok p -> (length p + n = 2)%nat -> node m root p = Some t ->
  walk_loop pg_alloc va false n t m = Ok (node m t (idxs n va), m).
Proof.
  induction n as [|n IH]; intros p t P W Hp Hl Hn; cbn [walk_loop idxs node]; unram; [done|].
  destruct (pt_page m L root p t P W Hp Hn) as (_ & ? & ? & ? & ? & _).
  pose proof (idx_ok_PX (Z.of_nat (S n)) va ltac:(lia)) as Hi.
  pose proof (pte_at_range t _ Hi). cstep. unfold child at 1.
  destruct (bits _ PTE_V) eqn:EV; [|done]. cbn [mbind option_bind].
  apply (IH (p ++ [PX (Z.of_nat (S n)) va])); [done..| | |].
  - destruct Hp as [HF _]. split; [apply Forall_app; split; [done|by constructor]|]. rewrite length_app. cbn. lia.
  - rewrite length_app. cbn. lia.
  - rewrite node_app, Hn. cbn [mbind option_bind node]. unfold child. by rewrite EV.
Qed.

Lemma walk_read root va m L :
  pa_inv m L -> ptwf m L root -> va < MAXVA ->
  walk pg_alloc root va false m = Ok (default 0 (pt_leaf m root va), m).
Proof.
  intros P W Hva. unfold walk; unram. case_cmp.
  rewrite (bind_ok _ _ _ _ _ (walk_loop_read root va m L 2 [] root P W path_ok_nil eq_refl eq_refl)).
  unfold pt_leaf. by destruct (node m root (idxs 2 va)).
Qed.

Lemma walk_loop_alloc root va n : forall m L p t,
  pa_inv m L -> ptwf m L root -> path_ok p -> (length p + n = 2)%nat -> node m root p = Some t ->
  exists r m' L', walk_loop pg_alloc va true n t m = Ok (r, m') /\ walked root m L m' L' /\
    (r = None \/ r = node m' root (p ++ idxs n va) /\ r <> None).
Proof.
  induction n as [|n IH]; intros m L p t P W Hp Hl Hn; cbn [walk_loop idxs]; unram.
  { exists (Some t), m, L. split_and!; [done|by apply walked_refl|]. right. by rewrite app_nil_r. }
  destruct (pt_page m L root p t P W Hp Hn) as (HLt & ? & ? & ? & ? & _).
  set (i := PX (Z.of_nat (S n)) va). pose proof (idx_ok_PX (Z.of_nat (S n)) va ltac:(lia)) as Hi. fold i in Hi.
  pose proof (pte_at_range t i Hi).
  assert (path_ok (p ++ [i])) as Hpi.
  { destruct Hp as [HF _]. split; [apply Forall_app; split; [done|by constructor]|]. rewrite length_app. cbn. lia. }
  assert (length (p ++ [i]) + n = 2)%nat as Hl' by (rewrite length_app; cbn; lia).
  change (i :: idxs n va) with ([i] ++ idxs n va). rewrite app_assoc.
  cstep. destruct (bits _ PTE_V) eqn:EV.
  { apply (IH m L (p ++ [i])); try done. rewrite node_app, Hn. cbn [mbind option_bind node]. unfold child. by rewrite EV. }
  cbn [negb]. destruct (pa_alloc m L 1 P) as (c & m1 & E & Hc). unfold kalloc. rewrite (bind_ok _ _ _ _ _ E).
  destruct Hc as [[-> ->]|(Hc & HLc & P1 & S1)].
  { exists None, m, L. split_and!; [done|by apply walked_refl|by left]. }
  destruct (Z.eqb_spec c 0); [done|].
  assert (<[c := 1]> L !! c = Some 1) as HLc1 by (by rewrite lookup_insert_eq).
  pose proof (pa_range m1 _ c 1 P1 HLc1) as (_ & ? & ? & ? & ?). pose proof (pa_aligned m1 _ c 1 P1 HLc1) as Hal.
  destruct (memset_spec c 0 PGSIZE m1) as (m2 & E2 & S2 & Hz); unfold PGSIZE in *; [lia..|].
  rewrite (bind_ok _ _ _ _ _ E2). pose proof (proj1 S1). pose proof (proj1 (proj2 S1)).
  pose proof (proj1 S2). pose proof (proj1 (proj2 S2)).
  assert (exists q n, L !! q = Some n /\ q <= t /\ t + 4096 <= q + n * PGSIZE) as (q & k & Hq & Hq1 & Hq2)
    by (exists t, 1; unfold PGSIZE; split_and!; [done|lia..]).
  cstep. set (m3 := poke 8 m2 (pte_at t i) (Z.lor (PA2PTE c) PTE_V)).
  assert (same_off (fun x => ~ in_live PGSIZE L x) m m2) as S12.
  { eapply same_off_trans; [exact S1|exact S2|]. cbv beta. intros x [Hx|Hx]; [done|].
    intros (b & k' & Hb & Hxb). assert (c <> b) by congruence.
    destruct (pa_disjoint m1 (<[c := 1]> L) c 1 b k' P1) as [Hd|Hd];
      rewrite ?lookup_insert_eq, ?lookup_insert_ne; try done; unfold PGSIZE in *; lia. }
  assert (pa_inv m3 (<[c := 1]> L)) as P3.
  { apply (pa_poke m2 _ t 1); [|rewrite lookup_insert_ne by congruence; done|lia|change (Z.of_nat 8) with 8; lia].
    apply (pa_write m1); [done|]. apply (same_off_weaken _ _ _ _ S2). intros x Hx. exists c, 1. split; [done|lia]. }
  destruct (link_walked root t c i p m m2 m3 L P W Hp ltac:(lia) Hi Hn) as [Wk Hnew];
    [unfold child; by rewrite EV|done|done|lia|done|done|exact Hz|done|].
  destruct (IH m3 _ (p ++ [i]) c (wk_pa _ _ _ _ _ Wk) (wk_wf _ _ _ _ _ Wk) Hpi Hl' Hnew) as (r & m' & L' & Er & Wk' & Hr).
  exists r, m', L'. split_and!; [done|by eapply walked_trans|done].
Qed.

(** The leaf entry [walk] returns, or null. *)
Lemma walk_alloc root va m L :
  pa_inv m L -> ptwf m L root -> va < MAXVA ->
  exists r m' L', walk pg_alloc root va true m = Ok (r, m') /\ walked root m L m' L' /\
    (r = 0 \/ pt_leaf m' root va = Some r /\ r <> 0).
Proof.
  intros P W Hva. unfold walk; unram. case_cmp.
  destruct (walk_loop_alloc root va 2 m L [] root P W path_ok_nil eq_refl eq_refl) as (r & m' & L' & E & Wk & Hr).
  rewrite (bind_ok _ _ _ _ _ E). cbn [app] in Hr. destruct Hr as [->|[Hr Hnz]].
  - exists 0, m', L'. split_and!; [done..|by left].
  - destruct r as [t|]; [|done]. exists (pte_at t (PX 0 va)), m', L'. split_and!; [done..|right].
    unfold pt_leaf. rewrite <- Hr. split; [done|].
    destruct (pt_page m' L' root (idxs 2 va) t (wk_pa _ _ _ _ _ Wk) (wk_wf _ _ _ _ _ Wk) (path_ok_idxs va) ltac:(done))
      as (_ & ? & _). pose proof (PX_range 0 va). unfold pte_at. lia.
Qed.
End Walk.
