(* ===== verification/VmMap.v ===== *)
(** * Virtual memory: mapping and unmapping

    What [mappages] and [uvmunmap] do to the abstract page table. *)

From S2P Require Import Prelude CInt Memory KString Vm VmInv PageAlloc VmWalk.

Section Map.
Context {pg_alloc : Z -> M ram Z} {pg_free : Z -> M ram unit}.
Context {PA : PageAllocator PGSIZE pg_alloc pg_free}.

Lemma PX_same l va va' : 0 <= l -> va / 4096 = va' / 4096 -> PX l va = PX l va'.
Proof.
  intros Hl E. rewrite <- (PX_page l va), <- (PX_page l va') by done.
  pose proof (Z.div_mod va 4096). pose proof (Z.div_mod va' 4096). f_equal. lia.
Qed.

Lemma idxs_same n va va' : va / 4096 = va' / 4096 -> idxs n va = idxs n va'.
Proof. intros E. induction n; cbn [idxs]; [done|]. rewrite (PX_same _ va va'), IHn by (done || lia). done. Qed.

Lemma pt_leaf_same m root va va' : va / 4096 = va' / 4096 -> pt_leaf m root va = pt_leaf m root va'.
Proof.
  intros E. unfold pt_leaf. rewrite (idxs_same 2 va va' E), (PX_same 0 va va') by (done || lia). done.
Qed.
Lemma pt_get_same m root va va' : va / 4096 = va' / 4096 -> pt_get m root va = pt_get m root va'.
Proof. intros E. unfold pt_get. by rewrite (pt_leaf_same m root va va' E). Qed.

Lemma pt_leaf_range m L root va a :
  pa_inv m L -> ptwf m L root -> pt_leaf m root va = Some a ->
  exists t, node m root (idxs 2 va) = Some t /\ a = pte_at t (PX 0 va) /\ L !! t = Some 1 /\
    t <= a /\ a + 8 <= t + 4096 /\ 0 < t /\ ram_lo m <= t /\ t + 4096 <= ram_hi m /\ ram_hi m < 2 ^ 64.
Proof.
  intros P W. unfold pt_leaf. destruct (node m root (idxs 2 va)) as [t|] eqn:En; cbn; [|done]. intros [= <-].
  destruct (pt_page m L root _ t P W (path_ok_idxs va) En) as (? & ? & ? & ? & ? & _).
  pose proof (pte_at_range t (PX 0 va) (idx_ok_PX 0 va ltac:(lia))). exists t. split_and!; try done; lia.
Qed.

(** Writing a leaf entry changes that entry only. *)
Lemma leaf_write m L root va a v :
  pa_inv m L -> ptwf m L root -> pt_leaf m root va = Some a -> 0 <= va < MAXVA -> 0 <= v < 2 ^ 64 ->
  let m' := poke 8 m a v in
  grown root m L m' L /\
  (forall p, path_ok p -> node m' root p = node m root p) /\
  forall va', 0 <= va' < 2 ^ 39 ->
    pt_get m' root va' = if decide (va' / 4096 = va / 4096) then v else pt_get m root va'.
Proof.
  intros P W Hl Hva Hv m'. destruct (pt_leaf_range m L root va a P W Hl) as (t & Hn & -> & HLt & Ht1 & Ht2 & H0 & H1 & H2 & H3).
  pose proof (same_off_poke 8 m (pte_at t (PX 0 va)) v) as So. change (Z.of_nat 8) with 8 in So. fold m' in So.
  assert (forall p, path_ok p -> node m' root p = node m root p) as Hnode.
  { intros p Hp. apply node_same. intros p1 i p2 t' -> Hn'. pose proof Hp as [HF Hlen].
    apply Forall_app in HF as [HF1 HF2]. apply Forall_cons in HF2 as [Hi _]. rewrite length_app in Hlen. cbn in Hlen.
    assert (path_ok p1) as Hp1 by (split; [done|lia]).
    assert (t' <> t) as Hne.
    { intros ->. pose proof (pw_inj _ _ _ W p1 (idxs 2 va) t Hp1 (path_ok_idxs va) Hn' Hn) as E.
      apply (f_equal length) in E. rewrite length_idxs in E. lia. }
    pose proof (pte_at_range t' i Hi).
    destruct (pages_apart m L t' t P (pw_live _ _ _ W _ _ Hp1 Hn') HLt Hne);
      apply (same_off_peek _ _ _ _ _ So); cbv beta; intros x Hx Hy; lia. }
  assert (forall x, tabbyte m' root x <-> tabbyte m root x) as Htab.
  { intros x. unfold tabbyte. split; intros (p & t' & Hp & Hn' & Hx); exists p, t'; rewrite Hnode in * by done; done. }
  assert (ptwf m' L root) as W'.
  { split.
    - intros p t' Hp Hn'. rewrite Hnode in Hn' by done. by apply (pw_live _ _ _ W p).
    - intros p q t' Hp Hq Hn1 Hn2. rewrite Hnode in Hn1, Hn2 by done. by apply (pw_inj _ _ _ W p q t').
    - intros p t' i Hp Hlen Hi Hn'. rewrite Hnode in Hn' by done.
      assert (t' <> t) as Hne.
      { intros ->. pose proof (pw_inj _ _ _ W p (idxs 2 va) t Hp (path_ok_idxs va) Hn' Hn) as E.
        apply (f_equal length) in E. rewrite length_idxs in E. lia. }
      pose proof (pte_at_range t' i Hi). rewrite (same_off_peek _ _ _ _ _ So); [by apply (pw_ptr _ _ _ W p)|].
      destruct (pages_apart m L t' t P (pw_live _ _ _ W _ _ Hp Hn') HLt Hne); cbv beta; intros x Hx Hy; lia. }
  split_and!; [|done|].
  - split; [|done|done|intros; congruence|intros p t' Hp Hn'; by rewrite Hnode|intros x Hx; left; by apply Htab|].
    + apply (pa_poke m L t 1); [done..|change (Z.of_nat 8) with 8; unfold PGSIZE; lia].
    + apply (same_off_weaken _ _ _ _ So). cbv beta. intros x Hx. right. exists (idxs 2 va), t.
      split_and!; [apply path_ok_idxs|done|lia..].
  - intros va' Hva'. case_decide as E.
    + unfold pt_get, pt_leaf. rewrite (idxs_same 2 va' va E), (PX_same 0 va' va) by (done || lia).
      rewrite Hnode by apply path_ok_idxs. rewrite Hn. cbn [mbind option_bind]. by apply peek8_poke_eq.
    + unfold pt_get, pt_leaf. rewrite Hnode by apply path_ok_idxs.
      destruct (node m root (idxs 2 va')) as [t'|] eqn:En; cbn [mbind option_bind]; [|done].
      pose proof (pte_at_range t' (PX 0 va') (idx_ok_PX 0 va' ltac:(lia))).
      apply (same_off_peek _ _ _ _ _ So). cbv beta. intros x Hx Hy.
      destruct (decide (t' = t)) as [->|Hne].
      * pose proof (pw_inj _ _ _ W _ _ t (path_ok_idxs va') (path_ok_idxs va) En Hn) as Ei. cbn [idxs] in Ei.
        injection Ei as E2 E1. apply E. change MAXVA with (2 ^ 38) in Hva. apply PX_inj; [lia|lia|exact E2|exact E1|]. unfold pte_at in *. lia.
      * destruct (pages_apart m L t' t P (pw_live _ _ _ W _ _ (path_ok_idxs va') En) HLt Hne); lia.
Qed.

(** ** mappages *)

(** The table after the pages from [a] up to [b] were mapped to [pa] on. *)
Definition mapped (m m' : ram) (root a b pa perm : Z) : Prop :=
  forall va, 0 <= va < 2 ^ 39 ->
    pt_get m' root va = if decide (a <= va < b) then mkpte (pa + (va - va mod 4096 - a)) perm
                        else pt_get m root va.

(** One iteration of the loop. *)
Lemma mappages_step root a pa perm m L :
  pa_inv m L -> ptwf m L root -> (4096 | a) -> 0 <= a < MAXVA -> 0 <= perm < 1024 -> 0 <= pa < 2 ^ 64 ->
  bits (pt_get m root a) PTE_V = false ->
  exists r m1 L1, walk pg_alloc root a true m = Ok (r, m1) /\ walked root m L m1 L1 /\
    (r = 0 \/ r <> 0 /\ exists v, ld64 r m1 = Ok (v, m1) /\ bits v PTE_V = false /\
      let m2 := poke 8 m1 r (mkpte pa perm) in
      st64 r (mkpte pa perm) m1 = Ok (tt, m2) /\ grown root m L m2 L1 /\
      forall va, 0 <= va < 2 ^ 39 ->
        pt_get m2 root va = if decide (a <= va < a + 4096) then mkpte pa perm else pt_get m root va).
Proof.
  intros P W [ka Eka] Ha Hperm Hpa Hfree.
  destruct (walk_alloc root a m L P W) as (r & m1 & L1 & E & Wk & Hr); [lia|].
  exists r, m1, L1. split_and!; [done..|]. destruct Hr as [->|[Hl Hnz]]; [by left|right]. split; [done|].
  destruct (pt_leaf_range m1 L1 root a r (wk_pa _ _ _ _ _ Wk) (wk_wf _ _ _ _ _ Wk) Hl) as (t & _ & _ & _ & ? & ? & ? & ? & ? & ?).
  pose proof (mkpte_range pa perm Hpa Hperm) as Hv.
  exists (peek 8 m1 r). split_and!; [apply ld64_ok; bk| |].
  { rewrite <- (wk_get _ _ _ _ _ Wk) in Hfree. unfold pt_get in Hfree. by rewrite Hl in Hfree. }
  destruct (leaf_write m1 L1 root a r (mkpte pa perm) (wk_pa _ _ _ _ _ Wk) (wk_wf _ _ _ _ _ Wk) Hl Ha) as (G & _ & Hg); [lia|].
  split_and!; [apply st64_ok; bk|by eapply grown_trans; [apply Wk|]|].
  intros va Hva. rewrite Hg, (wk_get _ _ _ _ _ Wk) by done.
  pose proof (Z.div_mod va 4096). pose proof (Z.mod_pos_bound va 4096).
  assert (a / 4096 = ka) as Ea by (rewrite Eka; apply Z.div_mul; lia).
  case_decide; case_decide; [done|lia|lia|done].
Qed.

Lemma mappages_loop_S root last perm k a pa :
  mappages_loop pg_alloc root last perm (S k) a pa =
  (pte <- walk pg_alloc root a true ;;
   if pte =? 0 then ret (-1)
   else
     v <- ld64 pte ;;
     if bits v PTE_V then panic "mappages: remap"
     else
       st64 pte (mkpte pa perm) ;;;
       if a =? last then ret 0
       else mappages_loop pg_alloc root last perm k (u64 (a + PGSIZE)) (u64 (pa + PGSIZE))).
Proof. reflexivity. Qed.

Lemma mappages_loop_spec root perm n : forall a pa m L,
  let last := a + 4096 * Z.of_nat n in
  pa_inv m L -> ptwf m L root -> (4096 | a) -> 0 <= a -> last < MAXVA -> 0 <= perm < 1024 ->
  (4096 | pa) -> 0 <= pa -> pa + 4096 * Z.of_nat n < 2 ^ 64 ->
  (forall va, a <= va < last + 4096 -> bits (pt_get m root va) PTE_V = false) ->
  exists r b m' L', mappages_loop pg_alloc root last perm (S n) a pa m = Ok (r, m') /\
    grown root m L m' L' /\ (4096 | b) /\
    (r = 0 /\ b = last + 4096 \/ r = -1 /\ a <= b <= last) /\ mapped m m' root a b pa perm.
Proof.
  change MAXVA with (2 ^ 38). induction n as [|n IH]; intros a pa m L last P W Ha Ha0 Hlast Hperm Hpa Hpa0 Hpa1 Hfree.
  all: destruct (mappages_step root a pa perm m L P W Ha) as (r & m1 & L1 & E & Wk & Hr);
    [change MAXVA with (2 ^ 38); lia|done|lia|apply Hfree; lia|];
    rewrite mappages_loop_S, (bind_ok _ _ _ _ _ E).
  all: destruct Hr as [->|(Hnz & v & Ev & HV & Es & G & Hg)];
    [exists (-1), a, m1, L1; split_and!; [done|apply Wk|done|right; lia|];
     intros va Hva; rewrite decide_False by lia; apply (wk_get _ _ _ _ _ Wk)|].
  all: destruct (Z.eqb_spec r 0); [done|]; rewrite (bind_ok _ _ _ _ _ Ev), HV;
    rewrite (bind_ok _ _ _ _ _ Es); set (m2 := poke 8 m1 r (mkpte pa perm)) in *; destruct Ha as [ka Eka].
  - destruct (Z.eqb_spec a last); [|lia]. exists 0, (last + 4096), m2, L1.
    split_and!; [done|done|unfold last; exists (ka + 1); lia|by left|]. intros va Hva. rewrite Hg by done.
    pose proof (Z.div_mod va 4096). pose proof (Z.mod_pos_bound va 4096). unfold last in *.
    case_decide; case_decide; [|lia|lia|done]. f_equal. lia.
  - destruct (Z.eqb_spec a last); [lia|]. rewrite !u64_id by (unfold PGSIZE; lia). unfold PGSIZE.
    destruct (IH (a + 4096) (pa + 4096) m2 L1) as (r' & b & m' & L' & E' & G' & Hb & Hr' & Hm').
    { apply (wk_pa _ _ _ _ _ G). } { apply (wk_wf _ _ _ _ _ G). } { exists (ka + 1); lia. } { lia. } { lia. } { done. }
    { by apply Z.divide_add_r; [|exists 1]. } { lia. } { lia. }
    { intros va Hva. rewrite Hg by (change MAXVA with (2 ^ 38) in *; lia). rewrite decide_False by lia. apply Hfree. lia. }
    replace (a + 4096 + 4096 * Z.of_nat n) with last in * by lia.
    exists r', b, m', L'. split_and!; [exact E'|by eapply grown_trans|done|lia|].
    intros va Hva. rewrite Hm', Hg by done. pose proof (Z.div_mod va 4096). pose proof (Z.mod_pos_bound va 4096).
    case_decide; [rewrite decide_True by lia; f_equal; lia|].
    case_decide; [rewrite decide_True by lia|rewrite decide_False by lia; done].
    f_equal. assert (va / 4096 = ka) by (symmetry; apply Z.div_unique with (va - a); lia). lia.
Qed.

Lemma mappages_spec root va size pa perm m L :
  pa_inv m L -> ptwf m L root -> (4096 | va) -> (4096 | size) -> 0 < size -> 0 <= va -> va + size <= MAXVA ->
  0 <= perm < 1024 -> (4096 | pa) -> 0 <= pa -> pa + size <= 2 ^ 64 ->
  (forall a, va <= a < va + size -> bits (pt_get m root a) PTE_V = false) ->
  exists r b m' L', mappages pg_alloc root va size pa perm m = Ok (r, m') /\ grown root m L m' L' /\ (4096 | b) /\
    (r = 0 /\ b = va + size \/ r = -1 /\ va <= b < va + size) /\ mapped m m' root va b pa perm.
Proof.
  intros P W Hva [n En] Hs Hva0 Hmax Hperm Hpa Hpa0 Hpa1 Hfree. change MAXVA with (2 ^ 38) in Hmax.
  unfold mappages; unram. destruct (Z.eqb_spec size 0); [lia|]. rewrite !PGROUNDDOWN_eq, u64_id by lia. cbv zeta.
  destruct Hva as [kv Ekv].
  assert (va mod 4096 = 0) as -> by (rewrite Ekv; apply Z.mod_mul; lia). rewrite Z.sub_0_r.
  assert ((va + size - 1) mod 4096 = 4095) as ->.
  { symmetry. apply Z.mod_unique with (kv + n - 1); lia. }
  set (k := Z.to_nat (n - 1)). replace (va + size - 1 - 4095) with (va + 4096 * Z.of_nat k) by lia.
  destruct (Z.leb_spec va (va + 4096 * Z.of_nat k)); [|lia].
  replace (Z.to_nat ((va + 4096 * Z.of_nat k - va) / PGSIZE)) with k.
  2: { unfold PGSIZE. replace (va + 4096 * Z.of_nat k - va) with (Z.of_nat k * 4096) by lia.
       rewrite Z.div_mul by lia. lia. }
  destruct (mappages_loop_spec root perm k va pa m L) as (r & b & m' & L' & E & G & Hb & Hr & Hm); try done.
  { exists kv; lia. } { change MAXVA with (2 ^ 38). lia. } { lia. }
  { intros a Ha. apply Hfree. lia. }
  exists r, b, m', L'. split_and!; [done..|lia|done].
Qed.

(** The pages of a range that need not begin or end at a page. *)
Definition page_lo (va : Z) : Z := 4096 * (va / 4096).
Definition page_hi (va size : Z) : Z := 4096 * ((va + size - 1) / 4096 + 1).

Lemma page_range va size : 0 < size -> 0 <= va -> va + size <= MAXVA ->
  0 <= page_lo va <= va /\ va + size <= page_hi va size <= MAXVA /\ (4096 | page_lo va) /\ (4096 | page_hi va size - page_lo va).
Proof.
  intros Hs Hva Hmax. change MAXVA with (2 ^ 38) in *. unfold page_lo, page_hi.
  split_and!; try (Z.div_mod_to_equations; lia); [by exists (va / 4096); lia|].
  exists ((va + size - 1) / 4096 + 1 - va / 4096). lia.
Qed.

(** [mappages] maps the pages that the range touches. *)
Lemma mappages_pages root va size pa perm : 0 < size -> 0 <= va -> va + size <= MAXVA ->
  mappages pg_alloc root va size pa perm = mappages pg_alloc root (page_lo va) (page_hi va size - page_lo va) pa perm.
Proof.
  intros Hs Hva Hmax. destruct (page_range va size Hs Hva Hmax) as (Hl & Hh & _). change MAXVA with (2 ^ 38) in *.
  unfold mappages. destruct (Z.eqb_spec size 0), (Z.eqb_spec (page_hi va size - page_lo va) 0); try lia.
  replace (page_lo va + (page_hi va size - page_lo va) - 1) with (page_hi va size - 1) by lia.
  rewrite !PGROUNDDOWN_eq, !u64_id by lia.
  replace (page_lo va - page_lo va mod 4096) with (va - va mod 4096) by (unfold page_lo; Z.div_mod_to_equations; lia).
  by replace (page_hi va size - 1 - (page_hi va size - 1) mod 4096) with (va + size - 1 - (va + size - 1) mod 4096)
    by (unfold page_hi; Z.div_mod_to_equations; lia).
Qed.

(** ** uvmunmap *)

(** The table after the pages from [a] to [b] were unmapped and the pages [F]
    released. *)
Record unmapped (root : Z) (m : ram) (L : gmap Z Z) (m' : ram) (L' : gmap Z Z) (a b : Z) (F : Z -> Prop) : Prop := {
  um_pa : pa_inv m' L';
  um_wf : ptwf m' L' root;
  um_node : forall p, path_ok p -> node m' root p = node m root p;
  um_get : forall va, 0 <= va < 2 ^ 39 ->
    pt_get m' root va = if decide (a <= va < b) then 0 else pt_get m root va;
  um_freed : forall q, F q -> L' !! q = None;
  um_kept : forall q, ~ F q -> L' !! q = L !! q;
  um_off : same_off (fun x => ~ in_live PGSIZE L' x \/ tabbyte m root x) m m'
}.

(** The page [a + 4096 * j] of a range is mapped, and can be released. *)
Definition unmappable (m : ram) (L : gmap Z Z) (root a : Z) (do_free : bool) (j : Z) : Prop :=
  let v := pt_get m root (a + 4096 * j) in
  bits v PTE_V = true /\ PTE_FLAGS v <> PTE_V /\
  (do_free = true -> L !! PTE2PA v = Some 1 /\ ~ tabbyte m root (PTE2PA v)).

Definition freed (m : ram) (root a : Z) (do_free : bool) (n q : Z) : Prop :=
  do_free = true /\ exists j, 0 <= j < n /\ q = PTE2PA (pt_get m root (a + 4096 * j)).

Lemma tabbyte_node m m' root x :
  (forall p, path_ok p -> node m' root p = node m root p) -> tabbyte m' root x <-> tabbyte m root x.
Proof.
  intros Hn. unfold tabbyte. split; intros (p & t & Hp & H & Hx); exists p, t;
    [rewrite <- Hn by done|rewrite Hn by done]; done.
Qed.

(** Releasing a page that is not a table. *)
Lemma kfree_user m L root pa :
  pa_inv m L -> ptwf m L root -> L !! pa = Some 1 -> ~ tabbyte m root pa ->
  exists m1, pg_free pa m = Ok (tt, m1) /\ pa_inv m1 (delete pa L) /\ ptwf m1 (delete pa L) root /\
    same_off (fun x => ~ in_live PGSIZE (delete pa L) x) m m1 /\
    forall x, ~ in_live PGSIZE (delete pa L) x -> ~ tabbyte m root x.
Proof.
  intros P W HL Hnt. destruct (pa_free m L pa 1 P HL) as (m1 & E & P1 & S1).
  assert (forall x, ~ in_live PGSIZE (delete pa L) x -> ~ tabbyte m root x) as Hx.
  { intros x Hx (p & t & Hp & Hn & Hr). apply Hx. exists t, 1. rewrite lookup_delete_ne.
    - split; [by eapply (pw_live _ _ _ W)|unfold PGSIZE; lia].
    - intros ->. apply Hnt. exists p, t. split_and!; [done..|lia|lia]. }
  exists m1. split_and!; [done..| |by apply (same_off_weaken _ _ _ _ S1); cbv beta; tauto|done].
  apply (ptwf_frame m m1 L _ root _ W S1); [cbv beta; intros x [Hl _]; by apply Hx|].
  intros t n Ht Htab. rewrite lookup_delete_ne; [done|]. by intros ->.
Qed.

Lemma unmap_step m L root a do_free :
  pa_inv m L -> ptwf m L root -> (4096 | a) -> 0 <= a < MAXVA -> unmappable m L root a do_free 0 ->
  exists r v m1 m2 L2, walk pg_alloc root a false m = Ok (r, m) /\ r <> 0 /\ ld64 r m = Ok (v, m) /\
    v = pt_get m root a /\
    (if do_free then v <- ld64 r ;; kfree pg_free (PTE2PA v) else ret tt) m = Ok (tt, m1) /\
    st64 r 0 m1 = Ok (tt, m2) /\
    unmapped root m L m2 L2 a (a + 4096) (freed m root a do_free 1).
Proof.
  intros P W [ka Eka] Ha (HV & HF & Hfree). rewrite Z.mul_0_r, Z.add_0_r in *.
  assert (exists r, pt_leaf m root a = Some r) as [r Hl].
  { unfold pt_get in HV. destruct (pt_leaf m root a) as [r|]; [eauto|]. by rewrite bits_0 in HV. }
  destruct (pt_leaf_range m L root a r P W Hl) as (t & _ & _ & _ & ? & ? & ? & ? & ? & ?).
  assert (peek 8 m r = pt_get m root a) as Hpk by (unfold pt_get; by rewrite Hl).
  set (pa := PTE2PA (pt_get m root a)) in *.
  assert (exists m1 L1, (if do_free then v <- ld64 r ;; kfree pg_free (PTE2PA v) else ret tt) m = Ok (tt, m1) /\
    pa_inv m1 L1 /\ ptwf m1 L1 root /\ (forall p, path_ok p -> node m1 root p = node m root p) /\
    pt_leaf m1 root a = Some r /\ (forall va, pt_get m1 root va = pt_get m root va) /\
    ram_lo m1 = ram_lo m /\ ram_hi m1 = ram_hi m /\
    L1 = (if do_free then delete pa L else L) /\ same_off (fun x => ~ in_live PGSIZE L1 x) m m1)
    as (m1 & L1 & E1 & P1 & W1 & Hn1 & Hl1 & Hg1 & Hlo & Hhi & HL1 & S1).
  { destruct do_free.
    - destruct (Hfree eq_refl) as [HL Hnt].
      destruct (kfree_user m L root pa P W HL Hnt) as (m1 & E & P1 & W1 & S1 & Hx). exists m1, (delete pa L).
      assert (forall p, path_ok p -> node m1 root p = node m root p) as Hn.
      { intros p [Hp Hp']. apply (node_frame m m1 root _ S1 Hx); [done|lia]. }
      split_and!; try done.
      + cstep. rewrite Hpk. exact E.
      + unfold pt_leaf. rewrite Hn by apply path_ok_idxs. exact Hl.
      + intros va. by apply (pt_get_frame m m1 root _ va S1 Hx).
      + apply S1.
      + apply S1.
    - exists m, L. split_and!; try done. }
  destruct (leaf_write m1 L1 root a r 0 P1 W1 Hl1 Ha ltac:(lia)) as (G & Hn2 & Hg2).
  exists r, (peek 8 m r), m1, (poke 8 m1 r 0), L1. split_and!; try done.
  - rewrite (walk_read root a m L P W) by lia. by rewrite Hl.
  - lia.
  - apply ld64_ok. bk.
  - apply st64_ok. bk.
  - split.
    + apply (wk_pa _ _ _ _ _ G).
    + apply (wk_wf _ _ _ _ _ G).
    + intros p Hp. rewrite Hn2 by done. by apply Hn1.
    + intros va Hva. rewrite Hg2, Hg1 by done. pose proof (Z.div_mod va 4096). pose proof (Z.mod_pos_bound va 4096).
      assert (a / 4096 = ka) as Ea by (rewrite Eka; apply Z.div_mul; lia). case_decide; case_decide; [done|lia|lia|done].
    + intros q (-> & j & Hj & ->). replace (a + 4096 * j) with a by lia. rewrite HL1. apply lookup_delete_eq.
    + intros q Hq. rewrite HL1. destruct do_free; [|done]. rewrite lookup_delete_ne; [done|]. intros Eq. apply Hq.
      split; [done|]. exists 0. rewrite Z.mul_0_r, Z.add_0_r. split; [lia|by rewrite <- Eq].
    + eapply same_off_trans; [exact S1|apply (wk_off _ _ _ _ _ G)|]. cbv beta.
      intros x [Hx|[Hx|Hx]]; [by left|by left|right]. by apply (tabbyte_node m m1).
Qed.

Lemma unmapped_trans root m L m1 L1 m2 L2 a b c F F1 F2 :
  unmapped root m L m1 L1 a b F1 -> unmapped root m1 L1 m2 L2 b c F2 -> a <= b <= c ->
  (forall q, F q <-> F1 q \/ F2 q) -> (forall q, F1 q -> ~ F2 q) ->
  unmapped root m L m2 L2 a c F.
Proof.
  intros A B Hab HF Hdis. split.
  - apply (um_pa _ _ _ _ _ _ _ _ B).
  - apply (um_wf _ _ _ _ _ _ _ _ B).
  - intros p Hp. rewrite (um_node _ _ _ _ _ _ _ _ B) by done. by apply (um_node _ _ _ _ _ _ _ _ A).
  - intros va Hva. rewrite (um_get _ _ _ _ _ _ _ _ B), (um_get _ _ _ _ _ _ _ _ A) by done.
    repeat case_decide; try done; lia.
  - intros q Hq. apply HF in Hq as [Hq|Hq]; [|by apply (um_freed _ _ _ _ _ _ _ _ B)].
    rewrite (um_kept _ _ _ _ _ _ _ _ B) by auto. by apply (um_freed _ _ _ _ _ _ _ _ A).
  - intros q Hq. rewrite (um_kept _ _ _ _ _ _ _ _ B), (um_kept _ _ _ _ _ _ _ _ A); [done|..]; intros ?; apply Hq, HF; auto.
  - eapply same_off_trans; [apply (um_off _ _ _ _ _ _ _ _ A)|apply (um_off _ _ _ _ _ _ _ _ B)|]. cbv beta.
    intros x [[Hx|Hx]|[Hx|Hx]]; [|by right|by left|right].
    + left. intros (q & n & Hq & Hxq). apply Hx. exists q, n. split; [|done].
      rewrite (um_kept _ _ _ _ _ _ _ _ B) in Hq; [done|]. intros HF2. by rewrite (um_freed _ _ _ _ _ _ _ _ B) in Hq.
    + apply (tabbyte_node m m1); [|done]. apply (um_node _ _ _ _ _ _ _ _ A).
Qed.

Lemma uvmunmap_loop_spec root do_free n : forall a m L,
  let last := a + 4096 * Z.of_nat n in
  pa_inv m L -> ptwf m L root -> (4096 | a) -> 0 <= a -> last <= MAXVA ->
  (forall j, 0 <= j < Z.of_nat n -> unmappable m L root a do_free j) ->
  (forall i j, do_free = true -> 0 <= i < Z.of_nat n -> 0 <= j < Z.of_nat n ->
    PTE2PA (pt_get m root (a + 4096 * i)) = PTE2PA (pt_get m root (a + 4096 * j)) -> i = j) ->
  exists m' L', uvmunmap_loop pg_alloc pg_free root last do_free n a m = Ok (tt, m') /\
    unmapped root m L m' L' a last (freed m root a do_free (Z.of_nat n)).
Proof.
  induction n as [|n IH]; intros a m L last P W Ha Ha0 Hlast Hu Hinj; cbn [uvmunmap_loop]; unram.
  - destruct (Z.ltb_spec a last); [lia|]. exists m, L. split; [done|]. split; try done.
    + intros va Hva. rewrite decide_False by lia. done.
    + intros q (_ & j & Hj & _). lia.
  - destruct (Z.ltb_spec a last); [|lia]. change MAXVA with (2 ^ 38) in Hlast.
    destruct (unmap_step m L root a do_free P W Ha) as (r & v & m1 & m2 & L2 & E & Hnz & Ev & Hv & Ef & Es & U);
      [change MAXVA with (2 ^ 38); lia|apply Hu; lia|].
    rewrite (bind_ok _ _ _ _ _ E). destruct (Z.eqb_spec r 0); [done|]. rewrite (bind_ok _ _ _ _ _ Ev).
    destruct (Hu 0 ltac:(lia)) as (HV & HF & Hfree). rewrite Z.mul_0_r, Z.add_0_r, <- Hv in HV, HF. rewrite HV. cbn [negb].
    rewrite (bind_ok _ _ _ _ _ Ev). destruct (Z.eqb_spec (PTE_FLAGS v) PTE_V); [done|].
    rewrite (bind_ok _ _ _ _ _ Ef), (bind_ok _ _ _ _ _ Es). rewrite u64_id by (unfold PGSIZE; lia). unfold PGSIZE.
    assert (forall j, 0 <= j < Z.of_nat n -> pt_get m2 root (a + 4096 + 4096 * j) = pt_get m root (a + 4096 * (j + 1))) as Hg.
    { intros j Hj. rewrite (um_get _ _ _ _ _ _ _ _ U) by (change MAXVA with (2 ^ 38) in *; lia).
      rewrite decide_False by lia. f_equal. lia. }
    destruct (IH (a + 4096) m2 L2) as (m' & L' & E' & U').
    { apply (um_pa _ _ _ _ _ _ _ _ U). } { apply (um_wf _ _ _ _ _ _ _ _ U). }
    { destruct Ha as [ka ->]. exists (ka + 1). lia. } { lia. } { change MAXVA with (2 ^ 38). lia. }
    { intros j Hj. destruct (Hu (j + 1) ltac:(lia)) as (HV' & HF' & Hf'). unfold unmappable. rewrite Hg by done.
      split_and!; [done..|]. intros Hd. destruct (Hf' Hd) as [HL' Hnt]. split.
      - rewrite (um_kept _ _ _ _ _ _ _ _ U); [done|]. intros (_ & i & Hi & Eq).
        replace (a + 4096 * i) with (a + 4096 * 0) in Eq by lia. apply Hinj in Eq; [lia|done|lia|lia].
      - intros Ht. apply Hnt. apply (tabbyte_node m m2); [|done]. apply (um_node _ _ _ _ _ _ _ _ U). }
    { intros i j Hd Hi Hj Eq. rewrite !Hg in Eq by done. apply Hinj in Eq; [lia|done|lia|lia]. }
    replace (a + 4096 + 4096 * Z.of_nat n) with last in * by lia.
    exists m', L'. split; [done|].
    eapply (unmapped_trans root m L m2 L2 m' L' a (a + 4096) last _ _ _ U U'); [lia| |].
    + intros q. unfold freed. split.
      * intros (Hd & j & Hj & ->). destruct (decide (j = 0)) as [->|]; [left|right]; (split; [done|]).
        -- exists 0. split; [lia|done].
        -- exists (j - 1). rewrite Hg by lia. split; [lia|]. do 2 f_equal. lia.
      * intros [(Hd & j & Hj & ->)|(Hd & j & Hj & ->)]; (split; [done|]); [by exists j; split; [lia|]|].
        exists (j + 1). rewrite Hg by lia. split; [lia|done].
    + intros q (Hd & i & Hi & ->) (_ & j & Hj & Eq). rewrite Hg in Eq by lia. apply Hinj in Eq; [lia|done|lia|lia].
Qed.

Lemma uvmunmap_spec root va npages do_free m L :
  pa_inv m L -> ptwf m L root -> (4096 | va) -> 0 <= va -> 0 <= npages -> va + npages * 4096 <= MAXVA ->
  (forall j, 0 <= j < npages -> unmappable m L root va do_free j) ->
  (forall i j, do_free = true -> 0 <= i < npages -> 0 <= j < npages ->
    PTE2PA (pt_get m root (va + 4096 * i)) = PTE2PA (pt_get m root (va + 4096 * j)) -> i = j) ->
  exists m' L', uvmunmap pg_alloc pg_free root va npages do_free m = Ok (tt, m') /\
    unmapped root m L m' L' va (va + npages * 4096) (freed m root va do_free npages).
Proof.
  intros P W [kv Ekv] H0 Hn Hmax Hu Hinj. change MAXVA with (2 ^ 38) in Hmax. unfold uvmunmap, PGSIZE; unram.
  assert (va mod 4096 = 0) as -> by (rewrite Ekv; apply Z.mod_mul; lia). cbn [Z.eqb negb].
  rewrite (u64_id (npages * 4096)), u64_id by lia.
  assert ((va + npages * 4096 - va + 4096 - 1) / 4096 = npages) as ->.
  { symmetry. apply Z.div_unique with 4095; lia. }
  destruct (uvmunmap_loop_spec root do_free (Z.to_nat npages) va m L) as (m' & L' & E & U);
    rewrite ?Z2Nat.id by lia; try done; [exists kv; lia|change MAXVA with (2 ^ 38); lia|].
  rewrite Z2Nat.id in * by lia. replace (va + npages * 4096) with (va + 4096 * npages) by lia. by exists m', L'.
Qed.
End Map.
