(* ===== verification/VmUser.v ===== *)
(** * Virtual memory: user address spaces

    [uvm m L root n] says that the table at [root] maps exactly the first [n]
    user pages, each to its own live page that is no table.  Growing and
    shrinking an address space go from one such state to another ([uvm_to]):
    pages of others are kept, nothing is leaked, and the user bytes below both
    sizes stay. *)

From S2P Require Import Prelude CInt Memory KString Vm VmInv PageAlloc VmWalk VmMap.

Section User.
Context {pg_alloc : Z -> M ram Z} {pg_free : Z -> M ram unit}.
Context {PA : PageAllocator PGSIZE pg_alloc pg_free}.

(** The physical page of user page [k], and a user byte. *)
Definition upage (m : ram) (root k : Z) : Z := PTE2PA (pt_get m root (k * 4096)).
Definition ubyte (m : ram) (root va : Z) : Z := byte_at m (PTE2PA (pt_get m root va) + va mod 4096).

Record uvm (m : ram) (L : gmap Z Z) (root n : Z) : Prop := {
  uv_pa : pa_inv m L;
  uv_wf : ptwf m L root;
  uv_n : 0 <= n /\ n * 4096 <= TRAPFRAME;
  uv_page : forall k, 0 <= k < n ->
    bits (pt_get m root (k * 4096)) PTE_V = true /\ PTE_FLAGS (pt_get m root (k * 4096)) <> PTE_V /\
    L !! upage m root k = Some 1 /\ ~ tabbyte m root (upage m root k);
  uv_inj : forall j k, 0 <= j < n -> 0 <= k < n -> upage m root j = upage m root k -> j = k;
  uv_free : forall va, n * 4096 <= va < TRAPFRAME -> bits (pt_get m root va) PTE_V = false;
  uv_tramp : forall va, TRAPFRAME <= va < MAXVA ->
    bits (pt_get m root va) PTE_V = true -> bits (pt_get m root va) PTE_U = false;
  uv_top : forall va, MAXVA <= va < 2 ^ 39 -> bits (pt_get m root va) PTE_V = false
}.

(** The page [q] belongs to the address space. *)
Definition owned (m : ram) (root n q : Z) : Prop :=
  tabbyte m root q \/ exists j, 0 <= j < n /\ q = upage m root j.

Record uvm_to (root : Z) (m : ram) (L : gmap Z Z) (n : Z) (m' : ram) (L' : gmap Z Z) (n' : Z) : Prop := {
  ut_uvm : uvm m' L' root n';
  ut_keep : forall q k, L !! q = Some k -> ~ owned m root n q ->
    L' !! q = Some k /\ ~ owned m' root n' q /\ forall x, q <= x < q + k * 4096 -> byte_at m' x = byte_at m x;
  ut_own : forall q k, L' !! q = Some k -> L !! q = None \/ owned m root n q -> owned m' root n' q;
  ut_same : forall va, 0 <= va < Z.min n n' * 4096 ->
    pt_get m' root va = pt_get m root va /\ ubyte m' root va = ubyte m root va;
  ut_top : forall va, TRAPFRAME <= va < 2 ^ 39 -> pt_get m' root va = pt_get m root va;
  ut_ram : ram_lo m' = ram_lo m /\ ram_hi m' = ram_hi m
}.

Lemma uvm_to_refl root m L n : uvm m L root n -> uvm_to root m L n m L n.
Proof. intros U. split; try done. intros q k Hq [Hn|Hn]; [congruence|done]. Qed.

Lemma uvm_to_trans root m L n m1 L1 n1 m2 L2 n2 :
  uvm_to root m L n m1 L1 n1 -> uvm_to root m1 L1 n1 m2 L2 n2 -> Z.min n n2 <= n1 ->
  uvm_to root m L n m2 L2 n2.
Proof.
  intros A B Hn. split.
  - apply (ut_uvm _ _ _ _ _ _ _ B).
  - intros q k Hq Ho. destruct (ut_keep _ _ _ _ _ _ _ A q k Hq Ho) as (Hq1 & Ho1 & Hb1).
    destruct (ut_keep _ _ _ _ _ _ _ B q k Hq1 Ho1) as (Hq2 & Ho2 & Hb2). split_and!; [done..|].
    intros x Hx. by rewrite Hb2, Hb1.
  - intros q k Hq Ho. apply (ut_own _ _ _ _ _ _ _ B q k Hq). destruct (L1 !! q) as [k1|] eqn:E; [right|by left].
    by apply (ut_own _ _ _ _ _ _ _ A q k1).
  - intros va Hva. destruct (ut_same _ _ _ _ _ _ _ A va ltac:(lia)) as [G1 U1].
    destruct (ut_same _ _ _ _ _ _ _ B va ltac:(lia)) as [G2 U2]. split; congruence.
  - intros va Hva. rewrite (ut_top _ _ _ _ _ _ _ B) by done. by apply (ut_top _ _ _ _ _ _ _ A).
  - pose proof (ut_ram _ _ _ _ _ _ _ A) as []. pose proof (ut_ram _ _ _ _ _ _ _ B) as []. split; congruence.
Qed.

(** ** Frames *)

Lemma not_tab_block m L root q k x :
  pa_inv m L -> ptwf m L root -> L !! q = Some k -> ~ tabbyte m root q -> q <= x < q + k * 4096 -> ~ tabbyte m root x.
Proof.
  intros P W Hq Hn Hx (p & t & Hp & Ht & Hr). pose proof (pw_live _ _ _ W p t Hp Ht) as HLt.
  destruct (decide (t = q)) as [->|Hne]; [apply Hn; exists p, q; split_and!; [done..|lia|lia]|].
  destruct (pa_disjoint m L t 1 q k P HLt Hq Hne); unfold PGSIZE in *; lia.
Qed.

Lemma grown_bytes root m L m' L' q k x :
  grown root m L m' L' -> pa_inv m L -> ptwf m L root -> L !! q = Some k -> ~ tabbyte m root q ->
  q <= x < q + k * 4096 -> byte_at m' x = byte_at m x.
Proof.
  intros G P W Hq Hn Hx. apply (wk_off _ _ _ _ _ G). intros [Hl|Ht].
  - apply Hl. exists q, k. by unfold PGSIZE.
  - by apply (not_tab_block m L root q k x).
Qed.

Lemma grown_tab root m L m' L' q k :
  grown root m L m' L' -> pa_inv m L -> L !! q = Some k -> ~ tabbyte m root q -> ~ tabbyte m' root q.
Proof.
  intros G P Hq Hn Ht. destruct (wk_tab _ _ _ _ _ G q Ht) as [|Hl]; [done|]. apply Hl. exists q, k.
  pose proof (pa_range m L q k P Hq) as (? & _). unfold PGSIZE. split; [done|lia].
Qed.

(** A fresh page with its bytes set, before it is mapped. *)
Lemma fresh_page root m L c m1 :
  pa_inv m L -> ptwf m L root -> L !! c = None -> pa_inv m1 (<[c := 1]> L) ->
  same_off (fun x => ~ in_live PGSIZE L x) m m1 ->
  ptwf m1 (<[c := 1]> L) root /\ (forall va, pt_get m1 root va = pt_get m root va) /\
  (forall x, tabbyte m1 root x <-> tabbyte m root x) /\
  (forall q k x, L !! q = Some k -> q <= x < q + k * 4096 -> byte_at m1 x = byte_at m x) /\
  ~ tabbyte m1 root c.
Proof.
  intros P W HL P1 S1.
  assert (forall x, ~ in_live PGSIZE L x -> ~ tabbyte m root x) as Hx.
  { intros x Hx Ht. apply Hx. by apply (tabbyte_live m L root). }
  assert (forall x, tabbyte m1 root x <-> tabbyte m root x) as Ht.
  { intros x. apply (tabbyte_frame m m1 root _ x S1 Hx). }
  split_and!; [|intros va; by apply (pt_get_frame m m1 root _ va S1 Hx)|done| |].
  - apply (ptwf_frame m m1 L _ root _ W S1 Hx). intros t n Htn _. rewrite lookup_insert_ne by congruence. done.
  - intros q k x Hq Hr. apply S1. intros Hl. apply Hl. exists q, k. by unfold PGSIZE.
  - rewrite Ht. intros Hc. apply (tabbyte_live m L root) in Hc as (q & k & Hq & Hr); [|done].
    assert (c <> q) as Hne by congruence. pose proof (pa_range m1 _ c 1 P1 ltac:(by rewrite lookup_insert_eq)) as (_ & ? & _).
    destruct (pa_disjoint m1 (<[c := 1]> L) c 1 q k P1) as [Hd|Hd]; rewrite ?lookup_insert_eq, ?lookup_insert_ne;
      try done; unfold PGSIZE in *; lia.
Qed.

(** ** Adding a page *)

Lemma TRAPFRAME_eq : TRAPFRAME = 2 ^ 38 - 8192.
Proof. reflexivity. Qed.
Lemma MAXVA_eq : MAXVA = 2 ^ 38.
Proof. reflexivity. Qed.

Lemma upage_get m m' root k :
  pt_get m' root (k * 4096) = pt_get m root (k * 4096) -> upage m' root k = upage m root k.
Proof. unfold upage. by intros ->. Qed.

Section AddPage.
Context (root : Z) (m : ram) (L : gmap Z Z) (n c perm : Z) (m1 : ram).
Context (U : uvm m L root n) (Hroom : (n + 1) * 4096 <= TRAPFRAME) (Hperm : 0 <= perm < 1024) (Hleaf : Z.lor perm 1 <> 1).
Context (HL : L !! c = None) (P1 : pa_inv m1 (<[c := 1]> L)) (S1 : same_off (fun x => ~ in_live PGSIZE L x) m m1).

Lemma add_range : 0 < c /\ c + 4096 < 2 ^ 64 /\ (4096 | c) /\ (<[c := 1]> L : gmap Z Z) !! c = Some 1.
Proof using P1.
  assert ((<[c := 1]> L : gmap Z Z) !! c = Some 1) as Hc by (by rewrite lookup_insert_eq).
  pose proof (pa_range m1 _ c 1 P1 Hc) as (_ & ? & ? & ? & ?). pose proof (pa_aligned m1 _ c 1 P1 Hc).
  unfold PGSIZE in *. split_and!; [lia|lia|done|done].
Qed.

(** The state after [mappages] took some table pages and mapped [c], or not. *)
Lemma add_grown m' L' (b : bool) :
  grown root m1 (<[c := 1]> L) m' L' ->
  (forall va, 0 <= va < 2 ^ 39 -> pt_get m' root va =
    if decide (b = true /\ n * 4096 <= va < (n + 1) * 4096) then mkpte c perm else pt_get m root va) ->
  (forall k, 0 <= k < n -> upage m' root k = upage m root k /\ L' !! upage m root k = Some 1 /\
     ~ tabbyte m' root (upage m root k) /\
     forall x, upage m root k <= x < upage m root k + 4096 -> byte_at m' x = byte_at m x) /\
  (forall q k, L !! q = Some k -> ~ tabbyte m root q ->
     L' !! q = Some k /\ ~ tabbyte m' root q /\ forall x, q <= x < q + k * 4096 -> byte_at m' x = byte_at m x) /\
  (L' !! c = Some 1 /\ ~ tabbyte m' root c /\ forall x, c <= x < c + 4096 -> byte_at m' x = byte_at m1 x) /\
  (forall q k, L' !! q = Some k -> q <> c -> L !! q = None \/ tabbyte m root q -> tabbyte m' root q).
Proof using U HL P1 S1 Hroom.
  intros G Hg. pose proof add_range as (Hc0 & Hc1 & Hca & Hcl). pose proof (uv_n _ _ _ _ U).
  pose proof (uv_pa _ _ _ _ U) as P. pose proof (uv_wf _ _ _ _ U) as W. rewrite TRAPFRAME_eq in *.
  destruct (fresh_page root m L c m1 P W HL P1 S1) as (W1 & Hg1 & Ht1 & Hb1 & Hnt).
  assert (forall q k, L !! q = Some k -> ~ tabbyte m root q ->
     L' !! q = Some k /\ ~ tabbyte m' root q /\ forall x, q <= x < q + k * 4096 -> byte_at m' x = byte_at m x) as Hold.
  { intros q k Hq Hn. assert ((<[c := 1]> L : gmap Z Z) !! q = Some k) as Hq1 by (rewrite lookup_insert_ne by congruence; done).
    rewrite <- Ht1 in Hn. split_and!.
    - by apply (wk_old _ _ _ _ _ G).
    - by apply (grown_tab root m1 _ m' L' q k G P1).
    - intros x Hx. rewrite (grown_bytes root m1 _ m' L' q k x G P1 W1) by done. by apply (Hb1 q k). }
  split; [|split; [done|split]].
  - intros k Hk. destruct (uv_page _ _ _ _ U k Hk) as (_ & _ & Hlk & Hnk).
    assert (upage m' root k = upage m root k) as E.
    { apply upage_get. rewrite Hg by (try rewrite MAXVA_eq; lia). by rewrite decide_False by lia. }
    split; [done|]. destruct (Hold _ 1 Hlk Hnk) as (? & ? & Hb). split_and!; [done..|]. intros x Hx. apply Hb. lia.
  - split_and!; [by apply (wk_old _ _ _ _ _ G)|by apply (grown_tab root m1 _ m' L' c 1 G P1)|].
    intros x Hx. apply (grown_bytes root m1 _ m' L' c 1 x G P1 W1); [done..|lia].
  - intros q k Hq Hne Ho. destruct ((<[c := 1]> L : gmap Z Z) !! q) as [k1|] eqn:E.
    + rewrite lookup_insert_ne in E by done. destruct Ho as [Ho|Ho]; [congruence|].
      apply Ht1 in Ho as (p & t & Hp & Hn & Hx). exists p, t. split_and!; [done|by apply (wk_node _ _ _ _ _ G)|lia..].
    + by apply (wk_new _ _ _ _ _ G q k).
Qed.

Lemma add_mapped m' L' :
  grown root m1 (<[c := 1]> L) m' L' ->
  (forall va, 0 <= va < 2 ^ 39 -> pt_get m' root va =
    if decide (n * 4096 <= va < (n + 1) * 4096) then mkpte c perm else pt_get m root va) ->
  uvm_to root m L n m' L' (n + 1).
Proof using U HL P1 S1 Hroom Hperm Hleaf.
  intros G Hg. pose proof add_range as (Hc0 & Hc1 & Hca & Hcl). pose proof (uv_n _ _ _ _ U) as [Hn0 Hn1].
  destruct (add_grown m' L' true G) as (Hu & Hold & (HcL & Hct & Hcb) & Hnew).
  { intros va Hva. rewrite Hg by done. apply decide_ext. tauto. }
  rewrite TRAPFRAME_eq in *.
  assert (upage m' root n = c) as Hun.
  { unfold upage. rewrite Hg by (try rewrite MAXVA_eq; lia). rewrite decide_True by lia. apply mkpte_pa; [lia|done|done]. }
  assert (forall k, 0 <= k < n -> upage m root k <> c) as Hnc.
  { intros k Hk E. destruct (uv_page _ _ _ _ U k Hk) as (_ & _ & Hl & _). congruence. }
  assert (forall j, 0 <= j < n + 1 -> j = n \/ (0 <= j < n /\ upage m' root j = upage m root j)) as Hj.
  { intros j Hj. destruct (decide (j = n)); [by left|right]. split; [lia|]. apply Hu. lia. }
  split.
  - split.
    + apply (wk_pa _ _ _ _ _ G).
    + apply (wk_wf _ _ _ _ _ G).
    + rewrite TRAPFRAME_eq. lia.
    + intros k Hk. destruct (Hj k Hk) as [->|[Hk' E]].
      * rewrite Hun. rewrite Hg, decide_True by (try rewrite MAXVA_eq; lia).
        rewrite mkpte_V, mkpte_flags by (done || lia). split_and!; done.
      * rewrite E. rewrite Hg, decide_False by (try rewrite MAXVA_eq; lia).
        destruct (uv_page _ _ _ _ U k Hk') as (? & ? & _ & _). destruct (Hu k Hk') as (_ & ? & ? & _). done.
    + intros j k Hj' Hk E. destruct (Hj j Hj') as [->|[Hj1 Ej]], (Hj k Hk) as [->|[Hk1 Ek]]; [done| | |].
      * rewrite Hun, Ek in E. by apply Hnc in Hk1.
      * rewrite Hun, Ej in E. by apply Hnc in Hj1.
      * rewrite Ej, Ek in E. by apply (uv_inj _ _ _ _ U).
    + intros va Hva. rewrite Hg, decide_False by (try rewrite MAXVA_eq; rewrite TRAPFRAME_eq in *; lia).
      apply (uv_free _ _ _ _ U). lia.
    + intros va Hva. rewrite TRAPFRAME_eq, MAXVA_eq in Hva. rewrite Hg, decide_False by lia. by apply (uv_tramp _ _ _ _ U).
    + intros va Hva. rewrite MAXVA_eq in Hva. rewrite Hg, decide_False by lia. by apply (uv_top _ _ _ _ U).
  - intros q k Hq Ho. assert (~ tabbyte m root q) as Hnt by (intros ?; apply Ho; by left).
    destruct (Hold q k Hq Hnt) as (? & ? & ?). split_and!; [done| |done].
    intros [Ht|(j & Hj' & ->)]; [done|]. destruct (Hj j Hj') as [->|[Hj1 Ej]]; [congruence|].
    apply Ho. right. exists j. split; [lia|done].
  - intros q k Hq Ho. destruct (decide (q = c)) as [->|Hne].
    { right. exists n. split; [lia|done]. }
    destruct Ho as [Ho|[Ho|(j & Hj' & ->)]].
    + left. apply (Hnew q k Hq Hne). by left.
    + left. apply (Hnew q k Hq Hne). by right.
    + right. exists j. split; [lia|]. symmetry. by apply Hu.
  - intros va Hva. rewrite Z.min_l in Hva by lia. rewrite Hg, decide_False by (try rewrite MAXVA_eq; lia).
    split; [done|]. unfold ubyte. rewrite Hg, decide_False by (try rewrite MAXVA_eq; lia).
    pose proof (Z.div_mod va 4096). pose proof (Z.mod_pos_bound va 4096).
    rewrite (pt_get_same m root va (va / 4096 * 4096)) by (rewrite Z.div_mul by lia; done).
    apply (Hu (va / 4096)); [split; [apply Z.div_pos; lia|apply Z.div_lt_upper_bound; lia]|]. unfold upage. lia.
  - intros va Hva. rewrite TRAPFRAME_eq in Hva. rewrite Hg, decide_False by (try done; lia). done.
  - destruct (wk_off _ _ _ _ _ G) as (-> & -> & _). destruct S1 as (-> & -> & _). done.
Qed.

Lemma add_failed m' L' :
  grown root m1 (<[c := 1]> L) m' L' ->
  (forall va, 0 <= va < 2 ^ 39 -> pt_get m' root va = pt_get m root va) ->
  exists m2, pg_free c m' = Ok (tt, m2) /\ uvm_to root m L n m2 (delete c L') n /\
    forall va, 0 <= va < 2 ^ 39 -> pt_get m2 root va = pt_get m root va.
Proof using All.
  intros G Hg. pose proof (uv_n _ _ _ _ U) as [Hn0 Hn1].
  destruct (add_grown m' L' false G) as (Hu & Hold & (HcL & Hct & Hcb) & Hnew).
  { intros va Hva. rewrite Hg, decide_False by (try done; intros [? _]; done). done. }
  destruct (kfree_user m' L' root c (wk_pa _ _ _ _ _ G) (wk_wf _ _ _ _ _ G) HcL Hct) as (m2 & E & P2 & W2 & S2 & Hx2).
  assert (forall va, 0 <= va < 2 ^ 39 -> pt_get m2 root va = pt_get m root va) as Hg2.
  { intros va Hva. rewrite (pt_get_frame m' m2 root _ va S2 Hx2). by apply Hg. }
  assert (forall x, tabbyte m2 root x <-> tabbyte m' root x) as Ht2 by (intros x; by apply (tabbyte_frame m' m2 root _ x S2)).
  rewrite TRAPFRAME_eq in *.
  assert (forall k, 0 <= k < n -> upage m2 root k = upage m root k) as Hup.
  { intros k Hk. apply upage_get, Hg2. lia. }
  assert (forall q k, L !! q = Some k -> ~ tabbyte m root q ->
    delete c L' !! q = Some k /\ ~ tabbyte m2 root q /\ forall x, q <= x < q + k * 4096 -> byte_at m2 x = byte_at m x) as Hold2.
  { intros q k Hq Hnt. destruct (Hold q k Hq Hnt) as (Hq' & Hn' & Hb). assert (delete c L' !! q = Some k) as Hd
      by (rewrite lookup_delete_ne by congruence; done).
    split_and!; [done|by rewrite Ht2|]. intros x Hx. rewrite <- Hb by done. apply S2. intros Hl. apply Hl. exists q, k. by unfold PGSIZE. }
  exists m2. split_and!; [done| |done]. split.
  - split; [done|done|rewrite TRAPFRAME_eq; lia|..].
    + intros k Hk. rewrite (Hup k Hk), (Hg2 (k * 4096)) by (try rewrite MAXVA_eq; lia).
      destruct (uv_page _ _ _ _ U k Hk) as (? & ? & Hl & Hn). destruct (Hold2 _ 1 Hl Hn) as (? & ? & _). done.
    + intros j k Hj Hk. rewrite !Hup by done. by apply (uv_inj _ _ _ _ U).
    + intros va Hva. rewrite TRAPFRAME_eq in Hva. rewrite Hg2 by (try rewrite MAXVA_eq; lia). apply (uv_free _ _ _ _ U). done.
    + intros va Hva. rewrite TRAPFRAME_eq, MAXVA_eq in Hva. rewrite Hg2 by lia. by apply (uv_tramp _ _ _ _ U).
    + intros va Hva. rewrite MAXVA_eq in Hva. rewrite Hg2 by lia. by apply (uv_top _ _ _ _ U).
  - intros q k Hq Ho. destruct (Hold2 q k Hq) as (? & Hn & ?); [by intros ?; apply Ho; left|].
    split_and!; [done| |done]. intros [Ht|(j & Hj & ->)]; [done|]. apply Ho. right. exists j. by rewrite Hup.
  - intros q k Hq Ho. apply lookup_delete_Some in Hq as [Hne Hq].
    destruct Ho as [Ho|[Ho|(j & Hj & ->)]]; [| |right; exists j; by rewrite Hup].
    all: left; apply Ht2; apply (Hnew q k Hq); [done|auto].
  - intros va Hva. rewrite Z.min_id in Hva. rewrite Hg2 by (try rewrite MAXVA_eq; lia). split; [done|].
    unfold ubyte. rewrite Hg2 by (try rewrite MAXVA_eq; lia).
    pose proof (Z.div_mod va 4096). pose proof (Z.mod_pos_bound va 4096).
    assert (0 <= va / 4096 < n) as Hk by (split; [apply Z.div_pos; lia|apply Z.div_lt_upper_bound; lia]).
    rewrite (pt_get_same m root va (va / 4096 * 4096)) by (rewrite Z.div_mul by lia; done).
    destruct (uv_page _ _ _ _ U _ Hk) as (_ & _ & Hl & Hnt). destruct (Hold2 _ 1 Hl Hnt) as (_ & _ & Hb).
    apply Hb. unfold upage. lia.
  - intros va Hva. rewrite TRAPFRAME_eq in Hva. apply Hg2. lia.
  - destruct S2 as (-> & -> & _). destruct (wk_off _ _ _ _ _ G) as (-> & -> & _). destruct S1 as (-> & -> & _). done.
Qed.
End AddPage.

(** ** Removing pages *)

Lemma unmap_uvm root m L n n' m' L' :
  uvm m L root n -> 0 <= n' <= n ->
  unmapped root m L m' L' (n' * 4096) (n * 4096) (freed m root (n' * 4096) true (n - n')) ->
  uvm_to root m L n m' L' n'.
Proof.
  intros U Hn' X. pose proof (uv_n _ _ _ _ U) as [Hn0 Hn1]. rewrite TRAPFRAME_eq in *.
  pose proof (um_get _ _ _ _ _ _ _ _ X) as Hg. pose proof (um_node _ _ _ _ _ _ _ _ X) as Hnode.
  assert (forall x, tabbyte m' root x <-> tabbyte m root x) as Ht by (intros x; by apply tabbyte_node).
  assert (forall k, 0 <= k < n' -> pt_get m' root (k * 4096) = pt_get m root (k * 4096)) as Hgk.
  { intros k Hk. rewrite Hg, decide_False by (try rewrite MAXVA_eq; lia). done. }
  assert (forall k, 0 <= k < n' -> upage m' root k = upage m root k) as Hup by (intros; by apply upage_get, Hgk).
  assert (forall q, freed m root (n' * 4096) true (n - n') q <-> exists j, n' <= j < n /\ q = upage m root j) as Hfr.
  { intros q. unfold freed, upage. split.
    - intros (_ & j & Hj & ->). exists (n' + j). split; [lia|]. do 2 f_equal. lia.
    - intros (j & Hj & ->). split; [done|]. exists (j - n'). split; [lia|]. do 2 f_equal. lia. }
  assert (forall q k, L !! q = Some k -> ~ tabbyte m root q -> ~ (exists j, n' <= j < n /\ q = upage m root j) ->
    L' !! q = Some k /\ forall x, q <= x < q + k * 4096 -> byte_at m' x = byte_at m x) as Hkeep.
  { intros q k Hq Hnt Hf. rewrite <- Hfr in Hf. assert (L' !! q = Some k) as Hq' by (by rewrite (um_kept _ _ _ _ _ _ _ _ X)).
    split; [done|]. intros x Hx. apply (um_off _ _ _ _ _ _ _ _ X). intros [Hl|Htx].
    - apply Hl. exists q, k. by unfold PGSIZE.
    - by apply (not_tab_block m L root q k x (uv_pa _ _ _ _ U) (uv_wf _ _ _ _ U)). }
  assert (forall k, 0 <= k < n' -> ~ exists j, n' <= j < n /\ upage m root k = upage m root j) as Hlow.
  { intros k Hk (j & Hj & E). apply (uv_inj _ _ _ _ U) in E; lia. }
  split.
  - split.
    + apply (um_pa _ _ _ _ _ _ _ _ X).
    + apply (um_wf _ _ _ _ _ _ _ _ X).
    + rewrite TRAPFRAME_eq. lia.
    + intros k Hk. rewrite (Hup k Hk), (Hgk k Hk), Ht. destruct (uv_page _ _ _ _ U k ltac:(lia)) as (? & ? & Hl & Hnt).
      destruct (Hkeep _ 1 Hl Hnt (Hlow k Hk)) as [? _]. done.
    + intros j k Hj Hk. rewrite !Hup by done. apply (uv_inj _ _ _ _ U); lia.
    + intros va Hva. rewrite TRAPFRAME_eq in Hva. rewrite Hg by (try rewrite MAXVA_eq; lia). case_decide; [apply bits_0|].
      apply (uv_free _ _ _ _ U). rewrite TRAPFRAME_eq. lia.
    + intros va Hva. rewrite TRAPFRAME_eq, MAXVA_eq in Hva. rewrite Hg, decide_False by lia. by apply (uv_tramp _ _ _ _ U).
    + intros va Hva. rewrite MAXVA_eq in Hva. rewrite Hg, decide_False by lia. by apply (uv_top _ _ _ _ U).
  - intros q k Hq Ho. destruct (Hkeep q k Hq) as [? ?].
    + intros ?. apply Ho. by left.
    + intros (j & Hj & ->). apply Ho. right. exists j. split; [lia|done].
    + split_and!; [done| |done]. intros [Htq|(j & Hj & ->)]; apply Ho; [left; by apply Ht|].
      right. exists j. rewrite Hup by done. split; [lia|done].
  - intros q k Hq Ho. destruct Ho as [Ho|[Ho|(j & Hj & ->)]].
    + exfalso. rewrite (um_kept _ _ _ _ _ _ _ _ X) in Hq; [congruence|]. intros Hf.
      by rewrite (um_freed _ _ _ _ _ _ _ _ X) in Hq.
    + left. by apply Ht.
    + destruct (Z.lt_ge_cases j n'); [right; exists j; rewrite Hup by lia; split; [lia|done]|]. exfalso.
      rewrite (um_freed _ _ _ _ _ _ _ _ X) in Hq; [done|]. apply Hfr. exists j. split; [lia|done].
  - intros va Hva. rewrite Z.min_r in Hva by lia.
    assert (pt_get m' root va = pt_get m root va) as E by (rewrite Hg, decide_False by (try rewrite MAXVA_eq; lia); done).
    split; [done|]. unfold ubyte. rewrite E.
    pose proof (Z.div_mod va 4096). pose proof (Z.mod_pos_bound va 4096).
    assert (0 <= va / 4096 < n') as Hk by (split; [apply Z.div_pos; lia|apply Z.div_lt_upper_bound; lia]).
    rewrite (pt_get_same m root va (va / 4096 * 4096)) by (rewrite Z.div_mul by lia; done).
    destruct (uv_page _ _ _ _ U (va / 4096) ltac:(lia)) as (_ & _ & Hl & Hnt).
    destruct (Hkeep _ 1 Hl Hnt (Hlow _ Hk)) as (_ & Hb). apply Hb. unfold upage. lia.
  - intros va Hva. rewrite TRAPFRAME_eq in Hva. rewrite Hg, decide_False by lia. done.
  - destruct (um_off _ _ _ _ _ _ _ _ X) as (-> & -> & _). done.
Qed.

Lemma shrink_spec root m L n n' :
  uvm m L root n -> 0 <= n' <= n ->
  exists m' L', uvmunmap pg_alloc pg_free root (n' * 4096) (n - n') true m = Ok (tt, m') /\
    uvm_to root m L n m' L' n'.
Proof.
  intros U Hn'. pose proof (uv_n _ _ _ _ U) as [Hn0 Hn1]. rewrite TRAPFRAME_eq in *.
  destruct (uvmunmap_spec root (n' * 4096) (n - n') true m L (uv_pa _ _ _ _ U) (uv_wf _ _ _ _ U)) as (m' & L' & E & X).
  { by exists n'. } { lia. } { lia. } { rewrite MAXVA_eq. lia. }
  { intros j Hj. unfold unmappable.
    replace (n' * 4096 + 4096 * j) with ((n' + j) * 4096) by lia.
    destruct (uv_page _ _ _ _ U (n' + j) ltac:(lia)) as (? & ? & ? & ?). done. }
  { intros i j _ Hi Hj E. replace (n' * 4096 + 4096 * i) with ((n' + i) * 4096) in E by lia.
    replace (n' * 4096 + 4096 * j) with ((n' + j) * 4096) in E by lia.
    apply (uv_inj _ _ _ _ U) in E; lia. }
  replace (n' * 4096 + (n - n') * 4096) with (n * 4096) in X by lia.
  exists m', L'. split; [done|]. by apply unmap_uvm.
Qed.
End User.
