(* ===== verification/VmSpace.v ===== *)
(** * Virtual memory: growing, shrinking and duplicating address spaces

    [uvmcreate], [uvmalloc], [uvmdealloc] and [uvmcopy] over any page
    allocator. *)

From S2P Require Import Prelude CInt Memory KString Vm VmInv PageAlloc VmWalk VmMap VmUser.

(** The number of pages of a size. *)
Definition npg (sz : Z) : Z := (sz + 4095) / 4096.

Lemma npg_bounds sz : 0 <= sz -> sz <= npg sz * 4096 < sz + 4096.
Proof. intros. unfold npg. pose proof (Z.div_mod (sz + 4095) 4096). pose proof (Z.mod_pos_bound (sz + 4095) 4096). lia. Qed.
Lemma npg_pages n : npg (n * 4096) = n.
Proof. unfold npg. symmetry. apply Z.div_unique with 4095; lia. Qed.
Lemma npg_mono a b : a <= b -> npg a <= npg b.
Proof. intros. unfold npg. apply Z.div_le_mono; lia. Qed.
Lemma PGROUNDUP_npg sz : 0 <= sz <= MAXVA -> PGROUNDUP sz = npg sz * 4096.
Proof. rewrite MAXVA_eq. intros. rewrite PGROUNDUP_eq by lia. unfold npg. lia. Qed.

Section Theorems.
Context {pg_alloc : Z -> M ram Z} {pg_free : Z -> M ram unit}.
Context {PA : PageAllocator PGSIZE pg_alloc pg_free}.

(** ** Growing and shrinking *)

Lemma uvmdealloc_spec root m L oldsz newsz :
  uvm m L root (npg oldsz) -> 0 <= newsz -> 0 <= oldsz <= TRAPFRAME ->
  exists m' L', uvmdealloc pg_alloc pg_free root oldsz newsz m = Ok (Z.min oldsz newsz, m') /\
    uvm_to root m L (npg oldsz) m' L' (npg (Z.min oldsz newsz)).
Proof.
  intros U Hn Ho. rewrite TRAPFRAME_eq in Ho. unfold uvmdealloc; unram. destruct (Z.leb_spec oldsz newsz).
  - rewrite Z.min_l by lia. exists m, L. split; [done|]. by apply uvm_to_refl.
  - rewrite Z.min_r by lia. rewrite !PGROUNDUP_npg by (try rewrite MAXVA_eq; lia).
    pose proof (npg_mono newsz oldsz). pose proof (npg_bounds newsz). pose proof (npg_bounds oldsz).
    destruct (Z.ltb_spec (npg newsz * 4096) (npg oldsz * 4096)).
    + destruct (shrink_spec root m L (npg oldsz) (npg newsz) U) as (m' & L' & E & X); [lia|].
      exists m', L'. split; [|done]. unfold PGSIZE. rewrite <- Z.mul_sub_distr_r, (u64_id (_ * _)), Z.div_mul by lia.
      rewrite i32_id, u64_id by lia. by rewrite (bind_ok _ _ _ _ _ E).
    + exists m, L. split; [done|]. assert (npg newsz = npg oldsz) as -> by lia. by apply uvm_to_refl.
Qed.

(** Filling a fresh page. *)
Lemma fill_fresh m L c m1 m2 :
  L !! c = None -> pa_inv m1 (<[c := 1]> L) -> same_off (fun x => ~ in_live PGSIZE L x) m m1 ->
  same_off (fun x => c <= x < c + 4096) m1 m2 ->
  pa_inv m2 (<[c := 1]> L) /\ same_off (fun x => ~ in_live PGSIZE L x) m m2.
Proof.
  intros HLc P1 S1 S2. assert ((<[c := 1]> L : gmap Z Z) !! c = Some 1) as HLc1 by (by rewrite lookup_insert_eq). split.
  - apply (pa_write m1); [done|]. apply (same_off_weaken _ _ _ _ S2). intros x Hx. exists c, 1. unfold PGSIZE. split; [done|lia].
  - eapply same_off_trans; [exact S1|exact S2|]. cbv beta. intros x [Hx|Hx]; [done|]. intros (b & k & Hb & Hxb).
    assert (c <> b) by congruence. unfold PGSIZE in *.
    destruct (pa_disjoint m1 (<[c := 1]> L) c 1 b k P1) as [Hd|Hd]; rewrite ?lookup_insert_eq, ?lookup_insert_ne; try done; lia.
Qed.

(** A page of [kalloc], filled by [memset]. *)
Lemma kalloc_zero m L :
  pa_inv m L ->
  exists c m1, kalloc pg_alloc m = Ok (c, m1) /\
    (c = 0 /\ m1 = m \/
     c <> 0 /\ L !! c = None /\ exists m2, memset c 0 PGSIZE m1 = Ok (c, m2) /\ pa_inv m2 (<[c := 1]> L) /\
       same_off (fun x => ~ in_live PGSIZE L x) m m2 /\ forall x, c <= x < c + 4096 -> byte_at m2 x = 0).
Proof.
  intros P. destruct (pa_alloc m L 1 P) as (c & m1 & E & Hc). exists c, m1. split; [done|].
  destruct Hc as [[-> ->]|(Hc & HLc & P1 & S1)]; [by left|right]. split_and!; [done..|].
  pose proof (pa_range m1 _ c 1 P1 ltac:(by rewrite lookup_insert_eq)) as (_ & ? & ? & ? & ?).
  destruct (memset_spec c 0 PGSIZE m1) as (m2 & E2 & S2 & Hz); unfold PGSIZE in *; [lia..|].
  destruct (fill_fresh m L c m1 m2 HLc P1 S1 S2) as [P2 S12]. by exists m2.
Qed.

(** A page of [kalloc], filled with the contents of a live page. *)
Lemma kalloc_copy m L pa :
  pa_inv m L -> L !! pa = Some 1 ->
  exists c m1, kalloc pg_alloc m = Ok (c, m1) /\
    (c = 0 /\ m1 = m \/
     c <> 0 /\ L !! c = None /\ exists m2, memmove c pa PGSIZE m1 = Ok (c, m2) /\ pa_inv m2 (<[c := 1]> L) /\
       same_off (fun x => ~ in_live PGSIZE L x) m m2 /\
       forall i, 0 <= i < 4096 -> byte_at m2 (c + i) = byte_at m (pa + i)).
Proof.
  intros P HL. destruct (pa_alloc m L 1 P) as (c & m1 & E & Hc). exists c, m1. split; [done|].
  destruct Hc as [[-> ->]|(Hc & HLc & P1 & S1)]; [by left|right]. split_and!; [done..|].
  pose proof (pa_range m1 _ c 1 P1 ltac:(by rewrite lookup_insert_eq)) as (_ & ? & ? & ? & ?).
  pose proof (pa_range m1 _ pa 1 P1 ltac:(rewrite lookup_insert_ne by congruence; done)) as (_ & ? & ? & ? & _).
  assert (exists m2, memmove c pa PGSIZE m1 = Ok (c, m2) /\ same_off (fun x => c <= x < c + 4096) m1 m2 /\
    forall i, 0 <= i < 4096 -> byte_at m2 (c + i) = byte_at m1 (pa + i)) as (m2 & E2 & S2 & Hb).
  { apply memmove_spec; unfold PGSIZE in *; lia. }
  destruct (fill_fresh m L c m1 m2 HLc P1 S1 S2) as [P2 S12]. exists m2. split_and!; [done..|].
  intros i Hi. rewrite Hb by done. apply S1. intros Hl. apply Hl. exists pa, 1. unfold PGSIZE. split; [done|lia].
Qed.

(** Mapping the fresh page [c] as user page [n]. *)
Lemma add_page root m L n c perm m1 :
  uvm m L root n -> (n + 1) * 4096 <= TRAPFRAME -> 0 <= perm < 1024 -> Z.lor perm 1 <> 1 ->
  L !! c = None -> pa_inv m1 (<[c := 1]> L) -> same_off (fun x => ~ in_live PGSIZE L x) m m1 ->
  exists r m' L', mappages pg_alloc root (n * 4096) PGSIZE c perm m1 = Ok (r, m') /\
    (r = 0 /\ uvm_to root m L n m' L' (n + 1) /\
       (forall va, n * 4096 <= va < (n + 1) * 4096 ->
          pt_get m' root va = mkpte c perm /\ ubyte m' root va = byte_at m1 (c + va mod 4096)) \/
     r <> 0 /\ exists m2 L2, kfree pg_free c m' = Ok (tt, m2) /\ uvm_to root m L n m2 L2 n).
Proof.
  intros U Hroom Hperm Hleaf HL P1 S1. pose proof (uv_n _ _ _ _ U) as [Hn0 Hn1]. rewrite TRAPFRAME_eq in *.
  destruct (add_range L c m1 P1) as (Hc0 & Hc1 & Hca & Hcl).
  destruct (fresh_page root m L c m1 (uv_pa _ _ _ _ U) (uv_wf _ _ _ _ U) HL P1 S1) as (W1 & Hg1 & Ht1 & Hb1 & Hnt).
  destruct (mappages_spec root (n * 4096) PGSIZE c perm m1 (<[c := 1]> L) P1 W1) as (r & b & m' & L' & E & G & [kb Hb] & Hr & Hm).
  { by exists n. } { by exists 1. } { done. } { lia. } { rewrite MAXVA_eq. unfold PGSIZE. lia. } { done. } { done. } { lia. }
  { unfold PGSIZE. lia. }
  { intros a Ha. rewrite Hg1. apply (uv_free _ _ _ _ U). rewrite TRAPFRAME_eq. unfold PGSIZE in *. lia. }
  exists r, m', L'. split; [done|]. unfold PGSIZE in *. destruct Hr as [[-> ->]|[-> Hb']].
  - assert (forall va, 0 <= va < 2 ^ 39 -> pt_get m' root va =
      if decide (n * 4096 <= va < (n + 1) * 4096) then mkpte c perm else pt_get m root va) as Hg.
    { intros va Hva. rewrite Hm by done. rewrite Hg1. case_decide; case_decide; [|lia|lia|done].
      f_equal. pose proof (Z.div_mod va 4096). assert (va / 4096 = n); [|lia].
      symmetry. apply Z.div_unique with (va - n * 4096); lia. }
    left. split_and!; [done| |].
    + apply (add_mapped root m L n c perm m1); done.
    + intros va Hva. assert (pt_get m' root va = mkpte c perm) as Ev by (rewrite Hg, decide_True by (try rewrite MAXVA_eq; lia); done).
      split; [done|]. unfold ubyte. rewrite Ev, mkpte_pa by (done || lia).
      destruct (add_grown root m L n c perm m1 U ltac:(rewrite TRAPFRAME_eq; lia) HL P1 S1 m' L' true G) as (_ & _ & (_ & _ & Hcb) & _).
      { intros va' Hva'. rewrite Hg by done. apply decide_ext. tauto. }
      pose proof (Z.mod_pos_bound va 4096). apply Hcb. lia.
  - right. split; [done|]. destruct (add_failed root m L n c perm m1 U ltac:(rewrite TRAPFRAME_eq; lia) Hperm Hleaf HL P1 S1 m' L' G) as (m2 & E2 & X & _).
    { intros va Hva. rewrite Hm by done. rewrite decide_False by lia. apply Hg1. }
    by exists m2, (delete c L').
Qed.

(** Pages from [a] to [b] that read as zero and carry [perm]. *)
Definition zeroed (m : ram) (root a b perm : Z) : Prop :=
  forall va, a * 4096 <= va < b * 4096 ->
    PTE_FLAGS (pt_get m root va) = Z.lor perm 1 /\ ubyte m root va = 0.

Lemma zeroed_to root m L n m' L' n' a b perm :
  uvm_to root m L n m' L' n' -> b <= n -> b <= n' -> 0 <= a -> zeroed m root a b perm -> zeroed m' root a b perm.
Proof.
  intros X Hn Hn' Ha Hz va Hva. destruct (ut_same _ _ _ _ _ _ _ X va ltac:(lia)) as [-> ->]. by apply Hz.
Qed.

Lemma uvmalloc_loop_spec root newsz xperm n0 k : forall n m L,
  let perm := Z.lor (Z.lor PTE_R PTE_U) xperm in
  uvm m L root n -> 0 <= n0 <= n -> 0 <= newsz <= TRAPFRAME -> 0 <= xperm < 1024 ->
  Z.of_nat k = npg newsz - n ->
  exists r m' L', uvmalloc_loop pg_alloc pg_free root (n0 * 4096) newsz xperm k (n * 4096) m = Ok (r, m') /\
    (r = newsz /\ uvm_to root m L n m' L' (npg newsz) /\ zeroed m' root n (npg newsz) perm \/
     r = 0 /\ uvm_to root m L n m' L' n0).
Proof.
  induction k as [|k IH]; intros n m L perm U Hn0 Hnew Hx Hk; cbn [uvmalloc_loop]; unram.
  all: pose proof (npg_bounds newsz ltac:(lia)); rewrite TRAPFRAME_eq in *.
  { destruct (Z.ltb_spec (n * 4096) newsz); [lia|]. exists newsz, m, L. split; [done|]. left.
    assert (npg newsz = n) as -> by lia. split_and!; [done|by apply uvm_to_refl|]. intros va Hva. lia. }
  destruct (Z.ltb_spec (n * 4096) newsz); [|lia].
  assert (0 <= perm < 1024) as Hperm by (apply (lor_bound _ _ 10); [lia|done|done]).
  assert (Z.lor perm 1 <> 1) as Hleaf.
  { intros E. apply (f_equal (fun z => Z.testbit z 1)) in E. unfold perm in E. by rewrite !Z.lor_spec in E. }
  assert (exists m' L', uvmdealloc pg_alloc pg_free root (n * 4096) (n0 * 4096) m = Ok (n0 * 4096, m') /\
    uvm_to root m L n m' L' n0) as (md & Ld & Ed & Xd).
  { destruct (uvmdealloc_spec root m L (n * 4096) (n0 * 4096)) as (m' & L' & E & X).
    - by rewrite npg_pages. - lia. - rewrite TRAPFRAME_eq. lia.
    - rewrite Z.min_r in E, X by lia. rewrite !npg_pages in X. eauto. }
  destruct (kalloc_zero m L (uv_pa _ _ _ _ U)) as (c & m1 & E & Hc). rewrite (bind_ok _ _ _ _ _ E).
  destruct Hc as [[-> ->]|(Hc & HLc & m2 & E2 & P2 & S2 & Hz)].
  { cbn [Z.eqb]. rewrite (bind_ok _ _ _ _ _ Ed). exists 0, md, Ld. split; [done|by right]. }
  destruct (Z.eqb_spec c 0); [done|]. rewrite (bind_ok _ _ _ _ _ E2).
  destruct (add_page root m L n c perm m2 U) as (r & m3 & L3 & E3 & Hr); try done; [rewrite TRAPFRAME_eq; lia|].
  rewrite (bind_ok _ _ _ _ _ E3). destruct Hr as [(-> & X & Hp)|(Hr & m4 & L4 & E4 & X)].
  - cbn [Z.eqb negb]. rewrite u64_id by (unfold PGSIZE; lia). unfold PGSIZE.
    replace (n * 4096 + 4096) with ((n + 1) * 4096) by lia.
    destruct (IH (n + 1) m3 L3 (ut_uvm _ _ _ _ _ _ _ X)) as (r & m' & L' & E' & Hr); rewrite ?TRAPFRAME_eq; [lia..|].
    exists r, m', L'. split; [done|]. destruct Hr as [(-> & X' & Hz')|[-> X']]; [left|right].
    + split_and!; [done|by apply (uvm_to_trans _ _ _ _ _ _ _ _ _ _ X X'); lia|].
      intros va Hva. destruct (Z.lt_ge_cases va ((n + 1) * 4096)); [|apply Hz'; lia].
      destruct (ut_same _ _ _ _ _ _ _ X' va ltac:(lia)) as [-> ->]. destruct (Hp va ltac:(lia)) as [-> ->].
      destruct (add_range L c m2 P2) as (? & ? & ? & _).
      rewrite mkpte_flags by (done || lia). split; [done|]. pose proof (Z.mod_pos_bound va 4096). apply Hz. lia.
    + split; [done|]. by apply (uvm_to_trans _ _ _ _ _ _ _ _ _ _ X X'); lia.
  - destruct (Z.eqb_spec r 0); [done|]. cbn [negb]. rewrite (bind_ok _ _ _ _ _ E4).
    destruct (uvmdealloc_spec root m4 L4 (n * 4096) (n0 * 4096)) as (m5 & L5 & E5 & X5).
    { rewrite npg_pages. apply (ut_uvm _ _ _ _ _ _ _ X). } { lia. } { rewrite TRAPFRAME_eq. lia. }
    rewrite (bind_ok _ _ _ _ _ E5). rewrite Z.min_r, !npg_pages in X5 by lia.
    exists 0, m5, L5. split; [done|right]. split; [done|]. apply (uvm_to_trans _ _ _ _ _ _ _ _ _ _ X X5). lia.
Qed.

Lemma uvmalloc_spec root m L oldsz newsz xperm :
  uvm m L root (npg oldsz) -> 0 <= oldsz <= newsz -> newsz <= TRAPFRAME -> 0 <= xperm < 1024 ->
  exists r m' L', uvmalloc pg_alloc pg_free root oldsz newsz xperm m = Ok (r, m') /\
    (r = newsz /\ uvm_to root m L (npg oldsz) m' L' (npg newsz) /\
       zeroed m' root (npg oldsz) (npg newsz) (Z.lor (Z.lor PTE_R PTE_U) xperm) \/
     r = 0 /\ uvm_to root m L (npg oldsz) m' L' (npg oldsz)).
Proof.
  intros U Ho Hnew Hx. unfold uvmalloc; unram. destruct (Z.ltb_spec newsz oldsz); [lia|]. rewrite TRAPFRAME_eq in Hnew.
  rewrite PGROUNDUP_npg by (try rewrite MAXVA_eq; lia). pose proof (npg_bounds oldsz). pose proof (npg_bounds newsz).
  pose proof (npg_mono oldsz newsz). cbv zeta.
  assert ((newsz - npg oldsz * 4096 + PGSIZE - 1) / PGSIZE = npg newsz - npg oldsz) as ->.
  { unfold PGSIZE. symmetry. apply Z.div_unique with (newsz + 4095 - npg newsz * 4096); lia. }
  apply uvmalloc_loop_spec; rewrite ?TRAPFRAME_eq; try done; lia.
Qed.

Lemma uvmcreate_spec m L :
  pa_inv m L ->
  exists r m', uvmcreate pg_alloc m = Ok (r, m') /\
    (r = 0 /\ m' = m \/
     r <> 0 /\ L !! r = None /\ uvm m' (<[r := 1]> L) r 0 /\
     (forall va, pt_get m' r va = 0) /\ (forall x, tabbyte m' r x -> r <= x < r + 4096) /\
     same_off (fun x => ~ in_live PGSIZE L x) m m').
Proof.
  intros P. unfold uvmcreate; unram. destruct (kalloc_zero m L P) as (c & m1 & E & Hc). rewrite (bind_ok _ _ _ _ _ E).
  destruct Hc as [[-> ->]|(Hc & HL & m2 & E2 & P2 & S2 & Hz)]; [exists 0, m; split; [done|by left]|].
  destruct (Z.eqb_spec c 0); [done|]. rewrite (bind_ok _ _ _ _ _ E2). exists c, m2. split; [done|right].
  assert (forall k a, c <= a -> a + Z.of_nat k <= c + 4096 -> peek k m2 a = 0) as Hpk.
  { induction k as [|k IH]; intros a Ha Hb; [done|]. change (byte_at m2 a + 256 * peek k m2 (a + 1) = 0).
    rewrite IH, Hz by lia. done. }
  assert (forall i, idx_ok i -> child m2 c i = None) as Hch.
  { intros i Hi. unfold child. pose proof (pte_at_range c i Hi). rewrite Hpk by (change (Z.of_nat 8) with 8; lia). by rewrite bits_0. }
  assert (forall p t, path_ok p -> node m2 c p = Some t -> p = [] /\ t = c) as Hnode.
  { intros [|i p] t [HF _] Hn; cbn [node] in Hn; [by simplify_eq|]. apply Forall_cons in HF as [Hi _]. by rewrite Hch in Hn. }
  assert (forall va, pt_get m2 c va = 0) as Hg.
  { intros va. unfold pt_get, pt_leaf. cbn [idxs node]. by rewrite Hch by (apply idx_ok_PX; lia). }
  split; [done|]. split; [done|]. split; [|split; [done|split; [|done]]].
  2: { intros x (p & t & Hp & Hn & Hr). destruct (Hnode p t Hp Hn) as [_ ->]. done. }
  split; [done| | |lia|lia|intros va _; rewrite Hg; apply bits_0|..].
  - split.
    + intros p t Hp Hn. destruct (Hnode p t Hp Hn) as [_ ->]. apply lookup_insert_eq.
    + intros p q t Hp Hq Hn Hn'. destruct (Hnode p t Hp Hn) as [-> _]. by destruct (Hnode q t Hq Hn') as [-> _].
    + intros p t i Hp _ Hi Hn. destruct (Hnode p t Hp Hn) as [_ ->]. pose proof (pte_at_range c i Hi).
      rewrite Hpk by (change (Z.of_nat 8) with 8; lia). by rewrite bits_0.
  - split; [lia|]. by vm_compute.
  - intros va _. rewrite Hg. by rewrite bits_0.
  - intros va _. rewrite Hg. apply bits_0.
Qed.

(** ** Two address spaces *)

(** No live page belongs to both. *)
Definition apart (m : ram) (L : gmap Z Z) (old n new k : Z) : Prop :=
  forall q, L !! q <> None -> owned m old n q -> ~ owned m new k q.

(** An address space that shares nothing with the one that changes. *)
Lemma uvm_other new m L k m' L' k' old n :
  uvm_to new m L k m' L' k' -> uvm m L old n -> apart m L old n new k ->
  uvm m' L' old n /\ (forall q, owned m' old n q <-> owned m old n q) /\
  apart m' L' old n new k' /\
  (forall va, pt_get m' old va = pt_get m old va) /\
  (forall va, 0 <= va < n * 4096 -> ubyte m' old va = ubyte m old va).
Proof.
  intros X U Hd. pose proof (uv_pa _ _ _ _ U) as P. pose proof (uv_wf _ _ _ _ U) as W.
  set (Q := fun x => byte_at m' x <> byte_at m x).
  assert (same_off Q m m') as So.
  { pose proof (ut_ram _ _ _ _ _ _ _ X) as []. split_and!; [done..|]. intros x Hx.
    destruct (decide (byte_at m' x = byte_at m x)); [done|]. by exfalso. }
  assert (forall q, L !! q <> None -> owned m old n q -> exists j, L !! q = Some j /\ L' !! q = Some j /\ ~ owned m' new k' q /\
    forall x, q <= x < q + j * 4096 -> byte_at m' x = byte_at m x) as Hk.
  { intros q HL Ho. destruct (L !! q) as [j|] eqn:E; [|done]. destruct (ut_keep _ _ _ _ _ _ _ X q j E) as (? & ? & ?); [apply Hd; [congruence|done]|]. eauto. }
  assert (forall x, Q x -> ~ tabbyte m old x) as Hx.
  { intros x Hq (p & t & Hp & Hn & Hr). pose proof (pw_live _ _ _ W p t Hp Hn) as HL. apply Hq.
    destruct (Hk t) as (j & HL2 & _ & _ & Hb); [congruence|left; exists p, t; split_and!; [done..|lia|lia]|].
    assert (j = 1) as -> by congruence. apply Hb. lia. }
  assert (forall va, pt_get m' old va = pt_get m old va) as Hg by (intros va; by apply (pt_get_frame m m' old Q)).
  assert (forall x, tabbyte m' old x <-> tabbyte m old x) as Ht by (intros x; by apply (tabbyte_frame m m' old Q)).
  assert (forall j, upage m' old j = upage m old j) as Hup by (intros; apply upage_get, Hg).
  assert (forall q, owned m' old n q <-> owned m old n q) as Ho.
  { intros q. unfold owned. rewrite Ht. split; (intros [H|(j & Hj & ->)]; [by left|right; exists j]); by rewrite Hup. }
  assert (forall j, 0 <= j < n -> L' !! upage m old j = Some 1 /\
    forall x, upage m old j <= x < upage m old j + 4096 -> byte_at m' x = byte_at m x) as Hpg.
  { intros j Hj. destruct (uv_page _ _ _ _ U j Hj) as (_ & _ & HL & _).
    destruct (Hk (upage m old j)) as (i & HL2 & HL' & _ & Hb); [congruence|right; eauto|].
    assert (i = 1) as -> by congruence. split; [done|]. intros x Hx'. apply Hb. lia. }
  split_and!; [|done| |done|].
  - split.
    + apply (uv_pa _ _ _ _ (ut_uvm _ _ _ _ _ _ _ X)).
    + apply (ptwf_frame m m' L L' old Q W So Hx). intros t j HL Htab.
      destruct (Hk t) as (i & HL2 & HL' & _); [congruence|by left|]. congruence.
    + apply (uv_n _ _ _ _ U).
    + intros j Hj. rewrite Hg, Hup, Ht. destruct (uv_page _ _ _ _ U j Hj) as (? & ? & _ & ?). destruct (Hpg j Hj). done.
    + intros i j Hi Hj. rewrite !Hup. by apply (uv_inj _ _ _ _ U).
    + intros va. rewrite Hg. apply (uv_free _ _ _ _ U).
    + intros va. rewrite Hg. apply (uv_tramp _ _ _ _ U).
    + intros va. rewrite Hg. apply (uv_top _ _ _ _ U).
  - intros q HL Hq Hn. apply Ho in Hq. destruct (L !! q) as [j|] eqn:E.
    + destruct (Hk q) as (_ & _ & _ & Hno & _); [congruence|done|]. done.
    + destruct Hq as [(p & t & Hp & Hnt & Hr)|(j & Hj & ->)]; [|destruct (uv_page _ _ _ _ U j Hj) as (_ & _ & ? & _); congruence].
      pose proof (pw_live _ _ _ W p t Hp Hnt) as HLt. assert (t <> q) as Htq by congruence.
      destruct (Hk t) as (i & HLi & HL' & _); [congruence|left; exists p, t; split_and!; [done..|lia|lia]|].
      destruct (L' !! q) as [j|] eqn:Eq; [|done]. pose proof (ut_uvm _ _ _ _ _ _ _ X) as U'.
      destruct (pa_range m' L' q j (uv_pa _ _ _ _ U') Eq) as (? & _). assert (i = 1) as -> by congruence.
      destruct (pa_disjoint m' L' t 1 q j (uv_pa _ _ _ _ U') HL' Eq Htq); unfold PGSIZE in *; lia.
  - intros va Hva. unfold ubyte. rewrite Hg. pose proof (Z.div_mod va 4096). pose proof (Z.mod_pos_bound va 4096).
    assert (0 <= va / 4096 < n) as Hj by (split; [apply Z.div_pos; lia|apply Z.div_lt_upper_bound; lia]).
    rewrite (pt_get_same m old va (va / 4096 * 4096)) by (rewrite Z.div_mul by lia; done).
    apply (Hpg _ Hj). unfold upage. lia.
Qed.

(** A fresh block belongs to no address space. *)
Lemma fresh_other m L old n c j m1 :
  uvm m L old n -> L !! c = None -> pa_inv m1 (<[c := j]> L) -> same_off (fun x => ~ in_live PGSIZE L x) m m1 ->
  uvm m1 (<[c := j]> L) old n /\ ~ owned m1 old n c /\
  (forall va, pt_get m1 old va = pt_get m old va) /\
  (forall va, 0 <= va < n * 4096 -> ubyte m1 old va = ubyte m old va).
Proof.
  intros U HL P1 S1. pose proof (uv_wf _ _ _ _ U) as W.
  assert (forall x, ~ in_live PGSIZE L x -> ~ tabbyte m old x) as Hx.
  { intros x Hx Ht. apply Hx. by apply (tabbyte_live m L old). }
  assert (forall va, pt_get m1 old va = pt_get m old va) as Hg by (intros va; by apply (pt_get_frame m m1 old _ va S1)).
  assert (forall x, tabbyte m1 old x <-> tabbyte m old x) as Ht by (intros x; by apply (tabbyte_frame m m1 old _ x S1)).
  assert (forall i, upage m1 old i = upage m old i) as Hup by (intros; apply upage_get, Hg).
  assert ((<[c := j]> L : gmap Z Z) !! c = Some j) as Hc by apply lookup_insert_eq.
  pose proof (pa_range m1 _ c j P1 Hc) as (Hj & _).
  split_and!; [|  |done|].
  - split.
    + done.
    + apply (ptwf_frame m m1 L _ old _ W S1 Hx). intros t i Hi _. rewrite lookup_insert_ne by congruence. done.
    + apply (uv_n _ _ _ _ U).
    + intros k Hk. rewrite Hg, Hup, Ht. destruct (uv_page _ _ _ _ U k Hk) as (? & ? & ? & ?).
      rewrite lookup_insert_ne by congruence. done.
    + intros i k Hi Hk. rewrite !Hup. by apply (uv_inj _ _ _ _ U).
    + intros va. rewrite Hg. apply (uv_free _ _ _ _ U).
    + intros va. rewrite Hg. apply (uv_tramp _ _ _ _ U).
    + intros va. rewrite Hg. apply (uv_top _ _ _ _ U).
  - intros [Hct|(k & Hk & E)].
    + rewrite Ht in Hct. destruct (tabbyte_live m L old c W Hct) as (q & i & Hq & Hr). assert (c <> q) as Hne by congruence.
      destruct (pa_disjoint m1 (<[c := j]> L) c j q i P1 Hc) as [Hd|Hd]; [by rewrite lookup_insert_ne|done| |]; unfold PGSIZE in *; nia.
    + rewrite Hup in E. destruct (uv_page _ _ _ _ U k Hk) as (_ & _ & ? & _). congruence.
  - intros va Hva. unfold ubyte. rewrite Hg. apply S1. intros Hl. apply Hl.
    pose proof (Z.div_mod va 4096). pose proof (Z.mod_pos_bound va 4096).
    assert (0 <= va / 4096 < n) as Hk by (split; [apply Z.div_pos; lia|apply Z.div_lt_upper_bound; lia]).
    rewrite (pt_get_same m old va (va / 4096 * 4096)) by (rewrite Z.div_mul by lia; done).
    destruct (uv_page _ _ _ _ U _ Hk) as (_ & _ & HLp & _). exists (upage m old (va / 4096)), 1.
    split; [done|]. unfold upage, PGSIZE. lia.
Qed.

(** ** uvmcopy *)

Lemma flags_V v : 0 <= v -> bits v PTE_V = true -> 0 <= PTE_FLAGS v < 1024 /\ Z.lor (PTE_FLAGS v) 1 = PTE_FLAGS v.
Proof.
  intros H0 HV. rewrite bits_V in HV. unfold PTE_FLAGS. change 0x3FF with (Z.ones 10). rewrite Z.land_ones by lia.
  split; [apply Z.mod_pos_bound; lia|]. apply Z.bits_inj'. intros k Hk. rewrite Z.lor_spec.
  destruct (Z.eq_dec k 0) as [->|].
  - rewrite Z.mod_pow2_bits_low by lia. rewrite Z.bit0_odd, HV. done.
  - change 1 with (2 ^ 0). rewrite Z.pow2_bits_false by lia. apply orb_false_r.
Qed.

Lemma pt_get_range m root va : 0 <= pt_get m root va < 2 ^ 64.
Proof. unfold pt_get. destruct (pt_leaf m root va); [apply peek8_range|lia]. Qed.

(** Pages [a] to [b] of [new] hold what those of [old] hold in [m]. *)
Definition duplicated (m : ram) (old : Z) (m' : ram) (new a b : Z) : Prop :=
  forall va, a * 4096 <= va < b * 4096 ->
    PTE_FLAGS (pt_get m' new va) = PTE_FLAGS (pt_get m old va) /\ ubyte m' new va = ubyte m old va.

(** One iteration that succeeds in allocating. *)
Lemma uvmcopy_page old new m L n i :
  uvm m L old n -> uvm m L new i -> 0 <= i < n ->
  exists r v, walk pg_alloc old (i * 4096) false m = Ok (r, m) /\ r <> 0 /\ ld64 r m = Ok (v, m) /\
    bits v PTE_V = true /\ v = pt_get m old (i * 4096) /\
  exists c m1, kalloc pg_alloc m = Ok (c, m1) /\
    (c = 0 /\ m1 = m \/ c <> 0 /\ exists m2 r m3 L3, memmove c (PTE2PA v) PGSIZE m1 = Ok (c, m2) /\
      mappages pg_alloc new (i * 4096) PGSIZE c (u32 (PTE_FLAGS v)) m2 = Ok (r, m3) /\
      (r = 0 /\ uvm_to new m L i m3 L3 (i + 1) /\ duplicated m old m3 new i (i + 1) \/
       r <> 0 /\ exists m4 L4, kfree pg_free c m3 = Ok (tt, m4) /\ uvm_to new m L i m4 L4 i)).
Proof.
  intros U N Hi. pose proof (uv_n _ _ _ _ U) as [_ Hn]. rewrite TRAPFRAME_eq in Hn.
  pose proof (uv_pa _ _ _ _ U) as P. pose proof (uv_wf _ _ _ _ U) as W.
  destruct (uv_page _ _ _ _ U i Hi) as (HV & HF & HL & _).
  pose proof (pt_get_range m old (i * 4096)) as Hr.
  assert (exists r, pt_leaf m old (i * 4096) = Some r) as [r Hl].
  { unfold pt_get in HV. destruct (pt_leaf m old (i * 4096)) as [r|]; [eauto|]. by rewrite bits_0 in HV. }
  destruct (pt_leaf_range m L old _ r P W Hl) as (t & _ & _ & _ & ? & ? & ? & ? & ? & ?).
  assert (peek 8 m r = pt_get m old (i * 4096)) as Hpk by (unfold pt_get; by rewrite Hl).
  exists r, (pt_get m old (i * 4096)). split_and!; [|lia| |done|done|].
  { rewrite (walk_read old _ m L P W) by (rewrite MAXVA_eq; lia). by rewrite Hl. }
  { rewrite <- Hpk. apply ld64_ok. bk. }
  destruct (flags_V (pt_get m old (i * 4096)) ltac:(lia) HV) as [Hf Hf1].
  destruct (kalloc_copy m L _ P HL) as (c & m1 & E & Hc). exists c, m1. split; [done|].
  destruct Hc as [Hc|(Hc & HLc & m2 & E2 & P2 & S2 & Hb)]; [by left|right]. split; [done|].
  rewrite u32_id by lia.
  destruct (add_page new m L i c (PTE_FLAGS (pt_get m old (i * 4096))) m2 N) as (r' & m3 & L3 & E3 & Hr'); try done;
    [rewrite TRAPFRAME_eq; lia|rewrite Hf1; exact HF|].
  exists m2, r', m3, L3. split_and!; [done..|]. destruct Hr' as [(-> & X & Hp)|Hr']; [left|by right].
  split_and!; [done..|]. intros va Hva. destruct (Hp va Hva) as [-> ->].
  destruct (add_range L c m2 P2) as (? & ? & ? & _). rewrite mkpte_flags, Hf1 by (done || lia).
  assert (va / 4096 = i) as Ei by (symmetry; apply Z.div_unique with (va - i * 4096); lia).
  assert (pt_get m old va = pt_get m old (i * 4096)) as -> by (apply pt_get_same; rewrite Z.div_mul by lia; done).
  split; [done|]. unfold ubyte. rewrite (pt_get_same m old va (i * 4096)) by (rewrite Z.div_mul by lia; done).
  apply Hb. apply Z.mod_pos_bound. lia.
Qed.

Lemma uvmcopy_loop_spec old new n sz k : forall i m L,
  uvm m L old n -> uvm m L new i -> apart m L old n new i -> 0 <= i -> n = npg sz -> 0 <= sz ->
  Z.of_nat k = n - i ->
  exists r m' L', uvmcopy_loop pg_alloc pg_free old new sz k (i * 4096) m = Ok (r, m') /\
    (r = inl tt /\ uvm_to new m L i m' L' n /\ duplicated m old m' new i n \/
     exists j, r = inr (j * 4096) /\ i <= j < n /\ uvm_to new m L i m' L' j).
Proof.
  induction k as [|k IH]; intros i m L U N Ha Hi Hn Hsz Hk; cbn [uvmcopy_loop]; unram.
  all: pose proof (npg_bounds sz Hsz); rewrite <- Hn in *; pose proof (uv_n _ _ _ _ U) as [_ Hn']; rewrite TRAPFRAME_eq in Hn'.
  { destruct (Z.ltb_spec (i * 4096) sz); [lia|]. exists (inl tt), m, L. split; [done|left].
    assert (n = i) as -> by lia. split_and!; [done|by apply uvm_to_refl|]. intros va Hva. lia. }
  destruct (Z.ltb_spec (i * 4096) sz); [|lia].
  destruct (uvmcopy_page old new m L n i U N ltac:(lia)) as (r & v & E & Hnz & Ev & HV & Hv & c & m1 & Ec & Hc).
  rewrite (bind_ok _ _ _ _ _ E). destruct (Z.eqb_spec r 0); [done|].
  rewrite (bind_ok _ _ _ _ _ Ev), HV. cbn [negb]. rewrite (bind_ok _ _ _ _ _ Ev). cbv zeta.
  rewrite (bind_ok _ _ _ _ _ Ev), (bind_ok _ _ _ _ _ Ec).
  destruct Hc as [[-> ->]|(Hc & m2 & r' & m3 & L3 & E2 & E3 & Hr)].
  { cbn [Z.eqb]. exists (inr (i * 4096)), m, L. split; [done|right]. exists i. split_and!; [done|lia|lia|by apply uvm_to_refl]. }
  destruct (Z.eqb_spec c 0); [done|]. rewrite (bind_ok _ _ _ _ _ E2), (bind_ok _ _ _ _ _ E3).
  destruct Hr as [(-> & X & Hd)|(Hr & m4 & L4 & E4 & X)].
  - cbn [Z.eqb negb]. rewrite u64_id by (unfold PGSIZE; lia). unfold PGSIZE. replace (i * 4096 + 4096) with ((i + 1) * 4096) by lia.
    destruct (uvm_other new m L i m3 L3 (i + 1) old n X U Ha) as (U3 & _ & Ha3 & Hg3 & Hu3).
    destruct (IH (i + 1) m3 L3 U3 (ut_uvm _ _ _ _ _ _ _ X) Ha3) as (r2 & m' & L' & E' & Hr); [lia..|].
    exists r2, m', L'. split; [done|]. destruct Hr as [(-> & X' & Hd')|(j & -> & Hj & X')]; [left|right].
    + split_and!; [done|by apply (uvm_to_trans _ _ _ _ _ _ _ _ _ _ X X'); lia|]. intros va Hva.
      destruct (Z.lt_ge_cases va ((i + 1) * 4096)).
      * destruct (ut_same _ _ _ _ _ _ _ X' va ltac:(lia)) as [-> ->]. apply Hd. lia.
      * destruct (Hd' va ltac:(lia)) as [-> ->]. rewrite Hg3, Hu3 by lia. done.
    + exists j. split_and!; [done|lia|lia|]. apply (uvm_to_trans _ _ _ _ _ _ _ _ _ _ X X'). lia.
  - destruct (Z.eqb_spec r' 0); [done|]. cbn [negb]. rewrite (bind_ok _ _ _ _ _ E4).
    exists (inr (i * 4096)), m4, L4. split; [done|right]. exists i. split_and!; [done|lia|lia|done].
Qed.

Lemma uvmcopy_spec old new m L sz :
  uvm m L old (npg sz) -> uvm m L new 0 -> apart m L old (npg sz) new 0 -> 0 <= sz ->
  exists r m' L', uvmcopy pg_alloc pg_free old new sz m = Ok (r, m') /\
    (r = 0 /\ uvm_to new m L 0 m' L' (npg sz) /\ duplicated m old m' new 0 (npg sz) \/
     r = -1 /\ uvm_to new m L 0 m' L' 0).
Proof.
  intros U N Ha Hsz. unfold uvmcopy; unram. replace (Z.to_nat ((sz + PGSIZE - 1) / PGSIZE)) with (Z.to_nat (npg sz))
    by (unfold npg, PGSIZE; do 2 f_equal; lia).
  pose proof (npg_bounds sz Hsz). pose proof (uv_n _ _ _ _ U) as [_ Hn]. rewrite TRAPFRAME_eq in Hn.
  destruct (uvmcopy_loop_spec old new (npg sz) sz (Z.to_nat (npg sz)) 0 m L U N Ha) as (r & m1 & L1 & E & Hr); [lia..|].
  change 0 with (0 * 4096) at 1. rewrite (bind_ok _ _ _ _ _ E). destruct Hr as [(-> & X & Hd)|(j & -> & Hj & X)].
  - exists 0, m1, L1. split; [done|by left].
  - destruct (shrink_spec new m1 L1 j 0 (ut_uvm _ _ _ _ _ _ _ X)) as (m2 & L2 & E2 & X2); [lia|].
    exists (-1), m2, L2. unfold PGSIZE. rewrite Z.div_mul by lia. change (0 * 4096) with 0 in E2. rewrite Z.sub_0_r in E2.
    rewrite (bind_ok _ _ _ _ _ E2). split; [done|right]. split; [done|]. apply (uvm_to_trans _ _ _ _ _ _ _ _ _ _ X X2). lia.
Qed.
End Theorems.
