(* ===== verification/VmCopy.v ===== *)
(** * Virtual memory: copying between kernel and user memory

    [copyout], [copyin] and [copyinstr] move bytes between kernel addresses and
    user addresses as the page table translates them, and fail exactly when
    the range leaves the user pages. *)

From S2P Require Import Prelude CInt Memory KString Vm VmInv PageAlloc VmWalk VmMap VmUser.

Section Copy.
Context {pg_alloc : Z -> M ram Z} {pg_free : Z -> M ram unit}.
Context {PA : PageAllocator PGSIZE pg_alloc pg_free}.

(** A user address the user can access, and its physical address. *)
Definition umapped (m : ram) (root va : Z) : bool :=
  (va <? MAXVA) && bits (pt_get m root va) PTE_V && bits (pt_get m root va) PTE_U.
Definition uphys (m : ram) (root va : Z) : Z := PTE2PA (pt_get m root va) + va mod 4096.

Lemma walkaddr_spec m L root va :
  pa_inv m L -> ptwf m L root ->
  walkaddr pg_alloc root va m = Ok (if umapped m root va then PTE2PA (pt_get m root va) else 0, m).
Proof.
  intros P W. unfold walkaddr, umapped; unram. destruct (Z.leb_spec MAXVA va), (Z.ltb_spec va MAXVA); try lia; [done|].
  rewrite (bind_ok _ _ _ _ _ (walk_read root va m L P W ltac:(lia))). unfold pt_get.
  destruct (pt_leaf m root va) as [a|] eqn:El; cbn [default]; [|by rewrite bits_0].
  destruct (pt_leaf_range m L root va a P W El) as (t & _ & _ & _ & ? & ? & ? & ? & ? & ?).
  cbn [andb]. unfold id. destruct (Z.eqb_spec a 0); [lia|]. cstep.
  destruct (bits (peek 8 m a) PTE_V); cbn [negb andb]; [|done]. cstep.
  destruct (bits (peek 8 m a) PTE_U); cbn [negb]; [|done]. by cstep.
Qed.

Section Space.
Context (root : Z) (L : gmap Z Z) (n : Z).

(** An accessible address lies in one of the [n] user pages. *)
Lemma umapped_page m va : uvm m L root n -> 0 <= va -> umapped m root va = true ->
  exists k, 0 <= k < n /\ k = va / 4096 /\ PTE2PA (pt_get m root va) = upage m root k /\
    L !! upage m root k = Some 1 /\ ~ tabbyte m root (upage m root k).
Proof.
  intros U H0 Hm. unfold umapped in Hm. bool_to_prop. exists (va / 4096).
  assert (va / 4096 < n) as Hk.
  { pose proof (uv_n _ _ _ _ U). apply Z.div_lt_upper_bound; [lia|]. destruct (Z.lt_ge_cases va (n * 4096)) as [|Hge]; [lia|exfalso].
    destruct (Z.lt_ge_cases va TRAPFRAME) as [Hlt|Hge'].
    - rewrite (uv_free _ _ _ _ U va) in *; [done|lia].
    - rewrite (uv_tramp _ _ _ _ U va) in *; done. }
  assert (0 <= va / 4096) by (apply Z.div_pos; lia).
  split_and!; [done|done|done| |apply (uv_page _ _ _ _ U); lia..].
  unfold upage. f_equal. apply pt_get_same. by rewrite Z.div_mul.
Qed.

Lemma upage_range m k : uvm m L root n -> 0 <= k < n ->
  0 < upage m root k /\ ram_lo m <= upage m root k /\ upage m root k + 4096 <= ram_hi m /\ ram_hi m < 2 ^ 64.
Proof.
  intros U Hk. destruct (uv_page _ _ _ _ U k Hk) as (_ & _ & Hl & _).
  destruct (pa_range m L _ 1 (uv_pa _ _ _ _ U) Hl) as (_ & ? & ? & ? & ?). unfold PGSIZE in *. lia.
Qed.

Definition in_user (m : ram) (x : Z) : Prop :=
  exists k, 0 <= k < n /\ upage m root k <= x < upage m root k + 4096.

(** Writes into user pages keep the address space. *)
Lemma user_write m m' Q :
  uvm m L root n -> same_off Q m m' -> (forall x, Q x -> in_user m x) ->
  uvm m' L root n /\ (forall va, pt_get m' root va = pt_get m root va) /\
  forall x, tabbyte m' root x <-> tabbyte m root x.
Proof.
  intros U So HQ. pose proof (uv_pa _ _ _ _ U) as P. pose proof (uv_wf _ _ _ _ U) as W.
  assert (forall x, Q x -> ~ tabbyte m root x) as Hx.
  { intros x Hq. destruct (HQ x Hq) as (k & Hk & Hr). destruct (uv_page _ _ _ _ U k Hk) as (_ & _ & Hl & Hnt).
    apply (not_tab_block m L root _ 1 x P W Hl Hnt). lia. }
  assert (forall va, pt_get m' root va = pt_get m root va) as Hg by (intros va; by apply (pt_get_frame m m' root Q)).
  assert (forall x, tabbyte m' root x <-> tabbyte m root x) as Ht by (intros x; by apply (tabbyte_frame m m' root Q)).
  split_and!; [|done|done]. split.
  - apply (pa_write m); [done|]. apply (same_off_weaken _ _ _ _ So). intros x Hq.
    destruct (HQ x Hq) as (k & Hk & Hr). destruct (uv_page _ _ _ _ U k Hk) as (_ & _ & Hl & _).
    exists (upage m root k), 1. split; [done|unfold PGSIZE; lia].
  - by apply (ptwf_frame m m' L L root Q W So Hx).
  - apply (uv_n _ _ _ _ U).
  - intros k Hk. unfold upage. rewrite Hg, Ht. by apply (uv_page _ _ _ _ U).
  - intros j k Hj Hk. unfold upage. rewrite !Hg. by apply (uv_inj _ _ _ _ U).
  - intros va. rewrite Hg. apply (uv_free _ _ _ _ U).
  - intros va. rewrite Hg. apply (uv_tramp _ _ _ _ U).
  - intros va. rewrite Hg. apply (uv_top _ _ _ _ U).
Qed.

(** Distinct accessible addresses have distinct physical ones. *)
Lemma uphys_inj m va va' :
  uvm m L root n -> 0 <= va -> 0 <= va' -> umapped m root va = true -> umapped m root va' = true ->
  uphys m root va = uphys m root va' -> va = va'.
Proof.
  intros U H0 H0' Hm Hm' E. destruct (umapped_page m va U H0 Hm) as (k & Hk & Ek & Ep & Hl & _).
  destruct (umapped_page m va' U H0' Hm') as (k' & Hk' & Ek' & Ep' & Hl' & _).
  unfold uphys in E. rewrite Ep, Ep' in E.
  pose proof (Z.mod_pos_bound va 4096). pose proof (Z.mod_pos_bound va' 4096).
  assert (upage m root k = upage m root k') as Eu.
  { destruct (decide (upage m root k = upage m root k')) as [|Hne]; [done|exfalso].
    destruct (pages_apart m L _ _ (uv_pa _ _ _ _ U) Hl Hl' Hne); lia. }
  pose proof (uv_inj _ _ _ _ U k k' Hk Hk' Eu) as ->.
  pose proof (Z.div_mod va 4096). pose proof (Z.div_mod va' 4096). lia.
Qed.

Lemma chunk_eq va len : 0 <= len -> chunk va (va - va mod 4096) len = Z.min len (4096 - va mod 4096).
Proof.
  intros Hl. unfold chunk. pose proof (Z.mod_pos_bound va 4096).
  replace (va - (va - va mod 4096)) with (va mod 4096) by lia. unfold PGSIZE. rewrite u64_id by lia.
  destruct (Z.ltb_spec len (4096 - va mod 4096)); lia.
Qed.

Lemma umapped_same m va va' : va / 4096 = va' / 4096 -> umapped m root va = umapped m root va'.
Proof.
  intros E. unfold umapped. rewrite (pt_get_same m root va va' E). do 2 f_equal.
  change MAXVA with (2 ^ 26 * 4096).
  assert (forall v, (v <? 2 ^ 26 * 4096) = (v / 4096 <? 2 ^ 26)) as Hv.
  { intros v. pose proof (Z.div_mod v 4096). pose proof (Z.mod_pos_bound v 4096).
    destruct (Z.ltb_spec v (2 ^ 26 * 4096)), (Z.ltb_spec (v / 4096) (2 ^ 26)); lia. }
  by rewrite !Hv, E.
Qed.

Lemma page_of_chunk va i : 0 <= i < 4096 - va mod 4096 -> (va + i) / 4096 = va / 4096 /\ (va + i) mod 4096 = va mod 4096 + i.
Proof.
  intros Hi. pose proof (Z.div_mod va 4096). pose proof (Z.mod_pos_bound va 4096).
  split; [symmetry; apply Z.div_unique with (va mod 4096 + i); lia|].
  symmetry. apply Z.mod_unique with (va / 4096); lia.
Qed.
Lemma page_base va : (va - va mod 4096) / 4096 = va / 4096.
Proof.
  pose proof (Z.div_mod va 4096). replace (va - va mod 4096) with (va / 4096 * 4096) by lia. apply Z.div_mul. lia.
Qed.

(** Kernel memory that no user page overlaps. *)
Definition kmem (m : ram) (a len : Z) : Prop :=
  ram_lo m <= a /\ a + len <= ram_hi m /\ 0 <= ram_lo m /\
  forall x, a <= x < a + len -> ~ in_user m x.

(** The bytes [copyout] may write. *)
Definition out_bytes (m : ram) (va len x : Z) : Prop :=
  exists i, 0 <= i < len /\ umapped m root (va + i) = true /\ x = uphys m root (va + i).

(** Copying one page's worth of bytes out. *)
Lemma copyout_chunk m va src len :
  uvm m L root n -> 0 <= va -> 0 < len -> kmem m src len -> umapped m root va = true ->
  let c := Z.min len (4096 - va mod 4096) in
  exists m1 d, memmove (PTE2PA (pt_get m root va) + va mod 4096) src c m = Ok (d, m1) /\
    uvm m1 L root n /\ (forall va, pt_get m1 root va = pt_get m root va) /\
    same_off (out_bytes m va c) m m1 /\
    (forall i, 0 <= i < c -> umapped m root (va + i) = true /\ byte_at m1 (uphys m root (va + i)) = byte_at m (src + i)).
Proof.
  intros U H0 Hlen (K1 & K2 & K3 & K4) Hm c. pose proof (Z.mod_pos_bound va 4096).
  destruct (umapped_page m va U H0 Hm) as (k & Hk & Ek & Ep & Hl & _).
  destruct (upage_range m k U Hk) as (? & ? & ? & ?). rewrite Ep.
  destruct (memmove_spec (upage m root k + va mod 4096) src c m) as (m1 & E & So & Hb); [lia..|].
  assert (forall i, 0 <= i < c -> umapped m root (va + i) = true /\ uphys m root (va + i) = upage m root k + va mod 4096 + i) as Hi.
  { intros i Hi. destruct (page_of_chunk va i) as [Hd Hmod]; [lia|]. split; [by rewrite (umapped_same m (va + i) va)|].
    unfold uphys. rewrite (pt_get_same m root (va + i) va), Ep, Hmod by done. lia. }
  assert (same_off (out_bytes m va c) m m1) as So'.
  { apply (same_off_weaken _ _ _ _ So). intros x Hx. exists (x - (upage m root k + va mod 4096)).
    split; [lia|]. destruct (Hi (x - (upage m root k + va mod 4096)) ltac:(lia)) as [? ->]. split; [done|lia]. }
  destruct (user_write m m1 _ U So) as (U1 & Hg & _); [intros x Hx; exists k; split; [done|lia]|].
  exists m1, (upage m root k + va mod 4096). split_and!; try done. intros i Hii. destruct (Hi i Hii) as [? ->]. split; [done|by apply Hb].
Qed.

Lemma kmem_same m m' a len :
  (forall va, pt_get m' root va = pt_get m root va) -> ram_lo m' = ram_lo m -> ram_hi m' = ram_hi m ->
  kmem m a len -> kmem m' a len.
Proof.
  intros Hg Hlo Hhi (K1 & K2 & K3 & K4). split_and!; [lia..|]. intros x Hx (k & Hk & Hr). apply (K4 x Hx).
  exists k. unfold upage in *. rewrite Hg in Hr. done.
Qed.
Lemma kmem_sub m a len b len' : kmem m a len -> a <= b -> b + len' <= a + len -> kmem m b len'.
Proof. intros (K1 & K2 & K3 & K4) H1 H2. split_and!; [lia..|]. intros x Hx. apply K4. lia. Qed.
Lemma umapped_get m m' va : (forall va, pt_get m' root va = pt_get m root va) -> umapped m' root va = umapped m root va.
Proof. intros Hg. unfold umapped. by rewrite Hg. Qed.
Lemma uphys_get m m' va : (forall va, pt_get m' root va = pt_get m root va) -> uphys m' root va = uphys m root va.
Proof. intros Hg. unfold uphys. by rewrite Hg. Qed.
Lemma uphys_user m va : uvm m L root n -> 0 <= va -> umapped m root va = true -> in_user m (uphys m root va).
Proof.
  intros U H0 Hm. destruct (umapped_page m va U H0 Hm) as (k & Hk & _ & Ep & _). exists k. split; [done|].
  unfold uphys. rewrite Ep. pose proof (Z.mod_pos_bound va 4096). lia.
Qed.

Lemma copyout_loop_spec k : forall va src len m,
  uvm m L root n -> 0 <= va < 2 ^ 64 -> 0 <= len -> kmem m src len -> (len = 0 \/ va mod 4096 + len <= Z.of_nat k * 4096) ->
  exists r m', copyout_loop pg_alloc root k va src len m = Ok (r, m') /\ uvm m' L root n /\
    (forall va, pt_get m' root va = pt_get m root va) /\ same_off (out_bytes m va len) m m' /\
    (r = 0 /\ (forall i, 0 <= i < len ->
       umapped m root (va + i) = true /\ byte_at m' (uphys m root (va + i)) = byte_at m (src + i)) \/
     r = -1 /\ exists i, 0 <= i < len /\ umapped m root (va + i) = false).
Proof.
  induction k as [|k IH]; intros va src len m U Hva Hlen K Hk; cbn [copyout_loop]; unram.
  all: pose proof (Z.mod_pos_bound va 4096); destruct (Z.ltb_spec 0 len); [try lia|
    exists 0, m; split_and!; [done..|apply same_off_refl|left; split; [done|lia]]].
  rewrite PGROUNDDOWN_eq. rewrite (bind_ok _ _ _ _ _ (walkaddr_spec m L root _ (uv_pa _ _ _ _ U) (uv_wf _ _ _ _ U))).
  rewrite (umapped_same m _ va), (pt_get_same m root _ va) by apply page_base.
  destruct (umapped m root va) eqn:Hm.
  2: { exists (-1), m. split_and!; [done..|apply same_off_refl|right]. split; [done|]. exists 0. rewrite Z.add_0_r. split; [lia|done]. }
  destruct (umapped_page m va U ltac:(lia) Hm) as (kk & Hkk & Ekk & Ep & _). destruct (upage_range m kk U Hkk) as (? & _).
  destruct (Z.eqb_spec (PTE2PA (pt_get m root va)) 0); [lia|].
  rewrite chunk_eq by lia. replace (va - (va - va mod 4096)) with (va mod 4096) by lia.
  destruct (copyout_chunk m va src len U ltac:(lia) ltac:(lia) K Hm) as (m1 & d & E1 & U1 & Hg & So & Hb).
  rewrite (bind_ok _ _ _ _ _ E1). set (c := Z.min len (4096 - va mod 4096)) in *.
  assert (va < MAXVA) as Hmax by (unfold umapped in Hm; bool_to_prop; done). rewrite MAXVA_eq in Hmax.
  rewrite u64_id by (unfold PGSIZE; lia). unfold PGSIZE. set (va' := va - va mod 4096 + 4096).
  assert (va' mod 4096 = 0) as Hm'.
  { unfold va'. pose proof (Z.div_mod va 4096). symmetry. apply Z.mod_unique with (va / 4096 + 1); lia. }
  assert (len - c = 0 \/ va' = va + c) as Hnext by lia.
  destruct (IH va' (src + c) (len - c) m1 U1) as (r & m' & E & U' & Hg' & So' & Hr); [lia|lia| |lia|].
  { apply (kmem_sub m1 src len); [|lia..]. apply (kmem_same m); [done|apply So|apply So|done]. }
  assert (forall i, 0 <= i < len - c -> va' + i = va + (c + i)) as Hvi by lia.
  exists r, m'. split_and!; [done|done|intros v; by rewrite Hg', Hg| |].
  - eapply same_off_trans; [exact So|exact So'|]. intros x [(i & Hi & Hx)|(i & Hi & Hx & ->)].
    + exists i. split; [lia|done].
    + rewrite Hvi, (umapped_get m m1), (uphys_get m m1) in * by done. exists (c + i). split; [lia|done].
  - destruct Hr as [[-> Hc]|[-> (i & Hi & Hx)]]; [left|right].
    + split; [done|]. intros i Hi. destruct (Z.lt_ge_cases i c).
      * destruct (Hb i ltac:(lia)) as [Hu <-]. split; [done|]. apply So'. intros (j & Hj & Hu' & Ej).
        rewrite Hvi, (umapped_get m m1), (uphys_get m m1) in * by done. apply (uphys_inj m) in Ej; try done; lia.
      * destruct (Hc (i - c) ltac:(lia)) as [Hu He]. rewrite Hvi, (umapped_get m m1), (uphys_get m m1) in * by (done || lia).
        replace (c + (i - c)) with i in * by lia. replace (src + c + (i - c)) with (src + i) in He by lia.
        split; [done|]. rewrite He. apply So. intros (j & Hj & Hu' & Ej). destruct K as (_ & _ & _ & K4).
        apply (K4 (src + i)); [lia|]. rewrite Ej. apply uphys_user; [done|lia|done].
    + split; [done|]. exists (c + i). rewrite Hvi, (umapped_get m m1) in Hx by done. split; [lia|done].
Qed.

(** ** Copying in *)

(** A kernel buffer: neither user memory, nor page table, nor allocator data. *)
Record kbuf (m : ram) (a len : Z) : Prop := {
  kb_mem : kmem m a len;
  kb_tab : forall x, a <= x < a + len -> ~ tabbyte m root x;
  kb_pa : forall m1 m2, pa_inv m1 L -> same_off (fun x => a <= x < a + len) m1 m2 -> pa_inv m2 L
}.

Lemma kbuf_write m m' a len b len' :
  uvm m L root n -> kbuf m a len -> same_off (fun x => b <= x < b + len') m m' -> a <= b -> b + len' <= a + len ->
  uvm m' L root n /\ (forall va, pt_get m' root va = pt_get m root va) /\
  (forall x, tabbyte m' root x <-> tabbyte m root x) /\ kbuf m' a len /\
  forall va, 0 <= va -> umapped m root va = true -> byte_at m' (uphys m root va) = byte_at m (uphys m root va).
Proof.
  intros U [K1 K2 K3] So Hb Hb'.
  assert (forall x, b <= x < b + len' -> ~ tabbyte m root x) as Hx by (intros x Hx; apply K2; lia).
  assert (forall va, pt_get m' root va = pt_get m root va) as Hg by (intros va; by apply (pt_get_frame m m' root _ va So)).
  assert (forall x, tabbyte m' root x <-> tabbyte m root x) as Ht by (intros x; by apply (tabbyte_frame m m' root _ x So)).
  split_and!; [|done|done| |].
  - split.
    + apply (K3 m); [apply (uv_pa _ _ _ _ U)|]. apply (same_off_weaken _ _ _ _ So). lia.
    + by apply (ptwf_frame m m' L L root _ (uv_wf _ _ _ _ U) So Hx).
    + apply (uv_n _ _ _ _ U).
    + intros k Hk. unfold upage. rewrite Hg, Ht. by apply (uv_page _ _ _ _ U).
    + intros j k Hj Hk. unfold upage. rewrite !Hg. by apply (uv_inj _ _ _ _ U).
    + intros va. rewrite Hg. apply (uv_free _ _ _ _ U).
    + intros va. rewrite Hg. apply (uv_tramp _ _ _ _ U).
    + intros va. rewrite Hg. apply (uv_top _ _ _ _ U).
  - split; [apply (kmem_same m); [done|apply So|apply So|done]|intros x Hxx; rewrite Ht; by apply K2|done].
  - intros va H0 Hm. apply So. intros Hr. destruct K1 as (_ & _ & _ & K4).
    apply (K4 (uphys m root va)); [lia|]. by apply uphys_user.
Qed.

Lemma kbuf_sub m a len b len' : kbuf m a len -> a <= b -> 0 <= len' -> b + len' <= a + len -> kbuf m b len'.
Proof.
  intros [K1 K2 K3] H1 H0 H2. split; [by apply (kmem_sub m a len)|intros x Hx; apply K2; lia|].
  intros m1 m2 P So. apply (K3 m1); [done|]. apply (same_off_weaken _ _ _ _ So). lia.
Qed.

(** Both loops go page by page. *)
Lemma next_page va : 0 <= va < MAXVA ->
  let va' := va - va mod 4096 + 4096 in
  u64 (va - va mod 4096 + PGSIZE) = va' /\ 0 <= va' < 2 ^ 64 /\ va' mod 4096 = 0 /\ va' = va + (4096 - va mod 4096).
Proof.
  rewrite MAXVA_eq. intros H va'. pose proof (Z.mod_pos_bound va 4096). pose proof (Z.div_mod va 4096).
  unfold va', PGSIZE. rewrite u64_id by lia. split_and!; try lia. symmetry. apply Z.mod_unique with (va / 4096 + 1); lia.
Qed.

Lemma copyin_loop_spec k : forall dst va len m,
  uvm m L root n -> 0 <= va < 2 ^ 64 -> 0 <= len -> kbuf m dst len -> (len = 0 \/ va mod 4096 + len <= Z.of_nat k * 4096) ->
  exists r m', copyin_loop pg_alloc root k dst va len m = Ok (r, m') /\ uvm m' L root n /\
    same_off (fun x => dst <= x < dst + len) m m' /\
    (r = 0 /\ (forall i, 0 <= i < len ->
       umapped m root (va + i) = true /\ byte_at m' (dst + i) = byte_at m (uphys m root (va + i))) \/
     r = -1 /\ exists i, 0 <= i < len /\ umapped m root (va + i) = false).
Proof.
  induction k as [|k IH]; intros dst va len m U Hva Hlen K Hk; cbn [copyin_loop]; unram.
  all: pose proof (Z.mod_pos_bound va 4096); destruct (Z.ltb_spec 0 len); [try lia|
    exists 0, m; split_and!; [done..|apply same_off_refl|left; split; [done|lia]]].
  rewrite PGROUNDDOWN_eq. rewrite (bind_ok _ _ _ _ _ (walkaddr_spec m L root _ (uv_pa _ _ _ _ U) (uv_wf _ _ _ _ U))).
  rewrite (umapped_same m _ va), (pt_get_same m root _ va) by apply page_base.
  destruct (umapped m root va) eqn:Hm.
  2: { exists (-1), m. split_and!; [done..|apply same_off_refl|right]. split; [done|]. exists 0. rewrite Z.add_0_r. split; [lia|done]. }
  destruct (umapped_page m va U ltac:(lia) Hm) as (kk & Hkk & Ekk & Ep & _). destruct (upage_range m kk U Hkk) as (? & ? & ? & ?).
  destruct (Z.eqb_spec (PTE2PA (pt_get m root va)) 0); [lia|].
  rewrite chunk_eq by lia. replace (va - (va - va mod 4096)) with (va mod 4096) by lia.
  set (c := Z.min len (4096 - va mod 4096)) in *. pose proof K as [(K1 & K2 & K3 & _) _ _].
  destruct (memmove_spec dst (PTE2PA (pt_get m root va) + va mod 4096) c m) as (m1 & E1 & So & Hb); [lia..|].
  rewrite (bind_ok _ _ _ _ _ E1).
  destruct (next_page va) as (-> & Hv1 & Hv2 & Hv3); [split; [lia|unfold umapped in Hm; bool_to_prop; done]|].
  set (va' := va - va mod 4096 + 4096) in *.
  destruct (kbuf_write m m1 dst len dst c U K So) as (U1 & Hg & Ht & K' & Hu); [lia..|].
  destruct (IH (dst + c) va' (len - c) m1 U1 Hv1) as (r & m' & E & U' & So' & Hr); [lia| |lia|].
  { apply (kbuf_sub m1 dst len); [done|lia..]. }
  assert (forall i, 0 <= i < len - c -> va' + i = va + (c + i)) as Hvi by lia.
  exists r, m'. split_and!; [done|done|eapply same_off_trans; [exact So|exact So'|]; cbv beta; lia|].
  destruct Hr as [[-> Hc]|[-> (i & Hi & Hx)]]; [left|right].
  - split; [done|]. intros i Hi. destruct (Z.lt_ge_cases i c).
    + destruct (page_of_chunk va i) as [Hd Hmod]; [lia|]. rewrite (umapped_same m (va + i) va) by done. split; [done|].
      rewrite (proj2 (proj2 So')) by lia. rewrite Hb by lia. unfold uphys.
      rewrite (pt_get_same m root (va + i) va), Hmod by done. f_equal. lia.
    + destruct (Hc (i - c) ltac:(lia)) as [Hm' He]. rewrite Hvi, (umapped_get m m1), (uphys_get m m1) in * by (done || lia).
      replace (c + (i - c)) with i in * by lia. split; [done|]. rewrite <- Hu by (done || lia). rewrite <- He. f_equal. lia.
  - split; [done|]. exists (c + i). rewrite Hvi, (umapped_get m m1) in Hx by done. split; [lia|done].
Qed.

(** ** Copying strings in *)

Lemma copyinstr_page_spec k : forall p dst max m,
  ram_lo m <= p -> p + Z.of_nat k <= ram_hi m -> ram_lo m <= dst -> dst + Z.of_nat k <= ram_hi m ->
  (forall x, dst <= x < dst + Z.of_nat k -> ~ (p <= x < p + Z.of_nat k)) ->
  exists j m' b, copyinstr_page k p dst max m = Ok (b, max - j, dst + j, m') /\ 0 <= j <= Z.of_nat k /\
    same_off (fun x => dst <= x < dst + Z.of_nat k) m m' /\
    (forall i, 0 <= i < j -> byte_at m (p + i) <> 0 /\ byte_at m' (dst + i) = byte_at m (p + i)) /\
    (b = true /\ j < Z.of_nat k /\ byte_at m (p + j) = 0 /\ byte_at m' (dst + j) = 0 \/
     b = false /\ j = Z.of_nat k).
Proof.
  induction k as [|k IH]; intros p dst max m H1 H2 H3 H4 Hd; cbn [copyinstr_page].
  { exists 0, m, false. rewrite Z.sub_0_r, Z.add_0_r. split_and!; [done..|apply same_off_refl|lia|by right]. }
  cstep. rewrite peek1_byte. destruct (Z.eqb_spec (byte_at m p) 0) as [Hz|Hz].
  - cstep. exists 0, (poke 1 m dst 0), true. rewrite Z.sub_0_r, Z.add_0_r. split_and!; [done|lia..| |lia|].
    + apply (same_off_weaken _ _ _ _ (same_off_poke 1 m dst 0)). lia.
    + left. rewrite Z.add_0_r. split_and!; [done|lia|done|]. rewrite byte_at_poke1. by rewrite decide_True.
  - cstep. cstep. rewrite peek1_byte. set (m1 := poke 1 m dst (byte_at m p)).
    pose proof (same_off_poke 1 m dst (byte_at m p)) as S1. fold m1 in S1.
    assert (forall x, p <= x < p + Z.of_nat (S k) -> byte_at m1 x = byte_at m x) as Hb1.
    { intros x Hx. apply S1. intros Hy. apply (Hd x); lia. }
    destruct (IH (p + 1) (dst + 1) (max - 1) m1) as (j & m' & b & E & Hj & So & Hc & Hr);
      unfold m1; rewrite ?ram_lo_poke, ?ram_hi_poke; try lia.
    { intros x Hx Hy. apply (Hd x); lia. }
    exists (j + 1), m', b. fold m1. split_and!; [|lia|lia| | |].
    { replace (max - (j + 1)) with (max - 1 - j) by lia. by replace (dst + (j + 1)) with (dst + 1 + j) by lia. }
    + eapply same_off_trans; [exact S1|exact So|]. cbv beta. lia.
    + intros i Hi. destruct (decide (i = 0)) as [->|].
      * rewrite !Z.add_0_r. split; [done|]. rewrite (proj2 (proj2 So)) by lia. unfold m1.
        rewrite byte_at_poke1, decide_True by done. apply u8_id, byte_at_range.
      * destruct (Hc (i - 1) ltac:(lia)) as [Hnz He]. replace (p + 1 + (i - 1)) with (p + i) in * by lia.
        replace (dst + 1 + (i - 1)) with (dst + i) in He by lia. rewrite Hb1 in Hnz, He by lia. done.
    + destruct Hr as [(-> & Hj' & Hz1 & Hz2)|[-> ->]]; [left|right].
      * replace (p + 1 + j) with (p + (j + 1)) in Hz1 by lia. replace (dst + 1 + j) with (dst + (j + 1)) in Hz2 by lia.
        rewrite Hb1 in Hz1 by lia. split_and!; [done|lia|done|done].
      * split; [done|lia].
Qed.

Lemma copyinstr_loop_spec k : forall dst va max m,
  uvm m L root n -> 0 <= va < 2 ^ 64 -> 0 <= max -> kbuf m dst max -> (max = 0 \/ va mod 4096 + max <= Z.of_nat k * 4096) ->
  exists r m' j, copyinstr_loop pg_alloc root k dst va max m = Ok (r, m') /\ uvm m' L root n /\
    same_off (fun x => dst <= x < dst + max) m m' /\ 0 <= j <= max /\
    (forall i, 0 <= i < j -> umapped m root (va + i) = true /\ byte_at m (uphys m root (va + i)) <> 0 /\
       byte_at m' (dst + i) = byte_at m (uphys m root (va + i))) /\
    (r = 0 /\ j < max /\ umapped m root (va + j) = true /\ byte_at m (uphys m root (va + j)) = 0 /\ byte_at m' (dst + j) = 0 \/
     r = -1 /\ (j = max \/ umapped m root (va + j) = false)).
Proof.
  induction k as [|k IH]; intros dst va max m U Hva Hlen K Hk; cbn [copyinstr_loop]; unram.
  all: pose proof (Z.mod_pos_bound va 4096); destruct (Z.ltb_spec 0 max); [try lia|
    exists (-1), m, 0; split_and!; [done..|apply same_off_refl|lia|lia|lia|right; split; [done|left; lia]]].
  rewrite PGROUNDDOWN_eq. rewrite (bind_ok _ _ _ _ _ (walkaddr_spec m L root _ (uv_pa _ _ _ _ U) (uv_wf _ _ _ _ U))).
  rewrite (umapped_same m _ va), (pt_get_same m root _ va) by apply page_base.
  destruct (umapped m root va) eqn:Hm.
  2: { exists (-1), m, 0. rewrite Z.add_0_r. split_and!; [done..|apply same_off_refl|lia|lia|lia|right; auto]. }
  destruct (umapped_page m va U ltac:(lia) Hm) as (kk & Hkk & Ekk & Ep & _). destruct (upage_range m kk U Hkk) as (? & ? & ? & ?).
  destruct (Z.eqb_spec (PTE2PA (pt_get m root va)) 0); [lia|].
  rewrite chunk_eq by lia. replace (va - (va - va mod 4096)) with (va mod 4096) by lia.
  set (c := Z.min max (4096 - va mod 4096)) in *. pose proof K as [(K1 & K2 & K3 & K4) _ _].
  destruct (copyinstr_page_spec (Z.to_nat c) (PTE2PA (pt_get m root va) + va mod 4096) dst max m)
    as (j & m1 & b & E1 & Hj & So & Hcp & Hb); [lia..| |].
  { intros x Hx Hy. apply (K4 x); [lia|]. exists kk. split; [done|lia]. }
  rewrite (bind_ok _ _ _ _ _ E1). rewrite !Z2Nat.id in * by lia.
  assert (forall i, 0 <= i < c -> umapped m root (va + i) = true /\
    uphys m root (va + i) = PTE2PA (pt_get m root va) + va mod 4096 + i) as Hi.
  { intros i Hi. destruct (page_of_chunk va i) as [Hd Hmod]; [lia|]. split; [by rewrite (umapped_same m (va + i) va)|].
    unfold uphys. rewrite (pt_get_same m root (va + i) va), Hmod by done. lia. }
  destruct (kbuf_write m m1 dst max dst c U K So) as (U1 & Hg & Ht & K' & Hu); [lia..|].
  assert (same_off (fun x => dst <= x < dst + max) m m1) as So1 by (apply (same_off_weaken _ _ _ _ So); lia).
  destruct Hb as [(-> & Hjc & Hz1 & Hz2)|[-> ->]].
  { destruct (Hi j ltac:(lia)) as [Hmj Epj]. exists 0, m1, j. split_and!; [done|done|done|lia|lia| |].
    - intros i Hii. destruct (Hi i ltac:(lia)) as [? ->]. destruct (Hcp i Hii) as [? ?]. done.
    - left. rewrite Epj. split_and!; [done|lia|done..]. }
  destruct (next_page va) as (-> & Hv1 & Hv2 & Hv3); [split; [lia|unfold umapped in Hm; bool_to_prop; done]|].
  set (va' := va - va mod 4096 + 4096) in *.
  destruct (IH (dst + c) va' (max - c) m1 U1 Hv1) as (r & m' & j & E & U' & So' & Hj' & Hcp' & Hr); [lia| |lia|].
  { apply (kbuf_sub m1 dst max); [done|lia..]. }
  assert (forall i, 0 <= i <= max - c -> max - c = 0 \/ va' + i = va + (c + i)) as Hvi by lia.
  exists r, m', (c + j). split_and!; [done|done|eapply same_off_trans; [exact So|exact So'|]; cbv beta; lia|lia|lia| |].
  - intros i Hii. destruct (Z.lt_ge_cases i c).
    + destruct (Hi i ltac:(lia)) as [? ->]. destruct (Hcp i ltac:(lia)) as [Hnz He]. split_and!; [done..|].
      rewrite <- He. apply So'. lia.
    + destruct (Hcp' (i - c) ltac:(lia)) as (Hm' & Hnz & He). destruct (Hvi (i - c) ltac:(lia)) as [|Ev]; [lia|].
      rewrite Ev, (umapped_get m m1), (uphys_get m m1) in * by done. replace (c + (i - c)) with i in * by lia.
      rewrite Hu in Hnz, He by (done || lia). replace (dst + c + (i - c)) with (dst + i) in He by lia. done.
  - destruct (Hvi j ltac:(lia)) as [Hz|Ev].
    + right. destruct Hr as [(_ & ? & _)|[-> _]]; [lia|]. split; [done|left; lia].
    + rewrite Ev, (umapped_get m m1), (uphys_get m m1) in Hr by done. destruct Hr as [(-> & Hlt & Hm' & Hz & Hz')|[-> Hr]]; [left|right].
      * rewrite Hu in Hz by (done || lia). replace (dst + c + j) with (dst + (c + j)) in Hz' by lia. split_and!; [done|lia|done..].
      * split; [done|]. destruct Hr as [->|]; [left; lia|by right].
Qed.
End Space.
End Copy.
