(* ===== verification/VmFree.v ===== *)
(** * Virtual memory: releasing a page table

    [freewalk] on a tree of tables without leaf mappings gives every table
    back to the page allocator and nothing else. *)

From S2P Require Import Prelude CInt Memory KString Vm VmInv PageAlloc VmWalk VmMap VmUser VmSpace.

(** ** Trees of tables *)

Definition tpath (d : nat) (p : list Z) : Prop := Forall idx_ok p /\ (length p <= d)%nat.

(** A tree of depth [d] at [t] whose lowest tables are empty. *)
Record tree (d : nat) (m : ram) (L : gmap Z Z) (t : Z) : Prop := {
  tr_live : forall p q, tpath d p -> node m t p = Some q -> L !! q = Some 1;
  tr_inj : forall p p' q, tpath d p -> tpath d p' -> node m t p = Some q -> node m t p' = Some q -> p = p';
  tr_ptr : forall p q i, tpath d p -> (length p < d)%nat -> idx_ok i -> node m t p = Some q ->
    bits (peek 8 m (pte_at q i)) PTE_V = true ->
    bits (peek 8 m (pte_at q i)) (Z.lor (Z.lor PTE_R PTE_W) PTE_X) = false;
  tr_leaf : forall p q i, tpath d p -> length p = d -> idx_ok i -> node m t p = Some q ->
    bits (peek 8 m (pte_at q i)) PTE_V = false
}.

Definition tnode (d : nat) (m : ram) (t q : Z) : Prop := exists p, tpath d p /\ node m t p = Some q.

Lemma tpath_nil d : tpath d [].
Proof. split; [constructor|cbn; lia]. Qed.
Lemma tpath_cons d i p : tpath (S d) (i :: p) <-> idx_ok i /\ tpath d p.
Proof. unfold tpath. rewrite Forall_cons. cbn. intuition lia. Qed.

Lemma child_node m t i c p : child m t i = Some c -> node m t (i :: p) = node m c p.
Proof. intros H. cbn [node]. by rewrite H. Qed.

(** A child of the root is the root of a smaller tree. *)
Lemma tree_child d m L t i c : tree (S d) m L t -> idx_ok i -> child m t i = Some c -> tree d m L c.
Proof.
  intros T Hi Hc. assert (forall p, node m t (i :: p) = node m c p) as Hn by (intros; by apply child_node). split.
  - intros p q Hp Hq. apply (tr_live _ _ _ _ T (i :: p)); [by apply tpath_cons|by rewrite Hn].
  - intros p p' q Hp Hp' Hq Hq'. assert (i :: p = i :: p') as [=]; [|done].
    apply (tr_inj _ _ _ _ T _ _ q); rewrite ?Hn; try done; by apply tpath_cons.
  - intros p q j Hp Hl Hj Hq. apply (tr_ptr _ _ _ _ T (i :: p)); [by apply tpath_cons|cbn; lia|done|by rewrite Hn].
  - intros p q j Hp Hl Hj Hq. apply (tr_leaf _ _ _ _ T (i :: p)); [by apply tpath_cons|cbn; lia|done|by rewrite Hn].
Qed.

Lemma tnode_child d m L t i c q : tree (S d) m L t -> idx_ok i -> child m t i = Some c -> tnode d m c q ->
  tnode (S d) m t q /\ q <> t.
Proof.
  intros T Hi Hc (p & Hp & Hn). rewrite <- (child_node m t i c p Hc) in Hn.
  assert (tpath (S d) (i :: p)) as Hip by (by apply tpath_cons). split; [by exists (i :: p)|]. intros ->.
  by pose proof (tr_inj _ _ _ _ T (i :: p) [] t Hip (tpath_nil _) Hn eq_refl).
Qed.

Section Free.
Context {pg_alloc : Z -> M ram Z} {pg_free : Z -> M ram unit}.
Context {PA : PageAllocator PGSIZE pg_alloc pg_free}.

(** The pages of [F] were released and nothing else changed. *)
Record released (m : ram) (L : gmap Z Z) (m' : ram) (L' : gmap Z Z) (F : Z -> Prop) : Prop := {
  re_pa : pa_inv m' L';
  re_freed : forall q, F q -> L' !! q = None;
  re_kept : forall q, ~ F q -> L' !! q = L !! q;
  re_off : same_off (fun x => ~ in_live PGSIZE L' x) m m'
}.

Lemma released_live m L m' L' F q k x :
  released m L m' L' F -> L !! q = Some k -> ~ F q -> q <= x < q + k * 4096 -> byte_at m' x = byte_at m x.
Proof.
  intros R Hq HF Hx. apply (re_off _ _ _ _ _ R). intros Hl. apply Hl. exists q, k.
  rewrite (re_kept _ _ _ _ _ R) by done. by unfold PGSIZE.
Qed.

(** Cutting the child [i] off after its subtree was released. *)
Section Cut.
Context (d : nat) (t i c : Z) (m m1 m2 : ram) (L L1 : gmap Z Z).
Context (P : pa_inv m L) (T : tree (S d) m L t) (Hi : idx_ok i) (Hc : child m t i = Some c).
Context (R : released m L m1 L1 (tnode d m c)) (E2 : m2 = poke 8 m1 (pte_at t i) 0).

Lemma cut_live : L !! t = Some 1 /\ L1 !! t = Some 1 /\ ~ tnode d m c t.
Proof using All.
  assert (L !! t = Some 1) as HL by (apply (tr_live _ _ _ _ T [] t (tpath_nil _)); done).
  assert (~ tnode d m c t) as Hn by (intros H; by destruct (tnode_child d m L t i c t T Hi Hc H)).
  split_and!; [done| |done]. by rewrite (re_kept _ _ _ _ _ R).
Qed.

(** Entries of the tables that stay, other than the one cut. *)
Lemma cut_entry p q j :
  tpath (S d) p -> idx_ok j -> node m t p = Some q -> (forall p', p <> i :: p') -> ~ (p = [] /\ j = i) ->
  peek 8 m2 (pte_at q j) = peek 8 m (pte_at q j).
Proof using All.
  intros Hp Hj Hn Hne Hne'. pose proof (pte_at_range q j Hj). pose proof (pte_at_range t i Hi).
  destruct cut_live as (HLt & HL1t & Hnt). pose proof (tr_live _ _ _ _ T p q Hp Hn) as HLq.
  assert (~ tnode d m c q) as Hnq.
  { intros (p' & Hp' & Hn'). rewrite <- (child_node m t i c p' Hc) in Hn'.
    apply (Hne p'). apply (tr_inj _ _ _ _ T _ _ q); try done. by apply tpath_cons. }
  rewrite E2, peek_poke_ne.
  - apply peek_ext. intros x Hx. apply (released_live m L m1 L1 _ q 1 x R); [done..|lia].
  - change (Z.of_nat 8) with 8. destruct (decide (q = t)) as [->|Hqt].
    + assert (p = []) as -> by (by apply (tr_inj _ _ _ _ T p [] t Hp (tpath_nil _))).
      unfold pte_at, idx_ok in *. assert (j <> i) by tauto. lia.
    + destruct (pages_apart m L q t P HLq HLt Hqt); lia.
Qed.

Lemma cut_node p : tpath (S d) p -> node m2 t p = if decide (head p = Some i) then None else node m t p.
Proof using All.
  intros Hp. case_decide as Hd.
  - destruct p as [|j p']; cbn in Hd; [done|]. injection Hd as Hd. subst j. cbn [node]. unfold child. rewrite E2, peek8_poke_eq by lia. by rewrite bits_0.
  - apply node_same. intros p1 j p2 q -> Hn. destruct Hp as [HF Hl]. apply Forall_app in HF as [HF1 HF2].
    apply Forall_cons in HF2 as [Hj _]. rewrite length_app in Hl. cbn in Hl.
    apply (cut_entry p1); [split; [done|lia]|done|done| |].
    + intros p' ->. done.
    + intros [-> ->]. done.
Qed.

Lemma cut_tree : tree (S d) m2 L1 t.
Proof using All.
  assert (forall p q, tpath (S d) p -> node m2 t p = Some q -> node m t p = Some q /\ forall p', p <> i :: p') as Hn.
  { intros p q Hp Hq. rewrite cut_node in Hq by done. case_decide as Hd; [done|]. split; [done|]. by intros p' ->. }
  split.
  - intros p q Hp Hq. destruct (Hn p q Hp Hq) as [Hq' Hne]. rewrite (re_kept _ _ _ _ _ R); [by apply (tr_live _ _ _ _ T p)|].
    intros (p' & Hp' & Hn'). rewrite <- (child_node m t i c p' Hc) in Hn'. apply (Hne p').
    apply (tr_inj _ _ _ _ T _ _ q); try done. by apply tpath_cons.
  - intros p p' q Hp Hp' Hq Hq'. apply (tr_inj _ _ _ _ T p p' q Hp Hp'); by apply Hn.
  - intros p q j Hp Hl Hj Hq. destruct (Hn p q Hp Hq) as [Hq' Hne]. destruct (decide (p = [] /\ j = i)) as [[-> ->]|Hne'].
    + cbn in Hq. injection Hq as <-. rewrite E2, peek8_poke_eq by lia. by rewrite bits_0.
    + rewrite (cut_entry p q j Hp Hj Hq' Hne Hne'). by apply (tr_ptr _ _ _ _ T p).
  - intros p q j Hp Hl Hj Hq. destruct (Hn p q Hp Hq) as [Hq' Hne].
    rewrite (cut_entry p q j Hp Hj Hq' Hne) by (by intros [-> _]). by apply (tr_leaf _ _ _ _ T p).
Qed.

Lemma cut_nodes q : tnode (S d) m t q <-> tnode (S d) m2 t q \/ tnode d m c q.
Proof using All.
  split.
  - intros (p & Hp & Hn). destruct (decide (head p = Some i)) as [Hd|Hd].
    + right. destruct p as [|j p]; cbn in Hd; [done|]. injection Hd as Hd. subst j. rewrite (child_node m t i c p Hc) in Hn.
      exists p. apply tpath_cons in Hp as [_ Hp]. done.
    + left. exists p. rewrite cut_node by done. by rewrite decide_False.
  - intros [(p & Hp & Hn)|(p & Hp & Hn)].
    + rewrite cut_node in Hn by done. case_decide; [done|]. by exists p.
    + exists (i :: p). rewrite (child_node m t i c p Hc). split; [by apply tpath_cons|done].
Qed.

Lemma cut_apart q : tnode (S d) m2 t q -> ~ tnode d m c q.
Proof using All.
  intros (p & Hp & Hn) (p' & Hp' & Hn'). rewrite cut_node in Hn by done. case_decide as Hd; [done|].
  rewrite <- (child_node m t i c p' Hc) in Hn'. apply Hd.
  by rewrite (tr_inj _ _ _ _ T p (i :: p') q Hp (proj2 (tpath_cons d i p') (conj Hi Hp')) Hn Hn').
Qed.
End Cut.

Lemma released_trans m L m1 L1 m2 L2 (F F1 F2 : Z -> Prop) :
  released m L m1 L1 F1 -> released m1 L1 m2 L2 F2 ->
  (forall q, F q <-> F1 q \/ F2 q) -> (forall q, F1 q -> ~ F2 q) -> released m L m2 L2 F.
Proof.
  intros A B HF Hd. split.
  - apply (re_pa _ _ _ _ _ B).
  - intros q Hq. apply HF in Hq as [Hq|Hq]; [|by apply (re_freed _ _ _ _ _ B)].
    rewrite (re_kept _ _ _ _ _ B) by auto. by apply (re_freed _ _ _ _ _ A).
  - intros q Hq. rewrite (re_kept _ _ _ _ _ B), (re_kept _ _ _ _ _ A); [done|..]; intros ?; apply Hq, HF; auto.
  - eapply same_off_trans; [apply (re_off _ _ _ _ _ A)|apply (re_off _ _ _ _ _ B)|]. cbv beta.
    intros x [Hx|Hx]; [|done]. intros (q & k & Hq & Hxq). apply Hx. exists q, k. split; [|done].
    rewrite (re_kept _ _ _ _ _ B) in Hq; [done|]. intros HF2. by rewrite (re_freed _ _ _ _ _ B) in Hq.
Qed.

(** ** The loops *)

(** The effect of the loop over the entries of [t]: everything below [t] is
    released; [t] is not, but its entries change. *)
Record emptied (t : Z) (m : ram) (L : gmap Z Z) (m' : ram) (L' : gmap Z Z) (F : Z -> Prop) : Prop := {
  em_pa : pa_inv m' L';
  em_freed : forall q, F q -> q <> t -> L' !! q = None;
  em_kept : forall q, ~ (F q /\ q <> t) -> L' !! q = L !! q;
  em_off : same_off (fun x => ~ in_live PGSIZE L' x \/ t <= x < t + 4096) m m'
}.

Lemma tree_root d m L t : pa_inv m L -> tree d m L t ->
  L !! t = Some 1 /\ 0 < t /\ ram_lo m <= t /\ t + 4096 <= ram_hi m.
Proof.
  intros P T. assert (L !! t = Some 1) as HL by (apply (tr_live _ _ _ _ T [] t (tpath_nil _)); done).
  destruct (pa_range m L t 1 P HL) as (_ & ? & ? & ? & _). unfold PGSIZE in *. split_and!; [done|lia..].
Qed.

(** An entry that points to a child. *)
Lemma free_child d t i c m L rec :
  (forall t m L, pa_inv m L -> tree d m L t ->
    exists m' L', rec t m = Ok (tt, m') /\ released m L m' L' (tnode d m t)) ->
  pa_inv m L -> tree (S d) m L t -> idx_ok i -> child m t i = Some c ->
  exists m1 m2 L1, rec c m = Ok (tt, m1) /\ st64 (pte_at t i) 0 m1 = Ok (tt, m2) /\ pa_inv m2 L1 /\
    tree (S d) m2 L1 t /\ (forall q, tnode (S d) m t q <-> tnode (S d) m2 t q \/ tnode d m c q) /\
    (forall q, tnode (S d) m2 t q -> ~ tnode d m c q) /\ ~ tnode d m c t /\
    (forall q, tnode d m c q -> L1 !! q = None) /\ (forall q, ~ tnode d m c q -> L1 !! q = L !! q) /\
    (forall j, idx_ok j -> child m2 t j = if decide (j = i) then None else child m t j) /\
    same_off (fun x => ~ in_live PGSIZE L1 x \/ t <= x < t + 4096) m m2.
Proof.
  intros Hrec P T Hi Hc. destruct (Hrec c m L P (tree_child d m L t i c T Hi Hc)) as (m1 & L1 & E1 & R).
  destruct (tree_root (S d) m L t P T) as (? & ? & ? & ?). pose proof (pte_at_range t i Hi).
  destruct (cut_live d t i c m m1 (poke 8 m1 (pte_at t i) 0) L L1 P T Hi Hc R eq_refl) as (_ & HL1 & Hnt).
  pose proof (proj1 (re_off _ _ _ _ _ R)). pose proof (proj1 (proj2 (re_off _ _ _ _ _ R))).
  exists m1, (poke 8 m1 (pte_at t i) 0), L1. split_and!; try done.
  - apply st64_ok. bk.
  - apply (pa_poke m1 L1 t 1); [apply (re_pa _ _ _ _ _ R)|done|lia|change (Z.of_nat 8) with 8; unfold PGSIZE; lia].
  - by apply (cut_tree d t i c m m1 _ L L1).
  - intros q. by apply (cut_nodes d t i c m m1 _ L L1).
  - intros q. by apply (cut_apart d t i c m m1 _ L L1).
  - apply (re_freed _ _ _ _ _ R).
  - apply (re_kept _ _ _ _ _ R).
  - intros j Hj. pose proof (cut_node d t i c m m1 _ L L1 P T Hi Hc R eq_refl [j]) as Hn. cbn [node head] in Hn.
    assert (forall m', (child m' t j ≫= fun c => Some c) = child m' t j) as Hb by (intros m'; by destruct (child m' t j)).
    rewrite !Hb in Hn. rewrite Hn by (apply tpath_cons; split; [done|apply tpath_nil]).
    destruct (decide (j = i)) as [->|Hne]; [by rewrite decide_True|]. rewrite decide_False; [done|]. by intros [=].
  - eapply same_off_trans; [apply (re_off _ _ _ _ _ R)|apply same_off_poke|]. cbv beta. change (Z.of_nat 8) with 8.
    intros x [Hx|Hx]; [by left|right; lia].
Qed.

Lemma freewalk_loop_leaf rec t k : forall i m L,
  pa_inv m L -> tree 0 m L t -> 0 <= i -> i + Z.of_nat k = 512 -> freewalk_loop rec t k i m = Ok (tt, m).
Proof.
  induction k as [|k IH]; intros i m L P T Hi Hk; cbn [freewalk_loop]; unram; [done|].
  destruct (tree_root 0 m L t P T) as (? & ? & ? & ?). assert (idx_ok i) as Hix by (unfold idx_ok; lia).
  pose proof (pte_at_range t i Hix). cstep. rewrite (tr_leaf _ _ _ _ T [] t i (tpath_nil _) eq_refl Hix eq_refl).
  cbn [andb]. rewrite bind_ret. apply (IH (i + 1) m L); [done..|lia|lia].
Qed.

Lemma freewalk_loop_spec d rec t k :
  (forall t m L, pa_inv m L -> tree d m L t ->
    exists m' L', rec t m = Ok (tt, m') /\ released m L m' L' (tnode d m t)) ->
  forall i m L, pa_inv m L -> tree (S d) m L t -> 0 <= i -> i + Z.of_nat k = 512 ->
  (forall j, 0 <= j < i -> child m t j = None) ->
  exists m' L', freewalk_loop rec t k i m = Ok (tt, m') /\ emptied t m L m' L' (tnode (S d) m t).
Proof.
  intros Hrec. induction k as [|k IH]; intros i m L P T Hi Hk Hz; cbn [freewalk_loop]; unram.
  - exists m, L. split; [done|]. split; [done| |done|apply same_off_refl]. intros q (p & Hp & Hn) Hne. exfalso.
    destruct p as [|j p]; cbn [node] in Hn; [congruence|]. apply tpath_cons in Hp as [Hj _]. unfold idx_ok in Hj.
    rewrite Hz in Hn by lia. done.
  - destruct (tree_root (S d) m L t P T) as (HLt & ? & ? & ?). assert (idx_ok i) as Hix by (unfold idx_ok; lia).
    pose proof (pte_at_range t i Hix). cstep. destruct (bits (peek 8 m (pte_at t i)) PTE_V) eqn:EV.
    + rewrite (tr_ptr _ _ _ _ T [] t i (tpath_nil _) ltac:(cbn; lia) Hix eq_refl EV). cbn [andb negb].
      assert (child m t i = Some (PTE2PA (peek 8 m (pte_at t i)))) as Hc by (unfold child; by rewrite EV).
      destruct (free_child d t i _ m L rec Hrec P T Hix Hc) as (m1 & m2 & L1 & E1 & E2 & P2 & T2 & Hnn & Hap & Hct & Hfr & Hkp & Hch & So).
      rewrite bind_assoc, (bind_ok _ _ _ _ _ E1), (bind_ok _ _ _ _ _ E2). set (c := PTE2PA _) in *.
      destruct (IH (i + 1) m2 L1 P2 T2) as (m' & L' & E' & X); [lia|lia| |].
      { intros j Hj. rewrite Hch by (unfold idx_ok; lia). case_decide; [done|]. apply Hz. lia. }
      exists m', L'. split; [done|]. split.
      * apply (em_pa _ _ _ _ _ _ X).
      * intros q Hq Hne. apply Hnn in Hq as [Hq|Hq]; [by apply (em_freed _ _ _ _ _ _ X)|].
        rewrite (em_kept _ _ _ _ _ _ X); [by apply Hfr|]. intros [Hq' _]. by apply (Hap q).
      * intros q Hq. rewrite (em_kept _ _ _ _ _ _ X), Hkp; [done|..].
        -- intros Hq'. apply Hq. split; [apply Hnn; by right|]. by intros ->.
        -- intros [Hq' Hne]. apply Hq. split; [apply Hnn; by left|done].
      * eapply same_off_trans; [exact So|apply (em_off _ _ _ _ _ _ X)|]. cbv beta.
        intros x [[Hx|Hx]|Hx]; [|by right|done]. left. intros (q & n & Hq & Hxq). apply Hx. exists q, n. split; [|done].
        rewrite (em_kept _ _ _ _ _ _ X) in Hq; [done|]. intros [Hq' Hne]. by rewrite (em_freed _ _ _ _ _ _ X) in Hq.
    + cbn [andb]. rewrite bind_ret. apply (IH (i + 1) m L); [done..|lia|lia|]. intros j Hj.
      destruct (decide (j = i)) as [->|]; [unfold child; by rewrite EV|apply Hz; lia].
Qed.

(** Releasing the table once it is empty. *)
Lemma free_root d t m L m1 L1 :
  pa_inv m L -> tree d m L t -> emptied t m L m1 L1 (tnode d m t) ->
  exists m' L', kfree pg_free t m1 = Ok (tt, m') /\ released m L m' L' (tnode d m t).
Proof.
  intros P T X. destruct (tree_root d m L t P T) as (HLt & _).
  assert (L1 !! t = Some 1) as HL1 by (rewrite (em_kept _ _ _ _ _ _ X); [done|tauto]).
  destruct (pa_free m1 L1 t 1 (em_pa _ _ _ _ _ _ X) HL1) as (m' & E & P' & S').
  exists m', (delete t L1). split; [done|]. split.
  - done.
  - intros q Hq. destruct (decide (q = t)) as [->|Hne]; [apply lookup_delete_eq|].
    rewrite lookup_delete_ne by done. by apply (em_freed _ _ _ _ _ _ X).
  - intros q Hq. rewrite lookup_delete_ne.
    + apply (em_kept _ _ _ _ _ _ X). tauto.
    + intros ->. apply Hq. exists []. split; [apply tpath_nil|done].
  - eapply same_off_trans; [apply (em_off _ _ _ _ _ _ X)|exact S'|]. cbv beta. intros x [[Hx|Hx]|[Hx _]]; [| |done].
    + intros (q & n & Hq & Hxq). apply lookup_delete_Some in Hq as [_ Hq]. apply Hx. by exists q, n.
    + intros (q & n & Hq & Hxq). apply lookup_delete_Some in Hq as [Hne Hq].
      destruct (pa_disjoint m1 L1 t 1 q n (em_pa _ _ _ _ _ _ X) HL1 Hq Hne); unfold PGSIZE in *; lia.
Qed.

Lemma freewalk_spec d : forall t m L,
  pa_inv m L -> tree d m L t ->
  exists m' L', freewalk pg_free (S d) t m = Ok (tt, m') /\ released m L m' L' (tnode d m t).
Proof.
  induction d as [|d IH]; intros t m L P T; change (freewalk pg_free (S ?k) t) with
    (freewalk_loop (freewalk pg_free k) t 512 0 ;;; kfree pg_free t).
  - rewrite (bind_ok _ _ _ _ _ (freewalk_loop_leaf _ t 512 0 m L P T ltac:(lia) eq_refl)).
    apply (free_root 0 t m L m L); [done..|]. split; [done| |done|apply same_off_refl].
    intros q ([|i p] & [_ Hp] & Hn) Hne; [cbn in Hn; congruence|cbn in Hp; lia].
  - destruct (freewalk_loop_spec d (freewalk pg_free (S d)) t 512 IH 0 m L P T ltac:(lia) eq_refl ltac:(lia)) as (m1 & L1 & E & X).
    rewrite (bind_ok _ _ _ _ _ E). by apply (free_root (S d) t m L m1 L1).
Qed.

(** ** uvmfree *)

(** The address whose indices are given. *)
Definition va_of (i2 i1 i0 : Z) : Z := ((i2 * 512 + i1) * 512 + i0) * 4096.

Lemma PX_va_of i2 i1 i0 : idx_ok i2 -> idx_ok i1 -> idx_ok i0 ->
  0 <= va_of i2 i1 i0 < 2 ^ 39 /\ PX 2 (va_of i2 i1 i0) = i2 /\ PX 1 (va_of i2 i1 i0) = i1 /\ PX 0 (va_of i2 i1 i0) = i0.
Proof.
  unfold idx_ok, va_of. intros. split; [lia|]. rewrite !PX_eq by lia.
  change (2 ^ (12 + 9 * 2)) with (4096 * 512 * 512). change (2 ^ (12 + 9 * 1)) with (4096 * 512). change (2 ^ (12 + 9 * 0)) with 4096.
  rewrite <- !Z.div_div by lia. rewrite !Z.div_mul by lia.
  assert (((i2 * 512 + i1) * 512 + i0) / 512 = i2 * 512 + i1) as E1 by (symmetry; apply Z.div_unique with i0; lia).
  assert ((i2 * 512 + i1) / 512 = i2) as E2 by (symmetry; apply Z.div_unique with i1; lia).
  rewrite E1, E2. split_and!; symmetry; [apply Z.mod_unique with 0|apply Z.mod_unique with i2|apply Z.mod_unique with (i2 * 512 + i1)]; lia.
Qed.

(** A table without leaf mappings is such a tree. *)
Lemma empty_tree m L root :
  ptwf m L root -> (forall va, 0 <= va < 2 ^ 39 -> bits (pt_get m root va) PTE_V = false) -> tree 2 m L root.
Proof.
  intros W Hz. split.
  - intros p q Hp Hn. by apply (pw_live _ _ _ W p).
  - intros p p' q Hp Hp' Hn Hn'. by apply (pw_inj _ _ _ W p p' q).
  - intros p q i Hp Hl Hi Hn. apply (pw_ptr _ _ _ W p); [done|lia|done|done].
  - intros p q i0 [HF _] Hl Hi0 Hn. destruct p as [|i2 [|i1 [|? ?]]]; cbn in Hl; try lia.
    apply Forall_cons in HF as [Hi2 HF]. apply Forall_cons in HF as [Hi1 _].
    destruct (PX_va_of i2 i1 i0 Hi2 Hi1 Hi0) as (Hr & E2 & E1 & E0).
    pose proof (Hz _ Hr) as HV. unfold pt_get, pt_leaf in HV. cbn [idxs] in HV.
    change (Z.of_nat 2) with 2 in HV. change (Z.of_nat 1) with 1 in HV. rewrite E2, E1, E0, Hn in HV. exact HV.
Qed.

Lemma uvmfree_spec m L root sz :
  uvm m L root (npg sz) -> 0 <= sz -> (forall va, TRAPFRAME <= va < MAXVA -> bits (pt_get m root va) PTE_V = false) ->
  exists m' L', uvmfree pg_alloc pg_free root sz m = Ok (tt, m') /\ pa_inv m' L' /\
    (forall q, L !! q <> None -> owned m root (npg sz) q -> L' !! q = None) /\
    (forall q k, L !! q = Some k -> ~ owned m root (npg sz) q ->
       L' !! q = Some k /\ forall x, q <= x < q + k * 4096 -> byte_at m' x = byte_at m x).
Proof.
  intros U Hsz Htop. set (n := npg sz) in *. pose proof (npg_bounds sz Hsz) as Hb. fold n in Hb.
  pose proof (uv_n _ _ _ _ U) as [Hn0 Hn]. rewrite TRAPFRAME_eq in Hn.
  assert (exists m1 L1, (if 0 <? sz then uvmunmap pg_alloc pg_free root 0 (PGROUNDUP sz / PGSIZE) true else ret tt) m = Ok (tt, m1) /\
    uvm_to root m L n m1 L1 0) as (m1 & L1 & E1 & X).
  { destruct (Z.ltb_spec 0 sz).
    - destruct (shrink_spec root m L n 0 U) as (m1 & L1 & E1 & X); [lia|]. change (0 * 4096) with 0 in E1. rewrite Z.sub_0_r in E1.
      exists m1, L1. split; [|done]. rewrite PGROUNDUP_npg by (rewrite MAXVA_eq; lia). unfold PGSIZE. rewrite Z.div_mul by lia. exact E1.
    - exists m, L. split; [done|]. assert (n = 0) as En by lia. rewrite En in *. by apply uvm_to_refl. }
  unfold uvmfree; unram. rewrite (bind_ok _ _ _ _ _ E1). pose proof (ut_uvm _ _ _ _ _ _ _ X) as U1.
  assert (tree 2 m1 L1 root) as T.
  { apply empty_tree; [apply (uv_wf _ _ _ _ U1)|]. intros va Hva. destruct (Z.lt_ge_cases va TRAPFRAME).
    - apply (uv_free _ _ _ _ U1). lia.
    - rewrite (ut_top _ _ _ _ _ _ _ X) by lia. destruct (Z.lt_ge_cases va MAXVA); [apply Htop; lia|]. apply (uv_top _ _ _ _ U). lia. }
  destruct (freewalk_spec 2 root m1 L1 (uv_pa _ _ _ _ U1) T) as (m' & L' & E' & R).
  exists m', L'. split_and!; [done|apply (re_pa _ _ _ _ _ R)| |].
  - intros q HL Ho. destruct (L1 !! q) as [k|] eqn:Eq.
    + destruct (ut_own _ _ _ _ _ _ _ X q k Eq (or_intror Ho)) as [(p & t & Hp & Hnt & Hr)|(j & Hj & _)]; [|lia].
      apply (re_freed _ _ _ _ _ R). exists p. split; [done|]. rewrite Hnt. f_equal.
      destruct (decide (t = q)) as [->|Hne]; [done|exfalso].
      pose proof (pw_live _ _ _ (uv_wf _ _ _ _ U1) p t Hp Hnt) as HLt.
      pose proof (pa_range m1 L1 q k (uv_pa _ _ _ _ U1) Eq) as (? & _).
      destruct (pa_disjoint m1 L1 t 1 q k (uv_pa _ _ _ _ U1) HLt Eq Hne); unfold PGSIZE in *; lia.
    + destruct (L' !! q) as [k|] eqn:Eq'; [exfalso|done]. rewrite (re_kept _ _ _ _ _ R) in Eq'; [congruence|].
      intros HF. by rewrite (re_freed _ _ _ _ _ R) in Eq'.
  - intros q k HL Ho. destruct (ut_keep _ _ _ _ _ _ _ X q k HL Ho) as (HL1 & Ho1 & Hb1).
    assert (~ tnode 2 m1 root q) as Hnt.
    { intros (p & Hp & Hnq). apply Ho1. left. exists p, q. split_and!; [done..|lia|lia]. }
    split; [by rewrite (re_kept _ _ _ _ _ R)|]. intros x Hx. rewrite <- Hb1 by done.
    by apply (released_live m1 L1 m' L' _ q k x R).
Qed.
End Free.
