(* ===== verification/VmThm.v ===== *)
(** * Virtual memory: theorems

    Mapping, growing, duplicating and releasing address spaces, and copying
    between kernel and user memory, over any page allocator; the witnesses run
    them on a small buddy allocator with 4096-byte pages. *)

From S2P Require Import Prelude CInt Memory KString Buddy BuddyInv BuddyInit BuddyThm PageAlloc Vm VmInv VmWalk VmMap VmUser VmSpace VmCopy VmFree.

Section Theorems.
Context {pg_alloc : Z -> M ram Z} {pg_free : Z -> M ram unit}.
Context {PA : PageAllocator PGSIZE pg_alloc pg_free}.


(** C25. [uvmalloc] grows an address space atomically: it returns the new size
    with every new page mapped, readable by the user and zero, and the old
    pages and their bytes unchanged; or it runs out of memory, returns 0 and
    leaves the address space at its old size.  Either way no page of anyone
    else changes and no page is leaked. *)
Theorem uvmalloc_correct root m L oldsz newsz xperm :
  uvm m L root (npg oldsz) -> 0 <= oldsz <= newsz -> newsz <= TRAPFRAME -> 0 <= xperm < 1024 ->
  exists r m' L', uvmalloc pg_alloc pg_free root oldsz newsz xperm m = Ok (r, m') /\
    (r = newsz /\ uvm_to root m L (npg oldsz) m' L' (npg newsz) /\
       zeroed m' root (npg oldsz) (npg newsz) (Z.lor (Z.lor PTE_R PTE_U) xperm) \/
     r = 0 /\ uvm_to root m L (npg oldsz) m' L' (npg oldsz)).
Proof. apply uvmalloc_spec. Qed.

(** C28. [uvmcopy] gives the child the parent's memory: on success every user
    page of the child has the flags and the bytes of the parent's; when memory
    runs out it returns -1 and the child is empty again.  Either way the
    parent's address space and bytes are unchanged and the two share no page. *)
Theorem uvmcopy_correct old new m L sz :
  uvm m L old (npg sz) -> uvm m L new 0 -> apart m L old (npg sz) new 0 -> 0 <= sz ->
  exists r m' L' n, uvmcopy pg_alloc pg_free old new sz m = Ok (r, m') /\
    (r = 0 /\ n = npg sz /\ duplicated m old m' new 0 (npg sz) \/ r = -1 /\ n = 0) /\
    uvm_to new m L 0 m' L' n /\ uvm m' L' old (npg sz) /\ apart m' L' old (npg sz) new n /\
    forall va, 0 <= va < npg sz * 4096 ->
      pt_get m' old va = pt_get m old va /\ ubyte m' old va = ubyte m old va.
Proof.
  intros U N Ha Hsz. destruct (uvmcopy_spec old new m L sz U N Ha Hsz) as (r & m' & L' & E & Hr).
  assert (exists n, uvm_to new m L 0 m' L' n /\
    (r = 0 /\ n = npg sz /\ duplicated m old m' new 0 (npg sz) \/ r = -1 /\ n = 0)) as (n & X & Hn).
  { destruct Hr as [(-> & X & Hd)|[-> X]]; [exists (npg sz)|exists 0]; split; auto. }
  destruct (uvm_other new m L 0 m' L' n old (npg sz) X U Ha) as (U' & _ & Ha' & Hg & Hu).
  exists r, m', L', n. split_and!; try done. intros va Hva. split; [done|by apply Hu].
Qed.

(** C29. [uvmfree] on an address space whose trampoline pages are unmapped gives
    back every page it owned, tables and user pages, and touches no page of
    anyone else. *)
Theorem uvmfree_correct m L root sz :
  uvm m L root (npg sz) -> 0 <= sz -> (forall va, TRAPFRAME <= va < MAXVA -> bits (pt_get m root va) PTE_V = false) ->
  exists m' L', uvmfree pg_alloc pg_free root sz m = Ok (tt, m') /\ pa_inv m' L' /\
    (forall q, L !! q <> None -> owned m root (npg sz) q -> L' !! q = None) /\
    (forall q k, L !! q = Some k -> ~ owned m root (npg sz) q ->
       L' !! q = Some k /\ forall x, q <= x < q + k * 4096 -> byte_at m' x = byte_at m x).
Proof. apply uvmfree_spec. Qed.

Lemma copy_fuel va len : 0 <= len -> len = 0 \/ va mod 4096 + len <= Z.of_nat (S (S (Z.to_nat (len / PGSIZE)))) * 4096.
Proof.
  intros Hl. right. unfold PGSIZE. pose proof (Z.mod_pos_bound va 4096). pose proof (Z.div_mod len 4096).
  pose proof (Z.mod_pos_bound len 4096). assert (0 <= len / 4096) by (apply Z.div_pos; lia). lia.
Qed.

(** C30. [copyout] returns 0 exactly when every byte of the user range is
    accessible to the user; then each of them holds the kernel byte, and
    otherwise it returns -1.  Only bytes of that user range change, and the
    address space stays well formed. *)
Theorem copyout_correct root L n m dstva src len :
  uvm m L root n -> 0 <= dstva < 2 ^ 64 -> 0 <= len -> kmem root n m src len ->
  exists r m', copyout pg_alloc root dstva src len m = Ok (r, m') /\ uvm m' L root n /\
    same_off (out_bytes root m dstva len) m m' /\
    (r = 0 /\ (forall i, 0 <= i < len -> umapped m root (dstva + i) = true /\
       byte_at m' (uphys m root (dstva + i)) = byte_at m (src + i)) \/
     r = -1 /\ exists i, 0 <= i < len /\ umapped m root (dstva + i) = false).
Proof.
  intros U Hva Hlen K. unfold copyout; unram.
  destruct (copyout_loop_spec root L n (S (S (Z.to_nat (len / PGSIZE)))) dstva src len m U Hva Hlen K (copy_fuel dstva len Hlen))
    as (r & m' & E & U' & _ & So & Hr). exists r, m'. split_and!; done.
Qed.

(** [copyin] returns 0 exactly when every byte of the user range is
    accessible to the user; then the kernel buffer holds those bytes, and
    otherwise it returns -1.  Only the buffer changes. *)
Theorem copyin_correct root L n m dst srcva len :
  uvm m L root n -> 0 <= srcva < 2 ^ 64 -> 0 <= len -> kbuf root L n m dst len ->
  exists r m', copyin pg_alloc root dst srcva len m = Ok (r, m') /\ uvm m' L root n /\
    same_off (fun x => dst <= x < dst + len) m m' /\
    (r = 0 /\ (forall i, 0 <= i < len -> umapped m root (srcva + i) = true /\
       byte_at m' (dst + i) = byte_at m (uphys m root (srcva + i))) \/
     r = -1 /\ exists i, 0 <= i < len /\ umapped m root (srcva + i) = false).
Proof.
  intros U Hva Hlen K. unfold copyin; unram.
  by apply (copyin_loop_spec root L n _ dst srcva len m U Hva Hlen K), copy_fuel.
Qed.

(** C32. [copyinstr] returns 0 exactly when the user memory at the address holds
    a terminated string of less than [max] bytes; then the buffer holds that
    string with its terminator.  Otherwise it returns -1, because the
    string goes on for [max] bytes or runs into an inaccessible address.  Only
    the [max] bytes of the buffer may change. *)
Theorem copyinstr_correct root L n m dst srcva max :
  uvm m L root n -> 0 <= srcva < 2 ^ 64 -> 0 <= max -> kbuf root L n m dst max ->
  exists r m' j, copyinstr pg_alloc root dst srcva max m = Ok (r, m') /\ uvm m' L root n /\
    same_off (fun x => dst <= x < dst + max) m m' /\ 0 <= j <= max /\
    (forall i, 0 <= i < j -> umapped m root (srcva + i) = true /\ byte_at m (uphys m root (srcva + i)) <> 0 /\
       byte_at m' (dst + i) = byte_at m (uphys m root (srcva + i))) /\
    (r = 0 /\ j < max /\ umapped m root (srcva + j) = true /\ byte_at m (uphys m root (srcva + j)) = 0 /\
       byte_at m' (dst + j) = 0 \/
     r = -1 /\ (j = max \/ umapped m root (srcva + j) = false)).
Proof.
  intros U Hva Hlen K. unfold copyinstr; unram.
  by apply (copyinstr_loop_spec root L n _ dst srcva max m U Hva Hlen K), copy_fuel.
Qed.

(** A live page outside the address space is a kernel buffer. *)
Lemma kbuf_page root L n m c len :
  uvm m L root n -> L !! c = Some 1 -> ~ owned m root n c -> 0 <= len <= 4096 -> 0 <= ram_lo m -> kbuf root L n m c len.
Proof.
  intros U HL Ho Hlen H0. destruct (pa_range m L c 1 (uv_pa _ _ _ _ U) HL) as (_ & ? & ? & ? & _). unfold PGSIZE in *.
  assert (~ tabbyte m root c) as Hnt by (intros ?; apply Ho; by left).
  split.
  - split_and!; [lia..|]. intros x Hx (k & Hk & Hr). destruct (uv_page _ _ _ _ U k Hk) as (_ & _ & HLk & _).
    destruct (decide (c = upage m root k)) as [->|Hne]; [apply Ho; right; eauto|].
    destruct (pages_apart m L c _ (uv_pa _ _ _ _ U) HL HLk Hne); lia.
  - intros x Hx. apply (not_tab_block m L root c 1 x (uv_pa _ _ _ _ U) (uv_wf _ _ _ _ U) HL Hnt). lia.
  - intros m1 m2 P So. apply (pa_write m1); [done|]. apply (same_off_weaken _ _ _ _ So). intros x Hx.
    exists c, 1. unfold PGSIZE. split; [done|lia].
Qed.
End Theorems.

(** ** A small machine *)

Definition vx_al : buddy_allocator := init_al 2 4096 16 65536.
Definition vx_alloc : Z -> M ram Z := lib_buddy_alloc vx_al.
Definition vx_free : Z -> M ram unit := lib_buddy_free riscv64 vx_al.

#[local] Instance vx_pa : PageAllocator PGSIZE vx_alloc vx_free :=
  buddy_page_allocator vx_al ltac:(by vm_compute) ltac:(by exists 17).

Definition vx_m0 : ram :=
  match lib_buddy_init ex_mem 2 4096 16 65536 (Ram 65536 131072 ∅) with Ok (_, m) => m | _ => ex_ram end.

Lemma vx_pa_inv : pa_inv vx_m0 ∅.
Proof.
  destruct (init_refines ex_mem 2 4096 16 65536 (Ram 65536 131072 ∅)) as (m' & E & I); [closed..|].
  exists (abs_init 2 (pages vx_al)), ∅. cbn [fst snd]. split.
  - unfold vx_m0. rewrite E. exact I.
  - intros p n. rewrite lookup_empty. split; [done|]. intros (pn & lvl & H & _). by rewrite lookup_empty in H.
Qed.

(** The result of a computation, for the states of the examples. *)
Definition out {A} (d : A) (r : res A) : A := match r with Ok x => x | _ => d end.

(** An empty address space, grown to two pages, and a kernel page. *)
Definition vx_pt : Z * ram := out (0, vx_m0) (uvmcreate vx_alloc vx_m0).
Definition vx_sp : Z * ram := out (0, vx_m0) (uvmalloc vx_alloc vx_free (fst vx_pt) 0 8192 PTE_W (snd vx_pt)).
Definition vx_kp : Z * ram := out (0, vx_m0) (kalloc vx_alloc (snd vx_sp)).

Lemma vx_uvm0 : exists L, uvm (snd vx_pt) L (fst vx_pt) 0 /\ (forall va, pt_get (snd vx_pt) (fst vx_pt) va = 0).
Proof.
  destruct (uvmcreate_spec vx_m0 ∅ vx_pa_inv) as (r & m & E & Hr). unfold vx_pt. rewrite E. cbn [out fst snd].
  destruct Hr as [[-> _]|(_ & _ & U & Hg & _ & _)].
  - exfalso. assert (match uvmcreate vx_alloc vx_m0 with Ok (r, _) => negb (r =? 0) | _ => false end = true) as H by (by vm_compute).
    rewrite E in H. discriminate H.
  - eexists. split; [exact U|exact Hg].
Qed.

Lemma vx_uvm2 : fst vx_sp = 8192 /\ exists L, uvm (snd vx_sp) L (fst vx_pt) 2 /\
  forall va, TRAPFRAME <= va < MAXVA -> bits (pt_get (snd vx_sp) (fst vx_pt) va) PTE_V = false.
Proof.
  destruct vx_uvm0 as (L & U & Hg).
  destruct (uvmalloc_spec (fst vx_pt) (snd vx_pt) L 0 8192 PTE_W U ltac:(lia) ltac:(by vm_compute) ltac:(by vm_compute))
    as (r & m & L' & E & Hr). unfold vx_sp. rewrite E. cbn [out fst snd].
  destruct Hr as [(-> & X & _)|(-> & _)].
  - split; [reflexivity|]. exists L'. split; [exact (ut_uvm _ _ _ _ _ _ _ X)|]. intros va Hva.
    rewrite (ut_top _ _ _ _ _ _ _ X) by (rewrite MAXVA_eq in *; lia). rewrite Hg. apply bits_0.
  - exfalso. assert (match uvmalloc vx_alloc vx_free (fst vx_pt) 0 8192 PTE_W (snd vx_pt) with
      Ok (r, _) => negb (r =? 0) | _ => false end = true) as H by (by vm_compute).
    rewrite E in H. discriminate H.
Qed.

Lemma vx_kpage : exists L, uvm (snd vx_kp) L (fst vx_pt) 2 /\ L !! fst vx_kp = Some 1 /\ ~ owned (snd vx_kp) (fst vx_pt) 2 (fst vx_kp).
Proof.
  destruct vx_uvm2 as (_ & L & U & _). destruct (pa_alloc (snd vx_sp) L 1 (uv_pa _ _ _ _ U)) as (c & m & E & Hc).
  assert (vx_kp = (c, m)) as Ek by (unfold vx_kp, kalloc; rewrite E; reflexivity). rewrite Ek. cbn [fst snd].
  destruct Hc as [[-> ->]|(Hc & HL & P & So)].
  - exfalso. assert (fst vx_kp <> 0) as H by (by vm_compute). rewrite Ek in H. cbn [fst] in H. congruence.
  - destruct (fresh_other (snd vx_sp) L (fst vx_pt) 2 c 1 m U HL P So) as (U' & Ho & _).
    exists (<[c := 1]> L). split; [exact U'|]. split; [apply lookup_insert_eq|exact Ho].
Qed.

(** A second, empty address space beside the first. *)
Definition vx_ch : Z * ram := out (0, vx_m0) (uvmcreate vx_alloc (snd vx_sp)).

Lemma vx_child : exists L, uvm (snd vx_ch) L (fst vx_pt) 2 /\ uvm (snd vx_ch) L (fst vx_ch) 0 /\
  apart (snd vx_ch) L (fst vx_pt) 2 (fst vx_ch) 0.
Proof.
  destruct vx_uvm2 as (_ & L & U & _). destruct (uvmcreate_spec (snd vx_sp) L (uv_pa _ _ _ _ U)) as (c & m & E & Hc).
  assert (vx_ch = (c, m)) as Ek by (unfold vx_ch; rewrite E; reflexivity). rewrite Ek. cbn [fst snd].
  destruct Hc as [[-> ->]|(Hc & HL & N & _ & Htab & So)].
  - exfalso. assert (fst vx_ch <> 0) as H by (by vm_compute). rewrite Ek in H. cbn [fst] in H. congruence.
  - destruct (fresh_other (snd vx_sp) L (fst vx_pt) 2 c 1 m U HL (uv_pa _ _ _ _ N) So) as (U' & Ho & _).
    exists (<[c := 1]> L). split; [exact U'|]. split; [exact N|].
    intros q Hq Hold [Ht|(j & Hj & _)]; [|lia]. apply Htab in Ht.
    destruct (<[c := 1]> L !! q) as [k|] eqn:Eq; [|congruence].
    destruct (decide (c = q)) as [<-|Hne]; [exact (Ho Hold)|].
    pose proof (pa_range m _ q k (uv_pa _ _ _ _ N) Eq) as (? & _).
    destruct (pa_disjoint m _ c 1 q k (uv_pa _ _ _ _ N) (lookup_insert_eq _ _ _) Eq Hne); unfold PGSIZE in *; lia.
Qed.

(** ** Witnesses *)


Lemma uvmalloc_correct_witness :
  exists r m' L' L, uvmalloc vx_alloc vx_free (fst vx_pt) 0 8192 PTE_W (snd vx_pt) = Ok (r, m') /\
    (r = 8192 /\ uvm_to (fst vx_pt) (snd vx_pt) L 0 m' L' 2 /\
       zeroed m' (fst vx_pt) 0 2 (Z.lor (Z.lor PTE_R PTE_U) PTE_W) \/
     r = 0 /\ uvm_to (fst vx_pt) (snd vx_pt) L 0 m' L' 0).
Proof.
  destruct vx_uvm0 as (L & U & _).
  destruct (uvmalloc_correct (fst vx_pt) (snd vx_pt) L 0 8192 PTE_W U) as (r & m' & L' & E & Hr);
    [lia|by vm_compute|by vm_compute|].
  exists r, m', L', L. split; [exact E|exact Hr].
Defined.

Lemma uvmcopy_correct_witness :
  exists r m' L' n, uvmcopy vx_alloc vx_free (fst vx_pt) (fst vx_ch) 8192 (snd vx_ch) = Ok (r, m') /\
    (r = 0 /\ n = 2 /\ duplicated (snd vx_ch) (fst vx_pt) m' (fst vx_ch) 0 2 \/ r = -1 /\ n = 0) /\
    uvm m' L' (fst vx_pt) 2 /\ apart m' L' (fst vx_pt) 2 (fst vx_ch) n.
Proof.
  destruct vx_child as (L & U & N & Ha).
  destruct (uvmcopy_correct (fst vx_pt) (fst vx_ch) (snd vx_ch) L 8192 U N Ha ltac:(lia))
    as (r & m' & L' & n & E & Hr & _ & U' & Ha' & _).
  exists r, m', L', n. split; [exact E|]. split; [exact Hr|]. split; [exact U'|exact Ha'].
Defined.

Lemma uvmfree_correct_witness :
  exists m' L' (L : gmap Z Z), uvmfree vx_alloc vx_free (fst vx_pt) 8192 (snd vx_sp) = Ok (tt, m') /\ pa_inv m' L' /\
    L !! fst vx_pt <> None /\ L' !! fst vx_pt = None.
Proof.
  destruct vx_uvm2 as (_ & L & U & Htop).
  destruct (uvmfree_correct (snd vx_sp) L (fst vx_pt) 8192 U ltac:(lia) Htop) as (m' & L' & E & P & Hf & _).
  assert (L !! fst vx_pt = Some 1) as HL by exact (pw_live _ _ _ (uv_wf _ _ _ _ U) [] _ path_ok_nil eq_refl).
  exists m', L', L. split; [exact E|]. split; [exact P|]. split; [congruence|].
  apply Hf; [congruence|]. left. exists [], (fst vx_pt). split; [exact path_ok_nil|]. split; [reflexivity|lia].
Defined.

Lemma copyout_correct_witness :
  exists r m' L, copyout vx_alloc (fst vx_pt) 100 (fst vx_kp) 4096 (snd vx_kp) = Ok (r, m') /\ uvm m' L (fst vx_pt) 2 /\
    (r = 0 /\ (forall i, 0 <= i < 4096 -> umapped (snd vx_kp) (fst vx_pt) (100 + i) = true /\
       byte_at m' (uphys (snd vx_kp) (fst vx_pt) (100 + i)) = byte_at (snd vx_kp) (fst vx_kp + i)) \/
     r = -1 /\ exists i, 0 <= i < 4096 /\ umapped (snd vx_kp) (fst vx_pt) (100 + i) = false).
Proof.
  destruct vx_kpage as (L & U & HL & Ho).
  destruct (copyout_correct (fst vx_pt) L 2 (snd vx_kp) 100 (fst vx_kp) 4096 U) as (r & m' & E & U' & _ & Hr); [lia|lia| |].
  - apply (kb_mem _ _ _ _ _ _ (kbuf_page (fst vx_pt) L 2 (snd vx_kp) (fst vx_kp) 4096 U HL Ho ltac:(lia) ltac:(by vm_compute))).
  - exists r, m', L. split; [exact E|]. split; [exact U'|exact Hr].
Defined.

Lemma copyin_correct_witness :
  exists r m', copyin vx_alloc (fst vx_pt) (fst vx_kp) 4000 200 (snd vx_kp) = Ok (r, m') /\
    same_off (fun x => fst vx_kp <= x < fst vx_kp + 200) (snd vx_kp) m' /\
    (r = 0 /\ (forall i, 0 <= i < 200 -> umapped (snd vx_kp) (fst vx_pt) (4000 + i) = true /\
       byte_at m' (fst vx_kp + i) = byte_at (snd vx_kp) (uphys (snd vx_kp) (fst vx_pt) (4000 + i))) \/
     r = -1 /\ exists i, 0 <= i < 200 /\ umapped (snd vx_kp) (fst vx_pt) (4000 + i) = false).
Proof.
  destruct vx_kpage as (L & U & HL & Ho).
  destruct (copyin_correct (fst vx_pt) L 2 (snd vx_kp) (fst vx_kp) 4000 200 U) as (r & m' & E & _ & So & Hr); [lia|lia| |].
  - exact (kbuf_page (fst vx_pt) L 2 (snd vx_kp) (fst vx_kp) 200 U HL Ho ltac:(lia) ltac:(by vm_compute)).
  - exists r, m'. split; [exact E|]. split; [exact So|exact Hr].
Defined.

Lemma copyinstr_correct_witness :
  exists r m' j, copyinstr vx_alloc (fst vx_pt) (fst vx_kp) 4090 64 (snd vx_kp) = Ok (r, m') /\ 0 <= j <= 64 /\
    (r = 0 /\ j < 64 /\ byte_at m' (fst vx_kp + j) = 0 \/
     r = -1 /\ (j = 64 \/ umapped (snd vx_kp) (fst vx_pt) (4090 + j) = false)).
Proof.
  destruct vx_kpage as (L & U & HL & Ho).
  destruct (copyinstr_correct (fst vx_pt) L 2 (snd vx_kp) (fst vx_kp) 4090 64 U) as (r & m' & j & E & _ & _ & Hj & _ & Hr); [lia|lia| |].
  - exact (kbuf_page (fst vx_pt) L 2 (snd vx_kp) (fst vx_kp) 64 U HL Ho ltac:(lia) ltac:(by vm_compute)).
  - exists r, m', j. split; [exact E|]. split; [exact Hj|]. destruct Hr as [(Hr & H1 & _ & _ & H2)|Hr]; [left|right; exact Hr].
    split; [exact Hr|]. split; [exact H1|exact H2].
Defined.
