(* ===== verification/KMonad.v ===== *)
(** * Control structure and records of the kernel model

    The loops of the C code as combinators of the state and error monad of
    [Memory], reads of array elements that fault out of range, and functional
    record update ([s <| field := v |>]) for the structs of the kernel. *)

From S2P Require Import Prelude CInt Memory.

(** ** Record update

    [eta_record] is a record type's eta expansion; the setter of a projection
    is obtained from it by replacing that projection. *)

Class EtaRecord (R : Type) := eta_record : R -> R.
Class Setter {R T : Type} (proj : R -> T) := set : (T -> T) -> R -> R.
Arguments set {R T} proj {_} f r.

Ltac make_setter :=
  match goal with
  | |- @Setter ?R ?T ?proj =>
      let f := fresh "f" in
      let r := fresh "r" in
      refine (fun (f : T -> T) (r : R) => _);
      let e := constr:(eta_record (R := R) r) in
      let b := eval hnf in e in
      let p := eval pattern (proj r) in b in
      match p with ?g _ => let t := eval cbv beta in (g (f (proj r))) in exact t end
  end.
#[export] Hint Extern 1 (Setter _) => make_setter : typeclass_instances.

Declare Scope record_scope.
Notation "r <| p := v |>" := (set p (fun _ => v) r)
  (at level 1, left associativity, p at level 9, v at level 99) : record_scope.
#[global] Open Scope record_scope.

(** ** Loops *)

Section Loops.
Context {St A X : Type}.

(** [for(i = a; ...; i++)] with [n] iterations left; the body returns [Some a]
    to leave the loop with a result. *)
Fixpoint for_ (n : nat) (i : Z) (body : Z -> M St (option A)) : M St (option A) :=
  match n with
  | O => ret None
  | S n =>
      r <- body i ;;
      match r with
      | Some a => ret (Some a)
      | None => for_ n (i + 1) body
      end
  end.

(** A loop whose body yields its next variables ([inl]) or a result ([inr]),
    with fuel. *)
Fixpoint loop (fuel : nat) (body : X -> M St (X + A)) (x : X) : M St A :=
  match fuel with
  | O => diverge
  | S fuel =>
      r <- body x ;;
      match r with
      | inl x' => loop fuel body x'
      | inr a => ret a
      end
  end.

Definition fault (a : Z) : M St A := fun _ => Fault a.
(** Reading an array element or following a pointer that may not be there. *)
Definition some_or_fault (o : option A) : M St A :=
  match o with Some a => ret a | None => fault 0 end.
End Loops.

(** A [for] loop without early exit. *)
Fixpoint for_each {St} (n : nat) (i : Z) (body : Z -> M St unit) : M St unit :=
  match n with
  | O => ret tt
  | S n => body i ;;; for_each n (i + 1) body
  end.

Section LoopLemmas.
Context {St A X : Type}.

(** A loop that establishes its invariant [I] for the next index, or leaves. *)
Lemma for_inv (I : Z -> St -> Prop) (Q : option A -> St -> Prop) n i body s :
  (forall j t, i <= j < i + Z.of_nat n -> I j t ->
    exists r t', body j t = Ok (r, t') /\
      match r with Some a => Q (Some a) t' | None => I (j + 1) t' end) ->
  (forall t, I (i + Z.of_nat n) t -> Q None t) ->
  I i s -> exists r s', for_ n i body s = Ok (r, s') /\ Q r s'.
Proof.
  revert i s. induction n as [|n IH]; intros i s Hb HQ HI; cbn [for_].
  - exists None, s. split; [done|]. apply HQ. by replace (i + Z.of_nat 0) with i by lia.
  - destruct (Hb i s ltac:(lia) HI) as ([a|] & t & E & H1).
    + exists (Some a), t. by rewrite (bind_ok _ _ _ _ _ E).
    + rewrite (bind_ok _ _ _ _ _ E). apply IH; [|intros t' Ht'; apply HQ|done].
      * intros j t' Hj. apply Hb. lia.
      * by replace (i + Z.of_nat (S n)) with (i + 1 + Z.of_nat n) by lia.
Qed.

Lemma for_each_inv (I : Z -> St -> Prop) n i body s :
  (forall j t, i <= j < i + Z.of_nat n -> I j t ->
    exists t', body j t = Ok (tt, t') /\ I (j + 1) t') ->
  I i s -> exists s', for_each n i body s = Ok (tt, s') /\ I (i + Z.of_nat n) s'.
Proof.
  revert i s. induction n as [|n IH]; intros i s Hb HI; cbn [for_each].
  - exists s. split; [done|]. by replace (i + Z.of_nat 0) with i by lia.
  - destruct (Hb i s ltac:(lia) HI) as (t & E & H1). rewrite (bind_ok _ _ _ _ _ E).
    destruct (IH (i + 1) t) as (s' & E' & H'); [intros; apply Hb; [lia|done]|done|].
    exists s'. split; [done|]. by replace (i + Z.of_nat (S n)) with (i + 1 + Z.of_nat n) by lia.
Qed.

(** A loop whose measure decreases ends before its fuel does. *)
Lemma loop_total (I : X -> St -> Prop) (mu : X -> St -> nat) (Q : A -> St -> Prop) body fuel x s :
  (forall y t, I y t -> exists r t', body y t = Ok (r, t') /\
    match r with inl y' => I y' t' /\ (mu y' t' < mu y t)%nat | inr a => Q a t' end) ->
  I x s -> (mu x s < fuel)%nat -> exists a s', loop fuel body x s = Ok (a, s') /\ Q a s'.
Proof.
  intros Hb. revert x s. induction fuel as [|fuel IH]; intros x s HI Hf; [lia|]. cbn [loop].
  destruct (Hb x s HI) as ([y|a] & t & E & H1); rewrite (bind_ok _ _ _ _ _ E).
  - destruct H1. apply IH; [done|lia].
  - by exists a, t.
Qed.

(** More fuel does not change a result. *)
Lemma loop_more fuel fuel' (body : X -> M St (X + A)) x s a s' :
  (fuel <= fuel')%nat -> loop fuel body x s = Ok (a, s') -> loop fuel' body x s = Ok (a, s').
Proof.
  revert fuel' x s. induction fuel as [|fuel IH]; intros [|fuel'] x s Hf; cbn [loop];
    try done; try lia.
  unfold bind. destruct (body x s) as [[[y|b] t]| | | |]; try done. apply IH. lia.
Qed.
End LoopLemmas.
