(* ===== verification/Riscv.v ===== *)
(** * A hart: its control registers and the accessors of kernel/riscv.h

    The registers the kernel reads and writes are fields of a record; the
    [r_x] and [w_x] functions, which are single instructions in the source, read
    and write them.  [sstatus] is kept apart from [mstatus]. *)

From S2P Require Import Prelude CInt Memory KMonad.

Record hart := Hart {
  mhartid : Z; mstatus : Z; mepc : Z; sstatus : Z; sip : Z; sie : Z; mie : Z;
  sepc : Z; medeleg : Z; mideleg : Z; stvec : Z; mtvec : Z; pmpcfg0 : Z;
  pmpaddr0 : Z; satp : Z; mscratch : Z; scause : Z; stval : Z;
  tp : Z; sp : Z
}.
#[export] Instance eta_hart : EtaRecord hart := fun h =>
  Hart (mhartid h) (mstatus h) (mepc h) (sstatus h) (sip h) (sie h) (mie h) (sepc h)
    (medeleg h) (mideleg h) (stvec h) (mtvec h) (pmpcfg0 h) (pmpaddr0 h) (satp h)
    (mscratch h) (scause h) (stval h) (tp h) (sp h).

Definition rd (r : hart -> Z) : M hart Z := fun h => Ok (r h, h).
Definition wr (w : Z -> hart -> hart) (x : Z) : M hart unit := fun h => Ok (tt, w (u64 x) h).

Definition r_mhartid : M hart Z := rd mhartid.

Definition MSTATUS_MPP_MASK : Z := Z.shiftl 3 11.
Definition MSTATUS_MPP_S : Z := Z.shiftl 1 11.
Definition MSTATUS_MIE : Z := Z.shiftl 1 3.
Definition r_mstatus : M hart Z := rd mstatus.
Definition w_mstatus : Z -> M hart unit := wr (fun x h => h <| mstatus := x |>).
Definition w_mepc : Z -> M hart unit := wr (fun x h => h <| mepc := x |>).

Definition SSTATUS_SPP : Z := Z.shiftl 1 8.
Definition SSTATUS_SPIE : Z := Z.shiftl 1 5.
Definition SSTATUS_SIE : Z := Z.shiftl 1 1.
Definition r_sstatus : M hart Z := rd sstatus.
Definition w_sstatus : Z -> M hart unit := wr (fun x h => h <| sstatus := x |>).

Definition r_sip : M hart Z := rd sip.
Definition w_sip : Z -> M hart unit := wr (fun x h => h <| sip := x |>).

Definition SIE_SEIE : Z := Z.shiftl 1 9.
Definition SIE_STIE : Z := Z.shiftl 1 5.
Definition SIE_SSIE : Z := Z.shiftl 1 1.
Definition r_sie : M hart Z := rd sie.
Definition w_sie : Z -> M hart unit := wr (fun x h => h <| sie := x |>).

Definition MIE_MTIE : Z := Z.shiftl 1 7.
Definition r_mie : M hart Z := rd mie.
Definition w_mie : Z -> M hart unit := wr (fun x h => h <| mie := x |>).

Definition w_sepc : Z -> M hart unit := wr (fun x h => h <| sepc := x |>).
Definition r_sepc : M hart Z := rd sepc.
Definition r_medeleg : M hart Z := rd medeleg.
Definition w_medeleg : Z -> M hart unit := wr (fun x h => h <| medeleg := x |>).
Definition r_mideleg : M hart Z := rd mideleg.
Definition w_mideleg : Z -> M hart unit := wr (fun x h => h <| mideleg := x |>).
Definition w_stvec : Z -> M hart unit := wr (fun x h => h <| stvec := x |>).
Definition r_stvec : M hart Z := rd stvec.
Definition w_mtvec : Z -> M hart unit := wr (fun x h => h <| mtvec := x |>).
Definition w_pmpcfg0 : Z -> M hart unit := wr (fun x h => h <| pmpcfg0 := x |>).
Definition w_pmpaddr0 : Z -> M hart unit := wr (fun x h => h <| pmpaddr0 := x |>).

Definition SATP_SV39 : Z := Z.shiftl 8 60.
Definition MAKE_SATP (pagetable : Z) : Z := Z.lor SATP_SV39 (Z.shiftr pagetable 12).
Definition w_satp : Z -> M hart unit := wr (fun x h => h <| satp := x |>).
Definition r_satp : M hart Z := rd satp.
Definition w_mscratch : Z -> M hart unit := wr (fun x h => h <| mscratch := x |>).
Definition r_scause : M hart Z := rd scause.
Definition r_stval : M hart Z := rd stval.
Definition r_sp : M hart Z := rd sp.
Definition r_tp : M hart Z := rd tp.
Definition w_tp : Z -> M hart unit := wr (fun x h => h <| tp := x |>).

(** Device interrupts. *)
Definition intr_on : M hart unit := x <- r_sstatus ;; w_sstatus (Z.lor x SSTATUS_SIE).
Definition intr_off : M hart unit :=
  x <- r_sstatus ;; w_sstatus (Z.land x (Z.lnot SSTATUS_SIE)).
Definition intr_get : M hart bool :=
  x <- r_sstatus ;; ret (negb (Z.land x SSTATUS_SIE =? 0)).
