(* ===== verification/KState.v ===== *)
(** * The state of the kernel

    The structs and the global variables of the kernel as records, and the
    total state [kst] of one kernel thread: its hart, the locks, physical
    memory, the process table, the file-system and device state.  Objects whose
    bytes are copied or whose address is passed around (buffer data, pipes,
    trapframes, process names and exit states, local variables of a function)
    live in RAM; the others are fields of records.  Pointers to array elements
    are indices, distinct locks and sleep channels are distinct names.

    Devices are a parameter: a type of device states with memory-mapped reads
    and writes.  So is the world outside the running thread, see [Machine]. *)

From S2P Require Import Prelude CInt Memory KMonad Riscv Buddy Vm.

(** ** Constants of kernel/param.h, kernel/fs.h *)

Definition nproc : nat := Z.to_nat NPROC.
Definition NCPU : nat := 8.
Definition NOFILE : nat := 16.
Definition NFILE : nat := 100.
Definition NINODE : nat := 50.
Definition NDEV : Z := 10.
Definition ROOTDEV : Z := 1.
Definition MAXARG : nat := 32.
Definition MAXOPBLOCKS : Z := 10.
Definition LOGSIZE : Z := MAXOPBLOCKS * 3.
Definition NBUF : nat := 30.
Definition FSSIZE : Z := 2000.
Definition MAXPATH : Z := 128.

Definition ROOTINO : Z := 1.
Definition BSIZE : Z := 1024.
Definition FSMAGIC : Z := 0x10203040.
Definition NDIRECT : Z := 12.
Definition NINDIRECT : Z := BSIZE / 4.
Definition MAXFILE : Z := NDIRECT + NINDIRECT.
Definition DIRSIZ : Z := 14.

Definition T_DIR : Z := 1.
Definition T_FILE : Z := 2.
Definition T_DEVICE : Z := 3.

(** ** Locks and sleep channels *)

Inductive sleepid := SLbuf (i : nat) | SLinode (i : nat).
Inductive lockid :=
| Lpid | Lwait | Lproc (i : nat) | Lbuddy | Lslab (k : nat) | Lbcache | Lsleep (s : sleepid)
| Llog | Litable | Lftable | Lpipe (pi : Z) | Lticks | Lcons | Luart | Lpr | Lvdisk.
Inductive chan :=
| Cproc (i : nat) | Csleep (s : sleepid) | Clog | Cnread (pi : Z) | Cnwrite (pi : Z)
| Cticks | Cconsr | Cuartr | Cbuf (b : nat) | Cdiskfree.

#[export] Instance sleepid_eq_dec : EqDecision sleepid.
Proof. solve_decision. Defined.
#[export] Instance lockid_eq_dec : EqDecision lockid.
Proof. solve_decision. Defined.
#[export] Instance chan_eq_dec : EqDecision chan.
Proof. solve_decision. Defined.

Definition sleepid_enc (s : sleepid) : nat + nat :=
  match s with SLbuf i => inl i | SLinode i => inr i end.
Definition sleepid_dec (x : nat + nat) : sleepid :=
  match x with inl i => SLbuf i | inr i => SLinode i end.
#[export] Instance sleepid_countable : Countable sleepid.
Proof. refine (inj_countable' sleepid_enc sleepid_dec _). by intros []. Defined.

Definition lockid_enc (l : lockid) : nat * (nat + sleepid + Z) :=
  match l with
  | Lpid => (0, inr 0%Z) | Lwait => (1, inr 0%Z) | Lproc i => (2, inl (inl i)) | Lbuddy => (3, inr 0%Z)
  | Lslab k => (4, inl (inl k)) | Lbcache => (5, inr 0%Z) | Lsleep s => (6, inl (inr s))
  | Llog => (7, inr 0%Z) | Litable => (8, inr 0%Z) | Lftable => (9, inr 0%Z) | Lpipe p => (10, inr p)
  | Lticks => (11, inr 0%Z) | Lcons => (12, inr 0%Z) | Luart => (13, inr 0%Z) | Lpr => (14, inr 0%Z)
  | Lvdisk => (15, inr 0%Z)
  end%nat.
Definition lockid_dec (x : nat * (nat + sleepid + Z)) : lockid :=
  match x with
  | (0, _) => Lpid | (1, _) => Lwait | (2, inl (inl i)) => Lproc i | (3, _) => Lbuddy
  | (4, inl (inl k)) => Lslab k | (5, _) => Lbcache | (6, inl (inr s)) => Lsleep s
  | (7, _) => Llog | (8, _) => Litable | (9, _) => Lftable | (10, inr p) => Lpipe p
  | (11, _) => Lticks | (12, _) => Lcons | (13, _) => Luart | (14, _) => Lpr | _ => Lvdisk
  end%nat.
#[export] Instance lockid_countable : Countable lockid.
Proof. refine (inj_countable' lockid_enc lockid_dec _). by intros []. Defined.

(** [struct spinlock] (spinlock.h), [struct sleeplock] (sleeplock.h; its inner
    spinlock is [Lsleep]). *)
Record spinlock := Spin { locked : Z; lname : string; lcpu : option nat }.
Record sleeplock := Sleep { sl_locked : Z; sl_name : string; sl_pid : Z }.
#[export] Instance eta_spinlock : EtaRecord spinlock := fun l => Spin (locked l) (lname l) (lcpu l).
#[export] Instance eta_sleeplock : EtaRecord sleeplock := fun l =>
  Sleep (sl_locked l) (sl_name l) (sl_pid l).

(** ** Processes: [struct cpu] and [struct proc] of proc.h *)

Record cpu := Cpu { c_proc : option nat; c_noff : Z; c_intena : bool }.
#[export] Instance eta_cpu : EtaRecord cpu := fun c => Cpu (c_proc c) (c_noff c) (c_intena c).

Inductive procstate := UNUSED | USED | SLEEPING | RUNNABLE | RUNNING | ZOMBIE.
#[export] Instance procstate_eq_dec : EqDecision procstate.
Proof. solve_decision. Defined.

(** The saved registers that the C code sets; [xstate] and [name] are in RAM. *)
Record proc := Proc {
  p_state : procstate; p_chan : option chan; p_killed : Z; p_pid : Z;
  p_parent : option nat; p_kstack : Z; p_sz : Z; p_pagetable : Z; p_trapframe : Z;
  p_ctx_ra : Z; p_ctx_sp : Z; p_ofile : list (option nat); p_cwd : option nat
}.
#[export] Instance eta_proc : EtaRecord proc := fun p =>
  Proc (p_state p) (p_chan p) (p_killed p) (p_pid p) (p_parent p) (p_kstack p) (p_sz p)
    (p_pagetable p) (p_trapframe p) (p_ctx_ra p) (p_ctx_sp p) (p_ofile p) (p_cwd p).
Definition sizeof_proc : Z := 360.

(** [cpus], [proc], [nextpid], [initproc] of proc.c and the static [first] of
    [forkret]. *)
Record ptable := Ptable {
  cpus : list cpu; procs : list proc; nextpid : Z; initproc : option nat; first : Z
}.
#[export] Instance eta_ptable : EtaRecord ptable := fun t =>
  Ptable (cpus t) (procs t) (nextpid t) (initproc t) (first t).

(** ** Files *)

(** [struct buf] (buf.h): index [NBUF] is [bcache.head]. *)
Record buf := Buf {
  b_valid : Z; b_disk : Z; b_dev : Z; b_blockno : Z; b_refcnt : Z; b_prev : nat; b_next : nat
}.
#[export] Instance eta_buf : EtaRecord buf := fun b =>
  Buf (b_valid b) (b_disk b) (b_dev b) (b_blockno b) (b_refcnt b) (b_prev b) (b_next b).
Definition sizeof_buf : Z := 1112.
Definition off_buf_data : Z := 88.

(** [struct log] and [struct logheader] of log.c. *)
Record log := Log {
  l_start : Z; l_size : Z; l_outstanding : Z; l_committing : Z; l_dev : Z;
  lh_n : Z; lh_block : list Z
}.
#[export] Instance eta_log : EtaRecord log := fun l =>
  Log (l_start l) (l_size l) (l_outstanding l) (l_committing l) (l_dev l) (lh_n l) (lh_block l).

(** [struct superblock] (fs.h). *)
Record superblock := Superblock {
  s_magic : Z; s_size : Z; s_nblocks : Z; s_ninodes : Z; s_nlog : Z; s_logstart : Z;
  s_inodestart : Z; s_bmapstart : Z
}.
#[export] Instance eta_superblock : EtaRecord superblock := fun s =>
  Superblock (s_magic s) (s_size s) (s_nblocks s) (s_ninodes s) (s_nlog s) (s_logstart s)
    (s_inodestart s) (s_bmapstart s).

(** [struct inode] (file.h). *)
Record inode := Inode {
  i_dev : Z; i_inum : Z; i_ref : Z; i_valid : Z; i_type : Z; i_major : Z; i_minor : Z;
  i_nlink : Z; i_size : Z; i_addrs : list Z
}.
#[export] Instance eta_inode : EtaRecord inode := fun i =>
  Inode (i_dev i) (i_inum i) (i_ref i) (i_valid i) (i_type i) (i_major i) (i_minor i)
    (i_nlink i) (i_size i) (i_addrs i).

(** [struct file] (file.h). *)
Inductive ftype := FD_NONE | FD_PIPE | FD_INODE | FD_DEVICE.
#[export] Instance ftype_eq_dec : EqDecision ftype.
Proof. solve_decision. Defined.
Record file := File {
  f_type : ftype; f_ref : Z; f_readable : bool; f_writable : bool; f_pipe : Z;
  f_ip : option nat; f_off : Z; f_major : Z
}.
#[export] Instance eta_file : EtaRecord file := fun f =>
  File (f_type f) (f_ref f) (f_readable f) (f_writable f) (f_pipe f) (f_ip f) (f_off f) (f_major f).

(** [bcache], [log], [sb], [itable], [ftable]. *)
Record fstate := Fstate {
  bufs : list buf; logst : log; sb : superblock; itable : list inode; ftable : list file
}.
#[export] Instance eta_fstate : EtaRecord fstate := fun s =>
  Fstate (bufs s) (logst s) (sb s) (itable s) (ftable s).

(** ** Devices *)

(** [cons] of console.c, the transmit buffer of uart.c, [pr] and [panicked] of
    printf.c, [ticks] of trap.c, the driver's part of [disk] of virtio_disk.c,
    and the console's entry of [devsw]. *)
Record cons := Cons { cons_buf : list Z; cons_r : Z; cons_w : Z; cons_e : Z }.
#[export] Instance eta_cons : EtaRecord cons := fun c =>
  Cons (cons_buf c) (cons_r c) (cons_w c) (cons_e c).
Record uart := Uart { uart_tx_buf : list Z; uart_tx_w : Z; uart_tx_r : Z }.
#[export] Instance eta_uart : EtaRecord uart := fun u =>
  Uart (uart_tx_buf u) (uart_tx_w u) (uart_tx_r u).
Record vdisk := Vdisk {
  v_desc : Z; v_avail : Z; v_used : Z; v_free : list bool; v_used_idx : Z;
  v_info_b : list (option nat)
}.
#[export] Instance eta_vdisk : EtaRecord vdisk := fun v =>
  Vdisk (v_desc v) (v_avail v) (v_used v) (v_free v) (v_used_idx v) (v_info_b v).

Class Device := {
  dev : Type;
  mmio_read : Z -> dev -> Z * dev;
  mmio_write : Z -> Z -> dev -> dev
}.

Inductive devfun := Consoleread | Consolewrite.

Section State.
Context `{Device}.

Record iostate := Iostate {
  cons_ : cons; uart_ : uart; pr_locking : Z; panicked : Z; ticks : Z; disk : vdisk;
  devsw : list (option devfun * option devfun); devices : dev
}.
#[export] Instance eta_iostate : EtaRecord iostate := fun s =>
  Iostate (cons_ s) (uart_ s) (pr_locking s) (panicked s) (ticks s) (disk s) (devsw s) (devices s).

(** ** The total state

    [k_buddy] and [k_slabs] are the allocator records of buddy_alloc.c and
    slab_alloc.c (the slabs as list address, cell size and cell count),
    [k_kpt] the kernel page table of vm.c, [k_started] the flag of main.c. *)
Record kst := Kst {
  k_hart : hart; k_locks : gmap lockid spinlock; k_sleeplocks : gmap sleepid sleeplock;
  k_mem : ram; k_ptable : ptable; k_fs : fstate; k_io : iostate;
  k_buddy : buddy_allocator; k_slabs : list (Z * Z * Z); k_kpt : Z; k_started : Z
}.
#[export] Instance eta_kst : EtaRecord kst := fun s =>
  Kst (k_hart s) (k_locks s) (k_sleeplocks s) (k_mem s) (k_ptable s) (k_fs s) (k_io s)
    (k_buddy s) (k_slabs s) (k_kpt s) (k_started s).

Definition K := M kst.

(** ** The machine around the running thread

    [swtch a b] is the context switch of swtch.S: it returns when some other
    thread, or the scheduler, switches back, having done whatever the rest of
    the machine did in between.  [rounds] bounds how often a thread waits for
    one event, by sleeping or by polling; the [sym] fields are addresses that
    the linker assigns. *)
Inductive context := CtxProc (i : nat) | CtxCpu (c : nat).

Class Machine := {
  swtch : context -> context -> K unit;
  rounds : nat;
  sym_end : Z; sym_etext : Z; sym_trampoline : Z; sym_uservec : Z; sym_userret : Z;
  sym_kernelvec : Z; sym_timervec : Z; sym_main : Z; sym_usertrap : Z; sym_forkret : Z;
  sym_initcode : Z; sym_bcache : Z; sym_proc : Z; sym_disk : Z; sym_timer_scratch : Z
}.

(** [&proc[i].xstate], [proc[i].name] and [bcache.buf[b].data] *)
Definition proc_xstate `{Machine} (i : nat) : Z := sym_proc + sizeof_proc * Z.of_nat i + 44.
Definition proc_name `{Machine} (i : nat) : Z := sym_proc + sizeof_proc * Z.of_nat i + 344.
Definition buf_data `{Machine} (b : nat) : Z :=
  sym_bcache + 24 + sizeof_buf * Z.of_nat b + off_buf_data.
End State.

(** ** Access to the parts of the state *)

Section Access.
Context `{Device}.

Definition gets {A} (f : kst -> A) : K A := fun s => Ok (f s, s).
Definition modify (f : kst -> kst) : K unit := fun s => Ok (tt, f s).

(** Running a computation on one part. *)
Definition zoom {P A} (get : kst -> P) (put : P -> kst -> kst) (c : M P A) : K A := fun s =>
  match c (get s) with
  | Ok (a, p) => Ok (a, put p s)
  | Panic msg => Panic msg
  | Assert line => Assert line
  | Fault addr => Fault addr
  | Diverge => Diverge
  end.
Definition onhart {A} : M hart A -> K A := zoom k_hart (fun h s => s <| k_hart := h |>).
Definition onram {A} : M ram A -> K A := zoom k_mem (fun m s => s <| k_mem := m |>).
#[global] Instance ram_kst : RamIn kst := @onram.

(** Array elements. *)
Definition getproc (i : nat) : K proc := l <- gets (fun s => procs (k_ptable s)) ;; some_or_fault (l !! i).
Definition setproc (i : nat) (f : proc -> proc) : K unit :=
  modify (set k_ptable (set procs (alter f i))).
Definition getbuf (i : nat) : K buf := l <- gets (fun s => bufs (k_fs s)) ;; some_or_fault (l !! i).
Definition setbuf (i : nat) (f : buf -> buf) : K unit := modify (set k_fs (set bufs (alter f i))).
Definition getinode (i : nat) : K inode := l <- gets (fun s => itable (k_fs s)) ;; some_or_fault (l !! i).
Definition setinode (i : nat) (f : inode -> inode) : K unit :=
  modify (set k_fs (set itable (alter f i))).
Definition getfile (i : nat) : K file := l <- gets (fun s => ftable (k_fs s)) ;; some_or_fault (l !! i).
Definition setfile (i : nat) (f : file -> file) : K unit :=
  modify (set k_fs (set ftable (alter f i))).
Definition getlog : K log := gets (fun s => logst (k_fs s)).
Definition setlog (f : log -> log) : K unit := modify (set k_fs (set logst f)).

(** A block of [n] bytes of the kernel stack for a function's local variables,
    released when the function returns.  [sp] is the stack's physical address. *)
Definition frame {A} (n : Z) (k : Z -> K A) : K A :=
  a <- gets (fun s => sp (k_hart s) - n) ;;
  modify (set k_hart (set sp (fun x => x - n))) ;;;
  r <- k a ;;
  modify (set k_hart (set sp (fun x => x + n))) ;;;
  ret r.

(** Fuel for a loop that walks through memory from [a]. *)
Definition ram_fuel (a : Z) : K nat := gets (fun s => S (Z.to_nat (ram_hi (k_mem s) - a))).

(** 16-bit objects. *)
Definition ld16 (a : Z) : M ram Z := load 2 a.
Definition st16 (a v : Z) : M ram unit := store 2 a v.
End Access.

(** A string constant of the source, placed in the frame for the call that
    takes its address. *)
Fixpoint string_bytes (s : string) : list Z :=
  match s with
  | EmptyString => [0]
  | String c s => Z.of_N (Ascii.N_of_ascii c) :: string_bytes s
  end.
Fixpoint store_bytes (a : Z) (l : list Z) : M ram unit :=
  match l with
  | [] => ret tt
  | b :: l => st8 a b ;;; store_bytes (a + 1) l
  end.
Definition with_string `{Device} {A} (s : string) (k : Z -> K A) : K A :=
  frame 16 (fun a => onram (store_bytes a (string_bytes s)) ;;; k a).
