(* ===== verification/Blocks.v ===== *)
(** * Blocks of bytes

    A disk block, or any other run of bytes, as a list: little-endian fields at
    byte offsets, overwriting a range, and the bytes of RAM as such a list. *)

From S2P Require Import Prelude CInt Memory KMonad Riscv KState KString.

Notation block := (list Z) (only parsing).

(** [n] little-endian bytes at [off] of a block. *)
Fixpoint get_le (n : nat) (b : block) (off : nat) : Z :=
  match n with
  | O => 0
  | S n => default 0 (b !! off) + 256 * get_le n b (S off)
  end.
Fixpoint put_le (n : nat) (b : block) (off : nat) (v : Z) : block :=
  match n with
  | O => b
  | S n => put_le n (<[off := u8 v]> b) (S off) (v / 256)
  end.
(** Overwriting a range. *)
Definition splice (b : block) (off : nat) (l : list Z) : block :=
  take off b ++ l ++ drop (off + length l) b.
Definition zeroes : block := replicate (Z.to_nat BSIZE) 0.

(** [n] bytes of RAM from [a]. *)
Definition rdbytes (m : ram) (a : Z) (n : nat) : list Z := (fun i => byte_at m (a + i)) <$> seqZ 0 (Z.of_nat n).

(** ** Bytes of RAM *)

Lemma length_rdbytes m a n : length (rdbytes m a n) = n.
Proof. unfold rdbytes. rewrite length_fmap, length_seqZ. lia. Qed.

Lemma rdbytes_lookup m a n i :
  (i < n)%nat -> rdbytes m a n !! i = Some (byte_at m (a + Z.of_nat i)).
Proof.
  intros Hi. unfold rdbytes. rewrite list_lookup_fmap, lookup_seqZ_lt by lia. cbn. do 2 f_equal; lia.
Qed.

Lemma rdbytes_ext m m' a a' n :
  (forall i, 0 <= i < Z.of_nat n -> byte_at m' (a' + i) = byte_at m (a + i)) ->
  rdbytes m' a' n = rdbytes m a n.
Proof.
  intros Hb. apply list_fmap_ext. intros i x Hx. apply lookup_seqZ in Hx. apply Hb. lia.
Qed.

Lemma rdbytes_byte m m' a a' n i :
  rdbytes m' a' n = rdbytes m a n -> 0 <= i < Z.of_nat n -> byte_at m' (a' + i) = byte_at m (a + i).
Proof.
  intros E Hi. assert (rdbytes m' a' n !! Z.to_nat i = rdbytes m a n !! Z.to_nat i) as El by (by rewrite E).
  rewrite !rdbytes_lookup in El by lia. injection El. by rewrite Z2Nat.id by lia.
Qed.

Lemma rdbytes_same_off P m m' a n :
  same_off P m m' -> (forall x, a <= x < a + Z.of_nat n -> ~ P x) -> rdbytes m' a n = rdbytes m a n.
Proof. intros (_ & _ & Hb) HP. apply rdbytes_ext. intros i Hi. apply Hb, HP. lia. Qed.

(** A field of RAM is the field of the list. *)
Lemma get_le_rdbytes k m a n off :
  (off + k <= n)%nat -> get_le k (rdbytes m a n) off = peek k m (a + Z.of_nat off).
Proof.
  revert off. induction k as [|k IH]; intros off Hk; cbn [get_le peek]; [done|].
  rewrite rdbytes_lookup, IH by lia. cbn [default]. by replace (a + Z.of_nat (S off)) with (a + Z.of_nat off + 1) by lia.
Qed.

(** Copying a block. *)
Lemma memmove_block d s n m :
  Z.of_nat n < 2 ^ 32 -> ram_lo m <= s -> ram_lo m <= d -> s + Z.of_nat n <= ram_hi m ->
  d + Z.of_nat n <= ram_hi m -> 0 <= ram_lo m -> ram_hi m < 2 ^ 64 ->
  exists m', memmove d s (Z.of_nat n) m = Ok (d, m') /\
    same_off (fun x => d <= x < d + Z.of_nat n) m m' /\ rdbytes m' d n = rdbytes m s n.
Proof.
  intros. destruct (memmove_spec d s (Z.of_nat n) m) as (m' & E & So & Hb); [lia..|].
  exists m'. split_and!; [done..|]. by apply rdbytes_ext.
Qed.

(** ** Fields of a block *)

Lemma length_put_le k b off v : length (put_le k b off v) = length b.
Proof. revert b off v. induction k as [|k IH]; intros b off v; cbn; [done|]. by rewrite IH, length_insert. Qed.

Lemma put_le_lookup_ne k b off v i :
  (i < off \/ off + k <= i)%nat -> put_le k b off v !! i = b !! i.
Proof.
  revert b off v. induction k as [|k IH]; intros b off v Hi; cbn; [done|].
  rewrite IH by lia. apply list_lookup_insert_ne. lia.
Qed.

Lemma get_put_le k b off v :
  (off + k <= length b)%nat -> get_le k (put_le k b off v) off = v mod 256 ^ Z.of_nat k.
Proof.
  revert b off v. induction k as [|k IH]; intros b off v Hk; cbn [get_le put_le].
  - by rewrite Z.mod_1_r.
  - rewrite IH by (rewrite length_insert; lia). rewrite put_le_lookup_ne by lia.
    rewrite list_lookup_insert_eq by lia. cbn [default]. unfold u8. change (2 ^ 8) with 256.
    rewrite Nat2Z.inj_succ, Z.pow_succ_r by lia.
    by rewrite Z.rem_mul_r by (try apply Z.pow_nonzero; lia).
Qed.

Lemma get_le_ext k b b' off :
  (forall i, (off <= i < off + k)%nat -> b' !! i = b !! i) -> get_le k b' off = get_le k b off.
Proof.
  revert off. induction k as [|k IH]; intros off Hb; cbn [get_le]; [done|].
  rewrite Hb by lia. rewrite IH; [done|]. intros i Hi. apply Hb. lia.
Qed.

Lemma get_put_le_ne k k' b off off' v :
  (off + k <= off' \/ off' + k' <= off)%nat -> get_le k (put_le k' b off' v) off = get_le k b off.
Proof. intros Hd. apply get_le_ext. intros i Hi. apply put_le_lookup_ne. lia. Qed.

(** A store into RAM is a store into the list of bytes. *)
Lemma rdbytes_poke k m a n off v :
  (off + k <= n)%nat -> rdbytes (poke k m (a + Z.of_nat off) v) a n = put_le k (rdbytes m a n) off v.
Proof.
  revert m off v. induction k as [|k IH]; intros m off v Hk; cbn [poke put_le]; [done|].
  replace (a + Z.of_nat off + 1) with (a + Z.of_nat (S off)) by lia. rewrite IH by lia. f_equal.
  apply list_eq. intros i. destruct (decide (i < n)%nat) as [Hi|Hi].
  - rewrite rdbytes_lookup, byte_at_set by done. case_decide as E.
    + assert (i = off) as -> by lia. rewrite list_lookup_insert_eq by (rewrite length_rdbytes; lia).
      done.
    + rewrite list_lookup_insert_ne by lia. by rewrite rdbytes_lookup.
  - rewrite !lookup_ge_None_2; [done|rewrite length_insert, length_rdbytes; lia|rewrite length_rdbytes; lia].
Qed.

(** ** Writing bytes into RAM *)

Fixpoint wrbytes (m : ram) (a : Z) (l : list Z) : ram :=
  match l with
  | [] => m
  | x :: l => wrbytes (set_byte m a x) (a + 1) l
  end.

Lemma wrbytes_same m a l : same_off (fun x => a <= x < a + Z.of_nat (length l)) m (wrbytes m a l).
Proof.
  revert m a. induction l as [|x l IH]; intros m a; [apply same_off_refl|]. cbn [wrbytes length].
  eapply same_off_trans; [|apply IH|].
  - apply (same_off_poke 1).
  - cbv beta. lia.
Qed.

Lemma rdbytes_wrbytes m a l :
  (forall x, x ∈ l -> 0 <= x < 256) -> rdbytes (wrbytes m a l) a (length l) = l.
Proof.
  revert m a. induction l as [|x l IH]; intros m a Hl; [done|]. cbn [wrbytes length].
  apply list_eq. intros i. destruct (decide (i < S (length l))%nat) as [Hi|Hi].
  - rewrite rdbytes_lookup by done. destruct i as [|i]; cbn.
    + destruct (wrbytes_same (set_byte m a x) (a + 1) l) as (_ & _ & ->); [|lia].
      rewrite Z.add_0_r, byte_at_set, decide_True by done. f_equal. apply u8_id. apply Hl. by left.
    + specialize (IH (set_byte m a x) (a + 1)). rewrite <- IH at 2 by (intros; apply Hl; by right).
      rewrite rdbytes_lookup by lia. do 2 f_equal. lia.
  - rewrite !lookup_ge_None_2; [done|cbn; lia|rewrite length_rdbytes; lia].
Qed.
