(* ===== verification/Spinlock.v ===== *)
(** * Spin locks (kernel/spinlock.c) and the current CPU (kernel/proc.c)

    The operations of one thread.  [acquire] spins while the lock is held by
    another hart; a thread on its own makes no progress then, which is
    [Diverge] here.  The interleaving of several harts is in [SpinMutex], built
    from the same pieces. *)

From S2P Require Import Prelude CInt Memory KMonad Riscv KState.

Section Spinlock.
Context `{Device}.

(** ** The current hart's [struct cpu] *)

Definition cpuid : K Z := id <- onhart r_tp ;; ret (i32 id).
(** The index of the entry of [cpus]. *)
Definition mycpu : K nat := id <- cpuid ;; ret (Z.to_nat id).
Definition getcpu (c : nat) : K cpu :=
  l <- gets (fun s => cpus (k_ptable s)) ;; some_or_fault (l !! c).
Definition setcpu (c : nat) (f : cpu -> cpu) : K unit :=
  modify (set k_ptable (set cpus (alter f c))).

(** ** Interrupt nesting *)

Definition push_off : K unit :=
  old <- onhart intr_get ;;
  onhart intr_off ;;;
  c <- mycpu ;;
  cpu <- getcpu c ;;
  (if c_noff cpu =? 0 then setcpu c (set c_intena (fun _ => old)) else ret tt) ;;;
  setcpu c (set c_noff (fun n => i32 (n + 1))).

Definition pop_off : K unit :=
  c <- mycpu ;;
  i <- onhart intr_get ;;
  if (i : bool) then panic "pop_off - interruptible"
  else
    cpu <- getcpu c ;;
    if c_noff cpu <? 1 then panic "pop_off"
    else
      setcpu c (set c_noff (fun n => i32 (n - 1))) ;;;
      cpu <- getcpu c ;;
      if (c_noff cpu =? 0) && c_intena cpu then onhart intr_on else ret tt.

(** ** Locks *)

Definition getlock (lk : lockid) : K spinlock :=
  l <- gets k_locks ;; ret (default (Spin 0 "" None) (l !! lk)).
Definition setlock (lk : lockid) (f : spinlock -> spinlock) : K unit :=
  l <- getlock lk ;;
  modify (set k_locks (fun ls => <[lk := f l]> ls)).

Definition initlock (lk : lockid) (name : string) : K unit :=
  setlock lk (set lname (fun _ => name)) ;;;
  setlock lk (set locked (fun _ => 0)) ;;;
  setlock lk (set lcpu (fun _ => None)).

Definition holding (lk : lockid) : K bool :=
  l <- getlock lk ;;
  c <- mycpu ;;
  ret (negb (locked l =? 0) && bool_decide (lcpu l = Some c)).

(** [__sync_lock_test_and_set(&lk->locked, 1)]: an atomic swap. *)
Definition test_and_set (lk : lockid) : K Z :=
  l <- getlock lk ;;
  setlock lk (set locked (fun _ => 1)) ;;;
  ret (locked l).

Definition acquire (lk : lockid) : K unit :=
  push_off ;;;
  h <- holding lk ;;
  if (h : bool) then panic "acquire"
  else
    old <- test_and_set lk ;;
    if negb (old =? 0) then diverge
    else
      c <- mycpu ;;
      setlock lk (set lcpu (fun _ => Some c)).

(** [__sync_lock_release(&lk->locked)] *)
Definition lock_release (lk : lockid) : K unit := setlock lk (set locked (fun _ => 0)).

Definition release (lk : lockid) : K unit :=
  h <- holding lk ;;
  if negb h then panic "release"
  else
    setlock lk (set lcpu (fun _ => None)) ;;;
    lock_release lk ;;;
    pop_off.

(** The process running on this CPU. *)
Definition myproc : K (option nat) :=
  push_off ;;;
  c <- mycpu ;;
  cpu <- getcpu c ;;
  let p := c_proc cpu in
  pop_off ;;;
  ret p.

(** [myproc()] where the code dereferences it. *)
Definition curproc : K nat := p <- myproc ;; some_or_fault p.
End Spinlock.
