(* ===== verification/Sched.v ===== *)
(** * Scheduling, sleep and wakeup (kernel/proc.c) and sleep locks
      (kernel/sleeplock.c)

    The part of proc.c that the rest of the kernel builds on. *)

From S2P Require Import Prelude CInt Memory KMonad Riscv KState Spinlock.

Section Sched.
Context `{Machine}.

Definition allocpid : K Z :=
  acquire Lpid ;;;
  pid <- gets (fun s => nextpid (k_ptable s)) ;;
  modify (set k_ptable (set nextpid (fun n => i32 (n + 1)))) ;;;
  release Lpid ;;;
  ret pid.

(** ** Switching *)

Definition sched : K unit :=
  p <- curproc ;;
  h <- holding (Lproc p) ;;
  if negb h then panic "sched p->lock"
  else
    c <- mycpu ;;
    cpu <- getcpu c ;;
    if negb (c_noff cpu =? 1) then panic "sched locks"
    else
      pr <- getproc p ;;
      if bool_decide (p_state pr = RUNNING) then panic "sched running"
      else
        i <- onhart intr_get ;;
        if (i : bool) then panic "sched interruptible"
        else
          c <- mycpu ;;
          cpu <- getcpu c ;;
          let intena := c_intena cpu in
          c <- mycpu ;;
          swtch (CtxProc p) (CtxCpu c) ;;;
          c <- mycpu ;;
          setcpu c (set c_intena (fun _ => intena)).

Definition yield : K unit :=
  p <- curproc ;;
  acquire (Lproc p) ;;;
  setproc p (set p_state (fun _ => RUNNABLE)) ;;;
  sched ;;;
  release (Lproc p).

(** One iteration of the outer loop of [scheduler]: interrupts on, then a pass
    over the process table. *)
Definition scheduler_pass (c : nat) : K unit :=
  onhart intr_on ;;;
  for_each nproc 0 (fun i =>
    let p := Z.to_nat i in
    acquire (Lproc p) ;;;
    pr <- getproc p ;;
    (if bool_decide (p_state pr = RUNNABLE) then
       setproc p (set p_state (fun _ => RUNNING)) ;;;
       setcpu c (set c_proc (fun _ => Some p)) ;;;
       swtch (CtxCpu c) (CtxProc p) ;;;
       setcpu c (set c_proc (fun _ => None))
     else ret tt) ;;;
    release (Lproc p)).

(** It never returns. *)
Definition scheduler : K unit :=
  c <- mycpu ;;
  setcpu c (set c_proc (fun _ => None)) ;;;
  loop rounds (fun _ => scheduler_pass c ;;; ret (inl tt)) tt.

(** ** Sleep and wakeup *)

Definition sleep (ch : chan) (lk : lockid) : K unit :=
  p <- curproc ;;
  acquire (Lproc p) ;;;
  release lk ;;;
  setproc p (set p_chan (fun _ => Some ch)) ;;;
  setproc p (set p_state (fun _ => SLEEPING)) ;;;
  sched ;;;
  setproc p (set p_chan (fun _ => None)) ;;;
  release (Lproc p) ;;;
  acquire lk.

(** The channel may be the null pointer. *)
Definition wakeup_ptr (ch : option chan) : K unit :=
  for_each nproc 0 (fun i =>
    let p := Z.to_nat i in
    me <- myproc ;;
    if bool_decide (me = Some p) then ret tt
    else
      acquire (Lproc p) ;;;
      pr <- getproc p ;;
      (if bool_decide (p_state pr = SLEEPING) && bool_decide (p_chan pr = ch)
       then setproc p (set p_state (fun _ => RUNNABLE)) else ret tt) ;;;
      release (Lproc p)).
Definition wakeup (ch : chan) : K unit := wakeup_ptr (Some ch).

(** ** Killing *)

Definition kill (pid : Z) : K Z :=
  r <- for_ nproc 0 (fun i =>
    let p := Z.to_nat i in
    acquire (Lproc p) ;;;
    pr <- getproc p ;;
    if p_pid pr =? pid then
      setproc p (set p_killed (fun _ => 1)) ;;;
      (if bool_decide (p_state pr = SLEEPING)
       then setproc p (set p_state (fun _ => RUNNABLE)) else ret tt) ;;;
      release (Lproc p) ;;;
      ret (Some 0)
    else
      release (Lproc p) ;;;
      ret None) ;;
  ret (default (-1) r).

Definition setkilled (p : nat) : K unit :=
  acquire (Lproc p) ;;;
  setproc p (set p_killed (fun _ => 1)) ;;;
  release (Lproc p).

Definition killed (p : nat) : K Z :=
  acquire (Lproc p) ;;;
  pr <- getproc p ;;
  let k := p_killed pr in
  release (Lproc p) ;;;
  ret k.

(** ** Sleep locks *)

Definition getsleep (lk : sleepid) : K sleeplock :=
  l <- gets k_sleeplocks ;; ret (default (Sleep 0 "" 0) (l !! lk)).
Definition setsleep (lk : sleepid) (f : sleeplock -> sleeplock) : K unit :=
  l <- getsleep lk ;;
  modify (set k_sleeplocks (fun ls => <[lk := f l]> ls)).

Definition initsleeplock (lk : sleepid) (name : string) : K unit :=
  initlock (Lsleep lk) "sleep lock" ;;;
  setsleep lk (set sl_name (fun _ => name)) ;;;
  setsleep lk (set sl_locked (fun _ => 0)) ;;;
  setsleep lk (set sl_pid (fun _ => 0)).

Definition acquiresleep (lk : sleepid) : K unit :=
  acquire (Lsleep lk) ;;;
  loop rounds (fun _ =>
    l <- getsleep lk ;;
    if negb (sl_locked l =? 0) then
      sleep (Csleep lk) (Lsleep lk) ;;; ret (inl tt)
    else ret (inr tt)) tt ;;;
  setsleep lk (set sl_locked (fun _ => 1)) ;;;
  p <- curproc ;;
  pr <- getproc p ;;
  setsleep lk (set sl_pid (fun _ => p_pid pr)) ;;;
  release (Lsleep lk).

Definition releasesleep (lk : sleepid) : K unit :=
  acquire (Lsleep lk) ;;;
  setsleep lk (set sl_locked (fun _ => 0)) ;;;
  setsleep lk (set sl_pid (fun _ => 0)) ;;;
  wakeup (Csleep lk) ;;;
  release (Lsleep lk).

Definition holdingsleep (lk : sleepid) : K bool :=
  acquire (Lsleep lk) ;;;
  l <- getsleep lk ;;
  r <- (if negb (sl_locked l =? 0) then
          p <- curproc ;;
          pr <- getproc p ;;
          ret (sl_pid l =? p_pid pr)
        else ret false) ;;
  release (Lsleep lk) ;;;
  ret r.
End Sched.
