(* ===== verification/KAlloc.v ===== *)
(** * The allocators as the kernel uses them

    kernel/buddy_alloc.c, kernel/slab_alloc.c and kernel/kalloc.c wrap the two
    allocator libraries in spin locks.  The slab library and the virtual-memory
    code are given the locked [buddy_alloc] and [buddy_free]. *)

From S2P Require Import Prelude CInt Memory KMonad Riscv KState Spinlock.
From S2P Require Import Buddy Slab KString Vm.

Definition BUDDY_LEVELS : Z := 10.

Section KAlloc.
Context `{Machine}.

(** ** Pages *)

Definition buddy_init : K unit :=
  initlock Lbuddy "buddy_mem" ;;;
  let first_page := PGROUNDUP sym_end in
  let space_size := u64 (PHYSTOP - first_page) in
  if negb (space_size mod PGSIZE =? 0) then panic "buddy init"
  else
    mem <- gets k_buddy ;;
    let* (res, mem) :=
      onram (Buddy.lib_buddy_init mem BUDDY_LEVELS PGSIZE (space_size / PGSIZE) first_page) in
    modify (set k_buddy (fun _ => mem)) ;;;
    if negb (res =? 0) then panic "buddy init" else ret tt.

Definition buddy_alloc (pages : Z) : K Z :=
  acquire Lbuddy ;;;
  mem <- gets k_buddy ;;
  ptr <- onram (Buddy.lib_buddy_alloc mem pages) ;;
  release Lbuddy ;;;
  ret ptr.

Definition buddy_free (addr : Z) : K unit :=
  acquire Lbuddy ;;;
  mem <- gets k_buddy ;;
  onram (Buddy.lib_buddy_free riscv64 mem addr) ;;;
  release Lbuddy.

Definition kinit : K unit := buddy_init.
Definition kalloc : K Z := buddy_alloc 1.
Definition kfree (pa : Z) : K unit := buddy_free pa.

(** Code over a page allocator, run with the kernel's. *)
Definition onvm {A} (c : (Z -> K Z) -> (Z -> K unit) -> K A) : K A := c buddy_alloc buddy_free.

(** ** Objects *)

Definition pgbegin (ptr : Z) : Z := ptr - ptr mod PGSIZE.

(** The library's record of slab [k]. *)
Definition slab_record (x : Z * Z * Z) : Slab.slab_alloc_t kst :=
  let '(lists, ssize, cells) := x in
  Slab.SlabAlloc lists PGSIZE ssize cells buddy_alloc buddy_free pgbegin.
Definition getslab (k : nat) : K (Slab.slab_alloc_t kst) :=
  l <- gets k_slabs ;;
  ret (slab_record (default (0, 0, 0) (l !! k))).

Definition kslab_init (k : nat) (ssize : Z) : K unit :=
  initlock (Lslab k) "slab lock" ;;;
  slab <- getslab k ;;
  slab <- Slab.lib_slab_init slab PGSIZE ssize buddy_alloc buddy_free pgbegin ;;
  modify (set k_slabs (fun l => <[k := (Slab.lists slab, Slab.ssize slab, Slab.cells slab)]> l)).

Definition kslab_alloc (k : nat) : K Z :=
  acquire (Lslab k) ;;;
  slab <- getslab k ;;
  res <- Slab.lib_slab_alloc slab ;;
  release (Lslab k) ;;;
  ret res.

Definition kslab_free (k : nat) (ptr : Z) : K unit :=
  acquire (Lslab k) ;;;
  slab <- getslab k ;;
  Slab.lib_slab_free slab ptr ;;;
  release (Lslab k).

(** [enum SlabStructs] of defs.h and the sizes of the four structs. *)
Definition SLAB_virtq_desc : Z := 0.
Definition SLAB_virtq_avail : Z := 1.
Definition SLAB_virtq_used : Z := 2.
Definition SLAB_pipe : Z := 3.
Definition sizeof_virtq_desc : Z := 16.
Definition sizeof_virtq_avail : Z := 22.
Definition sizeof_virtq_used : Z := 68.
Definition sizeof_pipe : Z := 552.

Definition slab_init : K unit :=
  kslab_init 0 sizeof_virtq_desc ;;;
  kslab_init 1 sizeof_virtq_avail ;;;
  kslab_init 2 sizeof_virtq_used ;;;
  kslab_init 3 sizeof_pipe.

Definition slab_alloc (slab_struct : Z) : K Z :=
  if slab_struct =? SLAB_virtq_desc then kslab_alloc 0
  else if slab_struct =? SLAB_virtq_avail then kslab_alloc 1
  else if slab_struct =? SLAB_virtq_used then kslab_alloc 2
  else if slab_struct =? SLAB_pipe then kslab_alloc 3
  else panic "slab alloc".

Definition slab_free (slab_struct ptr : Z) : K unit :=
  if slab_struct =? SLAB_virtq_desc then kslab_free 0 ptr
  else if slab_struct =? SLAB_virtq_avail then kslab_free 1 ptr
  else if slab_struct =? SLAB_virtq_used then kslab_free 2 ptr
  else if slab_struct =? SLAB_pipe then kslab_free 3 ptr
  else panic "slab free".

(** ** Copying to and from user memory for the current process (proc.c) *)

Definition either_copyout (user_dst : bool) (dst src len : Z) : K Z :=
  p <- curproc ;;
  if user_dst then
    pr <- getproc p ;;
    onvm (fun pg_alloc _ => copyout pg_alloc (p_pagetable pr) dst src len)
  else onram (memmove dst src len) ;;; ret 0.

Definition either_copyin (dst : Z) (user_src : bool) (src len : Z) : K Z :=
  p <- curproc ;;
  if user_src then
    pr <- getproc p ;;
    onvm (fun pg_alloc _ => copyin pg_alloc (p_pagetable pr) dst src len)
  else onram (memmove dst src len) ;;; ret 0.
End KAlloc.
