(* ===== verification/Console.v ===== *)
(** * Console output and input

    kernel/uart.c (the 16550 driver), kernel/printf.c and kernel/console.c. *)

From S2P Require Import Prelude CInt Memory KMonad Riscv KState Spinlock Sched.
From S2P Require Import KString Vm KAlloc.

Section Console.
Context `{Machine}.

(** ** Registers *)

Definition mmio_rd (a : Z) : K Z := fun s =>
  let '(v, d) := mmio_read a (devices (k_io s)) in
  Ok (v, s <| k_io := (k_io s) <| devices := d |> |>).
Definition mmio_wr (a v : Z) : K unit :=
  modify (set k_io (set devices (mmio_write a v))).

Definition RHR : Z := 0.
Definition THR : Z := 0.
Definition IER : Z := 1.
Definition IER_RX_ENABLE : Z := Z.shiftl 1 0.
Definition IER_TX_ENABLE : Z := Z.shiftl 1 1.
Definition FCR : Z := 2.
Definition FCR_FIFO_ENABLE : Z := Z.shiftl 1 0.
Definition FCR_FIFO_CLEAR : Z := Z.shiftl 3 1.
Definition LCR : Z := 3.
Definition LCR_EIGHT_BITS : Z := Z.shiftl 3 0.
Definition LCR_BAUD_LATCH : Z := Z.shiftl 1 7.
Definition LSR : Z := 5.
Definition LSR_TX_IDLE : Z := Z.shiftl 1 5.
Definition UART_TX_BUF_SIZE : Z := 32.

Definition ReadReg (reg : Z) : K Z := v <- mmio_rd (UART0 + reg) ;; ret (u8 v).
Definition WriteReg (reg v : Z) : K unit := mmio_wr (UART0 + reg) (u8 v).

Definition getuart : K uart := gets (fun s => uart_ (k_io s)).
Definition setuart (f : uart -> uart) : K unit := modify (set k_io (set uart_ f)).

(** ** The UART driver *)

Definition uartinit : K unit :=
  WriteReg IER 0 ;;;
  WriteReg LCR LCR_BAUD_LATCH ;;;
  WriteReg 0 3 ;;;
  WriteReg 1 0 ;;;
  WriteReg LCR LCR_EIGHT_BITS ;;;
  WriteReg FCR (Z.lor FCR_FIFO_ENABLE FCR_FIFO_CLEAR) ;;;
  WriteReg IER (Z.lor IER_TX_ENABLE IER_RX_ENABLE) ;;;
  initlock Luart "uart".

(** [while(1)]: each iteration that does not return sends a byte, and the
    buffer holds at most [UART_TX_BUF_SIZE]. *)
Definition uartstart : K unit :=
  loop (S (Z.to_nat UART_TX_BUF_SIZE)) (fun _ =>
    u <- getuart ;;
    if uart_tx_w u =? uart_tx_r u then ret (inr tt)
    else
      lsr <- ReadReg LSR ;;
      if Z.land lsr LSR_TX_IDLE =? 0 then ret (inr tt)
      else
        u <- getuart ;;
        let c := default 0 (uart_tx_buf u !! Z.to_nat (uart_tx_r u mod UART_TX_BUF_SIZE)) in
        setuart (set uart_tx_r (fun r => u64 (r + 1))) ;;;
        wakeup Cuartr ;;;
        WriteReg THR c ;;;
        ret (inl tt)) tt.

Definition uartputc (c : Z) : K unit :=
  acquire Luart ;;;
  panicked <- gets (fun s => panicked (k_io s)) ;;
  if negb (panicked =? 0) then diverge
  else
    loop rounds (fun _ =>
      u <- getuart ;;
      if uart_tx_w u =? u64 (uart_tx_r u + UART_TX_BUF_SIZE) then
        sleep Cuartr Luart ;;; ret (inl tt)
      else ret (inr tt)) tt ;;;
    setuart (fun u => u <| uart_tx_buf :=
      <[Z.to_nat (uart_tx_w u mod UART_TX_BUF_SIZE) := u8 c]> (uart_tx_buf u) |>) ;;;
    setuart (set uart_tx_w (fun w => u64 (w + 1))) ;;;
    uartstart ;;;
    release Luart.

Definition uartputc_sync (c : Z) : K unit :=
  push_off ;;;
  panicked <- gets (fun s => panicked (k_io s)) ;;
  if negb (panicked =? 0) then diverge
  else
    loop rounds (fun _ =>
      lsr <- ReadReg LSR ;;
      if Z.land lsr LSR_TX_IDLE =? 0 then ret (inl tt) else ret (inr tt)) tt ;;;
    WriteReg THR c ;;;
    pop_off.

Definition uartgetc : K Z :=
  lsr <- ReadReg LSR ;;
  if negb (Z.land lsr 1 =? 0) then ReadReg RHR else ret (-1).

(** ** Printing *)

Definition BACKSPACE : Z := 0x100.

Definition consputc (c : Z) : K unit :=
  if c =? BACKSPACE then
    uartputc_sync 8 ;;; uartputc_sync 32 ;;; uartputc_sync 8
  else uartputc_sync c.

(** [digits[d]] *)
Definition digit (d : Z) : Z := if d <? 10 then 48 + d else 97 + (d - 10).

(** The [do] loop of [printint]: the characters in the order they enter
    [buf], least significant first; 16 is the size of [buf]. *)
Fixpoint printint_digits (k : nat) (x base : Z) : list Z :=
  match k with
  | O => []
  | S k =>
      digit (x mod base) ::
      (if x / base =? 0 then [] else printint_digits k (x / base) base)
  end.

(** The characters [printint] leaves in [buf]. *)
Definition printint_buf (xx base : Z) (sign : bool) : list Z :=
  let neg := sign && (xx <? 0) in
  let x := if neg then u32 (- xx) else u32 xx in
  printint_digits 16 x base ++ (if neg then [45] else []).

Fixpoint putchars (l : list Z) : K unit :=
  match l with
  | [] => ret tt
  | c :: l => consputc c ;;; putchars l
  end.

Definition printint (xx base : Z) (sign : bool) : K unit :=
  putchars (rev (printint_buf xx base sign)).

Definition printptr (x : Z) : K unit :=
  consputc 48 ;;;
  consputc 120 ;;;
  loop 17 (fun '(i, x) =>
    if i <? 16 then
      consputc (digit (Z.shiftr x (8 * 8 - 4))) ;;;
      ret (inl (i + 1, u64 (Z.shiftl x 4)))
    else ret (inr tt)) (0, x).

(** [for(; *s; s++) consputc( *s );] *)
Definition printstr (s : Z) : K unit :=
  n <- ram_fuel s ;;
  loop n (fun s =>
    c <- onram (ld8 s) ;;
    if negb (c =? 0) then consputc c ;;; ret (inl (s + 1)) else ret (inr tt)) s.

(** The format string is a constant of the source; [ap] holds the arguments
    as words. *)
Fixpoint printf_loop (fmt : list Z) (ap : list Z) : K unit :=
  match fmt with
  | [] => ret tt
  | c :: fmt =>
      if c =? 0 then ret tt
      else if negb (c =? 37) then consputc c ;;; printf_loop fmt ap
      else
        match fmt with
        | [] => ret tt
        | c :: fmt =>
            if c =? 0 then ret tt
            else if c =? 100 then
              a <- some_or_fault (head ap) ;;
              printint (i32 a) 10 true ;;; printf_loop fmt (tail ap)
            else if c =? 120 then
              a <- some_or_fault (head ap) ;;
              printint (i32 a) 16 true ;;; printf_loop fmt (tail ap)
            else if c =? 112 then
              a <- some_or_fault (head ap) ;;
              printptr (u64 a) ;;; printf_loop fmt (tail ap)
            else if c =? 115 then
              a <- some_or_fault (head ap) ;;
              (if u64 a =? 0 then putchars [40; 110; 117; 108; 108; 41] else printstr (u64 a)) ;;;
              printf_loop fmt (tail ap)
            else if c =? 37 then consputc 37 ;;; printf_loop fmt ap
            else consputc 37 ;;; consputc c ;;; printf_loop fmt ap
        end
  end.

Definition printf (fmt : string) (ap : list Z) : K unit :=
  locking <- gets (fun s => pr_locking (k_io s)) ;;
  (if negb (locking =? 0) then acquire Lpr else ret tt) ;;;
  printf_loop (string_bytes fmt) ap ;;;
  (if negb (locking =? 0) then release Lpr else ret tt).

Definition printfinit : K unit :=
  initlock Lpr "pr" ;;;
  modify (set k_io (set pr_locking (fun _ => 1))).

(** kernel/proc.c: the process listing. *)
Definition state_name (s : procstate) : string :=
  match s with
  | UNUSED => "unused" | USED => "used" | SLEEPING => "sleep " | RUNNABLE => "runble"
  | RUNNING => "run   " | ZOMBIE => "zombie"
  end.

Definition newline : string := String (Ascii.ascii_of_nat 10) EmptyString.

Definition procdump : K unit :=
  printf newline [] ;;;
  for_each nproc 0 (fun i =>
    let p := Z.to_nat i in
    pr <- getproc p ;;
    if bool_decide (p_state pr = UNUSED) then ret tt
    else
      with_string (state_name (p_state pr)) (fun state =>
        printf "%d %s %s" [p_pid pr; state; proc_name p]) ;;;
      printf newline []).

(** ** The console *)

Definition INPUT_BUF_SIZE : Z := 128.
Definition C_ (x : Z) : Z := x - 64.
Definition getcons : K cons := gets (fun s => cons_ (k_io s)).
Definition setcons (f : cons -> cons) : K unit := modify (set k_io (set cons_ f)).

Definition consolewrite (user_src : bool) (src n : Z) : K Z :=
  loop (S (Z.to_nat n)) (fun i =>
    if i <? n then
      frame 16 (fun c =>
        r <- either_copyin c user_src (u64 (src + i)) 1 ;;
        if r =? -1 then ret (inr i)
        else
          ch <- onram (ld8 c) ;;
          uartputc ch ;;;
          ret (inl (i + 1)))
    else ret (inr i)) 0.

(** The wait for input: [true] when there is some, [false] when killed. *)
Definition console_wait : K bool :=
  loop rounds (fun _ =>
    c <- getcons ;;
    if cons_r c =? cons_w c then
      p <- curproc ;;
      k <- killed p ;;
      if negb (k =? 0) then ret (inr false)
      else sleep Cconsr Lcons ;;; ret (inl tt)
    else ret (inr true)) tt.

Definition consoleread (user_dst : bool) (dst n : Z) : K Z :=
  let target := u32 n in
  acquire Lcons ;;;
  r <- loop (S (Z.to_nat n)) (fun '(dst, n) =>
    if 0 <? n then
      ok <- console_wait ;;
      if negb ok then ret (inr None)
      else
        s <- getcons ;;
        let c := default 0 (cons_buf s !! Z.to_nat (cons_r s mod INPUT_BUF_SIZE)) in
        setcons (set cons_r (fun r => u32 (r + 1))) ;;;
        if c =? C_ 68 then
          (if u32 n <? target then setcons (set cons_r (fun r => u32 (r - 1))) else ret tt) ;;;
          ret (inr (Some n))
        else
          frame 16 (fun cbuf =>
            onram (st8 cbuf c) ;;;
            e <- either_copyout user_dst dst cbuf 1 ;;
            if e =? -1 then ret (inr (Some n))
            else if c =? 10 then ret (inr (Some (n - 1)))
            else ret (inl (u64 (dst + 1), n - 1)))
    else ret (inr (Some n))) (dst, n) ;;
  release Lcons ;;;
  match r with
  | None => ret (-1)
  | Some n => ret (i32 (target - u32 n))
  end.

(** Kill line: back up to the last newline. *)
Definition consoleintr_kill : K unit :=
  loop (S (Z.to_nat INPUT_BUF_SIZE)) (fun _ =>
    s <- getcons ;;
    if negb (cons_e s =? cons_w s) &&
       negb (default 0 (cons_buf s !! Z.to_nat (u32 (cons_e s - 1) mod INPUT_BUF_SIZE)) =? 10)
    then
      setcons (set cons_e (fun e => u32 (e - 1))) ;;;
      consputc BACKSPACE ;;;
      ret (inl tt)
    else ret (inr tt)) tt.

Definition consoleintr (c : Z) : K unit :=
  acquire Lcons ;;;
  (if c =? C_ 80 then procdump
   else if c =? C_ 85 then consoleintr_kill
   else if (c =? C_ 72) || (c =? 127) then
     s <- getcons ;;
     if negb (cons_e s =? cons_w s) then
       setcons (set cons_e (fun e => u32 (e - 1))) ;;;
       consputc BACKSPACE
     else ret tt
   else
     s <- getcons ;;
     if negb (c =? 0) && (u32 (cons_e s - cons_r s) <? INPUT_BUF_SIZE) then
       let c := if c =? 13 then 10 else c in
       consputc c ;;;
       setcons (fun s => s <| cons_buf :=
         <[Z.to_nat (cons_e s mod INPUT_BUF_SIZE) := u8 c]> (cons_buf s) |>) ;;;
       setcons (set cons_e (fun e => u32 (e + 1))) ;;;
       s <- getcons ;;
       if (c =? 10) || (c =? C_ 68) || (u32 (cons_e s - cons_r s) =? INPUT_BUF_SIZE) then
         setcons (fun s => s <| cons_w := cons_e s |>) ;;;
         wakeup Cconsr
       else ret tt
     else ret tt) ;;;
  release Lcons.

(** [devsw[CONSOLE]] *)
Definition CONSOLE : nat := 1.

Definition consoleinit : K unit :=
  initlock Lcons "cons" ;;;
  uartinit ;;;
  modify (set k_io (set devsw (alter (fun d => (Some Consoleread, snd d)) CONSOLE))) ;;;
  modify (set k_io (set devsw (alter (fun d => (fst d, Some Consolewrite)) CONSOLE))).

(** kernel/uart.c: the interrupt. *)
Definition uartintr : K unit :=
  loop rounds (fun _ =>
    c <- uartgetc ;;
    if c =? -1 then ret (inr tt) else consoleintr c ;;; ret (inl tt)) tt ;;;
  acquire Luart ;;;
  uartstart ;;;
  release Luart.
End Console.
