(* ===== verification/Virtio.v ===== *)
(** * The virtio disk driver (kernel/virtio_disk.c)

    The descriptor table and the two rings are in RAM, where the device reads
    and writes them; the device itself is behind the memory-mapped registers
    and acts while the driver sleeps. *)

From S2P Require Import Prelude CInt Memory KMonad Riscv KState Spinlock Sched.
From S2P Require Import KString Vm KAlloc Console.

(** ** Constants of virtio.h *)

(** The memory-mapped registers and their offsets. *)
Inductive virtio_reg :=
| VIRTIO_MMIO_MAGIC_VALUE
| VIRTIO_MMIO_VERSION
| VIRTIO_MMIO_DEVICE_ID
| VIRTIO_MMIO_VENDOR_ID
| VIRTIO_MMIO_DEVICE_FEATURES
| VIRTIO_MMIO_DRIVER_FEATURES
| VIRTIO_MMIO_QUEUE_SEL
| VIRTIO_MMIO_QUEUE_NUM_MAX
| VIRTIO_MMIO_QUEUE_NUM
| VIRTIO_MMIO_QUEUE_READY
| VIRTIO_MMIO_QUEUE_NOTIFY
| VIRTIO_MMIO_INTERRUPT_STATUS
| VIRTIO_MMIO_INTERRUPT_ACK
| VIRTIO_MMIO_STATUS
| VIRTIO_MMIO_QUEUE_DESC_LOW
| VIRTIO_MMIO_QUEUE_DESC_HIGH
| VIRTIO_MMIO_DRIVER_DESC_LOW
| VIRTIO_MMIO_DRIVER_DESC_HIGH
| VIRTIO_MMIO_DEVICE_DESC_LOW
| VIRTIO_MMIO_DEVICE_DESC_HIGH.

Definition reg_off (r : virtio_reg) : Z :=
  match r with
  | VIRTIO_MMIO_MAGIC_VALUE => 0x000
  | VIRTIO_MMIO_VERSION => 0x004
  | VIRTIO_MMIO_DEVICE_ID => 0x008
  | VIRTIO_MMIO_VENDOR_ID => 0x00c
  | VIRTIO_MMIO_DEVICE_FEATURES => 0x010
  | VIRTIO_MMIO_DRIVER_FEATURES => 0x020
  | VIRTIO_MMIO_QUEUE_SEL => 0x030
  | VIRTIO_MMIO_QUEUE_NUM_MAX => 0x034
  | VIRTIO_MMIO_QUEUE_NUM => 0x038
  | VIRTIO_MMIO_QUEUE_READY => 0x044
  | VIRTIO_MMIO_QUEUE_NOTIFY => 0x050
  | VIRTIO_MMIO_INTERRUPT_STATUS => 0x060
  | VIRTIO_MMIO_INTERRUPT_ACK => 0x064
  | VIRTIO_MMIO_STATUS => 0x070
  | VIRTIO_MMIO_QUEUE_DESC_LOW => 0x080
  | VIRTIO_MMIO_QUEUE_DESC_HIGH => 0x084
  | VIRTIO_MMIO_DRIVER_DESC_LOW => 0x090
  | VIRTIO_MMIO_DRIVER_DESC_HIGH => 0x094
  | VIRTIO_MMIO_DEVICE_DESC_LOW => 0x0a0
  | VIRTIO_MMIO_DEVICE_DESC_HIGH => 0x0a4
  end.

Definition VIRTIO_CONFIG_S_ACKNOWLEDGE : Z := 1.
Definition VIRTIO_CONFIG_S_DRIVER : Z := 2.
Definition VIRTIO_CONFIG_S_DRIVER_OK : Z := 4.
Definition VIRTIO_CONFIG_S_FEATURES_OK : Z := 8.

(** The feature bits. *)
Inductive virtio_feature :=
| VIRTIO_BLK_F_RO
| VIRTIO_BLK_F_SCSI
| VIRTIO_BLK_F_CONFIG_WCE
| VIRTIO_BLK_F_MQ
| VIRTIO_F_ANY_LAYOUT
| VIRTIO_RING_F_INDIRECT_DESC
| VIRTIO_RING_F_EVENT_IDX.

Definition feature_bit (f : virtio_feature) : Z :=
  match f with
  | VIRTIO_BLK_F_RO => 5
  | VIRTIO_BLK_F_SCSI => 7
  | VIRTIO_BLK_F_CONFIG_WCE => 11
  | VIRTIO_BLK_F_MQ => 12
  | VIRTIO_F_ANY_LAYOUT => 27
  | VIRTIO_RING_F_INDIRECT_DESC => 28
  | VIRTIO_RING_F_EVENT_IDX => 29
  end.

Definition NUM : nat := 8.
Definition VRING_DESC_F_NEXT : Z := 1.
Definition VRING_DESC_F_WRITE : Z := 2.
Definition VIRTIO_BLK_T_IN : Z := 0.
Definition VIRTIO_BLK_T_OUT : Z := 1.
Definition sizeof_virtio_blk_req : Z := 16.

Section Virtio.
Context `{Machine}.

Definition rd_reg (r : virtio_reg) : K Z := v <- mmio_rd (VIRTIO0 + reg_off r) ;; ret (u32 v).
Definition wr_reg (r : virtio_reg) (v : Z) : K unit := mmio_wr (VIRTIO0 + reg_off r) (u32 v).

Definition getdisk : K vdisk := gets (fun s => disk (k_io s)).
Definition setdisk (f : vdisk -> vdisk) : K unit := modify (set k_io (set disk f)).

(** The fields of [disk.desc[i]], [disk.ops[i]] and [disk.info[i].status]. *)
Definition desc_addr (d : vdisk) (i : Z) : Z := v_desc d + 16 * i.
Definition desc_len (d : vdisk) (i : Z) : Z := v_desc d + 16 * i + 8.
Definition desc_flags (d : vdisk) (i : Z) : Z := v_desc d + 16 * i + 12.
Definition desc_next (d : vdisk) (i : Z) : Z := v_desc d + 16 * i + 14.
Definition op_at (i : Z) : Z := sym_disk + 168 + sizeof_virtio_blk_req * i.
Definition status_at (i : Z) : Z := sym_disk + 40 + 16 * i + 8.

(** ** Initialisation *)

(** [features &= ~(1 << bit)] *)
Definition clear_feature (f : virtio_feature) (features : Z) : Z :=
  Z.land features (Z.lnot (Z.shiftl 1 (feature_bit f))).

Definition virtio_disk_init : K unit :=
  initlock Lvdisk "virtio_disk" ;;;
  magic <- rd_reg VIRTIO_MMIO_MAGIC_VALUE ;;
  version <- (if negb (magic =? 0x74726976) then ret 0 else rd_reg VIRTIO_MMIO_VERSION) ;;
  device <- (if negb (version =? 2) then ret 0 else rd_reg VIRTIO_MMIO_DEVICE_ID) ;;
  vendor <- (if negb (device =? 2) then ret 0 else rd_reg VIRTIO_MMIO_VENDOR_ID) ;;
  if negb (magic =? 0x74726976) || negb (version =? 2) || negb (device =? 2) ||
     negb (vendor =? 0x554d4551)
  then panic "could not find virtio disk"
  else
    let status := 0 in
    wr_reg VIRTIO_MMIO_STATUS status ;;;
    let status := Z.lor status VIRTIO_CONFIG_S_ACKNOWLEDGE in
    wr_reg VIRTIO_MMIO_STATUS status ;;;
    let status := Z.lor status VIRTIO_CONFIG_S_DRIVER in
    wr_reg VIRTIO_MMIO_STATUS status ;;;
    features <- rd_reg VIRTIO_MMIO_DEVICE_FEATURES ;;
    let features := clear_feature VIRTIO_BLK_F_RO features in
    let features := clear_feature VIRTIO_BLK_F_SCSI features in
    let features := clear_feature VIRTIO_BLK_F_CONFIG_WCE features in
    let features := clear_feature VIRTIO_BLK_F_MQ features in
    let features := clear_feature VIRTIO_F_ANY_LAYOUT features in
    let features := clear_feature VIRTIO_RING_F_EVENT_IDX features in
    let features := clear_feature VIRTIO_RING_F_INDIRECT_DESC features in
    wr_reg VIRTIO_MMIO_DRIVER_FEATURES features ;;;
    let status := Z.lor status VIRTIO_CONFIG_S_FEATURES_OK in
    wr_reg VIRTIO_MMIO_STATUS status ;;;
    status <- rd_reg VIRTIO_MMIO_STATUS ;;
    if Z.land status VIRTIO_CONFIG_S_FEATURES_OK =? 0 then panic "virtio disk FEATURES_OK unset"
    else
      wr_reg VIRTIO_MMIO_QUEUE_SEL 0 ;;;
      ready <- rd_reg VIRTIO_MMIO_QUEUE_READY ;;
      if negb (ready =? 0) then panic "virtio disk should not be ready"
      else
        max <- rd_reg VIRTIO_MMIO_QUEUE_NUM_MAX ;;
        if max =? 0 then panic "virtio disk has no queue 0"
        else if max <? Z.of_nat NUM then panic "virtio disk max queue too short"
        else
          desc <- slab_alloc SLAB_virtq_desc ;;
          setdisk (set v_desc (fun _ => desc)) ;;;
          avail <- slab_alloc SLAB_virtq_avail ;;
          setdisk (set v_avail (fun _ => avail)) ;;;
          used <- slab_alloc SLAB_virtq_used ;;
          setdisk (set v_used (fun _ => used)) ;;;
          if (desc =? 0) || (avail =? 0) || (used =? 0) then panic "virtio disk kalloc"
          else
            wr_reg VIRTIO_MMIO_QUEUE_NUM (Z.of_nat NUM) ;;;
            wr_reg VIRTIO_MMIO_QUEUE_DESC_LOW desc ;;;
            wr_reg VIRTIO_MMIO_QUEUE_DESC_HIGH (Z.shiftr desc 32) ;;;
            wr_reg VIRTIO_MMIO_DRIVER_DESC_LOW avail ;;;
            wr_reg VIRTIO_MMIO_DRIVER_DESC_HIGH (Z.shiftr avail 32) ;;;
            wr_reg VIRTIO_MMIO_DEVICE_DESC_LOW used ;;;
            wr_reg VIRTIO_MMIO_DEVICE_DESC_HIGH (Z.shiftr used 32) ;;;
            wr_reg VIRTIO_MMIO_QUEUE_READY 1 ;;;
            for_each NUM 0 (fun i =>
              setdisk (set v_free (fun l => <[Z.to_nat i := true]> l))) ;;;
            let status := Z.lor status VIRTIO_CONFIG_S_DRIVER_OK in
            wr_reg VIRTIO_MMIO_STATUS status.

(** ** Descriptors *)

Definition alloc_desc : K Z :=
  r <- for_ NUM 0 (fun i =>
    d <- getdisk ;;
    if default false (v_free d !! Z.to_nat i) then
      setdisk (set v_free (fun l => <[Z.to_nat i := false]> l)) ;;;
      ret (Some i)
    else ret None) ;;
  ret (default (-1) r).

Definition free_desc (i : Z) : K unit :=
  if Z.of_nat NUM <=? i then panic "free_desc 1"
  else
    d <- getdisk ;;
    if default false (v_free d !! Z.to_nat i) then panic "free_desc 2"
    else
      onram (st64 (desc_addr d i) 0) ;;;
      onram (st32 (desc_len d i) 0) ;;;
      onram (st16 (desc_flags d i) 0) ;;;
      onram (st16 (desc_next d i) 0) ;;;
      setdisk (set v_free (fun l => <[Z.to_nat i := true]> l)) ;;;
      wakeup Cdiskfree.

(** [while(1)]: every iteration frees a descriptor, and [free_desc] panics on
    one that is free, so at most [NUM + 1] of them run. *)
Definition free_chain (i : Z) : K unit :=
  loop (S (S NUM)) (fun i =>
    d <- getdisk ;;
    flag <- onram (ld16 (desc_flags d i)) ;;
    nxt <- onram (ld16 (desc_next d i)) ;;
    free_desc i ;;;
    if negb (Z.land flag VRING_DESC_F_NEXT =? 0) then ret (inl nxt) else ret (inr tt)) i.

(** [None] for the result -1, the three indices otherwise. *)
Definition alloc3_desc : K (option (Z * Z * Z)) :=
  i0 <- alloc_desc ;;
  if i0 <? 0 then ret None
  else
    i1 <- alloc_desc ;;
    if i1 <? 0 then free_desc i0 ;;; ret None
    else
      i2 <- alloc_desc ;;
      if i2 <? 0 then free_desc i0 ;;; free_desc i1 ;;; ret None
      else ret (Some (i0, i1, i2)).

(** ** Requests *)

Definition virtio_disk_rw (b : nat) (write : bool) : K unit :=
  bf <- getbuf b ;;
  let sector := u32 (b_blockno bf * (BSIZE / 512)) in
  acquire Lvdisk ;;;
  let* (i0, i1, i2) := loop rounds (fun _ =>
    r <- alloc3_desc ;;
    match r with
    | Some idx => ret (inr idx)
    | None => sleep Cdiskfree Lvdisk ;;; ret (inl tt)
    end) tt in
  d <- getdisk ;;
  let buf0 := op_at i0 in
  onram (st32 buf0 (if write then VIRTIO_BLK_T_OUT else VIRTIO_BLK_T_IN)) ;;;
  onram (st32 (buf0 + 4) 0) ;;;
  onram (st64 (buf0 + 8) sector) ;;;
  onram (st64 (desc_addr d i0) buf0) ;;;
  onram (st32 (desc_len d i0) sizeof_virtio_blk_req) ;;;
  onram (st16 (desc_flags d i0) VRING_DESC_F_NEXT) ;;;
  onram (st16 (desc_next d i0) i1) ;;;
  onram (st64 (desc_addr d i1) (buf_data b)) ;;;
  onram (st32 (desc_len d i1) BSIZE) ;;;
  onram (st16 (desc_flags d i1) (if write then 0 else VRING_DESC_F_WRITE)) ;;;
  flags <- onram (ld16 (desc_flags d i1)) ;;
  onram (st16 (desc_flags d i1) (Z.lor flags VRING_DESC_F_NEXT)) ;;;
  onram (st16 (desc_next d i1) i2) ;;;
  onram (st8 (status_at i0) 0xff) ;;;
  onram (st64 (desc_addr d i2) (status_at i0)) ;;;
  onram (st32 (desc_len d i2) 1) ;;;
  onram (st16 (desc_flags d i2) VRING_DESC_F_WRITE) ;;;
  onram (st16 (desc_next d i2) 0) ;;;
  setbuf b (set b_disk (fun _ => 1)) ;;;
  setdisk (set v_info_b (fun l => <[Z.to_nat i0 := Some b]> l)) ;;;
  idx <- onram (ld16 (v_avail d + 2)) ;;
  onram (st16 (v_avail d + 4 + 2 * (idx mod Z.of_nat NUM)) i0) ;;;
  idx <- onram (ld16 (v_avail d + 2)) ;;
  onram (st16 (v_avail d + 2) (idx + 1)) ;;;
  wr_reg VIRTIO_MMIO_QUEUE_NOTIFY 0 ;;;
  loop rounds (fun _ =>
    bf <- getbuf b ;;
    if b_disk bf =? 1 then sleep (Cbuf b) Lvdisk ;;; ret (inl tt) else ret (inr tt)) tt ;;;
  setdisk (set v_info_b (fun l => <[Z.to_nat i0 := None]> l)) ;;;
  free_chain i0 ;;;
  release Lvdisk.

(** ** The interrupt *)

(** The 16-bit indices differ by less than 2^16. *)
Definition virtio_disk_intr : K unit :=
  acquire Lvdisk ;;;
  st <- rd_reg VIRTIO_MMIO_INTERRUPT_STATUS ;;
  wr_reg VIRTIO_MMIO_INTERRUPT_ACK (Z.land st 3) ;;;
  loop (Z.to_nat (2 ^ 16)) (fun _ =>
    d <- getdisk ;;
    idx <- onram (ld16 (v_used d + 2)) ;;
    if negb (v_used_idx d =? idx) then
      id <- onram (ld32 (v_used d + 4 + 8 * (v_used_idx d mod Z.of_nat NUM))) ;;
      let id := i32 id in
      status <- onram (ld8 (status_at id)) ;;
      if negb (status =? 0) then panic "virtio_disk_intr status"
      else
        b <- some_or_fault (default None (v_info_b d !! Z.to_nat id)) ;;
        setbuf b (set b_disk (fun _ => 0)) ;;;
        wakeup (Cbuf b) ;;;
        setdisk (set v_used_idx (fun i => (i + 1) mod 2 ^ 16)) ;;;
        ret (inl tt)
    else ret (inr tt)) tt ;;;
  release Lvdisk.
End Virtio.
