(* ===== verification/Bio.v ===== *)
(** * The buffer cache (kernel/bio.c)

    The cache is over a disk driver, [disk_rw]; the driver of the kernel is
    [virtio_disk_rw].  The list of buffers is doubly linked through indices,
    with [bcache.head] at index [NBUF]. *)

From S2P Require Import Prelude CInt Memory KMonad Riscv KState Spinlock Sched.
From S2P Require Import KString Vm KAlloc Console Virtio.

Class Disk `{Machine} := disk_rw : nat -> bool -> K unit.
Definition virtio_disk `{Machine} : Disk := virtio_disk_rw.

Section Bio.
Context `{Disk}.

Definition head : nat := NBUF.

Definition binit : K unit :=
  initlock Lbcache "bcache" ;;;
  setbuf head (set b_prev (fun _ => head)) ;;;
  setbuf head (set b_next (fun _ => head)) ;;;
  for_each NBUF 0 (fun i =>
    let b := Z.to_nat i in
    h <- getbuf head ;;
    setbuf b (set b_next (fun _ => b_next h)) ;;;
    setbuf b (set b_prev (fun _ => head)) ;;;
    initsleeplock (SLbuf b) "buffer" ;;;
    h <- getbuf head ;;
    setbuf (b_next h) (set b_prev (fun _ => b)) ;;;
    setbuf head (set b_next (fun _ => b))).

(** The first loop of [bget]: the buffer that caches the block. *)
Definition bget_cached (dev blockno : Z) : K (option nat) :=
  h <- getbuf head ;;
  loop (S (S NBUF)) (fun b =>
    if negb (bool_decide (b = head)) then
      bf <- getbuf b ;;
      if (b_dev bf =? dev) && (b_blockno bf =? blockno) then ret (inr (Some b))
      else ret (inl (b_next bf))
    else ret (inr None)) (b_next h).

(** The second loop: the least recently used buffer that is not in use. *)
Definition bget_lru : K (option nat) :=
  h <- getbuf head ;;
  loop (S (S NBUF)) (fun b =>
    if negb (bool_decide (b = head)) then
      bf <- getbuf b ;;
      if b_refcnt bf =? 0 then ret (inr (Some b)) else ret (inl (b_prev bf))
    else ret (inr None)) (b_prev h).

Definition bget (dev blockno : Z) : K nat :=
  acquire Lbcache ;;;
  r <- bget_cached dev blockno ;;
  match r with
  | Some b =>
      setbuf b (set b_refcnt (fun n => u32 (n + 1))) ;;;
      release Lbcache ;;;
      acquiresleep (SLbuf b) ;;;
      ret b
  | None =>
      r <- bget_lru ;;
      match r with
      | Some b =>
          setbuf b (set b_dev (fun _ => dev)) ;;;
          setbuf b (set b_blockno (fun _ => blockno)) ;;;
          setbuf b (set b_valid (fun _ => 0)) ;;;
          setbuf b (set b_refcnt (fun _ => 1)) ;;;
          release Lbcache ;;;
          acquiresleep (SLbuf b) ;;;
          ret b
      | None => panic "bget: no buffers"
      end
  end.

Definition bread (dev blockno : Z) : K nat :=
  b <- bget dev blockno ;;
  bf <- getbuf b ;;
  (if b_valid bf =? 0 then
     disk_rw b false ;;;
     setbuf b (set b_valid (fun _ => 1))
   else ret tt) ;;;
  ret b.

Definition bwrite (b : nat) : K unit :=
  h <- holdingsleep (SLbuf b) ;;
  if negb h then panic "bwrite" else disk_rw b true.

Definition brelse (b : nat) : K unit :=
  h <- holdingsleep (SLbuf b) ;;
  if negb h then panic "brelse"
  else
    releasesleep (SLbuf b) ;;;
    acquire Lbcache ;;;
    setbuf b (set b_refcnt (fun n => u32 (n - 1))) ;;;
    bf <- getbuf b ;;
    (if b_refcnt bf =? 0 then
       setbuf (b_next bf) (set b_prev (fun _ => b_prev bf)) ;;;
       bf <- getbuf b ;;
       setbuf (b_prev bf) (set b_next (fun _ => b_next bf)) ;;;
       h <- getbuf head ;;
       setbuf b (set b_next (fun _ => b_next h)) ;;;
       setbuf b (set b_prev (fun _ => head)) ;;;
       h <- getbuf head ;;
       setbuf (b_next h) (set b_prev (fun _ => b)) ;;;
       setbuf head (set b_next (fun _ => b))
     else ret tt) ;;;
    release Lbcache.

Definition bpin (b : nat) : K unit :=
  acquire Lbcache ;;;
  setbuf b (set b_refcnt (fun n => u32 (n + 1))) ;;;
  release Lbcache.

Definition bunpin (b : nat) : K unit :=
  acquire Lbcache ;;;
  setbuf b (set b_refcnt (fun n => u32 (n - 1))) ;;;
  release Lbcache.
End Bio.
