(* ===== verification/Log.v ===== *)
(** * The log (kernel/log.c) *)

From S2P Require Import Prelude CInt Memory KMonad Riscv KState Spinlock Sched.
From S2P Require Import KString Vm KAlloc Console Virtio Bio.

Section Log.
Context `{Disk}.

(** [lh->n] and [lh->block[i]] of a header block at [a]. *)
Definition hdr_n (a : Z) : Z := a.
Definition hdr_block (a i : Z) : Z := a + 4 + 4 * i.
Definition lhblock (l : log) (i : Z) : Z := default 0 (lh_block l !! Z.to_nat i).

(** The loops up to [log.lh.n] have one iteration per block. *)
Definition install_trans (recovering : bool) : K unit :=
  l <- getlog ;;
  for_each (Z.to_nat (lh_n l)) 0 (fun tail =>
    l <- getlog ;;
    lbuf <- bread (l_dev l) (u32 (l_start l + tail + 1)) ;;
    l <- getlog ;;
    dbuf <- bread (l_dev l) (u32 (lhblock l tail)) ;;
    onram (memmove (buf_data dbuf) (buf_data lbuf) BSIZE) ;;;
    bwrite dbuf ;;;
    (if negb recovering then bunpin dbuf else ret tt) ;;;
    brelse lbuf ;;;
    brelse dbuf).

(** A header with more than [LOGSIZE] blocks makes the copy run past the end of
    [log.lh.block]. *)
Definition read_head : K unit :=
  l <- getlog ;;
  buf <- bread (l_dev l) (u32 (l_start l)) ;;
  let lh := buf_data buf in
  n <- onram (ldint (hdr_n lh)) ;;
  setlog (set lh_n (fun _ => n)) ;;;
  for_each (Z.to_nat n) 0 (fun i =>
    v <- onram (ldint (hdr_block lh i)) ;;
    l <- getlog ;;
    some_or_fault (lh_block l !! Z.to_nat i) ;;;
    setlog (set lh_block (fun bs => <[Z.to_nat i := v]> bs))) ;;;
  brelse buf.

Definition write_head : K unit :=
  l <- getlog ;;
  buf <- bread (l_dev l) (u32 (l_start l)) ;;
  let hb := buf_data buf in
  l <- getlog ;;
  onram (st32 (hdr_n hb) (lh_n l)) ;;;
  for_each (Z.to_nat (lh_n l)) 0 (fun i =>
    l <- getlog ;;
    onram (st32 (hdr_block hb i) (lhblock l i))) ;;;
  bwrite buf ;;;
  brelse buf.

Definition recover_from_log : K unit :=
  read_head ;;;
  install_trans true ;;;
  setlog (set lh_n (fun _ => 0)) ;;;
  write_head.

(** [sizeof(struct logheader)] *)
Definition sizeof_logheader : Z := 4 + 4 * LOGSIZE.

Definition initlog (dev : Z) (sb : superblock) : K unit :=
  if BSIZE <=? sizeof_logheader then panic "initlog: too big logheader"
  else
    initlock Llog "log" ;;;
    setlog (set l_start (fun _ => i32 (s_logstart sb))) ;;;
    setlog (set l_size (fun _ => i32 (s_nlog sb))) ;;;
    setlog (set l_dev (fun _ => dev)) ;;;
    recover_from_log.

(** ** Operations *)

Definition begin_op : K unit :=
  acquire Llog ;;;
  loop rounds (fun _ =>
    l <- getlog ;;
    if negb (l_committing l =? 0) then sleep Clog Llog ;;; ret (inl tt)
    else if LOGSIZE <? lh_n l + (l_outstanding l + 1) * MAXOPBLOCKS then
      sleep Clog Llog ;;; ret (inl tt)
    else
      setlog (set l_outstanding (fun n => i32 (n + 1))) ;;;
      release Llog ;;;
      ret (inr tt)) tt.

Definition write_log : K unit :=
  l <- getlog ;;
  for_each (Z.to_nat (lh_n l)) 0 (fun tail =>
    l <- getlog ;;
    to <- bread (l_dev l) (u32 (l_start l + tail + 1)) ;;
    l <- getlog ;;
    from <- bread (l_dev l) (u32 (lhblock l tail)) ;;
    onram (memmove (buf_data to) (buf_data from) BSIZE) ;;;
    bwrite to ;;;
    brelse from ;;;
    brelse to).

Definition commit : K unit :=
  l <- getlog ;;
  if 0 <? lh_n l then
    write_log ;;;
    write_head ;;;
    install_trans false ;;;
    setlog (set lh_n (fun _ => 0)) ;;;
    write_head
  else ret tt.

Definition end_op : K unit :=
  acquire Llog ;;;
  setlog (set l_outstanding (fun n => i32 (n - 1))) ;;;
  l <- getlog ;;
  if negb (l_committing l =? 0) then panic "log.committing"
  else
    do_commit <- (if l_outstanding l =? 0 then
                    setlog (set l_committing (fun _ => 1)) ;;; ret true
                  else wakeup Clog ;;; ret false) ;;
    release Llog ;;;
    if (do_commit : bool) then
      commit ;;;
      acquire Llog ;;;
      setlog (set l_committing (fun _ => 0)) ;;;
      wakeup Clog ;;;
      release Llog
    else ret tt.

Definition log_write (b : nat) : K unit :=
  acquire Llog ;;;
  l <- getlog ;;
  if (LOGSIZE <=? lh_n l) || (l_size l - 1 <=? lh_n l) then panic "too big a transaction"
  else if l_outstanding l <? 1 then panic "log_write outside of trans"
  else
    bf <- getbuf b ;;
    i <- for_ (Z.to_nat (lh_n l)) 0 (fun i =>
      ret (if u32 (lhblock l i) =? b_blockno bf then Some i else None)) ;;
    let i := default (lh_n l) i in
    setlog (set lh_block (fun bs => <[Z.to_nat i := i32 (b_blockno bf)]> bs)) ;;;
    (if i =? lh_n l then
       bpin b ;;;
       setlog (set lh_n (fun n => i32 (n + 1)))
     else ret tt) ;;;
    release Llog.
End Log.
