(* ===== verification/Fs.v ===== *)
(** * The file system (kernel/fs.c)

    Block allocation, inodes, file contents, directories and paths, over the
    buffer cache and the log.  An inode pointer is an index of [itable], the
    null pointer is [None]. *)

From S2P Require Import Prelude CInt Memory KMonad Riscv KState Spinlock Sched.
From S2P Require Import KString Vm KAlloc Console Virtio Bio Log.

(** ** On-disk structures (fs.h) *)

Definition sizeof_dinode : Z := 64.
Definition IPB : Z := BSIZE / sizeof_dinode.
Definition IBLOCK (i : Z) (sb : superblock) : Z := u32 (i / IPB + s_inodestart sb).
Definition BPB : Z := BSIZE * 8.
Definition BBLOCK (b : Z) (sb : superblock) : Z := u32 (b / BPB + s_bmapstart sb).
Definition sizeof_dirent : Z := 16.

(** The fields of [struct dinode] and [struct dirent] at an address. *)
Definition di_type (a : Z) : Z := a.
Definition di_major (a : Z) : Z := a + 2.
Definition di_minor (a : Z) : Z := a + 4.
Definition di_nlink (a : Z) : Z := a + 6.
Definition di_size (a : Z) : Z := a + 8.
Definition di_addrs (a i : Z) : Z := a + 12 + 4 * i.
Definition de_inum (a : Z) : Z := a.
Definition de_name (a : Z) : Z := a + 2.

Definition ldshort (a : Z) : M ram Z := v <- ld16 a ;; ret (i16 v).

(** [n] consecutive words. *)
Fixpoint ld_words (n : nat) (a : Z) : M ram (list Z) :=
  match n with
  | O => ret []
  | S n => w <- ld32 a ;; l <- ld_words n (a + 4) ;; ret (w :: l)
  end.
Fixpoint st_words (a : Z) (l : list Z) : M ram unit :=
  match l with
  | [] => ret tt
  | w :: l => st32 a w ;;; st_words (a + 4) l
  end.

Section Fs.
Context `{Disk}.

Definition getsb : K superblock := gets (fun s => sb (k_fs s)).

(** The superblock is eight words. *)
Definition readsb (dev : Z) : K unit :=
  bp <- bread dev 1 ;;
  w <- onram (ld_words 8 (buf_data bp)) ;;
  modify (set k_fs (set sb (fun _ =>
    let f := fun i => default 0 (w !! i) in
    Superblock (f 0%nat) (f 1%nat) (f 2%nat) (f 3%nat) (f 4%nat) (f 5%nat) (f 6%nat) (f 7%nat)))) ;;;
  brelse bp.

Definition fsinit (dev : Z) : K unit :=
  readsb dev ;;;
  sb <- getsb ;;
  if negb (s_magic sb =? FSMAGIC) then panic "invalid file system"
  else initlog dev sb.

(** ** Blocks *)

Definition bzero (dev bno : Z) : K unit :=
  bp <- bread dev (u32 bno) ;;
  onram (memset (buf_data bp) 0 BSIZE) ;;;
  log_write bp ;;;
  brelse bp.

Definition balloc (dev : Z) : K Z :=
  sb <- getsb ;;
  r <- for_ (Z.to_nat ((s_size sb + BPB - 1) / BPB)) 0 (fun k =>
    let b := k * BPB in
    bp <- bread dev (BBLOCK b sb) ;;
    r <- for_ (Z.to_nat (Z.min BPB (s_size sb - b))) 0 (fun bi =>
      let m := Z.shiftl 1 (bi mod 8) in
      v <- onram (ld8 (buf_data bp + bi / 8)) ;;
      if Z.land v m =? 0 then
        onram (st8 (buf_data bp + bi / 8) (Z.lor v m)) ;;;
        log_write bp ;;;
        brelse bp ;;;
        bzero dev (b + bi) ;;;
        ret (Some (b + bi))
      else ret None) ;;
    match r with
    | Some x => ret (Some x)
    | None => brelse bp ;;; ret None
    end) ;;
  match r with
  | Some x => ret (u32 x)
  | None => printf ("balloc: out of blocks" ++ newline) [] ;;; ret 0
  end.

Definition bfree (dev b : Z) : K unit :=
  sb <- getsb ;;
  bp <- bread dev (BBLOCK b sb) ;;
  let bi := b mod BPB in
  let m := Z.shiftl 1 (bi mod 8) in
  v <- onram (ld8 (buf_data bp + bi / 8)) ;;
  if Z.land v m =? 0 then panic "freeing free block"
  else
    onram (st8 (buf_data bp + bi / 8) (Z.land v (Z.lnot m))) ;;;
    log_write bp ;;;
    brelse bp.

(** ** Inodes *)

Definition iinit : K unit :=
  initlock Litable "itable" ;;;
  for_each NINODE 0 (fun i => initsleeplock (SLinode (Z.to_nat i)) "inode").

(** The scan of [iget]: the entry found, or the first empty one. *)
Definition iget_scan (dev inum : Z) : K (nat + option nat) :=
  loop (S NINODE) (fun '(i, empty) =>
    if Nat.ltb i NINODE then
      ip <- getinode i ;;
      if (0 <? i_ref ip) && (i_dev ip =? dev) && (i_inum ip =? inum) then ret (inr (inl i))
      else
        ret (inl (S i, match empty with
                       | None => if i_ref ip =? 0 then Some i else None
                       | Some _ => empty
                       end))
    else ret (inr (inr empty))) (O, None).

Definition iget (dev inum : Z) : K nat :=
  acquire Litable ;;;
  r <- iget_scan dev inum ;;
  match r with
  | inl ip =>
      setinode ip (set i_ref (fun r => i32 (r + 1))) ;;;
      release Litable ;;;
      ret ip
  | inr None => panic "iget: no inodes"
  | inr (Some ip) =>
      setinode ip (set i_dev (fun _ => dev)) ;;;
      setinode ip (set i_inum (fun _ => inum)) ;;;
      setinode ip (set i_ref (fun _ => 1)) ;;;
      setinode ip (set i_valid (fun _ => 0)) ;;;
      release Litable ;;;
      ret ip
  end.

(** [(struct dinode* )bp->data + inum%IPB] *)
Definition dinode_at (bp : nat) (inum : Z) : Z := buf_data bp + sizeof_dinode * (inum mod IPB).

Definition ialloc (dev type : Z) : K (option nat) :=
  sb <- getsb ;;
  r <- for_ (Z.to_nat (s_ninodes sb - 1)) 1 (fun inum =>
    bp <- bread dev (IBLOCK inum sb) ;;
    let dip := dinode_at bp inum in
    t <- onram (ldshort (di_type dip)) ;;
    if t =? 0 then
      onram (memset dip 0 sizeof_dinode) ;;;
      onram (st16 (di_type dip) type) ;;;
      log_write bp ;;;
      brelse bp ;;;
      ip <- iget dev inum ;;
      ret (Some ip)
    else
      brelse bp ;;;
      ret None) ;;
  match r with
  | Some ip => ret (Some ip)
  | None => printf ("ialloc: no inodes" ++ newline) [] ;;; ret None
  end.

Definition iupdate (ip : nat) : K unit :=
  sb <- getsb ;;
  i <- getinode ip ;;
  bp <- bread (i_dev i) (IBLOCK (i_inum i) sb) ;;
  let dip := dinode_at bp (i_inum i) in
  i <- getinode ip ;;
  onram (st16 (di_type dip) (i_type i)) ;;;
  onram (st16 (di_major dip) (i_major i)) ;;;
  onram (st16 (di_minor dip) (i_minor i)) ;;;
  onram (st16 (di_nlink dip) (i_nlink i)) ;;;
  onram (st32 (di_size dip) (i_size i)) ;;;
  onram (st_words (di_addrs dip 0) (i_addrs i)) ;;;
  log_write bp ;;;
  brelse bp.

Definition idup (ip : nat) : K nat :=
  acquire Litable ;;;
  setinode ip (set i_ref (fun r => i32 (r + 1))) ;;;
  release Litable ;;;
  ret ip.

Definition ilock (ip : option nat) : K unit :=
  match ip with
  | None => panic "ilock"
  | Some ip =>
      i <- getinode ip ;;
      if i_ref i <? 1 then panic "ilock"
      else
        acquiresleep (SLinode ip) ;;;
        i <- getinode ip ;;
        if i_valid i =? 0 then
          sb <- getsb ;;
          bp <- bread (i_dev i) (IBLOCK (i_inum i) sb) ;;
          let dip := dinode_at bp (i_inum i) in
          t <- onram (ldshort (di_type dip)) ;;
          setinode ip (set i_type (fun _ => t)) ;;;
          mj <- onram (ldshort (di_major dip)) ;;
          setinode ip (set i_major (fun _ => mj)) ;;;
          mi <- onram (ldshort (di_minor dip)) ;;
          setinode ip (set i_minor (fun _ => mi)) ;;;
          nl <- onram (ldshort (di_nlink dip)) ;;
          setinode ip (set i_nlink (fun _ => nl)) ;;;
          sz <- onram (ld32 (di_size dip)) ;;
          setinode ip (set i_size (fun _ => sz)) ;;;
          addrs <- onram (ld_words (Z.to_nat (NDIRECT + 1)) (di_addrs dip 0)) ;;
          setinode ip (set i_addrs (fun _ => addrs)) ;;;
          brelse bp ;;;
          setinode ip (set i_valid (fun _ => 1)) ;;;
          if t =? 0 then panic "ilock: no type" else ret tt
        else ret tt
  end.

Definition iunlock (ip : option nat) : K unit :=
  match ip with
  | None => panic "iunlock"
  | Some ip =>
      h <- holdingsleep (SLinode ip) ;;
      i <- getinode ip ;;
      if negb h || (i_ref i <? 1) then panic "iunlock"
      else releasesleep (SLinode ip)
  end.

(** [ip->addrs[i]] *)
Definition iaddr (ip : nat) (i : Z) : K Z :=
  x <- getinode ip ;; ret (default 0 (i_addrs x !! Z.to_nat i)).
Definition set_iaddr (ip : nat) (i v : Z) : K unit :=
  setinode ip (set i_addrs (fun l => <[Z.to_nat i := v]> l)).

Definition itrunc (ip : nat) : K unit :=
  x <- getinode ip ;;
  let dev := i_dev x in
  for_each (Z.to_nat NDIRECT) 0 (fun i =>
    a <- iaddr ip i ;;
    if negb (a =? 0) then
      bfree dev a ;;;
      set_iaddr ip i 0
    else ret tt) ;;;
  ind <- iaddr ip NDIRECT ;;
  (if negb (ind =? 0) then
     bp <- bread dev ind ;;
     for_each (Z.to_nat NINDIRECT) 0 (fun j =>
       a <- onram (ld32 (buf_data bp + 4 * j)) ;;
       if negb (a =? 0) then bfree dev a else ret tt) ;;;
     brelse bp ;;;
     bfree dev ind ;;;
     set_iaddr ip NDIRECT 0
   else ret tt) ;;;
  setinode ip (set i_size (fun _ => 0)) ;;;
  iupdate ip.

Definition iput (ip : nat) : K unit :=
  acquire Litable ;;;
  i <- getinode ip ;;
  (if (i_ref i =? 1) && negb (i_valid i =? 0) && (i_nlink i =? 0) then
     acquiresleep (SLinode ip) ;;;
     release Litable ;;;
     itrunc ip ;;;
     setinode ip (set i_type (fun _ => 0)) ;;;
     iupdate ip ;;;
     setinode ip (set i_valid (fun _ => 0)) ;;;
     releasesleep (SLinode ip) ;;;
     acquire Litable
   else ret tt) ;;;
  setinode ip (set i_ref (fun r => i32 (r - 1))) ;;;
  release Litable.

Definition iunlockput (ip : nat) : K unit :=
  iunlock (Some ip) ;;;
  iput ip.

(** ** File contents *)

Definition bmap (ip : nat) (bn : Z) : K Z :=
  x <- getinode ip ;;
  let dev := i_dev x in
  if bn <? NDIRECT then
    addr <- iaddr ip bn ;;
    if addr =? 0 then
      addr <- balloc dev ;;
      if addr =? 0 then ret 0
      else set_iaddr ip bn addr ;;; ret addr
    else ret addr
  else
    let bn := bn - NDIRECT in
    if bn <? NINDIRECT then
      addr <- iaddr ip NDIRECT ;;
      addr <- (if addr =? 0 then
                 addr <- balloc dev ;;
                 if addr =? 0 then ret 0
                 else set_iaddr ip NDIRECT addr ;;; ret addr
               else ret addr) ;;
      if addr =? 0 then ret 0
      else
        bp <- bread dev addr ;;
        addr <- onram (ld32 (buf_data bp + 4 * bn)) ;;
        addr <- (if addr =? 0 then
                   addr <- balloc dev ;;
                   (if negb (addr =? 0) then
                      onram (st32 (buf_data bp + 4 * bn) addr) ;;;
                      log_write bp
                    else ret tt) ;;;
                   ret addr
                 else ret addr) ;;
        brelse bp ;;;
        ret addr
    else panic "bmap: out of range".

(** [struct stat] at [st]. *)
Definition stati (ip : nat) (st : Z) : K unit :=
  i <- getinode ip ;;
  onram (st32 st (i_dev i)) ;;;
  onram (st32 (st + 4) (i_inum i)) ;;;
  onram (st16 (st + 8) (i_type i)) ;;;
  onram (st16 (st + 10) (i_nlink i)) ;;;
  onram (st64 (st + 16) (i_size i)).

(** Iterations of the copy loops for [n] bytes: at most one per block touched. *)
Definition blocks_fuel (n : Z) : nat := Z.to_nat (n / BSIZE + 3).

Definition readi (ip : nat) (user_dst : bool) (dst off n : Z) : K Z :=
  i <- getinode ip ;;
  if (i_size i <? off) || (u32 (off + n) <? off) then ret 0
  else
    let n := if i_size i <? u32 (off + n) then u32 (i_size i - off) else n in
    tot <- loop (blocks_fuel n) (fun '(tot, off, dst) =>
      if tot <? n then
        addr <- bmap ip (off / BSIZE) ;;
        if addr =? 0 then ret (inr tot)
        else
          i <- getinode ip ;;
          bp <- bread (i_dev i) addr ;;
          let m := Z.min (u32 (n - tot)) (BSIZE - off mod BSIZE) in
          r <- either_copyout user_dst dst (buf_data bp + off mod BSIZE) m ;;
          if r =? -1 then
            brelse bp ;;;
            ret (inr (u32 (-1)))
          else
            brelse bp ;;;
            ret (inl (u32 (tot + m), u32 (off + m), u64 (dst + m)))
      else ret (inr tot)) (0, off, dst) ;;
    ret (i32 tot).

Definition writei (ip : nat) (user_src : bool) (src off n : Z) : K Z :=
  i <- getinode ip ;;
  if (i_size i <? off) || (u32 (off + n) <? off) then ret (-1)
  else if MAXFILE * BSIZE <? u32 (off + n) then ret (-1)
  else
    let* (tot, off) := loop (blocks_fuel n) (fun '(tot, off, src) =>
      if tot <? n then
        addr <- bmap ip (off / BSIZE) ;;
        if addr =? 0 then ret (inr (tot, off))
        else
          i <- getinode ip ;;
          bp <- bread (i_dev i) addr ;;
          let m := Z.min (u32 (n - tot)) (BSIZE - off mod BSIZE) in
          r <- either_copyin (buf_data bp + off mod BSIZE) user_src src m ;;
          if r =? -1 then
            brelse bp ;;;
            ret (inr (tot, off))
          else
            log_write bp ;;;
            brelse bp ;;;
            ret (inl (u32 (tot + m), u32 (off + m), u64 (src + m)))
      else ret (inr (tot, off))) (0, off, src) in
    i <- getinode ip ;;
    (if i_size i <? off then setinode ip (set i_size (fun _ => off)) else ret tt) ;;;
    iupdate ip ;;;
    ret (i32 tot).

(** ** Directories *)

Definition namecmp (s t : Z) : M ram Z := strncmp s t DIRSIZ.

(** The inode and the offset of its entry, which the code stores through
    [poff]. *)
Definition dirlookup (dp : nat) (name : Z) : K (option (nat * Z)) :=
  d <- getinode dp ;;
  if negb (i_type d =? T_DIR) then panic "dirlookup not DIR"
  else frame sizeof_dirent (fun de =>
    loop (Z.to_nat (i_size d / sizeof_dirent + 2)) (fun off =>
      d <- getinode dp ;;
      if off <? i_size d then
        r <- readi dp false de off sizeof_dirent ;;
        if negb (r =? sizeof_dirent) then panic "dirlookup read"
        else
          inum <- onram (ld16 (de_inum de)) ;;
          if inum =? 0 then ret (inl (u32 (off + sizeof_dirent)))
          else
            c <- onram (namecmp name (de_name de)) ;;
            if c =? 0 then
              ip <- iget (i_dev d) inum ;;
              ret (inr (Some (ip, off)))
            else ret (inl (u32 (off + sizeof_dirent)))
      else ret (inr None)) 0).

Definition dirlink (dp : nat) (name inum : Z) : K Z :=
  frame sizeof_dirent (fun de =>
    r <- dirlookup dp name ;;
    match r with
    | Some (ip, _) => iput ip ;;; ret (-1)
    | None =>
        d <- getinode dp ;;
        off <- loop (Z.to_nat (i_size d / sizeof_dirent + 2)) (fun off =>
          d <- getinode dp ;;
          if u32 off <? i_size d then
            r <- readi dp false de (u32 off) sizeof_dirent ;;
            if negb (r =? sizeof_dirent) then panic "dirlink read"
            else
              i <- onram (ld16 (de_inum de)) ;;
              if i =? 0 then ret (inr off) else ret (inl (i32 (off + sizeof_dirent)))
          else ret (inr off)) 0 ;;
        onram (strncpy (de_name de) name DIRSIZ) ;;;
        onram (st16 (de_inum de) inum) ;;;
        r <- writei dp false de (u32 off) sizeof_dirent ;;
        if negb (r =? sizeof_dirent) then ret (-1) else ret 0
    end).

(** ** Paths *)

Definition slash : Z := 47.

(** [while( *path == '/' ) path++;] and [while( *path != '/' && *path != 0 ) path++;] *)
Definition skip_slashes (path : Z) : M ram Z := fun m =>
  loop (S (Z.to_nat (ram_hi m - path))) (fun path =>
    c <- ld8 path ;; if c =? slash then ret (inl (path + 1)) else ret (inr path)) path m.
Definition skip_name (path : Z) : M ram Z := fun m =>
  loop (S (Z.to_nat (ram_hi m - path))) (fun path =>
    c <- ld8 path ;;
    if negb (c =? slash) && negb (c =? 0) then ret (inl (path + 1)) else ret (inr path)) path m.

Definition skipelem (path name : Z) : M ram (option Z) :=
  path <- skip_slashes path ;;
  c <- ld8 path ;;
  if c =? 0 then ret None
  else
    let s := path in
    path <- skip_name path ;;
    let len := i32 (path - s) in
    (if DIRSIZ <=? len then memmove name s DIRSIZ ;;; ret tt
     else memmove name s len ;;; st8 (name + len) 0) ;;;
    path <- skip_slashes path ;;
    ret (Some path).

Definition namex (path : Z) (nameiparent : bool) (name : Z) : K (option nat) :=
  c <- onram (ld8 path) ;;
  ip <- (if c =? slash then iget ROOTDEV ROOTINO
         else
           p <- curproc ;;
           pr <- getproc p ;;
           cwd <- some_or_fault (p_cwd pr) ;;
           idup cwd) ;;
  fuel <- ram_fuel path ;;
  r <- loop fuel (fun '(path, ip) =>
    e <- onram (skipelem path name) ;;
    match e with
    | None => ret (inr (Some ip, true))
    | Some path =>
        ilock (Some ip) ;;;
        i <- getinode ip ;;
        if negb (i_type i =? T_DIR) then
          iunlockput ip ;;; ret (inr (None, false))
        else
          c <- onram (ld8 path) ;;
          if nameiparent && (c =? 0) then
            iunlock (Some ip) ;;; ret (inr (Some ip, false))
          else
            next <- dirlookup ip name ;;
            match next with
            | None => iunlockput ip ;;; ret (inr (None, false))
            | Some (next, _) => iunlockput ip ;;; ret (inl (path, next))
            end
    end) (path, ip) ;;
  match r with
  | (Some ip, true) => if nameiparent then iput ip ;;; ret None else ret (Some ip)
  | (ip, _) => ret ip
  end.

Definition namei (path : Z) : K (option nat) :=
  frame 16 (fun name => namex path false name).

Definition nameiparent (path name : Z) : K (option nat) := namex path true name.
End Fs.
