(* ===== verification/Files.v ===== *)
(** * Pipes (kernel/pipe.c) and open files (kernel/file.c)

    A pipe is a struct in a slab cell of RAM; its address is the pointer. *)

From S2P Require Import Prelude CInt Memory KMonad Riscv KState Spinlock Sched.
From S2P Require Import KString Vm KAlloc Console Virtio Bio Log Fs.

Definition PIPESIZE : Z := 512.
(** The fields of [struct pipe]. *)
Definition pi_data (pi i : Z) : Z := pi + 24 + i.
Definition pi_nread (pi : Z) : Z := pi + 536.
Definition pi_nwrite (pi : Z) : Z := pi + 540.
Definition pi_readopen (pi : Z) : Z := pi + 544.
Definition pi_writeopen (pi : Z) : Z := pi + 548.

Section Files.
Context `{Disk}.

(** ** The file table *)

Definition fileinit : K unit := initlock Lftable "ftable".

Definition filealloc : K (option nat) :=
  acquire Lftable ;;;
  r <- for_ NFILE 0 (fun i =>
    let f := Z.to_nat i in
    fl <- getfile f ;;
    if f_ref fl =? 0 then
      setfile f (set f_ref (fun _ => 1)) ;;;
      ret (Some f)
    else ret None) ;;
  release Lftable ;;;
  ret r.

Definition filedup (f : nat) : K nat :=
  acquire Lftable ;;;
  fl <- getfile f ;;
  if f_ref fl <? 1 then panic "filedup"
  else
    setfile f (set f_ref (fun r => i32 (r + 1))) ;;;
    release Lftable ;;;
    ret f.

(** ** Pipes *)

Definition pipeclose (pi : Z) (writable : bool) : K unit :=
  acquire (Lpipe pi) ;;;
  (if writable then
     onram (st32 (pi_writeopen pi) 0) ;;;
     wakeup (Cnread pi)
   else
     onram (st32 (pi_readopen pi) 0) ;;;
     wakeup (Cnwrite pi)) ;;;
  r <- onram (ldint (pi_readopen pi)) ;;
  w <- onram (ldint (pi_writeopen pi)) ;;
  if (r =? 0) && (w =? 0) then
    release (Lpipe pi) ;;;
    slab_free SLAB_pipe pi
  else release (Lpipe pi).

(** One iteration of [pipewrite]'s loop at index [i]: the next index, or the
    result and whether the lock has been released. *)
Definition pipewrite_step (pi addr n : Z) (pr : nat) (i : Z) : K (Z + (Z * bool)) :=
  if i <? n then
    r <- onram (ldint (pi_readopen pi)) ;;
    k <- (if r =? 0 then ret 1 else killed pr) ;;
    if (r =? 0) || negb (k =? 0) then
      release (Lpipe pi) ;;;
      ret (inr (-1, true))
    else
      nw <- onram (ld32 (pi_nwrite pi)) ;;
      nr <- onram (ld32 (pi_nread pi)) ;;
      if nw =? u32 (nr + PIPESIZE) then
        wakeup (Cnread pi) ;;;
        sleep (Cnwrite pi) (Lpipe pi) ;;;
        ret (inl i)
      else
        frame 16 (fun ch =>
          p <- getproc pr ;;
          e <- onvm (fun pg_alloc _ => copyin pg_alloc (p_pagetable p) ch (u64 (addr + i)) 1) ;;
          if e =? -1 then ret (inr (i, false))
          else
            c <- onram (ld8 ch) ;;
            nw <- onram (ld32 (pi_nwrite pi)) ;;
            onram (st32 (pi_nwrite pi) (u32 (nw + 1))) ;;;
            onram (st8 (pi_data pi (nw mod PIPESIZE)) c) ;;;
            ret (inl (i + 1)))
  else ret (inr (i, false)).

Definition pipewrite (pi addr n : Z) : K Z :=
  pr <- curproc ;;
  acquire (Lpipe pi) ;;;
  let* (i, released) := loop (S (Z.to_nat n) + rounds) (pipewrite_step pi addr n pr) 0 in
  if (released : bool) then ret i
  else
    wakeup (Cnread pi) ;;;
    release (Lpipe pi) ;;;
    ret i.

(** The wait of [piperead] for data or for the end of writing: [false] when
    killed. *)
Definition piperead_wait (pi : Z) (pr : nat) : K bool :=
  loop rounds (fun _ =>
    nr <- onram (ld32 (pi_nread pi)) ;;
    nw <- onram (ld32 (pi_nwrite pi)) ;;
    w <- onram (ldint (pi_writeopen pi)) ;;
    if (nr =? nw) && negb (w =? 0) then
      k <- killed pr ;;
      if negb (k =? 0) then ret (inr false)
      else sleep (Cnread pi) (Lpipe pi) ;;; ret (inl tt)
    else ret (inr true)) tt.

Definition piperead_step (pi addr n : Z) (pr : nat) (i : Z) : K (Z + Z) :=
  if i <? n then
    nr <- onram (ld32 (pi_nread pi)) ;;
    nw <- onram (ld32 (pi_nwrite pi)) ;;
    if nr =? nw then ret (inr i)
    else
      frame 16 (fun ch =>
        onram (st32 (pi_nread pi) (u32 (nr + 1))) ;;;
        c <- onram (ld8 (pi_data pi (nr mod PIPESIZE))) ;;
        onram (st8 ch c) ;;;
        p <- getproc pr ;;
        e <- onvm (fun pg_alloc _ => copyout pg_alloc (p_pagetable p) (u64 (addr + i)) ch 1) ;;
        if e =? -1 then ret (inr i) else ret (inl (i + 1)))
  else ret (inr i).

Definition piperead (pi addr n : Z) : K Z :=
  pr <- curproc ;;
  acquire (Lpipe pi) ;;;
  ok <- piperead_wait pi pr ;;
  if negb ok then release (Lpipe pi) ;;; ret (-1)
  else
    i <- loop (S (Z.to_nat n)) (piperead_step pi addr n pr) 0 ;;
    wakeup (Cnwrite pi) ;;;
    release (Lpipe pi) ;;;
    ret i.

(** ** Closing and copying files *)

Definition fileclose (f : nat) : K unit :=
  acquire Lftable ;;;
  fl <- getfile f ;;
  if f_ref fl <? 1 then panic "fileclose"
  else
    setfile f (set f_ref (fun r => i32 (r - 1))) ;;;
    fl <- getfile f ;;
    if 0 <? f_ref fl then release Lftable
    else
      let ff := fl in
      setfile f (set f_ref (fun _ => 0)) ;;;
      setfile f (set f_type (fun _ => FD_NONE)) ;;;
      release Lftable ;;;
      match f_type ff with
      | FD_PIPE => pipeclose (f_pipe ff) (f_writable ff)
      | FD_INODE | FD_DEVICE =>
          begin_op ;;;
          ip <- some_or_fault (f_ip ff) ;;
          iput ip ;;;
          end_op
      | FD_NONE => ret tt
      end.

(** [*f0] and [*f1] on success, [None] for -1.  The [bad] branch frees [pi]
    only when it is set, which it never is. *)
Definition pipealloc : K (option (nat * nat)) :=
  f0 <- filealloc ;;
  match f0 with
  | None => ret None
  | Some f0 =>
      f1 <- filealloc ;;
      match f1 with
      | None => fileclose f0 ;;; ret None
      | Some f1 =>
          pi <- slab_alloc SLAB_pipe ;;
          if pi =? 0 then fileclose f0 ;;; fileclose f1 ;;; ret None
          else
            onram (st32 (pi_readopen pi) 1) ;;;
            onram (st32 (pi_writeopen pi) 1) ;;;
            onram (st32 (pi_nwrite pi) 0) ;;;
            onram (st32 (pi_nread pi) 0) ;;;
            initlock (Lpipe pi) "pipe" ;;;
            setfile f0 (set f_type (fun _ => FD_PIPE)) ;;;
            setfile f0 (set f_readable (fun _ => true)) ;;;
            setfile f0 (set f_writable (fun _ => false)) ;;;
            setfile f0 (set f_pipe (fun _ => pi)) ;;;
            setfile f1 (set f_type (fun _ => FD_PIPE)) ;;;
            setfile f1 (set f_readable (fun _ => false)) ;;;
            setfile f1 (set f_writable (fun _ => true)) ;;;
            setfile f1 (set f_pipe (fun _ => pi)) ;;;
            ret (Some (f0, f1))
      end
  end.

Definition sizeof_stat : Z := 24.

Definition filestat (f : nat) (addr : Z) : K Z :=
  p <- curproc ;;
  frame 32 (fun st =>
    fl <- getfile f ;;
    match f_type fl with
    | FD_INODE | FD_DEVICE =>
        ilock (f_ip fl) ;;;
        ip <- some_or_fault (f_ip fl) ;;
        stati ip st ;;;
        iunlock (f_ip fl) ;;;
        pr <- getproc p ;;
        r <- onvm (fun pg_alloc _ => copyout pg_alloc (p_pagetable pr) addr st sizeof_stat) ;;
        if r <? 0 then ret (-1) else ret 0
    | _ => ret (-1)
    end).

(** [devsw[major].read], where it is set. *)
Definition devsw_read (major : Z) : K (option devfun) :=
  d <- gets (fun s => devsw (k_io s)) ;;
  ret (if (major <? 0) || (NDEV <=? major) then None else default None (fst <$> d !! Z.to_nat major)).
Definition devsw_write (major : Z) : K (option devfun) :=
  d <- gets (fun s => devsw (k_io s)) ;;
  ret (if (major <? 0) || (NDEV <=? major) then None else default None (snd <$> d !! Z.to_nat major)).
Definition call_dev (d : devfun) (user : bool) (addr n : Z) : K Z :=
  match d with
  | Consoleread => consoleread user addr n
  | Consolewrite => consolewrite user addr n
  end.

Definition fileread (f : nat) (addr n : Z) : K Z :=
  fl <- getfile f ;;
  if negb (f_readable fl) then ret (-1)
  else
    match f_type fl with
    | FD_PIPE => piperead (f_pipe fl) addr n
    | FD_DEVICE =>
        d <- devsw_read (f_major fl) ;;
        match d with
        | None => ret (-1)
        | Some d => call_dev d true addr n
        end
    | FD_INODE =>
        ilock (f_ip fl) ;;;
        ip <- some_or_fault (f_ip fl) ;;
        fl' <- getfile f ;;
        r <- readi ip true addr (f_off fl') (u32 n) ;;
        (if 0 <? r then setfile f (set f_off (fun o => u32 (o + r))) else ret tt) ;;;
        iunlock (f_ip fl) ;;;
        ret r
    | FD_NONE => panic "fileread"
    end.

(** Blocks a single operation may write, minus inode, indirect block,
    allocation blocks and slop. *)
Definition write_max : Z := ((MAXOPBLOCKS - 1 - 1 - 2) / 2) * BSIZE.

Definition filewrite (f : nat) (addr n : Z) : K Z :=
  fl <- getfile f ;;
  if negb (f_writable fl) then ret (-1)
  else
    match f_type fl with
    | FD_PIPE => pipewrite (f_pipe fl) addr n
    | FD_DEVICE =>
        d <- devsw_write (f_major fl) ;;
        match d with
        | None => ret (-1)
        | Some d => call_dev d true addr n
        end
    | FD_INODE =>
        i <- loop (Z.to_nat (n / write_max + 2)) (fun i =>
          if i <? n then
            let n1 := Z.min (n - i) write_max in
            begin_op ;;;
            ilock (f_ip fl) ;;;
            ip <- some_or_fault (f_ip fl) ;;
            fl' <- getfile f ;;
            r <- writei ip true (u64 (addr + i)) (f_off fl') (u32 n1) ;;
            (if 0 <? r then setfile f (set f_off (fun o => u32 (o + r))) else ret tt) ;;;
            iunlock (f_ip fl) ;;;
            end_op ;;;
            if negb (r =? n1) then ret (inr i) else ret (inl (i + r))
          else ret (inr i)) 0 ;;
        ret (if i =? n then n else -1)
    | FD_NONE => panic "filewrite"
    end.
End Files.
