(* ===== verification/Process.v ===== *)
(** * Processes (kernel/proc.c): creation, exit, wait *)

From S2P Require Import Prelude CInt Memory KMonad Riscv KState Spinlock Sched.
From S2P Require Import KString Vm KAlloc Console Virtio Bio Log Fs Files.

(** Fields of [struct trapframe] (proc.h) at an address. *)
Definition tf_kernel_satp (a : Z) : Z := a.
Definition tf_kernel_sp (a : Z) : Z := a + 8.
Definition tf_kernel_trap (a : Z) : Z := a + 16.
Definition tf_epc (a : Z) : Z := a + 24.
Definition tf_kernel_hartid (a : Z) : Z := a + 32.
Definition tf_sp (a : Z) : Z := a + 48.
Definition tf_a (a n : Z) : Z := a + 112 + 8 * n.
Definition sizeof_trapframe : Z := 288.

Section Process.
Context `{Disk}.

Definition procinit : K unit :=
  initlock Lpid "nextpid" ;;;
  initlock Lwait "wait_lock" ;;;
  for_each nproc 0 (fun i =>
    let p := Z.to_nat i in
    initlock (Lproc p) "proc" ;;;
    setproc p (set p_state (fun _ => UNUSED)) ;;;
    setproc p (set p_kstack (fun _ => KSTACK i))).

(** ** Page tables of processes *)

Definition proc_pagetable (p : nat) : K Z :=
  pr <- getproc p ;;
  onvm (fun pg_alloc pg_free =>
    pagetable <- uvmcreate pg_alloc ;;
    if pagetable =? 0 then ret 0
    else
      r <- mappages pg_alloc pagetable TRAMPOLINE PGSIZE sym_trampoline (Z.lor PTE_R PTE_X) ;;
      if r <? 0 then uvmfree pg_alloc pg_free pagetable 0 ;;; ret 0
      else
        r <- mappages pg_alloc pagetable TRAPFRAME PGSIZE (p_trapframe pr) (Z.lor PTE_R PTE_W) ;;
        if r <? 0 then
          uvmunmap pg_alloc pg_free pagetable TRAMPOLINE 1 false ;;;
          uvmfree pg_alloc pg_free pagetable 0 ;;;
          ret 0
        else ret pagetable).

Definition proc_freepagetable (pagetable sz : Z) : K unit :=
  onvm (fun pg_alloc pg_free =>
    uvmunmap pg_alloc pg_free pagetable TRAMPOLINE 1 false ;;;
    uvmunmap pg_alloc pg_free pagetable TRAPFRAME 1 false ;;;
    uvmfree pg_alloc pg_free pagetable sz).

(** ** Allocation *)

Definition freeproc (p : nat) : K unit :=
  pr <- getproc p ;;
  (if negb (p_trapframe pr =? 0) then kfree (p_trapframe pr) else ret tt) ;;;
  setproc p (set p_trapframe (fun _ => 0)) ;;;
  pr <- getproc p ;;
  (if negb (p_pagetable pr =? 0) then proc_freepagetable (p_pagetable pr) (p_sz pr) else ret tt) ;;;
  setproc p (set p_pagetable (fun _ => 0)) ;;;
  setproc p (set p_sz (fun _ => 0)) ;;;
  setproc p (set p_pid (fun _ => 0)) ;;;
  setproc p (set p_parent (fun _ => None)) ;;;
  onram (st8 (proc_name p) 0) ;;;
  setproc p (set p_chan (fun _ => None)) ;;;
  setproc p (set p_killed (fun _ => 0)) ;;;
  onram (st32 (proc_xstate p) 0) ;;;
  setproc p (set p_state (fun _ => UNUSED)).

(** The scan for an unused entry, which it returns with its lock held. *)
Definition allocproc_scan : K (option nat) :=
  for_ nproc 0 (fun i =>
    let p := Z.to_nat i in
    acquire (Lproc p) ;;;
    pr <- getproc p ;;
    if bool_decide (p_state pr = UNUSED) then ret (Some p)
    else release (Lproc p) ;;; ret None).

Definition allocproc : K (option nat) :=
  r <- allocproc_scan ;;
  match r with
  | None => ret None
  | Some p =>
      pid <- allocpid ;;
      setproc p (set p_pid (fun _ => pid)) ;;;
      setproc p (set p_state (fun _ => USED)) ;;;
      tf <- kalloc ;;
      setproc p (set p_trapframe (fun _ => tf)) ;;;
      if tf =? 0 then
        freeproc p ;;;
        release (Lproc p) ;;;
        ret None
      else
        pt <- proc_pagetable p ;;
        setproc p (set p_pagetable (fun _ => pt)) ;;;
        if pt =? 0 then
          freeproc p ;;;
          release (Lproc p) ;;;
          ret None
        else
          setproc p (fun q => q <| p_ctx_ra := 0 |> <| p_ctx_sp := 0 |>) ;;;
          setproc p (set p_ctx_ra (fun _ => sym_forkret)) ;;;
          setproc p (fun q => q <| p_ctx_sp := u64 (p_kstack q + PGSIZE) |>) ;;;
          ret (Some p)
  end.

(** The first user program, the assembled [initcode.S]; the bytes lie at
    [sym_initcode] in the kernel image. *)
Definition initcode : list Z :=
  [ 0x17; 0x05; 0x00; 0x00; 0x13; 0x05; 0x45; 0x02;
    0x97; 0x05; 0x00; 0x00; 0x93; 0x85; 0x35; 0x02;
    0x93; 0x08; 0x70; 0x00; 0x73; 0x00; 0x00; 0x00;
    0x93; 0x08; 0x20; 0x00; 0x73; 0x00; 0x00; 0x00;
    0xef; 0xf0; 0x9f; 0xff; 0x2f; 0x69; 0x6e; 0x69;
    0x74; 0x00; 0x00; 0x24; 0x00; 0x00; 0x00; 0x00;
    0x00; 0x00; 0x00; 0x00 ].
Definition sizeof_initcode : Z := Z.of_nat (length initcode).

Definition userinit : K unit :=
  r <- allocproc ;;
  modify (set k_ptable (set initproc (fun _ => r))) ;;;
  p <- some_or_fault r ;;
  pr <- getproc p ;;
  onvm (fun pg_alloc _ => uvmfirst pg_alloc (p_pagetable pr) sym_initcode sizeof_initcode) ;;;
  setproc p (set p_sz (fun _ => PGSIZE)) ;;;
  onram (st64 (tf_epc (p_trapframe pr)) 0) ;;;
  onram (st64 (tf_sp (p_trapframe pr)) PGSIZE) ;;;
  with_string "initcode" (fun s => onram (safestrcpy (proc_name p) s 16)) ;;;
  cwd <- with_string "/" namei ;;
  setproc p (set p_cwd (fun _ => cwd)) ;;;
  setproc p (set p_state (fun _ => RUNNABLE)) ;;;
  release (Lproc p).

Definition growproc (n : Z) : K Z :=
  p <- curproc ;;
  pr <- getproc p ;;
  let sz := p_sz pr in
  if 0 <? n then
    sz' <- onvm (fun pg_alloc pg_free => uvmalloc pg_alloc pg_free (p_pagetable pr) sz (u64 (sz + n)) PTE_W) ;;
    if sz' =? 0 then ret (-1)
    else setproc p (set p_sz (fun _ => sz')) ;;; ret 0
  else if n <? 0 then
    sz' <- onvm (fun pg_alloc pg_free => uvmdealloc pg_alloc pg_free (p_pagetable pr) sz (u64 (sz + n))) ;;
    setproc p (set p_sz (fun _ => sz')) ;;; ret 0
  else setproc p (set p_sz (fun _ => sz)) ;;; ret 0.

(** ** Fork *)

(** Duplicating the open files. *)
Definition fork_files (p np : nat) : K unit :=
  for_each NOFILE 0 (fun i =>
    pr <- getproc p ;;
    match default None (p_ofile pr !! Z.to_nat i) with
    | None => ret tt
    | Some f =>
        f <- filedup f ;;
        setproc np (set p_ofile (fun l => <[Z.to_nat i := Some f]> l))
    end).

Definition fork : K Z :=
  p <- curproc ;;
  r <- allocproc ;;
  match r with
  | None => ret (-1)
  | Some np =>
      pr <- getproc p ;;
      npr <- getproc np ;;
      r <- onvm (fun pg_alloc pg_free =>
             uvmcopy pg_alloc pg_free (p_pagetable pr) (p_pagetable npr) (p_sz pr)) ;;
      if r <? 0 then
        freeproc np ;;;
        release (Lproc np) ;;;
        ret (-1)
      else
        setproc np (set p_sz (fun _ => p_sz pr)) ;;;
        onram (memmove (p_trapframe npr) (p_trapframe pr) sizeof_trapframe) ;;;
        onram (st64 (tf_a (p_trapframe npr) 0) 0) ;;;
        fork_files p np ;;;
        cwd <- some_or_fault (p_cwd pr) ;;
        cwd <- idup cwd ;;
        setproc np (set p_cwd (fun _ => Some cwd)) ;;;
        onram (safestrcpy (proc_name np) (proc_name p) 16) ;;;
        npr <- getproc np ;;
        let pid := p_pid npr in
        release (Lproc np) ;;;
        acquire Lwait ;;;
        setproc np (set p_parent (fun _ => Some p)) ;;;
        release Lwait ;;;
        acquire (Lproc np) ;;;
        setproc np (set p_state (fun _ => RUNNABLE)) ;;;
        release (Lproc np) ;;;
        ret pid
  end.

(** ** Exit and wait *)

Definition reparent (p : nat) : K unit :=
  for_each nproc 0 (fun i =>
    let pp := Z.to_nat i in
    q <- getproc pp ;;
    if bool_decide (p_parent q = Some p) then
      ip <- gets (fun s => initproc (k_ptable s)) ;;
      setproc pp (set p_parent (fun _ => ip)) ;;;
      wakeup_ptr (Cproc <$> ip)
    else ret tt).

Definition exit_files (p : nat) : K unit :=
  for_each NOFILE 0 (fun fd =>
    pr <- getproc p ;;
    match default None (p_ofile pr !! Z.to_nat fd) with
    | None => ret tt
    | Some f =>
        fileclose f ;;;
        setproc p (set p_ofile (fun l => <[Z.to_nat fd := None]> l))
    end).

Definition exit (status : Z) : K unit :=
  p <- curproc ;;
  ip <- gets (fun s => initproc (k_ptable s)) ;;
  if bool_decide (ip = Some p) then panic "init exiting"
  else
    exit_files p ;;;
    begin_op ;;;
    pr <- getproc p ;;
    cwd <- some_or_fault (p_cwd pr) ;;
    iput cwd ;;;
    end_op ;;;
    setproc p (set p_cwd (fun _ => None)) ;;;
    acquire Lwait ;;;
    reparent p ;;;
    pr <- getproc p ;;
    wakeup_ptr (Cproc <$> p_parent pr) ;;;
    acquire (Lproc p) ;;;
    onram (st32 (proc_xstate p) status) ;;;
    setproc p (set p_state (fun _ => ZOMBIE)) ;;;
    release Lwait ;;;
    sched ;;;
    panic "zombie exit".

(** The scan of the table by [wait]: the result when a zombie child was found,
    else whether there are children. *)
Definition wait_scan (p : nat) (addr : Z) : K (bool + Z) :=
  loop (S nproc) (fun '(i, havekids) =>
    if Nat.ltb i nproc then
      pp <- getproc i ;;
      if bool_decide (p_parent pp = Some p) then
        acquire (Lproc i) ;;;
        pp <- getproc i ;;
        if bool_decide (p_state pp = ZOMBIE) then
          let pid := p_pid pp in
          pr <- getproc p ;;
          e <- (if negb (addr =? 0) then
                  onvm (fun pg_alloc _ => copyout pg_alloc (p_pagetable pr) addr (proc_xstate i) 4)
                else ret 0) ;;
          if e <? 0 then
            release (Lproc i) ;;;
            release Lwait ;;;
            ret (inr (inr (-1)))
          else
            freeproc i ;;;
            release (Lproc i) ;;;
            release Lwait ;;;
            ret (inr (inr pid))
        else
          release (Lproc i) ;;;
          ret (inl (S i, true))
      else ret (inl (S i, havekids))
    else ret (inr (inl havekids))) (O, false).

Definition wait (addr : Z) : K Z :=
  p <- curproc ;;
  acquire Lwait ;;;
  loop rounds (fun _ =>
    r <- wait_scan p addr ;;
    match r with
    | inr pid => ret (inr pid)
    | inl havekids =>
        k <- (if negb havekids then ret 1 else killed p) ;;
        if negb havekids || negb (k =? 0) then
          release Lwait ;;;
          ret (inr (-1))
        else
          sleep (Cproc p) Lwait ;;;
          ret (inl tt)
    end) tt.
End Process.
