(* ===== verification/Exec.v ===== *)
(** * Loading programs (kernel/exec.c) *)

From S2P Require Import Prelude CInt Memory KMonad Riscv KState Spinlock Sched.
From S2P Require Import KString Vm KAlloc Console Virtio Bio Log Fs Files Process.

(** ** The ELF format (elf.h) *)

Definition ELF_MAGIC : Z := 0x464C457F.
Definition ELF_PROG_LOAD : Z := 1.
Definition sizeof_elfhdr : Z := 64.
Definition sizeof_proghdr : Z := 56.
Definition elf_magic (a : Z) : Z := a.
Definition elf_entry (a : Z) : Z := a + 24.
Definition elf_phoff (a : Z) : Z := a + 32.
Definition elf_phnum (a : Z) : Z := a + 56.
Definition ph_type (a : Z) : Z := a.
Definition ph_flags (a : Z) : Z := a + 4.
Definition ph_off (a : Z) : Z := a + 8.
Definition ph_vaddr (a : Z) : Z := a + 16.
Definition ph_filesz (a : Z) : Z := a + 32.
Definition ph_memsz (a : Z) : Z := a + 40.

Definition flags2perm (flags : Z) : Z :=
  let perm := if negb (Z.land flags 1 =? 0) then PTE_X else 0 in
  if negb (Z.land flags 2 =? 0) then Z.lor perm PTE_W else perm.

Section Exec.
Context `{Disk}.

Definition loadseg (pagetable va : Z) (ip : nat) (offset sz : Z) : K Z :=
  loop (Z.to_nat (sz / PGSIZE + 2)) (fun i =>
    if i <? sz then
      pa <- onvm (fun pg_alloc _ => walkaddr pg_alloc pagetable (u64 (va + i))) ;;
      if pa =? 0 then panic "loadseg: address should exist"
      else
        let n := if u32 (sz - i) <? PGSIZE then u32 (sz - i) else PGSIZE in
        r <- readi ip false pa (u32 (offset + i)) n ;;
        if negb (u32 r =? n) then ret (inr (-1)) else ret (inl (u32 (i + PGSIZE)))
    else ret (inr 0)) 0.

(** One program header at [off]: the new size, or [None] for [goto bad]. *)
Definition load_header (ip : nat) (pagetable ph off sz : Z) : K (Z * bool) :=
  r <- readi ip false ph (u32 off) sizeof_proghdr ;;
  if negb (r =? sizeof_proghdr) then ret (sz, false)
  else
    type <- onram (ld32 (ph_type ph)) ;;
    if negb (type =? ELF_PROG_LOAD) then ret (sz, true)
    else
      memsz <- onram (ld64 (ph_memsz ph)) ;;
      filesz <- onram (ld64 (ph_filesz ph)) ;;
      vaddr <- onram (ld64 (ph_vaddr ph)) ;;
      if memsz <? filesz then ret (sz, false)
      else if u64 (vaddr + memsz) <? vaddr then ret (sz, false)
      else if negb (vaddr mod PGSIZE =? 0) then ret (sz, false)
      else
        flags <- onram (ld32 (ph_flags ph)) ;;
        sz1 <- onvm (fun pg_alloc pg_free =>
                 uvmalloc pg_alloc pg_free pagetable sz (u64 (vaddr + memsz)) (flags2perm (i32 flags))) ;;
        if sz1 =? 0 then ret (sz, false)
        else
          poff <- onram (ld64 (ph_off ph)) ;;
          r <- loadseg pagetable vaddr ip (u32 poff) (u32 filesz) ;;
          if r <? 0 then ret (sz1, false) else ret (sz1, true).

(** The loop over the program headers: the size and whether all went well. *)
Definition load_program (ip : nat) (pagetable elf ph : Z) : K (Z * bool) :=
  phoff <- onram (ld64 (elf_phoff elf)) ;;
  phnum <- onram (ld16 (elf_phnum elf)) ;;
  loop (S (Z.to_nat phnum)) (fun '(i, off, sz) =>
    if i <? phnum then
      let* (sz, ok) := load_header ip pagetable ph off sz in
      if (ok : bool) then ret (inl (i + 1, i32 (off + sizeof_proghdr), sz))
      else ret (inr (sz, false))
    else ret (inr (sz, true))) (0, i32 phoff, 0).

(** Pushing the argument strings: [argc] and the stack pointer, or [None] for
    [goto bad]. *)
Definition push_args (pagetable stackbase ustack : Z) (argv : list Z) (sp : Z) : K (option (Z * Z)) :=
  loop (S (S MAXARG)) (fun '(argc, sp) =>
    let arg := default 0 (argv !! Z.to_nat argc) in
    if negb (arg =? 0) then
      if Z.of_nat MAXARG <=? argc then ret (inr None)
      else
        len <- onram (strlen arg) ;;
        let sp := u64 (sp - (len + 1)) in
        let sp := sp - sp mod 16 in
        if sp <? stackbase then ret (inr None)
        else
          len <- onram (strlen arg) ;;
          r <- onvm (fun pg_alloc _ => copyout pg_alloc pagetable sp arg (len + 1)) ;;
          if r <? 0 then ret (inr None)
          else
            onram (st64 (ustack + 8 * argc) sp) ;;;
            ret (inl (argc + 1, sp))
    else ret (inr (Some (argc, sp)))) (0, sp).

(** [for(last=s=path; *s; s++) if( *s == '/' ) last = s+1;] *)
Definition last_elem (path : Z) : K Z :=
  fuel <- ram_fuel path ;;
  loop fuel (fun '(last, s) =>
    c <- onram (ld8 s) ;;
    if negb (c =? 0) then ret (inl (if c =? slash then s + 1 else last, s + 1))
    else ret (inr last)) (path, path).

(** The cleanup at [bad]. *)
Definition exec_bad (pagetable sz : Z) (ip : option nat) : K Z :=
  (if negb (pagetable =? 0) then proc_freepagetable pagetable sz else ret tt) ;;;
  match ip with
  | Some ip => iunlockput ip ;;; end_op ;;; ret (-1)
  | None => ret (-1)
  end.

(** From the user stack on, with the program loaded and the inode released. *)
Definition exec_stack (path : Z) (argv : list Z) (elf pagetable sz : Z) : K Z :=
  p <- curproc ;;
  pr <- getproc p ;;
  let oldsz := p_sz pr in
  let sz := PGROUNDUP sz in
  sz1 <- onvm (fun pg_alloc pg_free =>
           uvmalloc pg_alloc pg_free pagetable sz (u64 (sz + 2 * PGSIZE)) PTE_W) ;;
  if sz1 =? 0 then exec_bad pagetable sz None
  else
    let sz := sz1 in
    onvm (fun pg_alloc _ => uvmclear pg_alloc pagetable (u64 (sz - 2 * PGSIZE))) ;;;
    let stackbase := u64 (sz - PGSIZE) in
    frame 256 (fun ustack =>
      r <- push_args pagetable stackbase ustack argv sz ;;
      match r with
      | None => exec_bad pagetable sz None
      | Some (argc, sp) =>
          onram (st64 (ustack + 8 * argc) 0) ;;;
          let sp := u64 (sp - (argc + 1) * 8) in
          let sp := sp - sp mod 16 in
          if sp <? stackbase then exec_bad pagetable sz None
          else
            r <- onvm (fun pg_alloc _ => copyout pg_alloc pagetable sp ustack ((argc + 1) * 8)) ;;
            if r <? 0 then exec_bad pagetable sz None
            else
              onram (st64 (tf_a (p_trapframe pr) 1) sp) ;;;
              last <- last_elem path ;;
              onram (safestrcpy (proc_name p) last 16) ;;;
              pr <- getproc p ;;
              let oldpagetable := p_pagetable pr in
              setproc p (set p_pagetable (fun _ => pagetable)) ;;;
              setproc p (set p_sz (fun _ => sz)) ;;;
              entry <- onram (ld64 (elf_entry elf)) ;;
              onram (st64 (tf_epc (p_trapframe pr)) entry) ;;;
              onram (st64 (tf_sp (p_trapframe pr)) sp) ;;;
              proc_freepagetable oldpagetable oldsz ;;;
              ret (i32 argc)
      end).

(** [argv] is the array of kernel addresses of the argument strings. *)
Definition exec (path : Z) (argv : list Z) : K Z :=
  p <- curproc ;;
  begin_op ;;;
  r <- namei path ;;
  match r with
  | None => end_op ;;; ret (-1)
  | Some ip =>
      ilock (Some ip) ;;;
      frame sizeof_elfhdr (fun elf => frame 64 (fun ph =>
        r <- readi ip false elf 0 sizeof_elfhdr ;;
        if negb (r =? sizeof_elfhdr) then exec_bad 0 0 (Some ip)
        else
          magic <- onram (ld32 (elf_magic elf)) ;;
          if negb (magic =? ELF_MAGIC) then exec_bad 0 0 (Some ip)
          else
            pagetable <- proc_pagetable p ;;
            if pagetable =? 0 then exec_bad 0 0 (Some ip)
            else
              let* (sz, ok) := load_program ip pagetable elf ph in
              if negb ok then exec_bad pagetable sz (Some ip)
              else
                iunlockput ip ;;;
                end_op ;;;
                exec_stack path argv elf pagetable sz))
  end.
End Exec.
