(* ===== verification/Syscalls.v ===== *)
(** * System calls

    kernel/syscall.c (arguments and dispatch), kernel/sysproc.c,
    kernel/sysfile.c and the call of kernel/buddy_alloc.c.  The results are
    integers; [syscall] stores them as 64-bit words. *)

From S2P Require Import Prelude CInt Memory KMonad Riscv KState Spinlock Sched.
From S2P Require Import Buddy KString Vm KAlloc Console Virtio Bio Log Fs Files Process Exec.

Section Syscalls.
Context `{Disk}.

(** ** Arguments (syscall.c) *)

Definition fetchaddr (addr ip : Z) : K Z :=
  p <- curproc ;;
  pr <- getproc p ;;
  if (p_sz pr <=? addr) || (p_sz pr <? u64 (addr + 8)) then ret (-1)
  else
    r <- onvm (fun pg_alloc _ => copyin pg_alloc (p_pagetable pr) ip addr 8) ;;
    if negb (r =? 0) then ret (-1) else ret 0.

Definition fetchstr (addr buf max : Z) : K Z :=
  p <- curproc ;;
  pr <- getproc p ;;
  r <- onvm (fun pg_alloc _ => copyinstr pg_alloc (p_pagetable pr) buf addr max) ;;
  if r <? 0 then ret (-1) else onram (strlen buf).

Definition argraw (n : Z) : K Z :=
  p <- curproc ;;
  pr <- getproc p ;;
  if (0 <=? n) && (n <=? 5) then onram (ld64 (tf_a (p_trapframe pr) n))
  else panic "argraw".

Definition argint (n : Z) : K Z := v <- argraw n ;; ret (i32 v).
Definition argaddr (n : Z) : K Z := argraw n.
Definition argstr (n buf max : Z) : K Z := addr <- argaddr n ;; fetchstr addr buf max.

(** ** Processes (sysproc.c) *)

Definition sys_exit : K Z := n <- argint 0 ;; exit n ;;; ret 0.
Definition sys_getpid : K Z := p <- curproc ;; pr <- getproc p ;; ret (p_pid pr).
Definition sys_fork : K Z := fork.
Definition sys_wait : K Z := p <- argaddr 0 ;; wait p.

Definition sys_sbrk : K Z :=
  n <- argint 0 ;;
  p <- curproc ;;
  pr <- getproc p ;;
  let addr := p_sz pr in
  r <- growproc n ;;
  if r <? 0 then ret (-1) else ret addr.

Definition getticks : K Z := gets (fun s => ticks (k_io s)).

(** [ticks - ticks0 < n] compares unsigned. *)
Definition sys_sleep : K Z :=
  n <- argint 0 ;;
  acquire Lticks ;;;
  ticks0 <- getticks ;;
  loop rounds (fun _ =>
    t <- getticks ;;
    if u32 (t - ticks0) <? u32 n then
      p <- curproc ;;
      k <- killed p ;;
      if negb (k =? 0) then release Lticks ;;; ret (inr (-1))
      else sleep Cticks Lticks ;;; ret (inl tt)
    else release Lticks ;;; ret (inr 0)) tt.

Definition sys_kill : K Z := pid <- argint 0 ;; kill pid.

Definition sys_uptime : K Z :=
  acquire Lticks ;;;
  xticks <- getticks ;;
  release Lticks ;;;
  ret xticks.

(** ** Files (sysfile.c) *)

(** The descriptor and the file, [None] for -1. *)
Definition argfd (n : Z) : K (option (Z * nat)) :=
  fd <- argint n ;;
  if (fd <? 0) || (Z.of_nat NOFILE <=? fd) then ret None
  else
    p <- curproc ;;
    pr <- getproc p ;;
    match default None (p_ofile pr !! Z.to_nat fd) with
    | None => ret None
    | Some f => ret (Some (fd, f))
    end.

Definition fdalloc (f : nat) : K Z :=
  p <- curproc ;;
  r <- for_ NOFILE 0 (fun fd =>
    pr <- getproc p ;;
    match default None (p_ofile pr !! Z.to_nat fd) with
    | None =>
        setproc p (set p_ofile (fun l => <[Z.to_nat fd := Some f]> l)) ;;;
        ret (Some fd)
    | Some _ => ret None
    end) ;;
  ret (default (-1) r).

(** [myproc()->ofile[fd] = 0] *)
Definition fdclear (fd : Z) : K unit :=
  p <- curproc ;;
  setproc p (set p_ofile (fun l => <[Z.to_nat fd := None]> l)).

Definition sys_dup : K Z :=
  r <- argfd 0 ;;
  match r with
  | None => ret (-1)
  | Some (_, f) =>
      fd <- fdalloc f ;;
      if fd <? 0 then ret (-1)
      else filedup f ;;; ret fd
  end.

Definition sys_dummy : K Z := ret 0x5555.

Definition sys_read : K Z :=
  p <- argaddr 1 ;;
  n <- argint 2 ;;
  r <- argfd 0 ;;
  match r with
  | None => ret (-1)
  | Some (_, f) => fileread f p n
  end.

Definition sys_write : K Z :=
  p <- argaddr 1 ;;
  n <- argint 2 ;;
  r <- argfd 0 ;;
  match r with
  | None => ret (-1)
  | Some (_, f) => filewrite f p n
  end.

Definition sys_close : K Z :=
  r <- argfd 0 ;;
  match r with
  | None => ret (-1)
  | Some (fd, f) =>
      fdclear fd ;;;
      fileclose f ;;;
      ret 0
  end.

Definition sys_fstat : K Z :=
  st <- argaddr 1 ;;
  r <- argfd 0 ;;
  match r with
  | None => ret (-1)
  | Some (_, f) => filestat f st
  end.

(** The [bad] branch of [sys_link]. *)
Definition link_bad (ip : nat) : K Z :=
  ilock (Some ip) ;;;
  setinode ip (set i_nlink (fun n => i16 (n - 1))) ;;;
  iupdate ip ;;;
  iunlockput ip ;;;
  end_op ;;;
  ret (-1).

Definition sys_link : K Z :=
  frame 16 (fun name => frame MAXPATH (fun new => frame MAXPATH (fun old =>
    r <- argstr 0 old MAXPATH ;;
    r <- (if r <? 0 then ret r else argstr 1 new MAXPATH) ;;
    if r <? 0 then ret (-1)
    else
      begin_op ;;;
      r <- namei old ;;
      match r with
      | None => end_op ;;; ret (-1)
      | Some ip =>
          ilock (Some ip) ;;;
          i <- getinode ip ;;
          if i_type i =? T_DIR then
            iunlockput ip ;;;
            end_op ;;;
            ret (-1)
          else
            setinode ip (set i_nlink (fun n => i16 (n + 1))) ;;;
            iupdate ip ;;;
            iunlock (Some ip) ;;;
            r <- nameiparent new name ;;
            match r with
            | None => link_bad ip
            | Some dp =>
                ilock (Some dp) ;;;
                d <- getinode dp ;;
                i <- getinode ip ;;
                r <- (if negb (i_dev d =? i_dev i) then ret (-1) else dirlink dp name (i_inum i)) ;;
                if r <? 0 then
                  iunlockput dp ;;;
                  link_bad ip
                else
                  iunlockput dp ;;;
                  iput ip ;;;
                  end_op ;;;
                  ret 0
            end
      end))).

Definition isdirempty (dp : nat) : K bool :=
  frame sizeof_dirent (fun de =>
    d <- getinode dp ;;
    loop (Z.to_nat (i_size d / sizeof_dirent + 2)) (fun off =>
      d <- getinode dp ;;
      if u32 off <? i_size d then
        r <- readi dp false de (u32 off) sizeof_dirent ;;
        if negb (r =? sizeof_dirent) then panic "isdirempty: readi"
        else
          inum <- onram (ld16 (de_inum de)) ;;
          if negb (inum =? 0) then ret (inr false) else ret (inl (i32 (off + sizeof_dirent)))
      else ret (inr true)) (2 * sizeof_dirent)).

(** Removing the entry at [off] of [dp], which names [ip]. *)
Definition unlink_entry (dp ip : nat) (de off : Z) : K Z :=
  onram (memset de 0 sizeof_dirent) ;;;
  r <- writei dp false de off sizeof_dirent ;;
  if negb (r =? sizeof_dirent) then panic "unlink: writei"
  else
    i <- getinode ip ;;
    (if i_type i =? T_DIR then
       setinode dp (set i_nlink (fun n => i16 (n - 1))) ;;;
       iupdate dp
     else ret tt) ;;;
    iunlockput dp ;;;
    setinode ip (set i_nlink (fun n => i16 (n - 1))) ;;;
    iupdate ip ;;;
    iunlockput ip ;;;
    end_op ;;;
    ret 0.

Definition sys_unlink : K Z :=
  frame 16 (fun de => frame 16 (fun name => frame MAXPATH (fun path =>
    r <- argstr 0 path MAXPATH ;;
    if r <? 0 then ret (-1)
    else
      begin_op ;;;
      r <- nameiparent path name ;;
      match r with
      | None => end_op ;;; ret (-1)
      | Some dp =>
          let bad := (iunlockput dp ;;; end_op ;;; ret (-1)) in
          ilock (Some dp) ;;;
          c1 <- with_string "." (fun s => onram (namecmp name s)) ;;
          c2 <- (if c1 =? 0 then ret 0 else with_string ".." (fun s => onram (namecmp name s))) ;;
          if (c1 =? 0) || (c2 =? 0) then bad
          else
            r <- dirlookup dp name ;;
            match r with
            | None => bad
            | Some (ip, off) =>
                ilock (Some ip) ;;;
                i <- getinode ip ;;
                if i_nlink i <? 1 then panic "unlink: nlink < 1"
                else
                  empty <- (if i_type i =? T_DIR then isdirempty ip else ret true) ;;
                  if negb empty then iunlockput ip ;;; bad
                  else unlink_entry dp ip de off
            end
      end))).

(** [dirlink] of a constant name. *)
Definition dirlink_const (dp : nat) (name : string) (inum : Z) : K Z :=
  with_string name (fun s => dirlink dp s inum).

(** The [fail] branch of [create]. *)
Definition create_fail (ip dp : nat) : K (option nat) :=
  setinode ip (set i_nlink (fun _ => 0)) ;;;
  iupdate ip ;;;
  iunlockput ip ;;;
  iunlockput dp ;;;
  ret None.

Definition create (path type major minor : Z) : K (option nat) :=
  frame 16 (fun name =>
    r <- nameiparent path name ;;
    match r with
    | None => ret None
    | Some dp =>
        ilock (Some dp) ;;;
        r <- dirlookup dp name ;;
        match r with
        | Some (ip, _) =>
            iunlockput dp ;;;
            ilock (Some ip) ;;;
            i <- getinode ip ;;
            if (type =? T_FILE) && ((i_type i =? T_FILE) || (i_type i =? T_DEVICE))
            then ret (Some ip)
            else iunlockput ip ;;; ret None
        | None =>
            d <- getinode dp ;;
            r <- ialloc (i_dev d) type ;;
            match r with
            | None => iunlockput dp ;;; ret None
            | Some ip =>
                ilock (Some ip) ;;;
                setinode ip (set i_major (fun _ => i16 major)) ;;;
                setinode ip (set i_minor (fun _ => i16 minor)) ;;;
                setinode ip (set i_nlink (fun _ => 1)) ;;;
                iupdate ip ;;;
                i <- getinode ip ;;
                d <- getinode dp ;;
                r <- (if type =? T_DIR then
                        r <- dirlink_const ip "." (i_inum i) ;;
                        if r <? 0 then ret r else dirlink_const ip ".." (i_inum d)
                      else ret 0) ;;
                if r <? 0 then create_fail ip dp
                else
                  r <- dirlink dp name (i_inum i) ;;
                  if r <? 0 then create_fail ip dp
                  else
                    (if type =? T_DIR then
                       setinode dp (set i_nlink (fun n => i16 (n + 1))) ;;;
                       iupdate dp
                     else ret tt) ;;;
                    iunlockput dp ;;;
                    ret (Some ip)
            end
        end
    end).

(** ** open and the calls that create nodes *)

Definition O_RDONLY : Z := 0x000.
Definition O_WRONLY : Z := 0x001.
Definition O_RDWR : Z := 0x002.
Definition O_CREATE : Z := 0x200.
Definition O_TRUNC : Z := 0x400.

(** The inode to open, locked; [None] after the clean-up of a failure. *)
Definition open_inode (path omode : Z) : K (option nat) :=
  if negb (Z.land omode O_CREATE =? 0) then
    r <- create path T_FILE 0 0 ;;
    match r with
    | None => end_op ;;; ret None
    | Some ip => ret (Some ip)
    end
  else
    r <- namei path ;;
    match r with
    | None => end_op ;;; ret None
    | Some ip =>
        ilock (Some ip) ;;;
        i <- getinode ip ;;
        if (i_type i =? T_DIR) && negb (omode =? O_RDONLY) then
          iunlockput ip ;;;
          end_op ;;;
          ret None
        else ret (Some ip)
    end.

(** The file and its descriptor; [None] after closing a file that has none. *)
Definition open_file : K (option (nat * Z)) :=
  r <- filealloc ;;
  match r with
  | None => ret None
  | Some f =>
      fd <- fdalloc f ;;
      if fd <? 0 then fileclose f ;;; ret None else ret (Some (f, fd))
  end.

Definition sys_open : K Z :=
  frame MAXPATH (fun path =>
    omode <- argint 1 ;;
    n <- argstr 0 path MAXPATH ;;
    if n <? 0 then ret (-1)
    else
      begin_op ;;;
      r <- open_inode path omode ;;
      match r with
      | None => ret (-1)
      | Some ip =>
          i <- getinode ip ;;
          if (i_type i =? T_DEVICE) && ((i_major i <? 0) || (NDEV <=? i_major i)) then
            iunlockput ip ;;;
            end_op ;;;
            ret (-1)
          else
            r <- open_file ;;
            match r with
            | None =>
                iunlockput ip ;;;
                end_op ;;;
                ret (-1)
            | Some (f, fd) =>
                i <- getinode ip ;;
                (if i_type i =? T_DEVICE then
                   setfile f (set f_type (fun _ => FD_DEVICE)) ;;;
                   setfile f (set f_major (fun _ => i_major i))
                 else
                   setfile f (set f_type (fun _ => FD_INODE)) ;;;
                   setfile f (set f_off (fun _ => 0))) ;;;
                setfile f (set f_ip (fun _ => Some ip)) ;;;
                setfile f (set f_readable (fun _ => Z.land omode O_WRONLY =? 0)) ;;;
                setfile f (set f_writable (fun _ =>
                  negb (Z.land omode O_WRONLY =? 0) || negb (Z.land omode O_RDWR =? 0))) ;;;
                (if negb (Z.land omode O_TRUNC =? 0) && (i_type i =? T_FILE) then itrunc ip else ret tt) ;;;
                iunlock (Some ip) ;;;
                end_op ;;;
                ret fd
            end
      end).

Definition sys_mkdir : K Z :=
  frame MAXPATH (fun path =>
    begin_op ;;;
    n <- argstr 0 path MAXPATH ;;
    r <- (if n <? 0 then ret None else create path T_DIR 0 0) ;;
    match r with
    | None => end_op ;;; ret (-1)
    | Some ip =>
        iunlockput ip ;;;
        end_op ;;;
        ret 0
    end).

Definition sys_mknod : K Z :=
  frame MAXPATH (fun path =>
    begin_op ;;;
    major <- argint 1 ;;
    minor <- argint 2 ;;
    n <- argstr 0 path MAXPATH ;;
    r <- (if n <? 0 then ret None else create path T_DEVICE (i16 major) (i16 minor)) ;;
    match r with
    | None => end_op ;;; ret (-1)
    | Some ip =>
        iunlockput ip ;;;
        end_op ;;;
        ret 0
    end).

Definition sys_chdir : K Z :=
  frame MAXPATH (fun path =>
    p <- curproc ;;
    begin_op ;;;
    n <- argstr 0 path MAXPATH ;;
    r <- (if n <? 0 then ret None else namei path) ;;
    match r with
    | None => end_op ;;; ret (-1)
    | Some ip =>
        ilock (Some ip) ;;;
        i <- getinode ip ;;
        if negb (i_type i =? T_DIR) then
          iunlockput ip ;;;
          end_op ;;;
          ret (-1)
        else
          iunlock (Some ip) ;;;
          pr <- getproc p ;;
          cwd <- some_or_fault (p_cwd pr) ;;
          iput cwd ;;;
          end_op ;;;
          setproc p (set p_cwd (fun _ => Some ip)) ;;;
          ret 0
    end).

(** ** exec and pipe *)

(** Freeing the argument pages up to the first null pointer. *)
Fixpoint free_args (argv : list Z) : K unit :=
  match argv with
  | [] => ret tt
  | a :: argv => if a =? 0 then ret tt else kfree a ;;; free_args argv
  end.

(** The loop that fetches the arguments: the array and whether it went well. *)
Definition fetch_args (uargv uarg : Z) : K (list Z * bool) :=
  loop (S (S MAXARG)) (fun '(i, argv) =>
    if Z.of_nat MAXARG <=? i then ret (inr (argv, false))
    else
      r <- fetchaddr (u64 (uargv + 8 * i)) uarg ;;
      if r <? 0 then ret (inr (argv, false))
      else
        a <- onram (ld64 uarg) ;;
        if a =? 0 then ret (inr (<[Z.to_nat i := 0]> argv, true))
        else
          page <- kalloc ;;
          let argv := <[Z.to_nat i := page]> argv in
          if page =? 0 then ret (inr (argv, false))
          else
            r <- fetchstr a page PGSIZE ;;
            if r <? 0 then ret (inr (argv, false)) else ret (inl (i + 1, argv)))
    (0, replicate MAXARG 0).

Definition sys_exec : K Z :=
  frame MAXPATH (fun path => frame 16 (fun uarg =>
    uargv <- argaddr 1 ;;
    n <- argstr 0 path MAXPATH ;;
    if n <? 0 then ret (-1)
    else
      let* (argv, ok) := fetch_args uargv uarg in
      if (ok : bool) then
        r <- exec path argv ;;
        free_args argv ;;;
        ret r
      else
        free_args argv ;;;
        ret (-1))).

(** [copyout] of one of the two descriptors. *)
Definition copyout_fd (a fd : Z) (tmp : Z) : K Z :=
  onram (st32 tmp fd) ;;;
  p <- curproc ;;
  pr <- getproc p ;;
  onvm (fun pg_alloc _ => copyout pg_alloc (p_pagetable pr) a tmp 4).

Definition sys_pipe : K Z :=
  fdarray <- argaddr 0 ;;
  r <- pipealloc ;;
  match r with
  | None => ret (-1)
  | Some (rf, wf) =>
      fd0 <- fdalloc rf ;;
      fd1 <- (if fd0 <? 0 then ret (-1) else fdalloc wf) ;;
      if (fd0 <? 0) || (fd1 <? 0) then
        (if 0 <=? fd0 then fdclear fd0 else ret tt) ;;;
        fileclose rf ;;;
        fileclose wf ;;;
        ret (-1)
      else
        frame 16 (fun tmp =>
          e <- copyout_fd fdarray fd0 tmp ;;
          e <- (if e <? 0 then ret e else copyout_fd (u64 (fdarray + 4)) fd1 (tmp + 4)) ;;
          if e <? 0 then
            fdclear fd0 ;;;
            fdclear fd1 ;;;
            fileclose rf ;;;
            fileclose wf ;;;
            ret (-1)
          else ret 0)
  end.

(** ** Allocator statistics (kernel/buddy_alloc.c) *)

(** [sizeof(struct buddy_info)]: the total, the free pages and the counts of
    the levels. *)
Definition sizeof_buddy_info : Z := 8 * (2 + BUDDY_LEVELS).
Fixpoint st_dwords (a : Z) (l : list Z) : M ram unit :=
  match l with
  | [] => ret tt
  | w :: l => st64 a w ;;; st_dwords (a + 8) l
  end.

Definition sys_buddy_info : K Z :=
  user_info_struct <- argaddr 0 ;;
  frame 96 (fun info =>
    acquire Lbuddy ;;;
    mem <- gets k_buddy ;;
    let* (total, free, free_by_size) := onram (lib_buddy_stat mem true true true) in
    onram (st_dwords info (default 0 total :: default 0 free :: default [] free_by_size)) ;;;
    release Lbuddy ;;;
    either_copyout true user_info_struct info sizeof_buddy_info).

(** ** Dispatch *)

(** [syscalls[num]] *)
Definition syscalls (num : Z) : option (K Z) :=
  nth_error
    [sys_fork; sys_exit; sys_wait; sys_pipe; sys_read; sys_kill; sys_exec; sys_fstat; sys_chdir;
     sys_dup; sys_getpid; sys_sbrk; sys_sleep; sys_uptime; sys_open; sys_write; sys_mknod;
     sys_unlink; sys_link; sys_mkdir; sys_close; sys_dummy; sys_buddy_info] (Z.to_nat (num - 1)).

Definition syscall : K unit :=
  p <- curproc ;;
  pr <- getproc p ;;
  n <- onram (ld64 (tf_a (p_trapframe pr) 7)) ;;
  let num := i32 n in
  match (if (0 <? num) && (num <? 24) then syscalls num else None) with
  | Some f =>
      r <- f ;;
      pr <- getproc p ;;
      onram (st64 (tf_a (p_trapframe pr) 0) (u64 r))
  | None =>
      printf ("%d %s: unknown sys call %d" ++ newline) [p_pid pr; proc_name p; num] ;;;
      onram (st64 (tf_a (p_trapframe pr) 0) (u64 (-1)))
  end.
End Syscalls.
