(* ===== verification/Trap.v ===== *)
(** * Traps (kernel/trap.c), the interrupt controller (kernel/plic.c) and
      booting (kernel/start.c, kernel/main.c)

    Leaving the kernel is a jump into the trampoline page, which does not
    return: [usertrapret] yields the address it jumps to and its argument. *)

From S2P Require Import Prelude CInt Memory KMonad Riscv KState Spinlock Sched.
From S2P Require Import KString Vm KAlloc Console Virtio Bio Log Fs Files Process Exec Syscalls.

Definition UART0_IRQ : Z := 10.
Definition VIRTIO0_IRQ : Z := 1.
Definition PLIC_SENABLE (hart : Z) : Z := PLIC + 0x2080 + hart * 0x100.
Definition PLIC_SPRIORITY (hart : Z) : Z := PLIC + 0x201000 + hart * 0x2000.
Definition PLIC_SCLAIM (hart : Z) : Z := PLIC + 0x201004 + hart * 0x2000.
Definition CLINT : Z := 0x2000000.
Definition CLINT_MTIMECMP (hartid : Z) : Z := CLINT + 0x4000 + 8 * hartid.
Definition CLINT_MTIME : Z := CLINT + 0xBFF8.

Section Trap.
Context `{Disk}.

(** ** The interrupt controller *)

Definition plicinit : K unit :=
  mmio_wr (PLIC + UART0_IRQ * 4) 1 ;;;
  mmio_wr (PLIC + VIRTIO0_IRQ * 4) 1.

Definition plicinithart : K unit :=
  hart <- cpuid ;;
  mmio_wr (PLIC_SENABLE hart) (Z.lor (Z.shiftl 1 UART0_IRQ) (Z.shiftl 1 VIRTIO0_IRQ)) ;;;
  mmio_wr (PLIC_SPRIORITY hart) 0.

Definition plic_claim : K Z :=
  hart <- cpuid ;;
  irq <- mmio_rd (PLIC_SCLAIM hart) ;;
  ret (i32 irq).

Definition plic_complete (irq : Z) : K unit :=
  hart <- cpuid ;;
  mmio_wr (PLIC_SCLAIM hart) (u32 irq).

(** ** Interrupts *)

Definition trapinit : K unit := initlock Lticks "time".
Definition trapinithart : K unit := onhart (w_stvec sym_kernelvec).

Definition clockintr : K unit :=
  acquire Lticks ;;;
  modify (set k_io (set ticks (fun t => u32 (t + 1)))) ;;;
  wakeup Cticks ;;;
  release Lticks.

(** 2 for a timer interrupt, 1 for another device, 0 if not recognized. *)
Definition devintr : K Z :=
  scause <- onhart r_scause ;;
  if negb (Z.land scause 0x8000000000000000 =? 0) && (Z.land scause 0xff =? 9) then
    irq <- plic_claim ;;
    (if irq =? UART0_IRQ then uartintr
     else if irq =? VIRTIO0_IRQ then virtio_disk_intr
     else if negb (irq =? 0) then printf ("unexpected interrupt irq=%d" ++ newline) [irq]
     else ret tt) ;;;
    (if negb (irq =? 0) then plic_complete irq else ret tt) ;;;
    ret 1
  else if scause =? 0x8000000000000001 then
    id <- cpuid ;;
    (if id =? 0 then clockintr else ret tt) ;;;
    x <- onhart r_sip ;;
    onhart (w_sip (Z.land x (Z.lnot 2))) ;;;
    ret 2
  else ret 0.

Definition kerneltrap : K unit :=
  sepc <- onhart r_sepc ;;
  sstatus <- onhart r_sstatus ;;
  scause <- onhart r_scause ;;
  if Z.land sstatus SSTATUS_SPP =? 0 then panic "kerneltrap: not from supervisor mode"
  else
    i <- onhart intr_get ;;
    if (i : bool) then panic "kerneltrap: interrupts enabled"
    else
      which_dev <- devintr ;;
      if which_dev =? 0 then
        printf ("scause %p" ++ newline) [scause] ;;;
        e <- onhart r_sepc ;;
        v <- onhart r_stval ;;
        printf ("sepc=%p stval=%p" ++ newline) [e; v] ;;;
        panic "kerneltrap"
      else
        (if which_dev =? 2 then
           p <- myproc ;;
           match p with
           | None => ret tt
           | Some p =>
               pr <- getproc p ;;
               if bool_decide (p_state pr = RUNNING) then yield else ret tt
           end
         else ret tt) ;;;
        onhart (w_sepc sepc) ;;;
        onhart (w_sstatus sstatus).

(** ** To and from user space *)

Definition usertrapret : K (Z * Z) :=
  p <- curproc ;;
  onhart intr_off ;;;
  let trampoline_uservec := u64 (TRAMPOLINE + (sym_uservec - sym_trampoline)) in
  onhart (w_stvec trampoline_uservec) ;;;
  pr <- getproc p ;;
  let tf := p_trapframe pr in
  satp <- onhart r_satp ;;
  onram (st64 (tf_kernel_satp tf) satp) ;;;
  onram (st64 (tf_kernel_sp tf) (u64 (p_kstack pr + PGSIZE))) ;;;
  onram (st64 (tf_kernel_trap tf) sym_usertrap) ;;;
  id <- onhart r_tp ;;
  onram (st64 (tf_kernel_hartid tf) id) ;;;
  x <- onhart r_sstatus ;;
  let x := Z.land x (Z.lnot SSTATUS_SPP) in
  let x := Z.lor x SSTATUS_SPIE in
  onhart (w_sstatus x) ;;;
  epc <- onram (ld64 (tf_epc tf)) ;;
  onhart (w_sepc epc) ;;;
  let satp := MAKE_SATP (p_pagetable pr) in
  let trampoline_userret := u64 (TRAMPOLINE + (sym_userret - sym_trampoline)) in
  ret (trampoline_userret, satp).

Definition usertrap : K (Z * Z) :=
  sstatus <- onhart r_sstatus ;;
  if negb (Z.land sstatus SSTATUS_SPP =? 0) then panic "usertrap: not from user mode"
  else
    onhart (w_stvec sym_kernelvec) ;;;
    p <- curproc ;;
    pr <- getproc p ;;
    let tf := p_trapframe pr in
    epc <- onhart r_sepc ;;
    onram (st64 (tf_epc tf) epc) ;;;
    scause <- onhart r_scause ;;
    which_dev <-
      (if scause =? 8 then
         k <- killed p ;;
         (if negb (k =? 0) then exit (-1) else ret tt) ;;;
         epc <- onram (ld64 (tf_epc tf)) ;;
         onram (st64 (tf_epc tf) (u64 (epc + 4))) ;;;
         onhart intr_on ;;;
         syscall ;;;
         ret 0
       else
         which_dev <- devintr ;;
         if negb (which_dev =? 0) then ret which_dev
         else
           scause <- onhart r_scause ;;
           pr <- getproc p ;;
           printf ("usertrap(): unexpected scause %p pid=%d" ++ newline) [scause; p_pid pr] ;;;
           e <- onhart r_sepc ;;
           v <- onhart r_stval ;;
           printf ("            sepc=%p stval=%p" ++ newline) [e; v] ;;;
           setkilled p ;;;
           ret 0) ;;
    k <- killed p ;;
    (if negb (k =? 0) then exit (-1) else ret tt) ;;;
    (if which_dev =? 2 then yield else ret tt) ;;;
    usertrapret.

(** kernel/proc.c: a new process starts here. *)
Definition forkret : K (Z * Z) :=
  p <- curproc ;;
  release (Lproc p) ;;;
  first <- gets (fun s => first (k_ptable s)) ;;
  (if negb (first =? 0) then
     modify (set k_ptable (set KState.first (fun _ => 0))) ;;;
     fsinit ROOTDEV
   else ret tt) ;;;
  usertrapret.

(** ** Booting *)

Definition timerinit : K unit :=
  id <- onhart r_mhartid ;;
  let id := i32 id in
  let interval := 1000000 in
  now <- mmio_rd CLINT_MTIME ;;
  mmio_wr (CLINT_MTIMECMP id) (u64 (now + interval)) ;;;
  let scratch := sym_timer_scratch + 40 * id in
  onram (st64 (scratch + 8 * 3) (CLINT_MTIMECMP id)) ;;;
  onram (st64 (scratch + 8 * 4) interval) ;;;
  onhart (w_mscratch scratch) ;;;
  onhart (w_mtvec sym_timervec) ;;;
  x <- onhart r_mstatus ;;
  onhart (w_mstatus (Z.lor x MSTATUS_MIE)) ;;;
  x <- onhart r_mie ;;
  onhart (w_mie (Z.lor x MIE_MTIE)).

(** The final [mret] jumps to [main] in supervisor mode. *)
Definition start : K unit :=
  x <- onhart r_mstatus ;;
  let x := Z.land x (Z.lnot MSTATUS_MPP_MASK) in
  let x := Z.lor x MSTATUS_MPP_S in
  onhart (w_mstatus x) ;;;
  onhart (w_mepc sym_main) ;;;
  onhart (w_satp 0) ;;;
  onhart (w_medeleg 0xffff) ;;;
  onhart (w_mideleg 0xffff) ;;;
  s <- onhart r_sie ;;
  onhart (w_sie (Z.lor (Z.lor (Z.lor s SIE_SEIE) SIE_STIE) SIE_SSIE)) ;;;
  onhart (w_pmpaddr0 0x3fffffffffffff) ;;;
  onhart (w_pmpcfg0 0xf) ;;;
  timerinit ;;;
  id <- onhart r_mhartid ;;
  onhart (w_tp (i32 id)).

(** kernel/vm.c: the kernel's page table. *)
Definition kvminit : K unit :=
  pt <- onvm (fun pg_alloc _ => kvmmake pg_alloc sym_etext sym_trampoline) ;;
  modify (set k_kpt (fun _ => pt)).
Definition kvminithart : K unit :=
  pt <- gets k_kpt ;;
  onhart (w_satp (MAKE_SATP pt)).

Definition main : K unit :=
  id <- cpuid ;;
  (if id =? 0 then
     consoleinit ;;;
     printfinit ;;;
     printf newline [] ;;;
     printf ("xv6 kernel is booting" ++ newline) [] ;;;
     printf newline [] ;;;
     buddy_init ;;;
     slab_init ;;;
     kvminit ;;;
     kvminithart ;;;
     procinit ;;;
     trapinit ;;;
     trapinithart ;;;
     plicinit ;;;
     plicinithart ;;;
     binit ;;;
     iinit ;;;
     fileinit ;;;
     virtio_disk_init ;;;
     userinit ;;;
     modify (set k_started (fun _ => 1))
   else
     loop rounds (fun _ =>
       s <- gets k_started ;;
       if s =? 0 then ret (inl tt) else ret (inr tt)) tt ;;;
     id <- cpuid ;;
     printf ("hart %d starting" ++ newline) [id] ;;;
     kvminithart ;;;
     trapinithart ;;;
     plicinithart) ;;;
  scheduler.
End Trap.
