(* ===== verification/Mkfs.v ===== *)
(** * Building the initial file system (mkfs/mkfs.c)

    The image is a map from sector numbers to blocks of bytes.  The input files
    are given by their name and the chunks that successive [read] calls return;
    the messages that mkfs prints are left out.  A failing [assert] and [die]
    end the run. *)

From S2P Require Import Prelude CInt Memory KMonad KState Blocks.
From S2P Require Import Riscv KString Vm Spinlock Sched KAlloc Console Virtio Bio Log Fs.

(** The globals [freeinode] and [freeblock], and the image. *)
Record mkst := Mkst { image : gmap Z block; freeinode : Z; freeblock : Z }.
#[export] Instance eta_mkst : EtaRecord mkst := fun s => Mkst (image s) (freeinode s) (freeblock s).

(** ** Layout *)

Definition NINODES : Z := 200.
Definition nbitmap : Z := FSSIZE / (BSIZE * 8) + 1.
Definition ninodeblocks : Z := NINODES / IPB + 1.
Definition nlog : Z := LOGSIZE.
Definition nmeta : Z := 2 + nlog + ninodeblocks + nbitmap.
Definition nblocks : Z := FSSIZE - nmeta.

(** Little-endian byte order, written out. *)
Definition xshort (x : Z) : Z := u8 x + 2 ^ 8 * u8 (Z.shiftr x 8).
Definition xint (x : Z) : Z :=
  u8 x + 2 ^ 8 * u8 (Z.shiftr x 8) + 2 ^ 16 * u8 (Z.shiftr x 16) + 2 ^ 24 * u8 (Z.shiftr x 24).

Definition mksb : superblock :=
  Superblock FSMAGIC (xint FSSIZE) (xint nblocks) (xint NINODES) (xint nlog) (xint 2)
    (xint (2 + nlog)) (xint (2 + nlog + ninodeblocks)).

(** The superblock as bytes. *)
Definition sb_block (sb : superblock) : block :=
  let p := fun b i v => put_le 4 b (4 * i) v in
  p (p (p (p (p (p (p (p zeroes 0%nat (s_magic sb)) 1%nat (s_size sb)) 2%nat (s_nblocks sb))
    3%nat (s_ninodes sb)) 4%nat (s_nlog sb)) 5%nat (s_logstart sb)) 6%nat (s_inodestart sb))
    7%nat (s_bmapstart sb).

(** ** Sectors and inodes *)

Definition wsect (sec : Z) (buf : block) : M mkst unit := fun s =>
  Ok (tt, s <| image := <[sec := buf]> (image s) |>).
Definition rsect (sec : Z) : M mkst block := fun s =>
  match image s !! sec with
  | Some b => Ok (b, s)
  | None => Panic "read"
  end.

(** [struct dinode] as its 64 bytes. *)
Definition dinode_off (inum : Z) : nat := Z.to_nat (sizeof_dinode * (inum mod IPB)).
Definition winode (inum : Z) (ip : block) : M mkst unit :=
  let bn := IBLOCK inum mksb in
  buf <- rsect bn ;;
  wsect bn (splice buf (dinode_off inum) ip).
Definition rinode (inum : Z) : M mkst block :=
  let bn := IBLOCK inum mksb in
  buf <- rsect bn ;;
  ret (take (Z.to_nat sizeof_dinode) (drop (dinode_off inum) buf)).

Definition din_size (d : block) : Z := get_le 4 d 8.
Definition set_din_size (d : block) (v : Z) : block := put_le 4 d 8 v.
Definition din_addr (d : block) (i : Z) : Z := get_le 4 d (Z.to_nat (12 + 4 * i)).
Definition set_din_addr (d : block) (i v : Z) : block := put_le 4 d (Z.to_nat (12 + 4 * i)) v.

Definition ialloc (type : Z) : M mkst Z := fun s =>
  let inum := freeinode s in
  let din := replicate (Z.to_nat sizeof_dinode) 0 in
  let din := put_le 2 din 0 (xshort type) in
  let din := put_le 2 din 6 (xshort 1) in
  let din := set_din_size din (xint 0) in
  (winode inum din ;;; ret inum) (s <| freeinode := u32 (inum + 1) |>).

(** [xint(freeblock++)] *)
Definition next_block : M mkst Z := fun s =>
  Ok (xint (freeblock s), s <| freeblock := u32 (freeblock s + 1) |>).

Definition balloc (used : Z) : M mkst unit :=
  assert_line 241 (used <? BSIZE * 8) ;;;
  let buf := fold_left (fun b i =>
      let k := Z.to_nat (i / 8) in
      <[k := Z.lor (default 0 (b !! k)) (Z.shiftl 1 (i mod 8))]> b) (seqZ 0 used) zeroes in
  wsect (s_bmapstart mksb) buf.

(** ** Appending to a file *)

(** The block number for file block [fbn], allocating it and, if needed, the
    indirect block: the number and the updated inode. *)
Definition file_block (din : block) (fbn : Z) : M mkst (Z * block) :=
  if fbn <? NDIRECT then
    din <- (if xint (din_addr din fbn) =? 0 then
              b <- next_block ;; ret (set_din_addr din fbn b)
            else ret din) ;;
    ret (xint (din_addr din fbn), din)
  else
    din <- (if xint (din_addr din NDIRECT) =? 0 then
              b <- next_block ;; ret (set_din_addr din NDIRECT b)
            else ret din) ;;
    let ind := xint (din_addr din NDIRECT) in
    let k := Z.to_nat (4 * (fbn - NDIRECT)) in
    indirect <- rsect ind ;;
    indirect <- (if get_le 4 indirect k =? 0 then
                   b <- next_block ;;
                   let indirect := put_le 4 indirect k b in
                   wsect ind indirect ;;;
                   ret indirect
                 else ret indirect) ;;
    ret (xint (get_le 4 indirect k), din).

(** [while(n > 0)]: every iteration takes at least a byte of [p]. *)
Definition iappend (inum : Z) (xp : list Z) : M mkst unit :=
  din <- rinode inum ;;
  let* (din, off) := loop (S (length xp)) (fun '(p, din, off) =>
    match p with
    | [] => ret (inr (din, off))
    | _ =>
        let n := Z.of_nat (length p) in
        let fbn := off / BSIZE in
        assert_line 267 (fbn <? MAXFILE) ;;;
        let* (x, din) := file_block din fbn in
        let n1 := Z.min n (u32 ((fbn + 1) * BSIZE - off)) in
        buf <- rsect x ;;
        wsect x (splice buf (Z.to_nat (off - fbn * BSIZE)) (take (Z.to_nat n1) p)) ;;;
        ret (inl (drop (Z.to_nat n1) p, din, u32 (off + n1)))
    end) (xp, din, xint (din_size din)) in
  winode inum (set_din_size din (xint off)).

(** ** main *)

(** [struct dirent] with the name cut and padded by [strncpy]. *)
Definition dirent (inum : Z) (name : list Z) : list Z :=
  let n := take (Z.to_nat DIRSIZ) name in
  [u8 (xshort inum); u8 (Z.shiftr (xshort inum) 8)] ++ n ++
  replicate (Z.to_nat DIRSIZ - length n) 0.

Definition user_slash : list Z := [117; 115; 101; 114; 47].
(** The name under which a file is entered: without [user/] and a leading
    underscore. *)
Definition shortname (arg : list Z) : list Z :=
  if bool_decide (take 5 arg = user_slash) then drop 5 arg else arg.
Definition strip_underscore (s : list Z) : list Z :=
  match s with 95 :: s => s | _ => s end.

Definition add_file (rootino : Z) (arg : list Z) (chunks : list (list Z)) : M mkst unit :=
  let s := shortname arg in
  assert_line 138 (negb (existsb (Z.eqb 47) s)) ;;;
  let s := strip_underscore s in
  inum <- ialloc T_FILE ;;
  iappend rootino (dirent inum s) ;;;
  fold_right (fun c k => iappend inum c ;;; k) (ret tt) chunks.

Definition mkfs (files : list (list Z * list (list Z))) : M mkst unit :=
  assert_line 85 (BSIZE mod sizeof_dinode =? 0) ;;;
  assert_line 86 (BSIZE mod sizeof_dirent =? 0) ;;;
  (fun s => Ok (tt, s <| freeblock := nmeta |>)) ;;;
  for_each (Z.to_nat FSSIZE) 0 (fun i => wsect i zeroes) ;;;
  wsect 1 (sb_block mksb) ;;;
  rootino <- ialloc T_DIR ;;
  assert_line 118 (rootino =? ROOTINO) ;;;
  iappend rootino (dirent rootino [46]) ;;;
  iappend rootino (dirent rootino [46; 46]) ;;;
  fold_right (fun f k => add_file rootino (fst f) (snd f) ;;; k) (ret tt) files ;;;
  din <- rinode rootino ;;
  let off := xint (din_size din) in
  let off := (off / BSIZE + 1) * BSIZE in
  winode rootino (set_din_size din (xint off)) ;;;
  (fun s => balloc (freeblock s) s).
