(* ===== verification/LockProof.v ===== *)
(** * What the lock operations do to the state of one thread

    [acquire] and [release] of a lock that no one holds as functions of the
    state, the bookkeeping of interrupts included; the operations on processes
    and sleep locks that are critical sections.  The later files reason about
    a critical section through [acquire_ok] and [release_ok] alone. *)

From S2P Require Import Prelude CInt Memory KMonad Riscv KState Spinlock Sched.

(** ** Interrupt bits *)

Definition SIE_off (x : Z) : Z := u64 (Z.land x (Z.lnot SSTATUS_SIE)).
Definition SIE_set (x : Z) : bool := negb (Z.land x SSTATUS_SIE =? 0).

Lemma SIE_set_spec x : SIE_set x = Z.testbit x 1.
Proof.
  unfold SIE_set. change SSTATUS_SIE with (2 ^ 1). destruct (Z.testbit x 1) eqn:E.
  - apply negb_true_iff, Z.eqb_neq. intros H0.
    assert (Z.testbit (Z.land x (2 ^ 1)) 1 = false) as H1 by (rewrite H0; apply Z.bits_0).
    rewrite Z.land_spec, E, Z.pow2_bits_true in H1 by lia. done.
  - apply negb_false_iff, Z.eqb_eq, Z.bits_inj'. intros n Hn. rewrite Z.land_spec, Z.bits_0.
    destruct (Z.eqb_spec 1 n) as [<-|H1]; [by rewrite E|].
    rewrite Z.pow2_bits_false by lia. apply andb_false_r.
Qed.

Lemma u64_testbit x n : 0 <= n -> Z.testbit (u64 x) n = Z.testbit x n && (n <? 64).
Proof.
  intros Hn. unfold u64. destruct (Z.ltb_spec n 64).
  - by rewrite Z.mod_pow2_bits_low, andb_true_r by lia.
  - by rewrite Z.mod_pow2_bits_high, andb_false_r by lia.
Qed.

Lemma testbit_high x n : 0 <= x < 2 ^ 64 -> 64 <= n -> Z.testbit x n = false.
Proof. intros Hx Hn. rewrite <- (u64_id x), u64_testbit by lia. lia. Qed.

Lemma SIE_set_off x : SIE_set (SIE_off x) = false.
Proof.
  rewrite SIE_set_spec. unfold SIE_off. rewrite u64_testbit, Z.land_spec, Z.lnot_spec by lia.
  change SSTATUS_SIE with (2 ^ 1). rewrite Z.pow2_bits_true by lia. by rewrite andb_false_r.
Qed.

Lemma SIE_off_id x : 0 <= x < 2 ^ 64 -> SIE_set x = false -> SIE_off x = x.
Proof.
  rewrite SIE_set_spec. intros Hx H1. apply Z.bits_inj'. intros n Hn. unfold SIE_off.
  rewrite u64_testbit, Z.land_spec, Z.lnot_spec by lia.
  change SSTATUS_SIE with (2 ^ 1). destruct (Z.eqb_spec 1 n) as [<-|Hne]; [by rewrite H1|].
  rewrite Z.pow2_bits_false, andb_true_r by lia.
  case_cmp; [apply andb_true_r|]. by rewrite testbit_high.
Qed.

Lemma SIE_on_off x :
  0 <= x < 2 ^ 64 -> SIE_set x = true -> u64 (Z.lor (SIE_off x) SSTATUS_SIE) = x.
Proof.
  rewrite SIE_set_spec. intros Hx H1. apply Z.bits_inj'. intros n Hn. unfold SIE_off.
  rewrite u64_testbit, Z.lor_spec, u64_testbit, Z.land_spec, Z.lnot_spec by lia.
  change SSTATUS_SIE with (2 ^ 1). destruct (Z.eqb_spec 1 n) as [<-|Hne].
  - rewrite H1, Z.pow2_bits_true by lia. done.
  - rewrite Z.pow2_bits_false by lia. case_cmp; [|by rewrite testbit_high].
    by rewrite !andb_true_r, orb_false_r.
Qed.

Lemma SIE_off_range x : 0 <= SIE_off x < 2 ^ 64.
Proof. apply u64_range. Qed.

(** ** The CPU of the running thread *)

Section Locks.
Context `{MC : Machine}.

Definition hcpu (s : kst) : nat := Z.to_nat (i32 (tp (k_hart s))).
Definition intr (s : kst) : bool := SIE_set (sstatus (k_hart s)).

(** [push_off] can be nested [d] times more, and interrupts are off inside. *)
Definition cpu_wf (d : Z) (s : kst) : Prop := exists cp,
  cpus (k_ptable s) !! hcpu s = Some cp /\ 0 <= c_noff cp /\ c_noff cp + d < 2 ^ 31 /\
  (0 < c_noff cp -> intr s = false) /\ 0 <= sstatus (k_hart s) < 2 ^ 64.

(** The recorded interrupt state is the current one outside of [push_off]. *)
Definition settled (s : kst) : Prop :=
  forall cp, cpus (k_ptable s) !! hcpu s = Some cp -> c_noff cp = 0 -> c_intena cp = intr s.
Definition cpu_ok (d : Z) (s : kst) : Prop := cpu_wf d s /\ settled s.

Definition record_intr (b : bool) (c : cpu) : cpu :=
  if c_noff c =? 0 then c <| c_intena := b |> else c.
(** The state with the current interrupt state recorded. *)
Definition settle (s : kst) : kst :=
  set k_ptable (set cpus (alter (record_intr (intr s)) (hcpu s))) s.

(** After [push_off]. *)
Definition pushed (s : kst) : kst :=
  set k_ptable (set cpus (alter (fun c => set c_noff (Z.add 1) (record_intr (intr s) c)) (hcpu s)))
    (set k_hart (set sstatus SIE_off) s).

Lemma cpu_wf_le d d' s : d' <= d -> cpu_wf d s -> cpu_wf d' s.
Proof. intros Hd (cp & ? & ? & ? & ? & ?). exists cp. split_and!; done || lia. Qed.
Lemma cpu_ok_le d d' s : d' <= d -> cpu_ok d s -> cpu_ok d' s.
Proof. intros ? []. split; [by eapply cpu_wf_le|done]. Qed.

Lemma settle_id s : settled s -> settle s = s.
Proof.
  intros Hs. unfold settle. destruct s as [h ls sls m [cs ps np ip fi] fs io b sl kp st].
  unfold set; cbn. repeat f_equal. apply list_eq. intros i. rewrite list_lookup_alter.
  case_decide as E; [|done]. unfold settled in Hs. cbn in Hs, E. subst i.
  destruct (cs !! _) as [c|] eqn:Ec; [|done]. cbn. unfold record_intr.
  destruct (Z.eqb_spec (c_noff c) 0) as [E0|]; [|done].
  specialize (Hs c eq_refl E0). destruct c. cbn in *. by rewrite <- Hs.
Qed.

Lemma push_off_ok d s : 1 <= d -> cpu_wf d s -> push_off s = Ok (tt, pushed s).
Proof.
  intros Hd (cp & Hc & Hn0 & Hn1 & _). unfold push_off, pushed. unfold bind at 1. cbn.
  unfold getcpu. unfold bind, gets. cbn. unfold hcpu in *. rewrite Hc. cbn.
  change (SIE_set (sstatus (k_hart s))) with (intr s).
  assert (forall f g, f cp = g cp -> alter f (Z.to_nat (i32 (tp (k_hart s)))) (cpus (k_ptable s))
    = alter g (Z.to_nat (i32 (tp (k_hart s)))) (cpus (k_ptable s))) as Halt.
  { intros f g Hfg. apply list_alter_ext; [|done]. intros x Hx. by simplify_eq. }
  destruct (Z.eqb_spec (c_noff cp) 0) as [E|E]; unfold setcpu, modify, ret; cbn;
    do 2 f_equal; unfold set; cbn; f_equal; f_equal.
  - rewrite list_alter_alter_eq. apply Halt. cbn. unfold record_intr.
    rewrite (proj2 (Z.eqb_eq _ _) E). cbn. f_equal. rewrite i32_id; lia.
  - apply Halt. unfold record_intr. rewrite (proj2 (Z.eqb_neq _ _) E). cbn.
    f_equal. rewrite i32_id; lia.
Qed.

(** [pop_off] undoes [push_off], up to the recorded interrupt state. *)
Lemma pop_off_ok s : cpu_wf 1 s -> pop_off (pushed s) = Ok (tt, settle s).
Proof.
  intros (cp & Hc & Hn0 & Hn1 & Hoff & Hss). unfold pop_off, settle.
  destruct s as [h ls sls m [cs ps np ip fi] fs io b sl kp st]. unfold hcpu, intr in *. cbn in *.
  unfold bind. cbn. change (negb (Z.land (SIE_off (sstatus h)) SSTATUS_SIE =? 0))
    with (SIE_set (SIE_off (sstatus h))). rewrite SIE_set_off.
  unfold getcpu, gets, bind, pushed, hcpu, intr, set. cbn. rewrite !list_lookup_alter_eq, Hc. cbn.
  assert (forall c', c_noff (record_intr c' cp) = c_noff cp) as Hnoff.
  { intros c'. unfold record_intr. by case_match. }
  rewrite Hnoff. case_cmp. cbn [setcpu modify]. unfold setcpu, modify. cbn.
  rewrite !list_lookup_alter_eq, Hc. cbn. rewrite Hnoff.
  rewrite i32_id by lia. replace (1 + c_noff cp - 1) with (c_noff cp) by lia.
  rewrite list_alter_alter_eq.
  rewrite (list_alter_ext _ (record_intr (SIE_set (sstatus h))) cs cs).
  2:{ intros x Hx. simplify_eq. cbn. unfold record_intr. destruct cp as [? n ?]; cbn in *.
      destruct (Z.eqb_spec n 0); cbn; (rewrite i32_id by lia); unfold set; cbn; f_equal; lia. }
  2: done.
  unfold ret, set; cbn. unfold record_intr at 1. destruct (Z.eqb_spec (c_noff cp) 0) as [E|E]; cbn.
  - destruct (SIE_set (sstatus h)) eqn:Ei; cbn.
    + unfold onhart, zoom, intr_on, bind, r_sstatus, w_sstatus, rd, wr. cbn.
      rewrite SIE_on_off by done. by destruct h.
    + rewrite SIE_off_id by done. by destruct h.
  - rewrite SIE_off_id by (try done; apply Hoff; lia). by destruct h.
Qed.

(** ** Acquiring and releasing *)

Definition lock_free (lk : lockid) (s : kst) : Prop :=
  exists l, k_locks s !! lk = Some l /\ locked l = 0 /\ lcpu l = None.

(** The state in which this thread holds [lk]. *)
Definition lockd (lk : lockid) (s : kst) : kst :=
  set k_locks (alter (fun l => Spin 1 (lname l) (Some (hcpu s))) lk) (pushed s).

Definition lock_of (lk : lockid) (s : kst) : spinlock := default (Spin 0 "" None) (k_locks s !! lk).

Lemma mycpu_eq s : mycpu s = Ok (hcpu s, s).
Proof. by destruct s. Qed.
Lemma holding_eq lk s : holding lk s =
  Ok (negb (locked (lock_of lk s) =? 0) && bool_decide (lcpu (lock_of lk s) = Some (hcpu s)), s).
Proof. by destruct s. Qed.
Lemma setlock_eq lk f s : setlock lk f s = Ok (tt, set k_locks <[lk := f (lock_of lk s)]> s).
Proof. done. Qed.
Lemma test_and_set_eq lk s : test_and_set lk s =
  Ok (locked (lock_of lk s), set k_locks <[lk := (lock_of lk s) <| locked := 1 |>]> s).
Proof. done. Qed.

Lemma acquire_wf d lk s :
  1 <= d -> cpu_wf d s -> lock_free lk s -> acquire lk s = Ok (tt, lockd lk s).
Proof.
  intros Hd Hc (l & Hl & H0 & H1). unfold acquire.
  rewrite (bind_ok _ _ _ _ _ (push_off_ok d s Hd Hc)).
  assert (lock_of lk (pushed s) = l) as El by (unfold lock_of; cbn; by rewrite Hl).
  rewrite (bind_ok _ _ _ _ _ (holding_eq _ _)), El, H0. cbn [negb andb Z.eqb].
  rewrite (bind_ok _ _ _ _ _ (test_and_set_eq _ _)), El, H0. cbn [negb Z.eqb].
  rewrite (bind_ok _ _ _ _ _ (mycpu_eq _)), setlock_eq. do 2 f_equal.
  unfold lockd, lock_of, set. cbn. rewrite lookup_insert_eq, insert_insert_eq. cbn. f_equal.
  apply map_eq. intros k. destruct (decide (k = lk)) as [->|Hk].
  - by rewrite lookup_insert_eq, lookup_alter_eq, Hl.
  - by rewrite lookup_insert_ne, lookup_alter_ne.
Qed.

Lemma release_wf lk s :
  cpu_wf 1 s -> lock_free lk s -> release lk (lockd lk s) = Ok (tt, settle s).
Proof.
  intros Hc (l & Hl & H0 & H1). unfold release, lock_release.
  assert (lock_of lk (lockd lk s) = Spin 1 (lname l) (Some (hcpu s))) as El.
  { unfold lock_of, lockd, set. cbn. by rewrite lookup_alter_eq, Hl. }
  rewrite (bind_ok _ _ _ _ _ (holding_eq _ _)), El. cbn [locked lcpu negb andb Z.eqb].
  rewrite bool_decide_true by done. cbn [negb].
  rewrite (bind_ok _ _ _ _ _ (setlock_eq _ _ _)), (bind_ok _ _ _ _ _ (setlock_eq _ _ _)), El.
  rewrite <- (pop_off_ok s Hc). match goal with |- pop_off ?t = _ => assert (t = pushed s) as -> end; [|done].
  unfold lockd, pushed, lock_of, set. cbn. rewrite lookup_insert_eq, insert_insert_eq. cbn. f_equal.
  apply map_eq. intros k. destruct (decide (k = lk)) as [->|Hk].
  - rewrite lookup_insert_eq, Hl. f_equal. destruct l. cbn in *. by subst.
  - by rewrite lookup_insert_ne, lookup_alter_ne.
Qed.

Lemma acquire_ok d lk s :
  1 <= d -> cpu_ok d s -> lock_free lk s -> acquire lk s = Ok (tt, lockd lk s).
Proof. intros ? []. by eapply acquire_wf. Qed.
Lemma release_ok lk s :
  cpu_ok 1 s -> lock_free lk s -> release lk (lockd lk s) = Ok (tt, s).
Proof. intros [] ?. rewrite release_wf by done. by rewrite settle_id. Qed.

(** ** Nesting *)

Lemma cpu_ok_pushed d s : cpu_ok (d + 1) s -> cpu_ok d (pushed s).
Proof.
  intros [(cp & Hc & Hn0 & Hn1 & Hoff & Hss) Hs].
  assert (cpus (k_ptable (pushed s)) !! hcpu (pushed s)
    = Some (set c_noff (Z.add 1) (record_intr (intr s) cp))) as Hc'.
  { unfold pushed, hcpu, set in *. cbn. by rewrite list_lookup_alter_eq, Hc. }
  assert (c_noff (set c_noff (Z.add 1) (record_intr (intr s) cp)) = 1 + c_noff cp) as En.
  { unfold record_intr, set. by case_match. }
  assert (intr (pushed s) = false) as Ei by apply SIE_set_off.
  split.
  - eexists. split; [exact Hc'|]. rewrite En. split_and!; try lia; [done|apply SIE_off_range..].
  - intros cp' Hcp' E0. rewrite Hc' in Hcp'. simplify_eq. lia.
Qed.
Lemma cpu_ok_lockd d lk s : cpu_ok (d + 1) s -> cpu_ok d (lockd lk s).
Proof. apply cpu_ok_pushed. Qed.
Lemma lock_free_lockd lk lk' s : lk <> lk' -> lock_free lk s -> lock_free lk (lockd lk' s).
Proof.
  intros Hne (l & Hl & H0 & H1). exists l. split; [|done].
  unfold lockd, set. cbn. by rewrite lookup_alter_ne.
Qed.

(** ** The current process *)

Definition me (s : kst) : option nat := cpus (k_ptable s) !! hcpu s ≫= c_proc.

Lemma myproc_ok d s : 1 <= d -> cpu_ok d s -> myproc s = Ok (me s, s).
Proof.
  intros Hd [Hc Hs]. assert (cpu_wf 1 s) as Hc1 by (eapply cpu_wf_le; [|done]; lia).
  unfold myproc. rewrite (bind_ok _ _ _ _ _ (push_off_ok d s Hd Hc)), (bind_ok _ _ _ _ _ (mycpu_eq _)).
  change (hcpu (pushed s)) with (hcpu s). destruct Hc as (cp & Hcp & _).
  assert (getcpu (hcpu s) (pushed s)
    = Ok (set c_noff (Z.add 1) (record_intr (intr s) cp), pushed s)) as E.
  { unfold getcpu, gets, bind, pushed, set. cbn. by rewrite list_lookup_alter_eq, Hcp. }
  rewrite (bind_ok _ _ _ _ _ E), (bind_ok _ _ _ _ _ (pop_off_ok s Hc1)), settle_id by done.
  unfold me, ret. rewrite Hcp. cbn. unfold record_intr. do 2 f_equal. by case_match.
Qed.

Lemma curproc_ok d s p : 1 <= d -> cpu_ok d s -> me s = Some p -> curproc s = Ok (p, s).
Proof. intros Hd Hc Hm. unfold curproc. by rewrite (bind_ok _ _ _ _ _ (myproc_ok d s Hd Hc)), Hm. Qed.

Lemma getproc_eq i s pr : procs (k_ptable s) !! i = Some pr -> getproc i s = Ok (pr, s).
Proof. intros E. unfold getproc, bind, gets. by rewrite E. Qed.

(** Updates of other parts of the state commute with holding a lock. *)
Lemma setproc_lockd i f lk s :
  setproc i f (lockd lk s) = Ok (tt, lockd lk (set k_ptable (set procs (alter f i)) s)).
Proof. done. Qed.

(** ** Waking up *)

Definition wake (ch : option chan) (me : option nat) (i : nat) (p : proc) : proc :=
  if bool_decide (me = Some i) then p
  else if bool_decide (p_state p = SLEEPING) && bool_decide (p_chan p = ch)
  then p <| p_state := RUNNABLE |> else p.
(** The first [n] processes woken. *)
Definition wokenn (n : nat) (ch : option chan) (s : kst) : kst :=
  set k_ptable (set procs (imap (fun i p => if bool_decide (i < n)%nat then wake ch (me s) i p else p))) s.
Definition woken (ch : option chan) (s : kst) : kst :=
  set k_ptable (set procs (imap (wake ch (me s)))) s.

Lemma set_procs_ext f g s : f (procs (k_ptable s)) = g (procs (k_ptable s)) ->
  set k_ptable (set procs f) s = set k_ptable (set procs g) s.
Proof. intros E. unfold set. cbn. by rewrite E. Qed.
Lemma set_procs_id f s : f (procs (k_ptable s)) = procs (k_ptable s) ->
  set k_ptable (set procs f) s = s.
Proof. destruct s as [h ls sls m [] fs io b sl kp st]. cbn. intros E. unfold set. cbn. by rewrite E. Qed.

Definition procs_free (s : kst) : Prop :=
  length (procs (k_ptable s)) = nproc /\ forall i, (i < nproc)%nat -> lock_free (Lproc i) s.

Lemma wokenn_O ch s : wokenn 0 ch s = s.
Proof.
  apply set_procs_id, list_eq. intros i. rewrite list_lookup_imap.
  by destruct (procs (k_ptable s) !! i).
Qed.
Lemma wokenn_all ch s : length (procs (k_ptable s)) = nproc -> wokenn nproc ch s = woken ch s.
Proof.
  intros Hl. apply set_procs_ext, list_eq. intros i. rewrite !list_lookup_imap.
  destruct (procs (k_ptable s) !! i) eqn:E; [|done]. cbn. rewrite bool_decide_true; [done|].
  apply lookup_lt_Some in E. by rewrite <- Hl.
Qed.
Lemma wokenn_S n ch s :
  wokenn (S n) ch s = set k_ptable (set procs (alter (wake ch (me s) n) n)) (wokenn n ch s).
Proof.
  transitivity (set k_ptable (set procs (fun l => alter (wake ch (me s) n) n
    (imap (fun i p => if bool_decide (i < n)%nat then wake ch (me s) i p else p) l))) s); [|done].
  apply set_procs_ext, list_eq. intros i.
  rewrite list_lookup_alter, !list_lookup_imap. case_decide as E; [subst i|];
    (destruct (procs (k_ptable s) !! _); [|done]); cbn; repeat case_bool_decide; try lia; done.
Qed.

Lemma wakeup_ptr_ok d ch s :
  2 <= d -> cpu_ok d s -> procs_free s -> wakeup_ptr ch s = Ok (tt, woken ch s).
Proof.
  intros Hd Hc [Hl Hp]. rewrite <- wokenn_all by done. unfold wakeup_ptr.
  edestruct (for_each_inv (fun j t => t = wokenn (Z.to_nat j) ch s) nproc 0) as (s' & E & ->);
    [|by rewrite wokenn_O|rewrite E; do 3 f_equal; lia].
  intros j t Hj ->. cbn [Z.add] in Hj. set (n := Z.to_nat j).
  replace (Z.to_nat (j + 1)) with (S n) by lia. rewrite wokenn_S.
  assert (cpu_ok d (wokenn n ch s)) as Hc' by exact Hc.
  destruct (lookup_lt_is_Some_2 (procs (k_ptable s)) n) as [pr Hpr]; [lia|].
  assert (procs (k_ptable (wokenn n ch s)) !! n = Some pr) as Hpr'.
  { cbn. rewrite list_lookup_imap, Hpr. cbn. by rewrite bool_decide_false by lia. }
  rewrite (bind_ok _ _ _ _ _ (myproc_ok d _ ltac:(lia) Hc')).
  change (me (wokenn n ch s)) with (me s). eexists. split; [|done].
  assert (forall f, f pr = wake ch (me s) n pr ->
    set k_ptable (set procs (alter f n)) (wokenn n ch s)
    = set k_ptable (set procs (alter (wake ch (me s) n) n)) (wokenn n ch s)) as Halt.
  { intros f Hf. apply set_procs_ext, list_alter_ext; [|done]. intros x Hx. by simplify_eq. }
  unfold wake in *. case_bool_decide as Em.
  - rewrite <- (Halt id) by done. unfold ret. do 2 f_equal. symmetry.
    by apply set_procs_id, list_alter_id.
  - assert (lock_free (Lproc n) (wokenn n ch s)) as Hf by (apply Hp; lia).
    rewrite (bind_ok _ _ _ _ _ (acquire_ok d _ _ ltac:(lia) Hc' Hf)).
    rewrite (bind_ok _ _ _ _ _ (getproc_eq n (lockd (Lproc n) (wokenn n ch s)) pr Hpr')).
    destruct (bool_decide (p_state pr = SLEEPING) && bool_decide (p_chan pr = ch)) eqn:Ew.
    + rewrite <- (Halt (set p_state (fun _ => RUNNABLE))) by done.
      rewrite (bind_ok _ _ _ _ _ (setproc_lockd _ _ _ _)).
      apply release_ok; [|exact Hf]. apply (cpu_ok_le d); [lia|exact Hc].
    + rewrite <- (Halt id) by done. rewrite bind_ret.
      rewrite release_ok; [|apply (cpu_ok_le d); [lia|exact Hc]|exact Hf].
      do 2 f_equal. symmetry. by apply set_procs_id, list_alter_id.
Qed.

Lemma me_lockd lk s : me (lockd lk s) = me s.
Proof.
  unfold me. change (hcpu (lockd lk s)) with (hcpu s). unfold lockd, pushed, set. cbn.
  rewrite list_lookup_alter_eq. destruct (cpus (k_ptable s) !! hcpu s) as [c|]; [|done]. cbn.
  unfold record_intr. by case_match.
Qed.

Lemma wakeup_lockd d ch lk s :
  2 <= d -> cpu_ok (d + 1) s -> procs_free s -> (forall i, lk <> Lproc i) ->
  wakeup ch (lockd lk s) = Ok (tt, lockd lk (woken (Some ch) s)).
Proof.
  intros Hd Hc [Hl Hp] Hlk. unfold wakeup. rewrite (wakeup_ptr_ok d); [|lia|by apply cpu_ok_lockd|].
  - unfold woken. by rewrite me_lockd.
  - split; [exact Hl|]. intros i Hi. apply lock_free_lockd; [by symmetry|auto].
Qed.

(** ** Sleep locks *)

Definition sleep_of (lk : sleepid) (s : kst) : sleeplock := default (Sleep 0 "" 0) (k_sleeplocks s !! lk).
Definition set_sleep (lk : sleepid) (l : sleeplock) (s : kst) : kst := set k_sleeplocks <[lk := l]> s.

Lemma getsleep_eq lk s : getsleep lk s = Ok (sleep_of lk s, s).
Proof. done. Qed.
Lemma setsleep_lockd lk f k s :
  setsleep lk f (lockd k s) = Ok (tt, lockd k (set_sleep lk (f (sleep_of lk s)) s)).
Proof. done. Qed.
Lemma sleep_of_set lk l s : sleep_of lk (set_sleep lk l s) = l.
Proof. unfold sleep_of, set_sleep, set. cbn. by rewrite lookup_insert_eq. Qed.
Lemma set_sleep_twice lk l l' s : set_sleep lk l' (set_sleep lk l s) = set_sleep lk l' s.
Proof. unfold set_sleep, set. cbn. by rewrite insert_insert_eq. Qed.

Section SleepLock.
Context (d : Z) (lk : sleepid) (s : kst) (p : nat) (pr : proc).
Hypothesis Hd : 3 <= d.
Hypothesis Hc : cpu_ok d s.
Hypothesis Hf : lock_free (Lsleep lk) s.
Hypothesis Hme : me s = Some p.
Hypothesis Hpr : procs (k_ptable s) !! p = Some pr.

Let Hc1 : cpu_ok 1 s.
Proof. apply (cpu_ok_le d); [lia|exact Hc]. Qed.
Let Hcl : cpu_ok 2 (lockd (Lsleep lk) s).
Proof. apply cpu_ok_lockd, (cpu_ok_le d); [lia|exact Hc]. Qed.
Let Hacq : acquire (Lsleep lk) s = Ok (tt, lockd (Lsleep lk) s).
Proof. apply (acquire_ok d); [lia|exact Hc|exact Hf]. Qed.

Lemma acquiresleep_ok :
  (0 < rounds)%nat -> sl_locked (sleep_of lk s) = 0 ->
  acquiresleep lk s = Ok (tt, set_sleep lk (Sleep 1 (sl_name (sleep_of lk s)) (p_pid pr)) s).
Proof using All.
  intros Hr H0. unfold acquiresleep. rewrite (bind_ok _ _ _ _ _ Hacq).
  destruct rounds as [|n] eqn:Er; [lia|]. cbn [loop]. rewrite !bind_assoc.
  rewrite (bind_ok _ _ _ _ _ (getsleep_eq _ _)).
  change (sleep_of lk (lockd (Lsleep lk) s)) with (sleep_of lk s). rewrite H0. cbn [negb Z.eqb].
  rewrite bind_ret, bind_ret, (bind_ok _ _ _ _ _ (setsleep_lockd _ _ _ _)).
  assert (curproc (lockd (Lsleep lk) (set_sleep lk (set sl_locked (fun _ => 1) (sleep_of lk s)) s))
    = Ok (p, lockd (Lsleep lk) (set_sleep lk (set sl_locked (fun _ => 1) (sleep_of lk s)) s))) as E.
  { apply (curproc_ok 2); [lia|exact Hcl|]. by rewrite me_lockd. }
  rewrite (bind_ok _ _ _ _ _ E). erewrite (bind_ok (getproc p)) by (apply getproc_eq; exact Hpr).
  rewrite (bind_ok _ _ _ _ _ (setsleep_lockd _ _ _ _)), sleep_of_set, set_sleep_twice.
  by rewrite release_ok.
Qed.

Lemma releasesleep_ok :
  procs_free s ->
  releasesleep lk s = Ok (tt, woken (Some (Csleep lk)) (set_sleep lk (Sleep 0 (sl_name (sleep_of lk s)) 0) s)).
Proof using All.
  intros Hp. unfold releasesleep. rewrite (bind_ok _ _ _ _ _ Hacq).
  rewrite (bind_ok _ _ _ _ _ (setsleep_lockd _ _ _ _)), (bind_ok _ _ _ _ _ (setsleep_lockd _ _ _ _)).
  rewrite sleep_of_set, set_sleep_twice.
  erewrite (bind_ok (wakeup _)) by (apply (wakeup_lockd 2);
    [lia|apply (cpu_ok_le d); [lia|exact Hc]|exact Hp|done]).
  apply release_ok; [exact Hc1|exact Hf].
Qed.

Lemma holdingsleep_ok :
  holdingsleep lk s = Ok (negb (sl_locked (sleep_of lk s) =? 0) && (sl_pid (sleep_of lk s) =? p_pid pr), s).
Proof using All.
  unfold holdingsleep. rewrite (bind_ok _ _ _ _ _ Hacq), (bind_ok _ _ _ _ _ (getsleep_eq _ _)).
  change (sleep_of lk (lockd (Lsleep lk) s)) with (sleep_of lk s).
  destruct (negb (sl_locked (sleep_of lk s) =? 0)); cbn [andb].
  - rewrite bind_assoc. erewrite (bind_ok curproc)
      by (apply (curproc_ok 2); [lia|exact Hcl|by rewrite me_lockd]).
    rewrite bind_assoc. erewrite (bind_ok (getproc p)) by (apply getproc_eq; exact Hpr).
    rewrite bind_ret.
    by rewrite (bind_ok _ _ _ _ _ (release_ok _ _ Hc1 Hf)).
  - by rewrite bind_ret, (bind_ok _ _ _ _ _ (release_ok _ _ Hc1 Hf)).
Qed.
End SleepLock.

(** ** A thread between system-wide operations

    The running thread is a process, no lock of the kernel is held, and the
    process table has its size. *)
Definition kernel_lock (lk : lockid) : Prop :=
  match lk with
  | Lproc i => (i < nproc)%nat
  | Lslab k => (k < 4)%nat
  | Lsleep (SLbuf i) => (i < NBUF)%nat
  | Lsleep (SLinode i) => (i < NINODE)%nat
  | Lpipe _ => False
  | _ => True
  end.

Record quiet (s : kst) : Prop := Quiet {
  q_cpu : cpu_ok 8 s;
  q_locks : forall lk, kernel_lock lk -> lock_free lk s;
  q_procs : length (procs (k_ptable s)) = nproc;
  q_me : exists p pr, me s = Some p /\ procs (k_ptable s) !! p = Some pr
}.

(** The process id that sleep locks record. *)
Definition mypid (s : kst) : option Z := p ← me s; p_pid <$> procs (k_ptable s) !! p.

Lemma quiet_procs_free s : quiet s -> procs_free s.
Proof. intros Q. split; [apply Q|]. intros i Hi. by apply (q_locks s Q). Qed.
Lemma quiet_cpu d s : d <= 8 -> quiet s -> cpu_ok d s.
Proof. intros Hd Q. apply (cpu_ok_le 8); [lia|apply Q]. Qed.

(** The locks, the CPUs and the process ids determine it. *)
Lemma quiet_ext s s' :
  k_hart s' = k_hart s -> k_locks s' = k_locks s -> cpus (k_ptable s') = cpus (k_ptable s) ->
  p_pid <$> procs (k_ptable s') = p_pid <$> procs (k_ptable s) -> quiet s -> quiet s'.
Proof.
  intros Eh El Ec Ep [Hc Hl Hn (p & pr & Hm & Hp)].
  assert (length (procs (k_ptable s')) = length (procs (k_ptable s))) as Elen.
  { by rewrite <- (length_fmap p_pid), Ep, length_fmap. }
  split.
  - unfold cpu_ok, cpu_wf, settled, intr, hcpu in *. by rewrite Eh, Ec.
  - intros lk Hk. destruct (Hl lk Hk) as (l & ? & ?). exists l. by rewrite El.
  - congruence.
  - destruct (lookup_lt_is_Some_2 (procs (k_ptable s')) p) as [pr' Hp'].
    { rewrite Elen. by eapply lookup_lt_Some. }
    exists p, pr'. split; [|done]. unfold me, hcpu in *. by rewrite Eh, Ec.
Qed.
Lemma mypid_ext s s' :
  k_hart s' = k_hart s -> cpus (k_ptable s') = cpus (k_ptable s) ->
  p_pid <$> procs (k_ptable s') = p_pid <$> procs (k_ptable s) -> mypid s' = mypid s.
Proof.
  intros Eh Ec Ep. unfold mypid, me, hcpu. rewrite Eh, Ec. destruct (_ ≫= c_proc) as [p|]; cbn; [|done].
  by rewrite <- !list_lookup_fmap, Ep.
Qed.

(** Waking processes keeps their ids. *)
Lemma woken_pids ch s : p_pid <$> procs (k_ptable (woken ch s)) = p_pid <$> procs (k_ptable s).
Proof.
  apply list_eq. intros i. unfold woken, set. cbn. rewrite !list_lookup_fmap, list_lookup_imap.
  destruct (procs (k_ptable s) !! i); [|done]. cbn. unfold wake. by repeat case_match.
Qed.
(** ** Initialising locks *)

Lemma initlock_eq lk nm s : initlock lk nm s = Ok (tt, set k_locks <[lk := Spin 0 nm None]> s).
Proof.
  unfold initlock. rewrite !(bind_ok _ _ _ _ _ (setlock_eq _ _ _)), setlock_eq. do 2 f_equal.
  unfold lock_of, set. cbn. repeat (rewrite ?lookup_insert_eq; cbn). by rewrite !insert_insert_eq.
Qed.
Lemma quiet_initlock lk nm s : quiet s -> quiet (set k_locks <[lk := Spin 0 nm None]> s).
Proof.
  intros [Hc Hlk Hn Hm]. split; try done. intros k Hk. destruct (Hlk k Hk) as (x & Hx & H1 & H2).
  destruct (decide (k = lk)) as [->|Hne].
  - eexists. split; [apply lookup_insert_eq|done].
  - exists x. split; [|done]. unfold set. cbn. by rewrite lookup_insert_ne.
Qed.

Lemma initsleeplock_eq lk nm s : initsleeplock lk nm s =
  Ok (tt, set_sleep lk (Sleep 0 nm 0) (set k_locks <[Lsleep lk := Spin 0 "sleep lock" None]> s)).
Proof.
  unfold initsleeplock. rewrite (bind_ok _ _ _ _ _ (initlock_eq _ _ _)). set (s1 := set k_locks _ s).
  assert (forall f t, setsleep lk f t = Ok (tt, set_sleep lk (f (sleep_of lk t)) t)) as E by done.
  rewrite !(bind_ok _ _ _ _ _ (E _ _)), E, !sleep_of_set, !set_sleep_twice. done.
Qed.
End Locks.
