(* ===== verification/BioList.v ===== *)
(** * The list of buffers

    The buffers of [bcache] are in a circular doubly linked list through
    [bcache.head], most recently used first.  This file has the list as a
    predicate, the effect of moving a buffer to the front, and what the two
    loops of [bget] find. *)

From S2P Require Import Prelude CInt Memory KMonad Riscv KState Spinlock Sched Bio.

#[export] Instance buf_inhabited : Inhabited buf := populate (Buf 0 0 0 0 0 0 0).

Definition nx (B : list buf) (i : nat) : nat := b_next (B !!! i).
Definition pv (B : list buf) (i : nat) : nat := b_prev (B !!! i).

(** ** Chains

    [chain n p a l z]: following [n] from [a] visits [l] and ends in [z], and
    [p] goes back along the same path. *)
Section Chain.
Implicit Types (n p : nat -> nat) (l : list nat).

Fixpoint chain (n p : nat -> nat) (a : nat) (l : list nat) (z : nat) : Prop :=
  match l with
  | [] => n a = z /\ p z = a
  | x :: l => n a = x /\ p x = a /\ chain n p x l z
  end.

Lemma bchain_app n p a l1 x l2 z :
  chain n p a (l1 ++ x :: l2) z <-> chain n p a l1 x /\ chain n p x l2 z.
Proof.
  revert a. induction l1 as [|y l1 IH]; intros a; cbn; [tauto|]. rewrite IH. tauto.
Qed.

Lemma chain_ext n p n' p' a l z :
  (forall i, i = a \/ i ∈ l -> n' i = n i) -> (forall i, i = z \/ i ∈ l -> p' i = p i) ->
  chain n p a l z -> chain n' p' a l z.
Proof.
  revert a. induction l as [|x l IH]; intros a Hn Hp; cbn.
  - rewrite Hn, Hp by (by left). done.
  - intros (E1 & E2 & Hc). rewrite Hn by (by left). rewrite Hp by (right; by left).
    split_and!; [done..|]. apply IH; [|intros i [->|Hi]; apply Hp; [by left|right; by right]|done].
    intros i [->|Hi]; apply Hn; right; [by left|by right].
Qed.

(** The ends of a chain. *)
Lemma chain_first n p a l z : chain n p a l z -> n a = default z (hd_error l).
Proof. by destruct l; intros []. Qed.
Lemma chain_last n p a l z : chain n p a l z -> p z = default a (last l).
Proof.
  revert a. induction l as [|x l IH]; intros a; [by intros []|].
  intros (_ & _ & Hc). rewrite (IH x Hc), last_cons. by destruct (last l).
Qed.

Definition upd (f : nat -> nat) (i v : nat) : nat -> nat := fun j => if decide (j = i) then v else f j.

(** Taking [b] out: its neighbours point to each other. *)
Lemma chain_unlink n p a l1 b l2 z :
  NoDup (a :: l1 ++ b :: l2) -> NoDup ((l1 ++ b :: l2) ++ [z]) -> chain n p a (l1 ++ b :: l2) z ->
  chain (upd n (p b) (n b)) (upd p (n b) (p b)) a (l1 ++ l2) z.
Proof.
  intros Ha Hz Hc. apply bchain_app in Hc as [H1 H2].
  rewrite (chain_last _ _ _ _ _ H1), (chain_first _ _ _ _ _ H2).
  revert a Ha H1. induction l1 as [|x l1 IH]; intros a Ha H1; cbn -[last] in *.
  - destruct H1 as [E1 E2]. destruct l2 as [|y l2]; cbn in *.
    + unfold upd. by rewrite !decide_True.
    + destruct H2 as (_ & _ & H2). rewrite !NoDup_cons in Ha, Hz.
      destruct Ha as (Ha & _ & _), Hz as (_ & Hyz & _).
      split_and!; [unfold upd; by rewrite decide_True..|].
      revert H2. apply chain_ext.
      * intros i Hi. unfold upd. rewrite decide_False; [done|]. intros ->. set_solver.
      * intros i Hi. unfold upd. rewrite decide_False; [done|]. intros ->. set_solver.
  - destruct H1 as (E1 & E2 & H1). inversion Hz as [|?? Hx Hz']; subst.
    inversion Ha as [|?? Hna Ha']; subst.
    assert (default a (last (n a :: l1)) = default (n a) (last l1)) as El by (rewrite last_cons; by destruct (last l1)).
    rewrite El. split_and!; [| |by apply IH].
    + unfold upd. rewrite decide_False; [done|]. intros E. apply Hna, elem_of_cons.
      destruct (last l1) as [y|] eqn:Ey; cbn in E; [|by left]. right. apply elem_of_app. left.
      rewrite E. by apply last_Some_elem_of.
    + unfold upd. rewrite decide_False; [done|]. intros E. apply Hx. rewrite E.
      destruct l2; cbn; set_solver.
Qed.

(** Putting [b] behind [a]. *)
Lemma chain_push n p a b l z :
  b <> a -> b <> z -> b ∉ l -> a ∉ l -> z ∉ l -> NoDup l -> chain n p a l z ->
  chain (upd (upd n b (n a)) a b) (upd (upd p b a) (n a) b) a (b :: l) z.
Proof.
  intros Hba Hbz Hbl Hal Hzl Hl Hc. rewrite (chain_first _ _ _ _ _ Hc).
  assert (default z (hd_error l) <> b) as Hne.
  { destruct l; cbn; [done|set_solver]. }
  cbn. split_and!.
  - unfold upd. by rewrite decide_True.
  - unfold upd. rewrite decide_False by done. by rewrite decide_True.
  - destruct l as [|x l]; cbn in *.
    + unfold upd. rewrite decide_False by done. by rewrite !decide_True.
    + destruct Hc as (_ & _ & Hc). split_and!; [unfold upd; rewrite ?decide_False by done; by rewrite ?decide_True by done..|].
      revert Hc. apply chain_ext.
      * intros i Hi. unfold upd. rewrite !decide_False; [done|..]; intros ->; set_solver.
      * apply NoDup_cons in Hl as [Hx _]. intros i Hi. unfold upd.
        rewrite !decide_False; [done|..]; intros ->; set_solver.
Qed.
End Chain.

Lemma chain_rev n p a l z : chain n p a l z -> chain p n z (reverse l) a.
Proof.
  revert a. induction l as [|x l IH]; intros a; [by intros []|].
  intros (E1 & E2 & Hc). rewrite reverse_cons. apply bchain_app. split; [by apply IH|done].
Qed.

(** ** The list of [bcache] *)

(** [ord] is the list, most recently used first. *)
Definition ring (B : list buf) (ord : list nat) : Prop :=
  chain (nx B) (pv B) head ord head /\ ord ≡ₚ seq 0 NBUF /\ length B = S NBUF.

(** What a buffer caches, without its links. *)
Record bcore := Core { k_valid : Z; k_dev : Z; k_bn : Z; k_ref : Z }.
Definition core (b : buf) : bcore := Core (b_valid b) (b_dev b) (b_blockno b) (b_refcnt b).

Lemma ring_elem B ord b : ring B ord -> b ∈ ord <-> (b < NBUF)%nat.
Proof. intros (_ & -> & _). rewrite elem_of_seq. lia. Qed.
Lemma ring_nodup B ord : ring B ord -> NoDup ord.
Proof. intros (_ & -> & _). apply NoDup_seq. Qed.
Lemma ring_head B ord : ring B ord -> head ∉ ord.
Proof. intros R. rewrite (ring_elem B) by done. unfold head. lia. Qed.

Section Links.
Implicit Types B : list buf.

Lemma nx_next B i v j :
  (i < length B)%nat -> nx (alter (set b_next (fun _ => v)) i B) j = upd (nx B) i v j.
Proof.
  intros Hi. unfold nx, upd. case_decide as E.
  - subst. by rewrite list_lookup_total_alter_eq.
  - by rewrite list_lookup_total_alter_ne.
Qed.
Lemma pv_prev B i v j :
  (i < length B)%nat -> pv (alter (set b_prev (fun _ => v)) i B) j = upd (pv B) i v j.
Proof.
  intros Hi. unfold pv, upd. case_decide as E.
  - subst. by rewrite list_lookup_total_alter_eq.
  - by rewrite list_lookup_total_alter_ne.
Qed.
Lemma alter_total_same {T} (f : buf -> buf) (g : buf -> T) B i j :
  (forall x, g (f x) = g x) -> g (alter f i B !!! j) = g (B !!! j).
Proof.
  intros Hg. rewrite !list_lookup_total_alt, list_lookup_alter. case_decide as E; [|done].
  subst. by destruct (B !! j); cbn.
Qed.
Lemma pv_next B i v j : pv (alter (set b_next (fun _ => v)) i B) j = pv B j.
Proof. by apply alter_total_same. Qed.
Lemma nx_prev B i v j : nx (alter (set b_prev (fun _ => v)) i B) j = nx B j.
Proof. by apply alter_total_same. Qed.
Lemma core_alter (f : buf -> buf) i B :
  (forall x, core (f x) = core x) -> core <$> alter f i B = core <$> B.
Proof.
  intros Hf. apply list_eq. intros j. rewrite !list_lookup_fmap, list_lookup_alter.
  case_decide; [subst|done]. destruct (B !! j); cbn; [by rewrite Hf|done].
Qed.

(** The six assignments at the end of [brelse]. *)
Definition unlink (b : nat) (B : list buf) : list buf :=
  let B := alter (set b_prev (fun _ => pv B b)) (nx B b) B in
  alter (set b_next (fun _ => nx B b)) (pv B b) B.
Definition link (b : nat) (B : list buf) : list buf :=
  let B := alter (set b_next (fun _ => nx B head)) b B in
  let B := alter (set b_prev (fun _ => head)) b B in
  let B := alter (set b_prev (fun _ => b)) (nx B head) B in
  alter (set b_next (fun _ => b)) head B.

Lemma core_unlink b B : core <$> unlink b B = core <$> B.
Proof. unfold unlink. by rewrite !core_alter. Qed.
Lemma core_link b B : core <$> link b B = core <$> B.
Proof. unfold link. by rewrite !core_alter. Qed.
Lemma length_unlink b B : length (unlink b B) = length B.
Proof. unfold unlink. by rewrite !length_alter. Qed.
Lemma length_link b B : length (link b B) = length B.
Proof. unfold link. by rewrite !length_alter. Qed.
End Links.

Lemma upd_ext f g i v j : (forall k, f k = g k) -> upd f i v j = upd g i v j.
Proof. intros H. unfold upd. by case_decide. Qed.

(** A link of a member of the list is a member or the head. *)
Lemma ring_links B ord b :
  ring B ord -> (b <= NBUF)%nat -> (nx B b < length B /\ pv B b < length B)%nat.
Proof.
  intros R Hb. destruct (R) as (Hc & Hp & Hl). rewrite Hl.
  assert (forall x, x ∈ ord -> (x < S NBUF)%nat) as Ho by (intros x Hx%(ring_elem B ord x R); lia).
  destruct (decide (b = head)) as [->|Hne].
  - rewrite (chain_first _ _ _ _ _ Hc), (chain_last _ _ _ _ _ Hc). unfold head in *.
    split; [destruct ord; cbn; [lia|apply Ho; by left]|].
    destruct (last ord) eqn:E; cbn; [apply Ho; by apply last_Some_elem_of|lia].
  - assert (b ∈ ord) as Hin by (apply (ring_elem B ord b R); unfold head in Hne; lia).
    apply list_elem_of_split in Hin as (l1 & l2 & ->). apply bchain_app in Hc as [H1 H2].
    rewrite (chain_first _ _ _ _ _ H2), (chain_last _ _ _ _ _ H1). unfold head in *. split.
    + destruct l2 as [|y l2]; cbn; [lia|]. apply Ho. set_solver.
    + destruct (last l1) eqn:E; cbn; [|lia]. apply last_Some_elem_of in E. apply Ho. set_solver.
Qed.

Lemma ring_unlink B l1 b l2 :
  ring B (l1 ++ b :: l2) -> chain (nx (unlink b B)) (pv (unlink b B)) head (l1 ++ l2) head.
Proof.
  intros R. pose proof (ring_nodup _ _ R) as Hnd. pose proof (ring_head _ _ R) as Hh.
  assert (b < NBUF)%nat as Hb by (apply (ring_elem _ _ _ R); set_solver).
  destruct (ring_links _ _ b R ltac:(lia)) as [L1 L2]. destruct R as (Hc & _ & _).
  eapply chain_ext; [| |eapply (chain_unlink (nx B) (pv B)); [by constructor| |done]].
  - intros i _. unfold unlink. rewrite nx_next by (rewrite length_alter, pv_prev by done;
      unfold upd; case_decide; done).
    rewrite pv_prev, nx_prev by done. unfold upd.
    rewrite nx_prev. destruct (decide (b = nx B b)); done.
  - intros i _. unfold unlink. rewrite pv_next, pv_prev by done. done.
  - apply NoDup_app. split_and!; [done|set_solver|apply NoDup_singleton].
Qed.

Lemma chain_link B b l :
  (b < NBUF)%nat -> length B = S NBUF -> (nx B head < length B)%nat -> NoDup l -> b ∉ l -> head ∉ l ->
  chain (nx B) (pv B) head l head -> chain (nx (link b B)) (pv (link b B)) head (b :: l) head.
Proof.
  intros Hb Hl Hn Hnd Hbl Hh Hc. assert (b <> head) as Hne by (unfold head; lia).
  eapply chain_ext; [| |eapply (chain_push (nx B) (pv B)); done].
  - intros i _. unfold link. rewrite nx_next by (rewrite !length_alter, Hl; unfold head; lia).
    apply upd_ext. intros k. rewrite !nx_prev. apply nx_next. lia.
  - assert (forall v, nx (alter (set b_prev (fun _ => head)) b
      (alter (set b_next (fun _ => v)) b B)) head = nx B head) as En.
    { intros v. rewrite nx_prev, nx_next by lia. unfold upd. by rewrite decide_False. }
    intros i _. unfold link. rewrite En, pv_next, pv_prev by (by rewrite !length_alter).
    apply upd_ext. intros k. rewrite pv_prev by (rewrite length_alter; lia).
    apply upd_ext. intros j. apply pv_next.
Qed.

(** Moving a buffer to the front. *)
Lemma ring_touch B ord b :
  ring B ord -> (b < NBUF)%nat -> exists ord', ring (link b (unlink b B)) ord'.
Proof.
  intros R Hb. assert (b ∈ ord) as Hin by (by apply (ring_elem B ord b R)).
  apply list_elem_of_split in Hin as (l1 & l2 & ->). exists (b :: l1 ++ l2).
  pose proof (ring_unlink _ _ _ _ R) as Hc. pose proof (ring_nodup _ _ R) as Hnd.
  pose proof (ring_head _ _ R) as Hh.
  destruct (ring_links _ _ head R ltac:(unfold head; lia)) as [Ln _]. destruct (R) as (_ & Hp & Hl).
  assert (NoDup (b :: l1 ++ l2)) as Hnd' by (by rewrite Permutation_middle).
  apply NoDup_cons in Hnd' as [Hnb Hnd'].
  split_and!.
  - apply chain_link; try done; [by rewrite length_unlink| |set_solver].
    rewrite length_unlink, Hl, (chain_first _ _ _ _ _ Hc).
    destruct (l1 ++ l2) as [|x l] eqn:E; cbn; [unfold head; lia|].
    assert (x ∈ l1 ++ b :: l2) as Hx by (rewrite <- Permutation_middle, E; set_solver).
    apply (ring_elem _ _ _ R) in Hx. lia.
  - by rewrite Permutation_middle.
  - by rewrite length_link, length_unlink.
Qed.

Lemma ring_alter f i B ord :
  (forall x, b_next (f x) = b_next x /\ b_prev (f x) = b_prev x) -> ring B ord -> ring (alter f i B) ord.
Proof.
  intros Hf (Hc & Hp & Hl). split_and!; [|done|by rewrite length_alter].
  revert Hc. apply chain_ext; intros j _; by apply alter_total_same; intros x; destruct (Hf x).
Qed.

Lemma core_alter_eq f (b : nat) (B : list buf) bf :
  B !! b = Some bf -> core <$> alter f b B = <[b := core (f bf)]> (core <$> B).
Proof.
  intros Hb. rewrite <- list_fmap_insert. f_equal.
  apply list_eq. intros j. rewrite list_lookup_alter, list_lookup_insert.
  pose proof (lookup_lt_Some _ _ _ Hb). repeat case_decide; subst; try tauto; by rewrite Hb.
Qed.

(** ** Searching *)

Section Walk.
Context `{MC : Machine} (fld : buf -> nat) (P : buf -> bool).

(** The loops of [bget], for a direction and a test. *)
Definition walk (fuel : nat) (b : nat) : K (option nat) :=
  loop fuel (fun b =>
    if negb (bool_decide (b = head)) then
      bf <- getbuf b ;;
      if P bf then ret (inr (Some b)) else ret (inl (fld bf))
    else ret (inr None)) b.

(** The first buffer along the chain that passes the test. *)
Lemma walk_ok s n p a l fuel :
  chain n p a l head -> (forall i, n i = fld (bufs (k_fs s) !!! i)) ->
  (forall i, i ∈ l -> i <> head /\ (i < length (bufs (k_fs s)))%nat) -> (length l < fuel)%nat ->
  exists r, walk fuel (n a) s = Ok (r, s) /\
    match r with
    | Some b => b ∈ l /\ P (bufs (k_fs s) !!! b) = true
    | None => forall b, b ∈ l -> P (bufs (k_fs s) !!! b) = false
    end.
Proof.
  intros Hc Hn. revert a fuel Hc. induction l as [|x l IH]; intros a fuel Hc Hl Hf;
    (destruct fuel as [|fuel]; [cbn in Hf; lia|]); unfold walk; cbn [loop].
  - destruct Hc as [-> _]. exists None. rewrite bool_decide_true by done. split; [done|].
    by intros b ?%elem_of_nil.
  - destruct Hc as (-> & _ & Hc). destruct (Hl x) as [Hx Hlt]; [by left|].
    rewrite bool_decide_false by done. cbn [negb].
    destruct (lookup_lt_is_Some_2 _ _ Hlt) as [bf Hbf].
    assert (getbuf x s = Ok (bf, s)) as E by (unfold getbuf, gets, bind; by rewrite Hbf).
    assert (bufs (k_fs s) !!! x = bf) as Et by (by apply list_lookup_total_correct).
    rewrite bind_assoc, (bind_ok _ _ _ _ _ E). destruct (P bf) eqn:EP.
    + exists (Some x). split; [done|]. rewrite Et. split; [by left|done].
    + rewrite bind_ret. cbn in Hf. destruct (IH x fuel Hc) as (r & Er & Hr); [|lia|].
      { intros i Hi. apply Hl. by right. }
      exists r. split.
      * rewrite Hn, Et in Er. exact Er.
      * destruct r as [b|]; [destruct Hr; split; [by right|done]|].
        intros b [->|Hb]%elem_of_cons; [by rewrite Et|by apply Hr].
Qed.
End Walk.
