(* ===== verification/BioInv.v ===== *)
(** * What the buffer cache promises

    The clients of bio.c see the blocks of one disk.  [cache] is their view: the
    blocks in use with their buffer and reference count, the blocks whose
    buffer lock the thread holds, the contents of every block as the cache has
    them, the contents of the disk and the history of disk writes.  [cached]
    relates it to the state of the kernel. *)

From S2P Require Import Prelude CInt Memory KMonad Riscv KState KString Blocks Spinlock Sched Bio.
From S2P Require Import LockProof BioList.

Definition bsize : nat := Z.to_nat BSIZE.
Lemma bsize_Z : Z.of_nat bsize = 1024.
Proof. done. Qed.

Section Inv.
Context `{DK : Disk}.

(** The contents of the buffers. *)
Definition block_at (m : ram) (b : nat) : list Z := rdbytes m (buf_data b) bsize.
Definition in_buf (b : nat) (x : Z) : Prop := buf_data b <= x < buf_data b + BSIZE.
Definition in_bufs (x : Z) : Prop := exists b, (b < NBUF)%nat /\ in_buf b x.

Definition bufs_backed (m : ram) : Prop :=
  0 <= ram_lo m /\ ram_hi m < 2 ^ 64 /\
  forall b, (b < NBUF)%nat -> ram_lo m <= buf_data b /\ buf_data b + BSIZE <= ram_hi m.

Lemma in_buf_disjoint b b' x : in_buf b x -> in_buf b' x -> b = b'.
Proof. unfold in_buf, buf_data, sizeof_buf, off_buf_data, BSIZE. lia. Qed.

Lemma block_at_same P m m' b :
  same_off P m m' -> (forall x, in_buf b x -> ~ P x) -> block_at m' b = block_at m b.
Proof. intros So HP. by apply (rdbytes_same_off P). Qed.
End Inv.

(** ** The disk driver

    [disk_rw] moves one block between a buffer and the disk; the driver of the
    kernel, [virtio_disk_rw], is an instance (VirtioProof).  [disk_has] are the
    numbers of the blocks that the disk has, [medium] and [trace] the disk's
    contents and its history of writes; [darea] is the memory the driver and
    the device use for themselves, [disk_ok] the driver's own invariant. *)

(** The state after the driver has used buffer [b]: besides memory and the
    devices, processes may have been woken up, and the flag that says that the
    disk owns the buffer is clear. *)
Definition driven `{Device} (b : nat) (m : ram) (io : iostate) (ps : list proc) (s : kst) : kst :=
  set k_fs (set bufs (alter (set b_disk (fun _ => 0)) b))
    (set k_ptable (set procs (fun _ => ps)) (s <| k_mem := m |> <| k_io := io |>)).

Class DiskLaws `{DK : Disk} := {
  medium : dev -> Z -> list Z;
  trace : dev -> list (Z * list Z);
  darea : Z -> Prop;
  disk_has : Z -> Prop;
  disk_ok : kst -> Prop;
  darea_buf b x : (b < NBUF)%nat -> in_buf b x -> ~ darea x;
  disk_ok_ext s s' : disk_ok s -> k_io s' = k_io s -> tp (k_hart s') = tp (k_hart s) ->
    cpus (k_ptable s') = cpus (k_ptable s) ->
    same_off (fun x => ~ darea x) (k_mem s) (k_mem s') -> disk_ok s';
  medium_length d bn : length (medium d bn) = bsize;
  disk_read s b bf : quiet s -> disk_ok s -> bufs_backed (k_mem s) ->
    (b < NBUF)%nat -> bufs (k_fs s) !! b = Some bf -> disk_has (b_blockno bf) -> exists m io ps,
    let s' := driven b m io ps s in
    disk_rw b false s = Ok (tt, s') /\ disk_ok s' /\ p_pid <$> ps = p_pid <$> procs (k_ptable s) /\
    same_off (fun x => in_buf b x \/ darea x) (k_mem s) m /\
    block_at m b = medium (devices (k_io s)) (b_blockno bf) /\
    (forall bn, medium (devices io) bn = medium (devices (k_io s)) bn) /\
    trace (devices io) = trace (devices (k_io s));
  disk_write s b bf : quiet s -> disk_ok s -> bufs_backed (k_mem s) ->
    (b < NBUF)%nat -> bufs (k_fs s) !! b = Some bf -> disk_has (b_blockno bf) -> exists m io ps,
    let s' := driven b m io ps s in
    disk_rw b true s = Ok (tt, s') /\ disk_ok s' /\ p_pid <$> ps = p_pid <$> procs (k_ptable s) /\
    same_off darea (k_mem s) m /\
    (forall bn, medium (devices io) bn =
      if decide (bn = b_blockno bf) then block_at (k_mem s) b else medium (devices (k_io s)) bn) /\
    trace (devices io) = trace (devices (k_io s)) ++ [(b_blockno bf, block_at (k_mem s) b)]
}.

(** ** The clients' view *)

Record cache := Cache {
  c_use : gmap Z (nat * Z); c_held : gset Z; c_data : Z -> list Z;
  c_medium : Z -> list Z; c_trace : list (Z * list Z)
}.

(** The buffers, as the list [Cs] of what they cache, agree with the view for
    the device number [dv].  A buffer of device 0 has never been used. *)
Record cores_ok (dv : Z) (Cs : list bcore) (use : gmap Z (nat * Z)) : Prop := {
  co_ref b c : Cs !! b = Some c -> (b < NBUF)%nat ->
    0 <= k_ref c < 2 ^ 32 /\ (k_dev c = dv \/ k_dev c = 0 /\ k_valid c = 0 /\ k_ref c = 0);
  co_uniq b b' c c' : (b < NBUF)%nat -> (b' < NBUF)%nat -> Cs !! b = Some c -> Cs !! b' = Some c' ->
    k_dev c = dv -> k_dev c' = dv -> k_bn c = k_bn c' -> b = b';
  co_use bn b r : use !! bn = Some (b, r) <->
    (b < NBUF)%nat /\ 0 < r /\ exists c, Cs !! b = Some c /\ k_dev c = dv /\ k_bn c = bn /\ k_ref c = r
}.

Section Cores.
Context (dv : Z).
Implicit Types (Cs : list bcore) (use : gmap Z (nat * Z)).

(** Changing one buffer that keeps its block, or that was not in use. *)
Lemma cores_update Cs use b o c :
  cores_ok dv Cs use -> (b < NBUF)%nat -> Cs !! b = Some o ->
  k_dev c = dv -> 0 <= k_ref c < 2 ^ 32 ->
  (k_dev o = dv /\ k_bn o = k_bn c \/
   k_ref o = 0 /\ forall b' c', (b' < NBUF)%nat -> Cs !! b' = Some c' -> k_dev c' = dv -> k_bn c' <> k_bn c) ->
  cores_ok dv (<[b := c]> Cs)
    (if decide (k_ref c = 0) then delete (k_bn c) use else <[k_bn c := (b, k_ref c)]> use).
Proof.
  intros [H1 H2 H3] Hb Ho Hd Hr Hoc.
  assert (length Cs > b)%nat as Hlen by (by eapply lookup_lt_Some).
  assert (forall b' c', (b' < NBUF)%nat -> b' <> b -> Cs !! b' = Some c' -> k_dev c' = dv ->
    k_bn c' <> k_bn c) as Hother.
  { intros b' c' Hb' Hne Hc' Hd' E. destruct Hoc as [[Ed Eb]|[_ Hf]]; [|by eapply Hf].
    apply Hne. eapply (H2 b' b c' o); try done. congruence. }
  split.
  - intros b' c' Hc' Hb'. destruct (decide (b' = b)) as [->|Hne].
    + rewrite list_lookup_insert_eq in Hc' by lia. simplify_eq. auto.
    + rewrite list_lookup_insert_ne in Hc' by done. eauto.
  - intros b1 b2 c1 c2 Hb1 Hb2 E1 E2 D1 D2 En.
    destruct (decide (b1 = b)) as [->|N1], (decide (b2 = b)) as [->|N2]; try done;
      rewrite ?list_lookup_insert_eq in E1 by lia; rewrite ?list_lookup_insert_eq in E2 by lia;
      rewrite ?list_lookup_insert_ne in E1 by done; rewrite ?list_lookup_insert_ne in E2 by done;
      simplify_eq.
    + by destruct (Hother b2 c2 Hb2 N2 E2 D2).
    + by destruct (Hother b1 c1 Hb1 N1 E1 D1).
    + by eapply (H2 b1 b2).
  - intros bn b' r.
    assert (bn = k_bn c -> use !! bn = Some (b', r) -> b' = b) as Hu.
    { intros -> Hu. apply H3 in Hu as (Hb' & _ & c' & Hc' & Hd' & Hn' & _).
      destruct (decide (b' = b)); [done|]. by destruct (Hother b' c'). }
    assert (bn <> k_bn c -> (b' < NBUF)%nat -> 0 < r -> use !! bn = Some (b', r) -> b' <> b) as Hu'.
    { intros Hn Hb' Hr' Hu' ->. apply H3 in Hu' as (_ & _ & c' & Hc' & Hd' & Hn' & Hrr). simplify_eq.
      destruct Hoc as [[_ E]|[E _]]; [congruence|lia]. }
    split.
    + intros E. assert ((b' < NBUF)%nat /\ 0 < r /\ (bn = k_bn c -> b' = b /\ r = k_ref c) /\
        (bn <> k_bn c -> use !! bn = Some (b', r))) as (Hb' & Hr' & Heq & Hneq).
      { destruct (decide (bn = k_bn c)) as [->|Hn]; case_decide;
          rewrite ?lookup_delete_eq, ?lookup_delete_ne, ?lookup_insert_eq, ?lookup_insert_ne in E by done;
          simplify_eq; try (split_and!; done || lia);
          pose proof E as (? & ? & _)%H3; split_and!; try done; by intros ->. }
      split_and!; [done..|]. destruct (decide (bn = k_bn c)) as [->|Hn].
      * destruct Heq as [-> ->]; [done|]. exists c. rewrite list_lookup_insert_eq by lia. done.
      * specialize (Hneq Hn). pose proof (Hu' Hn Hb' Hr' Hneq) as Hbb.
        apply H3 in Hneq as (_ & _ & c' & Hc' & ?). exists c'.
        by rewrite list_lookup_insert_ne by done.
    + intros (Hb' & Hr' & c' & Hc' & Hd' & Hn' & Hrr). destruct (decide (b' = b)) as [->|Hbb].
      * rewrite list_lookup_insert_eq in Hc' by lia. simplify_eq. rewrite decide_False by lia.
        by rewrite lookup_insert_eq.
      * rewrite list_lookup_insert_ne in Hc' by done. assert (bn <> k_bn c) as Hn by (subst; eauto).
        case_decide; rewrite ?lookup_delete_ne, ?lookup_insert_ne by done; apply H3; eauto 10.
Qed.
End Cores.

(** ** The invariant *)

Section Cached.
Context `{DL : DiskLaws} (dv : Z).

Definition cores (s : kst) : list bcore := core <$> bufs (k_fs s).

(** Buffer locks are held exactly for the blocks of [c_held]. *)
Definition held_by (a : cache) (b : nat) : Prop :=
  exists bn r, bn ∈ c_held a /\ c_use a !! bn = Some (b, r).
Definition lock_ok (s : kst) (a : cache) (b : nat) : Prop :=
  let l := sleep_of (SLbuf b) s in
  (held_by a b -> sl_locked l = 1 /\ mypid s = Some (sl_pid l)) /\ (~ held_by a b -> sl_locked l = 0).

(** Buffer [x] may be in use without valid contents: inside [bread]. *)
Record cachedx (x : option nat) (s : kst) (a : cache) : Prop := Cachedx {
  ca_quiet : quiet s;
  ca_ring : exists ord, ring (bufs (k_fs s)) ord;
  ca_cores : cores_ok dv (cores s) (c_use a);
  ca_valid b c : (b < NBUF)%nat -> cores s !! b = Some c -> 0 < k_ref c -> x <> Some b -> k_valid c <> 0;
  ca_data b c : (b < NBUF)%nat -> cores s !! b = Some c -> k_dev c = dv -> k_valid c <> 0 ->
    block_at (k_mem s) b = c_data a (k_bn c);
  ca_fresh b c : (b < NBUF)%nat -> cores s !! b = Some c -> k_dev c = dv -> k_valid c = 0 ->
    c_data a (k_bn c) = c_medium a (k_bn c);
  ca_clean bn : c_use a !! bn = None -> c_data a bn = c_medium a bn;
  ca_held bn : bn ∈ c_held a -> is_Some (c_use a !! bn);
  ca_lock b : (b < NBUF)%nat -> lock_ok s a b;
  ca_backed : bufs_backed (k_mem s);
  ca_medium bn : medium (devices (k_io s)) bn = c_medium a bn;
  ca_trace : trace (devices (k_io s)) = c_trace a;
  ca_disk : disk_ok s
}.
Definition cached : kst -> cache -> Prop := cachedx None.

(** What the cache leaves alone. *)
Record outside (s s' : kst) : Prop := Outside {
  o_hart : k_hart s' = k_hart s;
  o_locks : k_locks s' = k_locks s;
  o_cpus : cpus (k_ptable s') = cpus (k_ptable s);
  o_pids : p_pid <$> procs (k_ptable s') = p_pid <$> procs (k_ptable s);
  o_fs : set bufs (fun _ => []) (k_fs s') = set bufs (fun _ => []) (k_fs s);
  o_isleep i : sleep_of (SLinode i) s' = sleep_of (SLinode i) s;
  o_alloc : (k_buddy s', k_slabs s', k_kpt s') = (k_buddy s, k_slabs s, k_kpt s);
  o_mem : same_off (fun x => in_bufs x \/ darea x) (k_mem s) (k_mem s')
}.

Lemma outside_refl s : outside s s.
Proof. split; try done. Qed.
Lemma outside_trans s s' s'' : outside s s' -> outside s' s'' -> outside s s''.
Proof.
  intros [] []. split; try congruence. eapply same_off_trans; [done..|]. tauto.
Qed.
Lemma outside_log s s' : outside s s' -> logst (k_fs s') = logst (k_fs s).
Proof. intros O. pose proof (f_equal logst (o_fs _ _ O)) as E. exact E. Qed.
Lemma outside_quiet s s' : outside s s' -> quiet s -> quiet s'.
Proof. intros [] Q. by apply (quiet_ext s). Qed.
Lemma outside_mypid s s' : outside s s' -> mypid s' = mypid s.
Proof. intros []. by apply mypid_ext. Qed.

Lemma core_at s b c : cores s !! b = Some c -> exists bf, bufs (k_fs s) !! b = Some bf /\ core bf = c.
Proof. unfold cores. rewrite list_lookup_fmap. intros (bf & E & ->)%fmap_Some. eauto. Qed.
Lemma core_of s b bf : bufs (k_fs s) !! b = Some bf -> cores s !! b = Some (core bf).
Proof. unfold cores. rewrite list_lookup_fmap. by intros ->. Qed.
Lemma cores_length s ord : ring (bufs (k_fs s)) ord -> length (cores s) = S NBUF.
Proof. intros (_ & _ & ?). unfold cores. by rewrite length_fmap. Qed.

(** The buffer of a block in use. *)
Lemma use_buf s a bn b r x :
  cachedx x s a -> c_use a !! bn = Some (b, r) -> exists bf, (b < NBUF)%nat /\ bufs (k_fs s) !! b = Some bf /\
    b_dev bf = dv /\ b_blockno bf = bn /\ b_refcnt bf = r /\ 0 < r < 2 ^ 32.
Proof.
  intros C Hu. apply (co_use _ _ _ (ca_cores _ _ _ C)) in Hu as (Hb & Hr & c & Hc & Hd & Hn & Hrr).
  destruct (co_ref _ _ _ (ca_cores _ _ _ C) b c Hc Hb) as [? _].
  destruct (core_at _ _ _ Hc) as (bf & Hbf & <-). exists bf. split_and!; done || (cbn in *; lia).
Qed.

(** Two blocks in use are in different buffers. *)
Lemma use_inj s a bn bn' b r r' x :
  cachedx x s a -> c_use a !! bn = Some (b, r) -> c_use a !! bn' = Some (b, r') -> bn = bn'.
Proof.
  intros C H1 H2. destruct (use_buf _ _ _ _ _ _ C H1) as (bf & _ & E1 & _ & <- & _).
  destruct (use_buf _ _ _ _ _ _ C H2) as (bf' & _ & E2 & _ & <- & _). congruence.
Qed.
End Cached.
