(* ===== verification/BioProof.v ===== *)
(** * The operations of the buffer cache

    Each operation of bio.c on a state of the invariant: it succeeds, and its
    effect on the clients' view. *)

From S2P Require Import Prelude CInt Memory KMonad Riscv KState KString Blocks Spinlock Sched Bio LockProof BioList BioInv.

Section Ops.
Context `{DL : DiskLaws} (dv : Z) (Hrounds : (0 < rounds)%nat).
Notation cachedx := (cachedx dv).
Notation cached := (cached dv).

Definition setB (f : list buf -> list buf) (s : kst) : kst := set k_fs (set bufs f) s.

Lemma setbuf_lockd b f lk s : setbuf b f (lockd lk s) = Ok (tt, lockd lk (setB (alter f b) s)).
Proof. done. Qed.
Lemma getbuf_ok b bf s : bufs (k_fs s) !! b = Some bf -> getbuf b s = Ok (bf, s).
Proof. intros E. unfold getbuf, gets, bind. by rewrite E. Qed.

Definition use_set (b : nat) (c : bcore) (use : gmap Z (nat * Z)) : gmap Z (nat * Z) :=
  if decide (k_ref c = 0) then delete (k_bn c) use else <[k_bn c := (b, k_ref c)]> use.

Lemma use_set_ne b c use bn : bn <> k_bn c -> use_set b c use !! bn = use !! bn.
Proof. intros. unfold use_set. case_decide; [by apply lookup_delete_ne|by apply lookup_insert_ne]. Qed.
Lemma use_set_eq b c use :
  use_set b c use !! k_bn c = if decide (k_ref c = 0) then None else Some (b, k_ref c).
Proof. unfold use_set. case_decide; [by apply lookup_delete_eq|by apply lookup_insert_eq]. Qed.

(** ** Changing one buffer and its lock *)

Section Step.
Context (s s' : kst) (a : cache) (b : nat) (o c : bcore) (held : gset Z).
Hypothesis C : cached s a.
Hypothesis Hb : (b < NBUF)%nat.
Hypothesis Ho : cores s !! b = Some o.
Hypothesis Hcs : cores s' = <[b := c]> (cores s).
Hypothesis Hring : exists ord, ring (bufs (k_fs s')) ord.
Hypothesis Hdev : k_dev c = dv.
Hypothesis Href : 0 <= k_ref c < 2 ^ 32.
Hypothesis Hoc : k_dev o = dv /\ k_bn o = k_bn c \/
  k_ref o = 0 /\ forall b' c', (b' < NBUF)%nat -> cores s !! b' = Some c' -> k_dev c' = dv -> k_bn c' <> k_bn c.
Hypothesis Hval : k_valid c = k_valid o /\ k_dev o = dv /\ k_bn o = k_bn c \/ k_valid c = 0.
Hypothesis Hclean : k_ref c = 0 \/ k_valid c = 0 -> c_data a (k_bn c) = c_medium a (k_bn c).
Hypothesis Hmem : k_mem s' = k_mem s.
Hypothesis Hio : k_io s' = k_io s.
Hypothesis Hout : outside s s'.
Hypothesis Hsl : forall b', b' <> b -> sleep_of (SLbuf b') s' = sleep_of (SLbuf b') s.
Hypothesis Hheld : forall bn, bn <> k_bn c -> bn ∈ held <-> bn ∈ c_held a.
Hypothesis Hhref : k_bn c ∈ held -> 0 < k_ref c.

Let a' := Cache (use_set b c (c_use a)) held (c_data a) (c_medium a) (c_trace a).

Lemma step_cores : cores_ok dv (cores s') (c_use a').
Proof using All. rewrite Hcs. apply (cores_update dv (cores s) (c_use a) b o c); try done. apply C. Qed.

Lemma step_other b' c' : (b' < NBUF)%nat -> b' <> b -> cores s' !! b' = Some c' -> cores s !! b' = Some c'.
Proof using All. intros _ Hne. rewrite Hcs. by rewrite list_lookup_insert_ne. Qed.
Lemma step_same c' : cores s' !! b = Some c' -> c' = c.
Proof using All.
  rewrite Hcs, list_lookup_insert_eq by (by eapply lookup_lt_Some). by intros [= ->].
Qed.

Lemma step_held b' : b' <> b -> held_by a' b' <-> held_by a b'.
Proof using All.
  intros Hne. split; intros (bn & r & Hbn & Hu); exists bn, r; cbn in *.
  - destruct (decide (bn = k_bn c)) as [->|Hn].
    + rewrite use_set_eq in Hu. case_decide; simplify_eq.
    + rewrite use_set_ne in Hu by done. split; [by apply Hheld|done].
  - assert (bn <> k_bn c) as Hn.
    { intros ->. apply (co_use _ _ _ (ca_cores _ _ _ _ C)) in Hu as (Hb' & _ & c' & Hc' & Hd' & Hn' & _).
      apply Hne. symmetry. eapply (co_uniq _ _ _ step_cores b b' c c'); try done.
      - rewrite Hcs. apply list_lookup_insert_eq. by eapply lookup_lt_Some.
      - rewrite Hcs. by rewrite list_lookup_insert_ne. }
    split; [by apply Hheld|]. by rewrite use_set_ne.
Qed.

Lemma cached_step x' :
  (x' = Some b \/ x' = None /\ (0 < k_ref c -> k_valid c <> 0)) -> lock_ok s' a' b -> cachedx x' s' a'.
Proof using All.
  intros Hx Hl. pose proof step_cores as Hco. destruct C as [Q R Co V D F Cl He L B M T Dk].
  assert (forall b' c', (b' < NBUF)%nat -> b' <> b -> cores s' !! b' = Some c' -> cores s !! b' = Some c') as Hs1
    by (intros; by apply step_other).
  split; cbn [c_use c_data c_medium c_trace c_held a']; try done.
  - by apply (outside_quiet s).
  - intros b' c' Hb' Hc' Hr Hx'. destruct (decide (b' = b)) as [->|Hne].
    + apply step_same in Hc' as ->. destruct Hx as [->|[_ Hv]]; [done|by apply Hv].
    + by eapply V; eauto.
  - intros b' c' Hb' Hc' Hd' Hv. rewrite Hmem. destruct (decide (b' = b)) as [->|Hne].
    + apply step_same in Hc' as ->. destruct Hval as [(E & Ed & En)|E]; [|done].
      rewrite <- En. apply D; [done..|congruence].
    + by eapply D; eauto.
  - intros b' c' Hb' Hc' Hd' Hv. destruct (decide (b' = b)) as [->|Hne].
    + apply step_same in Hc' as ->. apply Hclean. by right.
    + by eapply F; eauto.
  - intros bn Hu. destruct (decide (bn = k_bn c)) as [->|Hn].
    + rewrite use_set_eq in Hu. case_decide; [|done]. apply Hclean. by left.
    + rewrite use_set_ne in Hu by done. by apply Cl.
  - intros bn Hbn. destruct (decide (bn = k_bn c)) as [->|Hn].
    + rewrite use_set_eq. specialize (Hhref Hbn). rewrite decide_False by lia. done.
    + rewrite use_set_ne by done. by apply He, Hheld.
  - intros b' Hb'. destruct (decide (b' = b)) as [->|Hne]; [done|].
    destruct (L b' Hb') as [L1 L2]. unfold lock_ok. rewrite (step_held b' Hne), Hsl by done.
    by rewrite (outside_mypid s s' Hout).
  - by rewrite Hmem.
  - intros bn. by rewrite Hio.
  - by rewrite Hio.
  - apply (disk_ok_ext s); [done|done|by rewrite (o_hart _ _ Hout)|apply Hout|]. rewrite Hmem. apply same_off_refl.
Qed.
End Step.

(** ** Finding a buffer *)

Lemma ring_mem s ord i : ring (bufs (k_fs s)) ord -> i ∈ ord -> i <> head /\ (i < length (bufs (k_fs s)))%nat.
Proof.
  intros R Hi. pose proof (ring_head _ _ R). apply (ring_elem _ _ _ R) in Hi as Hlt.
  destruct R as (_ & _ & Hl). split; [congruence|lia].
Qed.

Lemma total_at s ord b :
  ring (bufs (k_fs s)) ord -> (b < NBUF)%nat -> bufs (k_fs s) !! b = Some (bufs (k_fs s) !!! b).
Proof. intros (_ & _ & Hl) Hb. apply list_lookup_lookup_total_lt. lia. Qed.

Lemma head_at s ord : ring (bufs (k_fs s)) ord -> bufs (k_fs s) !! head = Some (bufs (k_fs s) !!! head).
Proof. intros (_ & _ & Hl). apply list_lookup_lookup_total_lt. unfold head. lia. Qed.

Lemma bget_cached_ok s ord lk bn :
  ring (bufs (k_fs s)) ord -> exists r, bget_cached dv bn (lockd lk s) = Ok (r, lockd lk s) /\
    match r with
    | Some b => (b < NBUF)%nat /\ exists c, cores s !! b = Some c /\ k_dev c = dv /\ k_bn c = bn
    | None => forall b c, (b < NBUF)%nat -> cores s !! b = Some c -> k_dev c = dv -> k_bn c <> bn
    end.
Proof.
  intros R. unfold bget_cached.
  erewrite (bind_ok (getbuf head)) by (apply getbuf_ok; exact (head_at _ _ R)).
  destruct (walk_ok b_next (fun bf => (b_dev bf =? dv) && (b_blockno bf =? bn)) (lockd lk s)
    (nx (bufs (k_fs s))) (pv (bufs (k_fs s))) head ord (S (S NBUF))) as (r & E & Hr).
  - apply R.
  - done.
  - intros i Hi. by apply (ring_mem s ord).
  - destruct R as (_ & -> & _). rewrite length_seq. lia.
  - exists r. split; [exact E|]. cbn in Hr. destruct r as [b|].
    + destruct Hr as [Hin HP]. bool_to_prop. apply (ring_elem _ _ _ R) in Hin. split; [done|].
      eexists. split; [apply core_of, (total_at s ord b R Hin)|done].
    + intros b c Hb Hc Hd Hn. destruct (core_at s b c Hc) as (bf & Hbf & <-).
      specialize (Hr b). rewrite (ring_elem _ _ _ R) in Hr. specialize (Hr Hb).
      rewrite (list_lookup_total_correct _ _ _ Hbf) in Hr. cbn in *.
      apply andb_false_iff in Hr as [?|?]; bool_to_prop; congruence.
Qed.

Lemma bget_lru_ok s ord lk :
  ring (bufs (k_fs s)) ord -> exists r, bget_lru (lockd lk s) = Ok (r, lockd lk s) /\
    match r with
    | Some b => (b < NBUF)%nat /\ exists c, cores s !! b = Some c /\ k_ref c = 0
    | None => forall b c, (b < NBUF)%nat -> cores s !! b = Some c -> k_ref c <> 0
    end.
Proof.
  intros R. unfold bget_lru.
  erewrite (bind_ok (getbuf head)) by (apply getbuf_ok; exact (head_at _ _ R)).
  destruct (walk_ok b_prev (fun bf => b_refcnt bf =? 0) (lockd lk s)
    (pv (bufs (k_fs s))) (nx (bufs (k_fs s))) head (reverse ord) (S (S NBUF))) as (r & E & Hr).
  - apply chain_rev, R.
  - done.
  - intros i Hi. rewrite elem_of_reverse in Hi. by apply (ring_mem s ord).
  - rewrite length_reverse. destruct R as (_ & -> & _). rewrite length_seq. lia.
  - exists r. split; [exact E|]. cbn in Hr. destruct r as [b|].
    + destruct Hr as [Hin HP]. rewrite elem_of_reverse in Hin. bool_to_prop. apply (ring_elem _ _ _ R) in Hin. split; [done|].
      eexists. split; [apply core_of, (total_at s ord b R Hin)|done].
    + intros b c Hb Hc. destruct (core_at s b c Hc) as (bf & Hbf & <-).
      specialize (Hr b). rewrite elem_of_reverse, (ring_elem _ _ _ R) in Hr. specialize (Hr Hb).
      rewrite (list_lookup_total_correct _ _ _ Hbf) in Hr. cbn in *. by bool_to_prop.
Qed.

(** A buffer is free while fewer than [NBUF] blocks are in use. *)
Lemma some_free s a :
  cached s a -> (forall b c, (b < NBUF)%nat -> cores s !! b = Some c -> k_ref c <> 0) ->
  (NBUF <= size (c_use a))%nat.
Proof.
  intros C Hall. destruct (ca_ring _ _ _ _ C) as [ord R]. pose proof (ca_cores _ _ _ _ C) as Co.
  assert (forall b, (b < NBUF)%nat -> exists c, cores s !! b = Some c /\ k_dev c = dv /\
    c_use a !! k_bn c = Some (b, k_ref c)) as Hu.
  { intros b Hb. pose proof (core_of s b _ (total_at s ord b R Hb)) as Hc.
    exists (core (bufs (k_fs s) !!! b)). destruct (co_ref _ _ _ Co _ _ Hc Hb) as [Hr Hd].
    pose proof (Hall _ _ Hb Hc). destruct Hd as [Hd|(_ & _ & ?)]; [|done].
    split_and!; [done..|]. apply (co_use _ _ _ Co). split_and!; [done|lia|]. eauto. }
  assert (forall n, (n <= NBUF)%nat -> (n <= size (filter (fun x => (fst (snd x) < n)%nat) (c_use a)))%nat) as Hn.
  { induction n as [|n IH]; intros Hn; [lia|]. destruct (Hu n) as (c & _ & _ & E); [lia|].
    etrans; [apply le_n_S, IH; lia|].
    rewrite <- (map_size_insert_None (k_bn c) (n, k_ref c)).
    - apply map_subseteq_size, insert_subseteq_l.
      + apply map_lookup_filter_Some. split; [done|cbn; lia].
      + apply map_filter_subseteq_ext. intros i x _. cbn. lia.
    - apply map_lookup_filter_None. right. intros x Hx. rewrite E in Hx. simplify_eq. cbn. lia. }
  etrans; [apply (Hn NBUF); lia|]. apply map_subseteq_size, map_filter_subseteq.
Qed.

(** ** Getting a buffer *)

Definition refs (a : cache) (bn : Z) : Z := default 0 (snd <$> c_use a !! bn).

(** Block [bn] in use once more, in buffer [b], and locked. *)
Definition grab (bn : Z) (b : nat) (a : cache) : cache :=
  Cache (<[bn := (b, refs a bn + 1)]> (c_use a)) ({[bn]} ∪ c_held a) (c_data a) (c_medium a) (c_trace a).

Lemma cached_cpu x s a d : cachedx x s a -> d <= 8 -> cpu_ok d s.
Proof. intros C Hd. apply quiet_cpu; [done|]. apply C. Qed.
Lemma cached_free x s a lk : cachedx x s a -> kernel_lock lk -> lock_free lk s.
Proof. intros C. apply q_locks, C. Qed.

(** The end of [bget]. *)
Lemma bget_tail s1 b :
  quiet s1 -> (b < NBUF)%nat -> sl_locked (sleep_of (SLbuf b) s1) = 0 ->
  exists pid, mypid s1 = Some pid /\
  (release Lbcache ;;; acquiresleep (SLbuf b) ;;; ret b) (lockd Lbcache s1)
  = Ok (b, set_sleep (SLbuf b) (Sleep 1 (sl_name (sleep_of (SLbuf b) s1)) pid) s1).
Proof using Hrounds.
  intros Q Hb Hl. destruct (q_me _ Q) as (p & pr & Hm & Hp). exists (p_pid pr). split.
  { unfold mypid. rewrite Hm. cbn. by rewrite Hp. }
  rewrite (bind_ok _ _ _ _ _ (release_ok _ _ (quiet_cpu 1 _ ltac:(lia) Q) (q_locks _ Q Lbcache I))).
  erewrite (bind_ok (acquiresleep _)); [reflexivity|].
  apply (acquiresleep_ok 8 _ s1 p pr); try done; [apply Q|by apply (q_locks _ Q)].
Qed.

Lemma outside_buf f b l s :
  outside s (set_sleep (SLbuf b) l (setB f s)).
Proof.
  split; try done. intros i. unfold sleep_of, set_sleep, set. cbn. by rewrite lookup_insert_ne.
Qed.
Lemma sleep_of_ne b b' l f s :
  b' <> b -> sleep_of (SLbuf b') (set_sleep (SLbuf b) l (setB f s)) = sleep_of (SLbuf b') s.
Proof. intros Hne. unfold sleep_of, set_sleep, set. cbn. by rewrite lookup_insert_ne by congruence. Qed.

(** Both ways to get a buffer: [c] is what buffer [b] caches afterwards. *)
Lemma get_step s a bn b f l pid o :
  cached s a -> bn ∉ c_held a -> (b < NBUF)%nat -> bufs (k_fs s) !! b = Some o ->
  (forall x, b_next (f x) = b_next x /\ b_prev (f x) = b_prev x) ->
  core (f o) = Core (b_valid (f o)) dv bn (refs a bn + 1) ->
  (b_dev o = dv /\ b_blockno o = bn /\ b_valid (f o) = b_valid o \/
   b_refcnt o = 0 /\ b_valid (f o) = 0 /\
   forall b' c', (b' < NBUF)%nat -> cores s !! b' = Some c' -> k_dev c' = dv -> k_bn c' <> bn) ->
  0 <= refs a bn -> refs a bn + 1 < 2 ^ 32 -> mypid s = Some pid ->
  cachedx (Some b) (set_sleep (SLbuf b) (Sleep 1 l pid) (setB (alter f b) s)) (grab bn b a).
Proof.
  intros C Hbn Hb Ho Hf Hcf Hoc Hr0 Hr1 Hpid. set (c := core (f o)) in *.
  assert (k_bn c = bn /\ k_ref c = refs a bn + 1 /\ k_dev c = dv) as (En & Er & Ed) by (by rewrite Hcf).
  pose proof (cached_step s (set_sleep (SLbuf b) (Sleep 1 l pid) (setB (alter f b) s)) a b (core o) c
    ({[bn]} ∪ c_held a)) as Hstep.
  rewrite Er, En, Ed in Hstep. unfold use_set in Hstep. rewrite Er, En in Hstep.
  rewrite decide_False in Hstep by lia. unfold grab. apply Hstep; clear Hstep; try done.
  - by apply core_of.
  - unfold cores, setB, set. cbn. by apply core_alter_eq.
  - destruct (ca_ring _ _ _ _ C) as [ord R]. exists ord. by apply ring_alter.
  - lia.
  - destruct Hoc as [(E1 & E2 & _)|(E1 & _ & E2)]; [left|right]; done.
  - destruct Hoc as [(E1 & E2 & E3)|(_ & E & _)]; [left|right; exact E]. done.
  - intros [?|Hv]; [lia|]. destruct Hoc as [(E1 & E2 & E3)|(E1 & _ & Hno)].
    + assert (k_valid (core o) = 0) by (cbn in *; congruence).
      rewrite <- E2. by apply (ca_fresh _ _ _ _ C b (core o) Hb (core_of _ _ _ Ho)).
    + apply (ca_clean _ _ _ _ C). destruct (c_use a !! bn) as [[b' r']|] eqn:E; [|done].
      apply (co_use _ _ _ (ca_cores _ _ _ _ C)) in E as (Hb' & _ & c' & Hc' & Hd' & Hn' & _).
      by destruct (Hno b' c').
  - apply outside_buf.
  - intros b' Hne. by apply sleep_of_ne.
  - set_solver.
  - lia.
  - by left.
  - split.
    + intros _. rewrite sleep_of_set. done.
    + intros Hn. exfalso. apply Hn. exists bn, (refs a bn + 1). cbn. split; [set_solver|by rewrite lookup_insert_eq].
Qed.

(** What [bread] needs: the thread does not hold the block, and it is in use
    already or some buffer is free. *)
Record can_get (bn : Z) (a : cache) : Prop := {
  cg_held : bn ∉ c_held a;
  cg_room : c_use a !! bn = None -> (size (c_use a) < NBUF)%nat;
  cg_refs : refs a bn + 1 < 2 ^ 32
}.

Lemma refs_nonneg x s a bn : cachedx x s a -> 0 <= refs a bn.
Proof.
  intros C. unfold refs. destruct (c_use a !! bn) as [[b r]|] eqn:E; cbn; [|lia].
  destruct (use_buf _ _ _ _ _ _ _ C E) as (bf & _ & _ & _ & _ & _ & ?). lia.
Qed.
(** The reference count of the buffer that caches a block. *)
Lemma refs_core x s a b c :
  cachedx x s a -> (b < NBUF)%nat -> cores s !! b = Some c -> k_dev c = dv -> refs a (k_bn c) = k_ref c.
Proof.
  intros C Hb Hc Hd. unfold refs. pose proof (ca_cores _ _ _ _ C) as Co.
  destruct (co_ref _ _ _ Co b c Hc Hb) as [Hr _].
  destruct (c_use a !! k_bn c) as [[b' r]|] eqn:E; cbn.
  - apply (co_use _ _ _ Co) in E as (Hb' & _ & c' & Hc' & Hd' & Hn' & <-).
    assert (b' = b) as -> by (by eapply (co_uniq _ _ _ Co b' b c' c)). congruence.
  - destruct (decide (k_ref c = 0)) as [->|Hne]; [done|].
    assert (c_use a !! k_bn c = Some (b, k_ref c)) as E' by (apply (co_use _ _ _ Co); split_and!; [done|lia|eauto]).
    congruence.
Qed.

Lemma not_held_free x s a b c :
  cachedx x s a -> (b < NBUF)%nat -> cores s !! b = Some c -> (k_bn c ∉ c_held a \/ k_ref c = 0) ->
  sl_locked (sleep_of (SLbuf b) s) = 0.
Proof.
  intros C Hb Hc Hn. apply (ca_lock _ _ _ _ C b Hb). intros (bn & r & Hin & Hu).
  apply (co_use _ _ _ (ca_cores _ _ _ _ C)) in Hu as (_ & Hr & c' & Hc' & _ & <- & <-).
  simplify_eq. destruct Hn; [done|lia].
Qed.

Lemma bget_ok s a bn :
  cached s a -> can_get bn a ->
  exists b s', bget dv bn s = Ok (b, s') /\ cachedx (Some b) s' (grab bn b a) /\ outside s s' /\
    (forall b0 r0, c_use a !! bn = Some (b0, r0) -> b = b0).
Proof using Hrounds.
  intros C [Hh Hroom Hr1]. pose proof (refs_nonneg _ _ _ bn C) as Hr0.
  destruct (ca_ring _ _ _ _ C) as [ord R]. unfold bget.
  rewrite (bind_ok _ _ _ _ _ (acquire_ok 1 _ _ ltac:(lia) (cached_cpu _ _ _ 1 C ltac:(lia))
    (cached_free _ _ _ Lbcache C I))).
  assert (forall b f o l, (b < NBUF)%nat -> bufs (k_fs s) !! b = Some o ->
    sleep_of (SLbuf b) (setB (alter f b) s) = l -> sl_locked l = 0 ->
    (forall pid, mypid s = Some pid ->
      cachedx (Some b) (set_sleep (SLbuf b) (Sleep 1 (sl_name l) pid) (setB (alter f b) s)) (grab bn b a)) ->
    (forall b0 r0, c_use a !! bn = Some (b0, r0) -> b = b0) ->
    exists b0 s', (release Lbcache ;;; acquiresleep (SLbuf b) ;;; ret b) (lockd Lbcache (setB (alter f b) s))
      = Ok (b0, s') /\ cachedx (Some b0) s' (grab bn b0 a) /\ outside s s' /\
        (forall b1 r1, c_use a !! bn = Some (b1, r1) -> b0 = b1)) as Htail.
  { intros b f o l Hb Ho <- Hl Hc Hsame. destruct (bget_tail (setB (alter f b) s) b) as (pid & Hpid & E); [|done..|].
    { apply (quiet_ext s); try done. apply C. }
    eexists _, _. split; [exact E|]. split_and!; [by apply Hc|apply outside_buf|done]. }
  destruct (bget_cached_ok s ord Lbcache bn R) as (r & E & Hr). rewrite (bind_ok _ _ _ _ _ E). clear E.
  destruct r as [b|].
  - destruct Hr as (Hb & c & Hc & Hd & <-). destruct (core_at _ _ _ Hc) as (o & Ho & <-).
    pose proof (refs_core _ _ _ _ _ C Hb Hc Hd) as Er. cbn [k_bn k_dev k_ref k_valid core] in Er, Hd, Hh, Hr0, Hr1, Hroom |- *.
    rewrite (bind_ok _ _ _ _ _ (setbuf_lockd _ _ _ _)).
    apply (Htail b _ o _ Hb Ho eq_refl).
    { apply (not_held_free _ _ _ _ _ C Hb Hc). by left. }
    { intros pid Hpid. apply (get_step s a (b_blockno o) b _ _ pid o); try done; [|by left].
      unfold core. cbn. rewrite Er, u32_id by lia. by rewrite Hd. }
    intros b0 r0 (Hb0 & _ & c0 & Hc0 & Hd0 & Hn0 & _)%(co_use _ _ _ (ca_cores _ _ _ _ C)).
    by eapply (co_uniq _ _ _ (ca_cores _ _ _ _ C) b b0 (core o) c0).
  - destruct (bget_lru_ok s ord Lbcache R) as (r & E & Hr2). rewrite (bind_ok _ _ _ _ _ E). clear E.
    assert (c_use a !! bn = None) as Hnone.
    { destruct (c_use a !! bn) as [[b r']|] eqn:E; [|done].
      apply (co_use _ _ _ (ca_cores _ _ _ _ C)) in E as (Hb & _ & c & Hc & Hd & Hn & _). by destruct (Hr b c). }
    destruct r as [b|]; [|pose proof (some_free s a C Hr2); specialize (Hroom Hnone); lia].
    destruct Hr2 as (Hb & c & Hc & Hz). destruct (core_at _ _ _ Hc) as (o & Ho & <-).
    rewrite !(bind_ok _ _ _ _ _ (setbuf_lockd _ _ _ _)).
    assert (forall f g, setB (alter f b) (setB (alter g b) s) = setB (alter (f ∘ g) b) s) as Hcomp.
    { intros f g. unfold setB, set. cbn. by rewrite list_alter_alter_eq. }
    rewrite !Hcomp. apply (Htail b _ o _ Hb Ho eq_refl).
    { apply (not_held_free _ _ _ _ _ C Hb Hc). by right. }
    { intros pid Hpid. apply (get_step s a bn b _ _ pid o); try done; [|by right].
      unfold core, refs. cbn. by rewrite Hnone. }
    intros b0 r0 Hb0. congruence.
Qed.

(** ** Reading *)

(** Once the buffer's contents are valid the exception is over. *)
Lemma cached_valid s a b c :
  cachedx (Some b) s a -> cores s !! b = Some c -> k_valid c <> 0 -> cached s a.
Proof.
  intros C Hc Hv. destruct (C) as [Q R Co V D F Cl He L B M T Dk]. split; try done.
  intros b' c' Hb' Hc' Hr _. destruct (decide (b' = b)) as [->|Hne]; [congruence|].
  apply (V b' c'); congruence.
Qed.

(** Filling the buffer from the disk. *)
Lemma cached_fill s a b bf m io ps :
  cachedx (Some b) s a -> (b < NBUF)%nat -> bufs (k_fs s) !! b = Some bf -> b_dev bf = dv ->
  b_valid bf = 0 ->
  let s1 := driven b m io ps s in
  let s2 := setB (alter (set b_valid (fun _ => 1)) b) s1 in
  disk_ok s1 -> p_pid <$> ps = p_pid <$> procs (k_ptable s) -> same_off (fun x => in_buf b x \/ darea x) (k_mem s) m ->
  block_at m b = medium (devices (k_io s)) (b_blockno bf) ->
  (forall bn, medium (devices io) bn = medium (devices (k_io s)) bn) ->
  trace (devices io) = trace (devices (k_io s)) -> cached s2 a /\ outside s s2.
Proof.
  intros C Hb Hbf Hd Hv s1 s2 Dk Ep So Eb Em Et.
  assert (outside s s2) as O.
  { split; try done. apply (same_off_weaken _ _ _ _ So). intros x [Hx|Hx]; [left; by exists b|by right]. }
  split; [|done].
  assert (cores s2 = <[b := Core 1 dv (b_blockno bf) (b_refcnt bf)]> (cores s)) as Ecs.
  { unfold cores, s2, s1, driven, setB, set. cbn. rewrite list_alter_alter_eq, (core_alter_eq _ _ _ _ Hbf). cbn. by rewrite Hd. }
  pose proof (core_of _ _ _ Hbf) as Hc. unfold core in Hc. rewrite Hd, Hv in Hc.
  assert (forall b' c', cores s2 !! b' = Some c' -> b' = b /\ c' = Core 1 dv (b_blockno bf) (b_refcnt bf) \/
    b' <> b /\ cores s !! b' = Some c') as Hcs.
  { intros b' c'. rewrite Ecs. destruct (decide (b' = b)) as [->|Hne].
    - rewrite list_lookup_insert_eq by (by eapply lookup_lt_Some). intros [= <-]. by left.
    - rewrite list_lookup_insert_ne by done. by right. }
  destruct C as [Q [ord R] Co V D F Cl He L B M T Dk0]. split; try done.
  - by apply (outside_quiet s).
  - exists ord. by apply ring_alter, ring_alter.
  - rewrite Ecs. pose proof (cores_update dv _ _ b _ (Core 1 dv (b_blockno bf) (b_refcnt bf)) Co Hb Hc) as Hu.
    cbn in Hu. assert (c_use a = if decide (b_refcnt bf = 0) then delete (b_blockno bf) (c_use a)
      else <[b_blockno bf := (b, b_refcnt bf)]> (c_use a)) as ->.
    2:{ apply Hu; [done| |by left]. by apply (co_ref _ _ _ Co b _ Hc Hb). }
    destruct (co_ref _ _ _ Co b _ Hc Hb) as [Hr _]. cbn in Hr. case_decide as E0.
    + symmetry. apply delete_id. destruct (c_use a !! b_blockno bf) as [[b' r]|] eqn:E; [|done].
      apply (co_use _ _ _ Co) in E as (Hb' & Hr' & c' & Hc' & Hd' & Hn' & <-).
      assert (b' = b) as -> by (by eapply (co_uniq _ _ _ Co b' b c')). simplify_eq. cbn in Hr'. lia.
    + symmetry. apply insert_id. apply (co_use _ _ _ Co). split_and!; [done|lia|eauto].
  - intros b' c' Hb' [[-> ->]|[Hne Hc']]%Hcs Hr _; [done|]. apply (V b' c'); try done. congruence.
  - intros b' c' Hb' [[-> ->]|[Hne Hc']]%Hcs Hd' Hv'.
    + cbn [k_bn]. etrans; [exact Eb|]. rewrite M. symmetry. by apply (F b _ Hb Hc).
    + rewrite <- (D b' c') by done. apply (block_at_same _ _ _ _ So).
      intros x Hx [Hx'|Hx']; [by apply Hne, (in_buf_disjoint _ _ x)|by apply (darea_buf b' x)].
  - intros b' c' Hb' [[-> ->]|[Hne Hc']]%Hcs Hd' Hv'; [done|]. by apply (F b' c').
  - intros b' Hb'. unfold lock_ok. rewrite (outside_mypid _ _ O). by apply (L b').
  - destruct So as (E1 & E2 & _), B as (B1 & B2 & B3). unfold bufs_backed, s2, s1, driven, setB, set. cbn.
    by rewrite E1, E2.
  - intros bn. unfold s2, s1, driven, setB, set. cbn. by rewrite Em.
  - unfold s2, s1, driven, setB, set. cbn. by rewrite Et.
  - apply (disk_ok_ext s1); [done..|apply same_off_refl].
Qed.

Lemma bread_ok s a bn :
  cached s a -> can_get bn a -> disk_has bn ->
  exists b s', bread dv bn s = Ok (b, s') /\ cached s' (grab bn b a) /\ outside s s' /\
    (forall b0 r0, c_use a !! bn = Some (b0, r0) -> b = b0).
Proof using Hrounds.
  intros C G Hbn. destruct (bget_ok s a bn C G) as (b & s1 & E & C1 & O1 & Hsame). unfold bread.
  rewrite (bind_ok _ _ _ _ _ E). clear E.
  assert (c_use (grab bn b a) !! bn = Some (b, refs a bn + 1)) as Hu by apply lookup_insert_eq.
  destruct (use_buf _ _ _ _ _ _ _ C1 Hu) as (bf & Hb & Hbf & Hd & Hn & _).
  rewrite (bind_ok _ _ _ _ _ (getbuf_ok _ _ _ Hbf)).
  destruct (Z.eqb_spec (b_valid bf) 0) as [Hv|Hv].
  - destruct (disk_read s1 b bf) as (m & io & ps & E & Dk & Ep & So & Eb & Em & Et); try done; [apply C1..|by rewrite Hn|].
    rewrite bind_assoc, (bind_ok _ _ _ _ _ E).
    destruct (cached_fill s1 _ b bf m io ps C1 Hb Hbf Hd Hv Dk Ep So Eb Em Et) as [C2 O2].
    eexists b, _. split; [reflexivity|]. split_and!; [exact C2|by eapply outside_trans|done].
  - rewrite bind_ret. exists b, s1. split_and!; [done| |done..].
    by apply (cached_valid s1 _ b (core bf) C1 (core_of _ _ _ Hbf)).
Qed.

(** ** Writing *)

(** The disk gets the contents of block [bn]. *)
Definition flush (bn : Z) (a : cache) : cache :=
  Cache (c_use a) (c_held a) (c_data a)
    (fun x => if decide (x = bn) then c_data a bn else c_medium a x)
    (c_trace a ++ [(bn, c_data a bn)]).
(** New contents for block [bn] in the cache. *)
Definition put_data (bn : Z) (v : list Z) (a : cache) : cache :=
  Cache (c_use a) (c_held a) (fun x => if decide (x = bn) then v else c_data a x)
    (c_medium a) (c_trace a).

Section Held.
Context (s : kst) (a : cache) (bn : Z) (b : nat) (r : Z).
Hypothesis C : cached s a.
Hypothesis Hu : c_use a !! bn = Some (b, r).

Lemma use_core : exists c, (b < NBUF)%nat /\ cores s !! b = Some c /\ k_dev c = dv /\ k_bn c = bn /\
  k_ref c = r /\ 0 < r < 2 ^ 32 /\ k_valid c <> 0.
Proof using All.
  destruct (use_buf _ _ _ _ _ _ _ C Hu) as (bf & Hb & Hbf & Hd & Hn & Hr & Hr').
  exists (core bf). pose proof (core_of _ _ _ Hbf) as Hc.
  repeat (split; [done || (cbn in *; lia)|]). apply (ca_valid _ _ _ _ C b); [done..| |done]. cbn. lia.
Qed.

(** The contents of the block are those of the buffer. *)
Lemma use_data : block_at (k_mem s) b = c_data a bn.
Proof using All.
  destruct use_core as (c & Hb & Hc & Hd & <- & _ & _ & Hv). by apply (ca_data _ _ _ _ C b c).
Qed.

(** Storing into the buffer. *)
Lemma cached_put m :
  same_off (in_buf b) (k_mem s) m ->
  cached (s <| k_mem := m |>) (put_data bn (block_at m b) a) /\ outside s (s <| k_mem := m |>).
Proof using All.
  intros So. destruct use_core as (c & Hb & Hc & Hd & Hn & Hr & Hr' & Hv).
  assert (outside s (s <| k_mem := m |>)) as O.
  { split; try done. apply (same_off_weaken _ _ _ _ So). intros x Hx. left. by exists b. }
  split; [|done]. pose proof C as [Q R Co V D F Cl He L B M T Dk].
  assert (forall b' c', (b' < NBUF)%nat -> cores s !! b' = Some c' -> k_dev c' = dv -> b' <> b -> k_bn c' <> bn) as Hne.
  { intros b' c' Hb' Hc' Hd' Hne E. apply Hne. apply (co_uniq _ _ _ Co b' b c' c); congruence. }
  split; try done; cbn [c_data c_medium put_data].
  - by apply (outside_quiet s).
  - intros b' c' Hb' Hc' Hd' Hv'. change (cores (s <| k_mem := m |>)) with (cores s) in Hc'.
    destruct (decide (b' = b)) as [->|Hnb].
    + simplify_eq. rewrite decide_True by done. done.
    + rewrite decide_False by eauto. rewrite <- (D b' c') by done. apply (block_at_same _ _ _ _ So).
      intros x Hx Hx'. by apply Hnb, (in_buf_disjoint _ _ x).
  - intros b' c' Hb' Hc' Hd' Hv'. change (cores (s <| k_mem := m |>)) with (cores s) in Hc'.
    destruct (decide (b' = b)) as [->|Hnb]; [congruence|]. rewrite decide_False by eauto. eauto.
  - intros bn' Hn'. cbn in Hn'. rewrite decide_False by congruence. by apply Cl.
  - destruct So as (E1 & E2 & _), B as (B1 & B2 & B3). unfold bufs_backed, set. cbn. by rewrite E1, E2.
  - apply (disk_ok_ext s); [done..|]. apply (same_off_weaken _ _ _ _ So). intros x Hx. by apply (darea_buf b).
Qed.

Hypothesis Hh : bn ∈ c_held a.

Lemma held_ok : holdingsleep (SLbuf b) s = Ok (true, s).
Proof using All.
  destruct use_core as (c & Hb & _). destruct (q_me _ (ca_quiet _ _ _ _ C)) as (p & pr & Hm & Hp).
  rewrite (holdingsleep_ok 8 _ s p pr); try done; [|apply C|by apply (cached_free _ _ _ _ C)].
  destruct (ca_lock _ _ _ _ C b Hb) as [L1 _]. destruct L1 as [-> L2]; [by exists bn, r|].
  unfold mypid in L2. rewrite Hm in L2. cbn in L2. rewrite Hp in L2. cbn in L2. injection L2 as <-.
  by rewrite Z.eqb_refl.
Qed.

Lemma bwrite_ok : disk_has bn -> exists s', bwrite b s = Ok (tt, s') /\ cached s' (flush bn a) /\ outside s s'.
Proof using All.
  intros Hbn. unfold bwrite. rewrite (bind_ok _ _ _ _ _ held_ok). cbn [negb].
  destruct (use_buf _ _ _ _ _ _ _ C Hu) as (bf & Hb & Hbf & Hd & Hn & Hr & Hr').
  pose proof use_data as Hdat. pose proof C as [Q R Co V D F Cl He L B M T Dk].
  destruct (disk_write s b bf) as (m & io & ps & E & Dk' & Ep & So & Em & Et); try done; [by rewrite Hn|].
  set (s1 := driven b m io ps s) in *.
  assert (outside s s1) as O.
  { split; try done. apply (same_off_weaken _ _ _ _ So). by right. }
  exists s1. split_and!; [done| |done].
  assert (forall b', (b' < NBUF)%nat -> block_at m b' = block_at (k_mem s) b') as Hblk.
  { intros b' Hb'. apply (block_at_same _ _ _ _ So). intros x. by apply darea_buf. }
  assert (cores s1 = cores s) as Ecs by (unfold cores, s1, driven, set; cbn; by rewrite core_alter).
  split; try done; cbn [c_data c_medium c_trace c_use flush]; rewrite ?Ecs; try done.
  - by apply (outside_quiet s).
  - destruct R as [ord R]. exists ord. by apply ring_alter.
  - intros b' c' Hb' Hc' Hd' Hv'. change (k_mem s1) with m. rewrite Hblk by done. by apply (D b' c').
  - intros b' c' Hb' Hc' Hd' Hv'. case_decide as En; [|by apply (F b' c')]. by rewrite En.
  - intros bn' Hn'. rewrite decide_False by congruence. by apply Cl.
  - intros b' Hb'. unfold lock_ok. rewrite (outside_mypid _ _ O). by apply (L b').
  - destruct So as (E1 & E2 & _), B as (B1 & B2 & B3). unfold bufs_backed, s1, driven, set. cbn. by rewrite E1, E2.
  - intros bn'. unfold s1, driven, set. cbn. rewrite Em, Hn, Hdat. case_decide; [done|apply M].
  - unfold s1, driven, set. cbn. by rewrite Et, T, Hn, Hdat.
Qed.
End Held.

(** ** Releasing, pinning and unpinning *)

(** Block [bn] with reference count [r] and the given locks held. *)
Definition with_refs (bn : Z) (b : nat) (r : Z) (held : gset Z) (a : cache) : cache :=
  Cache (if decide (r = 0) then delete bn (c_use a) else <[bn := (b, r)]> (c_use a)) held
    (c_data a) (c_medium a) (c_trace a).

Lemma getbuf_total b s :
  (b < length (bufs (k_fs s)))%nat -> getbuf b s = Ok (bufs (k_fs s) !!! b, s).
Proof. intros Hb. by apply getbuf_ok, list_lookup_lookup_total_lt. Qed.

Lemma setB_twice f g s : setB f (setB g s) = setB (fun l => f (g l)) s.
Proof. done. Qed.

(** Moving the buffer to the front of the list. *)
Lemma touch_ok lk b bf s ord :
  ring (bufs (k_fs s)) ord -> (b < NBUF)%nat -> bufs (k_fs s) !! b = Some bf ->
  (setbuf (b_next bf) (set b_prev (fun _ => b_prev bf)) ;;;
   bf <- getbuf b ;;
   setbuf (b_prev bf) (set b_next (fun _ => b_next bf)) ;;;
   h <- getbuf head ;;
   setbuf b (set b_next (fun _ => b_next h)) ;;;
   setbuf b (set b_prev (fun _ => head)) ;;;
   h <- getbuf head ;;
   setbuf (b_next h) (set b_prev (fun _ => b)) ;;;
   setbuf head (set b_next (fun _ => b))) (lockd lk s)
  = Ok (tt, lockd lk (setB (fun B => link b (unlink b B)) s)).
Proof.
  intros (_ & _ & Hl) Hb Hbf. apply list_lookup_total_correct in Hbf as <-.
  assert (b < length (bufs (k_fs s)) /\ head < length (bufs (k_fs s)))%nat as [Hb1 Hh1] by (unfold head; lia).
  repeat first
    [ rewrite (bind_ok _ _ _ _ _ (setbuf_lockd _ _ _ _))
    | erewrite (bind_ok (getbuf _)) by (apply getbuf_total; cbn; rewrite ?length_alter; assumption) ].
  done.
Qed.

(** A change of the reference count under the cache's lock. *)
Definition count (f : Z -> Z) (b : nat) (s : kst) : kst := setB (alter (set b_refcnt f) b) s.

Lemma outside_count f b s : outside s (count f b s).
Proof. by split. Qed.

Section Release.
Context (s : kst) (a : cache) (bn : Z) (b : nat) (r : Z).
Hypothesis C : cached s a.
Hypothesis Hu : c_use a !! bn = Some (b, r).

Let Hacq : acquire Lbcache s = Ok (tt, lockd Lbcache s).
Proof. apply (acquire_ok 1); [lia|apply (cached_cpu _ _ _ _ C); lia|by apply (cached_free _ _ _ _ C)]. Qed.

(** The buffer with [r'] references, unlocked state unchanged. *)
Lemma count_step f s' r' held :
  f r = r' -> 0 <= r' < 2 ^ 32 -> outside s s' -> k_mem s' = k_mem s -> k_io s' = k_io s ->
  cores s' = cores (count f b s) -> (exists ord, ring (bufs (k_fs s')) ord) ->
  (r' = 0 -> c_data a bn = c_medium a bn) ->
  (forall b', b' <> b -> sleep_of (SLbuf b') s' = sleep_of (SLbuf b') s) ->
  (forall x, x <> bn -> x ∈ held <-> x ∈ c_held a) -> (bn ∈ held -> 0 < r') ->
  lock_ok s' (with_refs bn b r' held a) b -> cached s' (with_refs bn b r' held a).
Proof using All.
  intros Ef Hr' O Em Eio Ecs Rg Hcl Hsl Hheld Hpos Hlk.
  destruct (use_core _ _ _ _ _ C Hu) as (c & Hb & Hc & Hd & Hn & Hr & Hrr & Hv).
  destruct (core_at _ _ _ Hc) as (bf & Hbf & <-). cbn in Hd, Hn, Hr, Hv.
  pose proof (cached_step s s' a b (core bf) (Core (b_valid bf) dv bn r') held C Hb Hc) as Hstep.
  unfold use_set in Hstep. cbn in Hstep. apply Hstep; try done; clear Hstep.
  - rewrite Ecs. unfold cores, count, setB, set. cbn. rewrite (core_alter_eq _ _ _ _ Hbf). cbn. by rewrite Hd, Hn, Hr, Ef.
  - by left.
  - by left.
  - intros [?|?]; [auto|done].
  - by right.
Qed.

Lemma count_same s' r' held :
  (forall l, sleep_of l s' = sleep_of l s) -> mypid s' = mypid s -> 0 < r' -> (bn ∈ held <-> bn ∈ c_held a) ->
  (forall x, x <> bn -> x ∈ held <-> x ∈ c_held a) -> lock_ok s' (with_refs bn b r' held a) b.
Proof using All.
  intros Hs Hp Hr Hb1 Hb2. destruct (use_core _ _ _ _ _ C Hu) as (c & Hb & _).
  unfold lock_ok. rewrite Hs, Hp. assert (held_by (with_refs bn b r' held a) b <-> held_by a b) as ->.
  { unfold held_by, with_refs. cbn. rewrite decide_False by lia. split; intros (x & r1 & Hx & Hux).
    - destruct (decide (x = bn)) as [->|Hne].
      + exists bn, r. split; [by apply Hb1|done].
      + rewrite lookup_insert_ne in Hux by done. exists x, r1. split; [by apply Hb2|done].
    - assert (x = bn) as -> by (by eapply (use_inj _ _ _ _ _ _ _ _ _ C Hux Hu)).
      exists bn, r'. split; [by apply Hb1|by rewrite lookup_insert_eq]. }
  apply (ca_lock _ _ _ _ C b Hb).
Qed.

Lemma count_ring f : exists ord, ring (bufs (k_fs (count f b s))) ord.
Proof using C. destruct (ca_ring _ _ _ _ C) as [ord R]. exists ord. by apply ring_alter. Qed.

Lemma bpin_cached : r + 1 < 2 ^ 32 ->
  cached (count (fun n => u32 (n + 1)) b s) (with_refs bn b (r + 1) (c_held a) a).
Proof using All.
  intros Hr. destruct (use_core _ _ _ _ _ C Hu) as (c & Hb & _ & _ & _ & _ & Hrr & _).
  apply (count_step (fun n => u32 (n + 1)) _ (r + 1) (c_held a)); try done; try lia.
  - apply u32_id. lia.
  - apply count_ring.
  - apply count_same; done || lia.
Qed.

(** [bpin] is also called with another lock held. *)
Lemma bpin_lockd lk : lk <> Lbcache ->
  bpin b (lockd lk s) = Ok (tt, lockd lk (count (fun n => u32 (n + 1)) b s)).
Proof using All.
  intros Hlk. assert (cpu_ok 7 (lockd lk s)) as Hc by (apply cpu_ok_lockd; apply (cached_cpu _ _ _ _ C); lia).
  assert (lock_free Lbcache (lockd lk s)) as Hf by (apply lock_free_lockd; [done|by apply (cached_free _ _ _ _ C)]).
  unfold bpin. rewrite (bind_ok _ _ _ _ _ (acquire_ok 7 _ _ ltac:(lia) Hc Hf)).
  rewrite (bind_ok _ _ _ _ _ (setbuf_lockd _ _ _ _)).
  apply (release_ok Lbcache (lockd lk (count (fun n => u32 (n + 1)) b s))); [|exact Hf].
  apply (cpu_ok_le 7); [lia|exact Hc].
Qed.

Lemma bunpin_ok : 1 < r -> exists s', bunpin b s = Ok (tt, s') /\
  cached s' (with_refs bn b (r - 1) (c_held a) a) /\ outside s s'.
Proof using All.
  intros Hr. destruct (use_core _ _ _ _ _ C Hu) as (c & Hb & _ & _ & _ & _ & Hrr & _). unfold bunpin.
  rewrite (bind_ok _ _ _ _ _ Hacq), (bind_ok _ _ _ _ _ (setbuf_lockd _ _ _ _)).
  rewrite release_ok; [|apply (cached_cpu _ _ _ 1 C); lia|by apply (cached_free _ _ _ _ C)].
  eexists. split; [done|]. split; [|apply outside_count].
  apply (count_step (fun n => u32 (n - 1)) _ (r - 1) (c_held a)); try done; try lia.
  - apply u32_id. lia.
  - apply count_ring.
  - apply count_same; done || lia.
Qed.

Hypothesis Hh : bn ∈ c_held a.
Hypothesis Hclean : r = 1 -> c_data a bn = c_medium a bn.

(** The buffer's lock released. *)
Let s1 := woken (Some (Csleep (SLbuf b))) (set_sleep (SLbuf b) (Sleep 0 (sl_name (sleep_of (SLbuf b) s)) 0) s).

Lemma relse_outside f : outside s (setB f s1).
Proof using C Hu.
  split; try done.
  - exact (woken_pids (Some (Csleep (SLbuf b))) (set_sleep _ _ s)).
  - intros i. unfold s1, sleep_of, woken, set_sleep, set. cbn. by rewrite lookup_insert_ne.
Qed.

Lemma relse_step f :
  core <$> f (bufs (k_fs s)) = core <$> alter (set b_refcnt (fun n => u32 (n - 1))) b (bufs (k_fs s)) ->
  (exists ord, ring (f (bufs (k_fs s))) ord) ->
  cached (setB f s1) (with_refs bn b (r - 1) (c_held a ∖ {[bn]}) a).
Proof using All.
  intros Ef Rg. destruct (use_core _ _ _ _ _ C Hu) as (c & Hb & _ & _ & _ & _ & Hrr & _).
  apply (count_step (fun n => u32 (n - 1))); try done.
  - apply u32_id. lia.
  - lia.
  - apply relse_outside.
  - intros ?. apply Hclean. lia.
  - intros b' Hne. unfold s1, sleep_of, woken, set_sleep, set. cbn. by rewrite lookup_insert_ne by congruence.
  - set_solver.
  - set_solver.
  - assert (sl_locked (sleep_of (SLbuf b) (setB f s1)) = 0) as E.
    { unfold s1, sleep_of, woken, set_sleep, set. cbn. by rewrite lookup_insert_eq. }
    split; [|done]. intros (x & r1 & Hx & Hux). exfalso. cbn in Hx.
    assert (x <> bn) as Hne by set_solver.
    assert (c_use a !! x = Some (b, r1)) as Hux'.
    { cbn in Hux. case_decide; by rewrite ?lookup_delete_ne, ?lookup_insert_ne in Hux by done. }
    by apply Hne, (use_inj _ _ _ _ _ _ _ _ _ C Hux' Hu).
Qed.

Lemma brelse_ok : exists s', brelse b s = Ok (tt, s') /\
  cached s' (with_refs bn b (r - 1) (c_held a ∖ {[bn]}) a) /\ outside s s'.
Proof using All.
  destruct (use_buf _ _ _ _ _ _ _ C Hu) as (bf & Hb & Hbf & Hd & Hn & Hr & Hrr).
  destruct (q_me _ (ca_quiet _ _ _ _ C)) as (p & pr & Hm & Hp). unfold brelse.
  rewrite (bind_ok _ _ _ _ _ (held_ok _ _ _ _ _ C Hu Hh)). cbn [negb].
  erewrite (bind_ok (releasesleep _)) by (apply (releasesleep_ok 8 _ s p pr); try done;
    [apply C|by apply (cached_free _ _ _ _ C)|by apply quiet_procs_free, C]).
  fold s1. assert (quiet s1) as Q1.
  { apply (quiet_ext s); try done; [|apply C]. exact (woken_pids (Some (Csleep (SLbuf b))) (set_sleep _ _ s)). }
  rewrite (bind_ok _ _ _ _ _ (acquire_ok 1 _ _ ltac:(lia) (quiet_cpu 1 _ ltac:(lia) Q1) (q_locks _ Q1 Lbcache I))).
  rewrite (bind_ok _ _ _ _ _ (setbuf_lockd _ _ _ _)).
  set (g := alter (set b_refcnt (fun n => u32 (n - 1))) b).
  assert (g (bufs (k_fs s)) !! b = Some (set b_refcnt (fun n => u32 (n - 1)) bf)) as Hg.
  { unfold g. by rewrite list_lookup_alter_eq, Hbf. }
  erewrite (bind_ok (getbuf b)) by (apply getbuf_ok; exact Hg).
  destruct (ca_ring _ _ _ _ C) as [ord R].
  assert (ring (g (bufs (k_fs s))) ord) as Rg by (by apply ring_alter).
  assert (forall f, release Lbcache (lockd Lbcache (setB f s1)) = Ok (tt, setB f s1)) as Hrel.
  { intros f. apply release_ok; [exact (quiet_cpu 1 _ ltac:(lia) Q1)|exact (q_locks _ Q1 Lbcache I)]. }
  destruct (b_refcnt (set b_refcnt (fun n => u32 (n - 1)) bf) =? 0) eqn:E0.
  - erewrite bind_ok; [|apply (touch_ok Lbcache b _ (setB g s1) ord); [exact Rg|done|exact Hg]].
    rewrite (setB_twice _ g). rewrite Hrel. eexists. split; [done|]. split; [|apply relse_outside].
    apply relse_step.
    + by rewrite core_link, core_unlink.
    + by apply (ring_touch _ ord).
  - rewrite bind_ret. rewrite Hrel. eexists. split; [done|]. split; [|apply relse_outside].
    apply relse_step; [done|by exists ord].
Qed.
End Release.
End Ops.

(** * Starting the buffer cache

    [binit] links the buffers into the list and establishes the invariant, with
    no block in use and the disk's contents as the cache's. *)

Section Init.
Context `{DL : DiskLaws} (dv : Z).

(** The view of a cache that has just been started. *)
Definition fresh_view (s : kst) : cache :=
  Cache ∅ ∅ (medium (devices (k_io s))) (medium (devices (k_io s))) (trace (devices (k_io s))).

(** What the loop of [binit] leaves alone. *)
Record same_rest (s t : kst) : Prop := {
  sr_quiet : quiet t;
  sr_cpu : tp (k_hart t) = tp (k_hart s) /\ cpus (k_ptable t) = cpus (k_ptable s);
  sr_mem : k_mem t = k_mem s;
  sr_io : k_io t = k_io s;
  sr_cores : cores t = cores s;
  sr_log : logst (k_fs t) = logst (k_fs s)
}.

(** After [j] buffers are linked. *)
Definition linking (s : kst) (j : Z) (t : kst) : Prop :=
  same_rest s t /\ length (bufs (k_fs t)) = S NBUF /\
  chain (nx (bufs (k_fs t))) (pv (bufs (k_fs t))) head (reverse (seq 0 (Z.to_nat j))) head /\
  forall b, (b < Z.to_nat j)%nat -> sl_locked (sleep_of (SLbuf b) t) = 0.

Lemma setbuf_eq b f (s : kst) : setbuf b f s = Ok (tt, setB (alter f b) s).
Proof. done. Qed.

(** One iteration, as a function of the state. *)
Lemma link_step b t :
  (b < NBUF)%nat -> length (bufs (k_fs t)) = S NBUF ->
  (h <- getbuf head ;;
   setbuf b (set b_next (fun _ => b_next h)) ;;;
   setbuf b (set b_prev (fun _ => head)) ;;;
   initsleeplock (SLbuf b) "buffer" ;;;
   h <- getbuf head ;;
   setbuf (b_next h) (set b_prev (fun _ => b)) ;;;
   setbuf head (set b_next (fun _ => b))) t
  = Ok (tt, setB (link b) (set_sleep (SLbuf b) (Sleep 0 "buffer" 0)
      (set k_locks <[Lsleep (SLbuf b) := Spin 0 "sleep lock" None]> t))).
Proof.
  intros Hb Hl. assert (head < length (bufs (k_fs t)))%nat as Hh by (unfold head; lia).
  rewrite (bind_ok _ _ _ _ _ (getbuf_total head t Hh)).
  rewrite !(bind_ok _ _ _ _ _ (setbuf_eq _ _ _)), (bind_ok _ _ _ _ _ (initsleeplock_eq _ _ _)).
  erewrite (bind_ok (getbuf head)) by (apply getbuf_total; cbn; rewrite !length_alter; exact Hh).
  by rewrite (bind_ok _ _ _ _ _ (setbuf_eq _ _ _)), setbuf_eq.
Qed.

Lemma linking_step s b t :
  (b < NBUF)%nat -> linking s (Z.of_nat b) t ->
  linking s (Z.of_nat b + 1) (setB (link b) (set_sleep (SLbuf b) (Sleep 0 "buffer" 0)
      (set k_locks <[Lsleep (SLbuf b) := Spin 0 "sleep lock" None]> t))).
Proof.
  intros Hb ([Q Ecpu Em Eio Ec El] & Hl & Hc & Hs). rewrite Nat2Z.id in Hc, Hs. unfold linking.
  replace (Z.to_nat (Z.of_nat b + 1)) with (S b) by lia.
  split_and!.
  - split; try done.
    + apply (quiet_ext (set k_locks <[Lsleep (SLbuf b) := Spin 0 "sleep lock" None]> t)); try done.
      by apply quiet_initlock.
    + rewrite <- Ec. unfold cores, setB, set. cbn. apply core_link.
  - change (length (link b (bufs (k_fs t))) = S NBUF). by rewrite length_link.
  - rewrite seq_S, reverse_app. cbn [reverse rev_append app].
    assert (forall x, x ∈ reverse (seq 0 b) -> (x < b)%nat) as Hin.
    { intros x. rewrite elem_of_reverse, elem_of_seq. lia. }
    match goal with |- chain (nx ?B) _ _ _ _ => change B with (link b (bufs (k_fs t))) end.
    apply chain_link; try done.
    + rewrite (chain_first _ _ _ _ _ Hc), Hl.
      destruct (reverse (seq 0 b)) as [|x l] eqn:E; cbn; [unfold head; lia|].
      specialize (Hin x). rewrite elem_of_cons in Hin. pose proof (Hin (or_introl eq_refl)). lia.
    + rewrite reverse_Permutation. apply NoDup_seq.
    + intros ?%Hin. lia.
    + intros ?%Hin. unfold head in *. lia.
  - intros b' Hb'. destruct (decide (b' = b)) as [->|Hne].
    + unfold sleep_of, set_sleep, set. cbn. by rewrite lookup_insert_eq.
    + rewrite <- (Hs b') by lia. unfold sleep_of, set_sleep, set. cbn. by rewrite lookup_insert_ne by congruence.
Qed.

Lemma binit_ok s :
  dv <> 0 -> quiet s -> length (bufs (k_fs s)) = S NBUF ->
  (forall b c, cores s !! b = Some c -> k_valid c = 0 /\ k_dev c = 0 /\ k_ref c = 0) ->
  bufs_backed (k_mem s) -> disk_ok s ->
  exists s', binit s = Ok (tt, s') /\ cached dv s' (fresh_view s) /\ logst (k_fs s') = logst (k_fs s).
Proof.
  intros Hdv Q Hl Hz B Dk. unfold binit. rewrite (bind_ok _ _ _ _ _ (initlock_eq _ _ _)).
  rewrite !(bind_ok _ _ _ _ _ (setbuf_eq _ _ _)). set (s1 := setB _ (setB _ (set k_locks _ s))).
  edestruct (for_each_inv (linking s) NBUF 0) as (s' & E & [Q' Ecpu Em Eio Ec El] & Hl' & Hc' & Hs').
  3:{ exists s'. split; [exact E|]. split; [|exact El]. replace (Z.to_nat (0 + Z.of_nat NBUF)) with NBUF in * by lia.
      assert (forall b c, cores s' !! b = Some c -> k_valid c = 0 /\ k_dev c = 0 /\ k_ref c = 0) as Hz'
        by (rewrite Ec; exact Hz).
      split; cbn [fresh_view c_use c_held c_data c_medium c_trace]; try done; rewrite ?Em, ?Eio; try done.
      - exists (reverse (seq 0 NBUF)). split_and!; [done|by rewrite reverse_Permutation|done].
      - split.
        + intros b c Hcb _. destruct (Hz' b c Hcb) as (? & ? & ?). split; [lia|]. by right.
        + intros b b' c c' _ _ Hcb _ Hd. destruct (Hz' b c Hcb) as (_ & ? & _). congruence.
        + intros bn b r. rewrite lookup_empty. split; [done|]. intros (_ & Hr & c & Hcb & _ & _ & <-).
          destruct (Hz' b c Hcb) as (_ & _ & ?). lia.
      - intros b c Hb Hcb Hr. destruct (Hz' b c Hcb) as (_ & _ & ?). lia.
      - intros b c Hb Hcb Hd. destruct (Hz' b c Hcb) as (_ & ? & _). congruence.
      - intros b Hb. split; [|intros _; by apply Hs']. intros (bn & r & Hin & _). by apply elem_of_empty in Hin.
      - apply (disk_ok_ext s); [done|done|apply Ecpu..|]. rewrite Em. apply same_off_refl. }
  2:{ assert (head < length (bufs (k_fs s)))%nat as Hh by (unfold head; lia).
      split_and!; [split; try done| | |lia].
      - apply (quiet_ext (set k_locks <[Lbcache := Spin 0 "bcache" None]> s)); try done. by apply quiet_initlock.
      - unfold s1, cores, setB, set. cbn. by rewrite !core_alter.
      - unfold s1, setB, set. cbn. by rewrite !length_alter.
      - split.
        + change (bufs (k_fs s1)) with (alter (set b_next (fun _ => head)) head (alter (set b_prev (fun _ => head)) head (bufs (k_fs s)))).
          rewrite nx_next by (by rewrite length_alter). unfold upd. by rewrite decide_True.
        + change (bufs (k_fs s1)) with (alter (set b_next (fun _ => head)) head (alter (set b_prev (fun _ => head)) head (bufs (k_fs s)))).
          rewrite pv_next, pv_prev by done. unfold upd. by rewrite decide_True. }
  intros j t Hj I. cbn [Z.add] in Hj. replace j with (Z.of_nat (Z.to_nat j)) in * by lia.
  rewrite Nat2Z.id. set (b := Z.to_nat j) in *. eexists. split; [|by apply (linking_step s b t); [lia|]].
  apply link_step; [lia|apply I].
Qed.
End Init.
