(* ===== verification/LogSpec.v ===== *)
(** * What the log promises: disks, headers and recovery

    A disk is a function from block numbers to blocks.  A commit is a list of
    block writes; a crash lets a prefix of them reach the disk.  [recovered] is
    what recovery makes of a disk.  [crash_old] and [crash_new] are the
    argument that makes the log atomic. *)

From S2P Require Import Prelude CInt Memory KMonad Riscv KState KString Blocks.

Definition disk_of := Z -> list Z.

Definition dset (d : disk_of) (bn : Z) (v : list Z) : disk_of :=
  fun x => if decide (x = bn) then v else d x.
Definition apply_writes (d : disk_of) (ws : list (Z * list Z)) : disk_of :=
  foldl (fun d w => dset d (fst w) (snd w)) d ws.

Lemma apply_writes_app d ws ws' :
  apply_writes d (ws ++ ws') = apply_writes (apply_writes d ws) ws'.
Proof. apply foldl_app. Qed.

Lemma apply_writes_ext d d' ws bn :
  (forall x, d x = d' x) -> apply_writes d ws bn = apply_writes d' ws bn.
Proof.
  revert d d'. induction ws as [|w ws IH]; intros d d' Hd; cbn; [done|]. apply IH.
  intros x. unfold dset. case_decide; [done|apply Hd].
Qed.

Lemma apply_writes_notin d ws bn : bn ∉ ws.*1 -> apply_writes d ws bn = d bn.
Proof.
  revert d. induction ws as [|[x v] ws IH]; intros d Hn; cbn; [done|].
  cbn in Hn. rewrite not_elem_of_cons in Hn. rewrite IH by apply Hn. unfold dset. by rewrite decide_False by apply Hn.
Qed.

Lemma apply_writes_in d ws bn v :
  NoDup (ws.*1) -> (bn, v) ∈ ws -> apply_writes d ws bn = v.
Proof.
  revert d. induction ws as [|[x w] ws IH]; intros d Hnd Hin; [by apply elem_of_nil in Hin|].
  cbn in *. apply NoDup_cons in Hnd as [Hx Hnd]. apply elem_of_cons in Hin as [[= <- <-]|Hin].
  - rewrite apply_writes_notin by done. unfold dset. by rewrite decide_True.
  - by apply IH.
Qed.

(** ** The header block *)

Definition hdr_cnt (b : list Z) : Z := i32 (get_le 4 b 0).
Definition hdr_blk (b : list Z) (i : nat) : Z := i32 (get_le 4 b (4 + 4 * i)).

Fixpoint put_blocks (i : nat) (l : list Z) (b : list Z) : list Z :=
  match l with
  | [] => b
  | x :: l => put_blocks (S i) l (put_le 4 b (4 + 4 * i) x)
  end.
(** The header with the blocks [l], over the old contents [b]. *)
Definition set_hdr (l : list Z) (b : list Z) : list Z :=
  put_blocks 0 l (put_le 4 b 0 (Z.of_nat (length l))).

Lemma length_put_blocks i l b : length (put_blocks i l b) = length b.
Proof. revert i b. induction l as [|x l IH]; intros i b; cbn [put_blocks]; [done|]. by rewrite IH, length_put_le. Qed.
Lemma length_set_hdr l b : length (set_hdr l b) = length b.
Proof. unfold set_hdr. by rewrite length_put_blocks, length_put_le. Qed.

Lemma put_blocks_low i l b off k :
  (off + k <= 4 + 4 * i)%nat -> get_le k (put_blocks i l b) off = get_le k b off.
Proof.
  revert i b. induction l as [|x l IH]; intros i b Hk; cbn [put_blocks]; [done|].
  rewrite IH by lia. apply get_put_le_ne. lia.
Qed.
Lemma put_blocks_get i l b j x :
  l !! j = Some x -> (4 + 4 * (i + length l) <= length b)%nat ->
  get_le 4 (put_blocks i l b) (4 + 4 * (i + j)) = x mod 2 ^ 32.
Proof.
  revert i b j. induction l as [|y l IH]; intros i b j Hj Hlen; [done|]. cbn [put_blocks].
  cbn [length] in Hlen. destruct j as [|j]; cbn in Hj.
  - injection Hj as ->. rewrite put_blocks_low by lia. rewrite Nat.add_0_r. apply get_put_le. lia.
  - replace (i + S j)%nat with (S i + j)%nat by lia. apply IH; [done|]. rewrite length_put_le. lia.
Qed.

Lemma put_blocks_snoc i l x b :
  put_blocks i (l ++ [x]) b = put_le 4 (put_blocks i l b) (4 + 4 * (i + length l)) x.
Proof.
  revert i b. induction l as [|y l IH]; intros i b; cbn [put_blocks app length].
  - by rewrite Nat.add_0_r.
  - rewrite IH. by replace (S i + length l)%nat with (i + S (length l))%nat by lia.
Qed.

Lemma i32_mod z : i32 (z mod 2 ^ 32) = i32 z.
Proof. unfold i32. by rewrite Zplus_mod_idemp_l. Qed.

Lemma hdr_cnt_set l b :
  (4 <= length b)%nat -> Z.of_nat (length l) < 2 ^ 31 -> hdr_cnt (set_hdr l b) = Z.of_nat (length l).
Proof.
  intros Hb Hl. unfold hdr_cnt, set_hdr. rewrite put_blocks_low by lia. rewrite get_put_le by lia.
  change (256 ^ Z.of_nat 4) with (2 ^ 32). rewrite i32_mod. apply i32_id. lia.
Qed.
Lemma hdr_blk_set l b j x :
  l !! j = Some x -> (4 + 4 * length l <= length b)%nat -> hdr_blk (set_hdr l b) j = i32 x.
Proof.
  intros Hj Hl. unfold hdr_blk, set_hdr. rewrite (put_blocks_get 0 l _ j x Hj).
  - apply i32_mod.
  - by rewrite length_put_le.
Qed.

(** ** Recovery *)

(** The writes of recovery: each block named by the header from its copy in
    the log. *)
Definition install_writes (ls : Z) (d : disk_of) : list (Z * list Z) :=
  (fun i => (u32 (hdr_blk (d ls) i), d (ls + 1 + Z.of_nat i))) <$> seq 0 (Z.to_nat (hdr_cnt (d ls))).
Definition recovered (ls : Z) (d : disk_of) : disk_of := apply_writes d (install_writes ls d).

(** Blocks of a log of [nl] blocks, the header among them. *)
Definition in_log (ls nl bn : Z) : Prop := ls <= bn < ls + nl.

Section Crash.
Context (ls nl : Z) (d : disk_of) (hb : list Z) (vs : list (list Z)).
Hypothesis Hlen : length vs = length hb.
Hypothesis Hmax : Z.of_nat (length hb) <= LOGSIZE.
Hypothesis Hfits : Z.of_nat (length hb) < nl.
Hypothesis Hnd : NoDup hb.
Hypothesis Hhome : forall x, x ∈ hb -> 0 <= x < 2 ^ 31 /\ ~ in_log ls nl x.
Hypothesis Hhdr : length (d ls) = Z.to_nat BSIZE.
Hypothesis Hempty : hdr_cnt (d ls) = 0.

Definition log_writes : list (Z * list Z) := imap (fun i v => (ls + 1 + Z.of_nat i, v)) vs.
Definition commit_writes : list (Z * list Z) :=
  log_writes ++ [(ls, set_hdr hb (d ls))] ++ zip hb vs ++ [(ls, set_hdr [] (set_hdr hb (d ls)))].
(** The disk with the transaction applied. *)
Definition committed : disk_of := apply_writes d (zip hb vs).

Lemma log_writes_fst x : x ∈ (log_writes).*1 -> ls < x < ls + nl.
Proof using All.
  unfold log_writes. rewrite list_elem_of_fmap. intros ([y v] & -> & Hy).
  apply list_elem_of_lookup in Hy as [i Hi]. rewrite list_lookup_imap in Hi.
  apply fmap_Some in Hi as (w & Hw & [= -> ->]). apply lookup_lt_Some in Hw. cbn. lia.
Qed.
Lemma zip_fst : (zip hb vs).*1 = hb.
Proof using Hlen. apply fst_zip. by rewrite Hlen. Qed.

Lemma recovered_none d' : hdr_cnt (d' ls) = 0 -> recovered ls d' = d'.
Proof using. intros E. unfold recovered, install_writes. by rewrite E. Qed.

(** Before the header is written the transaction has not happened. *)
Lemma crash_old k bn :
  (k <= length hb)%nat -> ~ in_log ls nl bn ->
  recovered ls (apply_writes d (take k commit_writes)) bn = d bn.
Proof using All.
  intros Hk Hbn. assert (take k commit_writes = take k log_writes) as ->.
  { unfold commit_writes. rewrite take_app_le; [done|]. unfold log_writes. rewrite length_imap. lia. }
  assert (forall x, x ∈ (take k log_writes).*1 -> ls < x < ls + nl) as Hin.
  { intros x Hx. apply log_writes_fst. rewrite fmap_take, elem_of_take in Hx.
    destruct Hx as (i & Hi & _). by eapply list_elem_of_lookup_2. }
  rewrite recovered_none.
  - apply apply_writes_notin. intros Hx%Hin. apply Hbn. unfold in_log. lia.
  - rewrite apply_writes_notin; [done|]. intros Hx%Hin. lia.
Qed.

(** The disk after the log and the header are written and [ws] of the home
    blocks. *)
Definition logged (ws : list (Z * list Z)) : disk_of :=
  apply_writes (apply_writes d (log_writes ++ [(ls, set_hdr hb (d ls))])) ws.

Lemma logged_hdr ws : ls ∉ ws.*1 -> logged ws ls = set_hdr hb (d ls).
Proof using All.
  intros Hw. unfold logged. rewrite apply_writes_notin, apply_writes_app by done. cbn. unfold dset.
  by rewrite decide_True.
Qed.
Lemma logged_copy ws i v :
  vs !! i = Some v -> (ls + 1 + Z.of_nat i) ∉ ws.*1 -> logged ws (ls + 1 + Z.of_nat i) = v.
Proof using All.
  intros Hi Hw. unfold logged. rewrite apply_writes_notin, apply_writes_app by done. cbn. unfold dset.
  rewrite decide_False by lia. apply apply_writes_in.
  - apply NoDup_alt. intros x y z. rewrite !list_lookup_fmap. unfold log_writes. rewrite !list_lookup_imap.
    destruct (vs !! x), (vs !! y); cbn; try done. intros [= <-] [= E]. lia.
  - apply list_elem_of_lookup. exists i. unfold log_writes. by rewrite list_lookup_imap, Hi.
Qed.
Lemma logged_other ws bn : ~ in_log ls nl bn -> bn ∉ ws.*1 -> logged ws bn = d bn.
Proof using All.
  intros Hb Hw. unfold logged. rewrite apply_writes_notin, apply_writes_app by done. cbn. unfold dset.
  rewrite decide_False by (intros ->; apply Hb; unfold in_log; lia).
  apply apply_writes_notin. intros Hx%log_writes_fst. apply Hb. unfold in_log. lia.
Qed.

Lemma home_not_log (ws : list (Z * list Z)) x : (forall y, y ∈ ws.*1 -> y ∈ hb) -> in_log ls nl x -> x ∉ ws.*1.
Proof using All. intros Hws Hx Hin%Hws. by apply (Hhome x Hin). Qed.

Lemma install_logged ws : (forall y, y ∈ ws.*1 -> y ∈ hb) -> install_writes ls (logged ws) = zip hb vs.
Proof using All.
  intros Hws. unfold install_writes.
  assert (in_log ls nl ls) as Hls by (unfold in_log; lia).
  rewrite (logged_hdr ws) by (by apply home_not_log).
  assert (4 + 4 * length hb <= length (d ls))%nat as Hfit.
  { rewrite Hhdr. unfold LOGSIZE, MAXOPBLOCKS, BSIZE in *. lia. }
  rewrite hdr_cnt_set by (unfold LOGSIZE, MAXOPBLOCKS in *; lia). rewrite Nat2Z.id.
  apply list_eq. intros i. rewrite list_lookup_fmap, lookup_zip_with.
  destruct (decide (i < length hb)%nat) as [Hi|Hi].
  - rewrite lookup_seq_lt by done. cbn [fmap option_fmap option_map].
    destruct (lookup_lt_is_Some_2 hb i Hi) as [x Hx].
    destruct (lookup_lt_is_Some_2 vs i) as [v Hv]; [lia|]. rewrite Hx, Hv. cbn.
    rewrite (hdr_blk_set hb _ i x) by done.
    destruct (Hhome x) as [Hr _]; [by eapply list_elem_of_lookup_2|].
    rewrite i32_id, u32_id by lia. do 2 f_equal. apply logged_copy; [done|].
    apply home_not_log; [done|]. unfold in_log. lia.
  - rewrite lookup_seq_ge, (lookup_ge_None_2 hb) by lia. done.
Qed.

Lemma committed_in i x v : hb !! i = Some x -> vs !! i = Some v -> forall d', apply_writes d' (zip hb vs) x = v.
Proof using All.
  intros Hx Hv d'. apply apply_writes_in; [by rewrite zip_fst|].
  apply list_elem_of_lookup. exists i. rewrite lookup_zip_with, Hx. cbn. by rewrite Hv.
Qed.

Lemma recovered_logged ws bn :
  (forall y, y ∈ ws.*1 -> y ∈ hb) -> ~ in_log ls nl bn -> recovered ls (logged ws) bn = committed bn.
Proof using All.
  intros Hws Hb. unfold recovered, committed. rewrite install_logged by done.
  destruct (decide (bn ∈ hb)) as [Hin|Hin].
  - apply list_elem_of_lookup in Hin as [i Hi].
    destruct (lookup_lt_is_Some_2 vs i) as [v Hv]; [rewrite Hlen; by eapply lookup_lt_Some|].
    by rewrite !(committed_in i bn v).
  - rewrite !apply_writes_notin by (by rewrite zip_fst). apply logged_other; [done|].
    intros ?%Hws. done.
Qed.

(** From the header write on the transaction has happened. *)
Lemma crash_new k bn :
  (length hb < k)%nat -> ~ in_log ls nl bn ->
  recovered ls (apply_writes d (take k commit_writes)) bn = committed bn.
Proof using All.
  intros Hk Hbn. assert (length log_writes = length hb) as Hll by (unfold log_writes; by rewrite length_imap).
  assert (length (zip hb vs) = length hb) as Hlz by (rewrite length_zip_with; lia).
  unfold commit_writes. rewrite app_assoc, take_app_ge by (rewrite length_app, Hll; cbn; lia).
  rewrite length_app, Hll. cbn [length]. rewrite apply_writes_app.
  set (j := (k - (length hb + 1))%nat). change (apply_writes (apply_writes d _) ?ws) with (logged ws).
  destruct (decide (j <= length hb)%nat) as [Hj|Hj].
  - rewrite take_app_le by lia. apply recovered_logged; [|done].
    intros y. rewrite fmap_take, zip_fst, elem_of_take. intros (i & Hi & _). by eapply list_elem_of_lookup_2.
  - rewrite take_app_ge by lia. rewrite (take_ge [_]) by (cbn; lia).
    unfold logged. rewrite apply_writes_app.
    change (apply_writes (apply_writes d _) (zip hb vs)) with (logged (zip hb vs)).
    rewrite recovered_none.
    + rewrite apply_writes_notin.
      2:{ cbn. rewrite list_elem_of_singleton. intros ->. apply Hbn. unfold in_log. lia. }
      rewrite <- (recovered_logged (zip hb vs)); [|by rewrite zip_fst|done].
      unfold recovered. rewrite install_logged by (by rewrite zip_fst).
      destruct (decide (bn ∈ hb)) as [Hin|Hin].
      * apply list_elem_of_lookup in Hin as [i Hi].
        destruct (lookup_lt_is_Some_2 vs i) as [v Hv]; [rewrite Hlen; by eapply lookup_lt_Some|].
        unfold logged. by rewrite !(committed_in i bn v).
      * by rewrite (apply_writes_notin (logged _)) by (by rewrite zip_fst).
    + unfold apply_writes at 1. cbn [foldl fst snd]. unfold dset. rewrite decide_True by done.
      rewrite (hdr_cnt_set []); [done| |done]. rewrite length_set_hdr, Hhdr. unfold BSIZE. lia.
Qed.

(** The header after a crash. *)
Lemma crash_hdr k :
  let h := apply_writes d (take k commit_writes) ls in
  h = d ls \/ h = set_hdr hb (d ls) \/ h = set_hdr [] (set_hdr hb (d ls)).
Proof using All.
  assert (length log_writes = length hb) as Hll by (unfold log_writes; by rewrite length_imap).
  assert (length (zip hb vs) = length hb) as Hlz by (rewrite length_zip_with; lia).
  assert (in_log ls nl ls) as Hls by (unfold in_log; lia).
  destruct (decide (k <= length hb)%nat) as [Hk|Hk].
  - left. apply apply_writes_notin. unfold commit_writes. rewrite take_app_le by lia.
    rewrite fmap_take, elem_of_take. intros (i & Hi & _).
    assert (ls < ls < ls + nl) by (apply log_writes_fst; by eapply list_elem_of_lookup_2). lia.
  - right. unfold commit_writes. rewrite app_assoc, take_app_ge by (rewrite length_app, Hll; cbn; lia).
    rewrite length_app, Hll. cbn [length]. set (j := (k - (length hb + 1))%nat). rewrite apply_writes_app.
    change (apply_writes (apply_writes d _) ?ws) with (logged ws).
    destruct (decide (j <= length hb)%nat) as [Hj|Hj].
    + left. rewrite take_app_le by lia. apply logged_hdr. apply home_not_log; [|done].
      intros y. rewrite fmap_take, zip_fst, elem_of_take. intros (i & Hi & _). by eapply list_elem_of_lookup_2.
    + right. rewrite take_app_ge by lia. rewrite (take_ge [_]) by (cbn; lia).
      unfold logged. rewrite apply_writes_app. unfold apply_writes at 1. cbn [foldl fst snd]. unfold dset.
      by rewrite decide_True.
Qed.
End Crash.

(** ** Crashes during recovery *)

(** A header that a commit may have left on the disk: it names the blocks
    [hb]. *)
Record good_hdr (hb : list Z) (ls nl : Z) (h : list Z) : Prop := GoodHdr {
  gh_cnt : hdr_cnt h = Z.of_nat (length hb);
  gh_blk i x : hb !! i = Some x -> hdr_blk h i = x;
  gh_max : Z.of_nat (length hb) <= LOGSIZE /\ Z.of_nat (length hb) < nl;
  gh_nodup : NoDup hb;
  gh_home x : x ∈ hb -> 0 <= x < 2 ^ 31 /\ ~ in_log ls nl x
}.

Lemma good_empty ls nl h : 0 < nl -> hdr_cnt h = 0 -> good_hdr [] ls nl h.
Proof. intros Hn E. split; [exact E|intros i x; by rewrite lookup_nil|by cbn|apply NoDup_nil_2|by intros x ?%elem_of_nil]. Qed.

Lemma install_writes_ext ls nl d d' :
  (forall x, in_log ls nl x -> d x = d' x) -> 0 < nl -> hdr_cnt (d ls) < nl -> install_writes ls d = install_writes ls d'.
Proof.
  intros E Hp Hn. unfold install_writes, in_log in *. rewrite <- E by lia.
  apply list_fmap_ext. intros i x Hx. apply lookup_seq in Hx. f_equal. apply E. lia.
Qed.

Lemma recovered_ext ls d d' bn :
  (forall x, d x = d' x) -> recovered ls d bn = recovered ls d' bn.
Proof.
  intros E. unfold recovered. rewrite (apply_writes_ext d d') by done. f_equal. unfold install_writes. rewrite E.
  apply list_fmap_ext. intros i x _. by rewrite E.
Qed.

Section Recovery.
Context (ls nl : Z) (d : disk_of) (hb : list Z) (G : good_hdr hb ls nl (d ls)).

Lemma install_fst : (install_writes ls d).*1 = hb.
Proof using All.
  destruct G as [G1 G2 _ _ G5]. apply list_eq. intros i. unfold install_writes.
  rewrite list_lookup_fmap, list_lookup_fmap, G1, Nat2Z.id. destruct (hb !! i) as [x|] eqn:Hx.
  - rewrite lookup_seq_lt by (by eapply lookup_lt_Some). cbn. rewrite (G2 i x Hx).
    destruct (G5 x) as [? _]; [by eapply list_elem_of_lookup_2|]. by rewrite u32_id by lia.
  - apply lookup_ge_None in Hx. by rewrite lookup_seq_ge by lia.
Qed.
Lemma length_install : length (install_writes ls d) = length hb.
Proof using All. by rewrite <- install_fst, length_fmap. Qed.

(** Replaying a list of writes with distinct targets after a part of it. *)
Lemma apply_writes_replay ws j x :
  NoDup (ws.*1) -> apply_writes (apply_writes d (take j ws)) ws x = apply_writes d ws x.
Proof using.
  intros Hnd. destruct (decide (x ∈ ws.*1)) as [Hin|Hin].
  - apply list_elem_of_fmap in Hin as ([y v] & -> & Hin). cbn. by rewrite !(apply_writes_in _ ws y v).
  - rewrite !apply_writes_notin; [done|done| |done].
    rewrite fmap_take, elem_of_take. intros (i & Hi & _). apply Hin. by eapply list_elem_of_lookup_2.
Qed.

Definition recovery_writes : list (Z * list Z) := install_writes ls d ++ [(ls, set_hdr [] (d ls))].

(** What recovery leaves outside the log. *)
Lemma recovery_result bn : ~ in_log ls nl bn -> apply_writes d recovery_writes bn = recovered ls d bn.
Proof using All.
  intros Hbn. pose proof (gh_max _ _ _ _ G). unfold recovery_writes. rewrite apply_writes_app, apply_writes_notin; [done|].
  cbn. rewrite list_elem_of_singleton. intros ->. apply Hbn. unfold in_log. lia.
Qed.

(** A crash during recovery leaves a header that recovery can read, and the
    next recovery has the result the first one would have had. *)
Lemma recovery_crash j :
  (4 <= length (d ls))%nat ->
  let d' := apply_writes d (take j recovery_writes) in
  exists hb', hb' ⊆ hb /\ good_hdr hb' ls nl (d' ls) /\ forall bn, ~ in_log ls nl bn -> recovered ls d' bn = recovered ls d bn.
Proof using All.
  intros Hlen d'. pose proof G as [G1 G2 G3 G4 G5]. unfold recovery_writes in d'.
  destruct (decide (j <= length hb)%nat) as [Hj|Hj].
  - assert (forall x, in_log ls nl x -> d x = d' x) as Ed.
    { intros x Hx. unfold d'. rewrite take_app_le by (by rewrite length_install).
      rewrite apply_writes_notin; [done|]. rewrite fmap_take, elem_of_take, install_fst.
      intros (i & Hi & _). by apply (G5 x); [eapply list_elem_of_lookup_2|]. }
    exists hb. rewrite <- Ed by (unfold in_log; lia). split_and!; [done|done|]. intros bn Hbn.
    unfold recovered. rewrite <- (install_writes_ext ls nl d d') by (done || lia). unfold d'.
    rewrite take_app_le by (by rewrite length_install). apply apply_writes_replay. by rewrite install_fst.
  - assert (d' = apply_writes d recovery_writes) as Ed.
    { unfold d', recovery_writes. rewrite take_ge; [done|]. rewrite length_app, length_install. cbn. lia. }
    assert (hdr_cnt (d' ls) = 0) as Hz.
    { rewrite Ed. unfold recovery_writes. rewrite apply_writes_app. unfold apply_writes at 1. cbn [foldl fst snd].
      unfold dset. rewrite decide_True by done. by apply (hdr_cnt_set []). }
    exists []. split_and!; [set_solver|by apply good_empty; [lia|]|]. intros bn Hbn. rewrite recovered_none by done. rewrite Ed.
    by apply recovery_result.
Qed.
End Recovery.
