(* ===== verification/Sample.v ===== *)
(** * A small machine

    An instance of the parameters of the kernel model that the concrete
    examples of the later files run on: one device, a disk that keeps its
    history of writes, and a state in which no lock is held and process 1
    runs. *)

From S2P Require Import Prelude CInt Memory KMonad Riscv KState KString Buddy Blocks Spinlock Sched Bio.
From S2P Require Import LockProof BioList BioInv BioProof LogSpec.

(** ** The disk *)

Record tdev := TDev { t_hist : list (Z * list Z) }.

#[export] Instance tdevice : Device :=
  { dev := tdev; mmio_read _ d := (0, d); mmio_write _ _ d := d }.

#[export] Instance tmachine : Machine := {
  swtch _ _ := diverge; rounds := 10;
  sym_end := 0x8000; sym_etext := 0x1000; sym_trampoline := 0x1000; sym_uservec := 0x1000; sym_userret := 0x1080;
  sym_kernelvec := 0x1100; sym_timervec := 0x1180; sym_main := 0x1200; sym_usertrap := 0x1280; sym_forkret := 0x1300;
  sym_initcode := 0x1400; sym_bcache := 0x10000; sym_proc := 0x2000; sym_disk := 0x1800; sym_timer_scratch := 0x1900
}.

(** A block of the right size whose elements are bytes. *)
Definition fix_block (v : list Z) : list Z :=
  if decide (length v = bsize) then u8 <$> v else replicate bsize 0.
Definition tmedium (d : tdev) (bn : Z) : list Z := fix_block (apply_writes (fun _ => []) (t_hist d) bn).

Lemma length_fix_block v : length (fix_block v) = bsize.
Proof. unfold fix_block. case_decide; [by rewrite length_fmap|apply length_replicate]. Qed.
Lemma fix_block_bytes v x : x ∈ fix_block v -> 0 <= x < 256.
Proof.
  unfold fix_block. case_decide.
  - rewrite list_elem_of_fmap. intros (y & -> & _). apply u8_range.
  - intros Hx. apply elem_of_replicate in Hx as [-> _]. lia.
Qed.

#[export] Instance tdisk : Disk := fun b write =>
  bf <- getbuf b ;;
  (if (write : bool) then
    modify (fun s => set k_io (set devices (fun d => TDev (t_hist d ++ [(b_blockno bf, block_at (k_mem s) b)]))) s)
  else
    modify (fun s => set k_mem (fun m => wrbytes m (buf_data b) (tmedium (devices (k_io s)) (b_blockno bf))) s)) ;;;
  setbuf b (set b_disk (fun _ => 0)).

Lemma rdbytes_bytes m a n : u8 <$> rdbytes m a n = rdbytes m a n.
Proof.
  unfold rdbytes. rewrite <- list_fmap_compose. apply list_fmap_ext. intros i x _. cbn. apply u8_id.
  apply byte_at_range.
Qed.

#[export, refine] Instance tlaws : DiskLaws (DK := tdisk) := {
  medium := tmedium; trace := t_hist; darea _ := False; disk_has _ := True; disk_ok _ := True
}.
Proof.
  - tauto.
  - done.
  - intros d bn. apply length_fix_block.
  - intros s b bf Q _ B Hb Hbf _.
    exists (wrbytes (k_mem s) (buf_data b) (tmedium (devices (k_io s)) (b_blockno bf))), (k_io s), (procs (k_ptable s)).
    cbn zeta. split_and!; try done.
    + unfold disk_rw, tdisk. rewrite (bind_ok _ _ _ _ _ (getbuf_ok _ _ _ Hbf)). unfold driven, modify. by destruct s as [????[]].
    + eapply same_off_weaken; [apply wrbytes_same|]. cbv beta. intros x Hx. left. unfold in_buf.
      unfold tmedium in Hx. rewrite length_fix_block, bsize_Z in Hx. done.
    + unfold block_at, tmedium. rewrite <- (length_fix_block (apply_writes (fun _ => []) (t_hist (devices (k_io s))) (b_blockno bf))).
      apply rdbytes_wrbytes, fix_block_bytes.
  - intros s b bf Q _ B Hb Hbf _.
    exists (k_mem s), (set (@devices tdevice) (fun d => TDev (t_hist d ++ [(b_blockno bf, block_at (k_mem s) b)])) (k_io s)), (procs (k_ptable s)).
    cbn zeta. split_and!; try done.
    + unfold disk_rw, tdisk. rewrite (bind_ok _ _ _ _ _ (getbuf_ok _ _ _ Hbf)). unfold driven, modify. by destruct s as [????[]].
    + intros bn. unfold tmedium, set. cbn. rewrite apply_writes_app. cbn. unfold dset. case_decide; [|done].
      unfold fix_block. rewrite decide_True by apply length_rdbytes. apply rdbytes_bytes.
Defined.

(** ** The state *)

Definition free_lock : spinlock := Spin 0 "" None.
Definition static_locks : list lockid :=
  [Lpid; Lwait; Lbuddy; Lbcache; Llog; Litable; Lftable; Lticks; Lcons; Luart; Lpr; Lvdisk] ++
  (Lproc <$> seq 0 nproc) ++ (Lslab <$> seq 0 4) ++
  ((fun i => Lsleep (SLbuf i)) <$> seq 0 NBUF) ++ ((fun i => Lsleep (SLinode i)) <$> seq 0 NINODE).
Definition locks0 : gmap lockid spinlock := list_to_map ((fun l => (l, free_lock)) <$> static_locks).

Lemma locks0_free lk : kernel_lock lk -> locks0 !! lk = Some free_lock.
Proof.
  intros Hk. unfold locks0. apply elem_of_list_to_map_1'.
  - intros y (x & [= _ ->] & _)%list_elem_of_fmap. done.
  - apply list_elem_of_fmap. exists lk. split; [done|]. unfold static_locks. rewrite !elem_of_app, !list_elem_of_fmap.
    destruct lk; cbn in Hk; try done; try (left; rewrite !elem_of_cons; tauto).
    + right; left. exists i. split; [done|]. apply elem_of_seq. lia.
    + right; right; left. exists k. split; [done|]. apply elem_of_seq. lia.
    + destruct s as [i|i]; do 3 right; [left|right]; exists i; (split; [done|apply elem_of_seq; lia]).
Qed.

Definition hart0 : hart := Hart 0 0 0 2 0 0 0 0 0 0 0 0 0 0 0 0 0 0 0 0x8000.
Definition proc0 : proc := Proc UNUSED None 0 0 None 0 0 0 0 0 0 (replicate NOFILE None) None.
Definition inode0 : inode := Inode 0 0 0 0 0 0 0 0 0 (replicate 13 0).
(** The machine with a disk that was written [h]. *)
Definition kboot (h : list (Z * list Z)) : kst := Kst hart0 locks0 ∅ (Ram 0x1000 0x20000 ∅)
  (Ptable (replicate NCPU (Cpu (Some 1%nat) 0 true))
    (<[1%nat := proc0 <| p_state := RUNNING |> <| p_pid := 1 |>]> (replicate nproc proc0)) 2 None 1)
  (Fstate (replicate (S NBUF) (Buf 0 0 0 0 0 0 0)) (Log 0 0 0 0 0 0 (replicate (Z.to_nat LOGSIZE) 0))
    (Superblock 0 0 0 0 0 0 0 0) (replicate NINODE inode0) (replicate NFILE (File FD_NONE 0 false false 0 None 0 0)))
  (Iostate (Cons (replicate 128 0) 0 0 0) (Uart (replicate 32 0) 0 0) 0 0 0
    (Vdisk 0 0 0 (replicate 8 false) 0 (replicate 8 None)) (replicate 10 (None, None)) (TDev h))
  (Buddy.Buddy 0 0 0 0 0 0) (replicate 4 (0, 0, 0)) 0 0.

Lemma quiet_kboot h : quiet (kboot h).
Proof.
  split.
  - split.
    + exists (Cpu (Some 1%nat) 0 true). split_and!; done.
    + by intros cp [= <-].
  - intros lk Hk. exists free_lock. split; [by apply locks0_free|done].
  - done.
  - by eexists 1%nat, _.
Qed.

Lemma backed_kboot h : bufs_backed (k_mem (kboot h)).
Proof.
  split_and!; [done..|]. intros b Hb. unfold buf_data, sizeof_buf, off_buf_data, BSIZE, NBUF in *. cbn. lia.
Qed.

(** The cache on this machine. *)
Lemma cached_kboot h : exists s, binit (kboot h) = Ok (tt, s) /\ cached 1 s (fresh_view (kboot h)) /\
  logst (k_fs s) = logst (k_fs (kboot h)).
Proof.
  apply (binit_ok 1 (kboot h)); [done|apply quiet_kboot|done| |apply backed_kboot|done].
  intros b c Hc. unfold cores in Hc. rewrite list_lookup_fmap in Hc. apply fmap_Some in Hc as (x & Hx & ->).
  apply lookup_replicate in Hx as [-> _]. done.
Qed.
