(* ===== verification/LogProof.v ===== *)
(** * The operations of the log

    Each loop body and each operation of log.c over the buffer cache's view:
    which blocks of the disk are written, with what, in which order. *)

From S2P Require Import Prelude CInt Memory KMonad Riscv KState KString Blocks Spinlock Sched Bio Log LockProof BioList.
From S2P Require Import BioInv BioProof LogSpec.

Section LogOps.
Context `{DL : DiskLaws} (dv : Z) (Hrounds : (0 < rounds)%nat).
Notation cached := (cached dv).

(** Views that differ only in how their functions are written. *)
Lemma cached_ext s a a' :
  cached s a -> c_use a' = c_use a -> c_held a' = c_held a -> (forall x, c_data a' x = c_data a x) ->
  (forall x, c_medium a' x = c_medium a x) -> c_trace a' = c_trace a -> cached s a'.
Proof using.
  intros [Q R Co V D F Cl He L B M T Dk] Eu Eh Ed Em Et.
  split; try done; try (by rewrite ?Eu, ?Eh, ?Et); intros; rewrite ?Ed, ?Em, ?Et; eauto.
  - apply Cl. congruence.
  - unfold lock_ok, held_by. rewrite Eu, Eh. by apply L.
Qed.

Lemma onram_ok {A} (c : M ram A) s x m : c (k_mem s) = Ok (x, m) -> onram c s = Ok (x, s <| k_mem := m |>).
Proof using. intros E. unfold onram, zoom. by rewrite E. Qed.

Lemma onram_read {A} (c : M ram A) s x : c (k_mem s) = Ok (x, k_mem s) -> onram c s = Ok (x, s).
Proof using. intros E. rewrite (onram_ok c s x _ E). by destruct s. Qed.

Lemma getlog_eq s : getlog s = Ok (logst (k_fs s), s).
Proof using. done. Qed.

(** Block [bn] written to the disk with the contents [v]. *)
Definition writeto (bn : Z) (v : list Z) (a : cache) : cache :=
  Cache (c_use a) (c_held a) (dset (c_data a) bn v) (dset (c_medium a) bn v) (c_trace a ++ [(bn, v)]).

Lemma with_refs_pos bn b r h a : r <> 0 -> c_use (with_refs bn b r h a) = <[bn := (b, r)]> (c_use a).
Proof using. intros. unfold with_refs. cbn. by rewrite decide_False. Qed.
Lemma with_refs_0 bn b r h a : r = 0 -> c_use (with_refs bn b r h a) = delete bn (c_use a).
Proof using. intros. unfold with_refs. cbn. by rewrite decide_True. Qed.

(** Copying the contents of a held buffer to another one. *)
Lemma copy_ok s a t f bt bf rt rf :
  cached s a -> c_use a !! t = Some (bt, rt) -> c_use a !! f = Some (bf, rf) ->
  exists s', onram (memmove (buf_data bt) (buf_data bf) BSIZE) s = Ok (buf_data bt, s') /\
    cached s' (put_data t (c_data a f) a) /\ outside s s'.
Proof using All.
  intros C Ht Hf. destruct (use_buf _ _ _ _ _ _ _ C Ht) as (ot & Hbt & _).
  destruct (use_buf _ _ _ _ _ _ _ C Hf) as (o2 & Hbf & _).
  destruct (ca_backed _ _ _ _ C) as (B1 & B2 & B3).
  destruct (B3 bt Hbt), (B3 bf Hbf).
  destruct (memmove_block (buf_data bt) (buf_data bf) bsize (k_mem s)) as (m & E & So & Hb);
    [unfold bsize, BSIZE in *; lia..|].
  change (Z.of_nat bsize) with BSIZE in *.
  exists (s <| k_mem := m |>). split; [by apply onram_ok|].
  destruct (cached_put dv Hrounds s a t bt rt C Ht m So) as [C' O]. split; [|done].
  rewrite <- (use_data dv Hrounds s a f bf rf C Hf). exact (eq_ind _ (fun v => cached _ (put_data t v a)) C' _ Hb).
Qed.

(** The view during a copy between a block of the log and a home block. *)
Section Copy.
Context (s : kst) (a : cache) (t f : Z) (bf : nat) (r : Z).
Hypothesis C : cached s a.
Hypothesis Htf : t <> f.
Hypothesis Hheld : c_held a = ∅.
Hypothesis Ht : c_use a !! t = None.
Hypothesis Hroom : (size (c_use a) < NBUF)%nat.
Hypothesis Hf : c_use a !! f = Some (bf, r).
Hypothesis Hr : r + 1 < 2 ^ 32.
Hypothesis Hdisk : disk_has t /\ disk_has f.

Lemma both_ok : exists bt s1 s2, bread dv t s = Ok (bt, s1) /\ bread dv f s1 = Ok (bf, s2) /\
  cached s1 (grab t bt a) /\ outside s s1 /\
  cached s2 (grab f bf (grab t bt a)) /\ outside s s2.
Proof using All.
  destruct (bread_ok dv Hrounds s a t) as (bt & s1 & E1 & C1 & O1 & _); [done|split|apply Hdisk|].
  { rewrite Hheld. set_solver. } { done. } { unfold refs. rewrite Ht. cbn. lia. }
  assert (c_use (grab t bt a) !! f = Some (bf, r)) as Hf1 by (cbn; by rewrite lookup_insert_ne).
  destruct (bread_ok dv Hrounds s1 (grab t bt a) f) as (bf' & s2 & E2 & C2 & O2 & Hsame); [done|split|apply Hdisk|].
  { cbn. rewrite Hheld. set_solver. } { congruence. } { unfold refs. rewrite Hf1. cbn. lia. }
  assert (bf' = bf) as -> by (by eapply Hsame).
  exists bt, s1, s2. split_and!; try done. by eapply outside_trans.
Qed.

(** One iteration of [write_log]: block [f] is copied to block [t] of the log. *)
Lemma log_copy_ok bt s1 s2 :
  bread dv f s1 = Ok (bf, s2) -> cached s2 (grab f bf (grab t bt a)) -> outside s s2 ->
  exists s', (from <- bread dv f ;; onram (memmove (buf_data bt) (buf_data from) BSIZE) ;;;
    bwrite bt ;;; brelse from ;;; brelse bt) s1 = Ok (tt, s') /\
    cached s' (writeto t (c_data a f) a) /\ outside s s'.
Proof using All.
  intros E2 C2 O2. rewrite (bind_ok _ _ _ _ _ E2).
  assert (refs (grab t bt a) f = r) as Er by (unfold refs; cbn; by rewrite lookup_insert_ne, Hf).
  assert (refs a t = 0) as Er0 by (unfold refs; by rewrite Ht).
  destruct (use_buf _ _ _ _ _ _ _ C Hf) as (_ & _ & _ & _ & _ & _ & Hrr).
  assert (c_use (grab f bf (grab t bt a)) !! f = Some (bf, r + 1)) as Uf by (cbn; by rewrite Er, lookup_insert_eq).
  assert (c_use (grab f bf (grab t bt a)) !! t = Some (bt, 1)) as Ut.
  { cbn. rewrite lookup_insert_ne, lookup_insert_eq by done. by rewrite Er0. }
  destruct (copy_ok s2 _ t f bt bf _ _ C2 Ut Uf) as (s3 & E3 & C3 & O3). rewrite (bind_ok _ _ _ _ _ E3).
  destruct (bwrite_ok dv Hrounds s3 _ t bt 1 C3 Ut) as (s4 & E4 & C4 & O4); [set_solver|apply Hdisk|].
  rewrite (bind_ok _ _ _ _ _ E4).
  destruct (brelse_ok dv Hrounds s4 _ f bf (r + 1) C4 Uf) as (s5 & E5 & C5 & O5); [set_solver|lia|].
  rewrite (bind_ok _ _ _ _ _ E5).
  set (a5 := with_refs f bf (r + 1 - 1) _ _) in C5.
  assert (c_use a5 !! t = Some (bt, 1)) as Ut5.
  { unfold a5, with_refs. cbn [c_use]. rewrite decide_False by lia. rewrite lookup_insert_ne by done. exact Ut. }
  destruct (brelse_ok dv Hrounds s5 a5 t bt 1 C5 Ut5) as (s6 & E6 & C6 & O6); [cbn; set_solver| |].
  { intros _. cbn. by rewrite !decide_True. }
  exists s6. split; [done|]. split; [|by repeat (eapply outside_trans; [eassumption|])].
  apply (cached_ext _ _ _ C6); cbn; try done.
  - symmetry. rewrite decide_True, decide_False by lia. rewrite Er, Er0. replace (r + 1 - 1) with r by lia.
    apply map_eq. intros x. destruct (decide (x = t)) as [->|Hxt]; [by rewrite lookup_delete_eq|].
    rewrite lookup_delete_ne by done. destruct (decide (x = f)) as [->|Hxf].
    + by rewrite lookup_insert_eq.
    + by rewrite !lookup_insert_ne by done.
  - rewrite Hheld. apply set_eq. set_solver.
  - intros x. unfold dset. case_decide; [|done]. by rewrite decide_True.
  - by rewrite decide_True.
Qed.

(** One iteration of [install_trans] after a commit: block [t] of the log is
    copied to its home [f], which is unpinned. *)
Lemma install_copy_ok bt s1 s2 :
  r = 1 -> bread dv f s1 = Ok (bf, s2) -> cached s2 (grab f bf (grab t bt a)) -> outside s s2 ->
  exists s', (dbuf <- bread dv f ;; onram (memmove (buf_data dbuf) (buf_data bt) BSIZE) ;;;
    bwrite dbuf ;;; bunpin dbuf ;;; brelse bt ;;; brelse dbuf) s1 = Ok (tt, s') /\
    cached s' (Cache (delete f (c_use a)) ∅ (dset (c_data a) f (c_data a t)) (dset (c_medium a) f (c_data a t))
      (c_trace a ++ [(f, c_data a t)])) /\ outside s s'.
Proof using All.
  intros -> E2 C2 O2. rewrite (bind_ok _ _ _ _ _ E2).
  assert (refs (grab t bt a) f = 1) as Er by (unfold refs; cbn; by rewrite lookup_insert_ne, Hf).
  assert (refs a t = 0) as Er0 by (unfold refs; by rewrite Ht).
  assert (c_use (grab f bf (grab t bt a)) !! f = Some (bf, 2)) as Uf by (cbn; by rewrite Er, lookup_insert_eq).
  assert (c_use (grab f bf (grab t bt a)) !! t = Some (bt, 1)) as Ut.
  { cbn. rewrite lookup_insert_ne, lookup_insert_eq by done. by rewrite Er0. }
  destruct (copy_ok s2 _ f t bf bt _ _ C2 Uf Ut) as (s3 & E3 & C3 & O3). rewrite (bind_ok _ _ _ _ _ E3).
  destruct (bwrite_ok dv Hrounds s3 _ f bf 2 C3 Uf) as (s4 & E4 & C4 & O4); [set_solver|apply Hdisk|].
  rewrite (bind_ok _ _ _ _ _ E4).
  destruct (bunpin_ok dv Hrounds s4 _ f bf 2 C4 Uf) as (s5 & E5 & C5 & O5); [lia|].
  rewrite (bind_ok _ _ _ _ _ E5). set (a5 := with_refs f bf (2 - 1) _ _) in C5.
  assert (c_use a5 !! t = Some (bt, 1)) as Ut5.
  { unfold a5. rewrite with_refs_pos, lookup_insert_ne by done. exact Ut. }
  assert (c_use a5 !! f = Some (bf, 1)) as Uf5.
  { unfold a5. rewrite with_refs_pos by done. by rewrite lookup_insert_eq. }
  assert (c_data a t = c_medium a t) as Hcl by (by apply (ca_clean _ _ _ _ C)).
  destruct (brelse_ok dv Hrounds s5 a5 t bt 1 C5 Ut5) as (s6 & E6 & C6 & O6); [cbn; set_solver| |].
  { intros _. cbn. by rewrite !decide_False by done. }
  rewrite (bind_ok _ _ _ _ _ E6). set (a6 := with_refs t bt (1 - 1) _ _) in C6.
  assert (c_use a6 !! f = Some (bf, 1)) as Uf6.
  { unfold a6. rewrite with_refs_0, lookup_delete_ne by done. exact Uf5. }
  destruct (brelse_ok dv Hrounds s6 a6 f bf 1 C6 Uf6) as (s7 & E7 & C7 & O7); [cbn; set_solver| |].
  { intros _. cbn. by rewrite !decide_True. }
  exists s7. split; [done|]. split; [|by repeat (eapply outside_trans; [eassumption|])].
  apply (cached_ext _ _ _ C7); [|cbn; try done..].
  - rewrite with_refs_0 by done. unfold a6. rewrite with_refs_0 by done. unfold a5.
    rewrite with_refs_pos by done. cbn. apply map_eq. intros x. destruct (decide (x = f)) as [->|Hxf]; [by rewrite !lookup_delete_eq|].
    rewrite !(lookup_delete_ne _ f) by done. destruct (decide (x = t)) as [->|Hxt].
    + by rewrite lookup_delete_eq.
    + by rewrite lookup_delete_ne, !lookup_insert_ne by done.
  - rewrite Hheld. apply set_eq. set_solver.
  - intros x. unfold dset. case_decide; [|done]. by rewrite decide_True.
  - by rewrite decide_True.
Qed.
End Copy.

(** One iteration of [install_trans] during recovery, with no block in use. *)
Section Recover.
Context (s : kst) (a : cache) (t f : Z).
Hypothesis C : cached s a.
Hypothesis Htf : t <> f.
Hypothesis Hheld : c_held a = ∅.
Hypothesis Huse : c_use a = ∅.
Hypothesis Hdisk : disk_has t /\ disk_has f.

Lemma recover_read_ok : exists bt s1 bf s2, bread dv t s = Ok (bt, s1) /\ bread dv f s1 = Ok (bf, s2) /\
  outside s s1 /\ cached s2 (grab f bf (grab t bt a)) /\ outside s s2.
Proof using All.
  assert (forall x, c_use a !! x = None) as Hno by (intros; by rewrite Huse, lookup_empty).
  destruct (bread_ok dv Hrounds s a t) as (bt & s1 & E1 & C1 & O1 & _); [done|split|apply Hdisk|].
  { rewrite Hheld. set_solver. } { intros _. rewrite Huse, map_size_empty. unfold NBUF. lia. }
  { unfold refs. rewrite Hno. cbn. lia. }
  assert (c_use (grab t bt a) !! f = None) as Hf1 by (cbn; by rewrite lookup_insert_ne).
  destruct (bread_ok dv Hrounds s1 (grab t bt a) f) as (bf & s2 & E2 & C2 & O2 & _); [done|split|apply Hdisk|].
  { cbn. rewrite Hheld. set_solver. }
  { intros _. cbn. rewrite map_size_insert_None, Huse, map_size_empty by done. unfold NBUF. lia. }
  { unfold refs. rewrite Hf1. cbn. lia. }
  exists bt, s1, bf, s2. split_and!; try done. by eapply outside_trans.
Qed.

Lemma recover_copy_ok bt bf s1 s2 :
  bread dv f s1 = Ok (bf, s2) -> cached s2 (grab f bf (grab t bt a)) -> outside s s2 ->
  exists s', (dbuf <- bread dv f ;; onram (memmove (buf_data dbuf) (buf_data bt) BSIZE) ;;;
    bwrite dbuf ;;; ret tt ;;; brelse bt ;;; brelse dbuf) s1 = Ok (tt, s') /\
    cached s' (writeto f (c_data a t) a) /\ outside s s'.
Proof using All.
  intros E2 C2 O2. rewrite (bind_ok _ _ _ _ _ E2).
  assert (forall x, c_use a !! x = None) as Hno by (intros; by rewrite Huse, lookup_empty).
  assert (refs (grab t bt a) f = 0) as Er by (unfold refs; cbn; by rewrite lookup_insert_ne, Hno).
  assert (refs a t = 0) as Er0 by (unfold refs; by rewrite Hno).
  assert (c_use (grab f bf (grab t bt a)) !! f = Some (bf, 1)) as Uf by (cbn; by rewrite Er, lookup_insert_eq).
  assert (c_use (grab f bf (grab t bt a)) !! t = Some (bt, 1)) as Ut.
  { cbn. rewrite lookup_insert_ne, lookup_insert_eq by done. by rewrite Er0. }
  destruct (copy_ok s2 _ f t bf bt _ _ C2 Uf Ut) as (s3 & E3 & C3 & O3). rewrite (bind_ok _ _ _ _ _ E3).
  destruct (bwrite_ok dv Hrounds s3 _ f bf 1 C3 Uf) as (s4 & E4 & C4 & O4); [set_solver|apply Hdisk|].
  rewrite (bind_ok _ _ _ _ _ E4), bind_ret.
  assert (c_data a t = c_medium a t) as Hcl by (by apply (ca_clean _ _ _ _ C)).
  destruct (brelse_ok dv Hrounds s4 _ t bt 1 C4 Ut) as (s5 & E5 & C5 & O5); [cbn; set_solver| |].
  { intros _. cbn. by rewrite !decide_False by done. }
  rewrite (bind_ok _ _ _ _ _ E5). set (a5 := with_refs t bt (1 - 1) _ _) in C5.
  assert (c_use a5 !! f = Some (bf, 1)) as Uf5.
  { unfold a5. rewrite with_refs_0, lookup_delete_ne by done. exact Uf. }
  destruct (brelse_ok dv Hrounds s5 a5 f bf 1 C5 Uf5) as (s6 & E6 & C6 & O6); [cbn; set_solver| |].
  { intros _. cbn. by rewrite !decide_True. }
  exists s6. split; [done|]. split; [|by repeat (eapply outside_trans; [eassumption|])].
  apply (cached_ext _ _ _ C6); [|cbn; try done..].
  - rewrite with_refs_0 by done. unfold a5. rewrite with_refs_0 by done. cbn. rewrite Huse.
    apply map_eq. intros x. rewrite lookup_empty. symmetry.
    destruct (decide (x = f)) as [->|Hxf]; [by rewrite lookup_delete_eq|]. rewrite lookup_delete_ne by done.
    destruct (decide (x = t)) as [->|Hxt]; [by rewrite lookup_delete_eq|].
    by rewrite lookup_delete_ne, !lookup_insert_ne, lookup_empty by done.
  - rewrite Hheld. apply set_eq. set_solver.
  - intros x. unfold dset. case_decide; [|done]. by rewrite decide_True.
  - by rewrite decide_True.
Qed.
End Recover.

(** ** Sequences of writes *)

(** The view after the blocks [ws] are written. *)
Definition after (ws : list (Z * list Z)) (a : cache) : cache :=
  Cache (c_use a) (c_held a) (apply_writes (c_data a) ws) (apply_writes (c_medium a) ws) (c_trace a ++ ws).

Lemma cached_after s ws t v a : cached s (writeto t v (after ws a)) -> cached s (after (ws ++ [(t, v)]) a).
Proof using.
  intros C. apply (cached_ext _ _ _ C); cbn; try done.
  - intros x. by rewrite apply_writes_app.
  - intros x. by rewrite apply_writes_app.
  - by rewrite app_assoc.
Qed.
Lemma cached_after_0 s a : cached s a -> cached s (after [] a).
Proof using. intros C. apply (cached_ext _ _ _ C); try done. cbn. by rewrite app_nil_r. Qed.

(** The log as the kernel has it: [hb] are the home blocks of the transaction. *)
Record log_is (l : log) (hb : list Z) : Prop := LogIs {
  li_dev : l_dev l = dv;
  li_start : 0 <= l_start l /\ l_start l + LOGSIZE < 2 ^ 31 /\ l_start l + l_size l < 2 ^ 31;
  li_n : lh_n l = Z.of_nat (length hb);
  li_max : lh_n l <= LOGSIZE /\ lh_n l < l_size l;
  li_len : length (lh_block l) = Z.to_nat LOGSIZE;
  li_blocks i x : hb !! i = Some x -> lh_block l !! i = Some x;
  li_nodup : NoDup hb;
  li_home x : x ∈ hb -> 0 <= x < 2 ^ 31 /\ ~ in_log (l_start l) (l_size l) x;
  li_disk x : in_log (l_start l) (l_size l) x \/ x ∈ hb -> disk_has x
}.

(** Each block of the transaction is pinned once and nothing else is in use. *)
Record pinned (l : log) (hb : list Z) (a : cache) : Prop := Pinned {
  pi_held : c_held a = ∅;
  pi_use x : is_Some (c_use a !! x) <-> x ∈ hb;
  pi_one x b r : c_use a !! x = Some (b, r) -> r = 1;
  pi_room : (length hb < NBUF)%nat
}.

Lemma pinned_size l hb a : NoDup hb -> pinned l hb a -> size (c_use a) = length hb.
Proof using.
  intros Hnd [_ Hu _ _]. rewrite <- (size_dom (D := gset Z)), <- (size_list_to_set (C := gset Z) hb Hnd).
  f_equal. apply set_eq. intros x. rewrite elem_of_dom, elem_of_list_to_set. apply Hu.
Qed.

(** ** Fields of a buffer *)

Lemma in_buf_off b off n : (off + n <= bsize)%nat ->
  forall x, buf_data b + Z.of_nat off <= x < buf_data b + Z.of_nat off + Z.of_nat n -> in_buf b x.
Proof using All. unfold bsize, in_buf. lia. Qed.

(** Storing a 32-bit field of a buffer. *)
Lemma st32_buf m b off v :
  bufs_backed m -> (b < NBUF)%nat -> (off + 4 <= bsize)%nat ->
  exists m', st32 (buf_data b + Z.of_nat off) v m = Ok (tt, m') /\ same_off (in_buf b) m m' /\
    block_at m' b = put_le 4 (block_at m b) off v.
Proof using All.
  intros (B1 & B2 & B3) Hb Hoff. destruct (B3 b Hb). exists (poke 4 m (buf_data b + Z.of_nat off) v).
  split_and!.
  - apply st32_ok, backed_true; unfold bsize, BSIZE in *; lia.
  - eapply same_off_weaken; [apply same_off_poke|]. by apply (in_buf_off b off 4).
  - by apply rdbytes_poke.
Qed.
Lemma ldint_buf m b off :
  bufs_backed m -> (b < NBUF)%nat -> (off + 4 <= bsize)%nat ->
  ldint (buf_data b + Z.of_nat off) m = Ok (i32 (get_le 4 (block_at m b) off), m).
Proof using All.
  intros (B1 & B2 & B3) Hb Hoff. destruct (B3 b Hb). unfold block_at.
  rewrite get_le_rdbytes by done. apply ldint_ok, backed_true; unfold bsize, BSIZE in *; lia.
Qed.
Lemma ldint_cnt m b : bufs_backed m -> (b < NBUF)%nat ->
  ldint (hdr_n (buf_data b)) m = Ok (hdr_cnt (block_at m b), m).
Proof using All.
  intros B Hb. unfold hdr_cnt. rewrite <- (ldint_buf m b 0 B Hb) by (pose proof bsize_Z; lia).
  unfold hdr_n. by rewrite Z.add_0_r.
Qed.
Lemma ldint_blk m b i : bufs_backed m -> (b < NBUF)%nat -> (i < 30)%nat ->
  ldint (hdr_block (buf_data b) (Z.of_nat i)) m = Ok (hdr_blk (block_at m b) i, m).
Proof using All.
  intros B Hb Hi. unfold hdr_blk. rewrite <- (ldint_buf m b (4 + 4 * i) B Hb) by (pose proof bsize_Z; lia).
  unfold hdr_block. by replace (buf_data b + 4 + 4 * Z.of_nat i) with (buf_data b + Z.of_nat (4 + 4 * i)) by lia.
Qed.
Lemma backed_same P m m' : same_off P m m' -> bufs_backed m -> bufs_backed m'.
Proof using All. intros (E1 & E2 & _) (B1 & B2 & B3). unfold bufs_backed. by rewrite E1, E2. Qed.

Section Loops.
Context (l : log) (hb : list Z).
Hypothesis Hl : log_is l hb.
Notation ls := (l_start l).

Lemma lhblock_at i x : hb !! i = Some x -> u32 (lhblock l (Z.of_nat i)) = x.
Proof using All.
  intros Hx. unfold lhblock. rewrite Nat2Z.id, (li_blocks _ _ Hl i x Hx). cbn.
  destruct (li_home _ _ Hl x) as [? _]; [by eapply list_elem_of_lookup_2|]. apply u32_id. lia.
Qed.
Lemma log_block i : (i < length hb)%nat -> u32 (ls + Z.of_nat i + 1) = ls + 1 + Z.of_nat i.
Proof using All.
  intros Hi. pose proof (li_start _ _ Hl). pose proof (li_n _ _ Hl). pose proof (li_max _ _ Hl).
  rewrite u32_id by lia. lia.
Qed.
Lemma log_block_in i : (i < length hb)%nat -> in_log ls (l_size l) (ls + 1 + Z.of_nat i).
Proof using All.
  intros Hi. pose proof (li_n _ _ Hl). pose proof (li_max _ _ Hl). unfold in_log. lia.
Qed.

(** [write_log]: the blocks of the transaction to the log. *)
Lemma write_log_ok s a :
  cached s a -> logst (k_fs s) = l -> pinned l hb a ->
  exists s', write_log s = Ok (tt, s') /\ cached s' (after (log_writes ls (c_data a <$> hb)) a) /\ outside s s'.
Proof using All.
  intros C El P. set (W := log_writes ls (c_data a <$> hb)).
  assert (length W = length hb) as HW by (unfold W, log_writes; by rewrite length_imap, length_fmap).
  unfold write_log. rewrite (bind_ok _ _ _ _ _ (getlog_eq s)), El, (li_n _ _ Hl), Nat2Z.id.
  edestruct (for_each_inv (fun j t => cached t (after (take (Z.to_nat j) W) a) /\ outside s t)
    (length hb) 0) as (s' & E & C' & O').
  3:{ exists s'. split; [exact E|]. split; [|done]. rewrite take_ge in C' by lia. exact C'. }
  2:{ split; [by apply cached_after_0|apply outside_refl]. }
  intros j s1 Hj [C1 O1]. cbn [Z.add] in Hj.
  assert (exists i, j = Z.of_nat i /\ (i < length hb)%nat) as (i & -> & Hi) by (exists (Z.to_nat j); lia).
  rewrite Nat2Z.id in C1. replace (Z.to_nat (Z.of_nat i + 1)) with (S i) by lia.
  destruct (lookup_lt_is_Some_2 hb i Hi) as [x Hx].
  assert (x ∈ hb) as Hin by (by eapply list_elem_of_lookup_2).
  destruct (li_home _ _ Hl x Hin) as [_ Hnl].
  rewrite (bind_ok _ _ _ _ _ (getlog_eq s1)), (outside_log _ _ O1), El, (li_dev _ _ Hl), log_block by done.
  set (t := ls + 1 + Z.of_nat i). pose proof (log_block_in i Hi) as Htl. fold t in Htl.
  assert (t <> x) as Htx by congruence.
  assert (disk_has t /\ disk_has x) as Hdk by (split; apply (li_disk _ _ Hl); auto).
  destruct (proj2 (pi_use _ _ _ P x) Hin) as [[bf r] Hu]. assert (r = 1) as -> by (by eapply pi_one).
  assert (c_use a !! t = None) as Hut.
  { apply eq_None_not_Some. rewrite (pi_use _ _ _ P). intros Ht. by apply (li_home _ _ Hl t Ht). }
  assert (size (c_use a) < NBUF)%nat as Hsz.
  { rewrite (pinned_size l hb a); [apply P|apply Hl|done]. }
  assert (c_data (after (take i W) a) x = c_data a x) as Hd.
  { cbn. apply apply_writes_notin. rewrite fmap_take, elem_of_take. intros (k & Hk & _).
    apply Hnl. unfold W, log_writes in Hk. rewrite list_lookup_fmap, list_lookup_imap in Hk.
    destruct ((c_data a <$> hb) !! k) as [v|] eqn:Ek; [|done]. injection Hk as <-.
    apply lookup_lt_Some in Ek. rewrite length_fmap in Ek. by apply log_block_in. }
  destruct (both_ok s1 (after (take i W) a) t x bf 1) as (bt & s2 & s3 & E1 & E2 & C2 & O2 & C3 & O3);
    try done; [by apply P|].
  rewrite (bind_ok _ _ _ _ _ E1), (bind_ok _ _ _ _ _ (getlog_eq s2)), (outside_log _ _ O2), (outside_log _ _ O1), El.
  rewrite (li_dev _ _ Hl), (lhblock_at i x) by done.
  destruct (log_copy_ok s1 (after (take i W) a) t x bf 1 C1 Htx) with (bt := bt) (s1 := s2) (s2 := s3)
    as (s4 & E4 & C4 & O4); try done; [by apply P|].
  exists s4. split; [exact E4|]. split; [|by eapply outside_trans].
  rewrite (take_S_r W i (t, c_data a x)); [apply cached_after; by rewrite <- Hd|].
  unfold W, log_writes. rewrite list_lookup_imap, list_lookup_fmap, Hx. done.
Qed.

(** The home blocks with their copies in the log, as the cache has them. *)
Definition home_writes (a : cache) : list (Z * list Z) :=
  imap (fun i x => (x, c_data a (ls + 1 + Z.of_nat i))) hb.

Lemma length_home_writes a : length (home_writes a) = length hb.
Proof using. apply length_imap. Qed.
Lemma home_writes_at a i x : hb !! i = Some x -> home_writes a !! i = Some (x, c_data a (ls + 1 + Z.of_nat i)).
Proof using. intros Hx. unfold home_writes. by rewrite list_lookup_imap, Hx. Qed.
Lemma home_writes_fst a : (home_writes a).*1 = hb.
Proof using.
  apply list_eq. intros i. unfold home_writes. rewrite list_lookup_fmap, list_lookup_imap. by destruct (hb !! i).
Qed.
(** Writing home blocks leaves the log alone. *)
Lemma home_writes_log a d i j :
  (i < length hb)%nat -> apply_writes d (take j (home_writes a)) (ls + 1 + Z.of_nat i) = d (ls + 1 + Z.of_nat i).
Proof using All.
  intros Hi. apply apply_writes_notin. rewrite fmap_take, home_writes_fst, elem_of_take. intros (k & Hk & _).
  apply (li_home _ _ Hl (ls + 1 + Z.of_nat i)); [by eapply list_elem_of_lookup_2|by apply log_block_in].
Qed.

(** After the first [j] blocks are installed. *)
Definition installing (s : kst) (a : cache) (j : Z) (t : kst) : Prop := exists aj,
  cached t aj /\ pinned l (drop (Z.to_nat j) hb) aj /\
  (forall x, c_data aj x = apply_writes (c_data a) (take (Z.to_nat j) (home_writes a)) x) /\
  (forall x, c_medium aj x = apply_writes (c_medium a) (take (Z.to_nat j) (home_writes a)) x) /\
  c_trace aj = c_trace a ++ take (Z.to_nat j) (home_writes a) /\ outside s t.

Lemma pinned_drop a i x :
  hb !! i = Some x -> pinned l (drop i hb) a -> forall d m tr,
  pinned l (drop (S i) hb) (Cache (delete x (c_use a)) ∅ d m tr).
Proof using All.
  intros Hx [P1 P2 P3 P4] d m tr. pose proof (li_nodup _ _ Hl) as Hnd.
  assert (drop i hb = x :: drop (S i) hb) as Ed by (by apply drop_S).
  assert (NoDup (drop i hb)) as Hnd' by (rewrite <- (take_drop i hb) in Hnd; by apply NoDup_app in Hnd as (_ & _ & ?)).
  rewrite Ed in *. apply NoDup_cons in Hnd' as [Hn _]. split; cbn [c_use c_held].
  - done.
  - intros y. destruct (decide (y = x)) as [->|Hne].
    + rewrite lookup_delete_eq. split; [by intros []|done].
    + rewrite lookup_delete_ne, P2, elem_of_cons by done. tauto.
  - intros y b r Hy. destruct (decide (y = x)) as [->|Hne].
    + by rewrite lookup_delete_eq in Hy.
    + rewrite lookup_delete_ne in Hy by done. by eapply P3.
  - cbn in P4. lia.
Qed.

Lemma install_step s a i s1 :
  logst (k_fs s) = l -> (i < length hb)%nat -> installing s a (Z.of_nat i) s1 ->
  exists s2, (l <- getlog ;;
    lbuf <- bread (l_dev l) (u32 (l_start l + Z.of_nat i + 1)) ;;
    l <- getlog ;;
    dbuf <- bread (l_dev l) (u32 (lhblock l (Z.of_nat i))) ;;
    onram (memmove (buf_data dbuf) (buf_data lbuf) BSIZE) ;;;
    bwrite dbuf ;;; bunpin dbuf ;;; brelse lbuf ;;; brelse dbuf) s1 = Ok (tt, s2) /\
    installing s a (Z.of_nat i + 1) s2.
Proof using All.
  intros El Hi (aj & C1 & P & Hd & Hm & Ht & O1). rewrite Nat2Z.id in *.
  destruct (lookup_lt_is_Some_2 hb i Hi) as [x Hx].
  assert (drop i hb = x :: drop (S i) hb) as Ed by (by apply drop_S).
  rewrite (bind_ok _ _ _ _ _ (getlog_eq s1)), (outside_log _ _ O1), El, (li_dev _ _ Hl), log_block by done.
  set (t := ls + 1 + Z.of_nat i) in *. pose proof (log_block_in i Hi) as Htl. fold t in Htl.
  assert (forall y, y ∈ drop i hb -> y ∈ hb) as Hsub.
  { intros y Hy. rewrite <- (take_drop i hb). apply elem_of_app. by right. }
  assert (x ∈ drop i hb) as Hin by (rewrite Ed; by left).
  assert (t <> x) as Htx by (intros E; apply (li_home _ _ Hl x); [auto|by rewrite <- E]).
  assert (disk_has t /\ disk_has x) as Hdk by (split; apply (li_disk _ _ Hl); auto).
  destruct (proj2 (pi_use _ _ _ P x) Hin) as [[bf r] Hu]. assert (r = 1) as -> by (by eapply pi_one).
  assert (c_use aj !! t = None) as Hut.
  { apply eq_None_not_Some. rewrite (pi_use _ _ _ P). intros Hy. apply (li_home _ _ Hl t); auto. }
  assert (size (c_use aj) < NBUF)%nat as Hsz.
  { rewrite (pinned_size l (drop i hb) aj); [apply P| |done].
    pose proof (li_nodup _ _ Hl) as Hnd. rewrite <- (take_drop i hb) in Hnd. by apply NoDup_app in Hnd as (_ & _ & ?). }
  destruct (both_ok s1 aj t x bf 1) as (bt & s2 & s3 & E1 & E2 & C2 & O2 & C3 & O3); try done; [by apply P|].
  rewrite (bind_ok _ _ _ _ _ E1), (bind_ok _ _ _ _ _ (getlog_eq s2)), (outside_log _ _ O2), (outside_log _ _ O1), El.
  rewrite (li_dev _ _ Hl), (lhblock_at i x) by done.
  destruct (install_copy_ok s1 aj t x bf 1 C1 Htx) with (bt := bt) (s1 := s2) (s2 := s3)
    as (s4 & E4 & C4 & O4); try done; [by apply P|].
  exists s4. split; [exact E4|]. eexists. split; [exact C4|].
  replace (Z.to_nat (Z.of_nat i + 1)) with (S i) by lia.
  assert (c_data aj t = c_data a t) as Edt by (rewrite Hd; by apply home_writes_log).
  rewrite (take_S_r _ i _ (home_writes_at a i x Hx)). fold t. cbn [c_data c_medium c_trace].
  split_and!; [by apply pinned_drop| | | |by eapply outside_trans].
  - intros y. rewrite apply_writes_app, Edt. cbn. unfold dset. case_decide; [done|apply Hd].
  - intros y. rewrite apply_writes_app, Edt. cbn. unfold dset. case_decide; [done|apply Hm].
  - by rewrite Ht, Edt, app_assoc.
Qed.

(** [install_trans] after a commit: the home blocks from the log. *)
Lemma install_ok s a :
  cached s a -> logst (k_fs s) = l -> pinned l hb a ->
  exists s', install_trans false s = Ok (tt, s') /\
    cached s' (after (home_writes a) (Cache ∅ ∅ (c_data a) (c_medium a) (c_trace a))) /\ outside s s'.
Proof using All.
  intros C El P. unfold install_trans. rewrite (bind_ok _ _ _ _ _ (getlog_eq s)), El, (li_n _ _ Hl), Nat2Z.id.
  edestruct (for_each_inv (installing s a) (length hb) 0) as (s' & E & aj & C' & P' & Hd & Hm & Ht & O').
  3:{ exists s'. split; [exact E|]. split; [|done].
      replace (Z.to_nat (0 + Z.of_nat (length hb))) with (length hb) in * by lia.
      rewrite take_ge in * by (rewrite length_home_writes; lia). rewrite drop_all in P'.
      apply (cached_ext _ _ _ C'); cbn; try done.
      - symmetry. apply map_eq. intros x. rewrite lookup_empty. apply eq_None_not_Some.
        rewrite (pi_use _ _ _ P'). apply not_elem_of_nil.
      - symmetry. apply P'. }
  2:{ exists a. split_and!; try done; cbn; by rewrite app_nil_r. }
  intros j s1 Hj I. cbn [Z.add] in Hj. replace j with (Z.of_nat (Z.to_nat j)) in * by lia.
  apply (install_step s a (Z.to_nat j) s1 El); [lia|done].
Qed.

(** ** The header *)

(** The stores of [write_head]. *)
Lemma put_hdr_ok s b :
  bufs_backed (k_mem s) -> (b < NBUF)%nat -> logst (k_fs s) = l ->
  exists m, (onram (st32 (hdr_n (buf_data b)) (lh_n l)) ;;;
    for_each (Z.to_nat (lh_n l)) 0 (fun i =>
      l <- getlog ;; onram (st32 (hdr_block (buf_data b) i) (lhblock l i)))) s = Ok (tt, s <| k_mem := m |>) /\
    same_off (in_buf b) (k_mem s) m /\ block_at m b = set_hdr hb (block_at (k_mem s) b).
Proof using All.
  intros B Hb El. pose proof (li_n _ _ Hl) as Hn. pose proof (li_max _ _ Hl) as Hmax.
  unfold LOGSIZE, MAXOPBLOCKS in Hmax.
  destruct (st32_buf (k_mem s) b 0 (lh_n l) B Hb) as (m0 & E0 & So0 & Hb0); [pose proof bsize_Z; lia|].
  rewrite Z.add_0_r in E0. unfold hdr_n. rewrite (bind_ok _ _ _ _ _ (onram_ok _ _ _ _ E0)), Hn, Nat2Z.id.
  set (base := put_le 4 (block_at (k_mem s) b) 0 (Z.of_nat (length hb))).
  edestruct (for_each_inv (fun j t => exists m, t = s <| k_mem := m |> /\ same_off (in_buf b) (k_mem s) m /\
    block_at m b = put_blocks 0 (take (Z.to_nat j) hb) base) (length hb) 0) as (s' & E & m & -> & So & Hm).
  3:{ exists m. split; [exact E|]. split; [done|]. rewrite Hm, take_ge by lia. done. }
  2:{ exists m0. split_and!; [done..|]. rewrite Hb0, Hn. done. }
  intros j t Hj (m & -> & So & Hm). cbn [Z.add] in Hj.
  assert (exists i, j = Z.of_nat i /\ (i < length hb)%nat) as (i & -> & Hi) by (exists (Z.to_nat j); lia).
  rewrite Nat2Z.id in Hm. destruct (lookup_lt_is_Some_2 hb i Hi) as [x Hx].
  rewrite (bind_ok _ _ _ _ _ (getlog_eq _)). change (logst (k_fs (s <| k_mem := m |>))) with (logst (k_fs s)).
  rewrite El. unfold hdr_block.
  replace (buf_data b + 4 + 4 * Z.of_nat i) with (buf_data b + Z.of_nat (4 + 4 * i)) by lia.
  assert (lhblock l (Z.of_nat i) = x) as ->.
  { unfold lhblock. by rewrite Nat2Z.id, (li_blocks _ _ Hl i x Hx). }
  destruct (st32_buf m b (4 + 4 * i) x) as (m' & E & So' & Hm'); [by eapply backed_same|done|pose proof bsize_Z; lia|].
  exists (s <| k_mem := m' |>). split; [exact (onram_ok _ (s <| k_mem := m |>) tt m' E)|].
  exists m'. split; [done|]. split; [eapply same_off_trans; [exact So|exact So'|tauto]|].
  replace (Z.to_nat (Z.of_nat i + 1)) with (S i) by lia. rewrite (take_S_r hb i x Hx), put_blocks_snoc, Hm', Hm.
  rewrite length_take. by replace (0 + i `min` length hb)%nat with i by lia.
Qed.

Lemma write_head_ok s a :
  cached s a -> logst (k_fs s) = l -> c_held a = ∅ -> c_use a !! ls = None -> (size (c_use a) < NBUF)%nat ->
  exists s', write_head s = Ok (tt, s') /\ cached s' (writeto ls (set_hdr hb (c_data a ls)) a) /\ outside s s'.
Proof using All.
  intros C El Hh Hu Hsz. unfold write_head. pose proof (li_start _ _ Hl) as Hst. unfold LOGSIZE, MAXOPBLOCKS in Hst.
  rewrite (bind_ok _ _ _ _ _ (getlog_eq s)), El, (li_dev _ _ Hl), u32_id by lia.
  assert (refs a ls = 0) as Er by (unfold refs; by rewrite Hu).
  assert (disk_has ls) as Hdk.
  { apply (li_disk _ _ Hl). left. pose proof (li_n _ _ Hl). pose proof (li_max _ _ Hl). unfold in_log. lia. }
  destruct (bread_ok dv Hrounds s a ls) as (b & s1 & E1 & C1 & O1 & _); [done|split|done|].
  { rewrite Hh. set_solver. } { done. } { rewrite Er. lia. }
  rewrite (bind_ok _ _ _ _ _ E1), (bind_ok _ _ _ _ _ (getlog_eq s1)), (outside_log _ _ O1), El.
  assert (c_use (grab ls b a) !! ls = Some (b, 1)) as U1 by (cbn; by rewrite lookup_insert_eq, Er).
  destruct (use_buf _ _ _ _ _ _ _ C1 U1) as (_ & Hb & _).
  destruct (put_hdr_ok s1 b) as (m & E2 & So & Hm); [apply C1|done|by rewrite (outside_log _ _ O1)|].
  destruct (cached_put dv Hrounds s1 _ ls b 1 C1 U1 m So) as [C2 O2].
  rewrite Hm, (use_data dv Hrounds s1 _ ls b 1 C1 U1) in C2. set (v := set_hdr hb _) in C2.
  apply bind_inv in E2 as ([] & s0 & E2 & E3).
  rewrite (bind_ok _ _ _ _ _ E2), (bind_ok _ _ _ _ _ E3).
  destruct (bwrite_ok dv Hrounds _ _ ls b 1 C2 U1) as (s3 & E4 & C3 & O3); [set_solver|done|].
  rewrite (bind_ok _ _ _ _ _ E4).
  destruct (brelse_ok dv Hrounds s3 _ ls b 1 C3 U1) as (s4 & E5 & C4 & O4); [cbn; set_solver| |].
  { intros _. cbn. by rewrite !decide_True. }
  exists s4. split; [done|]. split; [|by repeat (eapply outside_trans; [eassumption|])].
  apply (cached_ext _ _ _ C4); [|cbn; try done..].
  - rewrite with_refs_0 by done. cbn. apply map_eq. intros x. destruct (decide (x = ls)) as [->|Hx].
    + by rewrite lookup_delete_eq.
    + by rewrite lookup_delete_ne, lookup_insert_ne by done.
  - rewrite Hh. apply set_eq. set_solver.
  - intros x. unfold dset. case_decide; [|done]. by rewrite decide_True.
  - by rewrite decide_True.
Qed.

End Loops.

(** ** Commit *)

Section Commit.
Context (l : log) (hb : list Z).
Hypothesis Hl : log_is l hb.
Notation ls := (l_start l).

Definition slog (f : log -> log) (s : kst) : kst := set k_fs (set logst f) s.
Lemma setlog_eq f s : setlog f s = Ok (tt, slog f s).
Proof using. done. Qed.
Lemma slog_slog f lg s : slog f (slog (fun _ => lg) s) = slog (fun _ => f lg) s.
Proof using. done. Qed.
Lemma slog_const f lg s : logst (k_fs s) = lg -> slog f s = slog (fun _ => f lg) s.
Proof using. intros <-. done. Qed.
Lemma logst_slog lg s : logst (k_fs (slog (fun _ => lg) s)) = lg.
Proof using. done. Qed.
Lemma onram_slog {A} (c : M ram A) lg s x :
  c (k_mem s) = Ok (x, k_mem s) -> onram c (slog (fun _ => lg) s) = Ok (x, slog (fun _ => lg) s).
Proof using. intros E. destruct s. unfold onram, zoom, slog in *. cbn in *. by rewrite E. Qed.
Lemma cached_slog s a f : cached s a -> cached (slog f s) a.
Proof using.
  intros [Q R Co V D F Cl He L B M T Dk]. split; try done.
  - by apply (quiet_ext s).
  - apply (disk_ok_ext s); [done..|apply same_off_refl].
Qed.

Lemma outside_slog s s' f : outside s s' -> outside (slog f s) (slog f s').
Proof using.
  intros O. destruct (O) as [? ? ? ? E ? ? ?]. split; try done.
  cbn. unfold set in *. cbn in *. injection E as -> -> -> ->. done.
Qed.

(** The transaction's writes, in order. *)
Definition tx_writes (a : cache) : list (Z * list Z) :=
  commit_writes ls (c_medium a) hb (c_data a <$> hb).
Definition after_commit (a : cache) : cache :=
  Cache ∅ ∅ (apply_writes (c_data a) (tx_writes a)) (apply_writes (c_medium a) (tx_writes a))
    (c_trace a ++ tx_writes a).

Lemma log_is_empty : log_is (l <| lh_n := 0 |>) [].
Proof using All.
  destruct Hl. split; try done; [change (0 <= 30 /\ 0 < l_size l); lia|apply NoDup_nil_2|by intros x ?%elem_of_nil|].
  intros x [Hx|Hx%elem_of_nil]; [|done]. apply (li_disk _ _ Hl). by left.
Qed.

Lemma log_writes_at (a : cache) i v :
  (c_data a <$> hb) !! i = Some v -> apply_writes (c_data a) (log_writes ls (c_data a <$> hb)) (ls + 1 + Z.of_nat i) = v.
Proof using All.
  intros Hv. apply apply_writes_in.
  - apply NoDup_alt. intros x y z. rewrite !list_lookup_fmap. unfold log_writes. rewrite !list_lookup_imap.
    destruct ((_ <$> hb) !! x), ((_ <$> hb) !! y); cbn; try done. intros [= <-] [= E]. lia.
  - apply list_elem_of_lookup. exists i. unfold log_writes. by rewrite list_lookup_imap, Hv.
Qed.
Lemma log_writes_hdr (a : cache) : apply_writes (c_data a) (log_writes ls (c_data a <$> hb)) ls = c_data a ls.
Proof using All.
  apply apply_writes_notin. unfold log_writes. rewrite list_elem_of_fmap. intros ([y v] & -> & Hy).
  apply list_elem_of_lookup in Hy as [i Hi]. rewrite list_lookup_imap in Hi.
  apply fmap_Some in Hi as (w & Hw & E). injection E. cbn. lia.
Qed.

Lemma commit_ok s a :
  cached s a -> logst (k_fs s) = l -> pinned l hb a -> hb <> [] ->
  exists s', commit s = Ok (tt, s') /\ cached s' (after_commit a) /\ outside (slog (set lh_n (fun _ => 0)) s) s'.
Proof using All.
  intros C El P Hne. assert (0 < lh_n l) as Hpos by (rewrite (li_n _ _ Hl); destruct hb; [done|cbn; lia]).
  assert (c_use a !! ls = None) as Hls.
  { apply eq_None_not_Some. rewrite (pi_use _ _ _ P). intros Hin. apply (li_home _ _ Hl ls Hin).
    pose proof (li_max _ _ Hl). pose proof (li_n _ _ Hl). unfold in_log. lia. }
  assert (size (c_use a) < NBUF)%nat as Hsz by (rewrite (pinned_size l hb a); [apply P|apply Hl|done]).
  unfold commit. rewrite (bind_ok _ _ _ _ _ (getlog_eq s)), El. case_cmp.
  destruct (write_log_ok l hb Hl s a C El P) as (s1 & E1 & C1 & O1). rewrite (bind_ok _ _ _ _ _ E1).
  set (W1 := log_writes ls (c_data a <$> hb)) in *.
  destruct (write_head_ok l hb Hl s1 _ C1) as (s2 & E2 & C2 & O2); try done.
  { by rewrite (outside_log _ _ O1). } { apply P. } rewrite (bind_ok _ _ _ _ _ E2).
  assert (c_data (after W1 a) ls = c_medium a ls) as Eh.
  { cbn. unfold W1. rewrite log_writes_hdr. by apply (ca_clean _ _ _ _ C). }
  rewrite Eh in C2. set (hd1 := set_hdr hb (c_medium a ls)) in *.
  destruct (install_ok l hb Hl s2 _ C2) as (s3 & E3 & C3 & O3).
  { by rewrite (outside_log _ _ O2), (outside_log _ _ O1). } { destruct P. by split. }
  rewrite (bind_ok _ _ _ _ _ E3), (bind_ok _ _ _ _ _ (setlog_eq _ _)).
  assert (home_writes l hb (writeto ls hd1 (after W1 a)) = zip hb (c_data a <$> hb)) as Eh2.
  { apply list_eq. intros i. unfold home_writes. rewrite list_lookup_imap, lookup_zip_with, list_lookup_fmap.
    destruct (hb !! i) as [x|] eqn:Hx; [|done]. cbn. unfold dset. rewrite decide_False by lia.
    unfold W1. rewrite (log_writes_at a i (c_data a x)); [done|]. by rewrite list_lookup_fmap, Hx. }
  rewrite Eh2 in C3.
  destruct (write_head_ok _ [] log_is_empty (slog (set lh_n (fun _ => 0)) s3) _ (cached_slog _ _ _ C3)) as (s4 & E4 & C4 & O4).
  { change (set lh_n (fun _ => 0) (logst (k_fs s3)) = l <| lh_n := 0 |>).
    by rewrite (outside_log _ _ (outside_trans _ _ _ (outside_trans _ _ _ O1 O2) O3)), El. }
  { done. } { apply lookup_empty. } { cbn [after c_use]. rewrite map_size_empty. unfold NBUF. lia. }
  exists s4. split; [exact E4|]. split.
  - assert (ls ∉ (zip hb (c_data a <$> hb)).*1) as Hnz.
    { rewrite fst_zip by (by rewrite length_fmap). intros Hin. apply (li_home _ _ Hl ls Hin).
      pose proof (li_max _ _ Hl). pose proof (li_n _ _ Hl). unfold in_log. lia. }
    assert (set_hdr [] (c_data (after (zip hb (c_data a <$> hb)) (Cache ∅ ∅ (c_data (writeto ls hd1 (after W1 a)))
        (c_medium (writeto ls hd1 (after W1 a))) (c_trace (writeto ls hd1 (after W1 a))))) ls)
      = set_hdr [] hd1) as Ed.
    { f_equal. cbn. rewrite apply_writes_notin by done. unfold dset. by rewrite decide_True. }
    change (l_start (l <| lh_n := 0 |>)) with ls in C4. rewrite Ed in C4.
    apply (cached_ext _ _ _ C4); try done; cbn [after_commit c_data c_medium c_trace]; unfold tx_writes, commit_writes;
      fold hd1; fold W1.
    + intros x. by rewrite !apply_writes_app.
    + intros x. by rewrite !apply_writes_app.
    + cbn. by rewrite <- !app_assoc.
  - apply (outside_trans _ (slog (set lh_n (fun _ => 0)) s3)); [|exact O4].
    apply outside_slog. by eapply outside_trans; [eapply outside_trans|].
Qed.
End Commit.

(** ** Recovery *)

Section Recovery.
Context (l : log) (hb : list Z) (s : kst) (a : cache).
Hypothesis C : cached s a.
Hypothesis Hheld : c_held a = ∅.
Hypothesis Huse : c_use a = ∅.

(** [install_trans] during recovery. *)
Lemma install_recover_ok :
  log_is l hb -> logst (k_fs s) = l -> exists s', install_trans true s = Ok (tt, s') /\
    cached s' (after (home_writes l hb a) a) /\ outside s s'.
Proof using All.
  intros Hl El. set (W := home_writes l hb a). pose proof (length_home_writes l hb a) as HW. fold W in HW.
  unfold install_trans. rewrite (bind_ok _ _ _ _ _ (getlog_eq s)), El, (li_n _ _ Hl), Nat2Z.id.
  edestruct (for_each_inv (fun j t => cached t (after (take (Z.to_nat j) W) a) /\ outside s t)
    (length hb) 0) as (s' & E & C' & O').
  3:{ exists s'. split; [exact E|]. split; [|done]. rewrite take_ge in C' by lia. exact C'. }
  2:{ split; [by apply cached_after_0|apply outside_refl]. }
  intros j s1 Hj [C1 O1]. cbn [Z.add] in Hj.
  assert (exists i, j = Z.of_nat i /\ (i < length hb)%nat) as (i & -> & Hi) by (exists (Z.to_nat j); lia).
  rewrite Nat2Z.id in C1. replace (Z.to_nat (Z.of_nat i + 1)) with (S i) by lia.
  destruct (lookup_lt_is_Some_2 hb i Hi) as [x Hx].
  assert (x ∈ hb) as Hin by (by eapply list_elem_of_lookup_2).
  rewrite (bind_ok _ _ _ _ _ (getlog_eq s1)), (outside_log _ _ O1), El, (li_dev _ _ Hl), (log_block l hb Hl) by done.
  set (t := l_start l + 1 + Z.of_nat i). pose proof (log_block_in l hb Hl i Hi) as Htl. fold t in Htl.
  assert (t <> x) as Htx by (intros E; apply (li_home _ _ Hl x Hin); by rewrite <- E).
  assert (disk_has t /\ disk_has x) as Hdk by (split; apply (li_disk _ _ Hl); auto).
  destruct (recover_read_ok s1 (after (take i W) a) t x) as (bt & s2 & bf & s3 & E1 & E2 & O2 & C3 & O3);
    try done.
  rewrite (bind_ok _ _ _ _ _ E1), (bind_ok _ _ _ _ _ (getlog_eq s2)), (outside_log _ _ O2), (outside_log _ _ O1), El.
  rewrite (li_dev _ _ Hl), (lhblock_at l hb Hl i x) by done.
  destruct (recover_copy_ok s1 (after (take i W) a) t x C1 Htx Hheld Huse Hdk bt bf s2 s3) as (s4 & E4 & C4 & O4); try done.
  exists s4. split; [exact E4|]. split; [|by eapply outside_trans].
  rewrite (take_S_r W i _ (home_writes_at l hb a i x Hx)). fold t. apply cached_after.
  assert (c_data (after (take i W) a) t = c_data a t) as Ed by (apply (home_writes_log l hb Hl); done).
  by rewrite <- Ed.
Qed.

(** A log before recovery. *)
Record fresh_log : Prop := FreshLog {
  fl_dev : l_dev l = dv;
  fl_start : 0 <= l_start l /\ l_start l + LOGSIZE < 2 ^ 31 /\ l_start l + l_size l < 2 ^ 31;
  fl_blocks : length (lh_block l) = Z.to_nat LOGSIZE;
  fl_disk x : in_log (l_start l) (l_size l) x \/ x ∈ hb -> disk_has x
}.

(** The loads of [read_head]. *)
Lemma get_hdr_ok b s1 :
  bufs_backed (k_mem s1) -> (b < NBUF)%nat -> logst (k_fs s1) = l -> fresh_log ->
  good_hdr hb (l_start l) (l_size l) (block_at (k_mem s1) b) ->
  exists l', (n <- onram (ldint (hdr_n (buf_data b))) ;;
    setlog (set lh_n (fun _ => n)) ;;;
    for_each (Z.to_nat n) 0 (fun i =>
      v <- onram (ldint (hdr_block (buf_data b) i)) ;;
      l <- getlog ;;
      some_or_fault (lh_block l !! Z.to_nat i) ;;;
      setlog (set lh_block (fun bs => <[Z.to_nat i := v]> bs)))) s1 = Ok (tt, slog (fun _ => l') s1) /\
    log_is l' hb /\ l_start l' = l_start l /\ l_size l' = l_size l.
Proof using All.
  intros B Hb El [F1 F2 F3 F4] [G1 G2 G3 G4 G5]. unfold LOGSIZE, MAXOPBLOCKS in G3.
  assert (onram (ldint (hdr_n (buf_data b))) s1 = Ok (Z.of_nat (length hb), s1)) as E0.
  { apply onram_read. rewrite <- G1. apply (ldint_cnt _ b B Hb). }
  rewrite (bind_ok _ _ _ _ _ E0), (bind_ok _ _ _ _ _ (setlog_eq _ _)), Nat2Z.id.
  edestruct (for_each_inv (fun j t => exists bs, t = slog (fun _ => l <| lh_n := Z.of_nat (length hb) |> <| lh_block := bs |>) s1 /\
    length bs = Z.to_nat LOGSIZE /\ forall i x, (i < Z.to_nat j)%nat -> hb !! i = Some x -> bs !! i = Some x)
    (length hb) 0) as (s' & E & bs & -> & Hlen & Hbs).
  3:{ eexists. split; [exact E|]. split; [|done]. split; try done.
      intros i x Hx. apply Hbs; [|done]. apply lookup_lt_Some in Hx. lia. }
  2:{ exists (lh_block l). split_and!; [|done|lia]. rewrite (slog_const _ l) by done. by destruct l. }
  intros j t Hj (bs & -> & Hlen & Hbs). cbn [Z.add] in Hj.
  assert (exists i, j = Z.of_nat i /\ (i < length hb)%nat) as (i & -> & Hi) by (exists (Z.to_nat j); lia).
  destruct (lookup_lt_is_Some_2 hb i Hi) as [x Hx]. set (lj := l <| lh_n := _ |> <| lh_block := bs |>).
  assert (onram (ldint (hdr_block (buf_data b) (Z.of_nat i))) (slog (fun _ => lj) s1) = Ok (x, slog (fun _ => lj) s1)) as E1.
  { apply onram_slog. rewrite <- (G2 i x Hx). apply (ldint_blk _ b i B Hb). lia. }
  rewrite (bind_ok _ _ _ _ _ E1), (bind_ok _ _ _ _ _ (getlog_eq _)), Nat2Z.id, logst_slog.
  destruct (lookup_lt_is_Some_2 bs i) as [y Hy]; [rewrite Hlen; unfold LOGSIZE, MAXOPBLOCKS; lia|].
  change (lh_block lj) with bs. rewrite Hy. cbn [some_or_fault].
  rewrite bind_ret, setlog_eq, slog_slog. eexists. split; [done|]. exists (<[i := x]> bs).
  split_and!; [done|by rewrite length_insert|].
  intros i' x' Hi' Hx'. destruct (decide (i' = i)) as [->|Hne].
  - rewrite list_lookup_insert_eq by (rewrite Hlen; unfold LOGSIZE, MAXOPBLOCKS; lia). congruence.
  - rewrite list_lookup_insert_ne by done. apply Hbs; [lia|done].
Qed.

Hypothesis El : logst (k_fs s) = l.
Hypothesis Hfresh : fresh_log.
Hypothesis Hgood : good_hdr hb (l_start l) (l_size l) (c_medium a (l_start l)).

Lemma all_clean bn : c_data a bn = c_medium a bn.
Proof using All. apply (ca_clean _ _ _ _ C). rewrite Huse. apply lookup_empty. Qed.

Lemma read_head_ok : exists s' l', read_head s = Ok (tt, s') /\ cached s' a /\ log_is l' hb /\
  l_start l' = l_start l /\ l_size l' = l_size l /\ outside (slog (fun _ => l') s) s'.
Proof using All.
  unfold read_head. pose proof (fl_start Hfresh) as Hst. unfold LOGSIZE, MAXOPBLOCKS in Hst.
  rewrite (bind_ok _ _ _ _ _ (getlog_eq s)), El, (fl_dev Hfresh), u32_id by lia. set (ls := l_start l) in *.
  assert (c_use a !! ls = None) as Hu by (rewrite Huse; apply lookup_empty).
  assert (refs a ls = 0) as Er by (unfold refs; by rewrite Hu).
  destruct (bread_ok dv Hrounds s a ls) as (b & s1 & E1 & C1 & O1 & _); [done|split| |].
  { rewrite Hheld. set_solver. } { intros _. rewrite Huse, map_size_empty. unfold NBUF. lia. } { rewrite Er. lia. }
  { apply (fl_disk Hfresh). left. pose proof (gh_max _ _ _ _ Hgood). unfold in_log. lia. }
  rewrite (bind_ok _ _ _ _ _ E1).
  assert (c_use (grab ls b a) !! ls = Some (b, 1)) as U1 by (cbn; by rewrite lookup_insert_eq, Er).
  destruct (use_buf _ _ _ _ _ _ _ C1 U1) as (_ & Hb & _).
  destruct (get_hdr_ok b s1) as (l' & E2 & Hl' & Els & Esz); [apply C1|done|by rewrite (outside_log _ _ O1)|done| |].
  { rewrite (use_data dv Hrounds s1 _ ls b 1 C1 U1). cbn. by rewrite all_clean. }
  apply bind_inv in E2 as (n & t1 & E2 & E3). apply bind_inv in E3 as ([] & t2 & E3 & E4).
  rewrite (bind_ok _ _ _ _ _ E2), (bind_ok _ _ _ _ _ E3), (bind_ok _ _ _ _ _ E4).
  destruct (brelse_ok dv Hrounds (slog (fun _ => l') s1) _ ls b 1 (cached_slog _ _ _ C1) U1) as (s2 & E5 & C2 & O2);
    [cbn; set_solver|intros _; apply all_clean|].
  exists s2, l'. split_and!; try done.
  - apply (cached_ext _ _ _ C2); [|cbn; try done..].
    + rewrite with_refs_0 by done. cbn. rewrite Huse. apply map_eq. intros x. rewrite lookup_empty.
      destruct (decide (x = ls)) as [->|Hx]; [by rewrite lookup_delete_eq|].
      by rewrite lookup_delete_ne, lookup_insert_ne, lookup_empty by done.
    + rewrite Hheld. apply set_eq. set_solver.
  - eapply outside_trans; [by apply outside_slog|done].
Qed.

(** The writes of recovery: the home blocks, then an empty header. *)
Lemma home_install l' : l_start l' = l_start l -> log_is l' hb ->
  home_writes l' hb a = install_writes (l_start l) (c_medium a).
Proof using All.
  intros Els Hl'. destruct Hgood as [G1 G2 G3 G4 G5]. apply list_eq. intros i.
  unfold home_writes, install_writes. rewrite list_lookup_imap, list_lookup_fmap, G1, Nat2Z.id, Els.
  destruct (hb !! i) as [x|] eqn:Hx; cbn.
  - rewrite lookup_seq_lt by (by eapply lookup_lt_Some). cbn. rewrite (G2 i x Hx), all_clean.
    destruct (G5 x) as [? _]; [by eapply list_elem_of_lookup_2|]. by rewrite u32_id by lia.
  - apply lookup_ge_None in Hx. by rewrite lookup_seq_ge.
Qed.

End Recovery.

Lemma recover_from_log_ok l hb s a :
  cached s a -> c_held a = ∅ -> c_use a = ∅ -> logst (k_fs s) = l -> fresh_log l hb ->
  good_hdr hb (l_start l) (l_size l) (c_medium a (l_start l)) ->
  exists s', recover_from_log s = Ok (tt, s') /\ cached s' (after (recovery_writes (l_start l) (c_medium a)) a) /\
    log_is (logst (k_fs s')) [] /\ l_start (logst (k_fs s')) = l_start l /\ l_size (logst (k_fs s')) = l_size l.
Proof using All.
  intros C Hh Hu El Hf Hg. unfold recover_from_log.
  destruct (read_head_ok l hb s a C Hh Hu El Hf Hg) as (s1 & l' & E1 & C1 & Hl' & Els & Esz & O1).
  rewrite (bind_ok _ _ _ _ _ E1).
  assert (logst (k_fs s1) = l') as El1 by (by rewrite (outside_log _ _ O1)).
  destruct (install_recover_ok l' hb s1 a C1 Hh Hu Hl' El1) as (s2 & E2 & C2 & O2).
  rewrite (bind_ok _ _ _ _ _ E2), (bind_ok _ _ _ _ _ (setlog_eq _ _)).
  rewrite (home_install l hb s a C Hh Hu El Hf Hg l' Els Hl') in C2.
  set (W := install_writes (l_start l) (c_medium a)) in *.
  assert (logst (k_fs (slog (set lh_n (fun _ => 0)) s2)) = l' <| lh_n := 0 |>) as El2.
  { change (set lh_n (fun _ => 0) (logst (k_fs s2)) = l' <| lh_n := 0 |>). by rewrite (outside_log _ _ O2), El1. }
  destruct (write_head_ok _ [] (log_is_empty l' hb Hl') (slog (set lh_n (fun _ => 0)) s2) _ (cached_slog _ _ _ C2))
    as (s3 & E3 & C3 & O3); try done.
  { cbn. rewrite Hu. apply lookup_empty. } { cbn. rewrite Hu, map_size_empty. unfold NBUF. lia. }
  change (l_start (l' <| lh_n := 0 |>)) with (l_start l') in C3. rewrite Els in C3.
  assert (c_data (after W a) (l_start l) = c_medium a (l_start l)) as Ed.
  { cbn. rewrite apply_writes_notin; [by apply (all_clean l hb s a)|].
    unfold W. rewrite <- (home_install l hb s a C Hh Hu El Hf Hg l' Els Hl'), home_writes_fst. intros Hin.
    apply (li_home _ _ Hl' _ Hin). pose proof (li_max _ _ Hl'). pose proof (li_n _ _ Hl'). rewrite Els. unfold in_log. lia. }
  rewrite Ed in C3. exists s3. split; [exact E3|]. split; [by apply cached_after|].
  rewrite (outside_log _ _ O3), El2. split_and!; [by apply (log_is_empty l' hb)|exact Els|exact Esz].
Qed.
End LogOps.

(** * Transactions

    [begin_op], [log_write] and [end_op] of log.c, and the log's start at boot,
    [initlog], over the buffer cache's view. *)

Section Tx.
Context `{DL : DiskLaws} (dv : Z) (Hrounds : (0 < rounds)%nat).
Notation cached := (cached dv).
Notation log_is := (log_is dv).

Lemma setlog_lockd f lk s : setlog f (lockd lk s) = Ok (tt, lockd lk (slog f s)).
Proof using. done. Qed.
Lemma getlog_lockd lk s : getlog (lockd lk s) = Ok (logst (k_fs s), lockd lk s).
Proof using. done. Qed.

(** Only the parts that the log and the scheduler change differ. *)
Lemma cached_woken s a ch : cached s a -> cached (woken ch s) a.
Proof using.
  intros C. pose proof C as [Q R Co V D F Cl He L B M T Dk]. split; try done.
  - apply (quiet_ext s); try done. apply woken_pids.
  - intros b Hb. destruct (L b Hb) as [L1 L2]. split; [|exact L2]. intros Hh.
    rewrite (mypid_ext s (woken ch s)); [exact (L1 Hh)|done..|apply woken_pids].
  - apply (disk_ok_ext s); [done..|apply same_off_refl].
Qed.

Section Held.
Context (s : kst) (a : cache).
Hypothesis C : cached s a.

Lemma acquire_log : acquire Llog s = Ok (tt, lockd Llog s).
Proof using All. apply (acquire_ok 8); [lia|apply (cached_cpu _ _ _ _ _ C); lia|by apply (cached_free _ _ _ _ _ C)]. Qed.
Lemma release_log : release Llog (lockd Llog s) = Ok (tt, s).
Proof using All. apply release_ok; [apply (cached_cpu _ _ _ _ _ C); lia|by apply (cached_free _ _ _ _ _ C)]. Qed.
Lemma wakeup_log ch : wakeup ch (lockd Llog s) = Ok (tt, lockd Llog (woken (Some ch) s)).
Proof using All.
  apply (wakeup_lockd 7); [lia|apply (cached_cpu _ _ _ _ _ C); lia|apply quiet_procs_free, C|done].
Qed.
End Held.

(** ** Joining a transaction *)

(** [begin_op] waits while a commit runs or the log might be full; else it
    counts one more operation. *)
Lemma begin_op_ok s a :
  cached s a -> let l := logst (k_fs s) in
  l_committing l = 0 -> lh_n l + (l_outstanding l + 1) * MAXOPBLOCKS <= LOGSIZE ->
  begin_op s = Ok (tt, slog (set l_outstanding (fun n => i32 (n + 1))) s).
Proof using All.
  intros C l Hc Hr. unfold begin_op. rewrite (bind_ok _ _ _ _ _ (acquire_log s a C)).
  pose proof (release_log _ a (cached_slog _ _ _ (set l_outstanding (fun n => i32 (n + 1))) C)) as Hrel.
  destruct rounds as [|n] eqn:E; [lia|]. cbn [loop].
  rewrite bind_assoc, (bind_ok _ _ _ _ _ (getlog_lockd _ _)). fold l. rewrite Hc. cbn [negb Z.eqb].
  case_cmp. rewrite bind_assoc, (bind_ok _ _ _ _ _ (setlog_lockd _ _ _)), bind_assoc.
  rewrite (bind_ok _ _ _ _ _ Hrel). done.
Qed.

(** ** Writing in a transaction *)

(** The search of [log_write]. *)
Lemma find_block l hb bn (s : kst) :
  log_is l hb ->
  for_ (Z.to_nat (lh_n l)) 0 (fun i => ret (if u32 (lhblock l i) =? bn then Some i else None)) s =
  Ok (if decide (bn ∈ hb) then Some (default 0 (Z.of_nat <$> (fst <$> list_find (eq bn) hb))) else None, s).
Proof using All.
  intros Hl. rewrite (li_n _ _ _ Hl), Nat2Z.id.
  assert (forall n k, (k + n = length hb)%nat ->
    for_ n (Z.of_nat k) (fun i => ret (if u32 (lhblock l i) =? bn then Some i else None)) s
    = Ok ((fun i => Z.of_nat (k + i)) <$> (fst <$> list_find (eq bn) (drop k hb)), s)) as Hfor.
  { induction n as [|n IH]; intros k Hk.
    - cbn [for_]. by rewrite drop_ge by lia.
    - cbn [for_]. destruct (lookup_lt_is_Some_2 hb k) as [x Hx]; [lia|].
      rewrite (drop_S _ x) by done. rewrite bind_ret, (lhblock_at dv Hrounds l hb Hl k x Hx). cbn [list_find].
      destruct (Z.eqb_spec x bn) as [->|Hne].
      + rewrite decide_True by done. cbn. unfold ret. do 3 f_equal. lia.
      + rewrite decide_False by done. replace (Z.of_nat k + 1) with (Z.of_nat (S k)) by lia.
        rewrite IH by lia. do 2 f_equal. destruct (list_find (eq bn) (drop (S k) hb)) as [[i y]|]; cbn; [|done].
        do 2 f_equal. lia. }
  specialize (Hfor (length hb) O ltac:(lia)). rewrite drop_0 in Hfor.
  etrans; [exact Hfor|]. do 2 f_equal.
  case_decide as Hin.
  - destruct (list_find_elem_of (eq bn) hb bn Hin eq_refl) as [[i y] ->]. done.
  - destruct (list_find (eq bn) hb) as [[i y]|] eqn:E; [|done].
    apply list_find_Some in E as (Hi & -> & _). destruct Hin. by eapply list_elem_of_lookup_2.
Qed.

(** The part of the log's state that [log_write] leaves alone. *)
Definition log_frame (l : log) := (l_start l, l_size l, l_outstanding l, l_committing l, l_dev l).

Section LogWrite.
Context (s : kst) (a : cache) (hb : list Z) (bn : Z) (b : nat) (r : Z).
Hypothesis C : cached s a.
Hypothesis Hl : log_is (logst (k_fs s)) hb.
Hypothesis Hout : 1 <= l_outstanding (logst (k_fs s)).
Hypothesis Hroom : lh_n (logst (k_fs s)) < LOGSIZE /\ lh_n (logst (k_fs s)) < l_size (logst (k_fs s)) - 1.
Hypothesis Hu : c_use a !! bn = Some (b, r).
Hypothesis Hr : r + 1 < 2 ^ 32.
Hypothesis Hbn : 0 <= bn < 2 ^ 31 /\ ~ in_log (l_start (logst (k_fs s))) (l_size (logst (k_fs s))) bn.
Hypothesis Hdk : disk_has bn.

(** A block that is in the transaction already is absorbed; another one is
    added and its buffer pinned.  Apart from the log nothing outside the cache
    changes. *)
Lemma log_write_ok : exists s', log_write b s = Ok (tt, s') /\
  log_frame (logst (k_fs s')) = log_frame (logst (k_fs s)) /\ outside s (slog (fun _ => logst (k_fs s)) s') /\
  (if decide (bn ∈ hb) then cached s' a /\ log_is (logst (k_fs s')) hb
   else cached s' (with_refs bn b (r + 1) (c_held a) a) /\ log_is (logst (k_fs s')) (hb ++ [bn])).
Proof using All.
  set (l := logst (k_fs s)) in *. destruct (use_buf _ _ _ _ _ _ _ C Hu) as (bf & Hb & Hbf & Hd & Hn & _).
  unfold log_write. rewrite (bind_ok _ _ _ _ _ (acquire_log s a C)), (bind_ok _ _ _ _ _ (getlog_lockd _ _)). fold l.
  unfold LOGSIZE, MAXOPBLOCKS in *. repeat case_cmp. cbn [orb].
  erewrite (bind_ok (getbuf b)) by (apply getbuf_ok; exact Hbf). rewrite Hn.
  rewrite (bind_ok _ _ _ _ _ (find_block l hb bn _ Hl)). pose proof (li_n _ _ _ Hl) as Hln.
  case_decide as Hin.
  - destruct (list_find_elem_of (eq bn) hb bn Hin eq_refl) as [[i y] Hi]. rewrite Hi. cbn [fmap option_fmap option_map from_option id fst].
    apply list_find_Some in Hi as (Hi & <- & _).
    pose proof (lookup_lt_Some _ _ _ Hi) as Hlt.
    rewrite (bind_ok _ _ _ _ _ (setlog_lockd _ _ _)), i32_id by lia. case_cmp. rewrite bind_ret.
    assert (slog (set lh_block (fun bs => <[Z.to_nat (Z.of_nat i) := bn]> bs)) s = s) as ->.
    { rewrite Nat2Z.id. pose proof (li_blocks _ _ _ Hl i bn Hi) as Hb'. unfold l in Hb'. clear -Hb'.
      destruct s as [h ls sls m pt [bs [] sb it ft] io bu sl kp st]. unfold slog, set. cbn in *. by rewrite list_insert_id. }
    rewrite (release_log s a C). exists s. by split_and!.
  - cbn [from_option id]. rewrite (bind_ok _ _ _ _ _ (setlog_lockd _ _ _)), i32_id, Z.eqb_refl by lia.
    set (s1 := slog _ s). assert (cached s1 a) as C1 by (by apply cached_slog).
    rewrite bind_assoc, (bind_ok _ _ _ _ _ (bpin_lockd dv Hrounds s1 a bn b r C1 Hu Llog ltac:(done))).
    pose proof (bpin_cached dv Hrounds s1 a bn b r C1 Hu Hr) as C2.
    rewrite (bind_ok _ _ _ _ _ (setlog_lockd _ _ _)).
    rewrite (release_log _ _ (cached_slog _ _ _ _ C2)). eexists. split_and!; [done|done|by split|by apply cached_slog|].
    change (logst (k_fs (slog (set lh_n (fun n => i32 (n + 1))) (count (fun n => u32 (n + 1)) b s1))))
      with (l <| lh_block := <[Z.to_nat (lh_n l) := bn]> (lh_block l) |> <| lh_n := i32 (lh_n l + 1) |>).
    destruct Hl as [L1 L2 L3 L4 L5 L6 L7 L8 L9]. split; cbn; try done.
    + rewrite i32_id by lia. rewrite length_app. cbn. lia.
    + unfold LOGSIZE, MAXOPBLOCKS. rewrite i32_id by lia. lia.
    + by rewrite length_insert.
    + intros i x Hi. rewrite L3, Nat2Z.id. apply lookup_app_Some in Hi as [Hi|[Hge Hi]].
      * rewrite list_lookup_insert_ne by (apply lookup_lt_Some in Hi; lia). by apply L6.
      * apply list_lookup_singleton_Some in Hi as [Hi <-]. replace i with (length hb) by lia.
        apply list_lookup_insert_eq. rewrite L5. unfold LOGSIZE, MAXOPBLOCKS. lia.
    + apply NoDup_app. split_and!; [done|set_solver|apply NoDup_singleton].
    + intros x [Hx|Hx]%elem_of_app; [by apply L8|]. apply list_elem_of_singleton in Hx as ->. done.
    + intros x [Hx|[Hx|Hx]%elem_of_app]; [apply L9; by left|apply L9; by right|]. by apply list_elem_of_singleton in Hx as ->.
Qed.
End LogWrite.

(** ** Leaving a transaction *)

Section EndOp.
Context (s : kst) (a : cache) (hb : list Z).
Hypothesis C : cached s a.
Let l := logst (k_fs s).
Hypothesis Hl : log_is l hb.
Hypothesis Hcom : l_committing l = 0.

(** The last operation commits. *)
Lemma end_op_last :
  l_outstanding l = 1 -> pinned l hb a -> hb <> [] ->
  exists s', end_op s = Ok (tt, s') /\ cached s' (after_commit l hb a) /\
    logst (k_fs s') = l <| l_outstanding := 0 |> <| l_committing := 0 |> <| lh_n := 0 |>.
Proof using All.
  intros Hout P Hne. unfold end_op. rewrite (bind_ok _ _ _ _ _ (acquire_log s a C)).
  rewrite (bind_ok _ _ _ _ _ (setlog_lockd _ _ _)), (bind_ok _ _ _ _ _ (getlog_lockd _ _)).
  rewrite (slog_const _ l s eq_refl), logst_slog. set (l1 := set l_outstanding _ l).
  change (l_committing l1) with (l_committing l). rewrite Hcom. cbn [negb Z.eqb].
  assert (l_outstanding l1 = 0) as -> by (unfold l1, set; cbn; rewrite Hout; done). cbn [Z.eqb].
  rewrite bind_assoc, (bind_ok _ _ _ _ _ (setlog_lockd _ _ _)), bind_ret, slog_slog.
  set (l2 := set l_committing _ l1). set (s2 := slog (fun _ => l2) s).
  assert (cached s2 a) as C2 by (by apply cached_slog).
  rewrite (bind_ok _ _ _ _ _ (release_log s2 a C2)).
  assert (log_is l2 hb) as Hl2 by (destruct Hl; by split).
  destruct (commit_ok dv Hrounds l2 hb Hl2 s2 a C2 (logst_slog _ _)) as (s3 & E3 & C3 & O3);
    [by destruct P|done|].
  rewrite (bind_ok _ _ _ _ _ E3), (bind_ok _ _ _ _ _ (acquire_log s3 _ C3)), (bind_ok _ _ _ _ _ (setlog_lockd _ _ _)).
  assert (logst (k_fs s3) = l2 <| lh_n := 0 |>) as El3 by (rewrite (outside_log _ _ O3); done).
  rewrite (slog_const _ _ s3 El3). set (l3 := set l_committing _ _).
  assert (cached (slog (fun _ => l3) s3) (after_commit l hb a)) as C4 by (by apply cached_slog).
  rewrite (bind_ok _ _ _ _ _ (wakeup_log _ _ C4 _)).
  pose proof (cached_woken _ _ (Some Clog) C4) as C5. rewrite (release_log _ _ C5).
  eexists. split; [done|]. split; [exact C5|]. unfold l3, l2, l1, set. cbn. by rewrite Hout.
Qed.

(** An earlier one only wakes the operations that wait for log space. *)
Lemma end_op_early :
  1 < l_outstanding l < 2 ^ 31 ->
  exists s', end_op s = Ok (tt, s') /\ cached s' a /\
    logst (k_fs s') = l <| l_outstanding := l_outstanding l - 1 |>.
Proof using All.
  intros Hout. unfold end_op. rewrite (bind_ok _ _ _ _ _ (acquire_log s a C)).
  rewrite (bind_ok _ _ _ _ _ (setlog_lockd _ _ _)), (bind_ok _ _ _ _ _ (getlog_lockd _ _)).
  rewrite (slog_const _ l s eq_refl), logst_slog. set (l1 := set l_outstanding _ l).
  change (l_committing l1) with (l_committing l). rewrite Hcom. cbn [negb Z.eqb].
  assert (l_outstanding l1 = l_outstanding l - 1) as Ho by (unfold l1, set; cbn; rewrite i32_id; lia).
  rewrite Ho. case_cmp. assert (cached (slog (fun _ => l1) s) a) as C1 by (by apply cached_slog).
  rewrite bind_assoc, (bind_ok _ _ _ _ _ (wakeup_log _ _ C1 _)), bind_ret.
  pose proof (cached_woken _ _ (Some Clog) C1) as C2. rewrite (bind_ok _ _ _ _ _ (release_log _ _ C2)).
  eexists. split; [done|]. split; [exact C2|].
  change (logst (k_fs (woken (Some Clog) (slog (fun _ => l1) s)))) with l1.
  unfold l1, set. cbn. by rewrite i32_id by lia.
Qed.
End EndOp.

(** ** Boot *)

Lemma cached_initlock lk nm s a : cached s a -> cached (set k_locks <[lk := Spin 0 nm None]> s) a.
Proof using.
  intros [Q R Co V D F Cl He L B M T Dk]. split; try done; [by apply quiet_initlock|].
  apply (disk_ok_ext s); [done..|apply same_off_refl].
Qed.

(** [initlog] on a freshly started cache recovers the disk. *)
Lemma initlog_ok s a sb hb :
  cached s a -> c_held a = ∅ -> c_use a = ∅ ->
  let ls := s_logstart sb in
  0 <= ls -> ls + LOGSIZE < 2 ^ 31 -> length (lh_block (logst (k_fs s))) = Z.to_nat LOGSIZE ->
  ls + s_nlog sb < 2 ^ 31 -> good_hdr hb ls (s_nlog sb) (c_medium a ls) ->
  (forall x, in_log ls (s_nlog sb) x \/ x ∈ hb -> disk_has x) ->
  exists s' W, initlog dv sb s = Ok (tt, s') /\
    W = recovery_writes ls (c_medium a) /\ cached s' (after W a) /\
    log_is (logst (k_fs s')) [] /\ l_start (logst (k_fs s')) = ls /\ l_size (logst (k_fs s')) = s_nlog sb.
Proof using All.
  intros C Hh Hu ls H1 H2 Hlen H3 Hg Hdk. unfold initlog. pose proof (gh_max _ _ _ _ Hg).
  change (BSIZE <=? sizeof_logheader) with false. cbv iota.
  rewrite (bind_ok _ _ _ _ _ (initlock_eq _ _ _)). set (s1 := set k_locks _ s).
  assert (cached s1 a) as C1 by (by apply cached_initlock).
  rewrite !(bind_ok _ _ _ _ _ (setlog_eq _ _)), (slog_const _ (logst (k_fs s)) s1 eq_refl), !slog_slog.
  set (l := set l_dev _ _). unfold LOGSIZE, MAXOPBLOCKS in H2.
  assert (l_start l = ls) as Els by (unfold l, set; cbn; apply i32_id; unfold ls in *; lia).
  assert (l_size l = s_nlog sb) as Esz by (unfold l, set; cbn; apply i32_id; unfold ls in *; lia).
  destruct (recover_from_log_ok dv Hrounds l hb (slog (fun _ => l) s1) a) as (s' & E & C' & Hl & El & El2); try done.
  - by apply cached_slog.
  - split; [done| |done|by rewrite Els, Esz]. rewrite Els, Esz. unfold LOGSIZE, MAXOPBLOCKS. lia.
  - by rewrite Els, Esz.
  - exists s', (recovery_writes (l_start l) (c_medium a)). split_and!; try done; [|by rewrite El|by rewrite El2].
    by rewrite Els.
Qed.
End Tx.
