(* ===== verification/LogThm.v ===== *)
(** * Theorems about the buffer cache and the log *)

From S2P Require Import Prelude CInt Memory KMonad Riscv KState KString Blocks Spinlock Sched Bio Log.
From S2P Require Import LockProof BioList BioInv BioProof LogSpec Sample LogProof.

Section Commit.
Context `{DL : DiskLaws} (dv : Z).

(** A transaction that is ready to be committed: its blocks are pinned, no
    buffer is held, one operation is left, and the header on the disk is
    empty. *)
Record ready (s : kst) (a : cache) (hb : list Z) : Prop := Ready {
  re_cached : cached dv s a;
  re_log : log_is dv (logst (k_fs s)) hb;
  re_pinned : pinned (logst (k_fs s)) hb a;
  re_some : hb <> [];
  re_last : l_outstanding (logst (k_fs s)) = 1;
  re_idle : l_committing (logst (k_fs s)) = 0;
  re_header : hdr_cnt (c_medium a (l_start (logst (k_fs s)))) = 0
}.

(** A machine that has just booted with the disk [d]. *)
Record booted (d : disk_of) (t : kst) (b : cache) : Prop := Booted {
  bo_cached : cached dv t b;
  bo_use : c_use b = ∅;
  bo_held : c_held b = ∅;
  bo_log : length (lh_block (logst (k_fs t))) = Z.to_nat LOGSIZE;
  bo_disk bn : c_medium b bn = d bn
}.

Lemma ready_crash s a hb :
  ready s a hb -> let ls := l_start (logst (k_fs s)) in let nl := l_size (logst (k_fs s)) in
  length (c_data a <$> hb) = length hb /\ Z.of_nat (length hb) <= LOGSIZE /\ Z.of_nat (length hb) < nl /\ NoDup hb /\
  (forall x, x ∈ hb -> 0 <= x < 2 ^ 31 /\ ~ in_log ls nl x) /\ length (c_medium a ls) = Z.to_nat BSIZE.
Proof using.
  intros R ls nl. destruct (re_log _ _ _ R) as [L1 L2 L3 L4 L5 L6 L7 L8 _].
  split_and!; try done; [by rewrite length_fmap|lia|lia|].
  rewrite <- (ca_medium _ _ _ _ (re_cached _ _ _ R)). apply medium_length.
Qed.

(** The contents the cache has are those of the transaction. *)
Lemma committed_data s a hb bn :
  ready s a hb -> committed (c_medium a) hb (c_data a <$> hb) bn = c_data a bn.
Proof using.
  intros R. pose proof (ready_crash _ _ _ R) as (Hlen & _ & _ & Hnd & _).
  unfold committed. destruct (decide (bn ∈ hb)) as [Hin|Hin].
  - apply list_elem_of_lookup in Hin as [i Hi]. apply apply_writes_in.
    + by rewrite fst_zip by (by rewrite length_fmap).
    + apply list_elem_of_lookup. exists i. by rewrite lookup_zip_with, Hi, list_lookup_fmap, Hi.
  - rewrite apply_writes_notin by (by rewrite fst_zip by (by rewrite length_fmap)).
    symmetry. apply (ca_clean _ _ _ _ (re_cached _ _ _ R)). apply eq_None_not_Some.
    by rewrite (pi_use _ _ _ (re_pinned _ _ _ R)).
Qed.

(** Whatever a crash leaves as header, recovery can read it. *)
Lemma crash_good s a hb k :
  ready s a hb -> let ls := l_start (logst (k_fs s)) in let nl := l_size (logst (k_fs s)) in
  exists hb', hb' ⊆ hb /\ good_hdr hb' ls nl (apply_writes (c_medium a) (take k (tx_writes (logst (k_fs s)) hb a)) ls).
Proof using.
  intros R ls nl. pose proof (ready_crash _ _ _ R) as (H1 & H2 & H2' & H3 & H4 & H5). fold ls nl in H2', H4, H5.
  assert (4 + 4 * length hb <= length (c_medium a ls))%nat as Hfit.
  { rewrite H5. unfold LOGSIZE, MAXOPBLOCKS, BSIZE in *. lia. }
  unfold LOGSIZE, MAXOPBLOCKS in H2.
  destruct (crash_hdr ls nl (c_medium a) hb (c_data a <$> hb)) with (k := k) as [E|[E|E]]; try done;
    [apply (re_header _ _ _ R)|..]; unfold tx_writes; fold ls; cbv zeta in E; rewrite E.
  - exists []. split; [set_solver|]. apply good_empty; [lia|apply (re_header _ _ _ R)].
  - exists hb. split; [done|]. split; try done.
    + apply hdr_cnt_set; lia.
    + intros i x Hx. rewrite (hdr_blk_set hb _ i x) by done. apply i32_id.
      destruct (H4 x); [by eapply list_elem_of_lookup_2|lia].
  - exists []. split; [set_solver|]. apply good_empty; [lia|]. apply (hdr_cnt_set []); [|done]. rewrite length_set_hdr. lia.
Qed.

(** Outside the log the disk has the transaction when the commit is done. *)
Lemma commit_home s a hb bn :
  ready s a hb -> ~ in_log (l_start (logst (k_fs s))) (l_size (logst (k_fs s))) bn ->
  apply_writes (c_medium a) (tx_writes (logst (k_fs s)) hb a) bn = c_data a bn.
Proof using.
  intros R Hbn. pose proof (ready_crash _ _ _ R) as (H1 & H2 & H2' & H3 & H4 & H5).
  rewrite <- (committed_data s a hb bn R). set (W := tx_writes _ _ _).
  assert (length W = 2 * length hb + 2)%nat as Hl.
  { unfold W, tx_writes, commit_writes, log_writes. rewrite !length_app, length_imap, length_zip_with, length_fmap. cbn. lia. }
  rewrite <- (crash_new _ _ (c_medium a) hb _ H1 H2 H2' H3 H4 H5 (re_header _ _ _ R) (length W) bn) by (done || lia).
  fold (tx_writes (logst (k_fs s)) hb a). fold W. rewrite take_ge by done. rewrite recovered_none; [done|].
  unfold W, tx_writes, commit_writes. rewrite !apply_writes_app. unfold apply_writes at 1. cbn [foldl fst snd].
  unfold dset. rewrite decide_True by done. apply (hdr_cnt_set []); [|done].
  rewrite length_set_hdr, H5. unfold BSIZE. lia.
Qed.

Context (Hrounds : (0 < rounds)%nat).

(** Recovery on a booted machine. *)
Lemma boot_recovers d t b sb hb :
  booted d t b -> let ls := s_logstart sb in
  0 <= ls -> ls + LOGSIZE < 2 ^ 31 -> ls + s_nlog sb < 2 ^ 31 -> good_hdr hb ls (s_nlog sb) (d ls) ->
  (forall x, in_log ls (s_nlog sb) x \/ x ∈ hb -> disk_has x) ->
  exists t', initlog dv sb t = Ok (tt, t') /\
    trace (devices (k_io t')) = trace (devices (k_io t)) ++ recovery_writes ls d /\
    forall bn, medium (devices (k_io t')) bn = apply_writes d (recovery_writes ls d) bn.
Proof using All.
  intros [C Hu Hh Hl Em] ls H1 H2 H3 G Hdk. rewrite <- Em in G.
  destruct (initlog_ok dv Hrounds t b sb hb C Hh Hu H1 H2 Hl H3 G Hdk) as (t' & W & E & -> & C' & _).
  assert (recovery_writes ls (c_medium b) = recovery_writes ls d) as Er.
  { unfold recovery_writes. rewrite Em. f_equal. pose proof (gh_max _ _ _ _ G). apply (install_writes_ext _ (s_nlog sb)); [done|lia|].
    rewrite (gh_cnt _ _ _ _ G). apply G. }
  exists t'. split; [exact E|]. rewrite <- Er, (ca_trace _ _ _ _ C'), (ca_trace _ _ _ _ C). split; [done|].
  intros bn. rewrite (ca_medium _ _ _ _ C'). cbn. by apply apply_writes_ext.
Qed.
End Commit.

(** C3. A transaction is atomic with respect to crashes.  When the last
    operation of a transaction ends, [end_op] writes a list [W] of blocks and
    afterwards the disk has the transaction's contents everywhere outside the
    log.  If the machine stops after any [k] of these writes and boots again,
    [initlog] recovers: outside the log the disk is as it was before the
    transaction when the header had not been written ([k] at most the number of
    blocks), and as the transaction leaves it otherwise. *)
Theorem log_crash_atomic `{DL : DiskLaws} (dv : Z) (s : kst) (a : cache) (hb : list Z) :
  (0 < rounds)%nat -> ready dv s a hb ->
  let ls := l_start (logst (k_fs s)) in let nl := l_size (logst (k_fs s)) in
  exists s' W, end_op s = Ok (tt, s') /\
    trace (devices (k_io s')) = trace (devices (k_io s)) ++ W /\
    (forall bn, ~ in_log ls nl bn -> medium (devices (k_io s')) bn = c_data a bn) /\
    forall k t b sb, booted dv (apply_writes (medium (devices (k_io s))) (take k W)) t b ->
      s_logstart sb = ls -> s_nlog sb = nl ->
      exists t', initlog dv sb t = Ok (tt, t') /\
        forall bn, ~ in_log ls nl bn -> medium (devices (k_io t')) bn =
          if decide (k <= length hb)%nat then medium (devices (k_io s)) bn else c_data a bn.
Proof.
  intros Hr R ls nl. pose proof (re_cached _ _ _ _ R) as C. pose proof (re_log _ _ _ _ R) as L.
  pose proof (ready_crash dv s a hb R) as (H1 & H2 & H2' & H3 & H4 & H5). fold ls nl in H2', H4, H5.
  assert (forall bn, medium (devices (k_io s)) bn = c_medium a bn) as Em by apply C.
  destruct (end_op_last dv Hr s a hb C L (re_idle _ _ _ _ R) (re_last _ _ _ _ R)
    (re_pinned _ _ _ _ R) (re_some _ _ _ _ R)) as (s' & E & C' & El).
  set (W := tx_writes (logst (k_fs s)) hb a). exists s', W. split_and!; [done| | |].
  - by rewrite (ca_trace _ _ _ _ C'), (ca_trace _ _ _ _ C).
  - intros bn Hbn. rewrite (ca_medium _ _ _ _ C'). by apply (commit_home dv).
  - intros k t b sb B Esb Esn. set (d := apply_writes _ _) in B.
    assert (forall x, d x = apply_writes (c_medium a) (take k W) x) as Ed by (intros x; by apply apply_writes_ext).
    destruct (crash_good dv s a hb k R) as (hb' & Hsub & G). fold W ls nl in G. rewrite <- Ed in G.
    destruct (li_start _ _ _ L) as (Hs1 & Hs2 & Hs3). fold ls nl in Hs1, Hs2, Hs3.
    destruct (boot_recovers dv Hr d t b sb hb' B) as (t' & Et & _ & Ht); rewrite ?Esb, ?Esn; try done.
    { intros x Hx. apply (li_disk _ _ _ L). destruct Hx as [Hx|Hx]; [by left|right; by apply Hsub]. }
    exists t'. split; [exact Et|]. intros bn Hbn. rewrite Ht, Esb, (recovery_result ls nl d hb') by done.
    rewrite (recovered_ext _ _ _ _ Ed), Em. case_decide as Hk.
    + apply (crash_old ls nl); try done. apply (re_header _ _ _ _ R).
    + rewrite <- (committed_data dv s a hb bn R). apply (crash_new ls nl); try done; [apply (re_header _ _ _ _ R)|lia].
Qed.

(** C13. Recovery may itself be interrupted.  On a machine booted with a
    disk whose log header names distinct blocks of the disk outside the log, [initlog]
    writes a list [W] of blocks and returns; if the machine stops after any [j]
    of these writes and boots again, the second [initlog] also returns, and
    outside the log the disk is what the first one would have made of it. *)
Theorem recovery_idempotent `{DL : DiskLaws} (dv : Z) (d : disk_of) (t : kst) (b : cache) (sb : superblock) (hb : list Z) :
  (0 < rounds)%nat -> booted dv d t b ->
  let ls := s_logstart sb in let nl := s_nlog sb in
  0 <= ls -> ls + LOGSIZE < 2 ^ 31 -> ls + s_nlog sb < 2 ^ 31 -> good_hdr hb ls (s_nlog sb) (d ls) ->
  (forall x, in_log ls nl x \/ x ∈ hb -> disk_has x) ->
  exists t' W, initlog dv sb t = Ok (tt, t') /\
    trace (devices (k_io t')) = trace (devices (k_io t)) ++ W /\
    forall j u c, booted dv (apply_writes d (take j W)) u c ->
      exists u', initlog dv sb u = Ok (tt, u') /\
        forall bn, ~ in_log ls nl bn -> medium (devices (k_io u')) bn = medium (devices (k_io t')) bn.
Proof.
  intros Hr B ls nl H1 H2 H3 G Hdk. destruct (boot_recovers dv Hr d t b sb hb B H1 H2 H3 G Hdk) as (t' & E & Et & Em).
  exists t', (recovery_writes ls d). split_and!; [done..|]. intros j u c B'.
  destruct (recovery_crash ls nl d hb G j) as (hb' & Hsub & G' & Hrec).
  { rewrite <- (bo_disk _ _ _ _ B), <- (ca_medium _ _ _ _ (bo_cached _ _ _ _ B)), medium_length. unfold bsize, BSIZE. lia. }
  destruct (boot_recovers dv Hr _ u c sb hb' B' H1 H2 H3 G') as (u' & E' & _ & Em').
  { intros x Hx. apply Hdk. destruct Hx as [Hx|Hx]; [by left|right; by apply Hsub]. }
  exists u'. split; [done|]. intros bn Hbn. rewrite Em, Em', (recovery_result ls nl _ hb'), (recovery_result ls nl d hb) by done. by apply Hrec.
Qed.

(** Releasing what was just read gives the abstract state back. *)
Lemma ungrab `{DL : DiskLaws} dv s s' a bn b :
  cached dv s a -> (forall b0 r0, c_use a !! bn = Some (b0, r0) -> b = b0) -> bn ∉ c_held a ->
  cached dv s' (with_refs bn b (refs a bn) (c_held (grab bn b a) ∖ {[bn]}) (grab bn b a)) -> cached dv s' a.
Proof.
  intros C Hb Hh C'. apply (cached_ext _ _ _ _ C'); try done; [|cbn; set_solver].
  cbn. unfold refs. destruct (c_use a !! bn) as [[b0 r0]|] eqn:E; cbn.
  - destruct (use_buf _ _ _ _ _ _ _ C E) as (bf & _ & _ & _ & _ & _ & ?).
    rewrite decide_False by lia. by rewrite insert_insert_eq, insert_id by (by rewrite (Hb b0 r0 eq_refl)).
  - by rewrite delete_insert_id.
Qed.

(** C5. The contract of the buffer cache.  [bread] on a cache whose abstract
    state is [a] returns a buffer: its data in RAM are the contents the cache
    has for the block, the calling process holds its sleep lock, its reference
    count is one more than before, and it is the buffer that cached the block
    before if there was one.  [brelse] of this buffer gives the abstract state
    back, up to the order in which buffers are recycled. *)
Theorem bread_brelse `{DL : DiskLaws} (dv : Z) (s : kst) (a : cache) (bn : Z) :
  (0 < rounds)%nat -> cached dv s a -> can_get bn a -> disk_has bn ->
  exists b s', bread dv bn s = Ok (b, s') /\
    cached dv s' (grab bn b a) /\ outside s s' /\
    block_at (k_mem s') b = c_data a bn /\
    holdingsleep (SLbuf b) s' = Ok (true, s') /\
    (forall b0 r0, c_use a !! bn = Some (b0, r0) -> b = b0) /\
    exists s'', brelse b s' = Ok (tt, s'') /\ cached dv s'' a /\ outside s s''.
Proof.
  intros Hr C G Hbn. destruct (bread_ok dv Hr s a bn C G Hbn) as (b & s' & E & C' & O & Hsame).
  set (r := refs a bn + 1) in *. assert (c_use (grab bn b a) !! bn = Some (b, r)) as Hu by apply lookup_insert_eq.
  exists b, s'. split_and!; try done.
  - change (c_data a bn) with (c_data (grab bn b a) bn). by eapply use_data.
  - eapply held_ok; [done|exact C'|exact Hu|set_solver].
  - destruct (brelse_ok dv Hr s' _ bn b r C' Hu) as (s'' & E'' & C'' & O''); [set_solver| |].
    { intros Hr1. cbn. apply (ca_clean _ _ _ _ C). unfold r, refs in Hr1.
      destruct (c_use a !! bn) as [[b0 r0]|] eqn:Eu; [|done]. cbn in Hr1.
      destruct (use_buf _ _ _ _ _ _ _ C Eu) as (bf & _ & _ & _ & _ & _ & ?). lia. }
    exists s''. split_and!; [done| |by eapply outside_trans]. unfold r in C''. rewrite Z.add_simpl_r in C''.
    by apply (ungrab dv s s'' a bn b C Hsame); [apply G|].
Qed.

(** [log_write] inside a transaction with the blocks [hb].  It returns,
    changes nothing but the list of blocks and the reference count of the
    buffer: a block that is in the transaction is absorbed, another one is
    added at the end and its buffer pinned, so the cache cannot recycle it
    before the commit. *)
Theorem log_write_absorbs `{DL : DiskLaws} (dv : Z) (s : kst) (a : cache) (hb : list Z) (bn : Z) (b : nat) (r : Z) :
  let l := logst (k_fs s) in
  (0 < rounds)%nat -> cached dv s a -> log_is dv l hb -> 1 <= l_outstanding l ->
  lh_n l < LOGSIZE /\ lh_n l < l_size l - 1 ->
  c_use a !! bn = Some (b, r) -> r + 1 < 2 ^ 32 -> 0 <= bn < 2 ^ 31 /\ ~ in_log (l_start l) (l_size l) bn -> disk_has bn ->
  exists s', log_write b s = Ok (tt, s') /\ log_frame (logst (k_fs s')) = log_frame l /\
    if decide (bn ∈ hb) then cached dv s' a /\ log_is dv (logst (k_fs s')) hb
    else cached dv s' (with_refs bn b (r + 1) (c_held a) a) /\ log_is dv (logst (k_fs s')) (hb ++ [bn]).
Proof.
  intros l Hr C L Ho Hs Hu Hn Hb Hdk. destruct (log_write_ok dv Hr s a hb bn b r) as (s' & E & F & _ & X); try done. by exists s'.
Qed.

(** ** The sample machine *)

Lemma sample_rounds : (0 < rounds)%nat.
Proof. unfold rounds, tmachine. lia. Qed.

Definition sample_log : log := Log 2 30 1 0 1 0 (replicate (Z.to_nat LOGSIZE) 0).

Lemma sample_log_is : log_is 1 sample_log [].
Proof.
  split; try done; [apply NoDup_nil_2|by intros x ?%elem_of_nil].
Qed.

Lemma sample_can_get h : can_get 32 (fresh_view (kboot h)).
Proof. split; [set_solver|intros _; unfold fresh_view, NBUF; cbn; rewrite map_size_empty; lia|done]. Qed.

(** A transaction in which block 32 was read. *)
Lemma sample_read : exists b s, cached 1 s (grab 32 b (fresh_view (kboot []))) /\ logst (k_fs s) = sample_log.
Proof.
  destruct (cached_kboot []) as (s1 & _ & C1 & _).
  pose proof (cached_slog 1 s1 _ (fun _ => sample_log) C1) as C2. set (s2 := slog _ s1) in C2.
  destruct (bread_ok 1 sample_rounds s2 _ 32 C2 (sample_can_get []) I) as (b & s3 & _ & C3 & O3 & _).
  exists b, s3. split; [done|]. by rewrite (outside_log _ _ O3).
Qed.

(** A transaction of block 32 on the sample machine, about to end. *)
Lemma sample_ready : exists s a, ready 1 s a [32].
Proof.
  destruct sample_read as (b & s3 & C3 & El).
  destruct (log_write_ok 1 sample_rounds s3 _ [] 32 b 1 C3) as (s4 & _ & F4 & _ & X4); rewrite ?El; try done;
    [apply sample_log_is|split; [lia|unfold in_log; cbn; lia]|].
  change (cached 1 s4 (with_refs 32 b 2 {[32]} (grab 32 b (fresh_view (kboot [])))) /\ log_is 1 (logst (k_fs s4)) [32]) in X4.
  destruct X4 as [C4 L4].
  destruct (brelse_ok 1 sample_rounds s4 _ 32 b 2 C4) as (s5 & _ & C5 & O5); [done|set_solver|done|].
  pose proof F4 as [= F1 F2 F3 F5 F6]. rewrite El in F1, F3, F5.
  set (d := medium (devices (k_io (kboot [])))).
  exists s5, (Cache (<[32 := (b, 1)]> ∅) ∅ d d []).
  split; rewrite ?(outside_log _ _ O5); try done.
  - split; [done| | |unfold NBUF; cbn; lia].
    + intros x. cbn. rewrite list_elem_of_singleton. destruct (decide (x = 32)) as [->|Hx].
      * by rewrite lookup_insert_eq.
      * rewrite lookup_insert_ne, lookup_empty by done. split; [by intros [? ?]|done].
    + intros x b' r'. cbn. rewrite lookup_insert_Some, lookup_empty. by intros [(_ & [= _ <-])|[_ ?]].
Qed.

(** The sample machine booted with the disk that the writes [h] leave. *)
Lemma sample_boot h : exists t b, booted 1 (tmedium (TDev h)) t b.
Proof.
  destruct (cached_kboot h) as (t & _ & C & El). exists t, (fresh_view (kboot h)). split; try done. by rewrite El.
Qed.

Lemma log_crash_atomic_witness : exists s a, ready 1 s a [32] /\ exists s' W, end_op s = Ok (tt, s') /\
  trace (devices (k_io s')) = trace (devices (k_io s)) ++ W /\
  exists t sb t', initlog 1 sb t = Ok (tt, t') /\
    forall bn, ~ in_log (l_start (logst (k_fs s))) (l_size (logst (k_fs s))) bn -> medium (devices (k_io t')) bn = medium (devices (k_io s)) bn.
Proof.
  destruct sample_ready as (s & a & R). exists s, a. split; [done|].
  destruct (log_crash_atomic 1 s a [32] sample_rounds R) as (s' & W & E & Et & _ & Hc).
  exists s', W. split_and!; [done..|].
  destruct (sample_boot (t_hist (devices (k_io s)))) as (t & b & B).
  set (sb := Superblock 0 0 0 0 (l_size (logst (k_fs s))) (l_start (logst (k_fs s))) 0 0).
  destruct (Hc 0%nat t b sb) as (t' & Ei & Hm); [|done|done|by exists t, sb, t'].
  by destruct (devices (k_io s)) as [h].
Defined.

(** A disk whose log has a committed copy of block 32. *)
Definition sample_hist : list (Z * list Z) :=
  [(2, set_hdr [32] zeroes); (3, replicate 1024 7)].
Definition sample_sb : superblock := Superblock 0 1000 0 0 30 2 32 45.

Lemma recovery_idempotent_witness : exists t b, booted 1 (tmedium (TDev sample_hist)) t b /\
  good_hdr [32] 2 30 (tmedium (TDev sample_hist) 2) /\
  exists t' W, initlog 1 sample_sb t = Ok (tt, t') /\ trace (devices (k_io t')) = trace (devices (k_io t)) ++ W.
Proof.
  destruct (sample_boot sample_hist) as (t & b & B). exists t, b. split; [done|].
  assert (good_hdr [32] 2 30 (tmedium (TDev sample_hist) 2)) as G.
  { split; [by vm_compute| |by vm_compute|apply NoDup_singleton|].
    - intros i x [-> <-]%list_lookup_singleton_Some. by vm_compute.
    - intros x ->%list_elem_of_singleton. unfold in_log. lia. }
  split; [done|].
  destruct (recovery_idempotent 1 _ t b sample_sb [32] sample_rounds B) as (t' & W & E & Et & _); [done..|].
  by exists t', W.
Defined.

Lemma bread_brelse_witness : exists s b s', cached 1 s (fresh_view (kboot sample_hist)) /\
  bread 1 32 s = Ok (b, s') /\ block_at (k_mem s') b = tmedium (TDev sample_hist) 32.
Proof.
  destruct (cached_kboot sample_hist) as (s & _ & C & _).
  destruct (bread_brelse 1 s _ 32 sample_rounds C (sample_can_get _) I) as (b & s' & E & _ & _ & Ed & _).
  by exists s, b, s'.
Defined.

Lemma log_write_absorbs_witness : exists s b s', logst (k_fs s) = sample_log /\
  log_write b s = Ok (tt, s') /\ log_is 1 (logst (k_fs s')) [32].
Proof.
  destruct sample_read as (b & s & C & El). exists s, b.
  destruct (log_write_absorbs 1 s (grab 32 b (fresh_view (kboot []))) [] 32 b 1 sample_rounds C) as (s' & E & _ & _ & L);
    rewrite ?El; try done.
  - apply sample_log_is.
  - split; [lia|unfold in_log; cbn; lia].
  - by exists s'.
Defined.
