(* ===== verification/FsProof.v ===== *)
(** * Changing blocks inside a transaction, and the block bitmap

    The pattern of fs.c over the contracts of the buffer cache and the log:
    read a block, change its bytes, [log_write], [brelse].  [in_op] is the
    state between two of these, inside [begin_op] and [end_op].  On top of it,
    the free map: [bzero], [balloc] and [bfree]. *)

From S2P Require Import Prelude CInt Memory KMonad Riscv KState KString Blocks Spinlock Sched Bio Log Fs.
From S2P Require Import Vm VmInv LockProof BioList BioInv BioProof LogSpec LogProof LogThm.

(** A search loop that finds its element at [j], with the state changing
    inside the invariant [I] before. *)
Lemma for_first {St A} (I Q : St -> Prop) (body : Z -> M St (option A)) n i j r s :
  i <= j < i + Z.of_nat n ->
  (forall k t, i <= k < j -> I t -> exists t', body k t = Ok (None, t') /\ I t') ->
  (forall t, I t -> exists t', body j t = Ok (Some r, t') /\ Q t') ->
  I s -> exists t, for_ n i body s = Ok (Some r, t) /\ Q t.
Proof.
  revert i s. induction n as [|n IH]; intros i s Hj Hb Hf Hi; [lia|]. cbn [for_].
  destruct (decide (i = j)) as [->|Hne].
  - destruct (Hf s Hi) as (t & E & Hq). rewrite (bind_ok _ _ _ _ _ E). by exists t.
  - destruct (Hb i s ltac:(lia) Hi) as (t & E & Ht). rewrite (bind_ok _ _ _ _ _ E).
    apply IH; [lia| |done|done]. intros k u Hk. apply Hb. lia.
Qed.
(** A search that finds nothing in a state it does not change. *)
Lemma for_none {St A} (body : Z -> M St (option A)) n i s :
  (forall k, i <= k < i + Z.of_nat n -> body k s = Ok (None, s)) -> for_ n i body s = Ok (None, s).
Proof.
  revert i. induction n as [|n IH]; intros i Hb; [done|]. cbn [for_].
  rewrite (bind_ok _ _ _ _ _ (Hb i ltac:(lia))). apply IH. intros k Hk. apply Hb. lia.
Qed.

Lemma bind_seq {S A B C} (c : M S A) (d : M S B) (k : M S C) s x s' :
  (c ;;; d) s = Ok (x, s') -> (c ;;; d ;;; k) s = k s'.
Proof. unfold bind. destruct (c s) as [[? t]| | | |]; try done. by intros ->. Qed.

(** The blocks of the transaction [hb] are pinned once; the thread holds the
    blocks [x]; no other block is in use. *)
Record pinx (x : gset Z) (hb : list Z) (a : cache) : Prop := Pinx {
  px_held : c_held a = x;
  px_use y : y ∉ x -> is_Some (c_use a !! y) <-> y ∈ hb;
  px_one y b r : y ∉ x -> c_use a !! y = Some (b, r) -> r = 1;
  px_room : (length hb + size x < NBUF)%nat
}.

Lemma pinned_pinx l hb a : pinned l hb a <-> pinx ∅ hb a.
Proof.
  split; intros [H1 H2 H3 H4]; split; rewrite ?size_empty in *; try done; try lia; intros; eauto.
  - apply H2, not_elem_of_empty.
  - eapply H3; [apply not_elem_of_empty|done].
Qed.

Lemma pinx_size x hb a : NoDup hb -> pinx x hb a -> (size (c_use a) < NBUF)%nat.
Proof.
  intros Hnd P. pose proof (px_room _ _ _ P). rewrite <- (size_dom (D := gset Z)).
  assert (dom (c_use a) ⊆ list_to_set hb ∪ x) as Hs.
  { intros y Hy. destruct (decide (y ∈ x)); [set_solver|]. apply elem_of_dom, (px_use _ _ _ P) in Hy; set_solver. }
  apply subseteq_size in Hs. pose proof (subseteq_size (x ∖ list_to_set hb) x ltac:(set_solver)).
  rewrite size_union_alt, (size_list_to_set (C := gset Z) hb Hnd) in Hs. lia.
Qed.

(** The transaction with block [bn] in it, and the view after writing [v]. *)
Definition logged (x : Z) (l : list Z) : list Z := if decide (x ∈ l) then l else l ++ [x].
Definition wrote (x : Z) (c : nat) (v : list Z) (d : cache) : cache :=
  Cache (<[x := (c, 1)]> (c_use d)) (c_held d) (dset (c_data d) x v) (c_medium d) (c_trace d).

(** The first block of the log and the number of its blocks; blocks outside. *)
Definition log_area (l : log) : Z * Z := (l_start l, l_size l).
Definition off_log (e : Z * Z) (bn : Z) : Prop := ~ in_log e.1 e.2 bn.

(** The disk has the blocks of the file system. *)
Definition fs_on_disk `{DL : DiskLaws} (sb : superblock) : Prop :=
  0 <= s_bmapstart sb /\ forall bn, 0 <= bn < s_size sb -> disk_has bn.

Section InOp.
Context `{DL : DiskLaws} (dv : Z) (Hrounds : (0 < rounds)%nat).
Notation cached := (cached dv).
Notation log_is := (log_is dv).

(** Inside an operation that holds the blocks [x]; the log has the [LOGSIZE]
    blocks that mkfs gives it, or more, and the disk has the blocks of the file
    system. *)
Record in_op (x : gset Z) (s : kst) (a : cache) (hb : list Z) : Prop := InOp {
  io_cached : cached s a;
  io_log : log_is (logst (k_fs s)) hb;
  io_out : 1 <= l_outstanding (logst (k_fs s));
  io_size : LOGSIZE <= l_size (logst (k_fs s));
  io_pin : pinx x hb a;
  io_disk : fs_on_disk (sb (k_fs s))
}.

(** What the operations on blocks leave alone: everything but the buffers,
    their locks and the list of logged blocks. *)
Definition same_fs (s s' : kst) : Prop :=
  log_frame (logst (k_fs s')) = log_frame (logst (k_fs s)) /\ outside s (slog (fun _ => logst (k_fs s)) s').

Lemma same_fs_refl s : same_fs s s.
Proof using. split; [done|]. by split. Qed.
Lemma same_fs_trans s s' s'' : same_fs s s' -> same_fs s' s'' -> same_fs s s''.
Proof using.
  intros [F1 O1] [F2 O2]. split; [congruence|]. eapply outside_trans; [exact O1|].
  exact (outside_slog _ _ (fun _ => logst (k_fs s)) O2).
Qed.
Lemma outside_fs s s' : outside s s' -> same_fs s s'.
Proof using.
  intros O. split; [by rewrite (outside_log _ _ O)|]. rewrite <- (outside_log _ _ O). by destruct O; split.
Qed.
Lemma same_fs_sb s s' : same_fs s s' -> sb (k_fs s') = sb (k_fs s).
Proof using. intros [_ O]. exact (f_equal sb (o_fs _ _ O)). Qed.
Lemma same_fs_itable s s' : same_fs s s' -> itable (k_fs s') = itable (k_fs s).
Proof using. intros [_ O]. exact (f_equal itable (o_fs _ _ O)). Qed.
Lemma same_fs_mem s s' : same_fs s s' -> same_off (fun x => in_bufs x \/ darea x) (k_mem s) (k_mem s').
Proof using. intros [_ O]. exact (o_mem _ _ O). Qed.
Lemma same_fs_log s s' : same_fs s s' -> log_area (logst (k_fs s')) = log_area (logst (k_fs s)).
Proof using. intros [E _]. unfold log_area. by injection E as -> -> _ _ _. Qed.

(** Inside an operation with block [bn] read into buffer [b]; the thread held
    the blocks [x] before. *)
Record reading (x : gset Z) (s : kst) (a : cache) (hb : list Z) (bn : Z) (b : nat) : Prop := Reading {
  rd_cached : cached s (grab bn b a);
  rd_same b0 r0 : c_use a !! bn = Some (b0, r0) -> b = b0;
  rd_clean : c_use a !! bn = None -> c_data a bn = c_medium a bn;
  rd_log : log_is (logst (k_fs s)) hb;
  rd_out : 1 <= l_outstanding (logst (k_fs s));
  rd_size : LOGSIZE <= l_size (logst (k_fs s));
  rd_pin : pinx x hb a;
  rd_new : bn ∉ x;
  rd_has : disk_has bn;
  rd_disk : fs_on_disk (sb (k_fs s))
}.

Lemma op_bread x s a hb bn :
  in_op x s a hb -> bn ∉ x -> 0 <= bn < s_size (sb (k_fs s)) ->
  exists b s', bread dv bn s = Ok (b, s') /\ reading x s' a hb bn b /\ same_fs s s'.
Proof using Hrounds.
  intros [C L Ho Hs P Dk] Hx Hbn. destruct (bread_ok dv Hrounds s a bn C) as (b & s' & E & C' & O & Hb).
  - split; [by rewrite (px_held _ _ _ P)| |].
    + intros _. by apply (pinx_size x hb a (li_nodup _ _ _ L)).
    + unfold refs. destruct (c_use a !! bn) as [[b r]|] eqn:Eu; cbn; [|lia]. rewrite (px_one _ _ _ P _ _ _ Hx Eu). lia.
  - by apply Dk.
  - exists b, s'. split_and!; [done| |by apply outside_fs].
    split; rewrite ?(outside_log _ _ O), ?(same_fs_sb _ _ (outside_fs _ _ O)); try done; [apply C|by apply Dk].
Qed.

Section Reading.
Context (x : gset Z) (s : kst) (a : cache) (hb : list Z) (bn : Z) (b : nat).
Hypothesis R : reading x s a hb bn b.

Lemma rd_use : c_use (grab bn b a) !! bn = Some (b, refs a bn + 1).
Proof using. apply lookup_insert_eq. Qed.
Lemma rd_buf : (b < NBUF)%nat.
Proof using R. by destruct (use_buf _ _ _ _ _ _ _ (rd_cached _ _ _ _ _ _ R) rd_use) as (bf & ? & _). Qed.
Lemma rd_backed : bufs_backed (k_mem s).
Proof using R. apply (rd_cached _ _ _ _ _ _ R). Qed.
Lemma rd_block : block_at (k_mem s) b = c_data a bn.
Proof using Hrounds R. apply (use_data dv Hrounds s (grab bn b a) bn b _ (rd_cached _ _ _ _ _ _ R) rd_use). Qed.

(** A byte of the block. *)
Lemma rd_byte i : 0 <= i < BSIZE -> onram (ld8 (buf_data b + i)) s = Ok (default 0 (c_data a bn !! Z.to_nat i), s).
Proof using Hrounds R.
  intros Hi. apply onram_read. destruct rd_backed as (B1 & B2 & B3). destruct (B3 b rd_buf).
  rewrite ld8_ok by (apply backed_true; unfold BSIZE in *; lia). rewrite peek1_byte, <- rd_block. unfold block_at.
  rewrite rdbytes_lookup by (unfold bsize; lia). cbn [default from_option id]. by rewrite Z2Nat.id by lia.
Qed.

(** A block of the transaction is referred to once. *)
Lemma rd_refs : (bn ∈ hb /\ refs a bn = 1 /\ c_use a !! bn = Some (b, 1)) \/ (bn ∉ hb /\ refs a bn = 0 /\ c_use a !! bn = None).
Proof using R.
  destruct R as [C Hs _ L Ho Hz P Hx _ _]. unfold refs. destruct (c_use a !! bn) as [[b0 r0]|] eqn:E.
  - left. rewrite (Hs _ _ eq_refl), (px_one _ _ _ P _ _ _ Hx E). split; [|done]. apply (px_use _ _ _ P _ Hx). by rewrite E.
  - right. split; [|done]. rewrite <- (px_use _ _ _ P _ Hx), E. by intros [].
Qed.

(** Releasing the block unchanged. *)
Lemma op_brelse : exists s', brelse b s = Ok (tt, s') /\ in_op x s' a hb /\ same_fs s s'.
Proof using Hrounds R.
  pose proof rd_refs as Hr. destruct R as [C Hs Hc L Ho Hz P Hx Hh Dk].
  destruct (brelse_ok dv Hrounds s _ bn b _ C rd_use) as (s' & E & C' & O); [cbn; set_solver| |].
  { intros Hr1. cbn. apply Hc. destruct Hr as [(_ & ? & _)|(_ & _ & ?)]; [lia|done]. }
  exists s'. split_and!; [done| |by apply outside_fs].
  split; rewrite ?(outside_log _ _ O), ?(same_fs_sb _ _ (outside_fs _ _ O)); try done.
  apply (cached_ext _ _ _ _ C'); try done; cbn [c_use c_held with_refs grab].
  - destruct Hr as [(_ & -> & Eu)|(_ & -> & Eu)]; cbn [Z.add Z.sub Z.pos_sub Pos.add].
    + rewrite decide_False by done. by rewrite insert_insert_eq, insert_id.
    + rewrite decide_True by done. by rewrite delete_insert_id.
  - rewrite (px_held _ _ _ P). set_solver.
Qed.

(** ** Writing a block *)

Lemma wrote_pinx v : (S (length hb) + size x < NBUF)%nat -> pinx x (logged bn hb) (wrote bn b v a).
Proof using Hrounds R.
  intros Hlen. pose proof (rd_pin _ _ _ _ _ _ R) as P. split.
  - apply P.
  - intros y Hy. cbn. unfold logged. destruct (decide (y = bn)) as [->|Hne].
    + rewrite lookup_insert_eq. split; [|done]. intros _. case_decide; [done|]. set_solver.
    + rewrite lookup_insert_ne, (px_use _ _ _ P) by done. case_decide; [done|]. set_solver.
  - intros y b' r' Hy. cbn. destruct (decide (y = bn)) as [->|Hne].
    + rewrite lookup_insert_eq. congruence.
    + rewrite lookup_insert_ne by done. by apply P.
  - unfold logged. case_decide; [lia|]. rewrite length_app. cbn. lia.
Qed.

Lemma op_write m :
  same_off (in_buf b) (k_mem s) m -> (S (length hb) + size x < NBUF)%nat ->
  0 <= bn < 2 ^ 31 -> off_log (log_area (logst (k_fs s))) bn ->
  exists s', (log_write b ;;; brelse b) (s <| k_mem := m |>) = Ok (tt, s') /\
    in_op x s' (wrote bn b (block_at m b) a) (logged bn hb) /\ same_fs s s'.
Proof using Hrounds R.
  intros So Hlen Hbn Hnl. pose proof rd_refs as Hr. destruct (cached_put dv Hrounds _ _ _ _ _ (rd_cached _ _ _ _ _ _ R) rd_use m So) as [C1 O1].
  set (s1 := s <| k_mem := m |>) in *. set (a1 := put_data bn (block_at m b) (grab bn b a)) in *.
  destruct (log_write_ok dv Hrounds s1 a1 hb bn b (refs a bn + 1) C1) as (s2 & E2 & F2 & B2 & X2); try done.
  { apply R. }
  { apply R. }
  { pose proof (rd_size _ _ _ _ _ _ R). pose proof (li_n _ _ _ (rd_log _ _ _ _ _ _ R)).
    change (logst (k_fs s1)) with (logst (k_fs s)). unfold LOGSIZE, MAXOPBLOCKS, NBUF in *. lia. }
  { apply lookup_insert_eq. }
  { lia. }
  { exact (rd_has _ _ _ _ _ _ R). }
  rewrite (bind_ok _ _ _ _ _ E2).
  assert (cached s2 (with_refs bn b 2 (c_held a1) a1) /\ log_is (logst (k_fs s2)) (logged bn hb)) as [C2 L2].
  { unfold logged. case_decide; destruct Hr as [(? & Hr & _)|(? & Hr & _)]; try done; [|by rewrite Hr in X2].
    destruct X2 as [C2 L2]. split; [|done]. apply (cached_ext _ _ _ _ C2); try done. cbn. by rewrite Hr, insert_insert_eq. }
  destruct (brelse_ok dv Hrounds s2 _ bn b 2 C2) as (s3 & E3 & C3 & O3); [apply lookup_insert_eq|cbn; set_solver|done|].
  assert (same_fs s s3) as Fs.
  { eapply same_fs_trans; [by apply outside_fs|]. eapply same_fs_trans; [split; [exact F2|exact B2]|by apply outside_fs]. }
  exists s3. split_and!; [done| |done].
  - split; rewrite ?(outside_log _ _ O3), ?(same_fs_sb _ _ Fs); try done; [..|apply R].
    + apply (cached_ext _ _ _ _ C3); try done; cbn.
      * rewrite !decide_False by done. by rewrite !insert_insert_eq.
      * pose proof (rd_new _ _ _ _ _ _ R). rewrite (px_held _ _ _ (rd_pin _ _ _ _ _ _ R)). set_solver.
    + injection F2 as _ _ Ho _ _. rewrite Ho. apply R.
    + injection F2 as _ Hz _ _ _. rewrite Hz. apply R.
    + by apply wrote_pinx.
Qed.
End Reading.
End InOp.
#[export] Hint Resolve same_fs_refl same_fs_trans outside_fs : kernel.

(** ** The free map *)

(** The bit of block [b] in the bitmap of the disk [D]. *)
Definition bmap_byte (b : Z) : nat := Z.to_nat (b mod BPB / 8).
Definition bmap_block (sb : superblock) (b : Z) : Z := s_bmapstart sb + b / BPB.
Definition used (sb : superblock) (D : Z -> list Z) (b : Z) : bool :=
  Z.testbit (default 0 (D (bmap_block sb b) !! bmap_byte b)) (b mod 8).

(** The layout of the disk: the log is before the inodes and the bitmap, and the blocks up to
    the end of the bitmap, which the file system uses for itself, are marked. *)
Record fs_layout (sb : superblock) (ls : Z * Z) (D : Z -> list Z) : Prop := {
  fl_size : 0 < s_size sb < 2 ^ 31;
  fl_log : 0 <= ls.1 /\ 0 <= ls.2 /\ ls.1 + ls.2 <= s_inodestart sb <= s_bmapstart sb;
  fl_end : bmap_block sb (s_size sb - 1) < s_size sb;
  fl_length bn : length (D bn) = bsize;
  fl_meta b : 0 <= b < s_size sb -> b <= bmap_block sb (s_size sb - 1) -> used sb D b = true
}.

Section Layout.
Context (sb : superblock) (ls : Z * Z) (D : Z -> list Z).
Hypothesis Lay : fs_layout sb ls D.

Lemma bmap_block_range b : 0 <= b < s_size sb ->
  0 <= bmap_block sb b < s_size sb /\ off_log ls (bmap_block sb b) /\ bmap_block sb b <= bmap_block sb (s_size sb - 1).
Proof using Lay.
  intros Hb. destruct Lay as [Hs (Hl1 & Hl2 & Hl3) He _ _]. unfold bmap_block, off_log, in_log in *.
  pose proof (Z.div_pos b BPB ltac:(lia) ltac:(done)). pose proof (Z.div_le_mono b (s_size sb - 1) BPB ltac:(done) ltac:(lia)).
  unfold LOGSIZE, MAXOPBLOCKS in *. lia.
Qed.
Lemma BBLOCK_eq b : 0 <= b < s_size sb -> BBLOCK b sb = bmap_block sb b.
Proof using Lay. intros Hb. unfold BBLOCK. pose proof (bmap_block_range b Hb). pose proof (fl_size _ _ _ Lay). rewrite u32_id; unfold bmap_block in *; lia. Qed.

(** A free block is a data block. *)
Lemma free_data_block b : 0 <= b < s_size sb -> used sb D b = false ->
  off_log ls b /\ forall b', 0 <= b' < s_size sb -> bmap_block sb b' <> b.
Proof using Lay.
  intros Hb Hu. assert (bmap_block sb (s_size sb - 1) < b) as Hlt.
  { destruct (decide (bmap_block sb (s_size sb - 1) < b)); [done|]. rewrite (fl_meta _ _ _ Lay) in Hu; [done|lia..]. }
  split.
  - pose proof (Z.div_pos (s_size sb - 1) BPB ltac:(lia) ltac:(done)).
    pose proof (fl_log _ _ _ Lay). unfold off_log, in_log, bmap_block in *. lia.
  - intros b' Hb'. pose proof (bmap_block_range b' Hb'). lia.
Qed.
End Layout.

Lemma bit_pos b : 0 <= b -> 0 <= b mod 8 < 8 /\ 0 <= b mod BPB / 8 < BSIZE /\ (b mod BPB) mod 8 = b mod 8.
Proof.
  intros Hb. change BPB with 8192. change BSIZE with 1024. pose proof (Z.mod_pos_bound b 8192 ltac:(lia)).
  split_and!; Z.div_mod_to_equations; lia.
Qed.

Lemma land_bit v k : 0 <= k -> (Z.land v (Z.shiftl 1 k) =? 0) = negb (Z.testbit v k).
Proof.
  intros Hk. pose proof (bits_pow2 v k Hk) as E. unfold Vm.bits in E. rewrite <- E. by rewrite negb_involutive.
Qed.

(** Bits of one byte. *)
Lemma bit_byte sb x b : 0 <= b -> 0 <= x -> x / 8 = b / 8 -> bmap_block sb x = bmap_block sb b /\ bmap_byte x = bmap_byte b.
Proof. unfold bmap_block, bmap_byte. change BPB with 8192. intros. split; [f_equal|f_equal]; Z.div_mod_to_equations; lia. Qed.
Lemma testbit_bit i k : 0 <= i < 8 -> 0 <= k < 8 -> Z.testbit (Z.shiftl 1 k) i = (i =? k).
Proof.
  intros Hi Hk. rewrite Z.shiftl_1_l, Z.pow2_bits_eqb by lia. apply Z.eqb_sym.
Qed.

(** Changing the byte of a block's bit. *)
Lemma used_upd sb D b x w :
  0 <= b -> 0 <= x -> length (D (bmap_block sb b)) = bsize ->
  used sb (dset D (bmap_block sb b) (<[bmap_byte b := u8 w]> (D (bmap_block sb b)))) x =
  if decide (x / 8 = b / 8) then Z.testbit w (x mod 8) else used sb D x.
Proof.
  intros Hb Hx Hlen. pose proof (bit_pos x Hx) as (H1 & H2 & _). pose proof (bit_pos b Hb) as (_ & H3 & _).
  assert (x / 8 = b / 8 <-> bmap_block sb x = bmap_block sb b /\ bmap_byte x = bmap_byte b) as Heq.
  { unfold bmap_block, bmap_byte. change BPB with 8192 in *. change BSIZE with 1024 in *. clear -Hb Hx H2 H3.
    split; [intros; split; [f_equal|f_equal]|intros [? ?%Z2Nat.inj]]; Z.div_mod_to_equations; lia. }
  unfold used, dset. destruct (decide (x / 8 = b / 8)) as [Hd|Hd].
  - apply Heq in Hd as [-> ->]. rewrite decide_True, list_lookup_insert_eq by (done || unfold bmap_byte, bsize in *; lia).
    cbn. unfold u8. by rewrite Z.mod_pow2_bits_low by lia.
  - case_decide as He; [|done]. rewrite list_lookup_insert_ne by (intros ?; apply Hd, Heq; done). by rewrite He.
Qed.

Lemma bits_join x b : x / 8 = b / 8 -> (x mod 8 =? b mod 8) = (x =? b).
Proof. intros. destruct (Z.eqb_spec (x mod 8) (b mod 8)), (Z.eqb_spec x b); Z.div_mod_to_equations; lia. Qed.

Lemma used_set sb D b x :
  0 <= b -> 0 <= x -> length (D (bmap_block sb b)) = bsize ->
  used sb (dset D (bmap_block sb b) (<[bmap_byte b :=
    u8 (Z.lor (default 0 (D (bmap_block sb b) !! bmap_byte b)) (Z.shiftl 1 (b mod 8)))]> (D (bmap_block sb b)))) x =
  ((x =? b) || used sb D x)%bool.
Proof.
  intros Hb Hx Hlen. rewrite used_upd by done. case_decide as Hd.
  - rewrite <- (bits_join x b Hd), Z.lor_spec, testbit_bit, orb_comm by (Z.div_mod_to_equations; lia). unfold used. by destruct (bit_byte sb x b Hb Hx Hd) as [-> ->].
  - destruct (Z.eqb_spec x b); [congruence|done].
Qed.

Lemma used_clear sb D b x :
  0 <= b -> 0 <= x -> length (D (bmap_block sb b)) = bsize ->
  used sb (dset D (bmap_block sb b) (<[bmap_byte b :=
    u8 (Z.land (default 0 (D (bmap_block sb b) !! bmap_byte b)) (Z.lnot (Z.shiftl 1 (b mod 8))))]> (D (bmap_block sb b)))) x =
  (negb (x =? b) && used sb D x)%bool.
Proof.
  intros Hb Hx Hlen. rewrite used_upd by done. case_decide as Hd.
  - rewrite <- (bits_join x b Hd), Z.land_spec, Z.lnot_spec, testbit_bit, andb_comm by (Z.div_mod_to_equations; lia). unfold used.
    by destruct (bit_byte sb x b Hb Hx Hd) as [-> ->].
  - destruct (Z.eqb_spec x b); [congruence|done].
Qed.

(** The bit as the code addresses it. *)
Lemma split_at k bi : 0 <= bi < BPB ->
  (k * BPB + bi) / BPB = k /\ (k * BPB + bi) mod BPB = bi /\ (k * BPB + bi) mod 8 = bi mod 8.
Proof. change BPB with 8192. intros. split_and!; Z.div_mod_to_equations; lia. Qed.
Lemma used_at sb D k bi : 0 <= bi < BPB ->
  used sb D (k * BPB + bi) = Z.testbit (default 0 (D (s_bmapstart sb + k) !! Z.to_nat (bi / 8))) (bi mod 8).
Proof. intros Hbi. destruct (split_at k bi Hbi) as (E1 & E2 & E3). unfold used, bmap_block, bmap_byte. by rewrite E1, E2, E3. Qed.

Section Zero.
Context `{DL : DiskLaws}.
Lemma block_at_zero m b : (forall x, in_buf b x -> byte_at m x = 0) -> block_at m b = replicate bsize 0.
Proof.
  intros Hz. apply list_eq. intros i. destruct (decide (i < bsize)%nat) as [Hi|Hi].
  - unfold block_at. rewrite rdbytes_lookup, lookup_replicate_2 by done. f_equal. apply Hz. unfold in_buf, bsize in *. lia.
  - rewrite !lookup_ge_None_2; [done|rewrite length_replicate; lia|unfold block_at; rewrite length_rdbytes; lia].
Qed.
End Zero.

(** ** Blocks of zeroes *)

Section Blocks.
Context `{DL : DiskLaws} (dv : Z) (Hrounds : (0 < rounds)%nat) (x : gset Z).
Notation in_op := (in_op dv x).
Notation reading := (reading dv x).

Lemma bzero_ok s a hb bno :
  in_op s a hb -> bno ∉ x -> (S (length hb) + size x < NBUF)%nat -> 0 <= bno < 2 ^ 31 -> bno < s_size (sb (k_fs s)) -> off_log (log_area (logst (k_fs s))) bno ->
  exists s' b, bzero dv bno s = Ok (tt, s') /\ in_op s' (wrote bno b (replicate bsize 0) a) (logged bno hb) /\ same_fs s s'.
Proof using Hrounds.
  intros I Hx Hlen Hb Hsz Hn. unfold bzero. rewrite u32_id by lia.
  destruct (op_bread dv Hrounds x s a hb bno I Hx ltac:(lia)) as (b & s1 & E1 & R1 & F1). rewrite (bind_ok _ _ _ _ _ E1).
  destruct (rd_backed _ _ _ _ _ _ _ R1) as (B1 & B2 & B3). destruct (B3 b (rd_buf _ _ _ _ _ _ _ R1)).
  destruct (memset_spec (buf_data b) 0 BSIZE (k_mem s1)) as (m & Em & So & Hz); [done|lia..|].
  rewrite (bind_ok _ _ _ _ _ (onram_ok _ _ _ _ Em)).
  destruct (op_write dv Hrounds x s1 a hb bno b R1 m) as (s2 & E2 & I2 & F2); try done.
  { by rewrite (same_fs_log _ _ F1). }
  exists s2, b. split_and!; [done| |eauto with kernel].
  rewrite block_at_zero in I2; [done|]. intros y Hy. by rewrite Hz.
Qed.

(** Storing a byte of the block that was read and logging it. *)
Lemma op_store s a hb bn b i w :
  reading s a hb bn b -> 0 <= i < BSIZE -> (S (length hb) + size x < NBUF)%nat ->
  0 <= bn < 2 ^ 31 -> off_log (log_area (logst (k_fs s))) bn ->
  exists s1 s', onram (st8 (buf_data b + i) w) s = Ok (tt, s1) /\ (log_write b ;;; brelse b) s1 = Ok (tt, s') /\
    in_op s' (wrote bn b (<[Z.to_nat i := u8 w]> (c_data a bn)) a) (logged bn hb) /\ same_fs s s'.
Proof using Hrounds.
  intros R Hi Hlen Hbn Hn. destruct (rd_backed _ _ _ _ _ _ _ R) as (B1 & B2 & B3). destruct (B3 b (rd_buf _ _ _ _ _ _ _ R)).
  set (m := poke 1 (k_mem s) (buf_data b + i) w).
  assert (same_off (in_buf b) (k_mem s) m) as So.
  { eapply same_off_weaken; [apply same_off_poke|]. unfold in_buf. lia. }
  destruct (op_write dv Hrounds x s a hb bn b R m So Hlen Hbn Hn) as (s' & E & I & F). exists (s <| k_mem := m |>), s'. split_and!; try done.
  - apply onram_ok, st8_ok, backed_true; unfold BSIZE in *; lia.
  - replace (<[Z.to_nat i := u8 w]> (c_data a bn)) with (block_at m b); [done|]. rewrite <- (rd_block _ Hrounds _ _ _ _ _ _ R).
    unfold m, block_at. replace i with (Z.of_nat (Z.to_nat i)) at 1 by lia. rewrite rdbytes_poke by (unfold bsize; lia). done.
Qed.

(** ** Searching a block of the bitmap *)

Section Scan.
Context (sb0 : superblock) (t : kst) (a : cache) (hb : list Z) (b : nat) (k : Z) (found : Z -> Z -> K (option Z)).
Hypothesis R : reading t a hb (s_bmapstart sb0 + k) b.
Let scan (n : nat) : K (option Z) := for_ n 0 (fun bi =>
  v <- onram (ld8 (buf_data b + bi / 8)) ;;
  if Z.land v (Z.shiftl 1 (bi mod 8)) =? 0 then found bi v else ret None).

Lemma scan_bit bi : 0 <= bi < BPB ->
  (v <- onram (ld8 (buf_data b + bi / 8)) ;;
   if Z.land v (Z.shiftl 1 (bi mod 8)) =? 0 then found bi v else ret None) t =
  if used sb0 (c_data a) (k * BPB + bi) then Ok (None, t)
  else found bi (default 0 (c_data a (s_bmapstart sb0 + k) !! Z.to_nat (bi / 8))) t.
Proof using Hrounds R.
  intros Hbi. assert (0 <= bi / 8 < BSIZE) as Hi by (change BPB with 8192 in *; change BSIZE with 1024; Z.div_mod_to_equations; lia).
  rewrite (bind_ok _ _ _ _ _ (rd_byte _ Hrounds _ _ _ _ _ _ R _ Hi)), land_bit, used_at by (done || apply Z.mod_pos_bound; lia).
  by destruct (Z.testbit _ _).
Qed.

Lemma scan_none n :
  Z.of_nat n <= BPB -> (forall bi, 0 <= bi < Z.of_nat n -> used sb0 (c_data a) (k * BPB + bi) = true) -> scan n t = Ok (None, t).
Proof using Hrounds R. intros Hn Hu. apply for_none. intros bi Hbi. rewrite scan_bit, Hu by lia. done. Qed.

Lemma scan_first n bi r t' :
  Z.of_nat n <= BPB -> 0 <= bi < Z.of_nat n -> used sb0 (c_data a) (k * BPB + bi) = false ->
  (forall j, 0 <= j < bi -> used sb0 (c_data a) (k * BPB + j) = true) ->
  found bi (default 0 (c_data a (s_bmapstart sb0 + k) !! Z.to_nat (bi / 8))) t = Ok (Some r, t') -> scan n t = Ok (Some r, t').
Proof using Hrounds R.
  intros Hn Hbi Hu Hb E. enough (exists t1, scan n t = Ok (Some r, t1) /\ t' = t1) as (t1 & E1 & ->) by done.
  apply (for_first (eq t) (eq t') _ n 0 bi r t); [lia| | |done].
  - intros j ? Hj <-. exists t. rewrite scan_bit, Hb by lia. done.
  - intros ? <-. exists t'. rewrite scan_bit, Hu by lia. done.
Qed.
End Scan.

(** ** Releasing a block *)

Definition clear_bit (sb : superblock) (D : Z -> list Z) (b : Z) : list Z :=
  <[bmap_byte b := u8 (Z.land (default 0 (D (bmap_block sb b) !! bmap_byte b)) (Z.lnot (Z.shiftl 1 (b mod 8))))]> (D (bmap_block sb b)).
Definition set_bit (sb : superblock) (D : Z -> list Z) (b : Z) : list Z :=
  <[bmap_byte b := u8 (Z.lor (default 0 (D (bmap_block sb b) !! bmap_byte b)) (Z.shiftl 1 (b mod 8)))]> (D (bmap_block sb b)).

Section Op.
Context (s : kst) (a : cache) (hb : list Z) (b0 : Z).
Let sb0 := sb (k_fs s).
Let bm := bmap_block sb0 b0.
Hypothesis I : in_op s a hb.
Hypothesis Hxm : bm ∉ x.
Hypothesis Lay : fs_layout sb0 (log_area (logst (k_fs s))) (c_data a).
Hypothesis Hb0 : 0 <= b0 < s_size sb0.
Hypothesis Hlen : (S (length hb) + size x < NBUF)%nat.

Lemma bfree_ok :
  if used sb0 (c_data a) b0 then
    exists s' b, bfree dv b0 s = Ok (tt, s') /\ in_op s' (wrote bm b (clear_bit sb0 (c_data a) b0) a) (logged bm hb) /\ same_fs s s'
  else bfree dv b0 s = Panic "freeing free block".
Proof using All.
  pose proof (bit_pos b0 ltac:(lia)) as (P1 & P2 & P3). destruct (bmap_block_range _ _ _ Lay b0 Hb0) as (Hr & Hnl & _).
  pose proof (fl_size _ _ _ Lay) as Hsz. assert (0 <= bm < 2 ^ 31) as Hbm by (unfold bm; lia).
  destruct (op_bread dv Hrounds x s a hb bm I Hxm Hr) as (b & s1 & E1 & R1 & F1).
  assert (bfree dv b0 s = bfree dv b0 s) as E by done. revert E. unfold bfree at 2.
  rewrite (bind_ok getsb _ _ _ _ eq_refl). fold sb0. rewrite (BBLOCK_eq _ _ _ Lay b0 Hb0). fold bm.
  rewrite (bind_ok _ _ _ _ _ E1), (bind_ok _ _ _ _ _ (rd_byte _ Hrounds _ _ _ _ _ _ R1 _ P2)), P3, land_bit by lia.
  change (Z.testbit _ _) with (used sb0 (c_data a) b0). destruct (used sb0 (c_data a) b0) eqn:Eu; cbn [negb]; [|done].
  intros ->. destruct (op_store s1 a hb bm b (b0 mod BPB / 8) (Z.land (default 0 (c_data a bm !! bmap_byte b0)) (Z.lnot (Z.shiftl 1 (b0 mod 8)))) R1)
    as (s2 & s3 & E2 & E3 & I3 & F3); try done; [by rewrite (same_fs_log _ _ F1)|].
  rewrite (bind_ok _ _ _ _ _ E2). exists s3, b. split_and!; [exact E3|exact I3|eauto with kernel].
Qed.

(** ** Allocating a block *)

Hypothesis Hx0 : b0 ∉ x.
Hypothesis Hxall : forall b, 0 <= b < b0 -> bmap_block sb0 b ∉ x.
Hypothesis Hlen2 : (S (S (length hb)) + size x < NBUF)%nat.
Hypothesis Hfree : used sb0 (c_data a) b0 = false.
Hypothesis Hfirst : forall b, 0 <= b < b0 -> used sb0 (c_data a) b = true.

Definition taken (c1 c2 : nat) : cache := wrote b0 c2 (replicate bsize 0) (wrote bm c1 (set_bit sb0 (c_data a) b0) a).

(** The body of the outer loop: one block of the bitmap. *)
Definition alloc_found (bp : nat) (b bi v : Z) : K (option Z) :=
  onram (st8 (buf_data bp + bi / 8) (Z.lor v (Z.shiftl 1 (bi mod 8)))) ;;;
  log_write bp ;;; brelse bp ;;; bzero dv (b + bi) ;;; ret (Some (b + bi)).
Definition alloc_pass (k : Z) : K (option Z) :=
  bp <- bread dv (BBLOCK (k * BPB) sb0) ;;
  r <- for_ (Z.to_nat (Z.min BPB (s_size sb0 - k * BPB))) 0 (fun bi =>
    v <- onram (ld8 (buf_data bp + bi / 8)) ;;
    if Z.land v (Z.shiftl 1 (bi mod 8)) =? 0 then alloc_found bp (k * BPB) bi v else ret None) ;;
  match r with
  | Some x => ret (Some x)
  | None => brelse bp ;;; ret None
  end.

Lemma BBLOCK_pass k : 0 <= k <= b0 / BPB -> BBLOCK (k * BPB) sb0 = s_bmapstart sb0 + k.
Proof using All.
  intros Hk. assert (k * BPB <= b0) by (change BPB with 8192 in *; Z.div_mod_to_equations; lia).
  rewrite (BBLOCK_eq _ _ _ Lay) by (change BPB with 8192 in *; lia). unfold bmap_block. by rewrite Z.div_mul.
Qed.

Lemma alloc_skip t k :
  0 <= k < b0 / BPB -> in_op t a hb -> same_fs s t -> exists t', alloc_pass k t = Ok (None, t') /\ in_op t' a hb /\ same_fs t t'.
Proof using All.
  intros Hk It Ft. unfold alloc_pass. rewrite BBLOCK_pass by lia.
  assert (0 <= k * BPB < b0) as Hkb0 by (change BPB with 8192 in *; Z.div_mod_to_equations; lia).
  assert (s_bmapstart sb0 + k = bmap_block sb0 (k * BPB)) as Ek by (unfold bmap_block; by rewrite Z.div_mul).
  destruct (op_bread dv Hrounds x t a hb (s_bmapstart sb0 + k) It) as (b & t1 & E1 & R1 & F1).
  { rewrite Ek. by apply Hxall. }
  { rewrite Ek, (same_fs_sb _ _ Ft). apply (bmap_block_range _ _ _ Lay). fold sb0. lia. }
  rewrite (bind_ok _ _ _ _ _ E1).
  assert ((k + 1) * BPB <= b0) as Hkb by (change BPB with 8192 in *; Z.div_mod_to_equations; lia).
  rewrite (bind_ok _ _ _ _ _ (scan_none sb0 t1 a hb b k _ R1 (Z.to_nat (Z.min BPB (s_size sb0 - k * BPB))) ltac:(change BPB with 8192 in *; lia)
    ltac:(intros bi Hbi; apply Hfirst; change BPB with 8192 in *; lia))).
  destruct (op_brelse dv Hrounds _ _ _ _ _ _ R1) as (t2 & E2 & I2 & F2). rewrite (bind_ok _ _ _ _ _ E2).
  exists t2. split_and!; [done|done|eauto with kernel].
Qed.

(** The bit of [b0] set and logged, and its block zeroed. *)
Lemma alloc_found_ok t b :
  reading t a hb bm b -> same_fs s t -> exists t' c2,
    alloc_found b (b0 / BPB * BPB) (b0 mod BPB) (default 0 (c_data a bm !! bmap_byte b0)) t = Ok (Some b0, t') /\
    in_op t' (taken b c2) (logged b0 (logged bm hb)) /\ same_fs t t'.
Proof using All.
  intros R1 F1. destruct (free_data_block _ _ _ Lay b0 Hb0 Hfree) as [Hnl _]. destruct (bmap_block_range _ _ _ Lay b0 Hb0) as (Hr & Hnm & _).
  pose proof (fl_size _ _ _ Lay) as Hsz. assert (0 <= bm < 2 ^ 31) as Hbm by (unfold bm; lia).
  pose proof (bit_pos b0 ltac:(lia)) as (P1 & P2 & P3).
  destruct (op_store t a hb bm b (b0 mod BPB / 8) (Z.lor (default 0 (c_data a bm !! bmap_byte b0)) (Z.shiftl 1 (b0 mod 8))) R1)
    as (t2 & t3 & E2 & E3 & I3 & F3); try done; [by rewrite (same_fs_log _ _ F1)|].
  destruct (bzero_ok t3 _ _ b0 I3 Hx0) as (t4 & c2 & E4 & I4 & F4).
  { unfold logged. case_decide; rewrite ?length_app; cbn; lia. }
  { lia. }
  { rewrite (same_fs_sb _ _ F3), (same_fs_sb _ _ F1). apply Hb0. }
  { by rewrite (same_fs_log _ _ F3), (same_fs_log _ _ F1). }
  assert (b0 / BPB * BPB + b0 mod BPB = b0) as Eb by (pose proof (Z.div_mod b0 BPB ltac:(done)); lia).
  exists t4, c2. unfold alloc_found. rewrite P3, Eb, (bind_ok _ _ _ _ _ E2), (bind_seq _ _ _ _ _ _ E3), (bind_ok _ _ _ _ _ E4).
  split_and!; [done|exact I4|eauto with kernel].
Qed.

Lemma alloc_take t :
  in_op t a hb -> same_fs s t -> exists t' c1 c2, alloc_pass (b0 / BPB) t = Ok (Some b0, t') /\
    in_op t' (taken c1 c2) (logged b0 (logged bm hb)) /\ same_fs t t'.
Proof using All.
  intros It Ft. pose proof (Z.div_mod b0 BPB ltac:(done)) as Hd. pose proof (Z.mod_pos_bound b0 BPB ltac:(done)) as Hm.
  unfold alloc_pass. rewrite BBLOCK_pass by (split; [apply Z.div_pos; done || lia|lia]).
  destruct (op_bread dv Hrounds x t a hb bm It Hxm ltac:(rewrite (same_fs_sb _ _ Ft); apply (bmap_block_range _ _ _ Lay b0 Hb0))) as (b & t1 & E1 & R1 & F1).
  rewrite (bind_ok _ _ _ _ _ E1 : bind (bread dv (s_bmapstart sb0 + b0 / BPB)) _ t = _).
  destruct (alloc_found_ok t1 b R1 ltac:(eauto with kernel)) as (t' & c2 & E & I' & F').
  assert (b0 / BPB * BPB + b0 mod BPB = b0) as Eb by lia.
  rewrite (bind_ok _ _ _ _ _ (scan_first sb0 t1 a hb b (b0 / BPB) (alloc_found b (b0 / BPB * BPB)) R1
    (Z.to_nat (Z.min BPB (s_size sb0 - b0 / BPB * BPB))) (b0 mod BPB) b0 t'
    ltac:(change BPB with 8192 in *; lia) ltac:(change BPB with 8192 in *; lia) ltac:(by rewrite Eb)
    ltac:(intros; apply Hfirst; change BPB with 8192 in *; lia) E)).
  exists t', b, c2. split_and!; [done|done|eauto with kernel].
Qed.

Lemma balloc_ok : exists s' c1 c2, balloc dv s = Ok (b0, s') /\
  in_op s' (taken c1 c2) (logged b0 (logged bm hb)) /\ same_fs s s'.
Proof using All.
  change (balloc dv s) with ((r <- for_ (Z.to_nat ((s_size sb0 + BPB - 1) / BPB)) 0 alloc_pass ;;
    match r with Some x => ret (u32 x) | None => Console.printf ("balloc: out of blocks" ++ Console.newline) [] ;;; ret 0 end) s).
  destruct (for_first (fun t => in_op t a hb /\ same_fs s t)
    (fun t => exists c1 c2, in_op t (taken c1 c2) (logged b0 (logged bm hb)) /\ same_fs s t) alloc_pass
    (Z.to_nat ((s_size sb0 + BPB - 1) / BPB)) 0 (b0 / BPB) b0 s) as (t & E & c1 & c2 & HQ).
  - change BPB with 8192. Z.div_mod_to_equations. lia.
  - intros k t Hk [It Ft]. destruct (alloc_skip t k ltac:(lia) It Ft) as (t' & E & I' & F'). exists t'.
    split_and!; [done|done|eauto with kernel].
  - intros t [It Ft]. destruct (alloc_take t It Ft) as (t' & c1 & c2 & E & I' & F'). exists t'. split; [done|].
    exists c1, c2. split; [done|eauto with kernel].
  - by split.
  - rewrite (bind_ok _ _ _ _ _ E), u32_id by (pose proof (fl_size _ _ _ Lay); lia). by exists t, c1, c2.
Qed.
End Op.
End Blocks.

(** ** What the two operations do to the contents of the disk *)

Section Free.
Context (sb : superblock) (ls : Z * Z) (D : Z -> list Z) (b0 : Z).
Hypothesis Lay : fs_layout sb ls D.
Hypothesis Hb0 : 0 <= b0 < s_size sb.
Let bm := bmap_block sb b0.

(** The view after a block was taken, and after it was released. *)
Definition took : Z -> list Z := dset (dset D bm (set_bit sb D b0)) b0 (replicate bsize 0).
Definition gave : Z -> list Z := dset D bm (clear_bit sb D b0).

Lemma took_other x : x <> b0 -> x <> bm -> took x = D x.
Proof. intros. unfold took, dset. by rewrite !decide_False. Qed.

Lemma used_dset v b x : bmap_block sb b <> x -> used sb (dset D x v) b = used sb D b.
Proof. intros Hx. unfold used, dset. by rewrite decide_False. Qed.

Lemma gave_used b : 0 <= b -> used sb gave b = (negb (b =? b0) && used sb D b)%bool.
Proof using Lay Hb0. intros. apply used_clear; [lia..|apply Lay]. Qed.

Lemma gave_layout : bmap_block sb (s_size sb - 1) < b0 -> fs_layout sb ls gave.
Proof using Lay Hb0.
  intros Hd. pose proof Lay as [L1 L2 L3 L4 L5]. split; try done.
  - intros x. unfold gave, dset. case_decide; [|done]. unfold clear_bit. by rewrite length_insert.
  - intros b Hb Hm. rewrite gave_used, L5 by lia. destruct (Z.eqb_spec b b0); [lia|done].
Qed.

Hypothesis Hfree : used sb D b0 = false.

Lemma took_used b : 0 <= b < s_size sb -> used sb took b = ((b =? b0) || used sb D b)%bool.
Proof using All.
  intros Hb. destruct (free_data_block _ _ _ Lay b0 Hb0 Hfree) as [_ Hn]. specialize (Hn b Hb).
  unfold took. etrans; [|apply used_set; [lia..|apply Lay]]. unfold used at 1, dset at 1. by rewrite decide_False.
Qed.

Lemma took_layout : fs_layout sb ls took.
Proof using All.
  pose proof Lay as [L1 L2 L3 L4 L5]. split; try done.
  - intros x. unfold took, dset. case_decide; [by rewrite length_replicate|]. case_decide; [|done].
    unfold set_bit. by rewrite length_insert.
  - intros b Hb Hm. rewrite took_used, L5 by done. apply orb_true_r.
Qed.
End Free.
