(* ===== verification/FsThm.v ===== *)
(** * Theorems about the free map of the file system (kernel/fs.c)

    [balloc] and [bfree] inside a transaction, over the contracts of the
    buffer cache and the log. *)

From S2P Require Import Mkfs Prelude CInt Memory KMonad Riscv KState KString Blocks Spinlock Sched Bio Log Fs.
From S2P Require Import LockProof BioList BioInv BioProof LogSpec Sample LogProof LogThm FsProof.

Section Theorems.
Context `{DL : DiskLaws} (dv : Z) (s : kst) (a : cache) (hb : list Z) (b0 : Z).
Let sb0 := sb (k_fs s).
Let ls := log_area (logst (k_fs s)).
Let bm := bmap_block sb0 b0.

(** C19. Allocating a block.  Inside a transaction with room for two more
    blocks, on a disk whose own blocks are marked, [balloc] returns the first
    block that is free: it marks this block and no other, fills it with zeroes,
    leaves every other block outside the bitmap as it was, logs the two blocks
    it changed and writes nothing to the disk; the layout stays good. *)
Theorem balloc_correct :
  (0 < rounds)%nat -> in_op dv ∅ s a hb -> fs_layout sb0 ls (c_data a) -> (S (S (length hb)) < NBUF)%nat ->
  0 <= b0 < s_size sb0 -> used sb0 (c_data a) b0 = false -> (forall b, 0 <= b < b0 -> used sb0 (c_data a) b = true) ->
  exists s' a', balloc dv s = Ok (b0, s') /\ in_op dv ∅ s' a' (logged b0 (logged bm hb)) /\ sb (k_fs s') = sb0 /\
    fs_layout sb0 ls (c_data a') /\ c_data a' b0 = replicate bsize 0 /\
    (forall b, 0 <= b < s_size sb0 -> used sb0 (c_data a') b = ((b =? b0) || used sb0 (c_data a) b)%bool) /\
    (forall x, x <> b0 -> x <> bm -> c_data a' x = c_data a x) /\ c_medium a' = c_medium a /\ c_trace a' = c_trace a.
Proof.
  intros Hr I Lay Hl Hb Hu Hf. destruct (balloc_ok dv Hr ∅ s a hb b0 I (not_elem_of_empty _) Lay Hb ltac:(rewrite size_empty; lia) (not_elem_of_empty _)
    (fun _ _ => not_elem_of_empty _) ltac:(rewrite size_empty; lia) Hu Hf)
    as (s' & c1 & c2 & E & I' & F).
  exists s', (taken s a b0 c1 c2). change (c_data (taken s a b0 c1 c2)) with (took sb0 (c_data a) b0). split_and!; try done.
  - by apply same_fs_sb.
  - by apply took_layout.
  - unfold took, dset. by rewrite decide_True.
  - intros b. by apply (took_used _ ls).
  - apply took_other.
Qed.

(** C20. Releasing a block.  Inside a transaction, [bfree] of a block that is
    marked clears its mark and no other and changes nothing but the block of
    the bitmap, which is logged, and keeps the layout if it is a data block; of
    a block that is not marked it panics. *)
Theorem bfree_correct :
  (0 < rounds)%nat -> in_op dv ∅ s a hb -> fs_layout sb0 ls (c_data a) -> (S (length hb) < NBUF)%nat -> 0 <= b0 < s_size sb0 ->
  if used sb0 (c_data a) b0 then
    exists s' a', bfree dv b0 s = Ok (tt, s') /\ in_op dv ∅ s' a' (logged bm hb) /\ sb (k_fs s') = sb0 /\
      (forall b, 0 <= b -> used sb0 (c_data a') b = (negb (b =? b0) && used sb0 (c_data a) b)%bool) /\
      (forall x, x <> bm -> c_data a' x = c_data a x) /\ c_medium a' = c_medium a /\ c_trace a' = c_trace a /\
      (bmap_block sb0 (s_size sb0 - 1) < b0 -> fs_layout sb0 ls (c_data a'))
  else bfree dv b0 s = Panic "freeing free block".
Proof.
  intros Hr I Lay Hl Hb. pose proof (bfree_ok dv Hr ∅ s a hb b0 I (not_elem_of_empty _) Lay Hb ltac:(rewrite size_empty; lia)) as Hf. fold sb0 bm in Hf.
  destruct (used sb0 (c_data a) b0); [|done]. destruct Hf as (s' & b & E & I' & F).
  exists s', (wrote bm b (clear_bit sb0 (c_data a) b0) a). split_and!; try done.
  - by apply same_fs_sb.
  - intros x Hx. by apply (gave_used _ ls).
  - intros x Hx. cbn. unfold dset. by rewrite decide_False.
  - by apply gave_layout.
Qed.

(** Allocating and releasing a block gives the free map back: every block
    is free or in use as before, and only the released block and its block of
    the bitmap may differ. *)
Theorem balloc_bfree :
  (0 < rounds)%nat -> in_op dv ∅ s a hb -> fs_layout sb0 ls (c_data a) -> (S (S (S (length hb))) < NBUF)%nat ->
  0 <= b0 < s_size sb0 -> used sb0 (c_data a) b0 = false -> (forall b, 0 <= b < b0 -> used sb0 (c_data a) b = true) ->
  exists s' a' hb', (b <- balloc dv ;; bfree dv b) s = Ok (tt, s') /\ in_op dv ∅ s' a' hb' /\
    (forall b, 0 <= b < s_size sb0 -> used sb0 (c_data a') b = used sb0 (c_data a) b) /\
    (forall x, x <> b0 -> x <> bm -> c_data a' x = c_data a x).
Proof.
  intros Hr I Lay Hl Hb Hu Hf. destruct (balloc_ok dv Hr ∅ s a hb b0 I (not_elem_of_empty _) Lay Hb ltac:(rewrite size_empty; lia) (not_elem_of_empty _)
    (fun _ _ => not_elem_of_empty _) ltac:(rewrite size_empty; lia) Hu Hf)
    as (s1 & c1 & c2 & E1 & I1 & F1).
  rewrite (bind_ok _ _ _ _ _ E1). assert (sb (k_fs s1) = sb0) as Es by apply (same_fs_sb _ _ F1).
  pose proof (took_layout sb0 ls (c_data a) b0 Lay Hb Hu) as Lay1. pose proof (took_used sb0 ls (c_data a) b0 Lay Hb Hu) as Ht.
  pose proof (bfree_ok dv Hr ∅ s1 (taken s a b0 c1 c2) (logged b0 (logged bm hb)) b0 I1 (not_elem_of_empty _)) as Hbf.
  rewrite Es, (same_fs_log _ _ F1) in Hbf. change (c_data (taken s a b0 c1 c2)) with (took sb0 (c_data a) b0) in Hbf.
  rewrite Ht, Z.eqb_refl in Hbf by done. cbn [orb] in Hbf.
  destruct Hbf as (s2 & b & E2 & I2 & _); try done.
  { rewrite size_empty. unfold logged. repeat case_decide; rewrite ?length_app; cbn; lia. }
  eexists s2, _, _. split_and!; [done|exact I2| |].
  - intros x Hx. change (used sb0 (gave sb0 (took sb0 (c_data a) b0) b0) x = used sb0 (c_data a) x).
    rewrite (gave_used _ ls), Ht by (done || lia). destruct (Z.eqb_spec x b0) as [->|]; [by rewrite Hu|done].
  - intros x H1 H2. cbn. unfold dset. rewrite !decide_False by done. done.
Qed.
End Theorems.

(** ** A small file system

    It has the superblock that mkfs.c writes: 2000 blocks, the log in the 30 blocks
    from block 2, the inodes from block 32 and the bitmap in block 45; blocks 0
    to 47 are in use. *)

Definition small_sb : superblock := Eval vm_compute in mksb.
Definition small_hist : list (Z * list Z) := [(45, replicate 6 255 ++ replicate 1018 0)].
Definition ssb (f : superblock -> superblock) (s : kst) : kst := set k_fs (set sb f) s.

Lemma cached_ssb s a f : cached 1 s a -> cached 1 (ssb f s) a.
Proof.
  intros [Q R Co V D F Cl He L B M T Dk]. split; try done. by apply (quiet_ext s).
Qed.

Lemma small_used b : 0 <= b < 48 -> used small_sb (tmedium (TDev small_hist)) b = true.
Proof.
  assert (forallb (used small_sb (tmedium (TDev small_hist))) (seqZ 0 48) = true) as H by by vm_compute.
  intros Hb. rewrite forallb_forall in H. apply H, list_elem_of_In, elem_of_seqZ. lia.
Qed.

Lemma small_layout : fs_layout small_sb (2, 30) (tmedium (TDev small_hist)).
Proof.
  split; [done|done|done|intros bn; apply length_fix_block|].
  intros b Hb Hm. apply small_used. change (bmap_block small_sb (s_size small_sb - 1)) with 45 in Hm. lia.
Qed.

(** An operation on this file system that has changed nothing yet. *)
Lemma small_op : exists s, in_op 1 ∅ s (fresh_view (kboot small_hist)) [] /\ sb (k_fs s) = small_sb /\ logst (k_fs s) = sample_log /\
  ram_lo (k_mem s) = 0x1000 /\ ram_hi (k_mem s) = 0x20000 /\ sl_locked (sleep_of (SLinode 1) s) = 0.
Proof.
  destruct (cached_kboot small_hist) as (s & E & C & _).
  assert (match binit (kboot small_hist) with Ok (_, t) => Some (ram_lo (k_mem t), ram_hi (k_mem t), sl_locked (sleep_of (SLinode 1) t)) | _ => None end = Some (0x1000, 0x20000, 0)) as Em by by vm_compute.
  rewrite E in Em. clear E. injection Em as ? ? ?.
  exists (ssb (fun _ => small_sb) (slog (fun _ => sample_log) s)). split; [|done]. split; try done.
  - by apply cached_ssb, cached_slog.
  - apply sample_log_is.
  - split; try done; [|rewrite size_empty; unfold NBUF; cbn; lia]. intros x _. cbn. rewrite lookup_empty, elem_of_nil. split; [by intros []|done].
Qed.

Lemma balloc_correct_witness : exists s s' a', sb (k_fs s) = small_sb /\ balloc 1 s = Ok (48, s') /\
  in_op 1 ∅ s' a' [45; 48] /\ c_data a' 48 = replicate bsize 0.
Proof.
  destruct small_op as (s & I & Es & El & _). exists s.
  destruct (balloc_correct 1 s (fresh_view (kboot small_hist)) [] 48 sample_rounds I) as (s' & a' & E & I' & _ & _ & Ez & _);
    rewrite ?Es, ?El; try done; [apply small_layout|unfold NBUF; cbn; lia|apply small_used|].
  rewrite Es in I'. by exists s', a'.
Defined.

Lemma bfree_correct_witness : exists s s' a', sb (k_fs s) = small_sb /\ bfree 1 47 s = Ok (tt, s') /\
  in_op 1 ∅ s' a' [45] /\ used small_sb (c_data a') 47 = false.
Proof.
  destruct small_op as (s & I & Es & El & _). exists s.
  pose proof (bfree_correct 1 s (fresh_view (kboot small_hist)) [] 47 sample_rounds I) as H. rewrite Es, El in H.
  specialize (H small_layout ltac:(unfold NBUF; cbn; lia) ltac:(done)). change (c_data (fresh_view (kboot small_hist))) with (tmedium (TDev small_hist)) in H.
  rewrite small_used in H by lia. destruct H as (s' & a' & E & I' & _ & Hu & _). exists s', a'. split_and!; try done.
  by rewrite Hu.
Defined.

Lemma balloc_bfree_witness : exists s s' a' hb', sb (k_fs s) = small_sb /\ (b <- balloc 1 ;; bfree 1 b) s = Ok (tt, s') /\
  in_op 1 ∅ s' a' hb' /\ used small_sb (c_data a') 48 = false.
Proof.
  destruct small_op as (s & I & Es & El & _). exists s.
  destruct (balloc_bfree 1 s (fresh_view (kboot small_hist)) [] 48 sample_rounds I) as (s' & a' & hb' & E & I' & Hu & _);
    rewrite ?Es, ?El; try done; [apply small_layout|unfold NBUF; cbn; lia|apply small_used|].
  rewrite Es in Hu. exists s', a', hb'. split_and!; try done. by rewrite Hu.
Defined.
