(* ===== verification/FileInv.v ===== *)
(** * The contents of a file

    The blocks of an inode (fs.c, [bmap]) as a function from block indices to
    block numbers, the bytes of a file, and when an inode is well formed: its
    blocks are data blocks that are marked in the free map, no block has two
    uses, and every block below the size is there. *)

From S2P Require Import Prelude CInt Memory KMonad KState Blocks Bio Log Fs.
From S2P Require Import BioInv BioProof LogSpec FsProof.

(** ** Blocks and bytes of a file *)

Section Contents.
Context (D : Z -> list Z) (x : inode).

Definition addr (i : Z) : Z := default 0 (i_addrs x !! Z.to_nat i).
Definition ind : Z := addr NDIRECT.
(** The block of index [i]; 0 if there is none. *)
Definition fblock (i : Z) : Z :=
  if i <? NDIRECT then addr i
  else if ind =? 0 then 0 else get_le 4 (D ind) (Z.to_nat (4 * (i - NDIRECT))).
(** The byte at offset [j]. *)
Definition fbyte (j : Z) : Z := default 0 (D (fblock (j / BSIZE)) !! Z.to_nat (j mod BSIZE)).
Definition fbytes (off n : Z) : list Z := fbyte <$> seqZ off n.
End Contents.

(** Bytes of one block. *)
Lemma fbyte_at D x j k : 0 <= j -> 0 <= k -> j mod BSIZE + k < BSIZE ->
  fbyte D x (j + k) = default 0 (D (fblock D x (j / BSIZE)) !! Z.to_nat (j mod BSIZE + k)).
Proof.
  intros Hj Hk Hm. unfold fbyte. change BSIZE with 1024 in *.
  replace ((j + k) / 1024) with (j / 1024) by (Z.div_mod_to_equations; lia).
  by replace ((j + k) mod 1024) with (j mod 1024 + k) by (Z.div_mod_to_equations; lia).
Qed.

(** A block that holds data of files: past the file system's own blocks and
    marked. *)
Definition is_data (sb : superblock) (D : Z -> list Z) (b : Z) : Prop :=
  bmap_block sb (s_size sb - 1) < b < s_size sb /\ used sb D b = true.

Record file_wf (sb : superblock) (D : Z -> list Z) (x : inode) : Prop := {
  fw_addrs : length (i_addrs x) = 13%nat;
  fw_size : 0 <= i_size x <= MAXFILE * BSIZE;
  fw_data i : 0 <= i < MAXFILE -> fblock D x i <> 0 -> is_data sb D (fblock D x i);
  fw_ind : ind x <> 0 -> is_data sb D (ind x);
  fw_inj i j : 0 <= i < MAXFILE -> 0 <= j < MAXFILE -> fblock D x i <> 0 -> fblock D x i = fblock D x j -> i = j;
  fw_sep i : 0 <= i < MAXFILE -> ind x <> 0 -> fblock D x i <> ind x;
  fw_full i : 0 <= i -> i * BSIZE < i_size x -> fblock D x i <> 0
}.

(** The blocks of the file. *)
Definition owns (D : Z -> list Z) (x : inode) (b : Z) : Prop :=
  b <> 0 /\ (b = ind x \/ exists i, 0 <= i < MAXFILE /\ fblock D x i = b).

(** ** The free map and files *)

Lemma is_data_pos sb ls D b : fs_layout sb ls D -> is_data sb D b -> 0 < b < s_size sb /\ 0 <= bmap_block sb (s_size sb - 1) < b.
Proof.
  intros Lay [Hb _]. destruct (bmap_block_range _ _ _ Lay (s_size sb - 1)) as (? & _ & _); [|lia].
  pose proof (fl_size _ _ _ Lay). lia.
Qed.
(** A data block is no block of the bitmap and not in the log. *)
Lemma is_data_bmap sb ls D b b' : fs_layout sb ls D -> is_data sb D b -> 0 <= b' < s_size sb -> b <> bmap_block sb b'.
Proof. intros Lay [Hb _] Hb' ->. destruct (bmap_block_range _ _ _ Lay b' Hb') as (_ & _ & ?). lia. Qed.
Lemma is_data_home sb ls D b : fs_layout sb ls D -> is_data sb D b -> 0 <= b < 2 ^ 31 /\ off_log ls b.
Proof.
  intros Lay Hb. pose proof (is_data_pos _ _ _ _ Lay Hb) as [? ?]. pose proof (fl_size _ _ _ Lay). pose proof (fl_log _ _ _ Lay).
  destruct Hb as [Hb _]. split; [lia|]. unfold off_log, in_log. pose proof (Z.div_pos (s_size sb - 1) BPB ltac:(lia) ltac:(done)).
  unfold bmap_block in *. lia.
Qed.

(** A block of a file is on the disk. *)
Lemma is_data_disk `{DL : DiskLaws} sb D b : fs_on_disk sb -> is_data sb D b -> disk_has b.
Proof.
  intros [Hs Hd] [Hb _]. apply Hd. unfold bmap_block in Hb. change BPB with 8192 in Hb.
  Z.div_mod_to_equations. lia.
Qed.

(** Free blocks: there are [k] of them. *)
Definition free_atleast (sb : superblock) (D : Z -> list Z) (k : nat) : Prop :=
  exists l, NoDup l /\ length l = k /\ forall b, b ∈ l -> 0 <= b < s_size sb /\ used sb D b = false.

Lemma free_weaken sb D k k' : (k' <= k)%nat -> free_atleast sb D k -> free_atleast sb D k'.
Proof.
  intros Hk (l & Hn & Hl & Hf). exists (take k' l). split_and!.
  - rewrite <- (take_drop k' l) in Hn. by apply NoDup_app in Hn as [? _].
  - rewrite length_take. lia.
  - intros b Hb. apply Hf. rewrite <- (take_drop k' l). apply elem_of_app. by left.
Qed.

(** The first free block. *)
Lemma first_free sb D k :
  free_atleast sb D (S k) -> exists b, 0 <= b < s_size sb /\ used sb D b = false /\ forall b', 0 <= b' < b -> used sb D b' = true.
Proof.
  intros (l & _ & Hl & Hf). destruct l as [|b l]; [done|]. destruct (Hf b) as [Hb Hu]; [left|]. clear Hf Hl l.
  revert Hb Hu. induction (Z.lt_wf 0 b) as [b _ IH]. intros Hb Hu.
  destruct (decide (Forall (fun y => used sb D y = true) (seqZ 0 b))) as [Ha|Ha].
  - exists b. split_and!; [lia..|done|]. intros b' Hb'. rewrite Forall_forall in Ha. apply Ha, elem_of_seqZ. lia.
  - apply not_Forall_Exists, Exists_exists in Ha as (y & Hy%elem_of_seqZ & Hn%not_true_is_false); [|apply _].
    apply (IH y); [lia|lia|done].
Qed.

(** Removing one element of a list without duplicates. *)
Lemma length_remove (l : list Z) (b : Z) : NoDup l -> (length l <= S (length (filter (fun y => y <> b) l)))%nat.
Proof.
  induction 1 as [|y l Hy Hn IH]; [cbn; lia|]. rewrite filter_cons. case_decide as Hd; cbn [length]; [lia|].
  subst y. rewrite filter_full; [lia|]. by intros z Hz ->.
Qed.

(** Taking a free block leaves the others. *)
Lemma free_took sb ls D k b0 :
  fs_layout sb ls D -> 0 <= b0 < s_size sb -> used sb D b0 = false -> free_atleast sb D (S k) -> free_atleast sb (took sb D b0) k.
Proof.
  intros Lay Hb0 Hu (l & Hn & Hl & Hf).
  assert (exists l', NoDup l' /\ (k <= length l')%nat /\ b0 ∉ l' /\ forall b, b ∈ l' -> b ∈ l) as (l' & Hn' & Hl' & Hb' & Hs).
  { exists (filter (fun b => b <> b0) l). split_and!.
    - by apply NoDup_filter.
    - pose proof (length_remove l b0 Hn). lia.
    - rewrite list_elem_of_filter. tauto.
    - intros b. rewrite list_elem_of_filter. tauto. }
  apply (free_weaken _ _ _ _ Hl'). exists l'. split_and!; [done..|]. intros b Hb. destruct (Hf b (Hs b Hb)) as [? Hfb].
  split; [done|]. rewrite (took_used _ ls) by done. destruct (Z.eqb_spec b b0); [by subst|done].
Qed.

(** ** Steps of a file *)

Definition no_bmap (sb : superblock) (b : Z) : Prop := forall b', 0 <= b' < s_size sb -> b <> bmap_block sb b'.

(** A change of the disk and of the inode by operations on this file: blocks
    are only added, from the free ones, and no other block in use changes. *)
Record fstep (sb : superblock) (ls : Z * Z) (D : Z -> list Z) (x : inode) (D' : Z -> list Z) (x' : inode) : Prop := {
  st_layout : fs_layout sb ls D';
  st_wf : file_wf sb D' x';
  st_fields : x' = x <| i_addrs := i_addrs x' |>;
  st_old i : 0 <= i < MAXFILE -> fblock D x i <> 0 -> fblock D' x' i = fblock D x i;
  st_ind : ind x <> 0 -> ind x' = ind x;
  st_used b : 0 <= b < s_size sb -> used sb D b = true -> used sb D' b = true;
  st_new b : owns D' x' b -> owns D x b \/ 0 <= b < s_size sb /\ used sb D b = false;
  st_frame b : 0 <= b < s_size sb -> used sb D b = true -> no_bmap sb b -> ~ owns D x b -> D' b = D b
}.

Lemma fstep_refl sb ls D x : fs_layout sb ls D -> file_wf sb D x -> fstep sb ls D x D x.
Proof. intros Lay W. split; try done; [by destruct x|auto]. Qed.

Lemma fstep_trans sb ls D x D1 x1 D2 x2 :
  fstep sb ls D x D1 x1 -> fstep sb ls D1 x1 D2 x2 -> fstep sb ls D x D2 x2.
Proof.
  intros [A1 A2 A3 A4 Ai A5 A6 A7] [B1 B2 B3 B4 Bi B5 B6 B7]. split; try done.
  - rewrite B3, A3. done.
  - intros i Hi H0. rewrite B4, A4; try done. by rewrite A4.
  - intros Hn. rewrite Bi, Ai; try done. by rewrite Ai.
  - auto.
  - intros b Hb. destruct (B6 b Hb) as [Ho|[Hr Hf]]; [auto|]. right. split; [done|].
    destruct (used sb D b) eqn:E; [|done]. by rewrite (A5 b Hr E) in Hf.
  - intros b Hb Hu Hn Ho. rewrite B7, A7; auto. intros [?|[_ Hf]]%A6; [done|congruence].
Qed.

Lemma fstep_size sb ls D x D' x' : fstep sb ls D x D' x' -> i_size x' = i_size x /\ i_dev x' = i_dev x /\ i_inum x' = i_inum x.
Proof. intros [_ _ E _ _ _ _]. rewrite E. done. Qed.

Section Wf.
Context (sb : superblock) (ls : Z * Z) (D : Z -> list Z) (x : inode).
Hypothesis Lay : fs_layout sb ls D.
Hypothesis W : file_wf sb D x.

Lemma owns_data b : owns D x b -> is_data sb D b.
Proof using W.
  intros [Hb [->|(i & Hi & <-)]]; [by apply (fw_ind _ _ _ W)|by apply (fw_data _ _ _ W)].
Qed.
Lemma fblock_owns i : 0 <= i < MAXFILE -> fblock D x i <> 0 -> owns D x (fblock D x i).
Proof. intros Hi H0. split; [done|]. right. by exists i. Qed.

(** The blocks of the file when nothing but other blocks changes. *)
Lemma fblock_ext D' x' : i_addrs x' = i_addrs x -> (ind x <> 0 -> D' (ind x) = D (ind x)) -> forall i, fblock D' x' i = fblock D x i.
Proof.
  intros Ea Ed i. unfold fblock, ind, addr in *. rewrite Ea. destruct (i <? NDIRECT); [done|].
  destruct (Z.eqb_spec (default 0 (i_addrs x !! Z.to_nat NDIRECT)) 0); [done|]. by rewrite Ed.
Qed.

(** Writing a block of the file. *)
Context (i : Z) (v : list Z).
Hypothesis Hi : 0 <= i < MAXFILE.
Hypothesis H0 : fblock D x i <> 0.
Hypothesis Hv : length v = bsize.
Let b := fblock D x i.
Let D' := dset D b v.

Lemma write_blocks j : fblock D' x j = fblock D x j.
Proof using W Hi.
  apply fblock_ext; [done|]. intros Hn. unfold D', dset. rewrite decide_False; [done|]. intros E.
  by apply (fw_sep _ _ _ W i Hi Hn).
Qed.
Lemma write_used y : 0 <= y < s_size sb -> used sb D' y = used sb D y.
Proof using All.
  intros Hy. unfold used, D', dset. rewrite decide_False; [done|]. intros E.
  by apply (is_data_bmap _ _ _ b y Lay (fw_data _ _ _ W i Hi H0) Hy).
Qed.
Lemma write_layout : fs_layout sb ls D'.
Proof using All.
  destruct (Lay) as [L1 L2 L3 L4 L5]. split; try done.
  - intros y. unfold D', dset. by case_decide.
  - intros y Hy Hm. rewrite write_used; auto.
Qed.
Lemma write_data y : is_data sb D y -> is_data sb D' y.
Proof using All.
  intros Hd. pose proof (is_data_pos _ _ _ _ Lay Hd). destruct Hd as [? Hu]. split; [done|]. rewrite write_used; [done|lia].
Qed.
Lemma write_wf : file_wf sb D' x.
Proof using All.
  destruct (W) as [W1 W2 W3 W4 W5 W6 W7]. split; try done; intros j; rewrite ?write_blocks; auto using write_data.
  intros k. rewrite !write_blocks. auto.
Qed.
Lemma write_step : fstep sb ls D x D' x.
Proof using All.
  split; auto using write_layout, write_wf.
  - by destruct x.
  - intros. apply write_blocks.
  - intros y Hy Hu. by rewrite write_used.
  - intros y [Hy Ho]. left. split; [done|]. destruct Ho as [|(j & Hj & E)]; [by left|right]. exists j. by rewrite write_blocks in E.
  - intros y Hy Hu Hn Ho. unfold D', dset. rewrite decide_False; [done|]. intros ->. by apply Ho, fblock_owns.
Qed.
End Wf.

(** ** Adding a block to a file *)

Definition with_addr (x : inode) (i v : Z) : inode := x <| i_addrs := <[Z.to_nat i := v]> (i_addrs x) |>.

Lemma addr_with x i v j : length (i_addrs x) = 13%nat -> 0 <= i <= NDIRECT -> 0 <= j ->
  addr (with_addr x i v) j = if decide (j = i) then v else addr x j.
Proof.
  intros Hl Hi Hj. unfold addr, with_addr. cbn. unfold NDIRECT in *. case_decide as E.
  - subst. by rewrite list_lookup_insert_eq by lia.
  - rewrite list_lookup_insert_ne by lia. done.
Qed.

(** What [bmap] does when it adds block [b0] at index [i]. *)
Record added (sb : superblock) (ls : Z * Z) (D : Z -> list Z) (x : inode) (D' : Z -> list Z) (x' : inode) (i b : Z) : Prop := {
  ad_step : fstep sb ls D x D' x';
  ad_block : fblock D' x' i = b /\ b <> 0;
  ad_other j : 0 <= j < MAXFILE -> j <> i -> fblock D' x' j = fblock D x j;
  ad_keep j : 0 <= j < MAXFILE -> fblock D x j <> 0 -> D' (fblock D x j) = D (fblock D x j)
}.

Section Add.
Context (sb : superblock) (ls : Z * Z) (D : Z -> list Z) (x : inode) (b0 : Z).
Hypothesis Lay : fs_layout sb ls D.
Hypothesis W : file_wf sb D x.
Hypothesis Hb0 : 0 <= b0 < s_size sb.
Hypothesis Hfree : used sb D b0 = false.

Lemma free_not_owned : ~ owns D x b0.
Proof using W Hfree. intros [_ Hu]%(owns_data _ _ _ W). congruence. Qed.
Lemma free_is_past : bmap_block sb (s_size sb - 1) < b0 /\ b0 <> 0.
Proof using Lay Hb0 Hfree.
  assert (bmap_block sb (s_size sb - 1) < b0) as Hlt.
  { destruct (decide (bmap_block sb (s_size sb - 1) < b0)); [done|]. rewrite (fl_meta _ _ _ Lay) in Hfree by lia. done. }
  split; [done|]. destruct (bmap_block_range _ _ _ Lay (s_size sb - 1)) as [? _]; lia.
Qed.

Context (D' : Z -> list Z) (x' : inode) (i : Z).
Hypothesis Hlen : forall y, length (D' y) = bsize.
Hypothesis Hused : forall y, 0 <= y < s_size sb -> used sb D' y = ((y =? b0) || used sb D y)%bool.
Hypothesis Hframe : forall y, 0 <= y < s_size sb -> used sb D y = true -> no_bmap sb y -> (ind x <> 0 -> y <> ind x) -> D' y = D y.
Hypothesis Hx : x' = x <| i_addrs := i_addrs x' |> /\ length (i_addrs x') = 13%nat.
Hypothesis HB : forall j, 0 <= j < MAXFILE ->
  fblock D' x' j = fblock D x j \/ fblock D x j = 0 /\ fblock D' x' j = b0 /\ j = i.
Hypothesis HI : ind x' = ind x \/ ind x = 0 /\ ind x' = b0 /\ forall j, 0 <= j < MAXFILE -> fblock D' x' j = fblock D x j.

Lemma add_data y : is_data sb D y -> is_data sb D' y.
Proof using All.
  intros Hd. pose proof (is_data_pos _ _ _ _ Lay Hd). destruct Hd as [? Hu]. split; [done|]. rewrite Hused, Hu by lia. apply orb_true_r.
Qed.
Lemma add_data_new : is_data sb D' b0.
Proof using All. split; [pose proof free_is_past; lia|]. rewrite Hused, Z.eqb_refl by done. done. Qed.

Lemma add_wf : file_wf sb D' x'.
Proof using All.
  pose proof free_not_owned as Hno. pose proof add_data as Hd. pose proof add_data_new as Hn.
  destruct (W) as [W1 W2 W3 W4 W5 W6 W7]. destruct Hx as [Ex Hl].
  assert (forall j, 0 <= j < MAXFILE -> fblock D x j = b0 -> b0 <> 0 -> False) as Hj.
  { intros j Hj E Hz. apply Hno. split; [done|]. right. by exists j. }
  assert (ind x = b0 -> b0 <> 0 -> False) as Hin by (intros E Hz; apply Hno; split; [done|by left]).
  pose proof free_is_past as [_ Hz]. split.
  - done.
  - by rewrite Ex.
  - intros j Hjr Hne. destruct (HB j Hjr) as [E|(_ & E & _)]; rewrite E in *; auto.
  - intros Hne. destruct HI as [E|(_ & E & _)]; rewrite E in *; auto.
  - intros j k Hjr Hkr. destruct (HB j Hjr) as [->|(E1 & -> & ->)], (HB k Hkr) as [->|(E2 & -> & ->)]; auto.
    + intros _ E. exfalso. eauto.
    + intros _ E. exfalso. eauto.
  - intros j Hjr. destruct HI as [->|(Ei & -> & HB')].
    + destruct (HB j Hjr) as [->|(_ & -> & _)]; auto.
    + rewrite HB' by done. intros _ E. eauto.
  - intros j Hjr Hs. rewrite Ex in Hs. cbn in Hs. assert (j < MAXFILE) by (unfold BSIZE in *; lia).
    destruct (HB j) as [->|(E1 & _)]; [lia|auto|by destruct (W7 j)].
Qed.

Lemma add_step : fstep sb ls D x D' x'.
Proof using All.
  destruct (Lay) as [L1 L2 L3 L4 L5]. split; try done; [|apply add_wf|apply Hx|..].
  - split; try done. intros y Hy Hm. rewrite Hused, L5 by done. apply orb_true_r.
  - intros j Hj Hne. by destruct (HB j Hj) as [?|(? & _)].
  - intros Hn. by destruct HI as [?|(? & _)].
  - intros y Hy Hu. rewrite Hused, Hu by done. apply orb_true_r.
  - intros y [Hy [->|(j & Hj & <-)]].
    + destruct HI as [E|(_ & E & _)]; rewrite E in *; [left; split; auto|by right].
    + destruct (HB j Hj) as [E|(_ & E & _)]; rewrite E in *; [left; by apply fblock_owns|by right].
  - intros y Hy Hu Hn Ho. apply Hframe; try done. intros E ->. apply Ho. by split; [|left].
Qed.

(** The blocks that the file had keep their contents. *)
Lemma add_keep j : 0 <= j < MAXFILE -> fblock D x j <> 0 -> D' (fblock D x j) = D (fblock D x j).
Proof using All.
  intros Hj Hne. pose proof (fw_data _ _ _ W j Hj Hne) as Hd. pose proof (is_data_pos _ _ _ _ Lay Hd).
  apply Hframe; [lia|apply Hd| |].
  - intros b' Hb'. by apply (is_data_bmap _ ls D).
  - intros Hi. by apply (fw_sep _ _ _ W).
Qed.

Lemma add_added : fblock D' x' i = b0 -> added sb ls D x D' x' i b0.
Proof using All.
  intros E. split; [apply add_step|split; [done|apply free_is_past]| |apply add_keep].
  intros j Hj Hne. by destruct (HB j Hj) as [|(_ & _ & ?)].
Qed.
End Add.

Section Took.
Context (sb : superblock) (ls : Z * Z) (D : Z -> list Z) (x : inode) (b0 : Z).
Hypothesis Lay : fs_layout sb ls D.
Hypothesis W : file_wf sb D x.
Hypothesis Hb0 : 0 <= b0 < s_size sb.
Hypothesis Hfree : used sb D b0 = false.
Let D' := took sb D b0.

Lemma took_len y : length (D' y) = bsize.
Proof using All. apply (took_layout sb ls D b0 Lay Hb0 Hfree). Qed.
Lemma took_frame y : 0 <= y < s_size sb -> used sb D y = true -> no_bmap sb y -> D' y = D y.
Proof using All. intros Hy Hu Hn. apply took_other; [congruence|by apply Hn]. Qed.
Lemma took_ind : ind x <> 0 -> D' (ind x) = D (ind x).
Proof using All.
  intros Hi. pose proof (fw_ind _ _ _ W Hi) as Hd. pose proof (is_data_pos _ _ _ _ Lay Hd). apply took_frame; [lia|apply Hd|].
  intros b' Hb'. by apply (is_data_bmap _ ls D).
Qed.
Lemma took_new : D' b0 = replicate bsize 0.
Proof using All. unfold D', took, dset. by rewrite decide_True. Qed.

Lemma add_direct i : 0 <= i < NDIRECT -> fblock D x i = 0 -> added sb ls D x D' (with_addr x i b0) i b0.
Proof using All.
  intros Hi H0. assert (forall j, 0 <= j -> addr (with_addr x i b0) j = if decide (j = i) then b0 else addr x j) as Ha.
  { intros j Hj. apply addr_with; [apply W|lia|done]. }
  assert (ind (with_addr x i b0) = ind x) as Ei by (unfold ind; rewrite Ha, decide_False by (unfold NDIRECT in *; lia); done).
  assert (forall j, 0 <= j < MAXFILE -> fblock D' (with_addr x i b0) j = if decide (j = i) then b0 else fblock D x j) as HB.
  { intros j Hj. unfold fblock. rewrite Ei. destruct (Z.ltb_spec j NDIRECT); [apply Ha; lia|]. rewrite decide_False by lia.
    destruct (Z.eqb_spec (ind x) 0); [done|]. by rewrite took_ind. }
  apply (add_added sb ls D x b0 Lay W Hb0 Hfree); auto using took_len, took_frame.
  - intros. by apply (took_used _ ls).
  - split; [done|]. cbn. rewrite length_insert. apply W.
  - intros j Hj. rewrite HB by done. case_decide; [subst; by right|by left].
  - rewrite HB, decide_True by (done || change MAXFILE with 268; unfold NDIRECT in *; lia). done.
Qed.

(** A new indirect block adds no block of data. *)
Lemma get_le_zeroes k off : get_le k (replicate bsize 0) off = 0.
Proof using.
  revert off. induction k as [|k IH]; intros off; cbn [get_le]; [done|]. rewrite IH.
  destruct (replicate bsize 0 !! off) as [v|] eqn:E; [|done]. by apply lookup_replicate in E as [-> _].
Qed.

Lemma add_ind : ind x = 0 -> let x' := with_addr x NDIRECT b0 in
  fstep sb ls D x D' x' /\ ind x' = b0 /\ b0 <> 0 /\ (forall j, 0 <= j < MAXFILE -> fblock D' x' j = fblock D x j) /\
  (forall j, 0 <= j < MAXFILE -> fblock D x j <> 0 -> D' (fblock D x j) = D (fblock D x j)).
Proof using All.
  intros H0 x'. pose proof (free_is_past sb ls D b0 Lay Hb0 Hfree) as [_ Hz].
  assert (forall j, 0 <= j -> addr x' j = if decide (j = NDIRECT) then b0 else addr x j) as Ha.
  { intros j Hj. apply addr_with; [apply W|done|done]. }
  assert (ind x' = b0) as Ei by (unfold ind; by rewrite Ha, decide_True).
  assert (forall j, 0 <= j < MAXFILE -> fblock D' x' j = fblock D x j) as HB.
  { intros j Hj. unfold fblock. rewrite Ei, H0. destruct (Z.ltb_spec j NDIRECT); [rewrite Ha, decide_False by lia; done|].
    rewrite took_new, get_le_zeroes. by destruct (b0 =? 0). }
  split_and!; try done.
  - apply (add_step sb ls D x b0 Lay W Hb0 Hfree) with (i := 0); auto using took_len, took_frame.
    + intros. by apply (took_used _ ls).
    + split; [done|]. cbn. rewrite length_insert. apply W.
  - apply (add_keep sb ls D x b0 Lay W Hb0 Hfree D' x' 0); auto using took_len, took_frame.
    + intros. by apply (took_used _ ls).
    + split; [done|]. cbn. rewrite length_insert. apply W.
Qed.

(** A new entry of the indirect block. *)
Lemma add_entry i : NDIRECT <= i < MAXFILE -> ind x <> 0 -> fblock D x i = 0 ->
  added sb ls D x (dset D' (ind x) (put_le 4 (D (ind x)) (Z.to_nat (4 * (i - NDIRECT))) b0)) x i b0.
Proof using All.
  intros Hi Hn H0. set (D2 := dset _ _ _). pose proof (fw_ind _ _ _ W Hn) as Hd. pose proof (is_data_pos _ _ _ _ Lay Hd).
  assert (D2 (ind x) = put_le 4 (D (ind x)) (Z.to_nat (4 * (i - NDIRECT))) b0) as E2 by (unfold D2, dset; by rewrite decide_True).
  assert (forall y, y <> ind x -> D2 y = D' y) as En by (intros; unfold D2, dset; by rewrite decide_False).
  assert (forall j, 0 <= j < MAXFILE -> fblock D2 x j = if decide (j = i) then b0 else fblock D x j) as HB.
  { intros j Hj. unfold fblock. destruct (Z.ltb_spec j NDIRECT); [by rewrite decide_False by lia|].
    destruct (Z.eqb_spec (ind x) 0); [done|]. rewrite E2. case_decide as Ej.
    - subst. rewrite get_put_le; [|rewrite (fl_length _ _ _ Lay); unfold bsize, NDIRECT in *; change MAXFILE with 268 in *; change BSIZE with 1024; lia].
      apply Z.mod_small. pose proof (fl_size _ _ _ Lay). cbn. lia.
    - apply get_put_le_ne. lia. }
  apply (add_added sb ls D x b0 Lay W Hb0 Hfree).
  - intros y. destruct (decide (y = ind x)) as [->|]; [rewrite E2, length_put_le; apply Lay|rewrite En by done; apply took_len].
  - intros y Hy. rewrite <- (took_used sb ls D b0 Lay Hb0 Hfree y Hy). unfold used. rewrite En; [done|].
    intros E. by apply (is_data_bmap _ _ _ _ y Lay Hd Hy).
  - intros y Hy Hu Hnb Hni. rewrite En by auto. by apply took_frame.
  - split; [by destruct x|apply W].
  - intros j Hj. rewrite HB by done. case_decide; [subst; by right|by left].
  - by left.
  - rewrite HB, decide_True by (done || unfold NDIRECT in *; lia). done.
Qed.
End Took.

(** ** The bytes of a file after a step *)

Section Bytes.
Context (sb : superblock) (ls : Z * Z) (D : Z -> list Z) (x : inode) (D1 : Z -> list Z) (x1 : inode) (off m b : Z) (src : Z -> Z) (v : list Z).
Hypothesis Ad : added sb ls D x D1 x1 (off / BSIZE) b.
Hypothesis Hoff : 0 <= off /\ 0 < m /\ off mod BSIZE + m <= BSIZE /\ off / BSIZE < MAXFILE.
Hypothesis Hv : forall k, 0 <= k < BSIZE -> default 0 (v !! Z.to_nat k) =
  if decide (off mod BSIZE <= k < off mod BSIZE + m) then src (k - off mod BSIZE) else default 0 (D1 b !! Z.to_nat k).

(** The file after block [b] got the contents [v]. *)
Lemma bytes_step j : 0 <= j < MAXFILE * BSIZE -> fblock D x (j / BSIZE) <> 0 \/ off <= j < off + m ->
  let D2 := dset D1 b v in
  fblock D2 x1 (j / BSIZE) <> 0 /\ fbyte D2 x1 j = if decide (off <= j < off + m) then src (j - off) else fbyte D x j.
Proof using All.
  intros Hj Hp D2. destruct Ad as [St [Hb Hb0] Ho Hk]. pose proof (st_wf _ _ _ _ _ _ St) as W.
  assert (0 <= j / BSIZE < MAXFILE) as Hi by (change (MAXFILE * BSIZE) with 274432 in *; change MAXFILE with 268; change BSIZE with 1024; Z.div_mod_to_equations; lia).
  assert (0 <= off / BSIZE) as Ho0 by (apply Z.div_pos; done || lia).
  assert (forall i, fblock D2 x1 i = fblock D1 x1 i) as HB.
  { intros i. unfold D2. rewrite <- Hb. apply (write_blocks sb); [apply W|lia]. }
  pose proof (Z.mod_pos_bound j BSIZE ltac:(done)) as Hm.
  destruct (decide (j / BSIZE = off / BSIZE)) as [E|E].
  - rewrite HB, E, Hb. split; [done|]. unfold fbyte. rewrite HB, E, Hb. unfold D2, dset. rewrite decide_True, Hv by done.
    assert (off mod BSIZE <= j mod BSIZE < off mod BSIZE + m <-> off <= j < off + m) as Heq
      by (change BSIZE with 1024 in *; Z.div_mod_to_equations; lia).
    destruct (decide (off mod BSIZE <= j mod BSIZE < off mod BSIZE + m)) as [Hin|Hin].
    + rewrite decide_True by tauto. f_equal. change BSIZE with 1024 in *; Z.div_mod_to_equations; lia.
    + rewrite decide_False by tauto. destruct Hp as [Hp|Hp]; [|tauto]. rewrite E in *.
      pose proof (st_old _ _ _ _ _ _ St (off / BSIZE) ltac:(lia) Hp) as Eo. rewrite Hb in Eo. by rewrite Eo, Hk, <- Eo by (done || lia).
  - assert (~ off <= j < off + m) as Hn by (change BSIZE with 1024 in *; Z.div_mod_to_equations; lia).
    destruct Hp as [Hp|Hp]; [|tauto]. rewrite decide_False by done.
    assert (fblock D1 x1 (j / BSIZE) = fblock D x (j / BSIZE)) as Eo by (by apply (st_old _ _ _ _ _ _ St)).
    rewrite HB, Eo. split; [done|]. unfold fbyte. rewrite HB, Eo. unfold D2, dset. rewrite decide_False; [by rewrite Hk|].
    intros Eb. apply E. apply (fw_inj _ _ _ W); [done|lia|congruence|congruence].
Qed.
End Bytes.

(** ** Changing a block of inodes *)

Section Meta.
Context (sb : superblock) (ls : Z * Z) (D : Z -> list Z) (x : inode) (ib : Z) (v : list Z).
Hypothesis Lay : fs_layout sb ls D.
Hypothesis W : file_wf sb D x.
Hypothesis Hib : ib < s_bmapstart sb.
Hypothesis Hv : length v = bsize.
Let D' := dset D ib v.

Lemma meta_bmap b : 0 <= b < s_size sb -> ib <> bmap_block sb b.
Proof using All. intros Hb. pose proof (Z.div_pos b BPB ltac:(lia) ltac:(done)). unfold bmap_block. lia. Qed.
Lemma meta_used b : 0 <= b < s_size sb -> used sb D' b = used sb D b.
Proof using All. intros Hb. unfold used, D', dset. rewrite decide_False; [done|]. pose proof (meta_bmap b Hb). congruence. Qed.
Lemma meta_layout : fs_layout sb ls D'.
Proof using All.
  destruct (Lay) as [L1 L2 L3 L4 L5]. split; try done.
  - intros y. unfold D', dset. by case_decide.
  - intros y Hy Hm. rewrite meta_used; auto.
Qed.
Lemma meta_data b : is_data sb D b -> b <> ib /\ D' b = D b /\ is_data sb D' b.
Proof using All.
  intros Hd. pose proof (is_data_pos _ _ _ _ Lay Hd) as [? ?].
  assert (b <> ib) as Hne by (pose proof (Z.div_pos (s_size sb - 1) BPB ltac:(lia) ltac:(done)); unfold bmap_block in *; lia).
  split_and!; [done|unfold D', dset; by rewrite decide_False|]. destruct Hd. split; [done|]. rewrite meta_used; [done|lia].
Qed.

Context (x' : inode).
Hypothesis Ea : i_addrs x' = i_addrs x.
Hypothesis Hsz : 0 <= i_size x' <= MAXFILE * BSIZE.
Hypothesis Hfull : forall i, 0 <= i -> i * BSIZE < i_size x' -> fblock D x i <> 0.

Lemma meta_blocks i : fblock D' x' i = fblock D x i.
Proof using All. apply fblock_ext; [done|]. intros Hn. by destruct (meta_data _ (fw_ind _ _ _ W Hn)) as (_ & ? & _). Qed.
Lemma meta_wf : file_wf sb D' x'.
Proof using All.
  destruct (W) as [W1 W2 W3 W4 W5 W6 W7]. assert (ind x' = ind x) as Ei by (unfold ind, addr; by rewrite Ea).
  split; rewrite ?Ei, ?Ea; try done.
  - intros i. rewrite meta_blocks. intros Hi Hne. by apply meta_data, W3.
  - intros Hn. by apply meta_data, W4.
  - intros i k. rewrite !meta_blocks. auto.
  - intros i. rewrite meta_blocks. auto.
  - intros i. rewrite meta_blocks. auto.
Qed.
Lemma meta_byte j : 0 <= j < MAXFILE * BSIZE -> fblock D x (j / BSIZE) <> 0 -> fbyte D' x' j = fbyte D x j.
Proof using All.
  intros Hj Hne. unfold fbyte. rewrite meta_blocks. f_equal. f_equal. apply meta_data, (fw_data _ _ _ W); [|done].
  change (MAXFILE * BSIZE) with 274432 in *. change MAXFILE with 268. change BSIZE with 1024. Z.div_mod_to_equations. lia.
Qed.
End Meta.

(** ** Several files *)

(** Every file is well formed and no two share a block. *)
Definition files_wf (sb : superblock) (D : Z -> list Z) (fs : list inode) : Prop :=
  (forall i x, fs !! i = Some x -> file_wf sb D x) /\
  (forall i j x y b, fs !! i = Some x -> fs !! j = Some y -> i <> j -> owns D x b -> ~ owns D y b).

(** A file none of whose blocks changed. *)
Section Apart.
Context (sb : superblock) (ls : Z * Z) (D D' : Z -> list Z) (y : inode).
Hypothesis Lay : fs_layout sb ls D.
Hypothesis W : file_wf sb D y.
Hypothesis Hsame : forall b, owns D y b -> is_data sb D b -> D' b = D b /\ used sb D' b = true.

Lemma apart_same b : owns D y b -> D' b = D b /\ is_data sb D' b.
Proof using All. intros Ho. pose proof (owns_data _ _ _ W b Ho) as Hd. destruct (Hsame b Ho Hd). split; [done|]. split; [apply Hd|done]. Qed.
Lemma apart_blocks i : fblock D' y i = fblock D y i.
Proof using All. apply fblock_ext; [done|]. intros Hn. apply apart_same. split; [done|by left]. Qed.
Lemma apart_owns b : owns D' y b <-> owns D y b.
Proof using All. unfold owns. by setoid_rewrite apart_blocks. Qed.
Lemma apart_wf : file_wf sb D' y.
Proof using All.
  destruct (W) as [W1 W2 W3 W4 W5 W6 W7]. split; try done.
  - intros i Hi. rewrite apart_blocks. intros Hn. apply apart_same. split; [done|right; by exists i].
  - intros Hn. apply apart_same. split; [done|by left].
  - intros i j. rewrite !apart_blocks. auto.
  - intros i. rewrite apart_blocks. auto.
  - intros i. rewrite apart_blocks. auto.
Qed.
Lemma apart_byte j : 0 <= j < i_size y -> fbyte D' y j = fbyte D y j.
Proof using All.
  intros Hj. unfold fbyte. rewrite apart_blocks. f_equal. f_equal. apply apart_same. pose proof (fw_size _ _ _ W).
  change (MAXFILE * BSIZE) with 274432 in *. split.
  - apply (fw_full _ _ _ W); change BSIZE with 1024; Z.div_mod_to_equations; lia.
  - right. exists (j / BSIZE). split; [|done]. change MAXFILE with 268. change BSIZE with 1024. Z.div_mod_to_equations; lia.
Qed.
End Apart.

(** One file changed and the others did not. *)
Lemma files_update sb ls D D' fs k x x' :
  fs_layout sb ls D -> files_wf sb D fs -> fs !! k = Some x -> file_wf sb D' x' ->
  (forall i y, i <> k -> fs !! i = Some y -> forall b, owns D y b -> is_data sb D b -> D' b = D b /\ used sb D' b = true) ->
  (forall b, owns D' x' b -> owns D x b \/ 0 <= b < s_size sb /\ used sb D b = false) ->
  files_wf sb D' (<[k := x']> fs).
Proof.
  intros Lay [Hw Hd] Hk W' Hs Hn.
  assert (forall i y b, i <> k -> fs !! i = Some y -> owns D' x' b -> owns D' y b -> False) as Hx.
  { intros i y b Hi Hy Ho Hoy. assert (owns D y b) as Ho1 by (eapply (apart_owns sb ls D D'); eauto).
    destruct (Hn b Ho) as [Ho2|[_ Hu]]; [by eapply (Hd i k)|]. destruct (owns_data _ _ _ (Hw i y Hy) b Ho1). congruence. }
  split.
  - intros i y [(-> & <- & _)|[Hi Hy]]%list_lookup_insert_Some; [done|]. eapply (apart_wf sb ls D); eauto.
  - intros i j y z b [(-> & <- & _)|[Hi Hy]]%list_lookup_insert_Some [(-> & <- & _)|[Hj Hz]]%list_lookup_insert_Some Hij Ho Ho'; try done; eauto.
    apply (Hd i j y z b); try done; eapply (apart_owns sb ls D D'); eauto.
Qed.
