(* ===== verification/FileRead.v ===== *)
(** * Reading files (kernel/fs.c)

    [bmap] on a block that is there, and [readi] into kernel memory, over the
    contract of the buffer cache: no transaction is needed. *)

From S2P Require Import Prelude CInt Memory KMonad Riscv KState KString Blocks Spinlock Sched KAlloc Bio Log Fs.
From S2P Require Import LockProof BioList BioInv BioProof LogSpec LogProof LogThm FsProof FileInv.

(** ** The blocks that a copy touches

    [readi] and [writei] handle one block in each iteration: the variables are
    the bytes done, the offset in the file and the address. *)

Section Chunks.
Context (off0 n : Z).
Hypothesis Hoff : 0 <= off0 /\ 0 <= n.

(** The blocks that are left. *)
Definition rmu (y : Z * Z * Z) : nat :=
  if y.1.1 <? n then Z.to_nat ((off0 + n - 1) / BSIZE - y.1.2 / BSIZE + 1) else 0.

Lemma rmu_less (tot dst : Z) : 0 <= tot <= n -> tot < n ->
  let off := off0 + tot in let m := Z.min (n - tot) (BSIZE - off mod BSIZE) in
  (rmu ((tot + m)%Z, (off + m)%Z, (dst + m)%Z) < rmu (tot, off, dst))%nat.
Proof using Hoff.
  intros Ht Hlt off m. unfold rmu. cbn [fst snd]. rewrite (proj2 (Z.ltb_lt tot n)) by done.
  assert (0 < m) by (unfold m; pose proof (Z.mod_pos_bound off BSIZE ltac:(done)); lia).
  subst m off. change BSIZE with 1024 in *. destruct (Z.ltb_spec (tot + Z.min (n - tot) (1024 - (off0 + tot) mod 1024)) n);
    Z.div_mod_to_equations; lia.
Qed.

Lemma rmu_fuel (dst : Z) : (rmu (0%Z, off0, dst) < blocks_fuel n)%nat.
Proof using Hoff.
  unfold rmu, blocks_fuel. cbn [fst snd]. change BSIZE with 1024. destruct (Z.ltb_spec 0 n); Z.div_mod_to_equations; lia.
Qed.

End Chunks.

Section Idle.
Context `{DL : DiskLaws} (dv : Z) (Hrounds : (0 < rounds)%nat).
Notation cached := (cached dv).

(** The thread holds no block, a buffer is free, and the disk has the blocks of
    the file system. *)
Definition idle (s : kst) (a : cache) : Prop :=
  cached s a /\ (forall bn, can_get bn a) /\ fs_on_disk (sb (k_fs s)).

Lemma in_op_idle s a hb : in_op dv ∅ s a hb -> idle s a.
Proof using Hrounds.
  intros [C L _ _ P Dk]. split_and!; [done| |done]. intros bn. assert (bn ∉ (∅ : gset Z)) as Hx by set_solver. split.
  - by rewrite (px_held _ _ _ P).
  - intros _. by apply (pinx_size ∅ hb a (li_nodup _ _ _ L)).
  - unfold refs. destruct (c_use a !! bn) as [[b r]|] eqn:Eu; cbn; [|lia]. rewrite (px_one _ _ _ P _ _ _ Hx Eu). lia.
Qed.
Lemma in_op_outside s s' a hb : in_op dv ∅ s a hb -> cached s' a -> outside s s' -> in_op dv ∅ s' a hb.
Proof using.
  intros [C L Ho Hs P Dk] C' O. split; rewrite ?(outside_log _ _ O), ?(same_fs_sb _ _ (outside_fs _ _ O)); done.
Qed.

(** Block [bn] is read into buffer [b] and locked. *)
Record holding (s : kst) (a : cache) (bn : Z) (b : nat) : Prop := Holding {
  ho_cached : cached s (grab bn b a);
  ho_same b0 r0 : c_use a !! bn = Some (b0, r0) -> b = b0 /\ 0 < r0;
  ho_clean : c_use a !! bn = None -> c_data a bn = c_medium a bn;
  ho_held : bn ∉ c_held a
}.

Lemma idle_bread s a bn : cached s a -> can_get bn a -> disk_has bn ->
  exists b s', bread dv bn s = Ok (b, s') /\ holding s' a bn b /\ outside s s'.
Proof using Hrounds.
  intros C G Hd. destruct (bread_ok dv Hrounds s a bn C G Hd) as (b & s' & E & C' & O & Hb). exists b, s'. split_and!; try done.
  split; try done; [|apply C|apply G]. intros b0 r0 Hu. split; [by apply (Hb b0 r0)|].
  destruct (use_buf _ _ _ _ _ _ _ C Hu) as (bf & _ & _ & _ & _ & _ & ?). lia.
Qed.

Section Holding.
Context (s : kst) (a : cache) (bn : Z) (b : nat).
Hypothesis R : holding s a bn b.

Lemma ho_use : c_use (grab bn b a) !! bn = Some (b, refs a bn + 1).
Proof using. apply lookup_insert_eq. Qed.
Lemma ho_buf : (b < NBUF)%nat /\ bufs_backed (k_mem s).
Proof using R.
  split; [|apply (ho_cached _ _ _ _ R)].
  by destruct (use_buf _ _ _ _ _ _ _ (ho_cached _ _ _ _ R) ho_use) as (bf & ? & _).
Qed.
Lemma ho_block : block_at (k_mem s) b = c_data a bn.
Proof using Hrounds R. apply (use_data dv Hrounds s (grab bn b a) bn b _ (ho_cached _ _ _ _ R) ho_use). Qed.

Lemma idle_brelse : exists s', brelse b s = Ok (tt, s') /\ cached s' a /\ outside s s'.
Proof using Hrounds R.
  destruct R as [C Hs Hc Hh].
  assert ((refs a bn = 0 /\ c_use a !! bn = None) \/ exists r, 0 < r /\ refs a bn = r /\ c_use a !! bn = Some (b, r)) as Hr.
  { unfold refs. destruct (c_use a !! bn) as [[b0 r0]|] eqn:E; [right|by left]. destruct (Hs b0 r0 eq_refl) as [<- ?]. by exists r0. }
  destruct (brelse_ok dv Hrounds s _ bn b _ C ho_use) as (s' & E & C' & O); [cbn; set_solver| |].
  { intros Hr1. cbn. apply Hc. destruct Hr as [[_ ?]|(r & ? & ? & _)]; [done|lia]. }
  exists s'. split_and!; [done| |done]. apply (cached_ext _ _ _ _ C'); try done; cbn [c_use c_held with_refs grab]; [|set_solver].
  replace (refs a bn + 1 - 1) with (refs a bn) by lia. destruct Hr as [[-> Eu]|(r & Hp & -> & Eu)].
  - rewrite decide_True by done. by rewrite delete_insert_id.
  - rewrite decide_False by lia. by rewrite insert_insert_eq, insert_id.
Qed.
End Holding.

(** ** Kernel memory *)

(** Addresses that neither the buffers nor the disk driver use. *)
Definition plain (lo n : Z) : Prop := forall x, lo <= x < lo + n -> ~ in_bufs x /\ ~ darea x.

Lemma cached_mem s a P m :
  cached s a -> same_off P (k_mem s) m -> (forall x, P x -> ~ in_bufs x /\ ~ darea x) -> cached (s <| k_mem := m |>) a.
Proof using.
  intros [Q R Co V D F Cl He L B M T Dk] So HP. split; try done.
  - by apply (quiet_ext s).
  - intros b c Hb Hc Hd Hv. rewrite <- (D b c Hb Hc Hd Hv). apply (block_at_same P); [done|].
    intros x Hx [Hn _]%HP. apply Hn. by exists b.
  - destruct So as (E1 & E2 & _). unfold bufs_backed in *. cbn. by rewrite E1, E2.
  - apply (disk_ok_ext s); [done..|]. cbn. apply (same_off_weaken _ _ _ _ So). intros x [_ Hn]%HP. done.
Qed.

Lemma cached_curproc s a : cached s a -> exists p, curproc s = Ok (p, s).
Proof using All.
  intros C. destruct (q_me _ (ca_quiet _ _ _ _ C)) as (p & pr & Hm & _). exists p.
  apply (curproc_ok 1); [lia|apply (cached_cpu _ _ _ _ _ C); lia|done].
Qed.

(** Copies inside the kernel. *)
Lemma copyout_kernel s a dst src n m :
  cached s a -> memmove dst src n (k_mem s) = Ok (dst, m) -> either_copyout false dst src n s = Ok (0, s <| k_mem := m |>).
Proof using All.
  intros C E. destruct (cached_curproc s a C) as [p Ep]. unfold either_copyout. rewrite (bind_ok _ _ _ _ _ Ep).
  by rewrite (bind_ok _ _ _ _ _ (onram_ok _ _ _ _ E)).
Qed.
Lemma copyin_kernel s a dst src n m :
  cached s a -> memmove dst src n (k_mem s) = Ok (dst, m) -> either_copyin dst false src n s = Ok (0, s <| k_mem := m |>).
Proof using All.
  intros C E. destruct (cached_curproc s a C) as [p Ep]. unfold either_copyin. rewrite (bind_ok _ _ _ _ _ Ep).
  by rewrite (bind_ok _ _ _ _ _ (onram_ok _ _ _ _ E)).
Qed.

(** ** Finding a block that is there *)

Lemma getinode_eq s ip x : itable (k_fs s) !! ip = Some x -> getinode ip s = Ok (x, s).
Proof using. intros E. unfold getinode, bind, gets. by rewrite E. Qed.
Lemma iaddr_eq s ip x i : itable (k_fs s) !! ip = Some x -> iaddr ip i s = Ok (addr x i, s).
Proof using. intros E. unfold iaddr. by rewrite (bind_ok _ _ _ _ _ (getinode_eq _ _ _ E)). Qed.

(** An entry of the indirect block. *)
Lemma ld32_entry m b i : bufs_backed m -> (b < NBUF)%nat -> NDIRECT <= i < MAXFILE ->
  ld32 (buf_data b + 4 * (i - NDIRECT)) m = Ok (get_le 4 (block_at m b) (Z.to_nat (4 * (i - NDIRECT))), m).
Proof using All.
  intros (B1 & B2 & B3) Hb Hi. destruct (B3 b Hb). change MAXFILE with 268 in Hi. unfold NDIRECT in *.
  unfold block_at. rewrite get_le_rdbytes by (unfold bsize, BSIZE in *; lia). rewrite Z2Nat.id by lia.
  apply ld32_ok, backed_true; unfold BSIZE in *; lia.
Qed.

Lemma bmap_there s a ip x i :
  cached s a -> (forall bn, can_get bn a) -> (ind x <> 0 -> disk_has (ind x)) ->
  itable (k_fs s) !! ip = Some x -> i_dev x = dv -> 0 <= i < MAXFILE -> fblock (c_data a) x i <> 0 ->
  exists s', bmap ip i s = Ok (fblock (c_data a) x i, s') /\ cached s' a /\ outside s s'.
Proof using Hrounds.
  intros C G Hind Ex Ed Hi Hne. unfold bmap. rewrite (bind_ok _ _ _ _ _ (getinode_eq _ _ _ Ex)). unfold fblock in *.
  destruct (Z.ltb_spec i NDIRECT) as [Hl|Hl].
  - rewrite (bind_ok _ _ _ _ _ (iaddr_eq _ _ _ _ Ex)). case_cmp. exists s. split_and!; [done|apply C|apply outside_refl].
  - rewrite (proj2 (Z.ltb_lt (i - NDIRECT) NINDIRECT)) by (unfold MAXFILE in *; lia).
    rewrite (bind_ok _ _ _ _ _ (iaddr_eq _ _ _ _ Ex)). fold (ind x) in *. destruct (Z.eqb_spec (ind x) 0) as [|Hn]; [done|].
    rewrite bind_ret. destruct (Z.eqb_spec (ind x) 0) as [|_]; [done|]. rewrite Ed.
    destruct (idle_bread s a (ind x) C (G _) (Hind Hn)) as (b & s1 & E1 & R1 & O1). rewrite (bind_ok _ _ _ _ _ E1).
    destruct (ho_buf _ _ _ _ R1) as [Hb Hk].
    rewrite (bind_ok _ _ _ _ _ (onram_read _ _ _ (ld32_entry _ _ i Hk Hb ltac:(lia)))), (ho_block _ _ _ _ R1).
    rewrite (proj2 (Z.eqb_neq _ _) Hne), bind_ret.
    destruct (idle_brelse _ _ _ _ R1) as (s2 & E2 & C2 & O2). rewrite (bind_ok _ _ _ _ _ E2).
    exists s2. split_and!; [done..|by eapply outside_trans].
Qed.

(** ** Reading *)

(** What a read leaves alone: everything but the buffers and the destination. *)
Record unread (dst n : Z) (s t : kst) : Prop := Unread {
  ur_fs : set bufs (fun _ => []) (k_fs t) = set bufs (fun _ => []) (k_fs s);
  ur_mem : same_off (fun y => in_bufs y \/ darea y \/ dst <= y < dst + n) (k_mem s) (k_mem t)
}.
Lemma unread_outside dst n s t u : unread dst n s t -> outside t u -> unread dst n s u.
Proof using.
  intros [F M] O. split; [by rewrite (o_fs _ _ O)|]. eapply same_off_trans; [exact M|exact (o_mem _ _ O)|]. tauto.
Qed.

Section Readi.
Context (s : kst) (a : cache) (ip : nat) (x : inode) (dst0 off0 n : Z).
Hypothesis Id : forall bn, can_get bn a.
Hypothesis Ex : itable (k_fs s) !! ip = Some x.
Hypothesis Ed : i_dev x = dv.
Notation D := (c_data a).
Hypothesis Hdisk : (ind x <> 0 -> disk_has (ind x)) /\
  forall i, 0 <= i < MAXFILE -> fblock D x i <> 0 -> disk_has (fblock D x i).
Hypothesis Hfull : forall i, 0 <= i -> i * BSIZE < i_size x -> fblock D x i <> 0.
Hypothesis Hoff : 0 <= off0 /\ 0 <= n /\ off0 + n <= i_size x <= MAXFILE * BSIZE.
Hypothesis Hdst : plain dst0 n.
Hypothesis Hback : ram_lo (k_mem s) <= dst0 /\ dst0 + n <= ram_hi (k_mem s).

Record rinv (y : Z * Z * Z) (t : kst) : Prop := RInv {
  ri_tot : 0 <= y.1.1 <= n;
  ri_off : y.1.2 = off0 + y.1.1;
  ri_dst : y.2 = dst0 + y.1.1;
  ri_cached : cached t a;
  ri_frame : unread dst0 n s t;
  ri_bytes k : 0 <= k < y.1.1 -> byte_at (k_mem t) (dst0 + k) = fbyte D x (off0 + k)
}.

Lemma unread_inode t : unread dst0 n s t -> itable (k_fs t) !! ip = Some x.
Proof using Ex. intros [F _]. apply (f_equal itable) in F. cbn in F. by rewrite F. Qed.

(** Copying bytes out of a locked buffer. *)
Lemma copy_chunk t b bn dst off m :
  holding t a bn b -> 0 <= off -> 0 <= m -> off mod BSIZE + m <= BSIZE -> ram_lo (k_mem t) <= dst -> dst + m <= ram_hi (k_mem t) ->
  exists m', memmove dst (buf_data b + off mod BSIZE) m (k_mem t) = Ok (dst, m') /\
    same_off (fun y => dst <= y < dst + m) (k_mem t) m' /\
    forall k, 0 <= k < m -> byte_at m' (dst + k) = default 0 (D bn !! Z.to_nat (off mod BSIZE + k)).
Proof using All.
  intros R H1 H2 H3 H4 H5. destruct (ho_buf _ _ _ _ R) as [Hb (B1 & B2 & B3)]. destruct (B3 b Hb).
  pose proof (Z.mod_pos_bound off BSIZE ltac:(done)).
  destruct (memmove_spec dst (buf_data b + off mod BSIZE) m (k_mem t)) as (m' & E & So & Hc); [unfold BSIZE in *; lia..|].
  exists m'. split_and!; [done..|]. intros k Hk. rewrite Hc by done. rewrite <- (ho_block _ _ _ _ R). unfold block_at.
  rewrite rdbytes_lookup by (unfold bsize in *; lia). cbn. f_equal. lia.
Qed.

(** The body of the loop of [readi]. *)
Definition readi_body (y : Z * Z * Z) : K (Z * Z * Z + Z) :=
  let '(tot, off, dst) := y in
  if tot <? n then
    addr <- bmap ip (off / BSIZE) ;;
    if addr =? 0 then ret (inr tot)
    else
      i <- getinode ip ;;
      bp <- bread (i_dev i) addr ;;
      let m := Z.min (u32 (n - tot)) (BSIZE - off mod BSIZE) in
      r <- either_copyout false dst (buf_data bp + off mod BSIZE) m ;;
      if r =? -1 then
        brelse bp ;;;
        ret (inr (u32 (-1)))
      else
        brelse bp ;;;
        ret (inl (u32 (tot + m), u32 (off + m), u64 (dst + m)))
  else ret (inr tot).

(** Copying the bytes [tot] to [tot + m] out of the locked buffer. *)
Lemma readi_copy t b tot m :
  let off := off0 + tot in
  holding t a (fblock D x (off / BSIZE)) b -> unread dst0 n s t -> 0 <= tot -> 0 <= m -> tot + m <= n -> off mod BSIZE + m <= BSIZE ->
  (forall k, 0 <= k < tot -> byte_at (k_mem t) (dst0 + k) = fbyte D x (off0 + k)) ->
  exists t1 t2, either_copyout false (dst0 + tot) (buf_data b + off mod BSIZE) m t = Ok (0, t1) /\ brelse b t1 = Ok (tt, t2) /\
    cached t2 a /\ unread dst0 n s t2 /\
    (forall k, 0 <= k < tot + m -> byte_at (k_mem t2) (dst0 + k) = fbyte D x (off0 + k)).
Proof using All.
  intros off R F Ht Hm Hn Hb Hby. destruct (ur_mem _ _ _ _ F) as (Hlo & Hhi & _).
  destruct (copy_chunk t b (fblock D x (off / BSIZE)) (dst0 + tot) off m R) as (m' & E & So & Hc); [lia..|].
  set (t1 := t <| k_mem := m' |>). assert (cached t1 (grab (fblock D x (off / BSIZE)) b a)) as C1.
  { apply (cached_mem t _ _ m' (ho_cached _ _ _ _ R) So). intros y Hy. apply Hdst. lia. }
  assert (holding t1 a (fblock D x (off / BSIZE)) b) as R1 by (destruct R; by split).
  destruct (idle_brelse _ _ _ _ R1) as (t2 & E2 & C2 & O2). exists t1, t2.
  assert (unread dst0 n s t1) as F1.
  { split; [apply F|]. eapply same_off_trans; [apply (ur_mem _ _ _ _ F)|exact So|]. intros y [?|?]; [done|right; right; lia]. }
  split_and!; [by apply (copyout_kernel t _ _ _ _ _ (ho_cached _ _ _ _ R))|done|done|by eapply unread_outside|].
  intros k Hk. destruct (o_mem _ _ O2) as (_ & _ & Hsame).
  rewrite Hsame by (pose proof (Hdst (dst0 + k) ltac:(lia)); tauto). cbn.
  destruct (decide (k < tot)) as [Hlt|Hge].
  - rewrite <- Hby by lia. apply So. lia.
  - replace (dst0 + k) with (dst0 + tot + (k - tot)) by lia. rewrite Hc by lia.
    replace (off0 + k) with (off + (k - tot)) by (unfold off; lia). rewrite fbyte_at by lia. done.
Qed.

Lemma readi_step y t : rinv y t -> exists r t', readi_body y t = Ok (r, t') /\
  match r with inl y' => rinv y' t' /\ (rmu off0 n y' < rmu off0 n y)%nat | inr tot => tot = n /\ rinv (n, off0 + n, dst0 + n) t' end.
Proof using All.
  destruct y as [[tot off] dst]. intros [Ht Ho Hd C F Hby]. cbn [fst snd] in *. subst off dst. unfold readi_body.
  destruct (Z.ltb_spec tot n) as [Hlt|Hge]; cycle 1.
  { assert (tot = n) as -> by lia. exists (inr n), t. split_and!; try done. }
  change (MAXFILE * BSIZE) with 274432 in *. set (off := off0 + tot) in *. set (i := off / BSIZE).
  pose proof (Z.mod_pos_bound off BSIZE ltac:(done)) as Hm. pose proof (Z.div_mod off BSIZE ltac:(done)) as Hdm. fold i in Hdm.
  assert (0 <= i < MAXFILE /\ i * BSIZE < i_size x) as [Hi His] by (change MAXFILE with 268; unfold BSIZE in *; lia).
  pose proof (Hfull i ltac:(lia) His) as Hne.
  destruct (bmap_there t a ip x i C Id (proj1 Hdisk) (unread_inode t F) Ed Hi Hne) as (t1 & E1 & C1 & O1).
  rewrite (bind_ok _ _ _ _ _ E1), (proj2 (Z.eqb_neq _ _) Hne). pose proof (unread_outside _ _ _ _ _ F O1) as F1.
  rewrite (bind_ok _ _ _ _ _ (getinode_eq _ _ _ (unread_inode t1 F1))), Ed.
  destruct (idle_bread t1 a (fblock D x i) C1 (Id _) (proj2 Hdisk i Hi Hne)) as (b & t2 & E2 & R2 & O2). rewrite (bind_ok _ _ _ _ _ E2).
  pose proof (unread_outside _ _ _ _ _ F1 O2) as F2. rewrite (u32_id (n - tot)) by lia. cbv zeta.
  set (m := Z.min (n - tot) (BSIZE - off mod BSIZE)).
  destruct (readi_copy t2 b tot m) as (t3 & t4 & E3 & E4 & C4 & F4 & B4); try done; try (unfold m; fold off; lia).
  { intros k Hk. rewrite <- Hby by done. destruct (o_mem _ _ O2) as (_ & _ & H2). destruct (o_mem _ _ O1) as (_ & _ & H1).
    pose proof (Hdst (dst0 + k) ltac:(lia)). rewrite H2, H1 by tauto. done. }
  rewrite (bind_ok _ _ _ _ _ E3). cbn [Z.eqb]. rewrite (bind_ok _ _ _ _ _ E4).
  destruct (ur_mem _ _ _ _ F) as (Hlo & Hhi & _). destruct (ca_backed _ _ _ _ C) as (B1 & B2 & _).
  pose proof (rmu_less off0 n ltac:(lia) tot (dst0 + tot) Ht Hlt) as Hmu. fold off m in Hmu. assert (off = off0 + tot) as Eoff by done.
  assert (0 < m <= n - tot) as Hm0 by (unfold m; lia). rewrite !u32_id, u64_id by lia.
  eexists (inl _), t4. split; [reflexivity|]. split; [split; cbn [fst snd]; try done; lia|].
  exact Hmu.
Qed.

Lemma readi_loop : cached s a -> exists s', loop (blocks_fuel n) readi_body (0, off0, dst0) s = Ok (n, s') /\
  cached s' a /\ unread dst0 n s s' /\ forall k, 0 <= k < n -> byte_at (k_mem s') (dst0 + k) = fbyte D x (off0 + k).
Proof using All.
  intros C. destruct (loop_total rinv (fun y _ => rmu off0 n y) (fun tot t => tot = n /\ rinv (n, off0 + n, dst0 + n) t)
    readi_body (blocks_fuel n) (0, off0, dst0) s) as (tot & s' & E & -> & I).
  - apply readi_step.
  - split; cbn [fst snd]; try lia; [done|]. split; [done|apply same_off_refl].
  - apply rmu_fuel. lia.
  - exists s'. split_and!; try done; apply I.
Qed.
End Readi.

(** The number of bytes that a read of [n] bytes at [off] returns. *)
Definition read_count (size off n : Z) : Z :=
  if (size <? off) || (2 ^ 32 <=? off + n) then 0 else Z.min n (size - off).

Lemma readi_ok s a ip x dst off n :
  idle s a -> itable (k_fs s) !! ip = Some x -> i_dev x = dv -> file_wf (sb (k_fs s)) (c_data a) x ->
  0 <= off < 2 ^ 32 -> 0 <= n < 2 ^ 32 -> let c := read_count (i_size x) off n in
  plain dst c -> ram_lo (k_mem s) <= dst /\ dst + c <= ram_hi (k_mem s) ->
  exists s', readi ip false dst off n s = Ok (c, s') /\ cached s' a /\ unread dst c s s' /\
    forall k, 0 <= k < c -> byte_at (k_mem s') (dst + k) = fbyte (c_data a) x (off + k).
Proof using Hrounds.
  intros (C & G & Dk) Ex Ed W Ho Hn c Hp Hb. unfold readi. rewrite (bind_ok _ _ _ _ _ (getinode_eq _ _ _ Ex)).
  destruct (fw_size _ _ _ W) as [Hs0 Hs]. unfold c, read_count in *. change (MAXFILE * BSIZE) with 274432 in Hs.
  destruct (Z.ltb_spec (i_size x) off) as [H1|H1]; cbn [orb].
  { exists s. split_and!; [done|done|split; [done|apply same_off_refl]|intros; lia]. }
  destruct (Z.leb_spec (2 ^ 32) (off + n)) as [H2|H2].
  { assert (u32 (off + n) < off) as H3.
    { unfold u32. replace ((off + n) mod 2 ^ 32) with (off + n - 2 ^ 32) by (Z.div_mod_to_equations; lia). lia. }
    rewrite (proj2 (Z.ltb_lt _ _) H3). exists s. split_and!; [done|done|split; [done|apply same_off_refl]|intros; lia]. }
  cbn [orb] in *. rewrite (u32_id (off + n)) by lia. rewrite (proj2 (Z.ltb_ge (off + n) off)) by lia.
  set (n' := Z.min n (i_size x - off)) in *.
  assert ((if i_size x <? off + n then u32 (i_size x - off) else n) = n') as ->.
  { unfold n'. case_cmp; rewrite ?u32_id by lia; lia. }
  destruct (readi_loop s a ip x dst off n' G Ex Ed) as (s' & E & C' & F & B); try done.
  { split; intros; eapply is_data_disk; try done; by apply W. }
  { apply W. }
  { change (MAXFILE * BSIZE) with 274432. lia. }
  change (loop (blocks_fuel n') _ (0, off, dst)) with (loop (blocks_fuel n') (readi_body ip n') (0, off, dst)).
  rewrite (bind_ok _ _ _ _ _ E). exists s'. split_and!; try done. unfold ret. rewrite i32_id by lia. done.
Qed.
End Idle.
