(* ===== verification/FileWrite.v ===== *)
(** * Writing files (kernel/fs.c)

    [bmap] when it adds blocks and one turn of the loop of [writei] from kernel
    memory, inside a transaction. *)

From S2P Require Import Prelude CInt Memory KMonad Riscv KState KString Blocks Spinlock Sched KAlloc Bio Log Fs.
From S2P Require Import LockProof BioList BioInv BioProof LogSpec LogProof LogThm FsProof FileInv FileRead.

Definition sino `{Device} (f : list inode -> list inode) (s : kst) : kst := set k_fs (set itable f) s.

Section Frame.
Context `{DL : DiskLaws} (dv : Z).

Lemma cached_sino s a f : cached dv s a -> cached dv (sino f s) a.
Proof.
  intros [Q R Co V D F Cl He L B M T Dk]. split; try done.
  - by apply (quiet_ext s).
  - apply (disk_ok_ext s); [done..|apply same_off_refl].
Qed.
Lemma in_op_sino X s a hb f : in_op dv X s a hb -> in_op dv X (sino f s) a hb.
Proof. intros [C L Ho Hs P Dk]. split; try done. by apply cached_sino. Qed.
Lemma outside_sino s s' f : outside s s' -> outside (sino f s) (sino f s').
Proof.
  intros O. destruct (O) as [? ? ? ? E ? ? ?]. split; try done.
  cbn. unfold set in *. cbn in *. injection E as -> -> -> ->. done.
Qed.

(** What operations on one inode leave alone: everything but the buffers, the
    logged blocks and the inode table. *)
Definition wframe (s s' : kst) : Prop :=
  log_frame (logst (k_fs s')) = log_frame (logst (k_fs s)) /\
  outside s (slog (fun _ => logst (k_fs s)) (sino (fun _ => itable (k_fs s)) s')).

Lemma wframe_refl s : wframe s s.
Proof. split; [done|]. by split. Qed.
Lemma wframe_trans s s' s'' : wframe s s' -> wframe s' s'' -> wframe s s''.
Proof.
  intros [F1 O1] [F2 O2]. split; [congruence|]. eapply outside_trans; [exact O1|].
  exact (outside_slog _ _ (fun _ => logst (k_fs s)) (outside_sino _ _ (fun _ => itable (k_fs s)) O2)).
Qed.
Lemma same_fs_wframe s s' : same_fs s s' -> wframe s s'.
Proof. intros F. pose proof (same_fs_itable _ _ F) as E. destruct F as [F O]. split; [done|]. rewrite <- E. exact O. Qed.
Lemma wframe_sino s s' f : wframe s s' -> wframe s (sino f s').
Proof. intros [F O]. done. Qed.
Lemma wframe_sb s s' : wframe s s' -> sb (k_fs s') = sb (k_fs s).
Proof. intros [_ O]. exact (f_equal sb (o_fs _ _ O)). Qed.
Lemma wframe_log s s' : wframe s s' -> log_area (logst (k_fs s')) = log_area (logst (k_fs s)).
Proof. intros [E _]. unfold log_area. by injection E as -> -> _ _ _. Qed.
Lemma wframe_mem s s' : wframe s s' -> same_off (fun x => in_bufs x \/ darea x) (k_mem s) (k_mem s').
Proof. intros [_ O]. exact (o_mem _ _ O). Qed.
End Frame.
#[export] Hint Resolve wframe_refl wframe_trans same_fs_wframe wframe_sino : kernel.

(** ** Allocating for a file *)

Section Alloc.
Context `{DL : DiskLaws} (dv : Z) (Hrounds : (0 < rounds)%nat).
Notation cached := (cached dv).
Notation larea s := (log_area (logst (k_fs s))).

Lemma alloc_block X s a hb k :
  in_op dv X s a hb -> fs_layout (sb (k_fs s)) (larea s) (c_data a) -> free_atleast (sb (k_fs s)) (c_data a) (S k) ->
  (forall b, b ∈ X -> is_data (sb (k_fs s)) (c_data a) b) -> (S (S (length hb)) + size X < NBUF)%nat ->
  exists b0 s' c1 c2, let bm := bmap_block (sb (k_fs s)) b0 in
    balloc dv s = Ok (b0, s') /\ 0 <= b0 < s_size (sb (k_fs s)) /\ used (sb (k_fs s)) (c_data a) b0 = false /\
    in_op dv X s' (wrote b0 c2 (replicate bsize 0) (wrote bm c1 (set_bit (sb (k_fs s)) (c_data a) b0) a)) (logged b0 (logged bm hb)) /\
    same_fs s s'.
Proof using Hrounds.
  intros I Lay Hf HX Hlen. destruct (first_free _ _ _ Hf) as (b0 & Hb0 & Hu & Hfirst).
  assert (forall b, 0 <= b < s_size (sb (k_fs s)) -> bmap_block (sb (k_fs s)) b ∉ X) as HXm.
  { intros b Hb Hin. by apply (is_data_bmap _ _ _ _ b Lay (HX _ Hin)). }
  destruct (balloc_ok dv Hrounds X s a hb b0 I (HXm b0 Hb0) Lay Hb0 ltac:(lia)) as (s' & c1 & c2 & E & I' & F); try done.
  - intros Hin. destruct (HX _ Hin). congruence.
  - intros b Hb. apply HXm. lia.
  - by exists b0, s', c1, c2.
Qed.

(** Two more blocks in a transaction. *)
Lemma length_logged y l : (length (logged y l) <= S (length l))%nat.
Proof using All. unfold logged. case_decide; [lia|]. rewrite length_app. cbn. lia. Qed.

(** ** A file inside a transaction *)

(** The inode [ip] is [x], its file and the disk's layout are good. *)
Record file_in (s : kst) (a : cache) (hb : list Z) (ip : nat) (x : inode) : Prop := FileIn {
  fi_op : in_op dv ∅ s a hb;
  fi_inode : itable (k_fs s) !! ip = Some x;
  fi_dev : i_dev x = dv;
  fi_layout : fs_layout (sb (k_fs s)) (larea s) (c_data a);
  fi_wf : file_wf (sb (k_fs s)) (c_data a) x
}.

(** The blocks an operation on the indices [J] of the file may log: those of
    the bitmap, the indirect block and the blocks of these indices. *)
Context (J : Z -> Prop).
Definition wanted (D : Z -> list Z) (x : inode) (b : Z) : Prop :=
  b <> 0 /\ (b = ind x \/ exists i, J i /\ 0 <= i < MAXFILE /\ fblock D x i = b).
Definition logs (sb0 : superblock) (D : Z -> list Z) (x : inode) (hb hb' : list Z) : Prop :=
  forall b, b ∈ hb' -> b ∈ hb \/ (exists b', 0 <= b' < s_size sb0 /\ b = bmap_block sb0 b') \/ wanted D x b.

Lemma wanted_step sb0 ls D x D' x' b : fstep sb0 ls D x D' x' -> wanted D x b -> wanted D' x' b.
Proof using.
  intros St [Hn [->|(i & Hj & Hi & <-)]]; (split; [done|]).
  - left. symmetry. by apply (st_ind _ _ _ _ _ _ St).
  - right. exists i. split_and!; [done|apply Hi|apply Hi|]. by apply (st_old _ _ _ _ _ _ St).
Qed.
Lemma logs_trans sb0 ls D1 x1 D2 x2 hb hb1 hb2 : fstep sb0 ls D1 x1 D2 x2 -> logs sb0 D1 x1 hb hb1 -> logs sb0 D2 x2 hb1 hb2 -> logs sb0 D2 x2 hb hb2.
Proof using.
  intros St L1 L2 b Hb. destruct (L2 b Hb) as [Hb1|?]; [|by right]. destruct (L1 b Hb1) as [?|[?|?]]; auto. right. right. by eapply wanted_step.
Qed.
Lemma logs_logged sb0 D x hb hb' b :
  logs sb0 D x hb hb' -> (exists b', 0 <= b' < s_size sb0 /\ b = bmap_block sb0 b') \/ wanted D x b -> logs sb0 D x hb (logged b hb').
Proof using.
  intros L Hb y. unfold logged. case_decide; [apply L|]. intros [Hy|Hy]%elem_of_app; [by apply L|]. apply list_elem_of_singleton in Hy as ->. by right.
Qed.
Lemma logs_refl sb0 D x hb : logs sb0 D x hb hb.
Proof using. intros b Hb. by left. Qed.

(** The effect of an operation on this file: [k] blocks were free, at most
    [n] blocks are new in the transaction, nothing reached the disk. *)
Record file_to (s : kst) (a : cache) (hb : list Z) (ip : nat) (x : inode) (s' : kst) (a' : cache) (hb' : list Z) (x' : inode)
  (k n : nat) : Prop := FileTo {
  ft_in : file_in s' a' hb' ip x';
  ft_itable : itable (k_fs s') = <[ip := x']> (itable (k_fs s));
  ft_step : fstep (sb (k_fs s)) (larea s) (c_data a) x (c_data a') x';
  ft_frame : wframe s s';
  ft_len : (length hb' <= length hb + n)%nat;
  ft_log : logs (sb (k_fs s)) (c_data a') x' hb hb';
  ft_free j : free_atleast (sb (k_fs s)) (c_data a) (k + j) -> free_atleast (sb (k_fs s)) (c_data a') j;
  ft_disk : c_medium a' = c_medium a /\ c_trace a' = c_trace a
}.

Lemma file_to_refl s a hb ip x : file_in s a hb ip x -> file_to s a hb ip x s a hb x 0 0.
Proof using All.
  intros F. split; try done.
  - by rewrite list_insert_id by apply F.
  - apply fstep_refl; apply F.
  - lia.
  - apply logs_refl.
Qed.

Lemma file_to_trans s a hb ip x s1 a1 hb1 x1 s2 a2 hb2 x2 k1 n1 k2 n2 :
  file_to s a hb ip x s1 a1 hb1 x1 k1 n1 -> file_to s1 a1 hb1 ip x1 s2 a2 hb2 x2 k2 n2 ->
  file_to s a hb ip x s2 a2 hb2 x2 (k1 + k2) (n1 + n2).
Proof using All.
  intros [A1 A2 A3 A4 A5 Al A6 A7] [B1 B2 B3 B4 B5 Bl B6 B7]. pose proof (wframe_sb _ _ A4) as Es. pose proof (wframe_log _ _ A4) as El.
  rewrite Es, ?El in *. split; try done.
  - by rewrite B2, A2, list_insert_insert_eq.
  - by eapply fstep_trans.
  - by eapply wframe_trans.
  - lia.
  - by eapply logs_trans.
  - intros j Hj. apply B6, A6. by rewrite Nat.add_assoc.
  - destruct A7, B7. split; congruence.
Qed.

Lemma alter_insert {A} (f : A -> A) i (l : list A) y : l !! i = Some y -> alter f i l = <[i := f y]> l.
Proof using. revert i. induction l as [|z l IH]; intros [|i]; cbn; try done; [congruence|]. intros E. f_equal. by apply IH. Qed.

Lemma setinode_eq s ip x f : itable (k_fs s) !! ip = Some x ->
  setinode ip f s = Ok (tt, sino (fun _ => <[ip := f x]> (itable (k_fs s))) s).
Proof using.
  intros E. unfold setinode, modify. f_equal. f_equal. unfold sino, set. destruct s as [? ? ? ? ? [] ? ? ? ?]. cbn in *.
  by rewrite (alter_insert _ _ _ x E).
Qed.
Lemma set_iaddr_eq s ip x i v : itable (k_fs s) !! ip = Some x ->
  set_iaddr ip i v s = Ok (tt, sino (fun _ => <[ip := with_addr x i v]> (itable (k_fs s))) s).
Proof using. intros E. unfold set_iaddr. by rewrite (setinode_eq _ _ _ _ E). Qed.

(** The state after a block was taken and entered into the inode. *)
Lemma taken_to s a hb ip x i b0 s' c1 c2 :
  let sb0 := sb (k_fs s) in let bm := bmap_block sb0 b0 in let x' := with_addr x i b0 in
  let a' := wrote b0 c2 (replicate bsize 0) (wrote bm c1 (set_bit sb0 (c_data a) b0) a) in
  file_in s a hb ip x -> 0 <= b0 < s_size sb0 -> used sb0 (c_data a) b0 = false ->
  in_op dv ∅ s' a' (logged b0 (logged bm hb)) -> same_fs s s' ->
  fstep sb0 (larea s) (c_data a) x (took sb0 (c_data a) b0) x' -> wanted (took sb0 (c_data a) b0) x' b0 ->
  file_to s a hb ip x (sino (fun _ => <[ip := x']> (itable (k_fs s'))) s') a' (logged b0 (logged bm hb)) x' 1 2.
Proof using All.
  intros sb0 bm x' a' F Hb0 Hu I Fs St Hw. pose proof (same_fs_itable _ _ Fs) as Ei. pose proof (same_fs_sb _ _ Fs) as Es.
  pose proof (same_fs_log _ _ Fs) as El.
  split.
  - split; cbn.
    + by apply in_op_sino.
    + rewrite Ei. apply list_lookup_insert_eq. eapply lookup_lt_Some, F.
    + apply F.
    + rewrite Es, El. apply St.
    + rewrite Es. apply St.
  - cbn. by rewrite Ei.
  - done.
  - eauto with kernel.
  - pose proof (length_logged b0 (logged bm hb)). pose proof (length_logged bm hb). lia.
  - apply logs_logged; [apply logs_logged; [apply logs_refl|left; by exists b0]|by right].
  - intros j Hj. by apply (free_took sb0 (larea s)); [apply F|..].
  - done.
Qed.

Lemma outside_to s a hb ip x s' : file_in s a hb ip x -> cached s' a -> outside s s' -> file_to s a hb ip x s' a hb x 0 0.
Proof using All.
  intros F C O. pose proof (same_fs_itable _ _ (outside_fs _ _ O)) as Ei. pose proof (same_fs_sb _ _ (outside_fs _ _ O)) as Es.
  destruct F as [I E Ed Lay W]. split; try done.
  - split; rewrite ?Ei, ?Es, ?(outside_log _ _ O); try done. by eapply in_op_outside.
  - by rewrite Ei, list_insert_id.
  - by apply fstep_refl.
  - by apply same_fs_wframe, outside_fs.
  - lia.
  - apply logs_refl.
Qed.

(** A change of blocks alone. *)
Lemma written_to s a hb ip x s' a' hb' k n :
  file_in s a hb ip x -> in_op dv ∅ s' a' hb' -> same_fs s s' ->
  fstep (sb (k_fs s)) (larea s) (c_data a) x (c_data a') x -> (length hb' <= length hb + n)%nat ->
  logs (sb (k_fs s)) (c_data a') x hb hb' ->
  (forall j, free_atleast (sb (k_fs s)) (c_data a) (k + j) -> free_atleast (sb (k_fs s)) (c_data a') j) ->
  c_medium a' = c_medium a /\ c_trace a' = c_trace a -> file_to s a hb ip x s' a' hb' x k n.
Proof using.
  intros [I E Ed Lay W] I' F St Hl Hlg Hf Hm. pose proof (same_fs_itable _ _ F) as Ei. pose proof (same_fs_sb _ _ F) as Es.
  pose proof (same_fs_log _ _ F) as El. split; try done.
  - split; rewrite ?Ei, ?Es, ?El; try done; apply St.
  - by rewrite Ei, list_insert_id.
  - by apply same_fs_wframe.
Qed.

Lemma added_wanted sb0 ls D x D' x' i b : added sb0 ls D x D' x' i b -> J i -> 0 <= i < MAXFILE -> wanted D' x' b.
Proof using. intros Ad HJ Hi. destruct (ad_block _ _ _ _ _ _ _ _ Ad) as [<- Hb]. split; [done|]. right. by exists i. Qed.

(** The block [b] is at index [i] now. *)
Definition mapped (s : kst) (a : cache) (hb : list Z) (ip : nat) (x : inode) (i b : Z) (s' : kst) (a' : cache) (hb' : list Z)
  (x' : inode) (k n : nat) : Prop :=
  file_to s a hb ip x s' a' hb' x' k n /\ added (sb (k_fs s)) (larea s) (c_data a) x (c_data a') x' i b.

Lemma bmap_old s a hb ip x i :
  file_in s a hb ip x -> 0 <= i < MAXFILE -> fblock (c_data a) x i <> 0 ->
  exists s', bmap ip i s = Ok (fblock (c_data a) x i, s') /\ mapped s a hb ip x i (fblock (c_data a) x i) s' a hb x 0 0.
Proof using Hrounds.
  intros F Hi Hne. destruct (in_op_idle dv Hrounds _ _ _ (fi_op _ _ _ _ _ F)) as (C0 & G & Dk).
  destruct (bmap_there dv Hrounds s a ip x i C0 G (fun Hn => is_data_disk _ _ _ Dk (fw_ind _ _ _ (fi_wf _ _ _ _ _ F) Hn))
    (fi_inode _ _ _ _ _ F) (fi_dev _ _ _ _ _ F) Hi Hne) as (s' & E & C & O).
  exists s'. split; [done|]. pose proof (outside_to s a hb ip x s' F C O) as T. split; [done|].
  split; [apply T|done|done|done].
Qed.

Lemma bmap_direct s a hb ip x i k :
  file_in s a hb ip x -> J i -> 0 <= i < NDIRECT -> fblock (c_data a) x i = 0 -> free_atleast (sb (k_fs s)) (c_data a) (S k) ->
  (S (S (length hb)) < NBUF)%nat ->
  exists b s' a' hb' x', bmap ip i s = Ok (b, s') /\ mapped s a hb ip x i b s' a' hb' x' 1 2.
Proof using Hrounds.
  intros F HJ Hi Hz Hf Hlen. assert (addr x i = 0) as Ea by (unfold fblock in Hz; rewrite (proj2 (Z.ltb_lt i NDIRECT)) in Hz by lia; done).
  destruct (alloc_block ∅ s a hb k (fi_op _ _ _ _ _ F) (fi_layout _ _ _ _ _ F) Hf) as (b0 & s1 & c1 & c2 & E & Hb0 & Hu & I1 & F1).
  { set_solver. }
  { rewrite size_empty. lia. }
  pose proof (add_direct _ _ _ x b0 (fi_layout _ _ _ _ _ F) (fi_wf _ _ _ _ _ F) Hb0 Hu i Hi Hz) as Ad.
  assert (itable (k_fs s1) !! ip = Some x) as Ex by (rewrite (same_fs_itable _ _ F1); apply F).
  eexists b0, _, _, _, _. split; [|split; [eapply (taken_to s a hb ip x i b0); try done; [apply Ad|by eapply (added_wanted _ _ _ _ _ _ _ _ Ad); [|change MAXFILE with 268; unfold NDIRECT in *; lia]]|exact Ad]].
  unfold bmap. rewrite (bind_ok _ _ _ _ _ (getinode_eq _ _ _ (fi_inode _ _ _ _ _ F))), (proj2 (Z.ltb_lt i NDIRECT)) by lia.
  rewrite (bind_ok _ _ _ _ _ (iaddr_eq _ _ _ _ (fi_inode _ _ _ _ _ F))), Ea, (fi_dev _ _ _ _ _ F). cbn [Z.eqb].
  rewrite (bind_ok _ _ _ _ _ E), (proj2 (Z.eqb_neq b0 0)) by apply Ad.
  rewrite (bind_ok _ _ _ _ _ (set_iaddr_eq _ _ _ _ _ Ex)). done.
Qed.

(** ** Changing a block while another one is held *)

(** A block that was read is held. *)
Lemma reading_held s a hb bn b : reading dv ∅ s a hb bn b -> (S (length hb) < NBUF)%nat -> in_op dv {[bn]} s (grab bn b a) hb.
Proof using All.
  intros [C Hs Hc L Ho Hz P Hx] Hlen. split; try done. split.
  - cbn. rewrite (px_held _ _ _ P). set_solver.
  - intros y Hy. cbn. rewrite lookup_insert_ne by set_solver. apply (px_use _ _ _ P). set_solver.
  - intros y b' r' Hy. cbn. rewrite lookup_insert_ne by set_solver. apply (px_one _ _ _ P). set_solver.
  - rewrite size_singleton. lia.
Qed.

Lemma elem_logged y z l : y <> z -> y ∈ logged z l <-> y ∈ l.
Proof using All. intros Hne. unfold logged. case_decide; [done|]. set_solver. Qed.

(** Writes of other blocks do not touch what was read. *)
Lemma reading_wrote s0 s a hb bn b y1 c1 v1 y2 c2 v2 :
  reading dv ∅ s0 a hb bn b -> y1 <> bn -> y2 <> bn ->
  in_op dv {[bn]} s (wrote y2 c2 v2 (wrote y1 c1 v1 (grab bn b a))) (logged y2 (logged y1 hb)) ->
  reading dv ∅ s (wrote y2 c2 v2 (wrote y1 c1 v1 a)) (logged y2 (logged y1 hb)) bn b.
Proof using All.
  intros [C Hs Hc L Ho Hz P Hx] H1 H2 [C' L' Ho' Hz' P'].
  assert (forall z, z <> bn -> c_use (wrote y2 c2 v2 (wrote y1 c1 v1 (grab bn b a))) !! z = c_use (wrote y2 c2 v2 (wrote y1 c1 v1 a)) !! z) as Hu.
  { intros z Hzb. cbn. destruct (decide (z = y2)) as [->|]; [by rewrite !lookup_insert_eq|]. rewrite !(lookup_insert_ne _ y2) by done.
    destruct (decide (z = y1)) as [->|]; [by rewrite !lookup_insert_eq|]. by rewrite !lookup_insert_ne by done. }
  assert (c_use (wrote y2 c2 v2 (wrote y1 c1 v1 a)) !! bn = c_use a !! bn) as Hb by (cbn; by rewrite !lookup_insert_ne by done).
  assert (refs (wrote y2 c2 v2 (wrote y1 c1 v1 a)) bn = refs a bn) as Er by (unfold refs; by rewrite Hb).
  assert (c_data (wrote y2 c2 v2 (wrote y1 c1 v1 a)) bn = c_data a bn) as Ed by (cbn; unfold dset; by rewrite !decide_False by done).
  split; try done.
  - apply (cached_ext _ _ _ _ C'); try done. unfold grab. rewrite Er. cbn.
    rewrite !(insert_insert_ne _ bn) by done. done.
  - intros b0 r0. rewrite Hb. apply Hs.
  - rewrite Hb, Ed. apply Hc.
  - split.
    + cbn. apply P.
    + intros z _. destruct (decide (z = bn)) as [->|Hzb].
      * rewrite Hb, !elem_logged by done. apply (px_use _ _ _ P). set_solver.
      * rewrite <- Hu by done. apply (px_use _ _ _ P'). set_solver.
    + intros z b' r' _. destruct (decide (z = bn)) as [->|Hzb].
      * rewrite Hb. apply (px_one _ _ _ P). set_solver.
      * rewrite <- Hu by done. apply (px_one _ _ _ P'). set_solver.
    + pose proof (px_room _ _ _ P') as Hr. rewrite size_singleton in Hr. rewrite size_empty. lia.
Qed.

(** ** The indirect block *)

(** The end of [bmap]: the entry of index [i] in the indirect block [n]. *)
Definition bmap_entry (dev n i : Z) : K Z :=
  bp <- bread dev n ;;
  addr <- onram (ld32 (buf_data bp + 4 * (i - NDIRECT))) ;;
  addr <- (if addr =? 0 then
             addr <- balloc dev ;;
             (if negb (addr =? 0) then
                onram (st32 (buf_data bp + 4 * (i - NDIRECT)) addr) ;;;
                log_write bp
              else ret tt) ;;;
             ret addr
           else ret addr) ;;
  brelse bp ;;;
  ret addr.

(** Storing an entry of the block that was read and logging it. *)
Lemma op_entry s a hb bn b i v :
  reading dv ∅ s a hb bn b -> NDIRECT <= i < MAXFILE -> (S (length hb) < NBUF)%nat ->
  0 <= bn < 2 ^ 31 -> off_log (larea s) bn ->
  exists s1 s2 s', onram (st32 (buf_data b + 4 * (i - NDIRECT)) v) s = Ok (tt, s1) /\ log_write b s1 = Ok (tt, s2) /\
    brelse b s2 = Ok (tt, s') /\
    in_op dv ∅ s' (wrote bn b (put_le 4 (c_data a bn) (Z.to_nat (4 * (i - NDIRECT))) v) a) (logged bn hb) /\ same_fs s s'.
Proof using Hrounds.
  intros R Hi Hlen Hbn Hn. change MAXFILE with 268 in Hi. unfold NDIRECT in *.
  destruct (st32_buf dv Hrounds (k_mem s) b (Z.to_nat (4 * (i - 12))) v) as (m & E & So & Eb).
  { apply (rd_backed _ _ _ _ _ _ _ R). }
  { apply (rd_buf _ _ _ _ _ _ _ R). }
  { unfold bsize, BSIZE. lia. }
  rewrite Z2Nat.id in E by lia.
  destruct (op_write dv Hrounds ∅ s a hb bn b R m So) as (s' & E2 & I & F); [rewrite size_empty; lia|done|done|].
  apply bind_inv in E2 as (u & s2 & E2 & E3). destruct u.
  exists (s <| k_mem := m |>), s2, s'. split_and!; [by apply onram_ok|exact E2|exact E3| |exact F].
  by rewrite Eb, (rd_block _ Hrounds _ _ _ _ _ _ R) in I.
Qed.

Lemma free_ext sb0 D D' k : (forall y, 0 <= y < s_size sb0 -> used sb0 D' y = used sb0 D y) -> free_atleast sb0 D k -> free_atleast sb0 D' k.
Proof using. intros Hu (l & Hn & Hl & Hf). exists l. split_and!; try done. intros b Hb. destruct (Hf b Hb). split; [done|]. by rewrite Hu. Qed.

Lemma fblock_entry D x i : NDIRECT <= i -> ind x <> 0 -> fblock D x i = get_le 4 (D (ind x)) (Z.to_nat (4 * (i - NDIRECT))).
Proof using. intros Hi Hn. unfold fblock. by rewrite (proj2 (Z.ltb_ge i NDIRECT)), (proj2 (Z.eqb_neq (ind x) 0)) by done. Qed.

Lemma entry_new s a hb ip x i k :
  file_in s a hb ip x -> J i -> NDIRECT <= i < MAXFILE -> ind x <> 0 -> fblock (c_data a) x i = 0 ->
  free_atleast (sb (k_fs s)) (c_data a) (S k) -> (3 + length hb < NBUF)%nat ->
  exists b s' a' hb', bmap_entry dv (ind x) i s = Ok (b, s') /\ mapped s a hb ip x i b s' a' hb' x 1 3.
Proof using Hrounds.
  intros F HJ Hi Hn Hz Hf Hlen. destruct (F) as [I Ex Ed Lay W]. pose proof (fw_ind _ _ _ W Hn) as Hd.
  destruct (op_bread dv Hrounds ∅ s a hb (ind x) I) as (b & s1 & E1 & R1 & F1); [set_solver|destruct (is_data_pos _ _ _ _ Lay Hd); lia|].
  pose proof (same_fs_sb _ _ F1) as Es1. pose proof (same_fs_log _ _ F1) as El1.
  destruct (alloc_block {[ind x]} s1 (grab (ind x) b a) hb k) as (b0 & s2 & c1 & c2 & E2 & Hb0 & Hu & I2 & F2).
  { apply (reading_held _ _ _ _ _ R1). lia. }
  { by rewrite Es1, El1. }
  { by rewrite Es1. }
  { intros y ->%elem_of_singleton. by rewrite Es1. }
  { rewrite size_singleton. lia. }
  rewrite Es1 in *. set (bm := bmap_block (sb (k_fs s)) b0) in *. change (c_data (grab (ind x) b a)) with (c_data a) in *.
  assert (b0 <> ind x) as Hne by (intros ->; destruct Hd; congruence).
  assert (bm <> ind x) as Hne2 by (intros E; by apply (is_data_bmap _ _ _ _ b0 Lay Hd Hb0)).
  pose proof (reading_wrote _ _ _ _ _ _ _ _ _ _ _ _ R1 Hne2 Hne I2) as R2.
  destruct (is_data_home _ _ _ _ Lay Hd) as [Hh Hl]. pose proof (length_logged b0 (logged bm hb)). pose proof (length_logged bm hb).
  destruct (op_entry s2 _ _ (ind x) b i b0 R2 Hi) as (s3 & s4 & s5 & E3 & E4 & E5 & I5 & F5); [lia|done| |].
  { by rewrite (same_fs_log _ _ F2), El1. }
  pose proof (add_entry _ _ _ x b0 Lay W Hb0 Hu i Hi Hn Hz) as Ad.
  assert (c_data (wrote b0 c2 (replicate bsize 0) (wrote bm c1 (set_bit (sb (k_fs s)) (c_data a) b0) a)) (ind x) = c_data a (ind x))
    as Ec by (cbn; unfold dset; by rewrite !decide_False).
  rewrite Ec in I5.
  eexists b0, s5, _, _. split; [|split; [eapply written_to; [exact F|exact I5|eauto with kernel|apply Ad|..]|exact Ad]].
  - unfold bmap_entry. rewrite (bind_ok _ _ _ _ _ E1).
    rewrite (bind_ok _ _ _ _ _ (onram_read _ _ _ (ld32_entry dv Hrounds _ _ i (rd_backed _ _ _ _ _ _ _ R1) (rd_buf _ _ _ _ _ _ _ R1) Hi))).
    rewrite (rd_block _ Hrounds _ _ _ _ _ _ R1), <- fblock_entry, Hz by (done || lia). cbn [Z.eqb].
    rewrite bind_assoc, (bind_ok _ _ _ _ _ E2), (proj2 (Z.eqb_neq b0 0)) by apply Ad. cbn [negb].
    rewrite !bind_assoc, (bind_ok _ _ _ _ _ E3), (bind_ok _ _ _ _ _ E4), bind_ret, (bind_ok _ _ _ _ _ E5). done.
  - pose proof (length_logged (ind x) (logged b0 (logged bm hb))). lia.
  - apply logs_logged; [apply logs_logged; [apply logs_logged; [apply logs_refl|left; by exists b0]|]|]; right.
    + apply (added_wanted _ _ _ _ _ _ _ _ Ad HJ). unfold NDIRECT in *. lia.
    + split; [done|by left].
  - intros j Hj. apply (free_ext _ (took (sb (k_fs s)) (c_data a) b0)); [|by apply (free_took _ (larea s))].
    intros y Hy. unfold used. cbn. unfold dset at 1. rewrite decide_False; [done|]. intros E. by apply (is_data_bmap _ _ _ _ y Lay Hd Hy).
  - done.
Qed.

Lemma file_to_weaken s a hb ip x s' a' hb' x' k n k' n' :
  (k <= k')%nat -> (n <= n')%nat -> file_to s a hb ip x s' a' hb' x' k n -> file_to s a hb ip x s' a' hb' x' k' n'.
Proof using All.
  intros Hk Hn [A1 A2 A3 A4 A5 Al A6 A7]. split; try done; [lia|]. intros j Hj. apply A6. eapply free_weaken; [|exact Hj]. lia.
Qed.

(** [bmap] beyond the direct blocks, once the indirect block is there. *)
Lemma bmap_far s ip x i : itable (k_fs s) !! ip = Some x -> i_dev x = dv -> NDIRECT <= i < MAXFILE -> ind x <> 0 ->
  bmap ip i s = bmap_entry dv (ind x) i s.
Proof using All.
  intros Ex Ed Hi Hn. unfold bmap. rewrite (bind_ok _ _ _ _ _ (getinode_eq _ _ _ Ex)), (proj2 (Z.ltb_ge i NDIRECT)) by lia.
  rewrite (proj2 (Z.ltb_lt (i - NDIRECT) NINDIRECT)) by (unfold MAXFILE in *; lia).
  rewrite (bind_ok _ _ _ _ _ (iaddr_eq _ _ _ _ Ex)). fold (ind x). rewrite (proj2 (Z.eqb_neq (ind x) 0)), bind_ret by done.
  by rewrite (proj2 (Z.eqb_neq (ind x) 0)), Ed by done.
Qed.

(** The indirect block itself is added. *)
Lemma bmap_ind s a hb ip x i k :
  file_in s a hb ip x -> NDIRECT <= i < MAXFILE -> ind x = 0 -> free_atleast (sb (k_fs s)) (c_data a) (S k) ->
  (S (S (length hb)) < NBUF)%nat ->
  exists s' a' hb' x', bmap ip i s = bmap_entry dv (ind x') i s' /\ file_to s a hb ip x s' a' hb' x' 1 2 /\ ind x' <> 0 /\
    (forall j, 0 <= j < MAXFILE -> fblock (c_data a') x' j = fblock (c_data a) x j) /\
    (forall j, 0 <= j < MAXFILE -> fblock (c_data a) x j <> 0 -> c_data a' (fblock (c_data a) x j) = c_data a (fblock (c_data a) x j)).
Proof using Hrounds.
  intros F Hi Hz Hf Hlen.
  destruct (alloc_block ∅ s a hb k (fi_op _ _ _ _ _ F) (fi_layout _ _ _ _ _ F) Hf) as (b0 & s1 & c1 & c2 & E & Hb0 & Hu & I1 & F1).
  { set_solver. }
  { rewrite size_empty. lia. }
  destruct (add_ind _ _ _ x b0 (fi_layout _ _ _ _ _ F) (fi_wf _ _ _ _ _ F) Hb0 Hu Hz) as (St & Ei & Hn & HB & HK).
  assert (itable (k_fs s1) !! ip = Some x) as Ex by (rewrite (same_fs_itable _ _ F1); apply F).
  eexists _, _, _, (with_addr x NDIRECT b0). split; [|split_and!; [eapply (taken_to s a hb ip x NDIRECT b0); try done; by split; [|left]|by rewrite Ei|exact HB|exact HK]].
  unfold bmap. rewrite (bind_ok _ _ _ _ _ (getinode_eq _ _ _ (fi_inode _ _ _ _ _ F))), (proj2 (Z.ltb_ge i NDIRECT)) by lia.
  rewrite (proj2 (Z.ltb_lt (i - NDIRECT) NINDIRECT)) by (unfold MAXFILE in *; lia).
  rewrite (bind_ok _ _ _ _ _ (iaddr_eq _ _ _ _ (fi_inode _ _ _ _ _ F))). fold (ind x). rewrite Hz, (fi_dev _ _ _ _ _ F). cbn [Z.eqb].
  rewrite bind_assoc, (bind_ok _ _ _ _ _ E), (proj2 (Z.eqb_neq b0 0)) by done.
  rewrite bind_assoc, (bind_ok _ _ _ _ _ (set_iaddr_eq _ _ _ _ _ Ex)), bind_ret, (proj2 (Z.eqb_neq b0 0)), Ei by done. done.
Qed.

Lemma bmap_ok s a hb ip x i k :
  file_in s a hb ip x -> J i -> 0 <= i < MAXFILE -> free_atleast (sb (k_fs s)) (c_data a) (S (S k)) -> (5 + length hb < NBUF)%nat ->
  exists b s' a' hb' x', bmap ip i s = Ok (b, s') /\ mapped s a hb ip x i b s' a' hb' x' 2 5.
Proof using Hrounds.
  intros F HJ Hi Hf Hlen. destruct (decide (fblock (c_data a) x i = 0)) as [Hz|Hz]; cycle 1.
  { destruct (bmap_old s a hb ip x i F Hi Hz) as (s' & E & T & Ad). eexists _, s', a, hb, x. split; [exact E|].
    split; [|exact Ad]. eapply file_to_weaken; [..|exact T]; lia. }
  destruct (decide (i < NDIRECT)) as [Hd|Hd].
  { destruct (bmap_direct s a hb ip x i (S k) F HJ ltac:(lia) Hz Hf ltac:(lia)) as (b & s' & a' & hb' & x' & E & T & Ad).
    exists b, s', a', hb', x'. split; [done|]. split; [|exact Ad]. eapply file_to_weaken; [..|exact T]; lia. }
  destruct (decide (ind x = 0)) as [Hn|Hn].
  - destruct (bmap_ind s a hb ip x i (S k) F ltac:(lia) Hn Hf ltac:(lia)) as (s1 & a1 & hb1 & x1 & E1 & T1 & Hn1 & HB & HK).
    pose proof (ft_len _ _ _ _ _ _ _ _ _ _ _ T1) as Hl1. pose proof (wframe_sb _ _ (ft_frame _ _ _ _ _ _ _ _ _ _ _ T1)) as Es.
    destruct (entry_new s1 a1 hb1 ip x1 i k (ft_in _ _ _ _ _ _ _ _ _ _ _ T1)) as (b & s2 & a2 & hb2 & E2 & T2 & Ad); try done; try lia.
    { by rewrite HB. }
    { rewrite Es. apply (ft_free _ _ _ _ _ _ _ _ _ _ _ T1). done. }
    pose proof (file_to_trans _ _ _ _ _ _ _ _ _ _ _ _ _ _ _ _ _ T1 T2) as T.
    exists b, s2, a2, hb2, x1. split; [by rewrite E1|]. split; [exact T|]. destruct Ad as [_ A2 A3 A4]. split; [apply T|done|..].
    + intros j Hj Hne. by rewrite A3, HB.
    + intros j Hj Hne. rewrite <- HB in Hne |- * by done. rewrite A4 by done. rewrite !HB by done. apply HK; [done|]. by rewrite <- HB.
  - destruct (entry_new s a hb ip x i (S k) F HJ ltac:(lia) Hn Hz Hf ltac:(lia)) as (b & s' & a' & hb' & E & T & Ad).
    exists b, s', a', hb', x. rewrite (bmap_far s ip x i (fi_inode _ _ _ _ _ F) (fi_dev _ _ _ _ _ F) ltac:(lia) Hn).
    split; [done|]. split; [|exact Ad]. eapply file_to_weaken; [..|exact T]; lia.
Qed.

(** ** Writing inside one block *)

(** Copying [m] bytes into the buffer that was read. *)
Lemma fill_chunk t a hb bn b o src m :
  reading dv ∅ t a hb bn b -> 0 <= o -> 0 <= m -> o + m <= BSIZE -> ram_lo (k_mem t) <= src -> src + m <= ram_hi (k_mem t) ->
  exists m', either_copyin (buf_data b + o) false src m t = Ok (0, t <| k_mem := m' |>) /\ same_off (in_buf b) (k_mem t) m' /\
    forall k, 0 <= k < BSIZE -> default 0 (block_at m' b !! Z.to_nat k) =
      if decide (o <= k < o + m) then byte_at (k_mem t) (src + (k - o)) else default 0 (c_data a bn !! Z.to_nat k).
Proof using Hrounds.
  intros R Ho Hm Hb Hs1 Hs2. destruct (rd_backed _ _ _ _ _ _ _ R) as (B1 & B2 & B3). destruct (B3 b (rd_buf _ _ _ _ _ _ _ R)).
  destruct (memmove_spec (buf_data b + o) src m (k_mem t)) as (m' & E & So & Hc); [unfold BSIZE in *; lia..|].
  exists m'. split_and!.
  - by apply (copyin_kernel dv Hrounds t _ _ _ _ _ (rd_cached _ _ _ _ _ _ _ R)).
  - apply (same_off_weaken _ _ _ _ So). unfold in_buf. lia.
  - intros k Hk. unfold block_at at 1. rewrite rdbytes_lookup by (unfold bsize; lia). cbn [default from_option id].
    rewrite Z2Nat.id by lia. case_decide as Hd.
    + replace (buf_data b + k) with (buf_data b + o + (k - o)) by lia. apply Hc. lia.
    + rewrite <- (rd_block _ Hrounds _ _ _ _ _ _ R). unfold block_at. rewrite rdbytes_lookup by (unfold bsize; lia).
      cbn [default from_option id]. rewrite Z2Nat.id by lia. apply So. lia.
Qed.

Lemma write_chunk t a hb ip x off m src k :
  file_in t a hb ip x -> J (off / BSIZE) -> 0 <= off -> 0 < m -> off mod BSIZE + m <= BSIZE -> off / BSIZE < MAXFILE ->
  free_atleast (sb (k_fs t)) (c_data a) (S (S k)) -> (6 + length hb < NBUF)%nat ->
  plain src m -> ram_lo (k_mem t) <= src -> src + m <= ram_hi (k_mem t) ->
  exists addr t1 x1 b t2 t3 t4 a' hb', bmap ip (off / BSIZE) t = Ok (addr, t1) /\ addr <> 0 /\ itable (k_fs t1) !! ip = Some x1 /\
    i_dev x1 = dv /\ bread dv addr t1 = Ok (b, t2) /\ either_copyin (buf_data b + off mod BSIZE) false src m t2 = Ok (0, t3) /\
    (log_write b ;;; brelse b) t3 = Ok (tt, t4) /\ file_to t a hb ip x t4 a' hb' x1 2 6 /\
    forall j, 0 <= j < MAXFILE * BSIZE -> fblock (c_data a) x (j / BSIZE) <> 0 \/ off <= j < off + m ->
      fblock (c_data a') x1 (j / BSIZE) <> 0 /\
      fbyte (c_data a') x1 j = if decide (off <= j < off + m) then byte_at (k_mem t) (src + (j - off)) else fbyte (c_data a) x j.
Proof using Hrounds.
  intros F HJ Ho Hm Hb Hi Hf Hlen Hp Hs1 Hs2. pose proof (Z.mod_pos_bound off BSIZE ltac:(done)) as Hmod.
  assert (0 <= off / BSIZE) as Hi0 by (apply Z.div_pos; done || lia).
  destruct (bmap_ok t a hb ip x (off / BSIZE) k F HJ ltac:(lia) Hf ltac:(lia)) as (addr & t1 & a1 & hb1 & x1 & E1 & T1 & Ad).
  pose proof (ft_in _ _ _ _ _ _ _ _ _ _ _ T1) as F1. pose proof (ft_len _ _ _ _ _ _ _ _ _ _ _ T1) as Hl1.
  destruct (ad_block _ _ _ _ _ _ _ _ Ad) as [Ha Ha0]. pose proof (fi_layout _ _ _ _ _ F1) as Lay1. pose proof (fi_wf _ _ _ _ _ F1) as Wf1.
  assert (is_data (sb (k_fs t1)) (c_data a1) addr) as Hd by (rewrite <- Ha; apply (fw_data _ _ _ Wf1); [lia|by rewrite Ha]).
  destruct (op_bread dv Hrounds ∅ t1 a1 hb1 addr (fi_op _ _ _ _ _ F1)) as (b & t2 & E2 & R2 & F2);
    [set_solver|destruct (is_data_pos _ _ _ _ Lay1 Hd); lia|].
  pose proof (wframe_trans _ _ _ (ft_frame _ _ _ _ _ _ _ _ _ _ _ T1) (same_fs_wframe _ _ F2)) as W2.
  destruct (wframe_mem _ _ W2) as (Hlo & Hhi & Hmem).
  destruct (fill_chunk t2 a1 hb1 addr b (off mod BSIZE) src m R2) as (m' & E3 & So & Hv); [lia..|].
  destruct (is_data_home _ _ _ _ Lay1 Hd) as [Hh1 Hh2].
  destruct (op_write dv Hrounds ∅ t2 a1 hb1 addr b R2 m' So) as (t4 & E4 & I4 & F4); [rewrite size_empty; lia|done| |].
  { by rewrite (same_fs_log _ _ F2). }
  exists addr, t1, x1, b, t2, (t2 <| k_mem := m' |>), t4, (wrote addr b (block_at m' b) a1), (logged addr hb1).
  split_and!; try done; [apply F1|apply F1| |].
  - assert (fstep (sb (k_fs t1)) (larea t1) (c_data a1) x1 (dset (c_data a1) addr (block_at m' b)) x1) as St.
    { rewrite <- Ha. apply write_step; [done|done|lia|by rewrite Ha|]. unfold block_at. apply length_rdbytes. }
    apply (file_to_trans _ _ _ _ _ _ _ _ _ _ _ _ _ 2 5 0 1 T1). apply written_to; [done|done|eauto with kernel|done|..].
    + pose proof (length_logged addr hb1). lia.
    + apply logs_logged; [apply logs_refl|]. right. apply (wanted_step _ _ _ _ _ _ _ St). by apply (added_wanted _ _ _ _ _ _ _ _ Ad).
    + intros j. apply free_ext. intros y Hy. cbn. rewrite <- Ha. apply (write_used _ (larea t1) _ x1 Lay1 Wf1);
      [lia|by rewrite Ha|apply length_rdbytes|done].
    + done.
  - intros j Hj Hc. apply (bytes_step _ _ _ _ _ _ off m addr (fun k => byte_at (k_mem t) (src + k)) _ Ad); [lia| |done|done].
    intros y Hy. rewrite Hv by done. case_decide; [|done]. apply Hmem. pose proof (Hp (src + (y - off mod BSIZE)) ltac:(lia)). tauto.
Qed.
End Alloc.
