(* ===== verification/FileUpdate.v ===== *)
(** * Inodes to and from disk, and [writei] (kernel/fs.c)

    The fields of the on-disk struct, [iupdate] and [ilock], and the loop and
    the end of [writei]. *)

From S2P Require Import Prelude CInt Memory KMonad Riscv KState KString Blocks Spinlock Sched KAlloc Bio Log Fs.
From S2P Require Import LockProof BioList BioInv BioProof LogSpec LogProof LogThm FsProof FileInv FileRead FileWrite.

(** ** The inode on disk *)

Fixpoint put_words (v : list Z) (o : nat) (l : list Z) : list Z :=
  match l with
  | [] => v
  | w :: l => put_words (put_le 4 v o w) (o + 4) l
  end.

(** [struct dinode] at offset [o] of a block. *)
Definition put_dinode (v : list Z) (o : nat) (x : inode) : list Z :=
  put_words (put_le 4 (put_le 2 (put_le 2 (put_le 2 (put_le 2 v o (i_type x)) (o + 2) (i_major x)) (o + 4) (i_minor x))
    (o + 6) (i_nlink x)) (o + 8) (i_size x)) (o + 12) (i_addrs x).

Lemma length_put_words v o l : length (put_words v o l) = length v.
Proof. revert v o. induction l as [|w l IH]; intros v o; cbn [put_words]; [done|]. by rewrite IH, length_put_le. Qed.
Lemma length_put_dinode v o x : length (put_dinode v o x) = length v.
Proof. unfold put_dinode. by rewrite length_put_words, !length_put_le. Qed.

Lemma put_words_ne v o l i : (i < o \/ o + 4 * length l <= i)%nat -> put_words v o l !! i = v !! i.
Proof.
  revert v o. induction l as [|w l IH]; intros v o Hi; cbn [put_words length] in *; [done|].
  rewrite IH by lia. apply put_le_lookup_ne. lia.
Qed.
(** The other inodes of the block. *)
Lemma put_dinode_ne v o x i : length (i_addrs x) = 13%nat -> (i < o \/ o + 64 <= i)%nat -> put_dinode v o x !! i = v !! i.
Proof. intros Hl Hi. unfold put_dinode. rewrite put_words_ne by lia. rewrite !put_le_lookup_ne by lia. done. Qed.

Lemma put_words_get v o l i w : l !! i = Some w -> (o + 4 * length l <= length v)%nat -> 
  get_le 4 (put_words v o l) (o + 4 * i) = w mod 2 ^ 32.
Proof.
  revert v o i. induction l as [|w' l IH]; intros v o i Hi Hl; [done|]. cbn [put_words length] in *. destruct i as [|i].
  - injection Hi as ->. replace (o + 4 * 0)%nat with o by lia. rewrite (get_le_ext 4 (put_le 4 v o w)).
    + rewrite get_put_le by lia. done.
    + intros j Hj. apply put_words_ne. lia.
  - replace (o + 4 * S i)%nat with ((o + 4) + 4 * i)%nat by lia. apply IH; [done|]. rewrite length_put_le. lia.
Qed.

(** Reading it: what [ilock] makes of the inode [y] in memory. *)
Definition get_words (v : list Z) (o n : nat) : list Z := (fun i => get_le 4 v (o + 4 * i)) <$> seq 0 n.
Definition get_dinode (v : list Z) (o : nat) (y : inode) : inode :=
  y <| i_type := i16 (get_le 2 v o) |> <| i_major := i16 (get_le 2 v (o + 2)) |> <| i_minor := i16 (get_le 2 v (o + 4)) |>
    <| i_nlink := i16 (get_le 2 v (o + 6)) |> <| i_size := get_le 4 v (o + 8) |> <| i_addrs := get_words v (o + 12) 13 |> <| i_valid := 1 |>.

(** The fields fit the types of [struct dinode]. *)
Record dinode_fits (x : inode) : Prop := {
  df_short : Forall (fun z => - 2 ^ 15 <= z < 2 ^ 15) [i_type x; i_major x; i_minor x; i_nlink x];
  df_size : 0 <= i_size x < 2 ^ 32;
  df_addrs : length (i_addrs x) = 13%nat /\ Forall (fun z => 0 <= z < 2 ^ 32) (i_addrs x)
}.

Lemma i16_wrap z : - 2 ^ 15 <= z < 2 ^ 15 -> i16 (z mod 2 ^ 16) = z.
Proof. intros Hz. unfold i16. Z.div_mod_to_equations. lia. Qed.

Lemma get_put_words v o l : Forall (fun z => 0 <= z < 2 ^ 32) l -> (o + 4 * length l <= length v)%nat ->
  get_words (put_words v o l) o (length l) = l.
Proof.
  intros Hf Hl. apply list_eq. intros i. unfold get_words. rewrite list_lookup_fmap. destruct (l !! i) as [w|] eqn:E.
  - pose proof (lookup_lt_Some _ _ _ E). rewrite lookup_seq_lt by done. change (0 + i)%nat with i. cbn [fmap option_fmap option_map].
    rewrite (put_words_get v o l i w) by done. f_equal. apply Z.mod_small. by apply (Forall_lookup_1 _ _ _ _ Hf E).
  - apply lookup_ge_None in E. by rewrite lookup_seq_ge by lia.
Qed.

(** What [iupdate] stores is what [ilock] reads. *)
Lemma get_put_dinode v o x y : dinode_fits x -> (o + 64 <= length v)%nat ->
  get_dinode (put_dinode v o x) o y =
    Inode (i_dev y) (i_inum y) (i_ref y) 1 (i_type x) (i_major x) (i_minor x) (i_nlink x) (i_size x) (i_addrs x).
Proof.
  intros [Hs Hz [Hl Ha]] Hv. rewrite !Forall_cons in Hs. destruct Hs as (? & ? & ? & ? & _). unfold get_dinode, put_dinode.
  set (v1 := put_le 4 _ _ _). assert (forall k a, (a + k <= o + 12)%nat -> get_le k (put_words v1 (o + 12) (i_addrs x)) a = get_le k v1 a) as Hw.
  { intros k a Hk. apply get_le_ext. intros i Hi. apply put_words_ne. lia. }
  rewrite !Hw by lia. replace (get_words (put_words v1 (o + 12) (i_addrs x)) (o + 12) 13) with (i_addrs x); cycle 1.
  { rewrite <- Hl. symmetry. apply get_put_words; [done|]. unfold v1. rewrite !length_put_le. lia. }
  assert (get_le 2 v1 o = i_type x mod 2 ^ 16 /\ get_le 2 v1 (o + 2) = i_major x mod 2 ^ 16 /\ get_le 2 v1 (o + 4) = i_minor x mod 2 ^ 16 /\
    get_le 2 v1 (o + 6) = i_nlink x mod 2 ^ 16 /\ get_le 4 v1 (o + 8) = i_size x mod 2 ^ 32) as (-> & -> & -> & -> & ->).
  { unfold v1. split_and!; repeat (rewrite get_put_le_ne by lia); rewrite get_put_le by (rewrite ?length_put_le; lia); done. }
  rewrite !i16_wrap, Z.mod_small by done. by destruct y.
Qed.

(** The other inodes of the block are read as before. *)
Lemma get_put_dinode_ne v o o' x y : length (i_addrs x) = 13%nat -> (o' + 64 <= o \/ o + 64 <= o')%nat ->
  get_dinode (put_dinode v o x) o' y = get_dinode v o' y.
Proof.
  intros Hl Ho. assert (forall k a, (o' <= a /\ a + k <= o' + 64)%nat -> get_le k (put_dinode v o x) a = get_le k v a) as Hg.
  { intros k a Hk. apply get_le_ext. intros i Hi. apply put_dinode_ne; [done|lia]. }
  assert (get_words (put_dinode v o x) (o' + 12) 13 = get_words v (o' + 12) 13) as Hw.
  { apply list_fmap_ext. intros i j Hi. apply lookup_seq in Hi as [-> Hi]. apply Hg. lia. }
  unfold get_dinode. by rewrite Hw, !Hg by lia.
Qed.

(** The block of an inode and its place in it. *)
Definition iblock (sb0 : superblock) (inum : Z) : Z := s_inodestart sb0 + inum / IPB.
Definition ioff (inum : Z) : nat := Z.to_nat (sizeof_dinode * (inum mod IPB)).

Lemma ioff_range inum : (ioff inum + 64 <= bsize)%nat.
Proof.
  pose proof (Z.mod_pos_bound inum IPB ltac:(done)). unfold ioff, bsize. change IPB with 16 in *. unfold sizeof_dinode, BSIZE. lia.
Qed.

Section Update.
Context `{DL : DiskLaws} (dv : Z) (Hrounds : (0 < rounds)%nat).
Notation larea s := (log_area (logst (k_fs s))).

(** Between [s] and [t] only the bytes of buffer [b] changed; they are [v] now. *)
Definition filled (b : nat) (s t : kst) (v : list Z) : Prop :=
  exists m, t = s <| k_mem := m |> /\ same_off (in_buf b) (k_mem s) m /\ block_at m b = v.

Lemma filled_store b s t v k off w :
  bufs_backed (k_mem s) -> (b < NBUF)%nat -> filled b s t v -> (off + k <= bsize)%nat ->
  exists t', onram (store k (buf_data b + Z.of_nat off) w) t = Ok (tt, t') /\ filled b s t' (put_le k v off w).
Proof using All.
  intros (B1 & B2 & B3) Hb (m & -> & So & <-) Hk. destruct (B3 b Hb). destruct (So) as (Hlo & Hhi & _).
  set (m' := poke k m (buf_data b + Z.of_nat off) w). exists (s <| k_mem := m' |>). split.
  - etrans; [apply onram_ok, store_ok, backed_true; cbn; unfold bsize, BSIZE in *; lia|done].
  - exists m'. split_and!; [done| |].
    + eapply same_off_trans; [exact So|apply same_off_poke|]. intros y [?|Hy]; [done|]. unfold in_buf, bsize in *. lia.
    + by apply rdbytes_poke.
Qed.

Lemma onram_seq {A} (c : M ram unit) (d : M ram A) s t r :
  onram c s = Ok (tt, t) -> onram d t = r -> onram (c ;;; d) s = r.
Proof using.
  unfold onram, zoom, bind. destruct (c (k_mem s)) as [[[] m]| | | |]; try done. intros [= <-] <-. cbn. by destruct (d m) as [[]| | | |].
Qed.

Lemma filled_words b s t v off l :
  bufs_backed (k_mem s) -> (b < NBUF)%nat -> filled b s t v -> (off + 4 * length l <= bsize)%nat ->
  exists t', onram (st_words (buf_data b + Z.of_nat off) l) t = Ok (tt, t') /\ filled b s t' (put_words v off l).
Proof using All.
  intros Hk Hb. revert t v off. induction l as [|w l IH]; intros t v off Hf Hl; cbn [st_words put_words length] in *.
  - exists t. split; [by apply onram_read|done].
  - destruct (filled_store b s t v 4 off w Hk Hb Hf ltac:(lia)) as (t1 & E1 & F1).
    destruct (IH t1 _ (off + 4)%nat F1 ltac:(lia)) as (t2 & E2 & F2). exists t2. split; [|done].
    eapply onram_seq; [exact E1|]. by replace (buf_data b + Z.of_nat off + 4) with (buf_data b + Z.of_nat (off + 4)) by lia.
Qed.

(** The stores of [iupdate]. *)
Lemma fill_inode b s x inum v :
  let dip := dinode_at b inum in
  bufs_backed (k_mem s) -> (b < NBUF)%nat -> block_at (k_mem s) b = v -> length (i_addrs x) = 13%nat ->
  exists s1 s2 s3 s4 s5 s6, onram (st16 (di_type dip) (i_type x)) s = Ok (tt, s1) /\ onram (st16 (di_major dip) (i_major x)) s1 = Ok (tt, s2) /\
    onram (st16 (di_minor dip) (i_minor x)) s2 = Ok (tt, s3) /\ onram (st16 (di_nlink dip) (i_nlink x)) s3 = Ok (tt, s4) /\
    onram (st32 (di_size dip) (i_size x)) s4 = Ok (tt, s5) /\ onram (st_words (di_addrs dip 0) (i_addrs x)) s5 = Ok (tt, s6) /\
    filled b s s6 (put_dinode v (ioff inum) x).
Proof using All.
  intros dip Hk Hb Hv Hl. pose proof (ioff_range inum) as Ho.
  assert (dip = buf_data b + Z.of_nat (ioff inum)) as Ed.
  { unfold dip, dinode_at, ioff. pose proof (Z.mod_pos_bound inum IPB ltac:(done)). unfold sizeof_dinode. lia. }
  assert (filled b s s v) as F0 by (exists (k_mem s); split_and!; [by destruct s|apply same_off_refl|done]).
  destruct (filled_store b s s v 2 (ioff inum) (i_type x) Hk Hb F0 ltac:(lia)) as (s1 & E1 & F1).
  destruct (filled_store b s s1 _ 2 (ioff inum + 2) (i_major x) Hk Hb F1 ltac:(lia)) as (s2 & E2 & F2).
  destruct (filled_store b s s2 _ 2 (ioff inum + 4) (i_minor x) Hk Hb F2 ltac:(lia)) as (s3 & E3 & F3).
  destruct (filled_store b s s3 _ 2 (ioff inum + 6) (i_nlink x) Hk Hb F3 ltac:(lia)) as (s4 & E4 & F4).
  destruct (filled_store b s s4 _ 4 (ioff inum + 8) (i_size x) Hk Hb F4 ltac:(lia)) as (s5 & E5 & F5).
  destruct (filled_words b s s5 _ (ioff inum + 12) (i_addrs x) Hk Hb F5 ltac:(lia)) as (s6 & E6 & F6).
  exists s1, s2, s3, s4, s5, s6. unfold di_type, di_major, di_minor, di_nlink, di_size, di_addrs, st16, st32. rewrite Ed.
  rewrite !Nat2Z.inj_add in *. rewrite !Z.add_assoc in *. by rewrite Z.mul_0_r, Z.add_0_r.
Qed.

Lemma iupdate_ok s a hb ip x :
  let ib := iblock (sb (k_fs s)) (i_inum x) in
  in_op dv ∅ s a hb -> itable (k_fs s) !! ip = Some x -> i_dev x = dv -> length (i_addrs x) = 13%nat ->
  0 <= ib < 2 ^ 31 -> ib < s_size (sb (k_fs s)) -> off_log (larea s) ib -> (S (length hb) < NBUF)%nat ->
  exists s' b, iupdate ip s = Ok (tt, s') /\
    in_op dv ∅ s' (wrote ib b (put_dinode (c_data a ib) (ioff (i_inum x)) x) a) (logged ib hb) /\ same_fs s s'.
Proof using Hrounds.
  intros ib I Ex Ed Hl Hr Hsz Hn Hlen. unfold iupdate. rewrite (bind_ok getsb _ _ _ _ eq_refl).
  rewrite (bind_ok _ _ _ _ _ (getinode_eq _ _ _ Ex)), Ed.
  assert (IBLOCK (i_inum x) (sb (k_fs s)) = ib) as -> by (unfold IBLOCK; rewrite u32_id; unfold ib, iblock in *; lia).
  destruct (op_bread dv Hrounds ∅ s a hb ib I) as (b & s1 & E1 & R1 & F1); [set_solver|lia|]. rewrite (bind_ok _ _ _ _ _ E1).
  assert (itable (k_fs s1) !! ip = Some x) as Ex1 by (by rewrite (same_fs_itable _ _ F1)).
  rewrite (bind_ok _ _ _ _ _ (getinode_eq _ _ _ Ex1)).
  destruct (fill_inode b s1 x (i_inum x) (c_data a ib)) as (t1 & t2 & t3 & t4 & t5 & t6 & G1 & G2 & G3 & G4 & G5 & G6 & m & -> & So & Eb).
  { apply (rd_backed _ _ _ _ _ _ _ R1). }
  { apply (rd_buf _ _ _ _ _ _ _ R1). }
  { apply (rd_block _ Hrounds _ _ _ _ _ _ R1). }
  { done. }
  rewrite (bind_ok _ _ _ _ _ G1), (bind_ok _ _ _ _ _ G2), (bind_ok _ _ _ _ _ G3), (bind_ok _ _ _ _ _ G4), (bind_ok _ _ _ _ _ G5), (bind_ok _ _ _ _ _ G6).
  destruct (op_write dv Hrounds ∅ s1 a hb ib b R1 m So) as (s' & E & I' & F'); [rewrite size_empty; lia|done| |].
  { by rewrite (same_fs_log _ _ F1). }
  exists s', b. split_and!; [exact E|by rewrite Eb in I'|eauto with kernel].
Qed.

(** ** The loop of [writei] *)

(** ** Reading an inode from disk *)

Lemma cached_isleep s a i l : cached dv s a -> cached dv (set_sleep (SLinode i) l s) a.
Proof using.
  intros [Q R Co V D F Cl He L B M T Dk]. split; try done.
  - by apply (quiet_ext s).
  - intros b Hb. unfold lock_ok. replace (sleep_of (SLbuf b) (set_sleep (SLinode i) l s)) with (sleep_of (SLbuf b) s); [by apply L|].
    unfold sleep_of, set_sleep, set. cbn. by rewrite lookup_insert_ne.
  - apply (disk_ok_ext s); [done..|apply same_off_refl].
Qed.

Section Loads.
Context (m : ram) (b : nat).
Hypothesis Hk : bufs_backed m.
Hypothesis Hb : (b < NBUF)%nat.

Lemma load_buf k off : (off + k <= bsize)%nat -> load k (buf_data b + Z.of_nat off) m = Ok (get_le k (block_at m b) off, m).
Proof using All.
  intros Ho. destruct Hk as (B1 & B2 & B3). destruct (B3 b Hb). unfold block_at. rewrite get_le_rdbytes by done.
  apply load_ok, backed_true; unfold bsize, BSIZE in *; lia.
Qed.
Lemma ldshort_buf off : (off + 2 <= bsize)%nat -> ldshort (buf_data b + Z.of_nat off) m = Ok (i16 (get_le 2 (block_at m b) off), m).
Proof using All. intros Ho. unfold ldshort, ld16. by rewrite (bind_ok _ _ _ _ _ (load_buf 2 off Ho)). Qed.
Lemma ld_words_buf n off : (off + 4 * n <= bsize)%nat -> ld_words n (buf_data b + Z.of_nat off) m = Ok (get_words (block_at m b) off n, m).
Proof using All.
  revert off. induction n as [|n IH]; intros off Ho; [done|]. cbn [ld_words]. unfold ld32.
  rewrite (bind_ok _ _ _ _ _ (load_buf 4 off ltac:(lia))). replace (buf_data b + Z.of_nat off + 4) with (buf_data b + Z.of_nat (off + 4)) by lia.
  rewrite (bind_ok _ _ _ _ _ (IH (off + 4)%nat ltac:(lia))). unfold ret. do 2 f_equal. unfold get_words. cbn [seq].
  rewrite fmap_cons, Nat.mul_0_r, Nat.add_0_r. f_equal. rewrite <- fmap_S_seq, <- list_fmap_compose. apply list_fmap_ext.
  intros i j _. unfold compose. f_equal. lia.
Qed.
End Loads.

Section Ilock.
Context (s : kst) (a : cache) (jp : nat) (y : inode).
Hypothesis Hidle : idle dv s a.
Hypothesis Hy : itable (k_fs s) !! jp = Some y.
Hypothesis Hjp : (jp < NINODE)%nat.
Hypothesis Hfields : 1 <= i_ref y /\ i_valid y = 0 /\ i_dev y = dv.
Hypothesis Hfree : sl_locked (sleep_of (SLinode jp) s) = 0.
Notation ib := (iblock (sb (k_fs s)) (i_inum y)).
Hypothesis Hib : 0 <= ib < s_size (sb (k_fs s)) /\ s_size (sb (k_fs s)) < 2 ^ 31.
Let x := get_dinode (c_data a ib) (ioff (i_inum y)) y.
Hypothesis Htype : i_type x <> 0.

(** The inode table after [f] was stored at [jp]. *)
Let at_jp (f : inode) (t : kst) : kst := sino (fun _ => <[jp := f]> (itable (k_fs s))) t.

Lemma at_jp_lookup f t : itable (k_fs (at_jp f t)) !! jp = Some f.
Proof using All. cbn. apply list_lookup_insert_eq. by eapply lookup_lt_Some. Qed.
Lemma setinode_jp f g t : setinode jp g (at_jp f t) = Ok (tt, at_jp (g f) t).
Proof using All.
  rewrite (setinode_eq _ _ _ _ (at_jp_lookup f t)). do 2 f_equal. unfold at_jp, sino, set. cbn. by rewrite list_insert_insert_eq.
Qed.

(** The loads and stores once the block is in buffer [b]. *)
Section Read.
Context (s1 : kst) (b : nat).
Hypothesis R : holding dv s1 a ib b.
Hypothesis Hi1 : itable (k_fs s1) = itable (k_fs s).
Let o := ioff (i_inum y).
Let dip := dinode_at b (i_inum y).

Lemma dip_eq : dip = buf_data b + Z.of_nat o.
Proof using All.
  unfold dip, dinode_at, o, ioff. pose proof (Z.mod_pos_bound (i_inum y) IPB ltac:(done)). unfold sizeof_dinode. lia.
Qed.
Lemma read_start : s1 = at_jp y s1.
Proof using All. unfold at_jp. rewrite list_insert_id, <- Hi1 by done. unfold sino, set. by destruct s1 as [? ? ? ? ? [] ? ? ? ?]. Qed.
Lemma read_short f k : (k + 2 <= 64)%nat ->
  onram (ldshort (dip + Z.of_nat k)) (at_jp f s1) = Ok (i16 (get_le 2 (c_data a ib) (o + k)), at_jp f s1).
Proof using All.
  intros Hk. destruct (ho_buf _ _ _ _ _ R) as [Hb Hm]. pose proof (ioff_range (i_inum y)). apply onram_read.
  rewrite dip_eq, <- Z.add_assoc, <- Nat2Z.inj_add, <- (ho_block _ Hrounds _ _ _ _ R). apply ldshort_buf; [done|done|unfold o; lia].
Qed.
Lemma read_size f : onram (ld32 (di_size dip)) (at_jp f s1) = Ok (get_le 4 (c_data a ib) (o + 8), at_jp f s1).
Proof using All.
  destruct (ho_buf _ _ _ _ _ R) as [Hb Hm]. pose proof (ioff_range (i_inum y)). apply onram_read. unfold di_size, ld32.
  replace (dip + 8) with (buf_data b + Z.of_nat (o + 8)) by (rewrite dip_eq; lia). rewrite <- (ho_block _ Hrounds _ _ _ _ R).
  apply load_buf; [done|done|unfold o; lia].
Qed.
Lemma read_addrs f : onram (ld_words (Z.to_nat (NDIRECT + 1)) (di_addrs dip 0)) (at_jp f s1) = Ok (get_words (c_data a ib) (o + 12) 13, at_jp f s1).
Proof using All.
  destruct (ho_buf _ _ _ _ _ R) as [Hb Hm]. pose proof (ioff_range (i_inum y)). apply onram_read. unfold di_addrs.
  replace (dip + 12 + 4 * 0) with (buf_data b + Z.of_nat (o + 12)) by (rewrite dip_eq; lia). rewrite <- (ho_block _ Hrounds _ _ _ _ R).
  apply ld_words_buf; [done|done|unfold o; lia].
Qed.
Lemma read_release f : exists s2, brelse b (at_jp f s1) = Ok (tt, s2) /\ cached dv s2 a /\ outside (at_jp f s1) s2.
Proof using All.
  apply (idle_brelse dv Hrounds _ a ib b). destruct R as [C ? ? ?]. split; try done. by apply cached_sino.
Qed.
End Read.

Lemma ilock_ok : exists s', ilock (Some jp) s = Ok (tt, s') /\ cached dv s' a /\ itable (k_fs s') = <[jp := x]> (itable (k_fs s)) /\
  sl_locked (sleep_of (SLinode jp) s') = 1.
Proof using All.
  destruct Hfields as (Hr & Hv & Hd). destruct Hidle as (C & G & Dk). destruct (q_me _ (ca_quiet _ _ _ _ C)) as (p & pr & Hm & Hp).
  unfold ilock. rewrite (bind_ok _ _ _ _ _ (getinode_eq _ _ _ Hy)), (proj2 (Z.ltb_ge (i_ref y) 1)) by lia.
  set (s0 := set_sleep (SLinode jp) (Sleep 1 (sl_name (sleep_of (SLinode jp) s)) (p_pid pr)) s).
  assert (acquiresleep (SLinode jp) s = Ok (tt, s0)) as E0.
  { apply (acquiresleep_ok 8 _ s p pr); try done; [apply C|]. by apply (q_locks _ (ca_quiet _ _ _ _ C)). }
  rewrite (bind_ok _ _ _ _ _ E0), (bind_ok _ _ _ _ _ (getinode_eq s0 _ _ Hy)), Hv. cbn [Z.eqb]. rewrite (bind_ok getsb _ _ _ _ eq_refl).
  change (sb (k_fs s0)) with (sb (k_fs s)). assert (IBLOCK (i_inum y) (sb (k_fs s)) = ib) as -> by (unfold IBLOCK; rewrite u32_id; unfold iblock in *; lia).
  destruct (idle_bread dv Hrounds s0 a ib) as (b & s1 & E1 & R1 & O1); [by apply cached_isleep|done|apply Dk, Hib|].
  assert (itable (k_fs s1) = itable (k_fs s)) as Hi1 by exact (same_fs_itable _ _ (outside_fs _ _ O1)).
  rewrite Hd, (bind_ok _ _ _ _ _ E1), (read_start s1 b R1 Hi1). unfold di_type, di_major, di_minor, di_nlink.
  pose proof (read_short s1 b R1 Hi1 y 0%nat ltac:(lia)) as Ht. rewrite Z.add_0_r, Nat.add_0_r in Ht.
  rewrite (bind_ok _ _ _ _ _ Ht), (bind_ok _ _ _ _ _ (setinode_jp _ _ _)).
  rewrite (bind_ok _ _ _ _ _ (read_short s1 b R1 Hi1 _ 2%nat ltac:(lia))), (bind_ok _ _ _ _ _ (setinode_jp _ _ _)).
  rewrite (bind_ok _ _ _ _ _ (read_short s1 b R1 Hi1 _ 4%nat ltac:(lia))), (bind_ok _ _ _ _ _ (setinode_jp _ _ _)).
  rewrite (bind_ok _ _ _ _ _ (read_short s1 b R1 Hi1 _ 6%nat ltac:(lia))), (bind_ok _ _ _ _ _ (setinode_jp _ _ _)).
  rewrite (bind_ok _ _ _ _ _ (read_size s1 b R1 Hi1 _)), (bind_ok _ _ _ _ _ (setinode_jp _ _ _)).
  rewrite (bind_ok _ _ _ _ _ (read_addrs s1 b R1 Hi1 _)), (bind_ok _ _ _ _ _ (setinode_jp _ _ _)).
  set (f := y <| i_type := _ |> <| i_major := _ |> <| i_minor := _ |> <| i_nlink := _ |> <| i_size := _ |> <| i_addrs := _ |>).
  destruct (read_release s1 b R1 Hi1 f) as (s2 & E2 & C2 & O2). rewrite (bind_ok _ _ _ _ _ E2).
  assert (itable (k_fs s2) = <[jp := f]> (itable (k_fs s))) as Hi2 by exact (same_fs_itable _ _ (outside_fs _ _ O2)).
  assert (itable (k_fs s2) !! jp = Some f) as Hf by (rewrite Hi2; apply list_lookup_insert_eq; by eapply lookup_lt_Some).
  rewrite (bind_ok _ _ _ _ _ (setinode_eq _ _ _ _ Hf)), (proj2 (Z.eqb_neq _ 0) Htype : (i16 _ =? 0) = false).
  eexists. split_and!; [reflexivity|by apply cached_sino| |].
  - change (<[jp := f <| i_valid := 1 |>]> (itable (k_fs s2)) = <[jp := x]> (itable (k_fs s))). rewrite Hi2, list_insert_insert_eq. unfold x, get_dinode, f. reflexivity.
  - change (sl_locked (sleep_of (SLinode jp) s2) = 1). rewrite (o_isleep _ _ O2). change (sl_locked (sleep_of (SLinode jp) s1) = 1).
    rewrite (o_isleep _ _ O1). unfold s0. by rewrite sleep_of_set.
Qed.
End Ilock.

Section Writei.
Context (s : kst) (a : cache) (hb : list Z) (ip : nat) (x : inode) (src0 off0 n : Z).
Notation D := (c_data a).
Hypothesis F : file_in dv s a hb ip x.
Hypothesis Hoff : 0 <= off0 /\ 0 <= n /\ off0 <= i_size x /\ off0 + n <= MAXFILE * BSIZE.
(** The number of blocks that the bytes are in. *)
Definition nblk : nat := rmu off0 n (0, off0, src0).
(** Their indices in the file. *)
Definition wJ (i : Z) : Prop := 0 < n /\ off0 / BSIZE <= i <= (off0 + n - 1) / BSIZE.
Hypothesis Hfree : free_atleast (sb (k_fs s)) D (2 * nblk).
Hypothesis Hlen : (S (length hb + 6 * nblk) < NBUF)%nat.
Hypothesis Hsrc : plain src0 n.
Hypothesis Hback : ram_lo (k_mem s) <= src0 /\ src0 + n <= ram_hi (k_mem s).

(** The bytes after [tot] of them were written. *)
Definition wbytes (tot : Z) (D' : Z -> list Z) (x' : inode) : Prop := forall j, 0 <= j < i_size x \/ off0 <= j < off0 + tot ->
  fblock D' x' (j / BSIZE) <> 0 /\
  fbyte D' x' j = if decide (off0 <= j < off0 + tot) then byte_at (k_mem s) (src0 + (j - off0)) else fbyte D x j.

Record winv (y : Z * Z * Z) (t : kst) : Prop := WInv {
  wi_tot : 0 <= y.1.1 <= n;
  wi_off : y.1.2 = off0 + y.1.1;
  wi_src : y.2 = src0 + y.1.1;
  wi_to : exists c a' hb' x', file_to dv wJ s a hb ip x t a' hb' x' (2 * c) (6 * c) /\ (c + rmu off0 n y <= nblk)%nat /\
    wbytes y.1.1 (c_data a') x'
}.

Definition writei_body (y : Z * Z * Z) : K (Z * Z * Z + Z * Z) :=
  let '(tot, off, src) := y in
  if tot <? n then
    addr <- bmap ip (off / BSIZE) ;;
    if addr =? 0 then ret (inr (tot, off))
    else
      i <- getinode ip ;;
      bp <- bread (i_dev i) addr ;;
      let m := Z.min (u32 (n - tot)) (BSIZE - off mod BSIZE) in
      r <- either_copyin (buf_data bp + off mod BSIZE) false src m ;;
      if r =? -1 then
        brelse bp ;;;
        ret (inr (tot, off))
      else
        log_write bp ;;;
        brelse bp ;;;
        ret (inl (u32 (tot + m), u32 (off + m), u64 (src + m)))
  else ret (inr (tot, off)).

Lemma wbytes_step tot m D1 x1 D2 x2 t :
  0 <= tot -> 0 < m -> tot + m <= n -> same_off (fun y => in_bufs y \/ darea y) (k_mem s) (k_mem t) -> wbytes tot D1 x1 ->
  (forall j, 0 <= j < MAXFILE * BSIZE -> fblock D1 x1 (j / BSIZE) <> 0 \/ off0 + tot <= j < off0 + tot + m ->
    fblock D2 x2 (j / BSIZE) <> 0 /\ fbyte D2 x2 j =
      if decide (off0 + tot <= j < off0 + tot + m) then byte_at (k_mem t) (src0 + tot + (j - (off0 + tot))) else fbyte D1 x1 j) ->
  wbytes (tot + m) D2 x2.
Proof using All.
  intros Ht Hm Hn (_ & _ & Hs) W Hst j Hj. destruct (fw_size _ _ _ (fi_wf _ _ _ _ _ _ F)) as [_ Hsz].
  assert (0 <= j < MAXFILE * BSIZE) as Hjr by lia.
  destruct (decide (off0 + tot <= j < off0 + tot + m)) as [Hin|Hin].
  - destruct (Hst j Hjr (or_intror Hin)) as [? E]. split; [done|]. rewrite E, !decide_True by lia.
    replace (src0 + tot + (j - (off0 + tot))) with (src0 + (j - off0)) by lia. apply Hs.
    pose proof (Hsrc (src0 + (j - off0)) ltac:(lia)). tauto.
  - destruct (W j) as [Hp Eb]; [lia|]. destruct (Hst j Hjr (or_introl Hp)) as [? E]. split; [done|].
    rewrite E, decide_False, Eb by done. destruct (decide (off0 <= j < off0 + tot)); [by rewrite decide_True by lia|by rewrite decide_False by lia].
Qed.

Lemma writei_step y t : winv y t -> exists r t', writei_body y t = Ok (r, t') /\
  match r with inl y' => winv y' t' /\ (rmu off0 n y' < rmu off0 n y)%nat
  | inr p => p = (n, off0 + n) /\ winv (n, off0 + n, src0 + n) t' end.
Proof using All.
  destruct y as [[tot off] src]. intros [Ht Ho Hd (c & a1 & hb1 & x1 & T & Hc & Hb)]. cbn [fst snd] in *. subst off src. unfold writei_body.
  destruct (Z.ltb_spec tot n) as [Hlt|Hge]; cycle 1.
  { assert (tot = n) as -> by lia. exists (inr (n, off0 + n)), t. split_and!; try done. split; cbn [fst snd]; try done. by exists c, a1, hb1, x1. }
  pose proof (rmu_less off0 n ltac:(lia) tot (src0 + tot) Ht Hlt) as Hmu. cbv zeta in Hmu.
  set (off := off0 + tot) in *. set (m := Z.min (n - tot) (BSIZE - off mod BSIZE)) in *.
  pose proof (Z.mod_pos_bound off BSIZE ltac:(done)) as Hm. assert (off = off0 + tot) as Eoff by done.
  assert (0 < m <= n - tot /\ off mod BSIZE + m <= BSIZE) as [Hm0 Hm1] by (unfold m; lia).
  pose proof (ft_in _ _ _ _ _ _ _ _ _ _ _ _ _ T) as F1. pose proof (ft_frame _ _ _ _ _ _ _ _ _ _ _ _ _ T) as W1.
  pose proof (ft_len _ _ _ _ _ _ _ _ _ _ _ _ _ T) as Hl1. destruct (wframe_mem _ _ W1) as (Hlo & Hhi & _).
  assert (off / BSIZE < MAXFILE) as Hi by (change (MAXFILE * BSIZE) with 274432 in *; change MAXFILE with 268; change BSIZE with 1024; Z.div_mod_to_equations; lia).
  destruct (write_chunk dv Hrounds wJ t a1 hb1 ip x1 off m (src0 + tot) (2 * (nblk - c) - 2)) as
    (addr & t1 & x2 & b & t2 & t3 & t4 & a2 & hb2 & E1 & Ha & Ex & Ed & E2 & E3 & E4 & T2 & Hst); try done; try lia.
  { split; [lia|]. split; apply Z.div_le_mono; done || lia. }
  { rewrite (wframe_sb _ _ W1). apply (ft_free _ _ _ _ _ _ _ _ _ _ _ _ _ T). eapply free_weaken; [|exact Hfree]. lia. }
  { intros y Hy. apply Hsrc. lia. }
  rewrite (bind_ok _ _ _ _ _ E1), (proj2 (Z.eqb_neq addr 0) Ha), (bind_ok _ _ _ _ _ (getinode_eq _ _ _ Ex)), Ed, (bind_ok _ _ _ _ _ E2).
  rewrite (u32_id (n - tot)) by (change (MAXFILE * BSIZE) with 274432 in *; lia). cbv zeta. fold m.
  rewrite (bind_ok _ _ _ _ _ E3). cbn [Z.eqb]. rewrite (bind_seq _ _ _ _ _ _ E4).
  destruct (ca_backed _ _ _ _ (io_cached _ _ _ _ _ (fi_op _ _ _ _ _ _ F))) as (B1 & B2 & _).
  rewrite !u32_id, u64_id by (change (MAXFILE * BSIZE) with 274432 in *; lia).
  eexists (inl _), t4. split; [reflexivity|]. split; [|exact Hmu]. split; cbn [fst snd]; try lia.
  exists (S c), a2, hb2, x2. split_and!; [|lia|].
  - eapply file_to_weaken; [..|eapply (file_to_trans dv Hrounds); [exact T|exact T2]]; lia.
  - eapply wbytes_step; [lia|lia|lia|apply (wframe_mem _ _ W1)|exact Hb|exact Hst].
Qed.

Lemma writei_loop : exists s' a' hb' x', loop (blocks_fuel n) writei_body (0, off0, src0) s = Ok ((n, off0 + n), s') /\
  file_to dv wJ s a hb ip x s' a' hb' x' (2 * nblk) (6 * nblk) /\ wbytes n (c_data a') x'.
Proof using All.
  destruct (loop_total winv (fun y _ => rmu off0 n y) (fun p t => p = (n, off0 + n) /\ winv (n, off0 + n, src0 + n) t)
    writei_body (blocks_fuel n) (0, off0, src0) s) as (p & s' & E & -> & I).
  - apply writei_step.
  - split; cbn [fst snd]; try lia. exists 0%nat, a, hb, x. split_and!; [by apply file_to_refl|unfold nblk; lia|].
    intros j Hj. assert (0 <= j < i_size x) as Hj' by lia. rewrite decide_False by lia. split; [|done].
    apply (fw_full _ _ _ (fi_wf _ _ _ _ _ _ F)); change BSIZE with 1024; Z.div_mod_to_equations; lia.
  - apply rmu_fuel. lia.
  - destruct I as [_ _ _ (c & a' & hb' & x' & T & Hc & Hb)]. exists s', a', hb', x'. split_and!; [done| |done].
    eapply file_to_weaken; [..|exact T]; lia.
Qed.

(** *** The size and the inode *)

(** The block of the inode lies between the log and the bitmap. *)
Definition inode_block (sb0 : superblock) (ib : Z) : Prop := s_inodestart sb0 <= ib < s_bmapstart sb0 /\ ib < s_size sb0.

Notation ib := (iblock (sb (k_fs s)) (i_inum x)).
Hypothesis Hib : inode_block (sb (k_fs s)) ib.

(** What a complete [writei] leaves behind. *)
Record file_written (s' : kst) (a' : cache) (hb' : list Z) (x' : inode) : Prop := FileWritten {
  fr_in : file_in dv s' a' hb' ip x';
  fr_inode : x' = x <| i_addrs := i_addrs x' |> <| i_size := Z.max (i_size x) (off0 + n) |>;
  fr_itable : itable (k_fs s') = <[ip := x']> (itable (k_fs s));
  fr_bytes j : 0 <= j < i_size x' -> fbyte (c_data a') x' j =
    if decide (off0 <= j < off0 + n) then byte_at (k_mem s) (src0 + (j - off0)) else fbyte D x j;
  fr_dinode : c_data a' ib = put_dinode (D ib) (ioff (i_inum x)) x';
  fr_other b : 0 <= b < s_size (sb (k_fs s)) -> used (sb (k_fs s)) D b = true -> no_bmap (sb (k_fs s)) b -> ~ owns D x b -> b <> ib ->
    c_data a' b = D b /\ used (sb (k_fs s)) (c_data a') b = true;
  fr_new b : owns (c_data a') x' b -> owns D x b \/ 0 <= b < s_size (sb (k_fs s)) /\ used (sb (k_fs s)) D b = false;
  fr_frame : wframe s s';
  fr_len : (length hb' <= length hb + 6 * nblk + 1)%nat;
  fr_log b : b ∈ hb' -> b = ib \/ b ∈ hb \/ (exists b', 0 <= b' < s_size (sb (k_fs s)) /\ b = bmap_block (sb (k_fs s)) b') \/ wanted wJ (c_data a') x' b;
  fr_disk : c_medium a' = c_medium a /\ c_trace a' = c_trace a
}.

Lemma ib_range : 0 <= ib < 2 ^ 31 /\ off_log (larea s) ib /\ no_bmap (sb (k_fs s)) ib /\ ~ owns D x ib /\ used (sb (k_fs s)) D ib = true.
Proof using All.
  pose proof (fi_layout _ _ _ _ _ _ F) as Lay. pose proof (fi_wf _ _ _ _ _ _ F) as W. pose proof (fl_log _ _ _ Lay). pose proof (fl_size _ _ _ Lay).
  destruct Hib as [? ?]. pose proof (Z.div_pos (s_size (sb (k_fs s)) - 1) BPB ltac:(lia) ltac:(done)).
  assert (ib < bmap_block (sb (k_fs s)) (s_size (sb (k_fs s)) - 1)) as Hlt by (unfold bmap_block; lia). change LOGSIZE with 30 in *.
  split_and!; [lia|lia|unfold off_log, in_log; lia| | |apply (fl_meta _ _ _ Lay); lia].
  - intros b Hb. pose proof (Z.div_pos b BPB ltac:(lia) ltac:(done)). unfold bmap_block. lia.
  - intros [Hn Ho]. assert (is_data (sb (k_fs s)) D ib) as Hd; [|pose proof (is_data_pos _ _ _ _ Lay Hd); lia].
    destruct Ho as [E|(i & Hi & E)]; [rewrite E; apply (fw_ind _ _ _ W); congruence|rewrite <- E; apply (fw_data _ _ _ W); [done|congruence]].
Qed.

(** Storing the size. *)
Lemma set_size t x1 o : itable (k_fs t) !! ip = Some x1 ->
  exists t', (if i_size x1 <? o then setinode ip (set i_size (fun _ => o)) else ret tt) t = Ok (tt, t') /\
    t' = sino (fun _ => <[ip := x1 <| i_size := Z.max (i_size x1) o |>]> (itable (k_fs t))) t.
Proof using All.
  intros E. destruct (Z.ltb_spec (i_size x1) o).
  - rewrite Z.max_r by lia. eexists. split; [by apply setinode_eq|done].
  - eexists. split; [reflexivity|]. rewrite Z.max_l, list_insert_id by (rewrite ?E; by destruct x1).
    unfold sino, set. by destruct t as [? ? ? ? ? [] ? ? ? ?].
Qed.

(** The state before the inode is written back: [T] is the loop's effect. *)
Section Back.
Context (s1 : kst) (a1 : cache) (hb1 : list Z) (x1 : inode).
Hypothesis T : file_to dv wJ s a hb ip x s1 a1 hb1 x1 (2 * nblk) (6 * nblk).
Hypothesis Hb : wbytes n (c_data a1) x1.
Let x2 := x1 <| i_size := Z.max (i_size x1) (off0 + n) |>.

Lemma back_fields : i_size x1 = i_size x /\ i_inum x1 = i_inum x /\ i_dev x1 = i_dev x /\
  x2 = x <| i_addrs := i_addrs x2 |> <| i_size := Z.max (i_size x) (off0 + n) |>.
Proof using All. unfold x2. pose proof (st_fields _ _ _ _ _ _ (ft_step _ _ _ _ _ _ _ _ _ _ _ _ _ T)) as E. rewrite E. by destruct x, x1. Qed.

Lemma back_full i : 0 <= i -> i * BSIZE < i_size x2 -> fblock (c_data a1) x1 i <> 0.
Proof using All.
  destruct back_fields as (Es & _). unfold x2. cbn [i_size set]. rewrite Es. intros Hi Hlt.
  destruct (Hb (i * BSIZE)) as [Hp _]; [change BSIZE with 1024 in *; lia|]. by rewrite Z.div_mul in Hp.
Qed.

Lemma back_written s3 c : let a3 := wrote ib c (put_dinode (c_data a1 ib) (ioff (i_inum x)) x2) a1 in
  in_op dv ∅ s3 a3 (logged ib hb1) -> same_fs (sino (fun _ => <[ip := x2]> (itable (k_fs s1))) s1) s3 ->
  file_written s3 a3 (logged ib hb1) x2.
Proof using All.
  intros a3 I3 F3. destruct ib_range as (R1 & R2 & R3 & R4 & R5). destruct back_fields as (Es & En & Ed & Ex).
  pose proof (ft_in _ _ _ _ _ _ _ _ _ _ _ _ _ T) as F1. pose proof (ft_step _ _ _ _ _ _ _ _ _ _ _ _ _ T) as St. pose proof (ft_frame _ _ _ _ _ _ _ _ _ _ _ _ _ T) as W1.
  assert (wframe s s3) as W3 by eauto with kernel. pose proof (wframe_sb _ _ W3) as Esb. pose proof (wframe_log _ _ W3) as Els.
  assert (itable (k_fs s3) = <[ip := x2]> (itable (k_fs s))) as Ei.
  { rewrite (same_fs_itable _ _ F3). cbn. rewrite (ft_itable _ _ _ _ _ _ _ _ _ _ _ _ _ T). apply list_insert_insert_eq. }
  assert (length (put_dinode (c_data a1 ib) (ioff (i_inum x)) x2) = bsize) as Hv by (rewrite length_put_dinode; apply (fl_length _ _ _ (st_layout _ _ _ _ _ _ St))).
  assert (c_data a1 ib = D ib) as Eib by (apply (st_frame _ _ _ _ _ _ St); try done; destruct Hib; lia).
  assert (0 <= i_size x2 <= MAXFILE * BSIZE) as Hsz.
  { unfold x2. cbn [i_size set]. pose proof (fw_size _ _ _ (st_wf _ _ _ _ _ _ St)). lia. }
  assert (ib < s_bmapstart (sb (k_fs s))) as Hlt by apply Hib.
  split; try done.
  - split; try done.
    + rewrite Ei. apply list_lookup_insert_eq. eapply lookup_lt_Some, F.
    + rewrite Ex. cbn. apply F.
    + rewrite Esb, Els. eapply (meta_layout _ _ _ x1); [apply St|apply St|done|done].
    + rewrite Esb. eapply (meta_wf (sb (k_fs s)) (larea s) (c_data a1) x1); try done; [apply St|apply St|apply back_full].
  - intros j Hj. 
    destruct (Hb j) as [Hp Eb]. { unfold x2 in Hj. cbn [i_size set] in Hj. rewrite Es in Hj. lia. }
    rewrite <- Eb. eapply (meta_byte (sb (k_fs s)) (larea s) (c_data a1) x1); try done; [apply St|apply St|apply back_full|lia].
  - unfold a3. cbn. unfold dset. rewrite decide_True by done. by rewrite Eib.
  - intros y Hy Hu Hn Ho Hne. split.
    + unfold a3. cbn. unfold dset. rewrite decide_False by done. by apply (st_frame _ _ _ _ _ _ St).
    + unfold a3. cbn. rewrite (meta_used (sb (k_fs s)) (larea s) (c_data a1) x1); [by apply (st_used _ _ _ _ _ _ St)|try done; apply St..].
  - intros y. unfold a3, x2. intros [Hy Ho]. apply (st_new _ _ _ _ _ _ St). split; [done|].
    destruct Ho as [?|(i & Hi & E)]; [by left|right]. exists i. split; [done|]. rewrite <- E. symmetry.
    eapply (meta_blocks (sb (k_fs s)) (larea s) (c_data a1) x1); try done; [apply St|apply St|apply back_full].
  - pose proof (ft_len _ _ _ _ _ _ _ _ _ _ _ _ _ T). pose proof (length_logged dv Hrounds ib hb1). lia.
  - intros y Hy. destruct (decide (y = ib)) as [->|Hn]; [by left|right]. apply (elem_logged dv Hrounds wJ) in Hy; [|done].
    destruct (ft_log _ _ _ _ _ _ _ _ _ _ _ _ _ T y Hy) as [?|[?|[H1y H2y]]]; auto. right. right. split; [done|].
    destruct H2y as [->|(i & Hj & Hi & <-)]; [by left|right]. exists i. split_and!; [done|apply Hi|apply Hi|].
    eapply (meta_blocks (sb (k_fs s)) (larea s) (c_data a1) x1); try done; [apply St|apply St|apply back_full].
  - apply (ft_disk _ _ _ _ _ _ _ _ _ _ _ _ _ T).
Qed.
End Back.

Lemma writei_ok : exists s' a' hb' x', writei ip false src0 off0 n s = Ok (n, s') /\ file_written s' a' hb' x'.
Proof using All.
  destruct writei_loop as (s1 & a1 & hb1 & x1 & E1 & T & Hb). destruct ib_range as (R1 & R2 & R3 & R4 & R5).
  unfold writei. rewrite (bind_ok _ _ _ _ _ (getinode_eq _ _ _ (fi_inode _ _ _ _ _ _ F))).
  assert (0 <= off0 + n <= 274432) as Hr by (change (MAXFILE * BSIZE) with 274432 in *; lia).
  rewrite (u32_id (off0 + n)) by lia. rewrite (proj2 (Z.ltb_ge (i_size x) off0)), (proj2 (Z.ltb_ge (off0 + n) off0)), (proj2 (Z.ltb_ge (MAXFILE * BSIZE) (off0 + n))) by lia.
  cbn [orb]. rewrite (bind_ok _ _ _ _ _ E1). cbn iota beta.
  pose proof (ft_in _ _ _ _ _ _ _ _ _ _ _ _ _ T) as F1. pose proof (fi_inode _ _ _ _ _ _ F1) as Ex1. rewrite (bind_ok _ _ _ _ _ (getinode_eq _ _ _ Ex1)).
  destruct (set_size s1 x1 (off0 + n) Ex1) as (s2 & E2 & E2'). rewrite (bind_ok _ _ _ _ _ E2).
  destruct (back_fields s1 a1 hb1 x1 T Hb) as (Es & En & Ed & Ef). set (x2 := x1 <| i_size := _ |>) in *.
  pose proof (wframe_sb _ _ (ft_frame _ _ _ _ _ _ _ _ _ _ _ _ _ T)) as Esb.
  destruct (iupdate_ok s2 a1 hb1 ip x2) as (s3 & b & E3 & I3 & F3); subst s2; cbn [sino set k_fs sb itable logst].
  { apply in_op_sino, F1. }
  { apply list_lookup_insert_eq. eapply lookup_lt_Some, Ex1. }
  { unfold x2. cbn. rewrite Ed. apply F. }
  { apply (fi_wf _ _ _ _ _ _ F1). }
  { rewrite Esb. unfold x2. cbn [i_inum set]. by rewrite En. }
  { rewrite Esb. unfold x2. cbn [i_inum set]. rewrite En. apply Hib. }
  { rewrite Esb, (wframe_log _ _ (ft_frame _ _ _ _ _ _ _ _ _ _ _ _ _ T)). unfold x2. cbn [i_inum set]. by rewrite En. }
  { pose proof (ft_len _ _ _ _ _ _ _ _ _ _ _ _ _ T). lia. }
  rewrite (bind_ok _ _ _ _ _ E3). rewrite i32_id by lia. cbn [sino set k_fs sb] in I3. rewrite Esb in I3. change (i_inum x2) with (i_inum x1) in I3. rewrite En in I3.
  eexists _, _, _, x2. split; [reflexivity|]. eapply (back_written s1 a1 hb1 x1 T Hb); [exact I3|exact F3].
Qed.
End Writei.
End Update.
