(* ===== verification/FileThm.v ===== *)
(** * Theorems about the contents of files (kernel/fs.c)

    [readi] and [writei] inside a transaction, over the free map, the buffer
    cache and the log: the bytes of a file are those of the blocks its inode
    names.  [iupdate] and [ilock]: the inode itself survives on disk. *)

From S2P Require Import Prelude CInt Memory KMonad Riscv KState KString Blocks Spinlock Sched KAlloc Bio Log Fs Files.
From S2P Require Import LockProof BioList BioInv BioProof LogSpec Sample LogProof LogThm FsProof FsThm.
From S2P Require Import FileInv FileRead FileWrite FileUpdate.

(** The number of blocks that [n] bytes from [off] on lie in. *)
Definition span (off n : Z) : nat := if 0 <? n then Z.to_nat ((off + n - 1) / BSIZE - off / BSIZE + 1) else 0.

(** What [writei] of [n] bytes at [src] to offset [off] relies on: the offset
    does not leave a hole, the file does not grow beyond its largest size,
    there are free blocks and buffers, the source is kernel memory, and the
    inode lies in the blocks for inodes. *)
Record can_write `{DL : DiskLaws} (dv : Z) (s : kst) (a : cache) (hb : list Z) (ip : nat) (x : inode) (src off n : Z) : Prop := {
  cw_file : file_in dv s a hb ip x;
  cw_off : 0 <= off /\ 0 <= n /\ off <= i_size x /\ off + n <= MAXFILE * BSIZE;
  cw_free : free_atleast (sb (k_fs s)) (c_data a) (2 * span off n);
  cw_room : (S (length hb + 6 * span off n) < NBUF)%nat;
  cw_src : plain src n /\ ram_lo (k_mem s) <= src /\ src + n <= ram_hi (k_mem s);
  cw_inode : inode_block (sb (k_fs s)) (iblock (sb (k_fs s)) (i_inum x))
}.

Lemma read_count_range size off n : 0 <= n -> 0 <= read_count size off n <= n /\ off + read_count size off n <= Z.max off size.
Proof. intros Hn. unfold read_count. destruct (Z.ltb_spec size off), (Z.leb_spec (2 ^ 32) (off + n)); cbn; lia. Qed.

(** The blocks of the bitmap. *)
Definition bitmap_blocks (sb0 : superblock) : Z := (s_size sb0 - 1) / BPB + 1.

(** Distinct blocks of which each is one of the inode's block, the indirect
    block, those logged before, those of the bitmap and those of the range. *)
Lemma logged_count sb0 D x ib hb hb' off n :
  0 < s_size sb0 -> 0 <= off -> 0 <= n -> NoDup hb' ->
  (forall b, b ∈ hb' -> b = ib \/ b ∈ hb \/ (exists b', 0 <= b' < s_size sb0 /\ b = bmap_block sb0 b') \/ wanted (wJ off n) D x b) ->
  Z.of_nat (length hb') <= Z.of_nat (length hb) + Z.of_nat (span off n) + 2 + bitmap_blocks sb0.
Proof.
  intros Hs Ho Hn Hd Hb. set (lo := off / BSIZE).
  set (l := ib :: ind x :: hb ++ ((fun k => s_bmapstart sb0 + k) <$> seqZ 0 (bitmap_blocks sb0)) ++ (fblock D x <$> seqZ lo (Z.of_nat (span off n)))).
  assert (length hb' <= length l)%nat as Hl.
  { apply submseteq_length, NoDup_submseteq; [done|]. intros b Hin. unfold l. rewrite !elem_of_cons, !elem_of_app, !list_elem_of_fmap.
    destruct (Hb b Hin) as [?|[?|[(b' & Hb' & ->)|[_ [?|(i & Hj & Hi & <-)]]]]]; auto.
    - right. right. right. left. exists (b' / BPB). split; [done|]. apply elem_of_seqZ. unfold bitmap_blocks. change BPB with 8192. Z.div_mod_to_equations. lia.
    - right. right. right. right. exists i. split; [done|]. apply elem_of_seqZ. destruct Hj as [Hp Hj]. unfold span. rewrite (proj2 (Z.ltb_lt 0 n)) by done. lia. }
  unfold l in Hl. cbn [length] in Hl. rewrite !length_app, !length_fmap, !length_seqZ in Hl.
  assert (0 <= bitmap_blocks sb0) by (unfold bitmap_blocks; change BPB with 8192; Z.div_mod_to_equations; lia). lia.
Qed.

(** The inode [y] as [ilock] reads it from the disk [D] after [iupdate] of [x]. *)
Definition reread (sb0 : superblock) (D : Z -> list Z) (x y : inode) : inode :=
  if decide (i_inum y = i_inum x) then
    Inode (i_dev y) (i_inum y) (i_ref y) 1 (i_type x) (i_major x) (i_minor x) (i_nlink x) (i_size x) (i_addrs x)
  else get_dinode (D (iblock sb0 (i_inum y))) (ioff (i_inum y)) y.

Lemma reread_ok sb0 D x y ib : (forall b, length (D b) = bsize) -> dinode_fits x -> ib = iblock sb0 (i_inum x) ->
  get_dinode (dset D ib (put_dinode (D ib) (ioff (i_inum x)) x) (iblock sb0 (i_inum y))) (ioff (i_inum y)) y = reread sb0 D x y.
Proof.
  intros HD Hf ->. unfold reread, dset. destruct (decide (i_inum y = i_inum x)) as [Hn|Hn].
  - replace (iblock sb0 (i_inum y)) with (iblock sb0 (i_inum x)) by congruence. replace (ioff (i_inum y)) with (ioff (i_inum x)) by congruence.
    rewrite decide_True by done. apply get_put_dinode; [done|]. rewrite HD. apply ioff_range.
  - case_decide as Hb; [|done]. rewrite Hb. apply get_put_dinode_ne; [apply Hf|]. unfold iblock, ioff, sizeof_dinode in *.
    change IPB with 16 in *. Z.div_mod_to_equations. lia.
Qed.

Section Theorems.
Context `{DL : DiskLaws} (dv : Z) (Hrounds : (0 < rounds)%nat) (s : kst) (a : cache) (hb : list Z) (ip : nat) (x : inode).
Notation sb0 := (sb (k_fs s)).
Notation D := (c_data a).

Lemma can_write_ok src off n : can_write dv s a hb ip x src off n ->
  exists s' a' hb' x', writei ip false src off n s = Ok (n, s') /\ file_written dv s a hb ip x src off n s' a' hb' x'.
Proof using Hrounds. intros [F Ho Hf Hl [Hp Hb] Hi]. by apply writei_ok. Qed.

(** C21. Reading a file.  Of a file that is well formed, [readi] into kernel
    memory returns the count that the size allows (0 behind the end or when the
    sum of offset and count wraps), the bytes it stores are those of the
    file, and outside the destination and the disk buffers no byte of
    memory changes, nor do the inodes, the log or what the cache holds. *)
Theorem readi_correct dst off n :
  idle dv s a -> itable (k_fs s) !! ip = Some x -> i_dev x = dv -> file_wf sb0 D x ->
  0 <= off < 2 ^ 32 -> 0 <= n < 2 ^ 32 -> let c := read_count (i_size x) off n in
  plain dst c -> ram_lo (k_mem s) <= dst /\ dst + c <= ram_hi (k_mem s) ->
  exists s', readi ip false dst off n s = Ok (c, s') /\ cached dv s' a /\
    (forall k, 0 <= k < c -> byte_at (k_mem s') (dst + k) = fbyte D x (off + k)) /\
    same_off (fun y => in_bufs y \/ darea y \/ dst <= y < dst + c) (k_mem s) (k_mem s') /\
    itable (k_fs s') = itable (k_fs s) /\ logst (k_fs s') = logst (k_fs s) /\ 0 <= c <= n /\ off + c <= Z.max off (i_size x).
Proof using Hrounds.
  intros I Ex Ed W Ho Hn c Hp Hb. destruct (readi_ok dv Hrounds s a ip x dst off n I Ex Ed W Ho Hn Hp Hb) as (s' & E & C & [U M] & Hby).
  exists s'. split_and!; try done.
  - exact (f_equal itable U).
  - exact (f_equal logst U).
  - apply read_count_range. lia.
  - apply read_count_range. lia.
  - apply read_count_range. lia.
Qed.

(** C9. Writing a file.  Inside a transaction [writei] writes all [n] bytes:
    the file then has them from [off] on and every other byte as before, its
    size is the larger of the old one and the end of the write, the inode in
    memory and its image in the block of inodes agree, the file and the layout
    of the disk are well formed again, and nothing reaches the disk before the
    transaction commits. *)
Theorem writei_correct src off n :
  can_write dv s a hb ip x src off n ->
  exists s' a' hb' x', writei ip false src off n s = Ok (n, s') /\ file_in dv s' a' hb' ip x' /\
    x' = x <| i_addrs := i_addrs x' |> <| i_size := Z.max (i_size x) (off + n) |> /\
    itable (k_fs s') = <[ip := x']> (itable (k_fs s)) /\
    (forall j, 0 <= j < i_size x' ->
      fbyte (c_data a') x' j = if decide (off <= j < off + n) then byte_at (k_mem s) (src + (j - off)) else fbyte D x j) /\
    (let ib := iblock sb0 (i_inum x) in c_data a' ib = put_dinode (D ib) (ioff (i_inum x)) x') /\
    c_medium a' = c_medium a /\ c_trace a' = c_trace a.
Proof using Hrounds.
  intros (s' & a' & hb' & x' & E & [R1 R2 R3 R4 R5 R6 R7 R8 R9 R10 R11])%can_write_ok. destruct R11. by exists s', a', hb', x'.
Qed.

(** C10. Writing one file leaves the others alone.  Of files that are well
    formed and of which no two share a block, [writei] to one keeps all of them
    well formed and apart, the blocks it allocated included, and every byte of
    every other file. *)
Theorem writei_keeps_files src off n fs k :
  can_write dv s a hb ip x src off n -> files_wf sb0 D fs -> fs !! k = Some x ->
  exists s' a' x', writei ip false src off n s = Ok (n, s') /\ cached dv s' a' /\ itable (k_fs s') !! ip = Some x' /\
    fs_layout sb0 (log_area (logst (k_fs s))) (c_data a') /\ files_wf sb0 (c_data a') (<[k := x']> fs) /\
    forall i y j, i <> k -> fs !! i = Some y -> 0 <= j < i_size y -> fbyte (c_data a') y j = fbyte D y j.
Proof using Hrounds.
  intros Cw [Hw Hd] Hk. pose proof (fi_layout _ _ _ _ _ _ (cw_file _ _ _ _ _ _ _ _ _ Cw)) as Lay.
  destruct (can_write_ok _ _ _ Cw) as (s' & a' & hb' & x' & E & R). exists s', a', x'.
  pose proof (fr_in _ _ _ _ _ _ _ _ _ _ _ _ _ R) as [F1 F2 F3 F4 F5]. pose proof (fr_frame _ _ _ _ _ _ _ _ _ _ _ _ _ R) as Wf.
  rewrite (wframe_sb _ _ Wf), (wframe_log _ _ Wf) in *.
  assert (forall i y, i <> k -> fs !! i = Some y -> forall b, owns D y b -> is_data sb0 D b -> c_data a' b = D b /\ used sb0 (c_data a') b = true) as Hs.
  { intros i y Hi Hy b Ho Hb. pose proof (is_data_pos _ _ _ _ Lay Hb) as [? ?]. apply (fr_other _ _ _ _ _ _ _ _ _ _ _ _ _ R); [lia|apply Hb| |by eapply Hd|].
    - intros b' Hb'. by apply (is_data_bmap _ _ _ _ _ Lay Hb).
    - intros ->. destruct (cw_inode _ _ _ _ _ _ _ _ _ Cw) as [? _]. pose proof (bmap_block_range _ _ _ Lay (s_size sb0 - 1)).
      pose proof (Z.div_pos (s_size sb0 - 1) BPB ltac:(pose proof (fl_size _ _ _ Lay); lia) ltac:(done)). unfold bmap_block in *. lia. }
  split_and!; try done; [apply (io_cached _ _ _ _ _ F1)| |].
  - apply (files_update sb0 (log_area (logst (k_fs s))) D _ _ _ x); try done. apply (fr_new _ _ _ _ _ _ _ _ _ _ _ _ _ R).
  - intros i y j Hi Hy Hj. eapply apart_byte; [exact Lay|by eapply Hw|by eapply Hs|done].
Qed.


(** C22. What is written is read back: [readi] of the range just written by
    [writei] returns all of it and stores the bytes that were at the source. *)
Theorem writei_readi src dst off n :
  can_write dv s a hb ip x src off n -> plain dst n -> ram_lo (k_mem s) <= dst /\ dst + n <= ram_hi (k_mem s) ->
  exists s', (r <- writei ip false src off n ;; r' <- readi ip false dst off n ;; ret (r, r')) s = Ok ((n, n), s') /\
    forall k, 0 <= k < n -> byte_at (k_mem s') (dst + k) = byte_at (k_mem s) (src + k).
Proof using Hrounds.
  intros Cw Hp Hb. destruct (can_write_ok _ _ _ Cw) as (s1 & a1 & hb1 & x1 & E & R). rewrite (bind_ok _ _ _ _ _ E).
  pose proof (fr_in _ _ _ _ _ _ _ _ _ _ _ _ _ R) as [F1 F2 F3 F4 F5]. destruct (wframe_mem _ _ (fr_frame _ _ _ _ _ _ _ _ _ _ _ _ _ R)) as (Hlo & Hhi & _).
  pose proof (cw_off _ _ _ _ _ _ _ _ _ Cw) as Ho. change (MAXFILE * BSIZE) with 274432 in Ho.
  assert (i_size x1 = Z.max (i_size x) (off + n)) as Es by (rewrite (fr_inode _ _ _ _ _ _ _ _ _ _ _ _ _ R); done).
  assert (read_count (i_size x1) off n = n) as Ec.
  { unfold read_count. rewrite Es. destruct (Z.ltb_spec (Z.max (i_size x) (off + n)) off), (Z.leb_spec (2 ^ 32) (off + n)); cbn; lia. }
  destruct (readi_ok dv Hrounds s1 a1 ip x1 dst off n (in_op_idle dv Hrounds _ _ _ F1) F2 F3 F5) as (s2 & E2 & _ & _ & Hby); rewrite ?Ec, ?Hlo, ?Hhi in *; try lia; try done.
  rewrite (bind_ok _ _ _ _ _ E2). exists s2. split; [done|]. intros k Hk. rewrite Hby by done.
  rewrite (fr_bytes _ _ _ _ _ _ _ _ _ _ _ _ _ R), decide_True by lia. f_equal. lia.
Qed.

(** C23. Inodes survive on disk.  After [iupdate] of an inode whose fields fit the
    on-disk struct, [ilock] of a table entry whose contents were not read yet
    takes the lock and loads, for the same inode number, exactly the fields
    that [iupdate] stored, and for every other number what was on disk before;
    nothing else in the table changes. *)
Theorem iupdate_ilock jp y :
  let ib := iblock sb0 (i_inum x) in
  in_op dv ∅ s a hb -> fs_layout sb0 (log_area (logst (k_fs s))) D -> inode_block sb0 ib ->
  (S (length hb) < NBUF)%nat -> itable (k_fs s) !! ip = Some x -> i_dev x = dv -> dinode_fits x ->
  (jp < NINODE)%nat -> itable (k_fs s) !! jp = Some y -> 1 <= i_ref y /\ i_valid y = 0 /\ i_dev y = dv ->
  0 <= iblock sb0 (i_inum y) < s_size sb0 -> sl_locked (sleep_of (SLinode jp) s) = 0 -> i_type (reread sb0 D x y) <> 0 ->
  exists s', (iupdate ip ;;; ilock (Some jp)) s = Ok (tt, s') /\ itable (k_fs s') = <[jp := reread sb0 D x y]> (itable (k_fs s)) /\
    sl_locked (sleep_of (SLinode jp) s') = 1.
Proof using Hrounds.
  intros ib I Lay [Hi1 Hi2] Hl Ex Ed Hf Hjp Ey Hy Hib Hlk Ht. pose proof (fl_log _ _ _ Lay). pose proof (fl_size _ _ _ Lay). change LOGSIZE with 30 in *.
  destruct (iupdate_ok dv Hrounds s a hb ip x I Ex Ed) as (s1 & b & E1 & I1 & F1); fold ib; [apply Hf|lia|done|unfold off_log, in_log; lia|done|].
  rewrite (bind_ok _ _ _ _ _ E1). pose proof (same_fs_itable _ _ F1) as Et. pose proof (same_fs_sb _ _ F1) as Es.
  pose proof (reread_ok sb0 D x y ib (fl_length _ _ _ Lay) Hf eq_refl) as Er.
  destruct (ilock_ok dv Hrounds s1 _ jp y (in_op_idle dv Hrounds _ _ _ I1)) as (s2 & E2 & _ & Et2 & Hl2); rewrite ?Et, ?Es; try done.
  - change (sl_locked (sleep_of (SLinode jp) (slog (fun _ => logst (k_fs s)) s1)) = 0). by rewrite (o_isleep _ _ (proj2 F1)).
  - split; [done|lia].
  - change (i_type (get_dinode (dset D ib (put_dinode (D ib) (ioff (i_inum x)) x) (iblock sb0 (i_inum y))) (ioff (i_inum y)) y) <> 0). by rewrite Er.
  - exists s2. split_and!; [done| |done]. rewrite Et2, Et, Es. f_equal. exact Er.
Qed.

(** [writei] refuses an offset behind the end of the file, a range whose end
    wraps around and one beyond the largest size of a file: it returns -1 and
    changes nothing, wherever the source is. *)
Theorem writei_rejects user src off n :
  itable (k_fs s) !! ip = Some x -> 0 <= off < 2 ^ 32 -> 0 <= n < 2 ^ 32 ->
  i_size x < off \/ 2 ^ 32 <= off + n \/ MAXFILE * BSIZE < off + n -> writei ip user src off n s = Ok (-1, s).
Proof using.
  clear Hrounds. intros Ex Ho Hn Hr. unfold writei. rewrite (bind_ok _ _ _ _ _ (getinode_eq _ _ _ Ex)).
  destruct (Z.ltb_spec (i_size x) off); [done|]. cbn [orb].
  destruct (Z.ltb_spec (u32 (off + n)) off) as [|Hu]; [done|].
  assert (off + n < 2 ^ 32). { apply Z.nle_gt. intros Hg. unfold u32 in Hu. replace ((off + n) mod 2 ^ 32) with (off + n - 2 ^ 32) in Hu by (Z.div_mod_to_equations; lia). lia. }
  rewrite u32_id by lia. by rewrite (proj2 (Z.ltb_lt (MAXFILE * BSIZE) (off + n))) by lia.
Qed.
End Theorems.

(** ** Two files of the small file system

    An empty one and one of five bytes in block 47. *)

Definition small_inode : inode := Inode 1 1 1 1 2 0 0 1 0 (replicate 13 0).
Definition small_inode2 : inode := Inode 1 2 1 1 2 0 0 1 5 (47 :: replicate 12 0).
Definition small_D : Z -> list Z := tmedium (TDev small_hist).

Lemma small_fblock i : 0 <= i -> fblock small_D small_inode i = 0.
Proof.
  intros Hi. unfold fblock. destruct (i <? NDIRECT); [|done]. unfold addr, small_inode, i_addrs.
  destruct (replicate 13 0 !! Z.to_nat i) eqn:E; [|done]. by apply lookup_replicate in E as [-> _].
Qed.
Lemma small_fblock2 i : 0 <= i -> fblock small_D small_inode2 i = if i =? 0 then 47 else 0.
Proof.
  intros Hi. unfold fblock. destruct (Z.eqb_spec i 0) as [->|Hn]; [done|]. destruct (i <? NDIRECT); [|done]. unfold addr, small_inode2, i_addrs.
  replace (Z.to_nat i) with (S (Z.to_nat (i - 1))) by lia. rewrite lookup_cons_ne_0 by done. cbn [pred].
  destruct (replicate 12 0 !! Z.to_nat (i - 1)) eqn:E; [|done]. by apply lookup_replicate in E as [-> _].
Qed.

Lemma small_wf : file_wf small_sb small_D small_inode.
Proof.
  split; try done.
  - intros i [Hi _]. by rewrite small_fblock.
  - intros i j [Hi _] _. by rewrite small_fblock.
  - intros i Hi Hs. cbn [small_inode i_size] in Hs. change BSIZE with 1024 in Hs. lia.
Qed.
Lemma small_wf2 : file_wf small_sb small_D small_inode2.
Proof.
  split; try done.
  - intros i [Hi _]. rewrite small_fblock2 by done. destruct (i =? 0); [|done]. intros _. split; [done|]. by apply small_used.
  - intros i j [Hi _] [Hj _]. rewrite !small_fblock2 by done. destruct (Z.eqb_spec i 0), (Z.eqb_spec j 0); try done. lia.
  - intros i Hi Hs. rewrite small_fblock2 by done. cbn [small_inode2 i_size] in Hs. change BSIZE with 1024 in Hs. by assert (i = 0) as -> by lia.
Qed.
Lemma small_files : files_wf small_sb small_D [small_inode; small_inode2].
Proof.
  assert (forall b, ~ owns small_D small_inode b) as Hn.
  { intros b [Hb [->|(i & [Hi _] & E)]]; [done|]. by rewrite small_fblock in E by done. }
  split.
  - intros [|[|i]] y [= <-]; [apply small_wf|apply small_wf2].
  - intros [|[|i]] [|[|j]] y z b [= <-] [= <-] Hij Ho Ho'; try done; by eapply Hn.
Qed.

(** The state in which they are the inodes in memory. *)
Lemma small_state : exists s, in_op 1 ∅ s (fresh_view (kboot small_hist)) [] /\ itable (k_fs s) = [small_inode; small_inode2] /\
  sb (k_fs s) = small_sb /\ logst (k_fs s) = sample_log /\ ram_lo (k_mem s) = 0x1000 /\ ram_hi (k_mem s) = 0x20000.
Proof.
  destruct small_op as (s & I & Es & El & Hlo & Hhi & _). exists (sino (fun _ => [small_inode; small_inode2]) s). split_and!; try done.
  by apply in_op_sino.
Qed.
Lemma small_plain lo n : lo + n <= 0x10000 -> plain lo n.
Proof. intros Hn y Hy. split; [|by intros []]. intros (b & Hb & [Hi _]). unfold buf_data in Hi. change sym_bcache with 0x10000 in Hi. change sizeof_buf with 1112 in Hi. change off_buf_data with 88 in Hi. lia. Qed.
Lemma small_can_write : exists s, can_write 1 s (fresh_view (kboot small_hist)) [] 0 small_inode 0x2000 0 1500 /\
  itable (k_fs s) = [small_inode; small_inode2] /\ sb (k_fs s) = small_sb /\ ram_lo (k_mem s) = 0x1000 /\ ram_hi (k_mem s) = 0x20000.
Proof.
  destruct small_state as (s & I & Ei & Es & El & Hlo & Hhi). exists s. split; [|done].
  split; rewrite ?Es, ?El; try done.
  - split; rewrite ?Ei, ?Es, ?El; try done; [apply small_layout|apply small_wf].
  - exists [48; 49; 50; 51]. split_and!; [by apply (bool_decide_unpack _)|done|].
    intros b Hb. assert (b = 48 \/ b = 49 \/ b = 50 \/ b = 51) as Hc by set_solver. by destruct Hc as [-> | [-> | [-> | ->]]].
  - change (13 < 30)%nat. lia.
  - rewrite Hlo, Hhi. split; [by apply small_plain|done].
Qed.

Lemma readi_correct_witness : exists s s', sb (k_fs s) = small_sb /\ readi 1 false 0x2000 2 10 s = Ok (3, s') /\
  byte_at (k_mem s') 0x2000 = fbyte small_D small_inode2 2.
Proof.
  destruct small_state as (s & I & Ei & Es & El & Hlo & Hhi). exists s.
  destruct (readi_correct 1 sample_rounds s (fresh_view (kboot small_hist)) 1 small_inode2 0x2000 2 10) as (s' & E & _ & Hb & _);
    rewrite ?Ei, ?Es, ?Hlo, ?Hhi; try done; [exact (in_op_idle 1 sample_rounds _ _ _ I)|apply small_wf2|by apply small_plain|].
  exists s'. split_and!; [done|done|]. by apply (Hb 0).
Defined.

Lemma writei_correct_witness : exists s s' a' x', writei 0 false 0x2000 0 1500 s = Ok (1500, s') /\
  itable (k_fs s') = [x'; small_inode2] /\ i_size x' = 1500 /\ fbyte (c_data a') x' 1200 = byte_at (k_mem s) (0x2000 + 1200).
Proof.
  destruct small_can_write as (s & Cw & Ei & Es & _). exists s.
  destruct (writei_correct 1 sample_rounds _ _ _ _ _ _ _ _ Cw) as (s' & a' & hb' & x' & E & _ & Ex & Et & Hb & _).
  exists s', a', x'. rewrite Ei in Et. assert (i_size x' = 1500) as Hs by by rewrite Ex. split_and!; try done. by rewrite Hb by lia.
Defined.

Lemma writei_keeps_files_witness : exists s s' a' x', writei 0 false 0x2000 0 1500 s = Ok (1500, s') /\
  files_wf small_sb (c_data a') [x'; small_inode2] /\ fbyte (c_data a') small_inode2 4 = fbyte small_D small_inode2 4.
Proof.
  destruct small_can_write as (s & Cw & Ei & Es & _). exists s.
  destruct (writei_keeps_files 1 sample_rounds _ _ _ _ _ _ _ _ [small_inode; small_inode2] 0 Cw) as (s' & a' & x' & E & _ & _ & _ & Hf & Hb);
    rewrite ?Es; [apply small_files|done|]. rewrite Es in Hf. exists s', a', x'. split_and!; try done. by apply (Hb 1%nat).
Defined.


Lemma writei_readi_witness : exists s s', sb (k_fs s) = small_sb /\
  (r <- writei 0 false 0x2000 0 1500 ;; r' <- readi 0 false 0x4000 0 1500 ;; ret (r, r')) s = Ok ((1500, 1500), s') /\
  byte_at (k_mem s') (0x4000 + 1499) = byte_at (k_mem s) (0x2000 + 1499).
Proof.
  destruct small_can_write as (s & Cw & Ei & Es & Hlo & Hhi). exists s.
  destruct (writei_readi 1 sample_rounds _ _ _ _ _ 0x2000 0x4000 0 1500 Cw) as (s' & E & Hb); rewrite ?Hlo, ?Hhi; try done; [by apply small_plain|].
  exists s'. split_and!; [done|done|]. by apply Hb.
Defined.

Lemma iupdate_ilock_witness : exists s s', sb (k_fs s) = small_sb /\ (iupdate 0 ;;; ilock (Some 1%nat)) s = Ok (tt, s') /\
  itable (k_fs s') = [small_inode2; small_inode2].
Proof.
  destruct small_op as (s & I & Es & El & _ & _ & Hl). set (y := Inode 1 2 1 0 0 0 0 0 0 (replicate 13 0)).
  exists (sino (fun _ => [small_inode2; y]) s).
  destruct (iupdate_ilock 1 sample_rounds (sino (fun _ => [small_inode2; y]) s) (fresh_view (kboot small_hist)) [] 0 small_inode2 1 y) as (s' & E & Et & _).
  - by apply in_op_sino.
  - change (fs_layout (sb (k_fs s)) (log_area (logst (k_fs s))) small_D). rewrite Es, El. apply small_layout.
  - change (inode_block (sb (k_fs s)) (iblock (sb (k_fs s)) 2)). by rewrite Es.
  - unfold NBUF. cbn. lia.
  - done.
  - done.
  - split; [repeat constructor; cbn; lia|done|split; [done|repeat constructor; cbn; lia]].
  - unfold NINODE. lia.
  - done.
  - done.
  - change (0 <= iblock (sb (k_fs s)) 2 < s_size (sb (k_fs s))). by rewrite Es.
  - done.
  - done.
  - exists s'. done.
Defined.

Lemma writei_rejects_witness : exists s, sb (k_fs s) = small_sb /\ writei 1 true 0 6 1 s = Ok (-1, s) /\ writei 1 true 0 5 274428 s = Ok (-1, s).
Proof.
  destruct small_state as (s & _ & Ei & Es & _). exists s.
  split_and!; [done| |]; apply (writei_rejects s 1 small_inode2); rewrite ?Ei; try done; cbn [small_inode2 i_size]; change (MAXFILE * BSIZE) with 274432; lia.
Defined.
