(* ===== verification/LockThm.v ===== *)
(** * Theorems about locks, wakeups and the locked allocators *)

From S2P Require Import Prelude CInt Memory KMonad Riscv KState Buddy Slab Spinlock Sched Vm KAlloc.
From S2P Require Import LockProof BioInv Sample.

Section Locked.
Context `{MC : Machine}.

(** A computation on the RAM between [acquire] and [release] of a free lock is
    the computation alone. *)
Section OnRam.
Context {A : Type} (lk : lockid) (s : kst) (Hc : cpu_ok 1 s) (Hf : lock_free lk s).

Lemma unlock_ram (c : M ram A) : (x <- onram c ;; release lk ;;; ret x) (lockd lk s) = onram c s.
Proof using All.
  unfold onram, zoom, bind at 1. change (k_mem (lockd lk s)) with (k_mem s).
  destruct (c (k_mem s)) as [[x m]| | | |]; try done. set (s' := s <| k_mem := m |>).
  assert (release lk (lockd lk s') = Ok (tt, s')) as E by (by apply release_ok). unfold bind.
  change ((lockd lk s) <| k_mem := m |>) with (lockd lk s'). by rewrite E.
Qed.
Lemma lock_ram {B} (c : K B) : (acquire lk ;;; c) s = c (lockd lk s).
Proof using Hc Hf. by rewrite (bind_ok _ _ _ _ _ (acquire_ok 1 _ _ ltac:(lia) Hc Hf)). Qed.
End OnRam.

Lemma unlock_ram_unit lk s (c : M ram unit) :
  cpu_ok 1 s -> lock_free lk s -> (onram c ;;; release lk) (lockd lk s) = onram c s.
Proof.
  intros Hc Hf. rewrite <- (unlock_ram lk s Hc Hf c). unfold bind.
  destruct (onram c _) as [[[] t]| | | |]; try done. by destruct (release lk t) as [[[] ?]| | | |].
Qed.
End Locked.

(** ** Code over the locked allocator

    [Same mem c d]: on a state whose allocator record is [mem] and whose buddy
    lock is free, the kernel computation [c] is [d] on the RAM. *)

Definition calm `{Machine} (mem : buddy_allocator) (s : kst) : Prop :=
  cpu_ok 1 s /\ lock_free Lbuddy s /\ k_buddy s = mem.
Class Same `{Machine} {A} (mem : buddy_allocator) (c : K A) (d : M ram A) : Prop :=
  same s : calm mem s -> c s = onram d s.

Section Same.
Context `{MC : Machine} (mem : buddy_allocator).
Notation Same := (Same mem).
Notation bare_alloc := (Buddy.lib_buddy_alloc mem).
Notation bare_free := (Buddy.lib_buddy_free riscv64 mem).

Lemma same_ret {A} (a : A) : Same (ret a) (ret a).
Proof. intros s _. by destruct s. Qed.
Lemma same_panic {A} msg : Same (panic (A := A) msg) (panic msg).
Proof. by intros s _. Qed.
Lemma same_diverge {A} : Same (diverge (A := A)) diverge.
Proof. by intros s _. Qed.
Lemma same_assert n b : Same (assert_line n b) (assert_line n b).
Proof. intros s _. unfold assert_line, onram, zoom. destruct b; [by destruct s|done]. Qed.
Lemma same_inram {A} (d : M ram A) : Same (inram d) (inram d).
Proof. by intros s _. Qed.
Lemma same_bind {A B} (c : K A) d (k : A -> K B) k' :
  Same c d -> (forall a, Same (k a) (k' a)) -> Same (bind c k) (bind d k').
Proof.
  intros Hc Hk s Hs. unfold bind at 1. rewrite (Hc s Hs). unfold onram, zoom, bind at 1.
  destruct (d (k_mem s)) as [[a m]| | | |]; [|done..]. apply (Hk a). exact Hs.
Qed.
Lemma same_alloc n : Same (buddy_alloc n) (bare_alloc n).
Proof.
  intros s (Hc & Hf & Hm). unfold buddy_alloc. rewrite lock_ram by done.
  change (gets k_buddy (lockd Lbuddy s)) with (gets k_buddy s). unfold gets, bind at 1.
  change (k_buddy (lockd Lbuddy s)) with (k_buddy s). rewrite Hm. by apply (unlock_ram Lbuddy).
Qed.
Lemma same_free p : Same (buddy_free p) (bare_free p).
Proof.
  intros s (Hc & Hf & Hm). unfold buddy_free. rewrite lock_ram by done. unfold gets, bind at 1.
  change (k_buddy (lockd Lbuddy s)) with (k_buddy s). rewrite Hm. by apply (unlock_ram_unit Lbuddy).
Qed.

Ltac same_tac :=
  repeat first
    [ apply same_ret | apply same_panic | apply same_diverge | apply same_assert | apply same_inram
    | apply same_alloc | apply same_free | done
    | match goal with H : forall _, _ |- _ => apply H end
    | apply same_bind; [|intros]
    | progress cbv zeta
    | case_match ].

(** *** Virtual memory *)

Lemma same_walk pt va al : Same (walk buddy_alloc pt va al) (walk bare_alloc pt va al).
Proof.
  assert (forall n p, Same (walk_loop buddy_alloc va al n p) (walk_loop bare_alloc va al n p)) as Hl.
  { induction n; intros p; cbn [walk_loop]; unfold Vm.kalloc; same_tac. }
  unfold walk. same_tac.
Qed.
Lemma same_walkaddr pt va : Same (walkaddr buddy_alloc pt va) (walkaddr bare_alloc pt va).
Proof. unfold walkaddr. pose proof same_walk. same_tac. Qed.
Lemma same_mappages pt va sz pa perm : Same (mappages buddy_alloc pt va sz pa perm) (mappages bare_alloc pt va sz pa perm).
Proof.
  pose proof same_walk.
  assert (forall l n a p, Same (mappages_loop buddy_alloc pt l perm n a p) (mappages_loop bare_alloc pt l perm n a p)) as Hl.
  { intros l n. induction n; intros a p; cbn [mappages_loop]; same_tac. }
  unfold mappages. same_tac.
Qed.
Lemma same_uvmunmap pt va n f : Same (uvmunmap buddy_alloc buddy_free pt va n f) (uvmunmap bare_alloc bare_free pt va n f).
Proof.
  pose proof same_walk.
  assert (forall l k a, Same (uvmunmap_loop buddy_alloc buddy_free pt l f k a) (uvmunmap_loop bare_alloc bare_free pt l f k a)) as Hl.
  { intros l k. induction k; intros a; cbn [uvmunmap_loop]; unfold Vm.kfree; same_tac. }
  unfold uvmunmap. same_tac.
Qed.
Lemma same_uvmdealloc pt o n : Same (uvmdealloc buddy_alloc buddy_free pt o n) (uvmdealloc bare_alloc bare_free pt o n).
Proof. pose proof same_uvmunmap. unfold uvmdealloc. same_tac. Qed.
Lemma same_uvmalloc pt o n x : Same (uvmalloc buddy_alloc buddy_free pt o n x) (uvmalloc bare_alloc bare_free pt o n x).
Proof.
  pose proof same_mappages. pose proof same_uvmdealloc.
  assert (forall o k a, Same (uvmalloc_loop buddy_alloc buddy_free pt o n x k a) (uvmalloc_loop bare_alloc bare_free pt o n x k a)) as Hl.
  { intros o' k. induction k; intros a; cbn [uvmalloc_loop]; unfold Vm.kalloc, Vm.kfree; same_tac. }
  unfold uvmalloc. same_tac.
Qed.
Lemma same_uvmcreate : Same (uvmcreate buddy_alloc) (uvmcreate bare_alloc).
Proof. unfold uvmcreate, Vm.kalloc. same_tac. Qed.
Lemma same_uvmfree pt sz : Same (uvmfree buddy_alloc buddy_free pt sz) (uvmfree bare_alloc bare_free pt sz).
Proof.
  pose proof same_uvmunmap.
  assert (forall d p, Same (freewalk buddy_free d p) (freewalk bare_free d p)) as Hf.
  { induction d as [|d IH]; intros p; cbn [freewalk]; unfold Vm.kfree; [same_tac|].
    assert (forall k i, Same (freewalk_loop (freewalk buddy_free d) p k i) (freewalk_loop (freewalk bare_free d) p k i)) as Hl.
    { induction k; intros i; cbn [freewalk_loop]; same_tac. }
    same_tac. }
  unfold uvmfree. same_tac.
Qed.
Lemma same_uvmcopy old new sz : Same (uvmcopy buddy_alloc buddy_free old new sz) (uvmcopy bare_alloc bare_free old new sz).
Proof.
  pose proof same_walk. pose proof same_mappages. pose proof same_uvmunmap.
  assert (forall k i, Same (uvmcopy_loop buddy_alloc buddy_free old new sz k i) (uvmcopy_loop bare_alloc bare_free old new sz k i)) as Hl.
  { induction k; intros i; cbn [uvmcopy_loop]; unfold Vm.kalloc, Vm.kfree; same_tac. }
  unfold uvmcopy. same_tac.
Qed.
Lemma same_copyout pt va src len : Same (copyout buddy_alloc pt va src len) (copyout bare_alloc pt va src len).
Proof.
  pose proof same_walkaddr.
  assert (forall k v a n, Same (copyout_loop buddy_alloc pt k v a n) (copyout_loop bare_alloc pt k v a n)) as Hl.
  { induction k; intros v a n; cbn [copyout_loop]; same_tac. }
  apply Hl.
Qed.
Lemma same_copyin pt dst va len : Same (copyin buddy_alloc pt dst va len) (copyin bare_alloc pt dst va len).
Proof.
  pose proof same_walkaddr.
  assert (forall k v a n, Same (copyin_loop buddy_alloc pt k v a n) (copyin_loop bare_alloc pt k v a n)) as Hl.
  { induction k; intros v a n; cbn [copyin_loop]; same_tac. }
  apply Hl.
Qed.
Lemma same_copyinstr pt dst va max : Same (copyinstr buddy_alloc pt dst va max) (copyinstr bare_alloc pt dst va max).
Proof.
  pose proof same_walkaddr.
  assert (forall k v a n, Same (copyinstr_loop buddy_alloc pt k v a n) (copyinstr_loop bare_alloc pt k v a n)) as Hl.
  { induction k; intros v a n; cbn [copyinstr_loop]; same_tac. }
  apply Hl.
Qed.

(** *** The slab library

    The slab with the library's functions in place of the locked ones. *)
Definition bare_slab (sl : slab_alloc_t kst) : slab_alloc_t ram :=
  SlabAlloc (Slab.lists sl) (Slab.pgsize sl) (Slab.ssize sl) (Slab.cells sl) bare_alloc bare_free (Slab.pgbegin sl).

Section Slabs.
Context (sl : slab_alloc_t kst).
Hypothesis Ha : Slab.buddy_alloc sl = buddy_alloc.
Hypothesis Hf : Slab.buddy_free sl = buddy_free.

Lemma find_page_bare k i : find_page sl k i = find_page (bare_slab sl) k i.
Proof using. revert i. induction k as [|k IH]; intros i; [done|]. cbn [find_page]. by rewrite IH. Qed.

Lemma same_slab_alloc : Same (lib_slab_alloc sl) (lib_slab_alloc (bare_slab sl)).
Proof using Ha.
  unfold lib_slab_alloc, new_page. rewrite Ha, find_page_bare. same_tac.
Qed.
Lemma same_slab_free p : Same (lib_slab_free sl p) (lib_slab_free (bare_slab sl) p).
Proof using Hf. unfold lib_slab_free. rewrite Hf. same_tac. Qed.
End Slabs.
End Same.
(** C31. When their locks are free, the locked allocators of the kernel are the
    library calls on the kernel's RAM.  [buddy_alloc] and [buddy_free] return
    what the library returns, change the RAM as it does and nothing else, and
    fail as it fails; and so do the allocation and release of an object of
    slab [k], in which the slab library calls the locked [buddy_alloc] and
    [buddy_free] while the lock of the slab is held: they are the slab library
    over the bare buddy library. *)
Theorem allocators_locked `{MC : Machine} (s : kst) (k : nat) (n p : Z) :
  cpu_ok 2 s -> lock_free Lbuddy s -> lock_free (Lslab k) s ->
  let mem := k_buddy s in
  let slab := bare_slab mem (slab_record (default (0, 0, 0) (k_slabs s !! k))) in
  buddy_alloc n s = onram (Buddy.lib_buddy_alloc mem n) s /\
  buddy_free p s = onram (Buddy.lib_buddy_free riscv64 mem p) s /\
  kslab_alloc k s = onram (Slab.lib_slab_alloc slab) s /\
  kslab_free k p s = onram (Slab.lib_slab_free slab p) s.
Proof.
  intros Hc Hb Hs mem slab. pose proof (cpu_ok_le 2 1 s ltac:(lia) Hc) as Hc1.
  assert (calm mem (lockd (Lslab k) s)) as Hcalm.
  { split_and!; [by apply cpu_ok_lockd|by apply lock_free_lockd|done]. }
  split_and!.
  - by apply same_alloc.
  - by apply same_free.
  - unfold kslab_alloc. rewrite lock_ram by done. rewrite <- (unlock_ram (Lslab k) s Hc1 Hs).
    unfold getslab. rewrite bind_assoc. unfold gets, bind at 1. cbn beta iota. rewrite bind_ret.
    change (k_slabs (lockd (Lslab k) s)) with (k_slabs s). destruct (default _ _) as [[l z] c].
    unfold bind at 1. by rewrite (same_slab_alloc mem (slab_record (l, z, c)) eq_refl _ Hcalm).
  - unfold kslab_free. rewrite lock_ram by done. rewrite <- (unlock_ram_unit (Lslab k) s _ Hc1 Hs).
    unfold getslab. rewrite bind_assoc. unfold gets, bind at 1. cbn beta iota. rewrite bind_ret.
    change (k_slabs (lockd (Lslab k) s)) with (k_slabs s). destruct (default _ _) as [[l z] c].
    unfold bind at 1. by rewrite (same_slab_free mem (slab_record (l, z, c)) eq_refl _ _ Hcalm).
Qed.

(** C0. The virtual-memory code of the kernel runs over [kalloc] and [kfree],
    which take the lock of the page allocator at every call.  When this lock is
    free, growing, shrinking, duplicating and releasing an address space,
    mapping pages and copying between kernel and user memory are the same
    operations over the bare library, in result, in the changes of the RAM and
    in the errors; so what is proved of them there holds in the kernel. *)
Theorem vm_locked `{MC : Machine} (s : kst) (pt : Z) :
  cpu_ok 1 s -> lock_free Lbuddy s ->
  let pga := Buddy.lib_buddy_alloc (k_buddy s) in let pgf := Buddy.lib_buddy_free riscv64 (k_buddy s) in
  (forall va sz pa perm, onvm (fun al _ => mappages al pt va sz pa perm) s = onram (mappages pga pt va sz pa perm) s) /\
  (forall va n f, onvm (fun al fr => uvmunmap al fr pt va n f) s = onram (uvmunmap pga pgf pt va n f) s) /\
  (forall o n x, onvm (fun al fr => uvmalloc al fr pt o n x) s = onram (uvmalloc pga pgf pt o n x) s) /\
  (forall o n, onvm (fun al fr => uvmdealloc al fr pt o n) s = onram (uvmdealloc pga pgf pt o n) s) /\
  (forall new sz, onvm (fun al fr => uvmcopy al fr pt new sz) s = onram (uvmcopy pga pgf pt new sz) s) /\
  (forall sz, onvm (fun al fr => uvmfree al fr pt sz) s = onram (uvmfree pga pgf pt sz) s) /\
  (forall va src len, onvm (fun al _ => copyout al pt va src len) s = onram (copyout pga pt va src len) s) /\
  (forall dst va len, onvm (fun al _ => copyin al pt dst va len) s = onram (copyin pga pt dst va len) s) /\
  (forall dst va max, onvm (fun al _ => copyinstr al pt dst va max) s = onram (copyinstr pga pt dst va max) s).
Proof.
  intros Hc Hf pga pgf. assert (calm (k_buddy s) s) as Hs by done. split_and!; intros; unfold onvm.
  - by apply same_mappages.
  - by apply same_uvmunmap.
  - by apply same_uvmalloc.
  - by apply same_uvmdealloc.
  - by apply same_uvmcopy.
  - by apply same_uvmfree.
  - by apply same_copyout.
  - by apply same_copyin.
  - by apply same_copyinstr.
Qed.

(** ** A machine with a slab

    Eight pages from 0x2000 on for the page allocator, and slab 3 for pipes. *)

Definition slab_boot : option (buddy_allocator * (Z * Z * Z) * ram) :=
  let m := k_mem (kboot []) in
  match lib_buddy_init (Buddy.Buddy 0 0 0 0 0 0) 3 PGSIZE 8 0x2000 m with
  | Ok ((_, mem), m) =>
      match lib_slab_init (SlabAlloc 0 0 0 0 (lib_buddy_alloc mem) (lib_buddy_free riscv64 mem) pgbegin)
              PGSIZE sizeof_pipe (lib_buddy_alloc mem) (lib_buddy_free riscv64 mem) pgbegin m with
      | Ok (sl, m) => Some (mem, (Slab.lists sl, Slab.ssize sl, Slab.cells sl), m)
      | _ => None
      end
  | _ => None
  end.
Definition slab_kst : kst :=
  match slab_boot with
  | Some (mem, x, m) => (kboot []) <| k_buddy := mem |> <| k_slabs := replicate 4 x |> <| k_mem := m |>
  | None => kboot []
  end.
Lemma slab_kst_quiet : quiet slab_kst.
Proof. unfold slab_kst. destruct slab_boot as [[[mem x] m]|]; [|apply quiet_kboot]. by apply (quiet_ext (kboot [])), quiet_kboot. Qed.

Definition ok_val {S A} (r : res (A * S)) : option A := match r with Ok (a, _) => Some a | _ => None end.

Lemma allocators_locked_witness : exists p,
  ok_val (kslab_alloc 3 slab_kst) = Some p /\ p <> 0 /\ ok_val (buddy_alloc 1 slab_kst) <> Some 0.
Proof.
  destruct (allocators_locked slab_kst 3 1 0) as (E1 & _ & E2 & _).
  - apply (quiet_cpu 2); [lia|apply slab_kst_quiet].
  - by apply (q_locks _ slab_kst_quiet).
  - apply (q_locks _ slab_kst_quiet). cbn. lia.
  - rewrite E1, E2. eexists. split_and!; [by vm_compute|done|by vm_compute].
Defined.

Lemma vm_locked_witness :
  ok_val (onvm (fun al _ => mappages al 0x5000 0 PGSIZE 0x8000 0) slab_kst) = Some 0.
Proof.
  destruct (vm_locked slab_kst 0x5000) as (E & _).
  - apply (quiet_cpu 1); [lia|apply slab_kst_quiet].
  - by apply (q_locks _ slab_kst_quiet).
  - rewrite E. by vm_compute.
Defined.

(** [wakeup] makes every process runnable that sleeps on the channel, the
    caller excepted, and changes nothing else: not the other processes, not the
    locks, not the interrupt state. *)
Theorem wakeup_exact `{MC : Machine} (s : kst) (ch : chan) :
  cpu_ok 2 s -> procs_free s ->
  exists s', wakeup ch s = Ok (tt, s') /\
    s' = set k_ptable (set procs (fun _ => procs (k_ptable s'))) s /\
    forall i p, procs (k_ptable s) !! i = Some p ->
      procs (k_ptable s') !! i = Some
        (if decide (me s <> Some i /\ p_state p = SLEEPING /\ p_chan p = Some ch)
         then p <| p_state := RUNNABLE |> else p).
Proof.
  intros Hc Hp. exists (woken (Some ch) s). split_and!; [by apply (wakeup_ptr_ok 2)|done|].
  intros i p Hi. unfold woken, set. cbn. rewrite list_lookup_imap, Hi. cbn. f_equal. unfold wake.
  case_decide as Hd; repeat case_bool_decide; cbn; tauto.
Qed.

Lemma wakeup_exact_witness : exists s', wakeup Cticks (kboot []) = Ok (tt, s') /\
  procs (k_ptable s') !! 1%nat = procs (k_ptable (kboot [])) !! 1%nat.
Proof.
  destruct (wakeup_exact (kboot []) Cticks) as (s' & E & _ & Hp).
  - apply (quiet_cpu 2); [lia|apply quiet_kboot].
  - apply quiet_procs_free, quiet_kboot.
  - exists s'. split; [done|]. by erewrite Hp by done.
Defined.
