(* ===== verification/SpinMutex.v ===== *)
(** * Spin locks on several harts

    spinlock.c run by several harts at once.  The code of [acquire] and
    [release] is cut at its accesses to the shared lock word: [next] is the
    piece of code that a hart runs at a program point, built from the
    operations of [Spinlock], and [wstep] lets any hart run its next piece.
    Inside the critical section a hart may change everything but locks and the
    CPU table; other harts leave the protected data alone. *)

From S2P Require Import Prelude CInt Memory KMonad Riscv KState Spinlock LockProof Sample.

(** Where a hart is in [acquire(lk); ...; release(lk)].  [holding] loads
    [lk->locked] and then [lk->cpu]. *)
Inductive pc :=
| Idle | AHold | AHold2 | ASpin | AGot | Crit | RHold | RHold2 | RClear | RWord | RPop.
#[export] Instance pc_eq_dec : EqDecision pc.
Proof. solve_decision. Defined.

Section SpinMutex.
Context `{Device} (lk : lockid).

Definition is_cpu (l : spinlock) : K bool := c <- mycpu ;; ret (bool_decide (lcpu l = Some c)).

Definition next (p : pc) : K pc :=
  match p with
  | Idle => push_off ;;; ret AHold
  | AHold => l <- getlock lk ;; ret (if locked l =? 0 then ASpin else AHold2)
  | AHold2 => l <- getlock lk ;; b <- is_cpu l ;; if (b : bool) then panic "acquire" else ret ASpin
  | ASpin => old <- test_and_set lk ;; ret (if negb (old =? 0) then ASpin else AGot)
  | AGot => c <- mycpu ;; setlock lk (set lcpu (fun _ => Some c)) ;;; ret Crit
  | Crit => ret RHold
  | RHold => l <- getlock lk ;; if locked l =? 0 then panic "release" else ret RHold2
  | RHold2 => l <- getlock lk ;; b <- is_cpu l ;; if (b : bool) then ret RClear else panic "release"
  | RClear => setlock lk (set lcpu (fun _ => None)) ;;; ret RWord
  | RWord => lock_release lk ;;; ret RPop
  | RPop => pop_off ;;; ret Idle
  end.

(** The program point after the piece at [p], when the lock is [l]. *)
Definition after_next (l : spinlock) (p : pc) : pc :=
  match p with
  | Idle => AHold
  | AHold => if locked l =? 0 then ASpin else AHold2
  | AHold2 => ASpin
  | ASpin => if locked l =? 0 then AGot else ASpin
  | AGot => Crit | Crit => RHold | RHold => RHold2 | RHold2 => RClear
  | RClear => RWord | RWord => RPop | RPop => Idle
  end.

Fixpoint nexts (n : nat) (p : pc) : K pc :=
  match n with O => ret p | S n => p <- next p ;; nexts n p end.

(** The pieces are the code: without interference they are [release], and
    [acquire] of a lock that is free. *)
Lemma nexts_release s : nexts 6 Crit s = (release lk ;;; ret Idle) s.
Proof.
  unfold nexts, next, release, holding, is_cpu, lock_release, setlock, getlock, mycpu, bind, gets, ret, modify; cbn.
  destruct (locked _ =? 0); cbn; [done|].
  case_bool_decide; cbn; [|done]. by repeat case_match.
Qed.
Lemma push_off_locks s s' : push_off s = Ok (tt, s') -> k_locks s' = k_locks s.
Proof.
  unfold push_off, getcpu, mycpu, cpuid, bind. cbn. destruct (cpus _ !! _) as [c|]; cbn; [|done].
  destruct (c_noff c =? 0); cbn; by intros [= <-].
Qed.
Lemma nexts_acquire s : locked (lock_of lk s) = 0 -> nexts 4 Idle s = (acquire lk ;;; ret Crit) s.
Proof.
  intros E. unfold acquire. cbn [nexts next]. unfold bind. destruct (push_off s) as [[[] t]| | | |] eqn:Ep; try done.
  apply push_off_locks in Ep. unfold lock_of in E. rewrite <- Ep in E.
  unfold holding, test_and_set, setlock, getlock, mycpu, bind, gets, ret, modify; cbn. rewrite E. cbn. by rewrite E.
Qed.

(** ** The machine *)

Record world := World { w_sh : kst; w_harts : list hart; w_pc : list pc }.

(** The state as hart [hr] sees it. *)
Definition on (hr : hart) (w : world) : kst := (w_sh w) <| k_hart := hr |>.

(** The states that differ in the registers, the locks and the CPU table. *)
Definition lock_only (s s' : kst) : Prop := exists hr ls cs,
  s' = set k_ptable (set cpus (fun _ => cs)) ((s <| k_hart := hr |>) <| k_locks := ls |>).

(** The data that the lock protects, and what holds of them while it is
    free. *)
Context {D : Type} (prot : kst -> D) (good : D -> Prop).
Hypothesis Hprot : forall s s', lock_only s s' -> prot s' = prot s.

Inductive wstep : world -> world -> Prop :=
| wstep_code w h hr p s' p' :
    w_harts w !! h = Some hr -> w_pc w !! h = Some p ->
    (p = Crit -> good (prot (w_sh w))) ->
    next p (on hr w) = Ok (p', s') ->
    wstep w (World s' (<[h := k_hart s']> (w_harts w)) (<[h := p']> (w_pc w)))
| wstep_crit w h s' :
    w_pc w !! h = Some Crit ->
    k_locks s' = k_locks (w_sh w) -> cpus (k_ptable s') = cpus (k_ptable (w_sh w)) ->
    wstep w (World s' (w_harts w) (w_pc w))
| wstep_other w s' :
    k_locks s' = k_locks (w_sh w) -> cpus (k_ptable s') = cpus (k_ptable (w_sh w)) ->
    prot s' = prot (w_sh w) ->
    wstep w (World s' (w_harts w) (w_pc w)).

(** ** The invariant *)

Definition owns (p : pc) : bool :=
  match p with AGot | Crit | RHold | RHold2 | RClear | RWord => true | _ => false end.
Definition named (p : pc) : bool :=
  match p with Crit | RHold | RHold2 | RClear => true | _ => false end.

(** Hart [h], whose nesting depth outside of the lock is [n]. *)
Definition hart_ok (cs : list cpu) (n : Z) (h : nat) (hr : hart) (p : pc) : Prop :=
  Z.to_nat (i32 (tp hr)) = h /\ 0 <= n < 2 ^ 31 - 1 /\
  exists cp, cs !! h = Some cp /\ c_noff cp = n + (if decide (p = Idle) then 0 else 1) /\
    (0 < c_noff cp -> SIE_set (sstatus hr) = false) /\ 0 <= sstatus hr < 2 ^ 64.

Record winv (depth : nat -> Z) (w : world) : Prop := WInv {
  wi_hart h p : w_pc w !! h = Some p -> exists hr, w_harts w !! h = Some hr /\
    hart_ok (cpus (k_ptable (w_sh w))) (depth h) h hr p;
  wi_own h h' p p' : w_pc w !! h = Some p -> w_pc w !! h' = Some p' -> owns p -> owns p' -> h = h';
  wi_word : locked (lock_of lk (w_sh w)) <> 0 <-> exists h p, w_pc w !! h = Some p /\ owns p;
  wi_cpu h : lcpu (lock_of lk (w_sh w)) = Some h <-> exists p, w_pc w !! h = Some p /\ named p;
  wi_good : (forall h, w_pc w !! h <> Some Crit) -> good (prot (w_sh w))
}.

(** What one piece of code does. *)
Record effect (depth : Z) (w : world) (h : nat) (p p' : pc) (s' : kst) : Prop := Effect {
  ef_only : lock_only (w_sh w) s';
  ef_cpus c : c <> h -> cpus (k_ptable s') !! c = cpus (k_ptable (w_sh w)) !! c;
  ef_hart : hart_ok (cpus (k_ptable s')) depth h (k_hart s') p';
  ef_word : let l := lock_of lk (w_sh w) in let l' := lock_of lk s' in
    (owns p' = owns p /\ (locked l' = locked l \/ locked l <> 0 /\ locked l' <> 0)) \/
    (owns p = false /\ owns p' = true /\ locked l = 0 /\ locked l' <> 0) \/
    (owns p = true /\ owns p' = false /\ locked l' = 0);
  ef_cpu : let l := lock_of lk (w_sh w) in let l' := lock_of lk s' in
    (named p' = named p /\ lcpu l' = lcpu l) \/
    (named p = false /\ named p' = true /\ owns p = true /\ lcpu l' = Some h) \/
    (named p = true /\ named p' = false /\ lcpu l' = None)
}.

Lemma named_owns p : named p -> owns p.
Proof. by destruct p. Qed.

(** The program points after hart [h] moved to [p']. *)
Section Move.
Context (depth : nat -> Z) (w : world) (I : winv depth w) (h : nat) (p p' : pc) (s' : kst).
Hypothesis Hp : w_pc w !! h = Some p.
Hypothesis E : effect (depth h) w h p p' s'.
Let pcs := <[h := p']> (w_pc w).

Lemma pcs_lookup c q : pcs !! c = Some q <-> (c = h /\ q = p') \/ (c <> h /\ w_pc w !! c = Some q).
Proof using All.
  unfold pcs. destruct (decide (c = h)) as [->|Hne].
  - rewrite list_lookup_insert_eq by (by eapply lookup_lt_Some). naive_solver.
  - rewrite list_lookup_insert_ne by done. naive_solver.
Qed.

(** A hart other than [h] that owns the lock. *)
Lemma other_owner c q : c <> h -> w_pc w !! c = Some q -> owns q ->
  owns p = false /\ owns p' = false /\ locked (lock_of lk (w_sh w)) <> 0 /\ locked (lock_of lk s') <> 0.
Proof using All.
  intros Hne Hq Ho. assert (owns p = false) as Hop.
  { destruct (owns p) eqn:Ep; [|done]. destruct Hne. apply (wi_own _ _ I c h q p); [done..|by rewrite Ep]. }
  assert (locked (lock_of lk (w_sh w)) <> 0) as Hl by (apply (wi_word _ _ I); eauto).
  destruct (ef_word _ _ _ _ _ _ E) as [[H1 H2]|[(_ & _ & H1 & _)|(H1 & _)]]; [|done|congruence].
  split_and!; [done|congruence|done|]. destruct H2 as [->|[]]; done.
Qed.

Lemma move_own c c' q q' : pcs !! c = Some q -> pcs !! c' = Some q' -> owns q -> owns q' -> c = c'.
Proof using All.
  intros [[-> ->]|[Hne Hq]]%pcs_lookup [[-> ->]|[Hne' Hq']]%pcs_lookup Ho Ho'; [done|..].
  - destruct (other_owner c' q' Hne' Hq' Ho') as (_ & Hf & _). by rewrite Hf in Ho.
  - destruct (other_owner c q Hne Hq Ho) as (_ & Hf & _). by rewrite Hf in Ho'.
  - by apply (wi_own _ _ I c c' q q').
Qed.

Lemma move_word : locked (lock_of lk s') <> 0 <-> exists c q, pcs !! c = Some q /\ owns q.
Proof using All.
  split.
  - intros Hl. destruct (owns p') eqn:Ep'.
    { exists h, p'. rewrite pcs_lookup, Ep'. auto. }
    destruct (ef_word _ _ _ _ _ _ E) as [[H1 H2]|[(_ & H1 & _)|(_ & _ & H1)]]; [|congruence|done].
    destruct (proj1 (wi_word _ _ I)) as (c & q & Hq & Ho); [destruct H2 as [<-|[]]; done|].
    exists c, q. rewrite pcs_lookup. split; [|done]. right. split; [|done]. intros ->. simplify_eq. by rewrite <- H1, Ep' in Ho.
  - intros (c & q & Hq & Ho). apply pcs_lookup in Hq as [[-> ->]|[Hne Hq]]; [|by apply (other_owner c q)].
    destruct (ef_word _ _ _ _ _ _ E) as [[H1 H2]|[(_ & _ & _ & H1)|(_ & H1 & _)]]; [|done|by rewrite H1 in Ho].
    assert (locked (lock_of lk (w_sh w)) <> 0) as Hl by (apply (wi_word _ _ I); exists h, p; by rewrite <- H1).
    destruct H2 as [->|[]]; done.
Qed.

Lemma move_cpu c : lcpu (lock_of lk s') = Some c <-> exists q, pcs !! c = Some q /\ named q.
Proof using All.
  pose proof (ef_cpu _ _ _ _ _ _ E) as Hc.
  assert (forall q, c <> h -> w_pc w !! c = Some q -> named q -> owns p = false /\ named p = false) as Hother.
  { intros q Hne Hq Hn%named_owns. destruct (other_owner c q Hne Hq Hn) as [Ho _]. split; [done|].
    destruct (named p) eqn:En; [|done]. assert (owns p) by (apply named_owns; by rewrite En). by rewrite Ho in *. }
  setoid_rewrite pcs_lookup. destruct Hc as [[H1 H2]|[(H1 & H2 & H3 & ->)|(H1 & H2 & ->)]].
  - rewrite H2, (wi_cpu _ _ I). split.
    + intros (q & Hq & Hn). destruct (decide (c = h)) as [->|]; [|eauto]. exists p'. simplify_eq. rewrite H1. auto.
    + intros (q & [[-> ->]|[Hne Hq]] & Hn); [|eauto]. exists p. by rewrite <- H1.
  - split; [intros [= <-]; exists p'; rewrite H2; auto|].
    intros (q & [[-> ->]|[Hne Hq]] & Hn); [done|]. destruct (Hother q Hne Hq Hn). congruence.
  - split; [done|]. intros (q & [[-> ->]|[Hne Hq]] & Hn); [by rewrite H2 in Hn|].
    destruct (Hother q Hne Hq Hn). congruence.
Qed.

Lemma winv_effect hr :
  w_harts w !! h = Some hr -> (p = Crit -> good (prot (w_sh w))) ->
  winv depth (World s' (<[h := k_hart s']> (w_harts w)) pcs).
Proof using All.
  intros Hh Hg. pose proof (lookup_lt_Some _ _ _ Hh) as Hlt.
  split; cbn [w_sh w_harts w_pc]; [|apply move_own|apply move_word|apply move_cpu|].
  - intros c q Hq%pcs_lookup. destruct Hq as [[-> ->]|[Hne Hq]].
    + exists (k_hart s'). rewrite list_lookup_insert_eq by done. split; [done|]. apply (ef_hart _ _ _ _ _ _ E).
    + destruct (wi_hart _ _ I c q Hq) as (hr' & Hr & H1 & H2 & cp & H3 & H4). exists hr'.
      rewrite list_lookup_insert_ne by done. split; [done|]. split_and!; try done; try lia.
      exists cp. by rewrite (ef_cpus _ _ _ _ _ _ E).
  - intros Hc. rewrite (Hprot _ _ (ef_only _ _ _ _ _ _ E)). destruct (decide (p = Crit)) as [->|Hne]; [auto|].
    apply (wi_good _ _ I). intros c Hcc. destruct (decide (c = h)) as [->|Hch]; [congruence|].
    apply (Hc c), pcs_lookup. auto.
Qed.
End Move.

(** ** Each piece of code has its effect *)

Lemma hart_ok_pc cs n h hr p p' : p <> Idle -> p' <> Idle -> hart_ok cs n h hr p -> hart_ok cs n h hr p'.
Proof. intros H1 H2 (E1 & E2 & cp & E3 & E4 & E5). split_and!; try done; try lia. exists cp. by case_decide; case_decide. Qed.

Lemma lock_only_on hr w : lock_only (w_sh w) (on hr w).
Proof. exists hr, (k_locks (w_sh w)), (cpus (k_ptable (w_sh w))). unfold on. by destruct (w_sh w) as [? ? ? ? [] ? ? ? ? ? ?]. Qed.

Section Pieces.
Context (depth : nat -> Z) (w : world) (I : winv depth w) (h : nat) (p : pc) (hr : hart).
Hypothesis Hp : w_pc w !! h = Some p.
Hypothesis Hok : hart_ok (cpus (k_ptable (w_sh w))) (depth h) h hr p.
Let l := lock_of lk (w_sh w).

Lemma effect_same p' : p <> Idle -> p' <> Idle -> owns p' = owns p -> named p' = named p ->
  effect (depth h) w h p p' (on hr w).
Proof using Hok.
  intros H1 H2 Ho Hn. split; [apply lock_only_on|done|by apply (hart_ok_pc _ _ _ _ p)|left..]; auto.
Qed.

Lemma effect_lock p' l' : p <> Idle -> p' <> Idle ->
  ((owns p' = owns p /\ (locked l' = locked l \/ locked l <> 0 /\ locked l' <> 0)) \/
   (owns p = false /\ owns p' = true /\ locked l = 0 /\ locked l' <> 0) \/
   (owns p = true /\ owns p' = false /\ locked l' = 0)) ->
  ((named p' = named p /\ lcpu l' = lcpu l) \/
   (named p = false /\ named p' = true /\ owns p = true /\ lcpu l' = Some h) \/
   (named p = true /\ named p' = false /\ lcpu l' = None)) ->
  effect (depth h) w h p p' (set k_locks <[lk := l']> (on hr w)).
Proof using Hok.
  intros H1 H2 Hw Hc. assert (lock_of lk (set k_locks <[lk := l']> (on hr w)) = l') as El.
  { unfold lock_of, set. cbn. by rewrite lookup_insert_eq. }
  split; rewrite ?El; try done; [|by apply (hart_ok_pc _ _ _ _ p)].
  exists hr, (<[lk := l']> (k_locks (w_sh w))), (cpus (k_ptable (w_sh w))). unfold on.
  by destruct (w_sh w) as [? ? ? ? [] ? ? ? ? ? ?].
Qed.

(** The words a hart reads. *)
Lemma owner_word : owns p -> locked l <> 0.
Proof using I Hp. intros Ho. apply (wi_word _ _ I). eauto. Qed.
Lemma cpu_word : lcpu l = Some h <-> named p.
Proof using I Hp.
  unfold l. rewrite (wi_cpu _ _ I). split; [intros (q & Hq & ?); by simplify_eq|eauto].
Qed.
End Pieces.

(** A piece that changes the registers and the CPU of hart [h]. *)
Lemma effect_cpu n w h hr hr' p p' (f : cpu -> cpu) cp :
  Z.to_nat (i32 (tp hr)) = h -> 0 <= n < 2 ^ 31 - 1 -> tp hr' = tp hr ->
  cpus (k_ptable (w_sh w)) !! h = Some cp -> c_noff (f cp) = n + (if decide (p' = Idle) then 0 else 1) ->
  (0 < c_noff (f cp) -> SIE_set (sstatus hr') = false) -> 0 <= sstatus hr' < 2 ^ 64 ->
  owns p' = owns p -> named p' = named p ->
  effect n w h p p' (set k_ptable (set cpus (alter f h)) (on hr' w)).
Proof.
  intros H1 H2 H3 H4 H5 H6 H7 Ho Hn. split; try (left; by auto).
  - exists hr', (k_locks (w_sh w)), (alter f h (cpus (k_ptable (w_sh w)))). unfold on.
    by destruct (w_sh w) as [? ? ? ? [] ? ? ? ? ? ?].
  - intros c Hc. cbn. by rewrite list_lookup_alter_ne.
  - split; [cbn; by rewrite H3|]. split; [done|]. exists (f cp). cbn. rewrite list_lookup_alter_eq, H4. done.
Qed.

Lemma push_off_effect n w h hr :
  hart_ok (cpus (k_ptable (w_sh w))) n h hr Idle ->
  exists s', push_off (on hr w) = Ok (tt, s') /\ effect n w h Idle AHold s'.
Proof.
  intros (H1 & H2 & cp & H3 & H4 & H5 & H6). rewrite decide_True in H4 by done.
  exists (pushed (on hr w)). split.
  - apply (push_off_ok 1); [lia|]. exists cp. unfold hcpu, intr. cbn. rewrite H1. split_and!; done || lia.
  - unfold pushed. change (hcpu (on hr w)) with (Z.to_nat (i32 (tp hr))). rewrite H1.
    apply (effect_cpu n w h hr (set sstatus SIE_off hr) Idle AHold) with cp; try done.
    + rewrite decide_False by done. unfold record_intr. by case_match; cbn; rewrite H4; lia.
    + intros _. apply SIE_set_off.
    + apply SIE_off_range.
Qed.

Lemma pop_off_effect n w h hr :
  hart_ok (cpus (k_ptable (w_sh w))) n h hr RPop ->
  exists s', pop_off (on hr w) = Ok (tt, s') /\ effect n w h RPop Idle s'.
Proof.
  intros (H1 & H2 & cp & H3 & H4 & H5 & H6). rewrite decide_False in H4 by done.
  set (hr' := if (n =? 0) && c_intena cp then set sstatus (fun x => u64 (Z.lor x SSTATUS_SIE)) hr else hr).
  exists (set k_ptable (set cpus (alter (set c_noff (fun n => i32 (n - 1))) h)) (on hr' w)). split.
  - unfold pop_off, getcpu, mycpu, cpuid, bind. cbn. rewrite H1. fold (SIE_set (sstatus hr)). rewrite H5 by lia.
    cbn. rewrite H3. cbn. case_cmp. cbn. rewrite list_lookup_alter_eq, H3. cbn. rewrite H4, i32_id by lia.
    unfold hr'. replace (n + 1 - 1) with n by lia. by destruct ((n =? 0) && c_intena cp).
  - apply (effect_cpu n w h hr hr' RPop Idle) with cp; try done.
    + unfold hr'. by case_match.
    + rewrite decide_True by done. cbn. rewrite H4, i32_id by lia. lia.
    + cbn. rewrite H4, i32_id by lia. intros Hn. unfold hr'. case_cmp. apply H5. lia.
    + unfold hr'. case_match; [apply u64_range|done].
Qed.

Lemma next_effect depth w h hr p :
  winv depth w -> w_pc w !! h = Some p -> hart_ok (cpus (k_ptable (w_sh w))) (depth h) h hr p ->
  let p' := after_next (lock_of lk (w_sh w)) p in
  exists s', next p (on hr w) = Ok (p', s') /\ effect (depth h) w h p p' s'.
Proof.
  intros I Hp Hok. pose proof (cpu_word depth w I h p Hp) as Hcpu. pose proof (owner_word depth w I h p Hp) as Hown.
  set (l := lock_of lk (w_sh w)) in *.
  assert (getlock lk (on hr w) = Ok (l, on hr w)) as Eg by done.
  assert (is_cpu l (on hr w) = Ok (bool_decide (lcpu l = Some h), on hr w)) as Ec.
  { destruct Hok as [E _]. unfold is_cpu, bind. rewrite mycpu_eq. unfold hcpu, on. cbn. by rewrite E. }
  destruct p; cbn [next after_next].
  - destruct (push_off_effect _ _ _ _ Hok) as (s' & E & Ef). rewrite (bind_ok _ _ _ _ _ E). eauto.
  - rewrite (bind_ok _ _ _ _ _ Eg). eexists. split; [done|]. by case_match; apply effect_same.
  - rewrite (bind_ok _ _ _ _ _ Eg), (bind_ok _ _ _ _ _ Ec), bool_decide_false by (by intros ?%Hcpu).
    eexists. split; [done|]. by apply effect_same.
  - rewrite (bind_ok _ _ _ _ _ (test_and_set_eq _ _)). change (lock_of lk (on hr w)) with l.
    destruct (Z.eqb_spec (locked l) 0) as [E0|E0]; cbn [negb]; (eexists; split; [done|]); apply effect_lock; try done.
    + right; left. auto.
    + left. auto.
    + left. split; [done|]. right. done.
    + left. auto.
  - rewrite (bind_ok _ _ _ _ _ (mycpu_eq _)), (bind_ok _ _ _ _ _ (setlock_eq _ _ _)).
    change (lock_of lk (on hr w)) with l. eexists. split; [done|].
    apply effect_lock; try done; [left; auto|]. right; left. destruct Hok as [E _]. split_and!; try done. cbn. by rewrite <- E.
  - eexists. split; [done|]. by apply effect_same.
  - rewrite (bind_ok _ _ _ _ _ Eg). destruct (Z.eqb_spec (locked l) 0) as [E0|E0]; [by destruct Hown|].
    eexists. split; [done|]. by apply effect_same.
  - rewrite (bind_ok _ _ _ _ _ Eg), (bind_ok _ _ _ _ _ Ec), bool_decide_true by (by apply Hcpu).
    eexists. split; [done|]. by apply effect_same.
  - rewrite (bind_ok _ _ _ _ _ (setlock_eq _ _ _)). change (lock_of lk (on hr w)) with l. eexists. split; [done|].
    apply effect_lock; try done; [left; auto|]. by do 2 right.
  - unfold lock_release. rewrite (bind_ok _ _ _ _ _ (setlock_eq _ _ _)). change (lock_of lk (on hr w)) with l.
    eexists. split; [done|]. apply effect_lock; try done; [|left; auto]. by do 2 right.
  - destruct (pop_off_effect _ _ _ _ Hok) as (s' & E & Ef). rewrite (bind_ok _ _ _ _ _ E). eauto.
Qed.


(** Any hart can always run its next piece. *)
Lemma wstep_next depth w h p :
  winv depth w -> w_pc w !! h = Some p -> (p = Crit -> good (prot (w_sh w))) ->
  exists w', wstep w w' /\ winv depth w' /\ w_pc w' = <[h := after_next (lock_of lk (w_sh w)) p]> (w_pc w) /\
    prot (w_sh w') = prot (w_sh w).
Proof using Hprot.
  intros I Hp Hg. destruct (wi_hart _ _ I h p Hp) as (hr & Hh & Hok).
  destruct (next_effect depth w h hr p I Hp Hok) as (s' & E & Ef).
  eexists. split; [by eapply wstep_code|]. split; [by eapply winv_effect|]. split; [done|].
  apply Hprot, (ef_only _ _ _ _ _ _ Ef).
Qed.

Lemma winv_wstep depth w w' : winv depth w -> wstep w w' -> winv depth w'.
Proof using Hprot.
  intros I St. destruct St as [w h hr p s' p' Hh Hp Hg E|w h s' Hp El Ec|w s' El Ec Ed].
  - destruct (wi_hart _ _ I h p Hp) as (hr' & Hh' & Hok). simplify_eq.
    destruct (next_effect depth w h hr p I Hp Hok) as (s1 & E1 & Ef). rewrite E1 in E. injection E as <- <-. by eapply winv_effect.
  - destruct I as [I1 I2 I3 I4 I5]. unfold lock_of in *. split; cbn [w_sh w_pc w_harts]; unfold lock_of;
      rewrite ?El, ?Ec; try done. intros Hc. by destruct (Hc h).
  - destruct I as [I1 I2 I3 I4 I5]. unfold lock_of in *. split; cbn [w_sh w_pc w_harts]; unfold lock_of;
      rewrite ?El, ?Ec, ?Ed; done.
Qed.

(** Before the lock is used: every hart outside, the lock free. *)
Record winit (depth : nat -> Z) (w : world) : Prop := WInit {
  wz_hart h : (h < length (w_pc w))%nat -> exists hr, w_harts w !! h = Some hr /\
    hart_ok (cpus (k_ptable (w_sh w))) (depth h) h hr Idle;
  wz_pc h p : w_pc w !! h = Some p -> p = Idle;
  wz_free : lock_free lk (w_sh w);
  wz_good : good (prot (w_sh w))
}.
Lemma winit_winv depth w : winit depth w -> winv depth w.
Proof using.
  intros [Z1 Z2 (l & Hl & H0 & H1) Z4]. unfold lock_of. split; unfold lock_of; rewrite ?Hl; cbn [from_option default id].
  - intros h p Hp. rewrite (Z2 h p Hp). apply Z1. by eapply lookup_lt_Some.
  - intros h h' p p' Hp _ Ho. by rewrite (Z2 h p Hp) in Ho.
  - rewrite H0. split; [done|]. intros (h & p & Hp & Ho). by rewrite (Z2 h p Hp) in Ho.
  - intros h. rewrite H1. split; [done|]. intros (p & Hp & Ho). by rewrite (Z2 h p Hp) in Ho.
  - done.
Qed.

Lemma winv_reach depth w w' : winv depth w -> rtc wstep w w' -> winv depth w'.
Proof using Hprot. intros I St. revert I. induction St as [|w w1 w2 St _ IH]; [done|]. intros I. by apply IH, (winv_wstep depth w). Qed.

(** ** Progress *)

(** The owner leaves: at most six pieces until it has stored 0. *)
Definition dist (p : pc) : nat :=
  match p with AGot => 6 | Crit => 5 | RHold => 4 | RHold2 => 3 | RClear => 2 | RWord => 1 | _ => 0 end.

Lemma owner_leaves depth n w h p :
  winv depth w -> w_pc w !! h = Some p -> owns p -> dist p = n -> (p = Crit -> good (prot (w_sh w))) ->
  exists w', nsteps wstep n w w' /\ winv depth w' /\ w_pc w' = <[h := RPop]> (w_pc w).
Proof using Hprot.
  revert w p. induction n as [|n IH]; intros w p I Hp Ho Hd Hg; [by destruct p|].
  destruct (wstep_next depth w h p I Hp Hg) as (w1 & St & I1 & E1 & Eg). set (p1 := after_next _ p) in E1.
  assert (h < length (w_pc w))%nat as Hlt by (by eapply lookup_lt_Some).
  assert (w_pc w1 !! h = Some p1) as Hp1 by (by rewrite E1, list_lookup_insert_eq).
  destruct (decide (n = 0%nat)) as [->|Hn].
  { exists w1. split; [by eapply nsteps_l; [|constructor]|]. split; [done|]. rewrite E1. by destruct p. }
  destruct (IH w1 p1) as (w' & Hs & I' & E'); try done.
  - unfold p1. destruct p; cbn in *; done || lia.
  - unfold p1. by destruct p; cbn in *; lia.
  - intros Ec. destruct p; try done. rewrite Eg. apply (wi_good _ _ I). intros c Hc.
    assert (c = h) as -> by (by apply (wi_own _ _ I c h Crit AGot)). congruence.
  - exists w'. split; [by eapply nsteps_l|]. split; [done|]. rewrite E', E1. apply list_insert_insert_eq.
Qed.

(** A hart in [acquire], and the pieces until it is through when the lock is
    free. *)
Definition trying (p : pc) : bool := match p with AHold | AHold2 | ASpin | AGot => true | _ => false end.
Definition wait (p : pc) : nat := match p with AHold | AHold2 => 3 | ASpin => 2 | AGot => 1 | _ => 0 end.

Lemma waiter_enters depth n w h p :
  winv depth w -> w_pc w !! h = Some p -> trying p -> wait p = n ->
  (forall c q, w_pc w !! c = Some q -> owns q -> c = h) ->
  exists w', nsteps wstep n w w' /\ w_pc w' !! h = Some Crit.
Proof using Hprot.
  revert w p. induction n as [|n IH]; intros w p I Hp Ht Hd Ho; [by destruct p|].
  destruct (wstep_next depth w h p I Hp) as (w1 & St & I1 & E1 & _); [by destruct p|].
  set (p1 := after_next _ p) in E1.
  assert (w_pc w1 !! h = Some p1) as Hp1 by (rewrite E1, list_lookup_insert_eq; [done|by eapply lookup_lt_Some]).
  destruct (decide (p = AGot)) as [->|Hn].
  { exists w1. cbn in Hd. injection Hd as <-. split; [by eapply nsteps_l; [|constructor]|done]. }
  assert (locked (lock_of lk (w_sh w)) = 0) as Hl.
  { destruct (decide (locked (lock_of lk (w_sh w)) = 0)) as [|Hne]; [done|].
    apply (wi_word _ _ I) in Hne as (c & q & Hq & Hoq). pose proof (Ho c q Hq Hoq). subst c. simplify_eq. by destruct p. }
  assert (trying p1 /\ wait p1 = n) as [Ht1 Hw1].
  { unfold p1. destruct p; cbn in *; try done; rewrite ?Hl; cbn; split; done || lia. }
  destruct (IH w1 p1 I1 Hp1 Ht1 Hw1) as (w' & Hs & E'); [|exists w'; split; [by eapply nsteps_l|done]].
  intros c q Hq Hoq. destruct (decide (c = h)) as [|Hne]; [done|]. rewrite E1, list_lookup_insert_ne in Hq by done. eauto.
Qed.

Lemma waiter_progress depth w h p :
  winv depth w -> w_pc w !! h = Some p -> trying p -> good (prot (w_sh w)) ->
  exists n w', (n <= 9)%nat /\ nsteps wstep n w w' /\ w_pc w' !! h = Some Crit.
Proof using Hprot.
  intros I Hp Ht Hg. assert (wait p <= 3)%nat as Hw by (destruct p; cbn; lia).
  destruct (decide (locked (lock_of lk (w_sh w)) = 0 \/ p = AGot)) as [Hl|Hl].
  - destruct (waiter_enters depth (wait p) w h p) as (w' & Hs & E); try done; [|exists (wait p), w'; split_and!; done || lia].
    intros c q Hq Ho. destruct Hl as [Hl| ->]; [|by apply (wi_own _ _ I c h q AGot)].
    assert (locked (lock_of lk (w_sh w)) <> 0) by (apply (wi_word _ _ I); eauto). done.
  - assert (locked (lock_of lk (w_sh w)) <> 0) as (o & q & Hq & Ho)%(wi_word _ _ I) by tauto.
    assert (o <> h) as Hne by (intros ->; simplify_eq; destruct p; tauto || done).
    destruct (owner_leaves depth (dist q) w o q I Hq Ho) as (w1 & Hs & I1 & E1); [done..|].
    assert (w_pc w1 !! h = Some p) as Hp1 by (by rewrite E1, list_lookup_insert_ne).
    destruct (waiter_enters depth (wait p) w1 h p I1) as (w' & Hs' & E'); [done..| |].
    { intros c x Hx Hox. rewrite E1 in Hx. destruct (decide (c = o)) as [->|Hco].
      - rewrite list_lookup_insert_eq in Hx by (by eapply lookup_lt_Some). by simplify_eq.
      - rewrite list_lookup_insert_ne in Hx by done. by destruct Hco, (wi_own _ _ I c o x q). }
    exists (dist q + wait p)%nat, w'. split_and!; [destruct q; cbn; lia|by eapply nsteps_trans|done].
Qed.

(** ** Running a schedule of harts, none of which leaves its critical section *)

Definition sched1 (h : nat) (w : world) : option world :=
  hr ← w_harts w !! h; p ← w_pc w !! h;
  if decide (p = Crit) then None else
  match next p (on hr w) with
  | Ok (p', s') => Some (World s' (<[h := k_hart s']> (w_harts w)) (<[h := p']> (w_pc w)))
  | _ => None
  end.
Definition sched_all (hs : list nat) (w : world) : option world :=
  foldl (fun w h => w ≫= sched1 h) (Some w) hs.

Lemma sched1_wstep h w w' : sched1 h w = Some w' -> wstep w w'.
Proof using.
  unfold sched1. destruct (w_harts w !! h) as [hr|] eqn:Eh; [|done]. cbn.
  destruct (w_pc w !! h) as [p|] eqn:Ep; [|done]. cbn. case_decide; [done|].
  destruct (next p (on hr w)) as [[p' s']| | | |] eqn:En; try done. intros [= <-]. by eapply wstep_code.
Qed.
Lemma sched_all_reach hs w w' : sched_all hs w = Some w' -> rtc wstep w w'.
Proof using.
  unfold sched_all. revert w. induction hs as [|h hs IH]; intros w; cbn; [by intros [= <-]|].
  destruct (sched1 h w) as [w1|] eqn:E; [|intros Hn; exfalso; clear -Hn; by induction hs].
  intros H1. eapply rtc_l; [by eapply sched1_wstep|by apply IH].
Qed.
End SpinMutex.

(** C4. Spin locks work on several harts.  However the harts interleave, from
    a state in which the lock is free and its data are good: at most one hart
    is in the critical section; the data are good whenever no hart is; and no
    hart ever panics or faults in [acquire] or [release]. *)
Theorem spin_mutual_exclusion `{Device} (lk : lockid) {D : Type} (prot : kst -> D) (good : D -> Prop)
    (depth : nat -> Z) (w0 w : world) :
  (forall s s', lock_only s s' -> prot s' = prot s) ->
  winit lk prot good depth w0 -> rtc (wstep lk prot good) w0 w ->
  (forall h h', w_pc w !! h = Some Crit -> w_pc w !! h' = Some Crit -> h = h') /\
  ((forall h, w_pc w !! h <> Some Crit) -> good (prot (w_sh w))) /\
  (forall h p, w_pc w !! h = Some p -> exists hr p' s', w_harts w !! h = Some hr /\ next lk p (on hr w) = Ok (p', s')).
Proof.
  intros Hprot Hi Hr. assert (winv lk prot good depth w) as I by (by eapply winv_reach; [|apply winit_winv|]).
  split_and!.
  - intros h h' H1 H2. by apply (wi_own _ _ _ _ _ I h h' Crit Crit).
  - apply (wi_good _ _ _ _ _ I).
  - intros h p Hp. destruct (wi_hart _ _ _ _ _ I h p Hp) as (hr & Hh & Hok).
    destruct (next_effect lk prot good depth w h hr p I Hp Hok) as (s' & E & _). eauto.
Qed.

(** C27. Spin locks do not deadlock.  In every state the harts can reach in
    which the data of the lock are good (a hart in the critical section is
    ready to leave), for every hart that is inside [acquire] there is a
    continuation of at most nine pieces of code after which it holds the
    lock. *)
Theorem spin_progress `{Device} (lk : lockid) {D : Type} (prot : kst -> D) (good : D -> Prop)
    (depth : nat -> Z) (w0 w : world) (h : nat) (p : pc) :
  (forall s s', lock_only s s' -> prot s' = prot s) ->
  winit lk prot good depth w0 -> rtc (wstep lk prot good) w0 w ->
  w_pc w !! h = Some p -> trying p -> good (prot (w_sh w)) ->
  exists n w', (n <= 9)%nat /\ nsteps (wstep lk prot good) n w w' /\ w_pc w' !! h = Some Crit.
Proof.
  intros Hprot Hi Hr Hp Ht Hg. apply (waiter_progress lk prot good Hprot depth w h p); try done.
  by eapply winv_reach; [|apply winit_winv|].
Qed.

(** Two harts of the sample machine and the lock of the log. *)
Definition two_harts : world :=
  World (kboot []) [hart0; hart0 <| tp := 1 |>] [Idle; Idle].
Definition log_idle (f : fstate) : Prop := l_committing (logst f) = 0.

Lemma k_fs_prot s s' : lock_only s s' -> k_fs s' = k_fs s.
Proof. by intros (hr & ls & cs & ->). Qed.
Lemma two_harts_init : winit Llog k_fs log_idle (fun _ => 0) two_harts.
Proof.
  split.
  - intros h Hh. cbn in Hh.
    destruct h as [|[|h]]; [| |lia]; (eexists; split; [done|]); (split; [done|]); (split; [lia|]);
      eexists; (split; [done|]); rewrite decide_True by done; (split; [done|]); (split; [done|]); cbn; lia.
  - intros h p. destruct h as [|[|h]]; cbn; by intros [= <-].
  - apply (q_locks _ (quiet_kboot [])). done.
  - done.
Qed.

(** Hart 0 has the lock and hart 1 spins. *)
Definition two_sched : list nat := [0; 0; 0; 1; 1; 0; 1; 1]%nat.
Lemma two_harts_pcs :
  (fun w => (w_pc w, l_committing (logst (k_fs (w_sh w))))) <$> sched_all Llog two_sched two_harts
  = Some ([Crit; ASpin], 0).
Proof. vm_compute. reflexivity. Qed.
Lemma two_harts_run : exists w, rtc (wstep Llog k_fs log_idle) two_harts w /\
  w_pc w = [Crit; ASpin] /\ log_idle (k_fs (w_sh w)).
Proof.
  pose proof two_harts_pcs as Hf. apply fmap_Some in Hf as (w & E & Ew). exists w. injection Ew as E1 E2.
  split_and!; [by apply (sched_all_reach Llog k_fs log_idle two_sched)|exact (eq_sym E1)|exact (eq_sym E2)].
Qed.

Lemma spin_mutual_exclusion_witness : exists w, rtc (wstep Llog k_fs log_idle) two_harts w /\
  w_pc w = [Crit; ASpin] /\ forall h, w_pc w !! h = Some Crit -> h = 0%nat.
Proof.
  destruct two_harts_run as (w & Hr & Hw & _). exists w. split_and!; [done..|].
  destruct (spin_mutual_exclusion Llog k_fs log_idle (fun _ => 0) two_harts w k_fs_prot two_harts_init Hr) as [Hm _].
  intros h Hh. apply (Hm h 0%nat Hh). by rewrite Hw.
Defined.

Lemma spin_progress_witness : exists w, rtc (wstep Llog k_fs log_idle) two_harts w /\ w_pc w = [Crit; ASpin] /\
  exists n w', (n <= 9)%nat /\ nsteps (wstep Llog k_fs log_idle) n w w' /\ w_pc w' !! 1%nat = Some Crit.
Proof.
  destruct two_harts_run as (w & Hr & Hw & Hg). exists w. split_and!; [done..|].
  apply (spin_progress Llog k_fs log_idle (fun _ => 0) two_harts w 1 ASpin k_fs_prot two_harts_init Hr); try done.
  by rewrite Hw.
Defined.
