(* ===== verification/User.v ===== *)
(** * User programs: their state and their system calls

    A user process is a RAM (its address space) and the operating system it
    runs on.  The operating system is a parameter of the user programs: what a
    program relies on (the bytes [read] delivers, what happens to the bytes of
    a [write]) is stated where it is used.  A system call that is given a range
    of addresses outside the address space returns -1, as [copyin] and
    [copyout] make it do. *)

From Stdlib Require Export Ascii.
From S2P Require Import Prelude CInt Memory KMonad Blocks.

(** Character constants. *)
Definition ch (a : ascii) : Z := Z.of_nat (nat_of_ascii a).
Arguments ch a%_char.
Definition ch_nl : Z := 10.
Definition ch_cr : Z := 13.

Class Os := {
  os_t : Type;
  (** file descriptor and count; the result and the bytes it delivers *)
  os_read : Z -> Z -> os_t -> Z * list Z * os_t;
  os_write : Z -> list Z -> os_t -> Z * os_t;
  (** path and mode *)
  os_open : list Z -> Z -> os_t -> Z * os_t;
  os_close : Z -> os_t -> Z * os_t;
  (** the result and the bytes of the [struct stat] *)
  os_fstat : Z -> os_t -> Z * list Z * os_t;
  (** whether the address space could be moved to the new size *)
  os_sbrk : Z -> os_t -> bool * os_t
}.

Record ust `{Os} := Ust { u_mem : ram; u_os : os_t }.
#[export] Instance eta_ust `{Os} : EtaRecord ust := fun s => Ust _ (u_mem s) (u_os s).

Section Calls.
Context `{Os}.

Definition U (A : Type) : Type := M ust A.

Definition onmem {A} (c : M ram A) : U A := fun s =>
  match c (u_mem s) with
  | Ok (a, m) => Ok (a, s <| u_mem := m |>)
  | Panic msg => Panic msg
  | Assert l => Assert l
  | Fault a => Fault a
  | Diverge => Diverge
  end.

Definition read (fd buf n : Z) : U Z := fun s =>
  let '(r, bs, o) := os_read fd n (u_os s) in
  if backed (u_mem s) buf (length bs) then Ok (r, Ust _ (wrbytes (u_mem s) buf bs) o)
  else Ok (-1, s <| u_os := o |>).

Definition write (fd buf n : Z) : U Z := fun s =>
  if backed (u_mem s) buf (Z.to_nat n) then
    let '(r, o) := os_write fd (rdbytes (u_mem s) buf (Z.to_nat n)) (u_os s) in
    Ok (r, s <| u_os := o |>)
  else Ok (-1, s).

(** [read] and [write] of one byte of a local variable. *)
Definition read1 (fd : Z) : U (Z * Z) := fun s =>
  let '(r, bs, o) := os_read fd 1 (u_os s) in Ok ((r, default 0 (bs !! 0%nat)), s <| u_os := o |>).
Definition write1 (fd c : Z) : U Z := fun s =>
  let '(r, o) := os_write fd [u8 c] (u_os s) in Ok (r, s <| u_os := o |>).

(** [sbrk(n)]: the old size, or -1. *)
Definition sbrk (n : Z) : U Z := fun s =>
  let m := u_mem s in
  let '(ok, o) := os_sbrk n (u_os s) in
  if (ok : bool) then Ok (ram_hi m, Ust _ (Ram (ram_lo m) (ram_hi m + n) (ram_bytes m)) o)
  else Ok (-1, s <| u_os := o |>).

(** ** Lemmas *)

Lemma onmem_at {A} (c : M ram A) m o a m' : c m = Ok (a, m') -> onmem c (Ust _ m o) = Ok (a, Ust _ m' o).
Proof. intros E. unfold onmem. cbn. by rewrite E. Qed.
End Calls.
