(* ===== verification/Ulib.v ===== *)
(** * The C library of user programs (user/ulib.c, user/printf.c)

    The string and memory routines over the RAM of the process, [gets] and
    [stat] over its system calls, and formatted output.  Loops that run to the
    end of a string take the number of bytes up to the end of RAM as fuel: one
    byte further the load faults.  [char] is unsigned. *)

From S2P Require Import Prelude CInt Memory KMonad Blocks User.

(** The iterations a scan from [a] can make before it leaves RAM. *)
Definition scan {A} (a : Z) (c : nat -> M ram A) : M ram A := fun m =>
  c (S (Z.to_nat (ram_hi m - a))) m.

(** ** Strings *)

Fixpoint strcpy_loop (k : nat) (s t : Z) : M ram unit :=
  match k with
  | O => diverge
  | S k =>
      c <- ld8 t ;;
      st8 s c ;;;
      if negb (c =? 0) then strcpy_loop k (s + 1) (t + 1) else ret tt
  end.
Definition strcpy (s t : Z) : M ram Z := scan s (fun k => strcpy_loop k s t) ;;; ret s.

Fixpoint strcmp_loop (k : nat) (p q : Z) : M ram Z :=
  match k with
  | O => diverge
  | S k =>
      c <- ld8 p ;;
      d <- ld8 q ;;
      if negb (c =? 0) && (c =? d) then strcmp_loop k (p + 1) (q + 1) else ret (c - d)
  end.
Definition strcmp (p q : Z) : M ram Z := scan p (fun k => strcmp_loop k p q).

Fixpoint strlen_loop (k : nat) (s n : Z) : M ram Z :=
  match k with
  | O => diverge
  | S k => c <- ld8 (s + n) ;; if negb (c =? 0) then strlen_loop k s (i32 (n + 1)) else ret (u32 n)
  end.
Definition strlen (s : Z) : M ram Z := scan s (fun k => strlen_loop k s 0).

Fixpoint strchr_loop (k : nat) (s c : Z) : M ram Z :=
  match k with
  | O => diverge
  | S k =>
      d <- ld8 s ;;
      if d =? 0 then ret 0 else if d =? c then ret s else strchr_loop k (s + 1) c
  end.
Definition strchr (s c : Z) : M ram Z := scan s (fun k => strchr_loop k s c).

Fixpoint atoi_loop (k : nat) (s n : Z) : M ram Z :=
  match k with
  | O => diverge
  | S k =>
      c <- ld8 s ;;
      if (ch "0" <=? c) && (c <=? ch "9") then atoi_loop k (s + 1) (i32 (n * 10 + c - ch "0")) else ret n
  end.
Definition atoi (s : Z) : M ram Z := scan s (fun k => atoi_loop k s 0).

(** ** Memory *)

Fixpoint memset_loop (cdst c : Z) (k : nat) (i : Z) : M ram unit :=
  match k with
  | O => ret tt
  | S k => st8 (cdst + i) c ;;; memset_loop cdst c k (i + 1)
  end.
Definition memset (dst c n : Z) : M ram Z := memset_loop dst c (Z.to_nat (u32 n)) 0 ;;; ret dst.

(** [*dst++ = *src++] and [*--dst = *--src], [n] iterations left. *)
Fixpoint copy_up (n : nat) (dst src : Z) : M ram unit :=
  match n with
  | O => ret tt
  | S n => c <- ld8 src ;; st8 dst c ;;; copy_up n (dst + 1) (src + 1)
  end.
Fixpoint copy_down (n : nat) (dst src : Z) : M ram unit :=
  match n with
  | O => ret tt
  | S n => c <- ld8 (src - 1) ;; st8 (dst - 1) c ;;; copy_down n (dst - 1) (src - 1)
  end.
Definition memmove (vdst vsrc n : Z) : M ram Z :=
  (if vdst <? vsrc then copy_up (Z.to_nat n) vdst vsrc
   else copy_down (Z.to_nat n) (vdst + n) (vsrc + n)) ;;;
  ret vdst.
Definition memcpy (dst src n : Z) : M ram Z := memmove dst src (i32 n).

Fixpoint memcmp_loop (n : nat) (p1 p2 : Z) : M ram Z :=
  match n with
  | O => ret 0
  | S n =>
      c1 <- ld8 p1 ;;
      c2 <- ld8 p2 ;;
      if negb (c1 =? c2) then ret (c1 - c2) else memcmp_loop n (p1 + 1) (p2 + 1)
  end.
Definition memcmp (s1 s2 n : Z) : M ram Z := memcmp_loop (Z.to_nat (u32 n)) s1 s2.

(** ** Input and files *)

Section Io.
Context `{Os}.

Fixpoint gets_loop (k : nat) (buf max i : Z) : U Z :=
  match k with
  | O => ret i
  | S k =>
      let* (cc, c) := read1 0 in
      if cc <? 1 then ret i
      else
        onmem (st8 (buf + i) c) ;;;
        if (c =? ch_nl) || (c =? ch_cr) then ret (i + 1) else gets_loop k buf max (i + 1)
  end.
(** At most [max - 1] characters. *)
Definition gets (buf max : Z) : U Z :=
  i <- gets_loop (Z.to_nat (max - 1)) buf max 0 ;;
  onmem (st8 (buf + i) 0) ;;;
  ret buf.

Definition O_RDONLY : Z := 0.

(** [path] is the string at [n], [st] the address of the [struct stat]. *)
Fixpoint string_at (k : nat) (a : Z) : M ram (list Z) :=
  match k with
  | O => diverge
  | S k => c <- ld8 a ;; if c =? 0 then ret [] else l <- string_at k (a + 1) ;; ret (c :: l)
  end.
Definition open (path mode : Z) : U Z := fun s =>
  match scan path (fun k => string_at k path) (u_mem s) with
  | Ok (l, _) => let '(r, o) := os_open l mode (u_os s) in Ok (r, s <| u_os := o |>)
  | _ => Ok (-1, s)
  end.
Definition close (fd : Z) : U Z := fun s => let '(r, o) := os_close fd (u_os s) in Ok (r, s <| u_os := o |>).
Definition fstat (fd st : Z) : U Z := fun s =>
  let '(r, bs, o) := os_fstat fd (u_os s) in
  if backed (u_mem s) st (length bs) then Ok (r, Ust _ (wrbytes (u_mem s) st bs) o)
  else Ok (-1, s <| u_os := o |>).
Definition stat (n st : Z) : U Z :=
  fd <- open n O_RDONLY ;;
  if fd <? 0 then ret (-1)
  else
    r <- fstat fd st ;;
    close fd ;;;
    ret r.

(** ** Formatted output *)

Definition digits (d : Z) : Z := if d <? 10 then ch "0" + d else ch "A" + (d - 10).

Definition putc (fd c : Z) : U unit := write1 fd c ;;; ret tt.
Fixpoint putcs (fd : Z) (l : list Z) : U unit :=
  match l with
  | [] => ret tt
  | c :: l => putc fd c ;;; putcs fd l
  end.

(** [do buf[i++] = digits[x % base]; while((x /= base) != 0);]: the digits,
    least significant first.  The 16 places of [buf] are enough fuel when they
    are not overrun. *)
Fixpoint printint_loop (k : nat) (x base : Z) : U (list Z) :=
  match k with
  | O => fault 0
  | S k =>
      let d := digits (x mod base) in
      if negb (x / base =? 0) then l <- printint_loop k (x / base) base ;; ret (d :: l) else ret [d]
  end.
Definition printint (fd xx base : Z) (sgn : bool) : U unit :=
  let neg := sgn && (xx <? 0) in
  let x := if neg then u32 (- xx) else u32 xx in
  buf <- printint_loop 16 x base ;;
  buf <- (if neg then if (length buf <? 16)%nat then ret (buf ++ [ch "-"]) else fault 0 else ret buf) ;;
  putcs fd (reverse buf).

Fixpoint printptr_loop (k : nat) (fd x : Z) : U unit :=
  match k with
  | O => ret tt
  | S k => putc fd (digits (Z.shiftr x 60)) ;;; printptr_loop k fd (u64 (Z.shiftl x 4))
  end.
Definition printptr (fd x : Z) : U unit :=
  putc fd (ch "0") ;;; putc fd (ch "x") ;;; printptr_loop 16 fd (u64 x).

(** A conversion takes the next argument; [va_arg] beyond the last one is
    undefined. *)
Definition va_arg (ap : list Z) : U (Z * list Z) :=
  match ap with a :: ap => ret (a, ap) | [] => fault 0 end.

(** The string at [s], or (null). *)
Definition puts (fd s : Z) : U unit :=
  if s =? 0 then putcs fd (ch <$> ["("; "n"; "u"; "l"; "l"; ")"]%char)
  else fun st => match scan s (fun k => string_at k s) (u_mem st) with
                 | Ok (l, _) => putcs fd l st
                 | _ => Fault s
                 end.

Fixpoint vprintf (fd : Z) (fmt : list Z) (state : bool) (ap : list Z) : U unit :=
  match fmt with
  | [] => ret tt
  | c :: fmt =>
      if negb state then
        if c =? ch "%" then vprintf fd fmt true ap
        else putc fd c ;;; vprintf fd fmt false ap
      else if c =? ch "d" then
        let* (x, ap) := va_arg ap in printint fd (i32 x) 10 true ;;; vprintf fd fmt false ap
      else if c =? ch "l" then
        let* (x, ap) := va_arg ap in printint fd (i32 x) 10 false ;;; vprintf fd fmt false ap
      else if c =? ch "x" then
        let* (x, ap) := va_arg ap in printint fd (i32 x) 16 false ;;; vprintf fd fmt false ap
      else if c =? ch "p" then
        let* (x, ap) := va_arg ap in printptr fd x ;;; vprintf fd fmt false ap
      else if c =? ch "s" then
        let* (x, ap) := va_arg ap in puts fd x ;;; vprintf fd fmt false ap
      else if c =? ch "c" then
        let* (x, ap) := va_arg ap in putc fd x ;;; vprintf fd fmt false ap
      else if c =? ch "%" then putc fd c ;;; vprintf fd fmt false ap
      else putc fd (ch "%") ;;; putc fd c ;;; vprintf fd fmt false ap
  end.
Definition fprintf (fd : Z) (fmt : string) (ap : list Z) : U unit :=
  vprintf fd (ch <$> String.list_ascii_of_string fmt) false ap.
Definition printf (fmt : string) (ap : list Z) : U unit := fprintf 1 fmt ap.
End Io.
