(* ===== verification/UlibProof.v ===== *)
(** * The C library of user programs: what its routines compute *)

From S2P Require Import Prelude CInt Memory KMonad KString Blocks User Ulib.

(** ** Strings *)

(** A string with its terminator inside RAM. *)
Definition str_in (m : ram) (a : Z) (l : list Z) : Prop :=
  cstr m a l /\ ram_lo m <= a /\ a + Z.of_nat (length l) < ram_hi m.

Lemma str_in_cons m a c l :
  str_in m a (c :: l) -> ld8 a m = Ok (c, m) /\ c <> 0 /\ str_in m (a + 1) l.
Proof.
  intros (Hc & H1 & H2). apply cstr_cons in Hc as (Hb & Hn & Hc). cbn [length] in H2. split_and!.
  - rewrite ld8_ok by bk. by rewrite peek1_byte, Hb.
  - done.
  - split_and!; [done|lia..].
Qed.
Lemma str_in_nil m a : str_in m a [] -> ld8 a m = Ok (0, m).
Proof.
  intros (Hc & H1 & H2). apply cstr_nil in Hc. cbn in H2. rewrite ld8_ok by bk. by rewrite peek1_byte, Hc.
Qed.

(** The first character of a string, 0 for the empty one. *)
Lemma str_in_hd m a l : str_in m a l -> ld8 a m = Ok (default 0 (hd_error l), m).
Proof. destruct l as [|c l]; intros Hl; [by apply str_in_nil|by apply str_in_cons in Hl as [? _]]. Qed.
Lemma hd_zero m a l : str_in m a l -> default 0 (hd_error l) = 0 <-> l = [].
Proof. destruct l as [|c l]; intros Hl; [done|]. apply str_in_cons in Hl as (_ & Hc & _). done. Qed.

Lemma scan_ok {A} a (c : nat -> M ram A) m r : c (S (Z.to_nat (ram_hi m - a))) m = r -> scan a c m = r.
Proof. done. Qed.

(** A string that a change of memory does not touch. *)
Lemma str_in_same P m m' a l :
  same_off P m m' -> (forall x, a <= x <= a + Z.of_nat (length l) -> ~ P x) -> str_in m a l -> str_in m' a l.
Proof.
  intros (E1 & E2 & Eb) Hp ([H1 H2] & H3 & H4). split_and!; [split| |]; rewrite ?E1, ?E2; try done.
  - intros i c Hi. rewrite Eb; [by apply H1|]. apply Hp. apply lookup_lt_Some in Hi. lia.
  - rewrite Eb; [done|]. apply Hp. lia.
Qed.

(** A string that is cut by storing 0, and what follows it. *)
Lemma str_in_cut m a l c t :
  str_in m a (l ++ c :: t) -> let m' := poke 1 m (a + Z.of_nat (length l)) 0 in
  str_in m' a l /\ str_in m' (a + Z.of_nat (length l) + 1) t.
Proof.
  intros ([H1 H2] & H3 & H4) m'. rewrite length_app in H2, H4. cbn [length] in H2, H4.
  assert (forall x, x <> a + Z.of_nat (length l) -> byte_at m' x = byte_at m x) as Hb.
  { intros x Hx. unfold m'. rewrite byte_at_poke1. by rewrite decide_False. }
  split; (split_and!; [split| |]); unfold m'; rewrite ?ram_lo_poke, ?ram_hi_poke; try lia; fold m'.
  - intros i x Hi. pose proof (lookup_lt_Some _ _ _ Hi). rewrite Hb by lia. apply H1. by apply lookup_app_l_Some.
  - unfold m'. rewrite byte_at_poke1. by rewrite decide_True.
  - intros i x Hi. rewrite Hb by lia.
    replace (a + Z.of_nat (length l) + 1 + Z.of_nat i) with (a + Z.of_nat (S (length l) + i)) by lia. apply H1.
    rewrite lookup_app_r by lia. replace (S (length l) + i - length l)%nat with (S i) by lia. done.
  - rewrite Hb by lia. rewrite <- H2. f_equal. lia.
Qed.

Lemma str_in_bytes m a l : str_in m a l -> rdbytes m a (length l) = l.
Proof.
  intros ([H1 _] & _). apply list_eq. intros i. destruct (decide (i < length l)%nat) as [Hi|Hi].
  - destruct (lookup_lt_is_Some_2 l i Hi) as [c Hc]. rewrite rdbytes_lookup, Hc by done. f_equal. by apply H1.
  - rewrite !lookup_ge_None_2; [done|lia|rewrite length_rdbytes; lia].
Qed.

(** [strchr] finds the first occurrence. *)
Lemma strchr_loop_found m k s l c t :
  str_in m s (l ++ c :: t) -> c ∉ l -> (length l < k)%nat ->
  strchr_loop k s c m = Ok (s + Z.of_nat (length l), m).
Proof.
  revert s l. induction k as [|k IH]; intros s l Hs Hc Hk; [lia|]. cbn [strchr_loop].
  destruct l as [|d l]; cbn [app length] in *.
  - apply str_in_cons in Hs as (E & Hn & _). rewrite (bind_ok _ _ _ _ _ E), (proj2 (Z.eqb_neq c 0)) by done.
    rewrite Z.eqb_refl. by rewrite Z.add_0_r.
  - apply str_in_cons in Hs as (E & Hn & Hs). rewrite not_elem_of_cons in Hc. destruct Hc as [Hd Hc].
    rewrite (bind_ok _ _ _ _ _ E), (proj2 (Z.eqb_neq d 0)), (proj2 (Z.eqb_neq d c)) by done.
    rewrite (IH (s + 1) l Hs Hc) by lia. unfold ret. do 2 f_equal. lia.
Qed.
Lemma strchr_loop_none m k s l c :
  str_in m s l -> c ∉ l -> (length l < k)%nat -> strchr_loop k s c m = Ok (0, m).
Proof.
  revert s l. induction k as [|k IH]; intros s l Hs Hc Hk; [lia|]. cbn [strchr_loop].
  destruct l as [|d l]; cbn [length] in *.
  - by rewrite (bind_ok _ _ _ _ _ (str_in_nil _ _ Hs)).
  - apply str_in_cons in Hs as (E & Hn & Hs). rewrite not_elem_of_cons in Hc. destruct Hc as [Hd Hc].
    rewrite (bind_ok _ _ _ _ _ E), (proj2 (Z.eqb_neq d 0)), (proj2 (Z.eqb_neq d c)) by done. apply (IH _ l); [done..|lia].
Qed.
Lemma strchr_found m s l c t :
  str_in m s (l ++ c :: t) -> c ∉ l -> strchr s c m = Ok (s + Z.of_nat (length l), m).
Proof.
  intros Hs Hc. apply (strchr_loop_found m _ s l c t Hs Hc). destruct Hs as (_ & ? & Hh).
  rewrite length_app in Hh. cbn in Hh. lia.
Qed.
Lemma strchr_none m s l c : str_in m s l -> c ∉ l -> strchr s c m = Ok (0, m).
Proof. intros Hs Hc. apply (strchr_loop_none m _ s l c Hs Hc). destruct Hs as (_ & ? & Hh). lia. Qed.

(** ** Memory *)

Lemma copy_down_spec n : forall d s m,
  ram_lo m <= s -> ram_lo m <= d -> s + Z.of_nat n <= ram_hi m -> d + Z.of_nat n <= ram_hi m -> s <= d ->
  exists m', copy_down n (d + Z.of_nat n) (s + Z.of_nat n) m = Ok (tt, m') /\
    same_off (fun x => d <= x < d + Z.of_nat n) m m' /\
    forall i, 0 <= i < Z.of_nat n -> byte_at m' (d + i) = byte_at m (s + i).
Proof.
  induction n as [|n IH]; intros d s m H1 H2 H3 H4 Hsd; cbn [copy_down].
  - exists m. split_and!; [done|apply same_off_refl|lia].
  - replace (s + Z.of_nat (S n) - 1) with (s + Z.of_nat n) by lia.
    replace (d + Z.of_nat (S n) - 1) with (d + Z.of_nat n) by lia.
    cstep. cstep. set (m1 := poke 1 m _ _).
    destruct (IH d s m1) as (m' & E & So & Hb); unfold m1 in *; rewrite ?ram_lo_poke, ?ram_hi_poke; try lia.
    exists m'. split_and!; [done| |].
    + eapply same_off_trans; [apply same_off_poke|exact So|]. cbv beta. lia.
    + intros i Hi. destruct (decide (i = Z.of_nat n)) as [->|].
      * rewrite (proj2 (proj2 So)) by lia. rewrite byte_at_poke1, decide_True, peek1_byte by done.
        apply u8_id, byte_at_range.
      * rewrite Hb by lia. rewrite byte_at_poke1. case_decide; [lia|done].
Qed.

(** [memmove] copies also when the ranges overlap. *)
Lemma umemmove_spec d s n m :
  0 <= n -> ram_lo m <= s -> ram_lo m <= d -> s + n <= ram_hi m -> d + n <= ram_hi m ->
  exists m', memmove d s n m = Ok (d, m') /\ same_off (fun x => d <= x < d + n) m m' /\
    forall i, 0 <= i < n -> byte_at m' (d + i) = byte_at m (s + i).
Proof.
  intros Hn H1 H2 H3 H4. unfold memmove. destruct (Z.ltb_spec d s).
  - destruct (move_up_spec (Z.to_nat n) d s m) as (m' & E & So & Hb); try lia. rewrite !Z2Nat.id in * by lia.
    change copy_up with move_up. rewrite (bind_ok _ _ _ _ _ E). by exists m'.
  - destruct (copy_down_spec (Z.to_nat n) d s m) as (m' & E & So & Hb); try lia. rewrite !Z2Nat.id in * by lia.
    rewrite (bind_ok _ _ _ _ _ E). by exists m'.
Qed.

(** Moving a string to another place. *)
Lemma str_in_moved m m' s d l :
  same_off (fun x => d <= x < d + Z.of_nat (length l)) m m' -> ram_lo m <= d -> d + Z.of_nat (length l) <= ram_hi m ->
  (forall i, 0 <= i < Z.of_nat (length l) -> byte_at m' (d + i) = byte_at m (s + i)) ->
  str_in m s l -> forall i c, l !! i = Some c -> byte_at m' (d + Z.of_nat i) = c.
Proof.
  intros So H1 H2 Hb ([Hc _] & _) i c Hi. pose proof (lookup_lt_Some _ _ _ Hi). rewrite Hb by lia. by apply Hc.
Qed.
