(* ===== verification/Grep.v ===== *)
(** * grep (user/grep.c)

    The matcher of Kernighan and Pike over strings in RAM, the loop that cuts
    the input into lines, and what they compute: [re_spec] is the meaning of a
    pattern, [lines] the lines of a text. *)

From S2P Require Import Prelude CInt Memory KMonad KString Blocks User Ulib.

(** ** The program *)

(** [matchstar]; [here] is [matchhere(re, _)].  [k] bounds the bytes of the
    text. *)
Fixpoint matchstar_loop (here : Z -> M ram Z) (k : nat) (c text : Z) : M ram Z :=
  match k with
  | O => diverge
  | S k =>
      r <- here text ;;
      if negb (r =? 0) then ret 1
      else
        t <- ld8 text ;;
        if t =? 0 then ret 0
        else if (t =? c) || (c =? ch ".") then matchstar_loop here k c (text + 1)
        else ret 0
  end.
Definition matchstar (here : Z -> M ram Z) (c text : Z) : M ram Z :=
  scan text (fun k => matchstar_loop here k c text).

(** Every recursive call is further on in the pattern. *)
Fixpoint matchhere (fuel : nat) (re text : Z) : M ram Z :=
  match fuel with
  | O => diverge
  | S fuel =>
      r0 <- ld8 re ;;
      if r0 =? 0 then ret 1
      else
        r1 <- ld8 (re + 1) ;;
        if r1 =? ch "*" then matchstar (matchhere fuel (re + 2)) r0 text
        else if (r0 =? ch "$") && (r1 =? 0) then
          t <- ld8 text ;;
          ret (if t =? 0 then 1 else 0)
        else
          t <- ld8 text ;;
          if negb (t =? 0) && ((r0 =? ch ".") || (r0 =? t)) then matchhere fuel (re + 1) (text + 1)
          else ret 0
  end.

Fixpoint match_loop (here : Z -> M ram Z) (k : nat) (text : Z) : M ram Z :=
  match k with
  | O => diverge
  | S k =>
      r <- here text ;;
      if negb (r =? 0) then ret 1
      else
        t <- ld8 text ;;
        if negb (t =? 0) then match_loop here k (text + 1) else ret 0
  end.
Definition match_ (re text : Z) : M ram Z :=
  r0 <- ld8 re ;;
  if r0 =? ch "^" then scan re (fun fuel => matchhere fuel (re + 1) text)
  else scan re (fun fuel => scan text (fun k => match_loop (matchhere fuel re) k text)).

Definition sizeof_grepbuf : Z := 1024.

Section Grep.
Context `{Os} (buf : Z).

(** The inner loop: the lines that are complete in the buffer, from [p] on. *)
Definition grep_line (pattern p : Z) : U (Z + Z) :=
  q <- onmem (strchr p ch_nl) ;;
  if q =? 0 then ret (inr p)
  else
    onmem (st8 q 0) ;;;
    r <- onmem (match_ pattern p) ;;
    (if negb (r =? 0) then
       onmem (st8 q ch_nl) ;;;
       write 1 p (q + 1 - p) ;;;
       ret tt
     else ret tt) ;;;
    ret (inl (q + 1)).

(** One iteration of the outer loop; [m] is the number of bytes in the buffer.
    The buffer has at most [sizeof_grepbuf] lines. *)
Definition grep_read (pattern fd m : Z) : U (Z + unit) :=
  n <- read fd (buf + m) (i32 (u64 (sizeof_grepbuf - m - 1))) ;;
  if 0 <? n then
    let m := i32 (m + n) in
    onmem (st8 (buf + m) 0) ;;;
    p <- loop (S (Z.to_nat sizeof_grepbuf)) (grep_line pattern) buf ;;
    if 0 <? m then
      let m := i32 (m - (p - buf)) in
      onmem (memmove buf p m) ;;;
      ret (inl m)
    else ret (inl m)
  else ret (inr tt).

(** [fuel] bounds the number of reads. *)
Definition grep (fuel : nat) (pattern fd : Z) : U unit := loop fuel (grep_read pattern fd) 0.

(** [main]: the exit status.  [argv] are addresses of strings. *)
Fixpoint grep_files (fuel : nat) (pattern : Z) (files : list Z) : U Z :=
  match files with
  | [] => ret 0
  | f :: files =>
      fd <- open f 0 ;;
      if fd <? 0 then printf "grep: cannot open %s
" [f] ;;; ret 1
      else
        grep fuel pattern fd ;;;
        close fd ;;;
        grep_files fuel pattern files
  end.
Definition grep_main (fuel : nat) (argv : list Z) : U Z :=
  match argv with
  | [] | [_] => fprintf 2 "usage: grep pattern [file ...]
" [] ;;; ret 1
  | [_; pattern] => grep fuel pattern 0 ;;; ret 0
  | _ :: pattern :: files => grep_files fuel pattern files
  end.
End Grep.

(** ** The meaning of a pattern *)

Inductive item := One (c : Z) | Star (c : Z).

(** The items of a pattern and whether it ends in an anchor. *)
Fixpoint items (re : list Z) : list item * bool :=
  match re with
  | [] => ([], false)
  | c :: re' =>
      match re' with
      | d :: re'' =>
          if d =? ch "*" then let '(l, e) := items re'' in (Star c :: l, e)
          else let '(l, e) := items re' in (One c :: l, e)
      | [] => if c =? ch "$" then ([], true) else ([One c], false)
      end
  end.

Definition matches (c t : Z) : Prop := c = ch "." \/ c = t.

Inductive lang : list item -> list Z -> Prop :=
| lang_nil : lang [] []
| lang_one c t l v : matches c t -> lang l v -> lang (One c :: l) (t :: v)
| lang_star c l u v : Forall (matches c) u -> lang l v -> lang (Star c :: l) (u ++ v).

(** A pattern matches a text when the text has a part in its language; an
    anchor ties that part to the start or to the end. *)
Definition re_here (re text : list Z) : Prop := exists v w,
  text = v ++ w /\ lang (items re).1 v /\ ((items re).2 = true -> w = []).
Definition re_spec (re text : list Z) : Prop :=
  match re with
  | c :: re' => if c =? ch "^" then re_here re' text
                else exists u t, text = u ++ t /\ re_here re t
  | [] => True
  end.

(** ** Lines *)

(** The lines of a text that are complete, and what is after the last one. *)
Fixpoint lines (t : list Z) : list (list Z) * list Z :=
  match t with
  | [] => ([], [])
  | c :: t =>
      let '(ls, r) := lines t in
      if c =? ch_nl then ([] :: ls, r)
      else match ls with [] => ([], c :: r) | l :: ls => ((c :: l) :: ls, r) end
  end.

(** What grep prints of the lines [ls]: those that match, each with its end of
    line. *)
Inductive grep_out (re : list Z) : list (list Z) -> list Z -> Prop :=
| grep_out_nil : grep_out re [] []
| grep_out_yes l ls out : re_spec re l -> grep_out re ls out -> grep_out re (l :: ls) ((l ++ [ch_nl]) ++ out)
| grep_out_no l ls out : ~ re_spec re l -> grep_out re ls out -> grep_out re (l :: ls) out.

(** An operating system on which [fd] is a file that is read from front to
    back, in pieces, and descriptor 1 collects what is written. *)
Class Stream `{Os} (fd : Z) := {
  st_in : os_t -> list Z;
  st_out : os_t -> list Z;
  st_read o n : 0 < n -> exists k o', os_read fd n o = (Z.of_nat k, take k (st_in o), o') /\
    (k <= Z.to_nat n)%nat /\ (k <= length (st_in o))%nat /\ (st_in o <> [] -> (0 < k)%nat) /\
    st_in o' = drop k (st_in o) /\ st_out o' = st_out o;
  st_write o bs : exists r o', os_write 1 bs o = (r, o') /\ st_in o' = st_in o /\ st_out o' = st_out o ++ bs
}.
