(* ===== verification/GrepThm.v ===== *)
(** * grep: the matcher computes the meaning of a pattern *)

From S2P Require Import Prelude CInt Memory KMonad KString Blocks User Ulib UlibProof Grep.

(** ** Languages *)

Lemma items_star c re : items (c :: ch "*" :: re) = (Star c :: (items re).1, (items re).2).
Proof. cbn. by destruct (items re). Qed.
Lemma items_one c re :
  hd_error re <> Some (ch "*") -> ~ (c = ch "$" /\ re = []) -> items (c :: re) = (One c :: (items re).1, (items re).2).
Proof.
  intros Hd Hs. cbn. destruct re as [|d re].
  - destruct (Z.eqb_spec c (ch "$")); [by destruct Hs|done].
  - destruct (Z.eqb_spec d (ch "*")) as [->|]; [done|]. by destruct (items _).
Qed.

Lemma re_here_nil text : re_here [] text.
Proof. exists [], text. split_and!; [done|constructor|done]. Qed.
Lemma re_here_end text : re_here [ch "$"] text <-> text = [].
Proof.
  split.
  - intros (v & w & -> & Hl & Hw). cbn in Hl, Hw. inversion Hl. by rewrite Hw.
  - intros ->. exists [], []. split_and!; [done|constructor|done].
Qed.
Lemma re_here_one c re text :
  hd_error re <> Some (ch "*") -> ~ (c = ch "$" /\ re = []) ->
  re_here (c :: re) text <-> exists t text', text = t :: text' /\ matches c t /\ re_here re text'.
Proof.
  intros Hd Hs. unfold re_here. rewrite (items_one c re Hd Hs). cbn [fst snd]. split.
  - intros (v & w & -> & Hl & Hw). inversion Hl; subst. eexists _, _. split; [done|]. split; [done|]. by eexists _, w.
  - intros (t & text' & -> & Hm & v & w & -> & Hl & Hw). exists (t :: v), w. split_and!; [done|by constructor|done].
Qed.
Lemma re_here_star c re text :
  re_here (c :: ch "*" :: re) text <-> exists u t, text = u ++ t /\ Forall (matches c) u /\ re_here re t.
Proof.
  unfold re_here. rewrite items_star. cbn [fst snd]. split.
  - intros (v & w & -> & Hl & Hw). inversion Hl; subst. eexists u, _. rewrite <- app_assoc. split; [done|]. split; [done|].
    by eexists _, w.
  - intros (u & t & -> & Hu & v & w & -> & Hl & Hw). exists (u ++ v), w. rewrite app_assoc.
    split_and!; [done|by constructor|done].
Qed.

(** ** The matcher *)

Definition bool_z (b : bool) : Z := if b then 1 else 0.

(** [here] decides [P] on the strings in RAM. *)
Definition decides (m : ram) (here : Z -> M ram Z) (P : list Z -> Prop) : Prop :=
  forall a l, str_in m a l -> exists b : bool, here a m = Ok (bool_z b, m) /\ (b = true <-> P l).

Lemma matchstar_loop_ok m here P c k text l :
  decides m here P -> str_in m text l -> (length l < k)%nat ->
  exists b : bool, matchstar_loop here k c text m = Ok (bool_z b, m) /\
    (b = true <-> exists u t, l = u ++ t /\ Forall (matches c) u /\ P t).
Proof.
  intros Hd. revert text l. induction k as [|k IH]; intros text l Hl Hk; [lia|]. cbn [matchstar_loop].
  destruct (Hd text l Hl) as (b & E & Hb). rewrite (bind_ok _ _ _ _ _ E). destruct b; cbn [bool_z Z.eqb negb].
  { exists true. split; [done|]. split; [|done]. intros _. exists [], l. split_and!; [done|constructor|by apply Hb]. }
  assert (~ P l) as Hn by (intros ?%Hb; done).
  rewrite (bind_ok _ _ _ _ _ (str_in_hd _ _ _ Hl)). destruct l as [|t l]; cbn [hd_error default from_option id].
  { exists false. split; [done|]. split; [done|]. intros (u & t & Hut & _ & Ht). symmetry in Hut.
    by apply app_nil in Hut as [-> ->]. }
  apply str_in_cons in Hl as (_ & Ht0 & Hl). rewrite (proj2 (Z.eqb_neq t 0)) by done. cbn [length] in Hk.
  destruct ((t =? c) || (c =? ch ".")) eqn:Em.
  - assert (matches c t) as Hm by (apply orb_prop in Em as [?%Z.eqb_eq| ?%Z.eqb_eq]; [by right|by left]).
    destruct (IH (text + 1) l Hl ltac:(lia)) as (b & E' & Hb'). exists b. split; [done|]. rewrite Hb'. split.
    + intros (u & s & -> & Hu & Hs). exists (t :: u), s. split_and!; [done|by constructor|done].
    + intros ([|x u] & s & Hs & Hu & Hp); cbn in Hs; [by subst|]. injection Hs as <- ->.
      exists u, s. split_and!; [done|by apply Forall_cons in Hu as [_ ?]|done].
  - exists false. split; [done|]. split; [done|]. intros ([|x u] & s & Hs & Hu & Hp); cbn in Hs; [by subst|].
    injection Hs as <- ->. apply Forall_cons in Hu as [Hm _]. apply orb_false_elim in Em as [E1 E2].
    apply Z.eqb_neq in E1, E2. destruct Hm; congruence.
Qed.

Lemma matchhere_ok m fuel re r :
  str_in m re r -> (length r < fuel)%nat -> decides m (matchhere fuel re) (re_here r).
Proof.
  revert re r. induction fuel as [|fuel IH]; intros re r Hr Hf text l Hl; [lia|]. cbn [matchhere].
  rewrite (bind_ok _ _ _ _ _ (str_in_hd _ _ _ Hr)). destruct r as [|c r]; cbn [hd_error default from_option id].
  { exists true. split; [done|]. split; [intros _; apply re_here_nil|done]. }
  apply str_in_cons in Hr as (_ & Hc0 & Hr). rewrite (proj2 (Z.eqb_neq c 0)) by done. cbn [length] in Hf.
  rewrite (bind_ok _ _ _ _ _ (str_in_hd _ _ _ Hr)).
  destruct (Z.eqb_spec (default 0 (hd_error r)) (ch "*")) as [Es|Es].
  - destruct r as [|d r]; [done|]. cbn in Es. subst d. apply str_in_cons in Hr as (_ & _ & Hr). cbn [length] in Hf.
    replace (re + 1 + 1) with (re + 2) in Hr by lia.
    destruct (matchstar_loop_ok m (matchhere fuel (re + 2)) (re_here r) c (S (Z.to_nat (ram_hi m - text))) text l)
      as (b & E & Hb); [apply IH; [done|lia]|done|destruct Hl as (_ & ? & ?); lia|].
    exists b. split; [done|]. by rewrite re_here_star.
  - assert (hd_error r <> Some (ch "*")) as Hd by (intros E; by rewrite E in Es).
    destruct ((c =? ch "$") && (default 0 (hd_error r) =? 0)) eqn:Ed.
    + apply andb_true_iff in Ed as [->%Z.eqb_eq E0%Z.eqb_eq]. apply (hd_zero m (re + 1)) in E0 as ->; [|done].
      rewrite (bind_ok _ _ _ _ _ (str_in_hd _ _ _ Hl)). exists (default 0 (hd_error l) =? 0).
      split; [by destruct (_ =? 0)|]. by rewrite re_here_end, Z.eqb_eq, hd_zero.
    + assert (~ (c = ch "$" /\ r = [])) as Hs.
      { intros [-> ->]. by rewrite Z.eqb_refl in Ed. }
      rewrite (bind_ok _ _ _ _ _ (str_in_hd _ _ _ Hl)). pose proof (re_here_one c r l Hd Hs) as Hone.
      destruct l as [|t l]; cbn [hd_error default from_option id Z.eqb negb andb].
      { exists false. split; [done|]. rewrite Hone. split; [done|]. by intros (? & ? & ? & _). }
      apply str_in_cons in Hl as (_ & Ht0 & Hl). rewrite (proj2 (Z.eqb_neq t 0)) by done. cbn [negb andb].
      destruct ((c =? ch ".") || (c =? t)) eqn:Em.
      * assert (matches c t) as Hm by (apply orb_prop in Em as [?%Z.eqb_eq| ?%Z.eqb_eq]; [by left|by right]).
        destruct (IH (re + 1) r Hr ltac:(lia) (text + 1) l Hl) as (b & E & Hb). exists b. split; [done|].
        rewrite Hb, Hone. split; [eauto|]. by intros (? & ? & [= <- <-] & _ & ?).
      * exists false. split; [done|]. rewrite Hone. split; [done|]. intros (? & ? & [= <- <-] & Hm & _).
        apply orb_false_elim in Em as [E1%Z.eqb_neq E2%Z.eqb_neq]. by destruct Hm.
Qed.

Lemma match_loop_ok m here P k text l :
  decides m here P -> str_in m text l -> (length l < k)%nat ->
  exists b : bool, match_loop here k text m = Ok (bool_z b, m) /\ (b = true <-> exists u t, l = u ++ t /\ P t).
Proof.
  intros Hd. revert text l. induction k as [|k IH]; intros text l Hl Hk; [lia|]. cbn [match_loop].
  destruct (Hd text l Hl) as (b & E & Hb). rewrite (bind_ok _ _ _ _ _ E). destruct b; cbn [bool_z Z.eqb negb].
  { exists true. split; [done|]. split; [|done]. intros _. exists [], l. split; [done|by apply Hb]. }
  assert (~ P l) as Hn by (intros ?%Hb; done).
  rewrite (bind_ok _ _ _ _ _ (str_in_hd _ _ _ Hl)). destruct l as [|t l]; cbn [hd_error default from_option id].
  { exists false. split; [done|]. split; [done|]. intros (u & t & Hut & Ht). symmetry in Hut.
    by apply app_nil in Hut as [-> ->]. }
  apply str_in_cons in Hl as (_ & Ht0 & Hl). rewrite (proj2 (Z.eqb_neq t 0)) by done. cbn [length negb] in Hk |- *.
  destruct (IH (text + 1) l Hl ltac:(lia)) as (b & E' & Hb'). exists b. split; [done|]. rewrite Hb'. split.
  - intros (u & s & -> & Hs). by exists (t :: u), s.
  - intros ([|x u] & s & Hs & Hp); cbn in Hs; [by subst|]. injection Hs as <- ->. by exists u, s.
Qed.

Lemma match_ok m re r text l :
  str_in m re r -> str_in m text l ->
  exists b : bool, match_ re text m = Ok (bool_z b, m) /\ (b = true <-> re_spec r l).
Proof.
  intros Hr Hl. unfold match_. rewrite (bind_ok _ _ _ _ _ (str_in_hd _ _ _ Hr)).
  pose proof Hr as (_ & Hr1 & Hr2). pose proof Hl as (_ & Hl1 & Hl2).
  set (fuel := S (Z.to_nat (ram_hi m - re))). assert (length r < fuel)%nat as Hf by lia.
  destruct r as [|c r]; cbn [hd_error default from_option id re_spec].
  - destruct (match_loop_ok m (matchhere fuel re) (re_here []) (S (Z.to_nat (ram_hi m - text))) text l) as (b & E & Hb);
      [by apply matchhere_ok|done|lia|]. exists b. split; [exact E|]. rewrite Hb. split; [done|].
    intros _. exists [], l. split; [done|apply re_here_nil].
  - destruct (Z.eqb_spec c (ch "^")) as [->|Hc].
    + apply str_in_cons in Hr as (_ & _ & Hr). cbn [length] in *.
      destruct (matchhere_ok m fuel (re + 1) r Hr ltac:(lia) text l Hl) as (b & E & Hb). by exists b.
    + destruct (match_loop_ok m (matchhere fuel re) (re_here (c :: r)) (S (Z.to_nat (ram_hi m - text))) text l) as (b & E & Hb);
        [by apply matchhere_ok|done|lia|]. exists b. split; [exact E|done].
Qed.

(** ** Lines *)

Lemma lines_nonl r : ch_nl ∉ r -> lines r = ([], r).
Proof.
  induction r as [|c r IH]; intros Hr; [done|]. rewrite not_elem_of_cons in Hr. destruct Hr as [Hc Hr].
  cbn. rewrite (IH Hr). by rewrite (proj2 (Z.eqb_neq c ch_nl)) by done.
Qed.
Lemma lines_line l t : ch_nl ∉ l -> lines (l ++ ch_nl :: t) = (l :: (lines t).1, (lines t).2).
Proof.
  induction l as [|c l IH]; intros Hl; [cbn; by destruct (lines t)|].
  rewrite not_elem_of_cons in Hl. destruct Hl as [Hc Hl]. cbn. rewrite (IH Hl).
  by rewrite (proj2 (Z.eqb_neq c ch_nl)) by done.
Qed.
Lemma lines_app s t : lines (s ++ t) = ((lines s).1 ++ (lines ((lines s).2 ++ t)).1, (lines ((lines s).2 ++ t)).2).
Proof.
  induction s as [|c s IH]; cbn; [by destruct (lines t)|]. rewrite IH. destruct (lines s) as [ls r]. cbn [fst snd].
  destruct (Z.eqb_spec c ch_nl) as [->|Hc].
  - cbn. done.
  - destruct ls as [|l ls]; cbn; [|by destruct (lines (r ++ t))].
    rewrite (proj2 (Z.eqb_neq c ch_nl)) by done. by destruct (lines (r ++ t)) as [[|] ?].
Qed.
Lemma lines_rest s : ch_nl ∉ (lines s).2.
Proof.
  induction s as [|c s IH]; cbn; [apply not_elem_of_nil|]. destruct (lines s) as [ls r]. cbn in IH.
  destruct (Z.eqb_spec c ch_nl); [done|]. destruct ls; [|done]. cbn. rewrite not_elem_of_cons. done.
Qed.

Lemma grep_out_app re ls ls' o o' : grep_out re ls o -> grep_out re ls' o' -> grep_out re (ls ++ ls') (o ++ o').
Proof.
  intros Ho Ho'. induction Ho as [|l ls o Hl Ho IH|l ls o Hl Ho IH]; cbn; [done| |by apply grep_out_no].
  rewrite <- (app_assoc (l ++ [ch_nl])). by apply grep_out_yes.
Qed.

(** * Theorems about grep *)

Lemma lines_prefix r t : ch_nl ∉ r ->
  lines (r ++ t) = match (lines t).1 with
                   | [] => ([], r ++ (lines t).2)
                   | l :: ls => ((r ++ l) :: ls, (lines t).2)
                   end.
Proof.
  induction r as [|c r IH]; intros Hr; cbn [app]; [by destruct (lines t) as [[|] ?]|].
  rewrite not_elem_of_cons in Hr. destruct Hr as [Hc Hr]. cbn. rewrite (IH Hr).
  rewrite (proj2 (Z.eqb_neq c ch_nl)) by done. by destruct (lines t) as [[|] ?].
Qed.

(** Every line fits into the buffer. *)
Definition short (t : list Z) : Prop := Forall (fun l => (length l < 1023)%nat) ((lines t).1 ++ [(lines t).2]).

Lemma short_prefix r t : ch_nl ∉ r -> short (r ++ t) -> (length r < 1023)%nat.
Proof.
  intros Hr. unfold short. rewrite lines_prefix by done. destruct (lines t) as [[|l ls] x]; cbn [fst snd app];
    intros [H1 _]%Forall_cons; rewrite length_app in H1; lia.
Qed.
Lemma short_app s t : short (s ++ t) -> short ((lines s).2 ++ t).
Proof. unfold short. rewrite lines_app. cbn [fst snd]. rewrite <- app_assoc. by intros [_ ?]%Forall_app. Qed.

Lemma lines_rest_length s : (length (lines s).2 <= length s)%nat.
Proof.
  induction s as [|c s IH]; cbn; [lia|]. destruct (lines s) as [ls r]. cbn in IH.
  destruct (c =? ch_nl); cbn; [lia|]. destruct ls; cbn; lia.
Qed.

Lemma lines_rest_Forall (P : Z -> Prop) s : Forall P s -> Forall P (lines s).2.
Proof.
  induction s as [|c s IH]; [done|]. intros [Hc Hs]%Forall_cons. cbn. destruct (lines s) as [ls r]. specialize (IH Hs).
  destruct (c =? ch_nl); [done|]. destruct ls; cbn; [by constructor|done].
Qed.

Section GrepLoop.
Context `{OS : Os} (fd : Z) (ST : Stream fd) (buf pattern : Z) (re : list Z).

(** The pattern is outside the buffer, and both are in RAM. *)
Definition grep_mem (m : ram) : Prop :=
  str_in m pattern re /\ (pattern + Z.of_nat (length re) < buf \/ buf + 1024 <= pattern) /\
  0 < buf /\ ram_lo m <= buf /\ buf + 1024 <= ram_hi m.

Definition in_grepbuf (x : Z) : Prop := buf <= x < buf + 1024.

Lemma grep_mem_same m m' : same_off in_grepbuf m m' -> grep_mem m -> grep_mem m'.
Proof using.
  intros So (H1 & H2 & H3 & H4 & H5). pose proof So as (E1 & E2 & _). split_and!; rewrite ?E1, ?E2; try done.
  apply (str_in_same in_grepbuf m); [done| |done]. unfold in_grepbuf. lia.
Qed.
Lemma grep_poke m a v : in_grepbuf a -> same_off in_grepbuf m (poke 1 m a v).
Proof using. intros Ha. apply (same_off_weaken _ _ _ _ (same_off_poke 1 m a v)). unfold in_grepbuf in *. cbv beta. lia. Qed.

Lemma grep_line_none m o p t :
  str_in m p t -> ch_nl ∉ t -> grep_line pattern p (Ust _ m o) = Ok (inr p, Ust _ m o).
Proof using.
  intros Ht Hn. unfold grep_line. by rewrite (bind_ok _ _ _ _ _ (onmem_at _ _ _ _ _ (strchr_none _ _ _ _ Ht Hn))).
Qed.

(** Printing a line restores its end of line. *)
Lemma print_line m o p l t :
  str_in m p l -> str_in m (p + Z.of_nat (length l) + 1) t -> let q := p + Z.of_nat (length l) in
  let m' := poke 1 m q ch_nl in
  exists r o', write 1 p (q + 1 - p) (Ust _ m' o) = Ok (r, Ust _ m' o') /\
    st_in o' = st_in o /\ st_out o' = st_out o ++ (l ++ [ch_nl]) /\ str_in m' (q + 1) t.
Proof using ST.
  intros Hl Ht q m'. destruct (st_write o (l ++ [ch_nl])) as (r & o' & E & E1 & E2). exists r, o'.
  pose proof Hl as (_ & Hl1 & Hl2). pose proof Ht as (_ & Ht1 & Ht2).
  pose proof (same_off_poke 1 m q ch_nl) as So. fold m' in So. cbn [Z.of_nat] in So.
  assert (rdbytes m' p (Z.to_nat (q + 1 - p)) = l ++ [ch_nl]) as Eb.
  { replace (Z.to_nat (q + 1 - p)) with (length l + 1)%nat by lia. apply list_eq. intros i.
    destruct (decide (i < length l + 1)%nat) as [Hi|Hi].
    - rewrite rdbytes_lookup by done. destruct (decide (i = length l)) as [->|Hne].
      + rewrite lookup_app_r, Nat.sub_diag by lia. cbn. f_equal. unfold m'. rewrite byte_at_poke1. fold q.
        by rewrite decide_True.
      + rewrite lookup_app_l by lia. rewrite <- (str_in_bytes _ _ _ Hl). rewrite rdbytes_lookup by lia. f_equal.
        apply So. lia.
    - rewrite !lookup_ge_None_2; [done|rewrite length_app; cbn; lia|rewrite length_rdbytes; lia]. }
  split_and!; [|done|done|].
  - unfold write. cbn [u_mem u_os]. rewrite backed_true; [|unfold m'; rewrite ram_lo_poke; lia|unfold m'; rewrite ram_hi_poke; lia].
    rewrite Eb, E. done.
  - apply (str_in_same _ m m' _ _ So); [|done]. cbv beta. lia.
Qed.

(** One line: it is printed if it matches. *)
Lemma grep_line_some m o p l t :
  grep_mem m -> str_in m p (l ++ ch_nl :: t) -> ch_nl ∉ l ->
  buf <= p -> p + Z.of_nat (length (l ++ ch_nl :: t)) < buf + 1024 ->
  let q := p + Z.of_nat (length l) in
  exists m' o' out, grep_line pattern p (Ust _ m o) = Ok (inl (q + 1), Ust _ m' o') /\
    grep_mem m' /\ str_in m' (q + 1) t /\
    st_in o' = st_in o /\ st_out o' = st_out o ++ out /\ grep_out re [l] out.
Proof using ST.
  intros G Ht Hn Hp Hlen q. rewrite length_app in Hlen. cbn [length] in Hlen. unfold grep_line.
  rewrite (bind_ok _ _ _ _ _ (onmem_at _ _ _ _ _ (strchr_found _ _ _ _ _ Ht Hn))). fold q.
  pose proof G as (Hre & Hdis & Hbuf & Hlo & Hhi).
  assert (in_grepbuf q) as Hq by (unfold in_grepbuf, q; lia). assert (backed m q 1 = true) as Bq by bk.
  rewrite (proj2 (Z.eqb_neq q 0)) by (unfold in_grepbuf in Hq; lia).
  rewrite (bind_ok _ _ _ _ _ (onmem_at _ _ _ _ _ (st8_ok _ 0 _ Bq))). set (m1 := poke 1 m q 0).
  destruct (str_in_cut _ _ _ _ _ Ht) as [Hl Ht']. fold q m1 in Hl, Ht'.
  pose proof (grep_mem_same _ _ (grep_poke m q 0 Hq) G) as G1. fold m1 in G1.
  destruct (match_ok m1 pattern re p l (proj1 G1) Hl) as (b & E & Hb).
  rewrite (bind_ok _ _ _ _ _ (onmem_at _ _ _ _ _ E)). destruct b; cbn [bool_z Z.eqb negb].
  - assert (backed m1 q 1 = true) as Bq1 by (unfold m1; bk).
    rewrite !bind_assoc, (bind_ok _ _ _ _ _ (onmem_at _ _ _ _ _ (st8_ok _ ch_nl _ Bq1))).
    destruct (print_line m1 o p l t Hl Ht') as (r & o' & Ew & E1 & E2 & Ht''). fold q in Ew, Ht''.
    rewrite !bind_assoc, (bind_ok _ _ _ _ _ Ew). exists (poke 1 m1 q ch_nl), o', (l ++ [ch_nl]).
    split_and!; try done.
    + apply (grep_mem_same m1); [by apply grep_poke|done].
    + rewrite <- (app_nil_r (l ++ [ch_nl])). apply grep_out_yes; [by apply Hb|constructor].
  - exists m1, o, []. rewrite app_nil_r. split_and!; try done. apply grep_out_no; [|constructor].
    intros ?%Hb. done.
Qed.

(** The lines in the buffer. *)
Lemma grep_lines_ok fuel m o p t :
  grep_mem m -> str_in m p t -> buf <= p -> p + Z.of_nat (length t) < buf + 1024 -> (length t < fuel)%nat ->
  let r := (lines t).2 in
  exists m' o' out, loop fuel (grep_line pattern) p (Ust _ m o)
      = Ok (p + Z.of_nat (length t) - Z.of_nat (length r), Ust _ m' o') /\
    grep_mem m' /\ str_in m' (p + Z.of_nat (length t) - Z.of_nat (length r)) r /\
    st_in o' = st_in o /\ st_out o' = st_out o ++ out /\ grep_out re (lines t).1 out.
Proof using ST.
  revert m o p t. induction fuel as [|fuel IH]; intros m o p t G Ht Hp Hlen Hf; [lia|]. cbn [loop].
  destruct (decide (ch_nl ∈ t)) as [Hin|Hin].
  - destruct (list_elem_of_split_l _ _ Hin) as (l & t' & -> & Hl).
    destruct (grep_line_some m o p l t' G Ht Hl Hp Hlen) as (m1 & o1 & out1 & E & G1 & Ht1 & Ei & Eo & Ho).
    rewrite (bind_ok _ _ _ _ _ E). rewrite length_app in Hlen, Hf. cbn [length] in Hlen, Hf.
    destruct (IH m1 o1 _ t' G1 Ht1) as (m2 & o2 & out2 & E2 & G2 & Ht2 & Ei2 & Eo2 & Ho2); [lia..|].
    rewrite lines_line by done. cbn [fst snd]. rewrite length_app. cbn [length].
    replace (p + Z.of_nat (length l + S (length t')) - Z.of_nat (length (lines t').2))
      with (p + Z.of_nat (length l) + 1 + Z.of_nat (length t') - Z.of_nat (length (lines t').2)) by lia.
    exists m2, o2, (out1 ++ out2). split_and!; try done.
    + by rewrite Ei2.
    + by rewrite Eo2, Eo, app_assoc.
    + by apply (grep_out_app re [l]).
  - rewrite (bind_ok _ _ _ _ _ (grep_line_none m o p t Ht Hin)), lines_nonl by done. cbn [fst snd].
    replace (p + Z.of_nat (length t) - Z.of_nat (length t)) with p by lia.
    exists m, o, []. rewrite app_nil_r. split_and!; try done. constructor.
Qed.

(** ** The outer loop *)

Definition text_byte (c : Z) : Prop := 0 < c < 256.
Definition held (m : ram) (r : list Z) : Prop := forall i c, r !! i = Some c -> byte_at m (buf + Z.of_nat i) = c.

(** A piece of text is read behind [r] and terminated. *)
Lemma append_text m r x :
  grep_mem m -> held m r -> Forall text_byte (r ++ x) -> (length (r ++ x) < 1024)%nat ->
  let m1 := wrbytes m (buf + Z.of_nat (length r)) x in
  let m2 := poke 1 m1 (buf + Z.of_nat (length r + length x)) 0 in
  same_off in_grepbuf m m1 /\ same_off in_grepbuf m m2 /\ str_in m2 buf (r ++ x).
Proof using.
  intros G Hr Ht Hlen m1 m2. pose proof G as (_ & _ & Hb & Hlo & Hhi). rewrite length_app in *.
  pose proof (wrbytes_same m (buf + Z.of_nat (length r)) x) as So. fold m1 in So.
  pose proof (same_off_poke 1 m1 (buf + Z.of_nat (length r + length x)) 0) as So2. fold m2 in So2.
  assert (same_off in_grepbuf m m1) as S1 by (apply (same_off_weaken _ _ _ _ So); unfold in_grepbuf; lia).
  assert (same_off in_grepbuf m m2) as S2 by (eapply same_off_trans; [exact So|exact So2|]; unfold in_grepbuf; lia).
  split_and!; [done|done|]. pose proof S2 as (E1 & E2 & _).
  assert (rdbytes m1 (buf + Z.of_nat (length r)) (length x) = x) as Ex.
  { apply rdbytes_wrbytes. intros c Hc. rewrite Forall_app, (Forall_forall _ x) in Ht. destruct Ht as [_ Ht].
    specialize (Ht c Hc). unfold text_byte in Ht. lia. }
  split_and!; [split| |]; rewrite ?E1, ?E2, ?length_app; try lia.
  - intros i c Hi. pose proof (lookup_lt_Some _ _ _ Hi) as Hlt. rewrite length_app in Hlt.
    assert (text_byte c) as Hc by (rewrite Forall_forall in Ht; apply Ht; by eapply list_elem_of_lookup_2).
    split; [|unfold text_byte in Hc; lia]. rewrite (proj2 (proj2 So2)) by lia.
    apply lookup_app_Some in Hi as [Hi|[Hge Hi]].
    + rewrite (proj2 (proj2 So)) by (apply lookup_lt_Some in Hi; lia). by apply Hr.
    + rewrite <- Ex, rdbytes_lookup in Hi by lia. injection Hi as <-. f_equal. lia.
  - unfold m2. rewrite byte_at_poke1. by rewrite decide_True.
Qed.

Lemma grep_read_end m o (r : list Z) :
  grep_mem m -> (length r < 1023)%nat -> st_in o = [] ->
  exists o', grep_read buf pattern fd (Z.of_nat (length r)) (Ust _ m o) = Ok (inr tt, Ust _ m o') /\ st_out o' = st_out o.
Proof using.
  intros G Hr Hin. pose proof G as (_ & _ & Hb & Hlo & Hhi). unfold grep_read.
  destruct (st_read o (1024 - Z.of_nat (length r) - 1)) as (k & o' & E & _ & Hk & _ & _ & Eo); [lia|].
  rewrite Hin in E, Hk. cbn in Hk. assert (k = 0%nat) as -> by lia. cbn [take Z.of_nat] in E.
  exists o'. split; [|done]. unfold sizeof_grepbuf. rewrite u64_id, i32_id by lia.
  unfold read, bind. cbn [u_os u_mem]. rewrite E. cbn [length]. rewrite backed_true by lia. done.
Qed.

Lemma grep_read_more m o r :
  grep_mem m -> held m r -> ch_nl ∉ r -> Forall text_byte (r ++ st_in o) -> (length r < 1023)%nat -> st_in o <> [] ->
  exists k m' o' out, let x := take k (st_in o) in let r' := (lines (r ++ x)).2 in
    grep_read buf pattern fd (Z.of_nat (length r)) (Ust _ m o) = Ok (inl (Z.of_nat (length r')), Ust _ m' o') /\
    (0 < k)%nat /\ grep_mem m' /\ held m' r' /\ st_in o' = drop k (st_in o) /\
    st_out o' = st_out o ++ out /\ grep_out re (lines (r ++ x)).1 out.
Proof using.
  intros G Hr Hnl Ht Hlen Hin. pose proof G as (_ & _ & Hb & Hlo & Hhi). unfold grep_read, sizeof_grepbuf.
  destruct (st_read o (1024 - Z.of_nat (length r) - 1)) as (k & o1 & E & Hk1 & Hk2 & Hk & Ei & Eo); [lia|].
  specialize (Hk Hin). set (x := take k (st_in o)) in *. assert (length x = k) as Hx by (unfold x; rewrite length_take; lia).
  rewrite u64_id, i32_id by lia. set (m1 := wrbytes m (buf + Z.of_nat (length r)) x).
  assert (read fd (buf + Z.of_nat (length r)) (1024 - Z.of_nat (length r) - 1) (Ust _ m o) = Ok (Z.of_nat k, Ust _ m1 o1)) as Er.
  { unfold read. cbn [u_os u_mem]. rewrite E. rewrite backed_true by lia. done. }
  rewrite (bind_ok _ _ _ _ _ Er). case_cmp. rewrite i32_id by lia. cbv zeta.
  assert (Forall text_byte (r ++ x)) as Htx.
  { apply Forall_app in Ht as [? ?]. apply Forall_app. split; [done|]. by apply Forall_take. }
  assert (length (r ++ x) = length r + k)%nat as Hrx by (rewrite length_app; lia).
  destruct (append_text m r x G Hr Htx ltac:(lia)) as (S1 & S2 & Hs). fold m1 in S1, S2, Hs. rewrite Hx in S2, Hs.
  replace (Z.of_nat (length r) + Z.of_nat k) with (Z.of_nat (length r + k)) by lia. pose proof S1 as (El & Eh & _).
  erewrite (bind_ok (onmem _)) by (apply onmem_at, st8_ok, backed_true; lia). set (m2 := poke 1 m1 _ 0) in *.
  destruct (grep_lines_ok 1025 m2 o1 buf (r ++ x)) as (m3 & o3 & out & E3 & G3 & Hr3 & Ei3 & Eo3 & Ho); [|done|lia..|].
  { by apply (grep_mem_same m). }
  rewrite (bind_ok _ _ _ _ _ E3). rewrite Hrx in *. set (r' := (lines (r ++ x)).2) in *. clear E3.
  assert (length r' <= length r + k)%nat as Hr' by (rewrite <- Hrx; apply lines_rest_length).
  set (p := buf + Z.of_nat (length r + k) - Z.of_nat (length r')) in *. case_cmp.
  replace (Z.of_nat (length r + k) - (p - buf)) with (Z.of_nat (length r')) by lia. rewrite i32_id by lia.
  pose proof G3 as (_ & _ & _ & Hlo3 & Hhi3). pose proof Hr3 as (_ & Hp1 & Hp2).
  destruct (umemmove_spec buf p (Z.of_nat (length r')) m3) as (m4 & E4 & S4 & Hm); [lia..|].
  rewrite (bind_ok _ _ _ _ _ (onmem_at _ _ _ _ _ E4)). exists k, m4, o3, out. cbv zeta. fold x r'.
  split_and!; try done.
  - apply (grep_mem_same m3); [|done]. apply (same_off_weaken _ _ _ _ S4). unfold in_grepbuf. lia.
  - intros i c Hi. by apply (str_in_moved m3 m4 p buf r' S4 ltac:(lia) ltac:(lia) Hm Hr3).
  - by rewrite Ei3.
  - by rewrite Eo3, Eo.
Qed.

(** The whole input. *)
Lemma grep_ok fuel m o r :
  grep_mem m -> held m r -> ch_nl ∉ r -> Forall text_byte (r ++ st_in o) -> short (r ++ st_in o) ->
  (length (st_in o) < fuel)%nat ->
  exists s' out, loop fuel (grep_read buf pattern fd) (Z.of_nat (length r)) (Ust _ m o) = Ok (tt, s') /\
    st_out (u_os s') = st_out o ++ out /\ grep_out re (lines (r ++ st_in o)).1 out.
Proof using.
  revert m o r. induction fuel as [|fuel IH]; intros m o r G Hr Hnl Ht Hs Hf; [lia|]. cbn [loop].
  pose proof (short_prefix r (st_in o) Hnl Hs) as Hlen. destruct (decide (st_in o = [])) as [Hin|Hin].
  - destruct (grep_read_end m o r G Hlen Hin) as (o' & E & Eo). rewrite (bind_ok _ _ _ _ _ E).
    exists (Ust _ m o'), []. rewrite Hin, !app_nil_r, lines_nonl by done. split_and!; [done|done|constructor].
  - destruct (grep_read_more m o r G Hr Hnl Ht Hlen Hin) as (k & m' & o' & out & E & Hk & G' & Hr' & Ei & Eo & Ho).
    rewrite (bind_ok _ _ _ _ _ E). set (x := take k (st_in o)) in *.
    assert (st_in o = x ++ st_in o') as Ex by (unfold x; rewrite Ei; by rewrite take_drop).
    assert ((length (st_in o') < length (st_in o))%nat).
    { rewrite Ei, length_drop. destruct (st_in o); [done|cbn; lia]. }
    rewrite Ex, app_assoc in Hs, Ht |- *.
    destruct (IH m' o' (lines (r ++ x)).2) as (s' & out' & E' & Eo' & Ho'); try done; [apply lines_rest| |by apply short_app|lia|].
    { apply Forall_app in Ht as [H1 H2]. apply Forall_app. split; [by apply lines_rest_Forall|done]. }
    exists s', (out ++ out'). split_and!; [done| |].
    + by rewrite Eo', Eo, app_assoc.
    + rewrite lines_app. cbn [fst]. by apply grep_out_app.
Qed.
End GrepLoop.

(** C16. The matcher of grep computes the meaning of patterns.  For a pattern
    and a text in RAM, [match_] returns 1 if the text has a part in the language
    of the pattern, tied to the start of the text by a leading caret and to its
    end by a final dollar, and 0 if it has none; a character followed by a star
    stands for any number of its occurrences and a dot for any character.  RAM
    is not changed. *)
Theorem grep_match_correct (m : ram) (re text : Z) (r t : list Z) :
  str_in m re r -> str_in m text t ->
  exists b : bool, match_ re text m = Ok (if b then 1 else 0, m) /\ (b = true <-> re_spec r t).
Proof. apply match_ok. Qed.

(** C17. grep prints the lines that match.  On a file that is delivered in
    pieces of any size, whose lines fit into the buffer and have no byte 0,
    [grep] returns, and it has written exactly the complete lines that match
    the pattern, in order, each with its end of line. *)
Theorem grep_correct `{OS : Os} (fd : Z) (ST : Stream fd) (buf pattern : Z) (re : list Z) (fuel : nat) (s : ust) :
  grep_mem buf pattern re (u_mem s) -> Forall text_byte (st_in (u_os s)) -> short (st_in (u_os s)) ->
  (length (st_in (u_os s)) < fuel)%nat ->
  exists s' out, grep buf fuel pattern fd s = Ok (tt, s') /\
    st_out (u_os s') = st_out (u_os s) ++ out /\ grep_out re (lines (st_in (u_os s))).1 out.
Proof.
  destruct s as [m o]. cbn [u_mem u_os]. intros G Ht Hs Hf.
  apply (grep_ok fd ST buf pattern re fuel m o []); try done. apply not_elem_of_nil.
Qed.

(** ** Examples *)

Definition zs (s : string) : list Z := ch <$> String.list_ascii_of_string s.
(** A string and its terminator, at [a]. *)
Definition put_str (m : ram) (a : Z) (s : string) : ram := wrbytes m a (zs s ++ [0]).
Definition ex_grep_ram : ram := put_str (put_str (Ram 0 8192 ∅) 4000 "^a*b.$") 5000 "aabc".

Lemma ex_grep_re : str_in ex_grep_ram 4000 (zs "^a*b.$").
Proof.
  split_and!; [split|done..]; [|done]. intros i c Hi. do 6 (destruct i as [|i]; [by injection Hi as <-|]). done.
Qed.
Lemma ex_grep_text : str_in ex_grep_ram 5000 (zs "aabc").
Proof.
  split_and!; [split|done..]; [|done]. intros i c Hi. do 4 (destruct i as [|i]; [by injection Hi as <-|]). done.
Qed.

Lemma grep_match_correct_witness : match_ 4000 5000 ex_grep_ram = Ok (1, ex_grep_ram) /\ re_spec (zs "^a*b.$") (zs "aabc").
Proof.
  destruct (grep_match_correct ex_grep_ram 4000 5000 _ _ ex_grep_re ex_grep_text) as ([] & E & Hb).
  - split; [exact E|]. by apply Hb.
  - exfalso. assert (match match_ 4000 5000 ex_grep_ram with Ok (r, _) => r | _ => 0 end = 1) as E1 by (by vm_compute).
    by rewrite E in E1.
Defined.

(** A file delivered in pieces of at most seven bytes, and an output. *)
#[export] Instance piece_os : Os := {
  os_t := list Z * list Z;
  os_read _ n o := let k := Nat.min (Z.to_nat n) (Nat.min 7 (length o.1)) in (Z.of_nat k, take k o.1, (drop k o.1, o.2));
  os_write _ bs o := (Z.of_nat (length bs), (o.1, o.2 ++ bs));
  os_open _ _ o := (-1, o); os_close _ o := (-1, o); os_fstat _ o := (-1, [], o); os_sbrk _ o := (false, o)
}.
#[export, refine] Instance piece_stream : Stream (H := piece_os) 3 := { st_in o := o.1; st_out o := o.2 }.
Proof.
  - intros o n Hn. eexists _, _. split; [done|]. cbn -[Nat.min]. split_and!; try done; try lia.
    destruct (o.1); [done|cbn [length]; lia].
  - intros o bs. by eexists _, _.
Defined.

Definition ex_text : list Z := zs "aab" ++ [ch_nl] ++ zs "xaabc" ++ [ch_nl] ++ zs "bz" ++ [ch_nl] ++ zs "abc".
Definition ex_grep_state : ust := Ust piece_os ex_grep_ram (ex_text, []).

Lemma grep_correct_witness : exists s' out, grep 6000 40 4000 3 ex_grep_state = Ok (tt, s') /\
  st_out (u_os s') = [] ++ out /\ grep_out (zs "^a*b.$") [zs "aab"; zs "xaabc"; zs "bz"] out.
Proof.
  apply (grep_correct 3 piece_stream 6000 4000 (zs "^a*b.$") 40 ex_grep_state).
  - split; [apply ex_grep_re|]. cbn. lia.
  - cbn. repeat constructor; done.
  - cbn. repeat constructor; cbn; lia.
  - cbn. lia.
Defined.
