(* ===== verification/UlibThm.v ===== *)
(** * Theorems about the C library of user programs *)

From S2P Require Import Prelude CInt Memory KMonad KString Blocks User Ulib UlibProof Grep GrepThm.

(** ** Decimal numerals *)

Definition is_digit (c : Z) : Prop := ch "0" <= c <= ch "9".
(** The value of digits, least or most significant first. *)
Definition dec_low (l : list Z) : Z := foldr (fun c n => (c - ch "0") + 10 * n) 0 l.
Definition dec_high (n : Z) (l : list Z) : Z := foldl (fun n c => n * 10 + c - ch "0") n l.

Lemma dec_high_reverse l n : dec_high n (reverse l) = n * 10 ^ Z.of_nat (length l) + dec_low l.
Proof.
  unfold dec_high. revert n. induction l as [|c l IH]; intros n; [cbn; lia|].
  rewrite reverse_cons, foldl_app, IH. cbn [foldl dec_low foldr length]. fold (dec_low l).
  rewrite Nat2Z.inj_succ, Z.pow_succ_r by lia. lia.
Qed.
Lemma dec_high_mono l n : 0 <= n -> Forall is_digit l -> n <= dec_high n l.
Proof.
  revert n. induction l as [|c l IH]; intros n Hn Hl; cbn; [lia|]. apply Forall_cons in Hl as [Hc Hl].
  unfold is_digit in Hc. etrans; [|apply IH; [lia|done]]. lia.
Qed.

Lemma atoi_loop_ok m k a n l :
  str_in m a l -> Forall is_digit l -> 0 <= n -> dec_high n l < 2 ^ 31 -> (length l < k)%nat ->
  atoi_loop k a n m = Ok (dec_high n l, m).
Proof.
  revert a n l. induction k as [|k IH]; intros a n l Ha Hl Hn Hv Hk; [lia|]. cbn [atoi_loop].
  rewrite (bind_ok _ _ _ _ _ (str_in_hd _ _ _ Ha)). destruct l as [|c l]; cbn [hd_error default from_option id].
  - by change ((ch "0" <=? 0) && (0 <=? ch "9")) with false.
  - apply str_in_cons in Ha as (_ & _ & Ha). apply Forall_cons in Hl as [Hc Hl]. unfold is_digit in Hc.
    cbn [length dec_high foldl] in *. fold (dec_high (n * 10 + c - ch "0") l) in *.
    pose proof (dec_high_mono l (n * 10 + c - ch "0") ltac:(lia) Hl).
    repeat case_cmp. cbn [andb]. rewrite i32_id by lia. apply IH; try done; lia.
Qed.

Lemma digits_dec d : 0 <= d < 10 -> digits d = ch "0" + d.
Proof. intros Hd. unfold digits. by case_cmp. Qed.

Section Print.
Context `{OS : Os}.

Lemma printint_loop_ok k j x s :
  0 <= x < 10 ^ Z.of_nat j -> (0 < j <= k)%nat ->
  exists l, printint_loop k x 10 s = Ok (l, s) /\ dec_low l = x /\ Forall is_digit l /\ (0 < length l <= j)%nat.
Proof using.
  revert x j. induction k as [|k IH]; intros x j Hx Hk; [lia|]. destruct j as [|j]; [lia|]. cbn [printint_loop].
  pose proof (Z.mod_pos_bound x 10 ltac:(lia)) as Hm. pose proof (Z.div_mod x 10 ltac:(lia)) as Hdm.
  rewrite Nat2Z.inj_succ, Z.pow_succ_r in Hx by lia.
  assert (is_digit (digits (x mod 10))) as Hd by (rewrite digits_dec by done; unfold is_digit; change (ch "9") with (ch "0" + 9); lia).
  destruct (Z.eqb_spec (x / 10) 0) as [E|E]; cbn [negb].
  - exists [digits (x mod 10)]. split_and!; [done| |by apply Forall_singleton|cbn; lia..].
    cbn [dec_low foldr]. rewrite digits_dec by done. lia.
  - assert (0 <= x / 10 < 10 ^ Z.of_nat j) as Hq.
    { split; [apply Z.div_pos; lia|]. apply Z.div_lt_upper_bound; lia. }
    assert (j <> 0%nat) as Hk0 by (intros ->; cbn in Hq; lia).
    destruct (IH (x / 10) j Hq ltac:(lia)) as (l & El & Ev & Hl & Hlen). rewrite (bind_ok _ _ _ _ _ El).
    exists (digits (x mod 10) :: l). split_and!; [done| |by constructor|cbn; lia..].
    cbn [dec_low foldr]. fold (dec_low l). rewrite digits_dec, Ev by done. lia.
Qed.

Lemma putcs_ok fd (ST : Stream fd) l m o :
  Forall (fun c => 0 <= c < 256) l ->
  exists o', putcs 1 l (Ust _ m o) = Ok (tt, Ust _ m o') /\ st_in o' = st_in o /\ st_out o' = st_out o ++ l.
Proof using.
  revert o. induction l as [|c l IH]; intros o Hl; cbn [putcs]; [exists o; by rewrite app_nil_r|].
  apply Forall_cons in Hl as [Hc Hl]. destruct (st_write o [c]) as (r & o1 & E & Ei & Eo).
  assert (putc 1 c (Ust _ m o) = Ok (tt, Ust _ m o1)) as Ep.
  { unfold putc, write1, bind. cbn [u_os]. rewrite u8_id by lia. by rewrite E. }
  rewrite (bind_ok _ _ _ _ _ Ep). destruct (IH o1 Hl) as (o' & E' & Ei' & Eo'). exists o'.
  split_and!; [done|by rewrite Ei'|]. by rewrite Eo', Eo, <- app_assoc.
Qed.
End Print.

(** Printing an integer and reading it back.  For every [int] other than
    the least one, the signed decimal conversion of [printf] writes the digits
    of its absolute value, after a minus sign if it is negative, and [atoi] of
    these digits, wherever they are in RAM, is the absolute value. *)
Theorem printint_atoi `{OS : Os} (fd : Z) (ST : Stream fd) (x : Z) (s : ust) :
  - 2 ^ 31 < x < 2 ^ 31 ->
  exists s' ds, printint 1 x 10 true s = Ok (tt, s') /\
    st_out (u_os s') = st_out (u_os s) ++ (if x <? 0 then [ch "-"] else []) ++ ds /\
    u_mem s' = u_mem s /\
    forall m a, str_in m a ds -> atoi a m = Ok (Z.abs x, m).
Proof.
  intros Hx. destruct s as [m o]. unfold printint. cbn [andb].
  assert ((if x <? 0 then u32 (- x) else u32 x) = Z.abs x) as -> by (case_cmp; rewrite u32_id by lia; lia).
  destruct (printint_loop_ok 16 10 (Z.abs x) (Ust _ m o)) as (l & E & Ev & Hl & Hlen); [cbn; lia|lia|].
  rewrite (bind_ok _ _ _ _ _ E).
  assert ((if x <? 0 then if (length l <? 16)%nat then ret (l ++ [ch "-"]) else fault 0 else ret l) (Ust _ m o)
    = Ok (l ++ (if x <? 0 then [ch "-"] else []), Ust _ m o)) as Es.
  { destruct (x <? 0); [|by rewrite app_nil_r]. by rewrite (proj2 (Nat.ltb_lt _ _)) by lia. }
  rewrite (bind_ok _ _ _ _ _ Es), reverse_app.
  assert (reverse (if x <? 0 then [ch "-"] else []) = if x <? 0 then [ch "-"] else []) as -> by (by destruct (x <? 0)).
  set (sg := if x <? 0 then [ch "-"] else []).
  assert (Forall is_digit (reverse l)) as Hr by (by apply Forall_reverse).
  destruct (putcs_ok fd ST (sg ++ reverse l) m o) as (o' & Ep & _ & Eo).
  { apply Forall_app. split; [unfold sg; destruct (x <? 0); by repeat constructor|].
    eapply Forall_impl; [exact Hr|]. unfold is_digit. change (ch "0") with 48. change (ch "9") with 57. lia. }
  exists (Ust _ m o'), (reverse l). split_and!; [done|done|done|]. intros m' a Ha.
  assert (dec_high 0 (reverse l) = Z.abs x) as Ed by (rewrite dec_high_reverse, Ev; lia).
  unfold atoi, scan. rewrite (atoi_loop_ok _ _ _ _ _ Ha Hr), Ed; [done|lia|lia|].
  destruct Ha as (_ & ? & ?). lia.
Qed.

Lemma printint_atoi_witness : exists s' ds, printint 1 (-2047) 10 true ex_grep_state = Ok (tt, s') /\
  st_out (u_os s') = [] ++ [ch "-"] ++ ds /\ u_mem s' = ex_grep_ram /\
  forall m a, str_in m a ds -> atoi a m = Ok (2047, m).
Proof. apply (printint_atoi 3 piece_stream (-2047) ex_grep_state). lia. Defined.
