(* ===== verification/Umalloc.v ===== *)
(** * The allocator of user programs (user/umalloc.c)

    The storage allocator of Kernighan and Ritchie over the RAM of the process:
    free blocks are on a circular list in the order of their addresses, each
    with a header of 16 bytes that holds the next block and the size in units
    of 16 bytes; more memory comes from [sbrk].  The loops over the list take
    the number of headers that fit into RAM as fuel. *)

From S2P Require Import Prelude CInt Memory KMonad Blocks User.

(** [union header]: [s.ptr], [s.size] and its size. *)
Definition s_ptr (p : Z) : Z := p.
Definition s_size (p : Z) : Z := p + 8.
Definition sizeof_Header : Z := 16.
(** [p + n] for a [Header *p]. *)
Definition hplus (p n : Z) : Z := p + sizeof_Header * n.

(** More than the headers in RAM. *)
Definition ring_fuel (m : ram) : nat := S (Z.to_nat (ram_hi m - ram_lo m)).

Section Umalloc.
Context `{Os}.
(** The addresses of the variables [base] and [freep]. *)
Context (base freep : Z).

(** The loop of [free]: the free block after which [bp] belongs. *)
Fixpoint free_loop (k : nat) (bp p : Z) : M ram Z :=
  match k with
  | O => diverge
  | S k =>
      next <- ld64 (s_ptr p) ;;
      if (p <? bp) && (bp <? next) then ret p
      else if (next <=? p) && ((p <? bp) || (bp <? next)) then ret p
      else free_loop k bp next
  end.

Definition free (ap : Z) : M ram unit :=
  let bp := ap - sizeof_Header in
  p <- ld64 freep ;;
  p <- (fun m => free_loop (ring_fuel m) bp p m) ;;
  size <- ld32 (s_size bp) ;;
  next <- ld64 (s_ptr p) ;;
  (if hplus bp size =? next then
     nsize <- ld32 (s_size next) ;;
     st32 (s_size bp) (u32 (size + nsize)) ;;;
     nnext <- ld64 (s_ptr next) ;;
     st64 (s_ptr bp) nnext
   else st64 (s_ptr bp) next) ;;;
  psize <- ld32 (s_size p) ;;
  (if hplus p psize =? bp then
     size <- ld32 (s_size bp) ;;
     st32 (s_size p) (u32 (psize + size)) ;;;
     next <- ld64 (s_ptr bp) ;;
     st64 (s_ptr p) next
   else st64 (s_ptr p) bp) ;;;
  st64 freep p.

(** [nu * sizeof(Header)] is passed to [sbrk] as an [int]. *)
Definition morecore (nu : Z) : U Z :=
  let nu := if nu <? 4096 then 4096 else nu in
  p <- sbrk (i32 (nu * sizeof_Header)) ;;
  if p =? -1 then ret 0
  else
    onmem (st32 (s_size p) nu) ;;;
    onmem (free (hplus p 1)) ;;;
    onmem (ld64 freep).

(** The loop of [malloc]. *)
Fixpoint malloc_loop (k : nat) (nunits prevp p : Z) : U Z :=
  match k with
  | O => diverge
  | S k =>
      size <- onmem (ld32 (s_size p)) ;;
      if nunits <=? size then
        r <- (if size =? nunits then
                next <- onmem (ld64 (s_ptr p)) ;;
                onmem (st64 (s_ptr prevp) next) ;;;
                ret p
              else
                onmem (st32 (s_size p) (size - nunits)) ;;;
                let p := hplus p (size - nunits) in
                onmem (st32 (s_size p) nunits) ;;;
                ret p) ;;
        onmem (st64 freep prevp) ;;;
        ret (hplus r 1)
      else
        let continue p := next <- onmem (ld64 (s_ptr p)) ;; malloc_loop k nunits p next in
        f <- onmem (ld64 freep) ;;
        if p =? f then
          p <- morecore nunits ;;
          if p =? 0 then ret 0 else continue p
        else continue p
  end.

Definition malloc (nbytes : Z) : U Z :=
  let nunits := u32 ((nbytes + sizeof_Header - 1) / sizeof_Header + 1) in
  prevp <- onmem (ld64 freep) ;;
  prevp <- (if prevp =? 0 then
              onmem (st64 freep base) ;;;
              onmem (st64 (s_ptr base) base) ;;;
              onmem (st32 (s_size base) 0) ;;;
              ret base
            else ret prevp) ;;
  p <- onmem (ld64 (s_ptr prevp)) ;;
  (fun s => malloc_loop (ring_fuel (u_mem s) + ring_fuel (u_mem s)) nunits prevp p s).
End Umalloc.
