(* ===== verification/UmallocInv.v ===== *)
(** * The free list of the user allocator

    The representation of a list of free blocks in RAM and its invariant:
    [fl] are the free blocks in the order of their addresses, the first one the
    static header [base] of size 0; [live] maps the headers of the blocks that
    were handed out to their sizes. *)

From S2P Require Import Prelude CInt Memory KMonad Blocks User Umalloc.

(** ** Links *)

Definition next_of (e : Z) (fl : list (Z * Z)) : Z := match fl with [] => e | (x, _) :: _ => x end.
(** The blocks with their successors; the last one's is [e]. *)
Fixpoint links (e : Z) (fl : list (Z * Z)) : list (Z * Z * Z) :=
  match fl with
  | [] => []
  | (x, s) :: fl => (x, s, next_of e fl) :: links e fl
  end.
Definition node_ok (m : ram) (n : Z * Z * Z) : Prop :=
  let '(x, s, nx) := n in peek 8 m x = nx /\ peek 4 m (x + 8) = s.

Lemma next_of_app e l1 l2 : next_of e (l1 ++ l2) = next_of (next_of e l2) l1.
Proof. by destruct l1 as [|[]]. Qed.
Lemma links_app e l1 l2 : links e (l1 ++ l2) = links (next_of e l2) l1 ++ links e l2.
Proof. induction l1 as [|[x s] l1 IH]; [done|]. cbn. by rewrite IH, next_of_app. Qed.
Lemma links_fst e l : (fun n => (n.1.1, n.1.2)) <$> links e l = l.
Proof. induction l as [|[x s] l IH]; cbn; [done|]. by rewrite IH. Qed.
Lemma links_elem e l n : n ∈ links e l -> (n.1.1, n.1.2) ∈ l.
Proof. intros Hn. rewrite <- (links_fst e l). apply list_elem_of_fmap. eauto. Qed.

(** Nodes whose headers are not written. *)
Lemma nodes_same P m m' e l :
  same_off P m m' -> (forall x s, (x, s) ∈ l -> forall a, x <= a < x + 12 -> ~ P a) ->
  Forall (node_ok m) (links e l) -> Forall (node_ok m') (links e l).
Proof.
  intros So Hp. rewrite !Forall_forall. intros Hn [[x s] nx] Hx. specialize (Hn _ Hx). unfold node_ok in *.
  apply links_elem in Hx. cbn [fst snd] in Hx. destruct Hn as [<- <-].
  split; eapply (same_off_peek P); try done; intros a Ha; (eapply Hp; [exact Hx|lia]).
Qed.

(** ** The invariant *)

(** There is a gap between two free blocks. *)
Definition before (b c : Z * Z) : Prop := hplus b.1 b.2 < c.1.

Section Inv.
(** The static header, the variable [freep] and the end of the static data. *)
Context (base freep hlo : Z).

Record uinv (m : ram) (fl : list (Z * Z)) (live : gmap Z Z) : Prop := UInv {
  ui_base : exists fl', fl = (base, 0) :: fl';
  ui_nodes : Forall (node_ok m) (links base fl);
  ui_sorted : StronglySorted before fl;
  ui_free x s : (x, s) ∈ fl -> (x = base /\ s = 0) \/ (hlo <= x /\ 1 <= s /\ hplus x s <= ram_hi m);
  ui_live x n : live !! x = Some n -> hlo <= x /\ 1 <= n /\ hplus x n <= ram_hi m /\ peek 4 m (x + 8) = n;
  ui_disj x n y s : live !! x = Some n -> (y, s) ∈ fl -> hplus x n <= y \/ hplus y s <= x;
  ui_disj' x n y k : live !! x = Some n -> live !! y = Some k -> x <> y -> hplus x n <= y \/ hplus y k <= x;
  ui_freep : exists s, (peek 8 m freep, s) ∈ fl;
  ui_glob : 0 < base /\ ram_lo m <= base /\ ram_lo m <= freep /\ base + 16 <= hlo /\ freep + 8 <= hlo /\
    (base + 16 <= freep \/ freep + 8 <= base) /\ hlo <= ram_hi m <= 2 ^ 35
}.

(** The units on the free list. *)
Definition units (fl : list (Z * Z)) : Z := foldr (fun b n => b.2 + n) 0 fl.
Lemma units_app l1 l2 : units (l1 ++ l2) = units l1 + units l2.
Proof.
  induction l1 as [|[x s] l1 IH]; [done|].
  change (s + units (l1 ++ l2) = s + units l1 + units l2). rewrite IH. lia.
Qed.

Section Facts.
Context (m : ram) (fl : list (Z * Z)) (live : gmap Z Z) (I : uinv m fl live).

Lemma free_range x s : (x, s) ∈ fl -> ram_lo m <= x /\ base <= x /\ x + 16 <= ram_hi m /\ 0 <= s < 2 ^ 32 /\ 0 < x.
Proof using I.
  intros Hx. destruct (ui_glob _ _ _ I) as (? & ? & ? & ? & ? & ? & ? & ?).
  destruct (ui_free _ _ _ I x s Hx) as [[-> ->]|(? & ? & ?)]; unfold hplus, sizeof_Header in *; lia.
Qed.
Lemma base_in : (base, 0) ∈ fl.
Proof using I. destruct (ui_base _ _ _ I) as [fl' ->]. left. Qed.

(** The block before and those after a block of the list. *)
Lemma split_order l1 p s l2 :
  fl = l1 ++ (p, s) :: l2 ->
  (forall y t, (y, t) ∈ l1 -> hplus y t < p) /\ (forall y t, (y, t) ∈ l2 -> hplus p s < y) /\
  (forall y t z k, (y, t) ∈ l1 -> (z, k) ∈ l2 -> hplus y t < z).
Proof using I.
  intros E. pose proof (ui_sorted _ _ _ I) as S. rewrite E in S.
  apply StronglySorted_app in S as (S1 & S2 & S3). apply StronglySorted_cons in S3 as [S3 S4].
  rewrite Forall_forall in S3. split_and!.
  - intros y t Hy. by apply (S1 (y, t) (p, s)); [|left].
  - intros y t Hy. by apply (S3 (y, t)).
  - intros y t z k Hy Hz. by apply (S1 (y, t) (z, k)); [|right].
Qed.

Lemma node_at l1 p s l2 : fl = l1 ++ (p, s) :: l2 -> peek 8 m p = next_of base l2 /\ peek 4 m (p + 8) = s.
Proof using I.
  intros E. pose proof (ui_nodes _ _ _ I) as N. rewrite E, links_app in N. apply Forall_app in N as [_ N].
  cbn [links] in N. by apply Forall_cons in N as [N _].
Qed.

Lemma node_unique x s t : (x, s) ∈ fl -> (x, t) ∈ fl -> s = t.
Proof using I.
  intros Hs Ht. pose proof (free_range x s Hs). apply list_elem_of_split in Hs as (l1 & l2 & E). destruct (split_order _ _ _ _ E) as (H1 & H2 & _).
  pose proof (free_range x t Ht). rewrite E, elem_of_app, elem_of_cons in Ht.
  destruct Ht as [Ht|[Ht|Ht]]; [specialize (H1 _ _ Ht)|by injection Ht|specialize (H2 _ _ Ht)]; exfalso.
  all: unfold hplus, sizeof_Header in *; lia.
Qed.

(** Where a live block belongs. *)
Lemma live_split x n :
  live !! x = Some n -> exists l1 p s l2, fl = l1 ++ (p, s) :: l2 /\ hplus p s <= x /\ p + 16 <= x /\
    forall y t, (y, t) ∈ l2 -> hplus x n <= y.
Proof using I.
  intros Hx. destruct (ui_live _ _ _ I x n Hx) as (Hlo & Hn & _). destruct (ui_glob _ _ _ I) as (_ & _ & _ & Hb & _).
  assert (forall l1 l2, fl = l1 ++ l2 -> (exists y t l, l2 = (y, t) :: l /\ y < x) ->
    exists l1 p s l2, fl = l1 ++ (p, s) :: l2 /\ p < x /\ forall y t, (y, t) ∈ l2 -> x <= y) as Hsp.
  { intros l1 l2. revert l1. induction l2 as [|[y t] l2 IH]; intros l1 E (y' & t' & l & [= <- <- <-] & Hy).
    destruct l2 as [|[z k] l2]; [exists l1, y, t, []; split_and!; [done..|]; by intros ? ? ?%elem_of_nil|].
    destruct (Z.lt_ge_cases z x) as [Hz|Hz].
    - apply (IH (l1 ++ [(y, t)])); [by rewrite <- app_assoc|eauto 6].
    - exists l1, y, t, ((z, k) :: l2). split_and!; [done..|]. intros w j Hw.
      assert (fl = (l1 ++ [(y, t)]) ++ (z, k) :: l2) as E' by (by rewrite <- app_assoc).
      destruct (split_order _ _ _ _ E') as (_ & H2 & _). apply elem_of_cons in Hw as [[= -> ->]|Hw]; [done|].
      assert ((z, k) ∈ fl) as Hz' by (rewrite E; set_solver). pose proof (free_range z k Hz').
      specialize (H2 _ _ Hw). unfold hplus, sizeof_Header in *. lia. }
  destruct (ui_base _ _ _ I) as [fl' Efl]. destruct (Hsp [] fl eq_refl) as (l1 & p & s & l2 & E & Hp & H2).
  { exists base, 0, fl'. split; [done|lia]. }
  assert ((p, s) ∈ fl) as Hin by (rewrite E; set_solver). exists l1, p, s, l2. split; [done|].
  assert (forall y t, (y, t) ∈ fl -> hplus x n <= y \/ hplus y t <= x) as Hd by (intros; by eapply ui_disj).
  split_and!.
  - destruct (Hd p s Hin); [unfold hplus, sizeof_Header in *; lia|done].
  - destruct (ui_free _ _ _ I p s Hin) as [[-> ->]|(? & ? & _)]; [lia|].
    destruct (Hd p s Hin); unfold hplus, sizeof_Header in *; lia.
  - intros y t Hy. assert ((y, t) ∈ fl) as Hin' by (rewrite E; set_solver). destruct (Hd y t Hin'); [done|].
    specialize (H2 _ _ Hy). pose proof (free_range y t Hin'). unfold hplus, sizeof_Header in *.
    destruct (ui_free _ _ _ I y t Hin') as [[-> ->]|(? & ? & _)]; lia.
Qed.
End Facts.
End Inv.

(** * Releasing a block of the user allocator *)

Lemma app_cons_head {A} (l1 : list A) b l2 c l : l1 ++ b :: l2 = c :: l -> (l1 = [] /\ b = c) \/ exists l', l1 = c :: l'.
Proof. destruct l1 as [|d l1]; cbn; intros [= -> _]; eauto. Qed.

Section Free.
Context (base freep hlo : Z).
Notation uinv := (uinv base freep hlo).

Section List.
Context (m : ram) (fl : list (Z * Z)) (live : gmap Z Z) (I : uinv m fl live).

Lemma ld_next q t g1 g2 : fl = g1 ++ (q, t) :: g2 -> ld64 (s_ptr q) m = Ok (next_of base g2, m).
Proof using I.
  intros Eq. destruct (node_at _ _ _ _ _ _ I _ _ _ _ Eq) as [<- _].
  assert ((q, t) ∈ fl) as Hq by (rewrite Eq; set_solver). pose proof (free_range _ _ _ _ _ _ I q t Hq).
  apply ld64_ok. unfold s_ptr. bk.
Qed.

Lemma fl_length : (length fl <= Z.to_nat (ram_hi m - ram_lo m))%nat.
Proof using I.
  assert (forall l, StronglySorted before l -> (forall y t, (y, t) ∈ l -> 0 <= t /\ ram_lo m <= y < ram_hi m) ->
    forall lo, (forall y t, (y, t) ∈ l -> lo <= y) -> lo + Z.of_nat (length l) <= ram_hi m \/ l = []) as Hl.
  { induction l as [|[y t] l IH]; intros S Hr lo Hlo; [by right|]. left. apply StronglySorted_cons in S as [S1 S2].
    destruct (Hr y t ltac:(set_solver)). specialize (Hlo y t ltac:(set_solver)).
    destruct (IH S2 ltac:(intros; apply Hr; by right) (y + 1)) as [Hlen| ->]; cbn [length]; [|lia..].
    intros z k Hz. rewrite Forall_forall in S1. specialize (S1 _ Hz). unfold before, hplus, sizeof_Header in S1. cbn in S1. lia. }
  destruct (Hl fl (ui_sorted _ _ _ _ _ _ I)) with (lo := ram_lo m) as [Hlen| ->]; [..|cbn; lia].
  - intros y t Hy. pose proof (free_range _ _ _ _ _ _ I y t Hy). lia.
  - intros y t Hy. pose proof (free_range _ _ _ _ _ _ I y t Hy). lia.
  - lia.
Qed.

(** The links of the list are addresses. *)
Lemma next_range g1 q t g2 : fl = g1 ++ (q, t) :: g2 -> 0 <= next_of base g2 < 2 ^ 64.
Proof using I.
  intros Eq. destruct (ui_glob _ _ _ _ _ _ I) as (? & ? & ? & ? & ? & ? & ?).
  destruct g2 as [|[y k] g2]; cbn [next_of]; [lia|].
  assert ((y, k) ∈ fl) as Hy by (rewrite Eq; set_solver). pose proof (free_range _ _ _ _ _ _ I y k Hy). lia.
Qed.

(** Headers do not overlap each other, nor [freep]. *)
Lemma headers_apart y t z k : (y, t) ∈ fl -> (z, k) ∈ fl -> y < z -> y + 16 <= z.
Proof using I.
  intros Hy Hz Hlt. destruct (ui_glob _ _ _ _ _ _ I) as (? & ? & ? & ? & ? & ? & ?).
  destruct (ui_free _ _ _ _ _ _ I z k Hz) as [[-> ->]|(? & _)].
  - pose proof (free_range _ _ _ _ _ _ I y t Hy). lia.
  - destruct (ui_free _ _ _ _ _ _ I y t Hy) as [[-> ->]|(_ & ? & _)]; [lia|].
    apply list_elem_of_split in Hy as (g1 & g2 & Eq). destruct (split_order _ _ _ _ _ _ I _ _ _ _ Eq) as (Ha & Hb & _).
    pose proof (free_range _ _ _ _ _ _ I z k Hz). rewrite Eq, elem_of_app, elem_of_cons in Hz.
    unfold hplus, sizeof_Header in *. destruct Hz as [Hz|[[= -> ->]|Hz]]; [specialize (Ha _ _ Hz)|lia|specialize (Hb _ _ Hz)]; lia.
Qed.
Lemma freep_apart y t : (y, t) ∈ fl -> y + 16 <= freep \/ freep + 8 <= y.
Proof using I.
  intros Hy. destruct (ui_glob _ _ _ _ _ _ I) as (? & ? & ? & ? & ? & ? & ?).
  destruct (ui_free _ _ _ _ _ _ I y t Hy) as [[-> ->]|(? & _)]; lia.
Qed.
End List.

Section Search.
Context (m : ram) (fl : list (Z * Z)) (live : gmap Z Z) (I : uinv m fl live).
Context (x n : Z) (Hx : live !! x = Some n).
Context (l1 : list (Z * Z)) (p s : Z) (l2 : list (Z * Z)).
Hypothesis E : fl = l1 ++ (p, s) :: l2.
Hypothesis Hp : hplus p s <= x /\ p + 16 <= x.
Hypothesis H2 : forall y t, (y, t) ∈ l2 -> hplus x n <= y.

Let Hn : 1 <= n /\ hlo <= x.
Proof. destruct (ui_live _ _ _ _ _ _ I x n Hx) as (? & ? & _). lia. Qed.

(** The search stops at [p] and goes on elsewhere. *)
Lemma search_stop k : free_loop (S k) x p m = Ok (p, m).
Proof using All.
  cbn [free_loop]. rewrite (bind_ok _ _ _ _ _ (ld_next _ _ _ I _ _ _ _ E)).
  assert ((p, s) ∈ fl) as Hin by (rewrite E; set_solver). pose proof (free_range _ _ _ _ _ _ I p s Hin).
  destruct l2 as [|[y t] l2']; cbn [next_of].
  - destruct (ui_glob _ _ _ _ _ _ I) as (_ & _ & _ & Hb & _).
    repeat case_cmp; done.
  - specialize (H2 y t ltac:(set_solver)). unfold hplus, sizeof_Header in *. repeat case_cmp; done.
Qed.

Lemma search_go k q t g1 g2 :
  fl = g1 ++ (q, t) :: g2 -> q <> p -> free_loop (S k) x q m = free_loop k x (next_of base g2) m.
Proof using All.
  intros Eq Hq. cbn [free_loop]. rewrite (bind_ok _ _ _ _ _ (ld_next _ _ _ I _ _ _ _ Eq)).
  assert ((q, t) ∈ fl) as Hin by (rewrite Eq; set_solver). pose proof (free_range _ _ _ _ _ _ I q t Hin) as Hqr.
  assert ((p, s) ∈ fl) as Hinp by (rewrite E; set_solver). pose proof (free_range _ _ _ _ _ _ I p s Hinp) as Hpr.
  destruct (split_order _ _ _ _ _ _ I _ _ _ _ Eq) as (Ha & Hb & _).
  destruct (split_order _ _ _ _ _ _ I _ _ _ _ E) as (Ha' & Hb' & _).
  pose proof Hin as Hin'. rewrite E, elem_of_app, elem_of_cons in Hin'. destruct Hin' as [Hl|[Hl|Hl]]; [|congruence|].
  - (* before [p]: its successor is at most [p] *)
    specialize (Ha' _ _ Hl). rewrite Eq, elem_of_app, elem_of_cons in Hinp.
    destruct Hinp as [Hg|[Hg|Hg]]; [specialize (Ha _ _ Hg); unfold hplus, sizeof_Header in *; lia|congruence|].
    destruct g2 as [|[y k2] g2]; [by apply elem_of_nil in Hg|]. cbn [next_of].
    assert (y <= p) as Hyp.
    { apply elem_of_cons in Hg as [[= -> ->]|Hg]; [lia|].
      assert (fl = (g1 ++ [(q, t)]) ++ (y, k2) :: g2) as Ey by (by rewrite <- app_assoc).
      destruct (split_order _ _ _ _ _ _ I _ _ _ _ Ey) as (_ & Hb2 & _). specialize (Hb2 _ _ Hg).
      assert ((y, k2) ∈ fl) as Hiny by (rewrite Eq; set_solver). pose proof (free_range _ _ _ _ _ _ I y k2 Hiny).
      unfold hplus, sizeof_Header in *. lia. }
    specialize (Hb y k2 ltac:(set_solver)). unfold hplus, sizeof_Header in *. repeat case_cmp; done.
  - specialize (Hb' _ _ Hl). specialize (H2 _ _ Hl). unfold hplus, sizeof_Header in *.
    destruct g2 as [|[y k2] g2]; cbn [next_of].
    + repeat case_cmp; done.
    + specialize (Hb y k2 ltac:(set_solver)). repeat case_cmp; done.
Qed.

Lemma search_before k a g : l1 = a ++ g -> free_loop (length g + S k) x (next_of p g) m = Ok (p, m).
Proof using All.
  revert a. induction g as [|[q t] g IH]; intros a Ea; [apply search_stop|]. cbn [length Nat.add next_of].
  assert (fl = a ++ (q, t) :: g ++ (p, s) :: l2) as Eq by (by rewrite E, Ea, <- app_assoc).
  rewrite (search_go _ q t a (g ++ (p, s) :: l2) Eq).
  - rewrite next_of_app. cbn [next_of]. apply (IH (a ++ [(q, t)])). by rewrite <- app_assoc.
  - destruct (split_order _ _ _ _ _ _ I _ _ _ _ E) as (Ha' & _). specialize (Ha' q t ltac:(set_solver)).
    assert ((q, t) ∈ fl) as Hin by (rewrite Eq; set_solver). pose proof (free_range _ _ _ _ _ _ I q t Hin).
    unfold hplus, sizeof_Header in *. lia.
Qed.

Lemma search_after k a g : l2 = a ++ g -> free_loop (length g + (length l1 + S k)) x (next_of base g) m = Ok (p, m).
Proof using All.
  revert a. induction g as [|[q t] g IH]; intros a Ea.
  - cbn [length Nat.add next_of]. assert (base = next_of p l1) as Eb; [|rewrite Eb; by apply (search_before k [])].
    destruct (ui_base _ _ _ _ _ _ I) as [fl' E0]. rewrite E in E0. destruct l1 as [|[y t] ?]; cbn in *; congruence.
  - cbn [length Nat.add next_of].
    assert (fl = (l1 ++ (p, s) :: a) ++ (q, t) :: g) as Eq by (by rewrite E, Ea, <- app_assoc).
    rewrite (search_go _ q t _ g Eq).
    + apply (IH (a ++ [(q, t)])). by rewrite <- app_assoc.
    + destruct (split_order _ _ _ _ _ _ I _ _ _ _ E) as (_ & Hb' & _). specialize (Hb' q t ltac:(set_solver)).
      assert ((p, s) ∈ fl) as Hin by (rewrite E; set_solver). pose proof (free_range _ _ _ _ _ _ I p s Hin).
      unfold hplus, sizeof_Header in *. lia.
Qed.

(** The search from any free block finds [p]. *)
Lemma search_ok q t : (q, t) ∈ fl -> free_loop (ring_fuel m) x q m = Ok (p, m).
Proof using All.
  intros Hq. pose proof (fl_length _ _ _ I) as Hlen. unfold ring_fuel. rewrite E, length_app in Hlen. cbn [length] in Hlen.
  rewrite E, elem_of_app, elem_of_cons in Hq. destruct Hq as [Hq|[[= -> ->]|Hq]].
  - apply list_elem_of_split in Hq as (a & g & Ea).
    replace (S (Z.to_nat (ram_hi m - ram_lo m))) with (length ((q, t) :: g) + S (Z.to_nat (ram_hi m - ram_lo m) - length ((q, t) :: g)))%nat.
    + by apply (search_before _ a ((q, t) :: g)).
    + rewrite Ea, length_app in Hlen. cbn [length] in *. lia.
  - apply search_stop.
  - apply list_elem_of_split in Hq as (a & g & Ea).
    replace (S (Z.to_nat (ram_hi m - ram_lo m))) with (length ((q, t) :: g) +
      (length l1 + S (Z.to_nat (ram_hi m - ram_lo m) - length ((q, t) :: g) - length l1)))%nat.
    + by apply (search_after _ a ((q, t) :: g)).
    + rewrite Ea, length_app in Hlen. cbn [length] in *. lia.
Qed.

(** ** The two joins *)

(** The released block, joined with the next free one if they touch. *)
Definition joined (n1 : Z) (l3 : list (Z * Z)) : Prop :=
  (l3 = l2 /\ n1 = n /\ hplus x n <> next_of base l2) \/ (exists t, l2 = (hplus x n, t) :: l3 /\ n1 = n + t).

Let Hin : (p, s) ∈ fl.
Proof. rewrite E. set_solver. Qed.
Let Hpr : ram_lo m <= p /\ base <= p /\ p + 16 <= ram_hi m /\ 0 <= s < 2 ^ 32 /\ 0 < p.
Proof. exact (free_range _ _ _ _ _ _ I p s Hin). Qed.
Let Hxr : hplus x n <= ram_hi m /\ peek 4 m (x + 8) = n.
Proof. destruct (ui_live _ _ _ _ _ _ I x n Hx) as (_ & _ & ? & ?). done. Qed.
Let Hg : base + 16 <= hlo /\ freep + 8 <= hlo /\ ram_lo m <= freep /\ (base + 16 <= freep \/ freep + 8 <= base) /\
  hlo <= ram_hi m <= 2 ^ 35 /\ ram_lo m <= base /\ 0 < base.
Proof. destruct (ui_glob _ _ _ _ _ _ I) as (? & ? & ? & ? & ? & ? & ?). done. Qed.

Lemma join_next :
  exists n1 l3 m1, joined n1 l3 /\
    (forall k, (size <- ld32 (s_size x) ;; next <- ld64 (s_ptr p) ;;
     (if hplus x size =? next then
        nsize <- ld32 (s_size next) ;;
        st32 (s_size x) (u32 (size + nsize)) ;;;
        nnext <- ld64 (s_ptr next) ;;
        st64 (s_ptr x) nnext
      else st64 (s_ptr x) next) ;;; k : M ram unit) m = k m1) /\
    same_off (fun a => x <= a < x + 16) m m1 /\ peek 8 m1 x = next_of base l3 /\ peek 4 m1 (x + 8) = n1.
Proof using All.
  unfold s_size, s_ptr. pose proof (next_range _ _ _ I _ _ _ _ E) as Hnx.
  assert (forall k : Z -> M ram unit, (next <- ld64 p ;; k next) m = k (next_of base l2) m) as Eld.
  { intros k. by rewrite (bind_ok _ _ _ _ _ (ld_next _ _ _ I _ _ _ _ E)). }
  unfold hplus, sizeof_Header in Hxr, Hp.
  destruct (Z.eqb_spec (hplus x n) (next_of base l2)) as [Ej|Ej].
  - destruct l2 as [|[y t] l3] eqn:El2; cbn [next_of] in *; [unfold hplus, sizeof_Header in *; lia|].
    assert (fl = (l1 ++ [(p, s)]) ++ (y, t) :: l3) as Ey by (by rewrite <- app_assoc).
    destruct (node_at _ _ _ _ _ _ I _ _ _ _ Ey) as [N1 N2]. pose proof (next_range _ _ _ I _ _ _ _ Ey) as Hny.
    assert ((y, t) ∈ fl) as Hy by (rewrite E; set_solver). pose proof (free_range _ _ _ _ _ _ I y t Hy) as Hyr.
    destruct (ui_free _ _ _ _ _ _ I y t Hy) as [[-> ->]|(_ & _ & Hyh)]; [unfold hplus, sizeof_Header in *; lia|].
    unfold hplus, sizeof_Header in Ej, Hyh.
    exists (n + t), l3, (poke 8 (poke 4 m (x + 8) (n + t)) x (next_of base l3)).
    split_and!; [right; exists t; unfold hplus, sizeof_Header; by rewrite El2, Ej| | | |].
    + intros k. cstep. rewrite (proj2 Hxr), Eld. unfold hplus, sizeof_Header. rewrite (proj2 (Z.eqb_eq _ _)) by lia.
      repeat cstep. rewrite N2, u32_id by lia. rewrite peek_poke_ne, N1 by lia. done.
    + eapply same_off_trans; [apply same_off_poke|apply same_off_poke|]. cbv beta. lia.
    + by rewrite peek8_poke_eq.
    + rewrite peek_poke_ne, peek4_poke_eq by lia. done.
  - exists n, l2, (poke 8 m x (next_of base l2)). split_and!; [by left| | | |].
    + intros k. cstep. rewrite (proj2 Hxr), Eld. rewrite (proj2 (Z.eqb_neq _ _)) by done.
      by erewrite bind_ok by (apply st64_ok; bk).
    + apply (same_off_weaken _ _ _ _ (same_off_poke 8 m x _)). cbv beta. lia.
    + by rewrite peek8_poke_eq.
    + rewrite peek_poke_ne by lia. apply Hxr.
Qed.

Definition freed (n1 : Z) (l3 : list (Z * Z)) : list (Z * Z) :=
  if decide (hplus p s = x) then l1 ++ (p, s + n1) :: l3 else l1 ++ (p, s) :: (x, n1) :: l3.

Definition touched (a : Z) : Prop := x <= a < x + 16 \/ p <= a < p + 16 \/ freep <= a < freep + 8.

Lemma joined_facts n1 l3 : joined n1 l3 ->
  (forall y t, (y, t) ∈ l3 -> (y, t) ∈ l2 /\ hplus x n1 < y) /\ n <= n1 < 2 ^ 32 /\ hplus x n1 <= ram_hi m /\
  Forall (node_ok m) (links base l3) /\ 0 <= next_of base l3 < 2 ^ 64 /\ units l3 + n1 = units l2 + n.
Proof using All.
  pose proof (ui_nodes _ _ _ _ _ _ I) as N. rewrite E, links_app in N. apply Forall_app in N as [_ N].
  cbn [links] in N. apply Forall_cons in N as [_ N]. unfold hplus, sizeof_Header in *.
  intros [(-> & -> & Hne)|(t & El & ->)].
  - split_and!; try done; try lia; [|apply (next_range _ _ _ I _ _ _ _ E)..].
    intros y t Hy. split; [done|]. pose proof (H2 y t Hy). destruct (Z.eq_dec y (x + 16 * n)) as [->|]; [|lia].
    exfalso. apply Hne. destruct l2 as [|[z k] l2']; [by apply elem_of_nil in Hy|]. cbn [next_of].
    apply elem_of_cons in Hy as [[= Hzx _]|Hy]; [unfold hplus, sizeof_Header; lia|].
    assert (fl = (l1 ++ [(p, s)]) ++ (z, k) :: l2') as Ez by (by rewrite E, <- app_assoc).
    destruct (split_order _ _ _ _ _ _ I _ _ _ _ Ez) as (_ & Hb & _). specialize (Hb _ _ Hy).
    pose proof (H2 z k ltac:(set_solver)). assert ((z, k) ∈ fl) as Hz by (rewrite Ez; set_solver).
    pose proof (free_range _ _ _ _ _ _ I z k Hz). unfold hplus, sizeof_Header in *. lia.
  - assert (fl = (l1 ++ [(p, s)]) ++ (x + 16 * n, t) :: l3) as Ey by (by rewrite E, El, <- app_assoc).
    assert ((x + 16 * n, t) ∈ fl) as Hy by (rewrite Ey; set_solver). pose proof (free_range _ _ _ _ _ _ I _ _ Hy) as Hyr.
    destruct (split_order _ _ _ _ _ _ I _ _ _ _ Ey) as (_ & Hb & _). unfold hplus, sizeof_Header in Hb.
    destruct (ui_free _ _ _ _ _ _ I _ _ Hy) as [[? _]|(_ & ? & Hyh)]; [lia|]. unfold hplus, sizeof_Header in Hyh.
    rewrite El in N |- *. cbn [links] in N. apply Forall_cons in N as [_ N].
    split_and!; try done; try lia; [|apply (next_range _ _ _ I _ _ _ _ Ey)..|].
    + intros y k Hk. split; [by right|]. specialize (Hb _ _ Hk). lia.
    + change (units ((hplus x n, t) :: l3)) with (t + units l3). lia.
Qed.

(** Blocks of the list other than [p] keep their headers. *)
Lemma others_same m' n1 l3 :
  joined n1 l3 -> same_off touched m m' ->
  Forall (node_ok m') (links p l1) /\ Forall (node_ok m') (links base l3).
Proof using All.
  intros J So. pose proof (joined_facts n1 l3 J) as (J1 & J2 & J3 & J4 & _).
  pose proof (ui_nodes _ _ _ _ _ _ I) as N. rewrite E, links_app in N. apply Forall_app in N as [N _]. cbn [next_of] in N.
  destruct (split_order _ _ _ _ _ _ I _ _ _ _ E) as (Ha & Hb & _).
  split; (eapply (nodes_same touched m); [exact So| |done]); intros y t Hy a Hay; unfold touched.
  - assert ((y, t) ∈ fl) as Hin' by (rewrite E; set_solver). pose proof (freep_apart _ _ _ I _ _ Hin').
    specialize (Ha _ _ Hy). pose proof (free_range _ _ _ _ _ _ I _ _ Hin').
    pose proof (headers_apart _ _ _ I _ _ _ _ Hin' Hin ltac:(unfold hplus, sizeof_Header in *; lia)). lia.
  - destruct (J1 _ _ Hy) as [Hy2 Hlt]. assert ((y, t) ∈ fl) as Hin' by (rewrite E; set_solver).
    pose proof (freep_apart _ _ _ I _ _ Hin'). unfold hplus, sizeof_Header in *. lia.
Qed.

Lemma free_run : exists m' n1 l3, joined n1 l3 /\ free freep (x + 16) m = Ok (tt, m') /\
  same_off touched m m' /\ Forall (node_ok m') (links base (freed n1 l3)) /\ peek 8 m' freep = p.
Proof using All.
  destruct (ui_freep _ _ _ _ _ _ I) as [t0 Hf0]. destruct join_next as (n1 & l3 & m1 & J & Er & S1 & X1 & X2).
  pose proof (joined_facts n1 l3 J) as (J1 & J2 & J3 & J4 & J5 & _).
  destruct (node_at _ _ _ _ _ _ I _ _ _ _ E) as [_ N2]. pose proof (freep_apart _ _ _ I _ _ Hin) as Hfp.
  pose proof S1 as (Sl & Sh & _). unfold hplus, sizeof_Header in Hp, J3.
  assert (peek 4 m1 (p + 8) = s) as P1 by (rewrite (same_off_peek _ _ _ _ _ S1); [done|lia]).
  set (eq := hplus p s =? x).
  set (m2 := if eq then poke 8 (poke 4 m1 (p + 8) (s + n1)) p (next_of base l3) else poke 8 m1 p x).
  assert (same_off (fun a => p <= a < p + 16) m1 m2) as S2.
  { unfold m2. destruct eq.
    - eapply same_off_trans; [apply same_off_poke|apply same_off_poke|]. cbv beta. lia.
    - apply (same_off_weaken _ _ _ _ (same_off_poke 8 m1 p _)). cbv beta. lia. }
  pose proof S2 as (Sl2 & Sh2 & _). exists (poke 8 m2 freep p), n1, l3. split; [done|].
  assert (same_off touched m (poke 8 m2 freep p)) as So.
  { eapply same_off_trans; [exact S1|eapply same_off_trans; [exact S2|apply (same_off_poke 8)|]|];
      [intros a Ha; exact Ha|]. unfold touched. cbv beta. lia. }
  split_and!; [|done| |].
  - unfold free. cstep. change (x + 16 - sizeof_Header) with (x + 16 - 16). replace (x + 16 - 16) with x by lia.
    erewrite bind_ok by (exact (search_ok _ _ Hf0)). rewrite Er. unfold s_size, s_ptr.
    cstep. rewrite P1. fold eq. unfold m2 in *. destruct eq.
    + repeat cstep. rewrite X2, u32_id by lia. rewrite peek_poke_ne, X1 by lia. apply st64_ok. bk.
    + cstep. apply st64_ok. bk.
  - destruct (others_same _ n1 l3 J So) as [O1 O2]. unfold freed.
    assert (forall k v a, p <= a -> a + Z.of_nat k <= p + 16 -> peek k m2 a = v -> peek k (poke 8 m2 freep p) a = v) as Hfr.
    { intros k v a Ha1 Ha2 <-. apply peek_poke_ne. lia. }
    unfold m2, eq in *. destruct (Z.eqb_spec (hplus p s) x) as [Ee|Ee]; rewrite ?decide_True, ?decide_False by done.
    + rewrite links_app. apply Forall_app. split; [exact O1|]. cbn [links]. apply Forall_cons. split; [|exact O2].
      unfold hplus, sizeof_Header in Ee. split; apply Hfr; try lia; peeks; done || lia.
    + rewrite links_app. apply Forall_app. split; [exact O1|]. cbn [links next_of]. rewrite !Forall_cons.
      split; [|split; [|exact O2]]; unfold node_ok.
      * split; apply Hfr; try lia; [by rewrite peek8_poke_eq by lia|by rewrite peek_poke_ne by lia].
      * split; rewrite !peek_poke_ne by lia; done.
  - rewrite peek8_poke_eq by lia. done.
Qed.

(** ** The invariant afterwards *)

Section After.
Context (n1 : Z) (l3 : list (Z * Z)) (J : joined n1 l3).

(** The free blocks afterwards: the old ones except [p] and the joined one,
    and [p] and the released block, apart or joined. *)
Lemma freed_elem y t : (y, t) ∈ freed n1 l3 ->
  ((y, t) ∈ fl /\ y <> p) \/ (hplus p s = x /\ y = p /\ t = s + n1) \/
  (hplus p s <> x /\ ((y = p /\ t = s) \/ (y = x /\ t = n1))).
Proof using All.
  pose proof (joined_facts n1 l3 J) as (J1 & _). destruct (split_order _ _ _ _ _ _ I _ _ _ _ E) as (Ha & Hb & _).
  assert ((y, t) ∈ l1 -> (y, t) ∈ fl /\ y <> p) as K1.
  { intros Hy. assert ((y, t) ∈ fl) as Hy' by (rewrite E; set_solver). split; [done|].
    pose proof (free_range _ _ _ _ _ _ I _ _ Hy'). specialize (Ha _ _ Hy). unfold hplus, sizeof_Header in *. lia. }
  assert ((y, t) ∈ l3 -> (y, t) ∈ fl /\ y <> p) as K3.
  { intros Hy. destruct (J1 _ _ Hy) as [Hy2 _]. split; [rewrite E; set_solver|].
    specialize (Hb _ _ Hy2). unfold hplus, sizeof_Header in *. lia. }
  unfold freed. case_decide as Ee; rewrite elem_of_app, !elem_of_cons.
  - intros [Hy|[[= -> ->]|Hy]]; auto.
  - intros [Hy|[[= -> ->]|[[= -> ->]|Hy]]]; auto 6.
Qed.

Lemma freed_sorted : StronglySorted before (freed n1 l3).
Proof using All.
  pose proof (joined_facts n1 l3 J) as (J1 & J2 & _). destruct (split_order _ _ _ _ _ _ I _ _ _ _ E) as (Ha & Hb & Hc).
  pose proof (ui_sorted _ _ _ _ _ _ I) as S. rewrite E in S. apply StronglySorted_app in S as (_ & S1 & S2).
  apply StronglySorted_cons in S2 as [_ S2].
  assert (StronglySorted before l3) as S3.
  { destruct J as [(-> & _)|(t & El & _)]; [done|]. rewrite El in S2. by apply StronglySorted_cons in S2 as [_ ?]. }
  unfold freed. case_decide as Ee; apply StronglySorted_app; rewrite !StronglySorted_cons, !Forall_forall;
    (split; [intros [y t] [z k] Hy; rewrite !elem_of_cons; unfold before; cbn [fst snd]; specialize (Ha _ _ Hy)|]).
  - intros [[= -> ->]|Hz]; [done|]. destruct (J1 _ _ Hz) as [Hz' _]. by apply (Hc y t z k).
  - split; [done|]. split; [|done]. intros [z k] Hz. destruct (J1 _ _ Hz) as [_ Hz']. unfold before, hplus, sizeof_Header in *. cbn. lia.
  - intros [[= -> ->]|[[= -> ->]|Hz]]; [done|unfold hplus, sizeof_Header in *; lia|].
    destruct (J1 _ _ Hz) as [Hz' _]. by apply (Hc y t z k).
  - split; [done|]. split; [|split; [|done]]; intros [z k]; [rewrite elem_of_cons; intros [[= -> ->]|Hz]|intros Hz];
      unfold before, hplus, sizeof_Header in *; cbn [fst snd]; [lia|..]; destruct (J1 _ _ Hz) as [_ Hz']; lia.
Qed.

(** Other live blocks are disjoint from the joined block. *)
Lemma joined_live y k : live !! y = Some k -> y <> x -> hplus y k <= x \/ hplus x n1 <= y.
Proof using All.
  intros Hy Hne. destruct (ui_live _ _ _ _ _ _ I _ _ Hy) as (_ & Hk & _).
  pose proof (ui_disj' _ _ _ _ _ _ I _ _ _ _ Hy Hx Hne) as D1. destruct J as [(_ & -> & _)|(t & El & ->)]; [lia|].
  assert ((hplus x n, t) ∈ fl) as Ht by (rewrite E, El; set_solver). pose proof (ui_disj _ _ _ _ _ _ I _ _ _ _ Hy Ht) as D2.
  unfold hplus, sizeof_Header in *. lia.
Qed.

Lemma uinv_freed m' :
  same_off touched m m' -> Forall (node_ok m') (links base (freed n1 l3)) -> peek 8 m' freep = p ->
  uinv m' (freed n1 l3) (delete x live).
Proof using All.
  intros So N Hfp. pose proof (joined_facts n1 l3 J) as (J1 & J2 & J3 & _). pose proof So as (Sl & Sh & _).
  assert (forall y k, delete x live !! y = Some k -> live !! y = Some k /\ y <> x) as Hdel.
  { intros y k Hy. by apply lookup_delete_Some in Hy as [? ?]. }
  assert (forall y k, live !! y = Some k -> y + 16 <= p \/ p + 16 <= y) as Hap.
  { intros y k Hy. destruct (ui_live _ _ _ _ _ _ I _ _ Hy) as (? & ? & _). pose proof (ui_disj _ _ _ _ _ _ I _ _ _ _ Hy Hin).
    destruct (ui_free _ _ _ _ _ _ I _ _ Hin) as [[-> ->]|(? & ? & _)]; unfold hplus, sizeof_Header in *; lia. }
  split; [..|rewrite Sl, Sh; apply (ui_glob _ _ _ _ _ _ I)].
  - destruct (ui_base _ _ _ _ _ _ I) as [fl' Efl]. rewrite E in Efl. unfold freed.
    destruct (app_cons_head _ _ _ _ _ Efl) as [[E1 E2]|[l' E1]]; rewrite E1.
    + injection E2 as Ep Es. rewrite decide_False by (rewrite Ep, Es; unfold hplus, sizeof_Header; lia).
      rewrite Ep, Es. by eexists.
    + case_decide; cbn [app]; by eexists.
  - exact N.
  - apply freed_sorted.
  - intros y t Hy. rewrite Sh. apply freed_elem in Hy as [[Hy _]|[(Ee & -> & ->)|[Ee [[-> ->]|[-> ->]]]]].
    + by apply (ui_free _ _ _ _ _ _ I).
    + right. destruct (ui_free _ _ _ _ _ _ I _ _ Hin) as [[-> ->]|(? & ? & _)]; unfold hplus, sizeof_Header in *; lia.
    + by apply (ui_free _ _ _ _ _ _ I).
    + right. lia.
  - intros y k [Hy Hne]%Hdel. destruct (ui_live _ _ _ _ _ _ I _ _ Hy) as (Y1 & Y2 & Y3 & <-). rewrite Sh. split_and!; try done.
    apply (same_off_peek touched); [done|]. unfold touched. intros a Ha. pose proof (Hap _ _ Hy).
    pose proof (ui_disj' _ _ _ _ _ _ I _ _ _ _ Hy Hx Hne). unfold hplus, sizeof_Header in *. lia.
  - intros y k z t [Hy Hne]%Hdel Hz. pose proof (joined_live _ _ Hy Hne) as Dj. pose proof (ui_disj _ _ _ _ _ _ I _ _ _ _ Hy Hin) as Dp.
    destruct (ui_live _ _ _ _ _ _ I _ _ Hy) as (_ & Hk & _).
    apply freed_elem in Hz as [[Hz _]|[(Ee & -> & ->)|[Ee [[-> ->]|[-> ->]]]]]; [|unfold hplus, sizeof_Header in *; lia..].
    by apply (ui_disj _ _ _ _ _ _ I).
  - intros y k z j [Hy _]%Hdel [Hz _]%Hdel. by apply (ui_disj' _ _ _ _ _ _ I).
  - rewrite Hfp. unfold freed. case_decide; [exists (s + n1)|exists s]; rewrite elem_of_app, elem_of_cons; auto.
Qed.

Lemma freed_units : units (freed n1 l3) = units fl + n.
Proof using All.
  pose proof (joined_facts n1 l3 J) as (_ & _ & _ & _ & _ & U). rewrite E. unfold freed.
  case_decide; rewrite !units_app; unfold units in *; cbn [foldr snd] in *; lia.
Qed.
Lemma freed_fit : exists y t, (y, t) ∈ freed n1 l3 /\ n <= t.
Proof using All.
  pose proof (joined_facts n1 l3 J) as (_ & J2 & _). unfold freed.
  case_decide; [exists p, (s + n1)|exists x, n1]; (split; [set_solver|lia]).
Qed.
Lemma freed_length : (length (freed n1 l3) <= S (length fl))%nat.
Proof using All.
  assert (length l3 <= length l2)%nat by (destruct J as [(-> & _)|(t & -> & _)]; cbn; lia).
  unfold freed. rewrite E. case_decide; rewrite !length_app; cbn [length]; lia.
Qed.
End After.
End Search.

(** [free] of a live block. *)
Lemma free_ok m fl live x n :
  uinv m fl live -> live !! x = Some n ->
  exists m' fl', free freep (x + 16) m = Ok (tt, m') /\ uinv m' fl' (delete x live) /\
    units fl' = units fl + n /\ (exists y t, (y, t) ∈ fl' /\ n <= t) /\ (length fl' <= S (length fl))%nat /\
    same_off (fun a => freep <= a < freep + 8 \/ exists y t, (y, t) ∈ (x, n) :: fl /\ y <= a < y + 16) m m'.
Proof.
  intros I Hx. destruct (live_split _ _ _ _ _ _ I x n Hx) as (l1 & p & s & l2 & E & Hp1 & Hp2 & H2).
  destruct (free_run m fl live I x n Hx l1 p s l2 E (conj Hp1 Hp2) H2) as (m' & n1 & l3 & J & Er & So & N & Hf).
  exists m', (freed x l1 p s n1 l3). split_and!; [done|..].
  - by eapply uinv_freed.
  - by eapply freed_units.
  - by eapply freed_fit.
  - by eapply freed_length.
  - apply (same_off_weaken _ _ _ _ So). unfold touched. destruct (ui_glob _ _ _ _ _ _ I) as (? & ? & ? & ? & ? & ? & ?).
    intros a [Ha|[Ha|Ha]]; [right; exists x, n|right; exists p, s|left; done]; (split; [|done]); [left|right].
    rewrite E. set_solver.
Qed.
End Free.
