(* ===== verification/UmallocProof.v ===== *)
(** * Allocating a block with the user allocator *)

From S2P Require Import Prelude CInt Memory KMonad Blocks User Umalloc UmallocInv.

(** Membership in a list built with [++] and [::]. *)
Ltac in_list := rewrite ?elem_of_app, ?elem_of_cons; auto 6.

(** One load or store of a user program. *)
Ltac ustep :=
  first
  [ rewrite bind_ret
  | rewrite bind_assoc
  | erewrite (bind_ok (onmem (ld64 _))) by (apply onmem_at, ld64_ok; bk)
  | erewrite (bind_ok (onmem (ld32 _))) by (apply onmem_at, ld32_ok; bk)
  | erewrite (bind_ok (onmem (st64 _ _))) by (apply onmem_at, st64_ok; bk)
  | erewrite (bind_ok (onmem (st32 _ _))) by (apply onmem_at, st32_ok; bk)
  ]; cbv beta.

Section Malloc.
Context `{OS : Os} (base freep hlo : Z).
Notation uinv := (uinv base freep hlo).

(** The bytes of the blocks in use and of the static data other than the
    variables of the allocator. *)
Definition kept (live : gmap Z Z) (a : Z) : Prop :=
  (exists y k, live !! y = Some k /\ y <= a < hplus y k) \/
  (a < hlo /\ ~ (base <= a < base + 16) /\ ~ (freep <= a < freep + 8)).
Definition live_same (live : gmap Z Z) (m m' : ram) : Prop :=
  (ram_lo m' = ram_lo m /\ ram_hi m <= ram_hi m') /\ forall a, kept live a -> byte_at m' a = byte_at m a.

Lemma live_same_refl live m : live_same live m m.
Proof. by split. Qed.
Lemma live_same_trans live m m' m'' : live_same live m m' -> live_same live m' m'' -> live_same live m m''.
Proof.
  intros [[L1 R1] H1] [[L2 R2] H2]. split; [split; [congruence|lia]|]. intros a Ha. by rewrite (H2 a Ha), (H1 a Ha).
Qed.
Lemma live_same_at live m m' y k a :
  live_same live m m' -> live !! y = Some k -> y <= a < hplus y k -> byte_at m' a = byte_at m a.
Proof. intros [_ H] Hy Ha. apply H. left. eauto. Qed.

(** ** Taking units off a free block *)

Section Take.
Context (m : ram) (fl : list (Z * Z)) (live : gmap Z Z) (I : uinv m fl live).
Context (l1 : list (Z * Z)) (q t p s : Z) (l2 : list (Z * Z)) (n : Z).
Hypothesis E : fl = l1 ++ (q, t) :: (p, s) :: l2.
Hypothesis Hn : 1 <= n <= s.

(** The tail of the block. *)
Let r := hplus p (s - n).
Let l2' := if decide (s = n) then l2 else (p, s - n) :: l2.
Let fl' := l1 ++ (q, t) :: l2'.

Let E1 : fl = (l1 ++ [(q, t)]) ++ (p, s) :: l2.
Proof. by rewrite <- app_assoc. Qed.
Let Hin : (p, s) ∈ fl.
Proof. rewrite E. in_list. Qed.
Let Hinq : (q, t) ∈ fl.
Proof. rewrite E. in_list. Qed.
Let Hpr : ram_lo m <= p /\ base <= p /\ p + 16 <= ram_hi m /\ 0 <= s < 2 ^ 32 /\ 0 < p.
Proof. exact (free_range _ _ _ _ _ _ I p s Hin). Qed.
Let Hqr : ram_lo m <= q /\ base <= q /\ q + 16 <= ram_hi m /\ 0 <= t < 2 ^ 32 /\ 0 < q.
Proof. exact (free_range _ _ _ _ _ _ I q t Hinq). Qed.
Let Hqp : hplus q t < p /\ q + 16 <= p.
Proof.
  destruct (split_order _ _ _ _ _ _ I _ _ _ _ E) as (_ & Hb & _). specialize (Hb p s ltac:(in_list)).
  split; [done|]. apply (headers_apart _ _ _ _ _ _ I q t p s Hinq Hin). unfold hplus, sizeof_Header in *. lia.
Qed.
Let Hp : hlo <= p /\ hplus p s <= ram_hi m.
Proof. destruct (ui_free _ _ _ _ _ _ I p s Hin) as [[-> ->]|(? & ? & ?)]; unfold hplus, sizeof_Header in *; lia. Qed.
Let Hg : base + 16 <= hlo /\ freep + 8 <= hlo /\ ram_lo m <= freep /\ hlo <= ram_hi m <= 2 ^ 35 /\ (base + 16 <= freep \/ freep + 8 <= base).
Proof. destruct (ui_glob _ _ _ _ _ _ I) as (? & ? & ? & ? & ? & ? & ?). done. Qed.
Let Hq2 : q + 16 <= freep \/ freep + 8 <= q.
Proof. exact (freep_apart _ _ _ _ _ _ I q t Hinq). Qed.
Let Hfr : p <= r /\ r + 16 * n = hplus p s.
Proof. unfold r, hplus, sizeof_Header. lia. Qed.

Definition took (a : Z) : Prop := q <= a < q + 8 \/ p + 8 <= a < p + 12 \/ r + 8 <= a < r + 12 \/ freep <= a < freep + 8.

Lemma take_sub y k : (y, k) ∈ l2' -> (y = p /\ k = s - n /\ s <> n) \/ ((y, k) ∈ l2 /\ hplus p s < y).
Proof using All.
  destruct (split_order _ _ _ _ _ _ I _ _ _ _ E1) as (_ & Hb & _).
  unfold l2'. case_decide; [intros Hy; right; eauto|]. rewrite elem_of_cons. intros [[= -> ->]|Hy]; [auto|right; eauto].
Qed.

Lemma take_nodes m' :
  same_off took m m' -> peek 8 m' q = next_of base l2' -> (s <> n -> peek 4 m' (p + 8) = s - n) ->
  Forall (node_ok m') (links base fl').
Proof using All.
  intros So N1 N2. pose proof (ui_nodes _ _ _ _ _ _ I) as N. rewrite E, links_app in N. cbn [links next_of] in N.
  rewrite Forall_app, !Forall_cons in N. destruct N as (Na & (Nq1 & Nq2) & (Np1 & Np2) & Nb).
  destruct (split_order _ _ _ _ _ _ I _ _ _ _ E) as (Ha & Hb & _).
  destruct (split_order _ _ _ _ _ _ I _ _ _ _ E1) as (_ & Hb1 & _).
  unfold hplus, sizeof_Header in *.
  assert (Forall (node_ok m') (links base l2)) as Nb'.
  { eapply (nodes_same took m); [exact So| |done]. intros y k Hy a Hay. specialize (Hb1 _ _ Hy).
    assert ((y, k) ∈ fl) as Hy' by (rewrite E; in_list). unfold took. lia. }
  unfold fl'. rewrite links_app. cbn [links next_of]. apply Forall_app. split; [|apply Forall_cons; split].
  - eapply (nodes_same took m); [exact So| |done]. intros y k Hy a Hay.
    assert ((y, k) ∈ fl) as Hy' by (rewrite E; in_list). specialize (Ha _ _ Hy).
    pose proof (free_range _ _ _ _ _ _ I _ _ Hy'). pose proof (freep_apart _ _ _ _ _ _ I _ _ Hy').
    pose proof (headers_apart _ _ _ _ _ _ I _ _ _ _ Hy' Hinq ltac:(lia)). unfold took. lia.
  - split; [done|]. rewrite <- Nq2. apply (same_off_peek took); [done|]. unfold took. lia.
  - unfold l2'. case_decide as Es; [done|]. cbn [links]. apply Forall_cons. split; [|done].
    split; [|by apply N2]. rewrite <- Np1. apply (same_off_peek took); [done|]. unfold took. lia.
Qed.

Lemma take_fresh : live !! r = None.
Proof using All.
  destruct (live !! r) as [k|] eqn:Er; [|done]. destruct (ui_live _ _ _ _ _ _ I _ _ Er) as (_ & ? & _).
  pose proof (ui_disj _ _ _ _ _ _ I _ _ _ _ Er Hin). unfold hplus, sizeof_Header in *. lia.
Qed.

Lemma take_live_same m' : same_off took m m' -> live_same live m m'.
Proof using All.
  intros So. split; [pose proof So as (-> & -> & _); split; [done|lia]|]. intros a [(y & k & Hy & Ha)|(Ha & Hb & Hf)]; apply So.
  2: { destruct (ui_free _ _ _ _ _ _ I _ _ Hinq) as [[-> ->]|(? & ? & _)]; unfold took, hplus, sizeof_Header in *; lia. }
  destruct (ui_live _ _ _ _ _ _ I _ _ Hy) as (? & ? & _). pose proof (ui_disj _ _ _ _ _ _ I _ _ _ _ Hy Hin) as D1. pose proof (ui_disj _ _ _ _ _ _ I _ _ _ _ Hy Hinq) as D2.
  destruct (ui_free _ _ _ _ _ _ I _ _ Hinq) as [[-> ->]|(? & ? & _)]; unfold took, hplus, sizeof_Header in *; lia.
Qed.

Lemma take_sorted : StronglySorted before fl'.
Proof using All.
  pose proof (ui_sorted _ _ _ _ _ _ I) as S. rewrite E in S. apply StronglySorted_app in S as (S0 & S1 & S2).
  apply StronglySorted_cons in S2 as [S2 S3]. apply StronglySorted_cons in S3 as [S3 S4]. rewrite Forall_forall in S2, S3.
  assert (forall b c, b ∈ l1 ++ [(q, t)] -> c ∈ l2' -> before b c) as Hbc.
  { intros b [z k] Hb Hz. apply elem_of_app in Hb as Hb'. rewrite list_elem_of_singleton in Hb'. destruct (take_sub z k Hz) as [(-> & -> & _)|[Hz' _]].
    - destruct Hb' as [Hb'| ->]; [by apply (S0 b (p, s)); in_list|by apply (S2 (p, s)); in_list].
    - destruct Hb' as [Hb'| ->]; [by apply (S0 b (z, k)); in_list|by apply (S2 (z, k)); in_list]. }
  unfold fl'. apply StronglySorted_app. split; [|split; [done|apply StronglySorted_cons; split]].
  - intros b c Hb. rewrite elem_of_cons. intros [->|Hc]; [apply S0; [done|left]|apply Hbc; [in_list|done]].
  - apply Forall_forall. intros c Hc. apply Hbc; [in_list|done].
  - unfold l2'. case_decide; [done|]. apply StronglySorted_cons. split; [|done]. apply Forall_forall. intros [z k] Hz.
    specialize (S3 _ Hz). unfold before, hplus, sizeof_Header in *. cbn [fst snd] in *. lia.
Qed.
Lemma take_inv m' :
  same_off took m m' -> peek 8 m' q = next_of base l2' -> (s <> n -> peek 4 m' (p + 8) = s - n) ->
  peek 4 m' (r + 8) = n -> peek 8 m' freep = q -> uinv m' fl' (<[r := n]> live).
Proof using All.
  intros So N1 N2 Hr Hf. pose proof So as (Sl & Sh & _).
  assert (forall y k, (y, k) ∈ fl' -> ((y, k) ∈ fl /\ (y = p -> False)) \/ (y = p /\ k = s - n /\ s <> n)) as Hel.
  { intros y k. unfold fl'. rewrite elem_of_app, elem_of_cons. destruct (split_order _ _ _ _ _ _ I _ _ _ _ E1) as (Ha & _ & _).
    assert ((y, k) ∈ l1 ++ [(q, t)] -> (y, k) ∈ fl /\ (y = p -> False)) as K.
    { intros Hy. assert ((y, k) ∈ fl) as Hy' by (rewrite E1; apply elem_of_app; by left). split; [done|]. specialize (Ha _ _ Hy).
      pose proof (free_range _ _ _ _ _ _ I _ _ Hy'). unfold hplus, sizeof_Header in *. lia. }
    intros [Hy|[Hy|[Hy|[Hy Hlt]]%take_sub]]; [left; apply K; in_list|left; apply K; rewrite Hy; in_list|by right|left].
    split; [rewrite E; in_list|]. unfold hplus, sizeof_Header in *. lia. }
  assert (forall y k, live !! y = Some k -> r <> y /\ (hplus y k <= p \/ hplus p s <= y)) as Hlv.
  { intros y k Hy. split; [intros <-; pose proof take_fresh; congruence|by apply (ui_disj _ _ _ _ _ _ I _ _ _ _ Hy Hin)]. }
  assert (forall y k, (y, k) ∈ fl' -> hplus r n <= y \/ hplus y k <= r) as Hrf.
  { intros y k [[Hy Hyp]|(-> & -> & _)]%Hel; [|unfold r, hplus, sizeof_Header in *; lia].
    pose proof (free_range _ _ _ _ _ _ I _ _ Hy). destruct (split_order _ _ _ _ _ _ I _ _ _ _ E1) as (Ha & Hb & _).
    rewrite E1, elem_of_app, elem_of_cons in Hy. unfold hplus, sizeof_Header in *.
    destruct Hy as [Hy|[[= -> _]|Hy]]; [specialize (Ha _ _ Hy)|done|specialize (Hb _ _ Hy)]; lia. }
  split; [..|rewrite Sl, Sh; apply (ui_glob _ _ _ _ _ _ I)].
  - destruct (ui_base _ _ _ _ _ _ I) as [fl0 Efl]. rewrite E in Efl. unfold fl'.
    destruct (app_cons_head _ _ _ _ _ Efl) as [[El E2]|[l' El]]; rewrite El; [rewrite E2|]; by eexists.
  - by apply take_nodes.
  - apply take_sorted.
  - intros y k [[Hy _]|(-> & -> & Hs)]%Hel; rewrite Sh; [by apply (ui_free _ _ _ _ _ _ I)|].
    right. unfold hplus, sizeof_Header in *. lia.
  - intros y k. rewrite lookup_insert_Some, Sh. intros [[<- <-]|[Hne Hy]]; [unfold hplus, sizeof_Header in *; lia|].
    destruct (ui_live _ _ _ _ _ _ I _ _ Hy) as (Y1 & Y2 & Y3 & Y4). split_and!; try done. rewrite <- Y4.
    apply peek_ext. intros a Ha. apply (live_same_at _ _ _ y k a (take_live_same m' So) Hy). unfold hplus, sizeof_Header in *. lia.
  - intros y k z j. rewrite lookup_insert_Some. intros [[<- <-]|[Hne Hy]] Hz; [by apply Hrf|].
    destruct (Hlv _ _ Hy) as [_ D]. apply Hel in Hz as [[Hz _]|(-> & -> & _)]; [by apply (ui_disj _ _ _ _ _ _ I y k z j)|].
    unfold hplus, sizeof_Header in *. lia.
  - assert (forall y k, live !! y = Some k -> hplus r n <= y \/ hplus y k <= r) as Hry.
    { intros y k Hy. destruct (Hlv _ _ Hy) as [_ D]. unfold hplus, sizeof_Header in *. lia. }
    intros y k z j. rewrite !lookup_insert_Some. intros [[<- <-]|[_ Hy]] [[<- <-]|[_ Hz]] Hne; [done|by apply Hry| |].
    + destruct (Hry _ _ Hy); auto.
    + by apply (ui_disj' _ _ _ _ _ _ I y k z j).
  - rewrite Hf. exists t. unfold fl'. in_list.
Qed.

Lemma take_run o :
  exists m', (r <- (if s =? n then
                next <- onmem (ld64 (s_ptr p)) ;;
                onmem (st64 (s_ptr q) next) ;;;
                ret p
              else
                onmem (st32 (s_size p) (s - n)) ;;;
                let p := hplus p (s - n) in
                onmem (st32 (s_size p) n) ;;;
                ret p) ;;
        onmem (st64 freep q) ;;;
        ret (hplus r 1)) (Ust _ m o) = Ok (hplus r 1, Ust _ m' o) /\
    same_off took m m' /\ peek 8 m' q = next_of base l2' /\ (s <> n -> peek 4 m' (p + 8) = s - n) /\
    peek 4 m' (r + 8) = n /\ peek 8 m' freep = q.
Proof using All.
  assert (0 <= q < 2 ^ 64) as Hq64 by lia. pose proof Hfr as Hfr'. unfold hplus, sizeof_Header in Hfr', Hp, Hqp.
  destruct (Z.eqb_spec s n) as [Es|Es].
  - destruct (node_at _ _ _ _ _ _ I _ _ _ _ E1) as [Np1 Np2]. pose proof (next_range _ _ _ _ _ _ I _ _ _ _ E1) as Hnx.
    assert (r = p) as Er by (unfold r, hplus, sizeof_Header; lia).
    exists (poke 8 (poke 8 m q (next_of base l2)) freep q). unfold s_ptr, l2'. rewrite decide_True by done. split_and!.
    + repeat ustep. by rewrite Np1, Er.
    + eapply same_off_trans; [apply same_off_poke|apply same_off_poke|]. unfold took. cbv beta. lia.
    + by peeks.
    + done.
    + rewrite Er. peeks. by rewrite Np2.
    + by peeks.
  - exists (poke 8 (poke 4 (poke 4 m (p + 8) (s - n)) (r + 8) n) freep q). unfold s_size, l2'. rewrite decide_False by done.
    fold r. split_and!.
    + repeat ustep. done.
    + eapply same_off_trans; [eapply same_off_trans|..]; [apply same_off_poke|apply same_off_poke| |apply same_off_poke|];
        [intros a Ha; exact Ha|]. unfold took. cbv beta. lia.
    + peeks. by destruct (node_at _ _ _ _ _ _ I _ _ _ _ E) as [-> _].
    + intros _. assert (p + 16 <= r) by (unfold r, hplus, sizeof_Header; lia). by peeks.
    + by peeks.
    + by peeks.
Qed.
End Take.

(** [n] units at [r] taken off the free list. *)
Definition taken (m : ram) (fl : list (Z * Z)) (live : gmap Z Z) (n : Z) (m' : ram) (r : Z) : Prop :=
  exists fl', uinv m' fl' (<[r := n]> live) /\ live !! r = None /\ live_same live m m' /\ ram_hi m' = ram_hi m /\ units fl = units fl' + n.

(** ** The search of [malloc] *)

Section Scan.
Context (m : ram) (fl : list (Z * Z)) (live : gmap Z Z) (I : uinv m fl live).
Context (n : Z) (Hn : 1 <= n < 2 ^ 32) (o : os_t).

Lemma ring_next q t p s : (q, t) ∈ fl -> peek 8 m q = p -> (p, s) ∈ fl -> p <> base ->
  exists l1 l2, fl = l1 ++ (q, t) :: (p, s) :: l2.
Proof using I.
  intros Hq Hp Hs Hb. apply list_elem_of_split in Hq as (l1 & l2 & E). exists l1.
  destruct (node_at _ _ _ _ _ _ I _ _ _ _ E) as [N _]. rewrite Hp in N.
  destruct l2 as [|[y k] l2]; cbn [next_of] in N; [done|]. subst y. exists l2.
  assert ((p, k) ∈ fl) as Hk by (rewrite E; in_list). by rewrite (node_unique _ _ _ _ _ _ I _ _ _ Hs Hk).
Qed.

Lemma size_at p s : (p, s) ∈ fl -> peek 4 m (p + 8) = s.
Proof using I. intros Hp. apply list_elem_of_split in Hp as (l1 & l2 & E). by destruct (node_at _ _ _ _ _ _ I _ _ _ _ E). Qed.

(** The loop at a block that is large enough, at one that is too small, and
    at one that is too small and the last one. *)
Lemma scan_fit k q t p s :
  (q, t) ∈ fl -> peek 8 m q = p -> (p, s) ∈ fl -> n <= s ->
  exists m' r, malloc_loop freep (S k) n q p (Ust _ m o) = Ok (r + 16, Ust _ m' o) /\ taken m fl live n m' r.
Proof using All.
  intros Hq Hp Hs Hns. destruct (ring_next q t p s Hq Hp Hs) as (l1 & l2 & E).
  { intros ->. pose proof (node_unique _ _ _ _ _ _ I _ _ _ Hs (base_in _ _ _ _ _ _ I)). lia. }
  destruct (take_run m fl live I l1 q t p s l2 n E ltac:(lia) o) as (m' & Er & So & T1 & T2 & T3 & T4).
  exists m', (hplus p (s - n)). split.
  - pose proof (free_range _ _ _ _ _ _ I p s Hs). cbn [malloc_loop]. unfold s_size at 1. ustep. rewrite (size_at p s Hs).
    rewrite (proj2 (Z.leb_le n s)) by lia. etransitivity; [exact Er|]. unfold hplus, sizeof_Header. repeat f_equal; lia.
  - assert (1 <= n <= s) as Hr by lia. eexists. split; [exact (take_inv m fl live I l1 q t p s l2 n E Hr m' So T1 T2 T3 T4)|].
    split_and!; [exact (take_fresh m fl live I l1 q t p s l2 n E Hr)|exact (take_live_same m fl live I l1 q t p s l2 n E Hr m' So)|apply So|].
    rewrite E, !units_app. case_decide; unfold units; cbn [foldr snd]; lia.
Qed.

Lemma scan_small k q p s :
  (p, s) ∈ fl -> s < n -> p <> peek 8 m freep ->
  malloc_loop freep (S k) n q p (Ust _ m o) = malloc_loop freep k n p (peek 8 m p) (Ust _ m o).
Proof using All.
  intros Hs Hns Hf. pose proof (free_range _ _ _ _ _ _ I p s Hs).
  destruct (ui_glob _ _ _ _ _ _ I) as (? & ? & ? & ? & ? & ? & ?). cbn [malloc_loop]. unfold s_size, s_ptr.
  ustep. rewrite (size_at p s Hs), (proj2 (Z.leb_gt n s)) by lia. ustep.
  rewrite (proj2 (Z.eqb_neq _ _)) by done. by ustep.
Qed.

Lemma scan_last k q p s :
  (p, s) ∈ fl -> s < n -> p = peek 8 m freep ->
  malloc_loop freep (S k) n q p (Ust _ m o) =
    (p <- morecore freep n ;; if p =? 0 then ret 0 else next <- onmem (ld64 (s_ptr p)) ;; malloc_loop freep k n p next)
    (Ust _ m o).
Proof using All.
  intros Hs Hns Hf. pose proof (free_range _ _ _ _ _ _ I p s Hs).
  destruct (ui_glob _ _ _ _ _ _ I) as (? & ? & ? & ? & ? & ? & ?). cbn [malloc_loop]. unfold s_size at 1.
  ustep. rewrite (size_at p s Hs), (proj2 (Z.leb_gt n s)) by lia. ustep.
  by rewrite (proj2 (Z.eqb_eq _ _)) by done.
Qed.

(** The blocks from [p] on up to [f]. *)
Inductive walk (f : Z) : Z -> list (Z * Z) -> Prop :=
| walk_end s : (f, s) ∈ fl -> walk f f [(f, s)]
| walk_step p s W : (p, s) ∈ fl -> p <> f -> walk f (peek 8 m p) W -> walk f p ((p, s) :: W).

Lemma scan_walk p W : walk (peek 8 m freep) p W -> forall k q t, (q, t) ∈ fl -> peek 8 m q = p ->
  ((exists y s, (y, s) ∈ W /\ n <= s) ->
   exists m' r, malloc_loop freep (length W + k) n q p (Ust _ m o) = Ok (r + 16, Ust _ m' o) /\ taken m fl live n m' r) /\
  ((forall y s, (y, s) ∈ W -> s < n) -> exists q' p' s', (p', s') ∈ fl /\ s' < n /\ p' = peek 8 m freep /\
   malloc_loop freep (length W + k) n q p (Ust _ m o) = malloc_loop freep (S k) n q' p' (Ust _ m o)).
Proof using All.
  induction 1 as [s Hs|p s W Hs Hf HW IH]; intros k q t Hq Hp; cbn [length Nat.add].
  - split; [|intros Hall; exists q, (peek 8 m freep), s; split_and!; try done; apply (Hall (peek 8 m freep) s); in_list].
    intros (y & s' & Hy & Hle). apply list_elem_of_singleton in Hy as [= -> ->]. by eapply scan_fit.
  - destruct (Z.lt_ge_cases s n) as [Hlt|Hge].
    + rewrite (scan_small _ q p s Hs Hlt Hf). destruct (IH k p s Hs eq_refl) as [IH1 IH2]. split.
      * intros (y & s' & Hy & Hle). apply IH1. apply elem_of_cons in Hy as [[= -> ->]|Hy]; [lia|eauto].
      * intros Hall. apply IH2. intros y s' Hy. apply (Hall y s'). by right.
    + split; [intros _; by eapply scan_fit|]. intros Hall. specialize (Hall p s ltac:(left)). lia.
Qed.

(** From any block the loop meets all of them. *)
Lemma walk_all f s : (f, s) ∈ fl -> exists W, walk f (peek 8 m f) W /\ length W = length fl /\ forall b, b ∈ fl <-> b ∈ W.
Proof using I Hn.
  intros Hf. pose proof Hf as Hf'. apply list_elem_of_split in Hf' as (A & B & E).
  destruct (split_order _ _ _ _ _ _ I _ _ _ _ E) as (Ha & Hb & _). pose proof (free_range _ _ _ _ _ _ I f s Hf).
  assert (forall g a, A = a ++ g -> walk f (next_of f g) (g ++ [(f, s)])) as WA.
  { induction g as [|[y k] g IH]; intros a Ea; [by constructor|]. cbn [next_of app].
    assert (fl = a ++ (y, k) :: g ++ (f, s) :: B) as Eq by (by rewrite E, Ea, <- app_assoc).
    assert ((y, k) ∈ fl) as Hy by (rewrite Eq; in_list). pose proof (free_range _ _ _ _ _ _ I y k Hy).
    specialize (Ha y k ltac:(rewrite Ea; in_list)). destruct (node_at _ _ _ _ _ _ I _ _ _ _ Eq) as [N _].
    rewrite next_of_app in N. cbn [next_of] in N.
    constructor; [done|unfold hplus, sizeof_Header in *; lia|]. rewrite N. apply (IH (a ++ [(y, k)])). by rewrite <- app_assoc. }
  assert (forall g b, B = b ++ g -> walk f (next_of base g) (g ++ A ++ [(f, s)])) as WB.
  { induction g as [|[y k] g IH]; intros b Eb.
    - cbn [next_of app]. destruct (ui_base _ _ _ _ _ _ I) as [fl' E0]. rewrite E in E0.
      specialize (WA A [] eq_refl). destruct A as [|[z j] A']; cbn in E0, WA |- *; injection E0; congruence.
    - cbn [next_of app]. assert (fl = (A ++ (f, s) :: b) ++ (y, k) :: g) as Eq by (by rewrite E, Eb, <- app_assoc).
      assert ((y, k) ∈ fl) as Hy by (rewrite Eq; in_list). specialize (Hb y k ltac:(rewrite Eb; in_list)).
      destruct (node_at _ _ _ _ _ _ I _ _ _ _ Eq) as [N _].
      constructor; [done|unfold hplus, sizeof_Header in *; lia|]. rewrite N. apply (IH (b ++ [(y, k)])). by rewrite <- app_assoc. }
  destruct (node_at _ _ _ _ _ _ I _ _ _ _ E) as [N _]. exists (B ++ A ++ [(f, s)]). rewrite N. split; [by apply (WB B [])|].
  split; [rewrite E, !length_app; cbn [length]; lia|]. intros b. rewrite E, !elem_of_app, elem_of_cons, list_elem_of_singleton. tauto.
Qed.
End Scan.

(** ** Growing the heap *)

(** The end of the memory of the process in the state of the system: a
    successful [sbrk] moves it, and it stays below 32 GB. *)
Class Brk := {
  brk : os_t -> Z;
  brk_grow k o o' : os_sbrk k o = (true, o') -> brk o' = brk o + k /\ brk o' <= 2 ^ 35;
  brk_fail k o o' : os_sbrk k o = (false, o') -> brk o' = brk o
}.
Context `{Brk}.

(** New memory with a header in front, as a block that is in use. *)
Lemma grow_inv m fl live k n :
  uinv m fl live -> ram_hi m + 16 * n <= 2 ^ 35 -> 1 <= n -> k = 16 * n ->
  let m1 := poke 4 (Ram (ram_lo m) (ram_hi m + k) (ram_bytes m)) (ram_hi m + 8) n in
  uinv m1 fl (<[ram_hi m := n]> live) /\ live !! ram_hi m = None /\ live_same live m m1.
Proof.
  intros I Hhi Hn -> m1. destruct (ui_glob _ _ _ _ _ _ I) as (G1 & G2 & G3 & G4 & G5 & G6 & G7 & G8).
  assert (ram_hi m1 = ram_hi m + 16 * n /\ ram_lo m1 = ram_lo m) as [Hh Hl] by (unfold m1; by rewrite ram_hi_poke, ram_lo_poke).
  assert (forall a, a < ram_hi m -> byte_at m1 a = byte_at m a) as Hb.
  { intros a Ha. unfold m1. rewrite byte_at_poke_ne by lia. done. }
  assert (forall j a, a + Z.of_nat j <= ram_hi m -> peek j m1 a = peek j m a) as Hpk.
  { intros j a Ha. apply peek_ext. intros x Hx. apply Hb. lia. }
  assert (forall y k, live !! y = Some k -> y < ram_hi m /\ hplus y k <= ram_hi m) as Hlv.
  { intros y k Hy. destruct (ui_live _ _ _ _ _ _ I _ _ Hy) as (_ & ? & ? & _). unfold hplus, sizeof_Header in *. lia. }
  split_and!.
  - split; try apply I.
    + apply Forall_forall. intros [[y s] nx] Hy. pose proof (ui_nodes _ _ _ _ _ _ I) as N. rewrite Forall_forall in N.
      specialize (N _ Hy). apply links_elem in Hy. pose proof (free_range _ _ _ _ _ _ I _ _ Hy). cbn [fst snd] in *.
      unfold node_ok in *. by rewrite !Hpk by lia.
    + rewrite Hh. intros y s Hy. destruct (ui_free _ _ _ _ _ _ I _ _ Hy) as [|(? & ? & ?)]; [by left|right; lia].
    + rewrite Hh. intros y j. rewrite lookup_insert_Some. intros [[<- <-]|[_ Hy]].
      * unfold m1, hplus, sizeof_Header. rewrite peek4_poke_eq by lia. lia.
      * destruct (ui_live _ _ _ _ _ _ I _ _ Hy) as (? & ? & ? & <-). unfold hplus, sizeof_Header in *. rewrite Hpk by lia. lia.
    + intros y j z s. rewrite lookup_insert_Some. intros [[<- <-]|[_ Hy]] Hz; [|by apply (ui_disj _ _ _ _ _ _ I y j z s)].
      right. destruct (ui_free _ _ _ _ _ _ I _ _ Hz) as [[-> ->]|(_ & _ & ?)]; unfold hplus, sizeof_Header in *; lia.
    + intros y j z s. rewrite !lookup_insert_Some. intros [[<- <-]|[_ Hy]] [[<- <-]|[_ Hz]] Hne; [done|..].
      * right. apply (Hlv _ _ Hz).
      * left. apply (Hlv _ _ Hy).
      * by apply (ui_disj' _ _ _ _ _ _ I y j z s).
    + rewrite Hpk by lia. apply I.
    + rewrite Hh, Hl. lia.
  - destruct (live !! ram_hi m) as [j|] eqn:Hy; [|done]. pose proof (Hlv _ _ Hy). lia.
  - split; [split; [done|lia]|]. intros a [(y & j & Hy & Ha)|(Ha & _)]; apply Hb; [pose proof (Hlv _ _ Hy)|]; lia.
Qed.

(** [free] keeps the bytes of the other blocks. *)
Lemma free_live_same m m' fl live x n :
  uinv m fl live -> live !! x = Some n ->
  same_off (fun a => freep <= a < freep + 8 \/ exists y t, (y, t) ∈ (x, n) :: fl /\ y <= a < y + 16) m m' ->
  live_same (delete x live) m m'.
Proof.
  intros I Hx So. split; [pose proof So as (-> & -> & _); split; [done|lia]|]. intros a Ha. apply So. destruct (ui_live _ _ _ _ _ _ I _ _ Hx) as (Hxl & Hn & _).
  destruct (ui_glob _ _ _ _ _ _ I) as (_ & _ & _ & Hg & Hg2 & _).
  destruct Ha as [(y & k & Hy & Ha)|(Ha & Hb & Hf)]; (intros [Hlt|(z & t & Hz & Hza)]; [|apply elem_of_cons in Hz as [[= -> ->]|Hz]]).
  - apply lookup_delete_Some in Hy as [Hne Hy]. destruct (ui_live _ _ _ _ _ _ I _ _ Hy) as (Hlo & Hk & _). lia.
  - apply lookup_delete_Some in Hy as [Hne Hy]. destruct (ui_live _ _ _ _ _ _ I _ _ Hy) as (Hlo & Hk & _).
    pose proof (ui_disj' _ _ _ _ _ _ I _ _ _ _ Hx Hy Hne). unfold hplus, sizeof_Header in *. lia.
  - apply lookup_delete_Some in Hy as [Hne Hy]. destruct (ui_live _ _ _ _ _ _ I _ _ Hy) as (Hlo & Hk & _).
    pose proof (ui_disj _ _ _ _ _ _ I _ _ _ _ Hy Hz).
    destruct (ui_free _ _ _ _ _ _ I _ _ Hz) as [[-> ->]|(_ & ? & _)]; unfold hplus, sizeof_Header in *; lia.
  - lia.
  - lia.
  - destruct (ui_free _ _ _ _ _ _ I _ _ Hz) as [[-> ->]|(? & ? & _)]; lia.
Qed.

Lemma morecore_ok m fl live n o :
  uinv m fl live -> 1 <= n < 2 ^ 27 - 1 -> brk o = ram_hi m ->
  (exists o', morecore freep n (Ust _ m o) = Ok (0, Ust _ m o') /\ brk o' = brk o /\
     os_sbrk (16 * Z.max n 4096) o = (false, o')) \/
  (exists m' o' fl', morecore freep n (Ust _ m o) = Ok (peek 8 m' freep, Ust _ m' o') /\ brk o' = ram_hi m' /\
     brk o' <= brk o + 16 * Z.max n 4096 /\
     uinv m' fl' live /\ (exists y t, (y, t) ∈ fl' /\ n <= t) /\ (length fl' <= S (length fl))%nat /\ live_same live m m').
Proof.
  intros I Hn Ho. unfold morecore, sbrk.
  assert ((if n <? 4096 then 4096 else n) = Z.max n 4096) as -> by (case_cmp; lia).
  set (nu := Z.max n 4096). assert (i32 (nu * sizeof_Header) = 16 * nu) as ->.
  { unfold sizeof_Header. rewrite i32_id; unfold nu; lia. }
  destruct (ui_glob _ _ _ _ _ _ I) as (G1 & G2 & G3 & G4 & G5 & G6 & G7 & G8).
  destruct (os_sbrk (16 * nu) o) as [[] o'] eqn:Es; [right|left].
  - destruct (brk_grow _ _ _ Es) as [B1 B2].
    destruct (grow_inv m fl live (16 * nu) nu I ltac:(lia) ltac:(lia) eq_refl) as (I1 & Hf & S1).
    set (m0 := Ram (ram_lo m) (ram_hi m + 16 * nu) (ram_bytes m)) in *. set (m1 := poke 4 m0 (ram_hi m + 8) nu) in *.
    destruct (free_ok _ _ _ _ _ _ _ _ I1 (lookup_insert_eq _ _ _)) as (m' & fl' & Ef & I' & _ & (y & t & Hy & Ht) & Hlen & So).
    pose proof (free_live_same _ _ _ _ _ _ I1 (lookup_insert_eq _ _ _) So) as S2. rewrite delete_insert_id in I', S2 by done.
    pose proof So as (Sl & Sh & _). unfold m1 in Sl, Sh. rewrite ram_lo_poke in Sl. rewrite ram_hi_poke in Sh. cbn [ram_lo ram_hi m0] in Sl, Sh.
    exists m', o', fl'. split_and!; [|lia|lia|done|exists y, t; split; [done|lia]|done|by eapply live_same_trans].
    unfold bind at 1. cbn [u_os u_mem]. rewrite Es. fold m0. rewrite (proj2 (Z.eqb_neq _ _)) by lia. unfold s_size, hplus, sizeof_Header.
    assert (backed m0 (ram_hi m + 8) 4 = true) as Hbk by (apply backed_true; cbn [ram_lo ram_hi m0]; lia).
    erewrite (bind_ok (onmem (st32 _ _))) by (apply onmem_at, st32_ok, Hbk). fold m1. rewrite Z.mul_1_r.
    erewrite (bind_ok (onmem (free _ _))) by (apply onmem_at, Ef). apply onmem_at, ld64_ok. bk.
  - exists o'. split_and!; [|by eapply brk_fail|done]. unfold bind at 1. cbn [u_os u_mem]. rewrite Es. done.
Qed.

(** The units for [nbytes] bytes. *)
Definition nunits (nbytes : Z) : Z := (nbytes + 15) / 16 + 1.

Definition malloc_spec (m : ram) (fl : list (Z * Z)) (live : gmap Z Z) (n : Z) (o : os_t) (r : Z) (m' : ram) (o' : os_t) : Prop :=
  brk o' = ram_hi m' /\
  ((r = 0 /\ m' = m /\ os_sbrk (16 * Z.max n 4096) o = (false, o') /\ (forall y s, (y, s) ∈ fl -> s < n)) \/
   exists x fl', r = x + 16 /\ live !! x = None /\ uinv m' fl' (<[x := n]> live) /\ live_same live m m' /\
     brk o' <= brk o + 16 * Z.max n 4096).

Lemma malloc_loop_ok m fl live n o k q :
  uinv m fl live -> 1 <= n < 2 ^ 27 - 1 -> brk o = ram_hi m -> (ring_fuel m <= k)%nat -> q = peek 8 m freep ->
  exists r m' o', malloc_loop freep (ring_fuel m + k) n q (peek 8 m q) (Ust _ m o) = Ok (r, Ust _ m' o') /\
    malloc_spec m fl live n o r m' o'.
Proof.
  intros I Hn Ho Hk ->. destruct (ui_freep _ _ _ _ _ _ I) as [t Hf].
  destruct (walk_all m fl live I n ltac:(lia) _ _ Hf) as (W & HW & Hlen & Hel). pose proof (fl_length _ _ _ _ _ _ I) as Hfl.
  destruct (decide (Exists (fun b => n <= b.2) fl)) as [Hex|Hno].
  - apply Exists_exists in Hex as ([y s] & Hy & Hle).
    destruct (scan_walk m fl live I n ltac:(lia) o _ _ HW (ring_fuel m - length W + k) _ _ Hf eq_refl) as [F1 _].
    destruct F1 as (m' & r & Er & fl' & T1 & T2 & T3 & T4 & _); [exists y, s; split; [by apply Hel|done]|].
    exists (r + 16), m', o. split.
    + rewrite <- Er. f_equal. unfold ring_fuel in *. lia.
    + split; [by rewrite Ho, T4|right]. exists r, fl'. split_and!; try done. lia.
  - assert (forall y s, (y, s) ∈ fl -> s < n) as Hall.
    { intros y s Hy. destruct (Z.lt_ge_cases s n); [done|]. destruct Hno. apply Exists_exists. exists (y, s). split; [done|cbn; lia]. }
    destruct (scan_walk m fl live I n ltac:(lia) o _ _ HW (ring_fuel m - length W + k) _ _ Hf eq_refl) as [_ F2].
    destruct F2 as (q' & p' & s' & Hp' & Hs' & Ep' & E2); [intros y s Hy; by apply (Hall y s), Hel|].
    replace (ring_fuel m + k)%nat with (length W + (ring_fuel m - length W + k))%nat by (unfold ring_fuel in *; lia).
    rewrite E2, (scan_last m fl live I n ltac:(lia) o _ _ _ _ Hp' Hs' Ep').
    destruct (morecore_ok m fl live n o I Hn Ho) as [(o' & Em & B & Eo)|(m' & o' & fl' & Em & B & B2 & I' & (y & t' & Hy & Ht') & Hl' & S')].
    + exists 0, m, o'. rewrite (bind_ok _ _ _ _ _ Em). split; [done|]. split; [by rewrite B|]. left. by split_and!.
    + destruct (ui_freep _ _ _ _ _ _ I') as [t1 Hf1]. pose proof (free_range _ _ _ _ _ _ I' _ _ Hf1).
      destruct (walk_all m' fl' live I' n ltac:(lia) _ _ Hf1) as (W' & HW' & Hlen' & Hel').
      rewrite (bind_ok _ _ _ _ _ Em). rewrite (proj2 (Z.eqb_neq _ _)) by lia. unfold s_ptr. ustep.
      destruct (scan_walk m' fl' live I' n ltac:(lia) o' _ _ HW' (ring_fuel m - length W + k - length W') _ _ Hf1 eq_refl) as [F1 _].
      destruct F1 as (m2 & r & Er & fl2 & T1 & T2 & T3 & T4 & _); [exists y, t'; split; [by apply Hel'|done]|].
      exists (r + 16), m2, o'. split.
      * rewrite <- Er. f_equal. unfold ring_fuel in *. lia.
      * split; [by rewrite T4|]. right. exists r, fl2. split_and!; try done. by eapply live_same_trans.
Qed.

(** ** Before the first call *)

(** Either the allocator runs, or [freep] is still 0. *)
Definition uready (m : ram) (fl : list (Z * Z)) (live : gmap Z Z) : Prop :=
  uinv m fl live \/
  (peek 8 m freep = 0 /\ fl = [(base, 0)] /\ live = ∅ /\
   0 < base /\ ram_lo m <= base /\ ram_lo m <= freep /\ base + 16 <= hlo /\ freep + 8 <= hlo /\
   (base + 16 <= freep \/ freep + 8 <= base) /\ hlo <= ram_hi m <= 2 ^ 35).

Lemma malloc_init m :
  peek 8 m freep = 0 -> uready m [(base, 0)] ∅ ->
  let m' := poke 4 (poke 8 (poke 8 m freep base) base base) (base + 8) 0 in
  uinv m' [(base, 0)] ∅ /\ peek 8 m' freep = base /\ ram_hi m' = ram_hi m.
Proof.
  intros E0 [I|(_ & _ & _ & G1 & G2 & G3 & G4 & G5 & G6 & G7 & G8)] m'.
  { destruct (ui_freep _ _ _ _ _ _ I) as [t Hf]. pose proof (free_range _ _ _ _ _ _ I _ _ Hf). lia. }
  assert (ram_hi m' = ram_hi m /\ ram_lo m' = ram_lo m) as [Hh Hl] by (unfold m'; by rewrite !ram_hi_poke, !ram_lo_poke).
  assert (peek 8 m' freep = base) as Hf by (unfold m'; by peeks).
  split_and!; [split|done..]; rewrite ?Hh, ?Hl; try done.
  - by eexists.
  - cbn [links]. apply Forall_cons. split; [|done]. unfold m'. split; by peeks.
  - repeat constructor.
  - intros x s Hx. apply list_elem_of_singleton in Hx as [= -> ->]. by left.
  - exists 0. rewrite Hf. by apply list_elem_of_singleton.
Qed.

(** The first lines of [malloc]. *)
Lemma malloc_enter m fl live o :
  uready m fl live ->
  exists m1, (forall k : Z -> U Z, (prevp <- onmem (ld64 freep) ;; prevp <- (if prevp =? 0 then
              onmem (st64 freep base) ;;;
              onmem (st64 (s_ptr base) base) ;;;
              onmem (st32 (s_size base) 0) ;;;
              ret base
            else ret prevp) ;; k prevp) (Ust _ m o) = k (peek 8 m1 freep) (Ust _ m1 o)) /\
    uinv m1 fl live /\ ram_hi m1 = ram_hi m /\ live_same live m m1.
Proof.
  intros R. assert (ram_lo m <= freep /\ freep + 8 <= ram_hi m) as Hfr.
  { destruct R as [I|?]; [destruct (ui_glob _ _ _ _ _ _ I) as (? & ? & ? & ? & ? & ? & ?)|]; lia. }
  destruct (R) as [I|(E0 & Efl & Elv & G1 & G2 & G3 & G4 & G5 & G6 & G7 & G8)].
  - exists m. split_and!; try done. intros k. ustep. destruct (ui_freep _ _ _ _ _ _ I) as [t Hf].
    pose proof (free_range _ _ _ _ _ _ I _ _ Hf). rewrite (proj2 (Z.eqb_neq _ _)) by lia. by ustep.
  - subst fl live. destruct (malloc_init m E0 R) as (I & Hf & Hh). eexists. split_and!; [|exact I|exact Hh|].
    2: { split; [rewrite ram_lo_poke, !ram_hi_poke, !ram_lo_poke; split; [done|lia]|]. intros a [(y & k & Hy & _)|(_ & Hb & Hf')]; [by apply lookup_empty_Some in Hy|]. rewrite !byte_at_poke_ne; done || lia. }
    intros k. rewrite Hf. ustep. rewrite E0. cbn [Z.eqb]. unfold s_ptr, s_size. by repeat ustep.
Qed.

Lemma malloc_ok m fl live o nbytes :
  uready m fl live -> 0 <= nbytes -> nbytes + 48 < 2 ^ 31 -> brk o = ram_hi m ->
  exists r m' o', malloc base freep nbytes (Ust _ m o) = Ok (r, Ust _ m' o') /\ brk o' = ram_hi m' /\
    ((r = 0 /\ uready m' fl live /\ os_sbrk (16 * Z.max (nunits nbytes) 4096) o = (false, o') /\
        live_same live m m' /\ (forall y s, (y, s) ∈ fl -> s < nunits nbytes)) \/
     exists x fl', r = x + 16 /\ live !! x = None /\ uinv m' fl' (<[x := nunits nbytes]> live) /\ live_same live m m' /\
       brk o' <= brk o + 16 * Z.max (nunits nbytes) 4096).
Proof.
  intros R Hn Hb Ho. unfold malloc.
  assert (u32 ((nbytes + sizeof_Header - 1) / sizeof_Header + 1) = nunits nbytes /\ 1 <= nunits nbytes < 2 ^ 27 - 1) as [-> Hnu].
  { unfold nunits, sizeof_Header. replace (nbytes + 16 - 1) with (nbytes + 15) by lia.
    assert (0 <= (nbytes + 15) / 16 < 2 ^ 27 - 2) by (split; [apply Z.div_pos|apply Z.div_lt_upper_bound]; lia).
    rewrite u32_id; lia. }
  destruct (malloc_enter m fl live o R) as (m1 & Ei & I & Hh & S1). rewrite Ei. destruct (ui_freep _ _ _ _ _ _ I) as [t Hf].
  pose proof (free_range _ _ _ _ _ _ I _ _ Hf). unfold s_ptr. ustep. cbn [u_mem].
  destruct (malloc_loop_ok m1 fl live (nunits nbytes) o (ring_fuel m1) _ I Hnu ltac:(by rewrite Hh) ltac:(lia) eq_refl)
    as (r & m' & o' & Er & B & [(-> & -> & Es & Hall)|(x & fl' & -> & Hx & I' & S' & B2)]).
  - exists 0, m1, o'. split_and!; [done|done|]. left. split_and!; try done. by left.
  - exists (x + 16), m', o'. split_and!; [done|done|]. right. exists x, fl'. split_and!; try done. by eapply live_same_trans.
Qed.
End Malloc.
