(* ===== verification/UmallocThm.v ===== *)
(** * Correctness of the user allocator (user/umalloc.c)

    [malloc] and [free] give a program separate buffers: every sequence of
    calls with requests of less than 2^31 - 48 bytes, with the program writing into its buffers in between, behaves as if
    each buffer were a list of bytes of its own. *)

From S2P Require Import Prelude CInt Memory KMonad Blocks User Umalloc UmallocInv UmallocProof.

(** ** A program with buffers *)

(** [UMalloc bs] allocates a buffer for [bs] and fills it, [UFree i] releases
    buffer [i], [UPut i off bs] writes [bs] at offset [off] of buffer [i]. *)
Inductive uact := UMalloc (bs : list Z) | UFree (i : nat) | UPut (i off : nat) (bs : list Z).

Definition act_ok (a : uact) : Prop :=
  match a with
  | UMalloc bs => Z.of_nat (length bs) + 48 < 2 ^ 31 /\ Forall (fun b => 0 <= b < 256) bs
  | UFree _ => True
  | UPut _ _ bs => Forall (fun b => 0 <= b < 256) bs
  end.

(** The specification: a list of buffers; an allocation may fail. *)
Definition overwrite (off : nat) (bs l : list Z) : list Z := take off l ++ bs ++ drop (off + length bs) l.

Inductive abs_step : uact -> list (option (list Z)) -> list (option (list Z)) -> Prop :=
| abs_malloc bs st : abs_step (UMalloc bs) st (st ++ [Some bs])
| abs_full bs st : abs_step (UMalloc bs) st (st ++ [None])
| abs_free i st : abs_step (UFree i) st (<[i := None]> st)
| abs_put i off bs l st : st !! i = Some (Some l) -> (off + length bs <= length l)%nat ->
    abs_step (UPut i off bs) st (<[i := Some (overwrite off bs l)]> st)
| abs_no_put i off bs st : (forall l, st !! i = Some (Some l) -> (length l < off + length bs)%nat) ->
    abs_step (UPut i off bs) st st.

Inductive abs_run : list uact -> list (option (list Z)) -> list (option (list Z)) -> Prop :=
| abs_done st : abs_run [] st st
| abs_more a acts st st' st'' : abs_step a st st' -> abs_run acts st' st'' -> abs_run (a :: acts) st st''.

Section Client.
Context `{OS : Os} (base freep : Z).

Definition put (p : Z) (bs : list Z) : M ram unit := fun m =>
  if backed m p (length bs) then Ok (tt, wrbytes m p bs) else Fault p.

(** One step of the program; it knows the addresses and lengths of its buffers. *)
Definition uexec (a : uact) (bufs : list (option (Z * nat))) : U (list (option (Z * nat))) :=
  match a with
  | UMalloc bs =>
      p <- malloc base freep (Z.of_nat (length bs)) ;;
      if p =? 0 then ret (bufs ++ [None])
      else onmem (put p bs) ;;; ret (bufs ++ [Some (p, length bs)])
  | UFree i =>
      match bufs !! i with
      | Some (Some (p, _)) => onmem (free freep p) ;;; ret (<[i := None]> bufs)
      | _ => ret bufs
      end
  | UPut i off bs =>
      match bufs !! i with
      | Some (Some (p, n)) =>
          if (off + length bs <=? n)%nat then onmem (put (p + Z.of_nat off) bs) ;;; ret bufs else ret bufs
      | _ => ret bufs
      end
  end.

Fixpoint urun (acts : list uact) (bufs : list (option (Z * nat))) : U (list (option (Z * nat))) :=
  match acts with
  | [] => ret bufs
  | a :: acts => bufs <- uexec a bufs ;; urun acts bufs
  end.
End Client.

(** ** The simulation *)

Lemma Forall2_set {A B} (P Q : A -> B -> Prop) l k i b c :
  Forall2 P l k -> (forall j x y, j <> i -> l !! j = Some x -> k !! j = Some y -> P x y -> Q x y) -> Q b c ->
  Forall2 Q (<[i := b]> l) (<[i := c]> k).
Proof.
  intros HF Hj Hi. pose proof (Forall2_length _ _ _ HF) as Hlen.
  apply Forall2_same_length_lookup_2; [by rewrite !length_insert|]. intros j x y Hx Hy.
  apply list_lookup_insert_Some in Hx as [(-> & -> & _)|[Hne Hx]]; apply list_lookup_insert_Some in Hy as [(E & -> & _)|[Hne' Hy]]; try done.
  apply (Hj j x y); [congruence|done..|]. by eapply (Forall2_lookup_lr P).
Qed.

Section Sim.
Context `{OS : Os} `{B : !Brk} (base freep hlo : Z).
Notation uinv := (uinv base freep hlo).
Notation uready := (uready base freep hlo).
Notation live_same := (live_same base freep hlo).

Definition buf_ok (m : ram) (live : gmap Z Z) (b : option (Z * nat)) (l : option (list Z)) : Prop :=
  match b, l with
  | Some (p, n), Some l => rdbytes m p n = l /\ exists u, live !! (p - 16) = Some u /\ Z.of_nat n <= 16 * (u - 1)
  | None, None => True
  | _, _ => False
  end.

(** Different buffers have different headers. *)
Definition bufs_apart (bufs : list (option (Z * nat))) : Prop :=
  forall i j p n q k, bufs !! i = Some (Some (p, n)) -> bufs !! j = Some (Some (q, k)) -> i <> j -> p <> q.

Record sim (s : ust) (bufs : list (option (Z * nat))) (st : list (option (list Z))) (live : gmap Z Z) : Prop := Sim {
  sm_ready : exists fl, uready (u_mem s) fl live;
  sm_brk : brk (u_os s) = ram_hi (u_mem s);
  sm_bufs : Forall2 (buf_ok (u_mem s) live) bufs st;
  sm_apart : bufs_apart bufs
}.

(** Writing into a block that is in use. *)
Lemma uinv_payload m m' fl live x u :
  uinv m fl live -> live !! x = Some u -> same_off (fun a => x + 16 <= a < hplus x u) m m' -> uinv m' fl live.
Proof.
  intros I Hx So. pose proof So as (Sl & Sh & _). destruct (ui_live _ _ _ _ _ _ I _ _ Hx) as (Hlo & Hu & _).
  destruct (ui_glob _ _ _ _ _ _ I) as (G1 & G2 & G3 & G4 & G5 & G6 & G7).
  split; rewrite ?Sl, ?Sh; try apply I.
  - eapply (nodes_same _ m); [exact So| |apply I]. intros y t Hy a Ha.
    pose proof (ui_disj _ _ _ _ _ _ I _ _ _ _ Hx Hy).
    destruct (ui_free _ _ _ _ _ _ I _ _ Hy) as [[-> ->]|(? & ? & ?)]; unfold hplus, sizeof_Header in *; lia.
  - intros y k Hy. destruct (ui_live _ _ _ _ _ _ I _ _ Hy) as (Y1 & Y2 & Y3 & <-). split_and!; try done.
    eapply same_off_peek; [exact So|]. intros a Ha. destruct (Z.eq_dec x y) as [->|Hne]; [lia|].
    pose proof (ui_disj' _ _ _ _ _ _ I _ _ _ _ Hx Hy Hne). unfold hplus, sizeof_Header in *. lia.
  - rewrite (same_off_peek _ _ _ _ _ So); [apply I|]. intros a Ha. unfold hplus, sizeof_Header in *. lia.
Qed.

(** A block in use means the allocator runs. *)
Lemma uready_live m fl live x u : uready m fl live -> live !! x = Some u -> uinv m fl live.
Proof. intros [I|(_ & _ & -> & _)] Hx; [done|by apply lookup_empty_Some in Hx]. Qed.

(** Buffers keep their contents when the blocks in use keep their bytes. *)
Lemma buf_ok_same m m' live live' b l :
  buf_ok m live b l -> live_same live m m' ->
  (forall p n u, b = Some (p, n) -> live !! (p - 16) = Some u -> live' !! (p - 16) = Some u) ->
  buf_ok m' live' b l.
Proof.
  destruct b as [[p n]|], l as [l|]; try done. intros [Hl (u & Hu & Hn)] Hs Hk. split; [|eauto].
  rewrite <- Hl. apply rdbytes_ext. intros i Hi. apply (live_same_at _ _ _ _ _ _ _ _ _ Hs Hu). unfold hplus, sizeof_Header. lia.
Qed.

Lemma buf_ok_put m m' fl live x u b l :
  uinv m fl live -> live !! x = Some u -> same_off (fun a => x + 16 <= a < hplus x u) m m' ->
  (forall p n, b = Some (p, n) -> p <> x + 16) -> buf_ok m live b l -> buf_ok m' live b l.
Proof.
  intros I Hx So Hne. destruct b as [[p n]|], l as [l|]; try done. intros [<- (k & Hk & Hn)]. split; [|eauto].
  specialize (Hne p n eq_refl). destruct (ui_live _ _ _ _ _ _ I _ _ Hx) as (_ & Hu & _).
  pose proof (ui_disj' _ _ _ _ _ _ I _ _ _ _ Hx Hk ltac:(lia)) as D. unfold hplus, sizeof_Header in D.
  eapply rdbytes_same_off; [exact So|]. intros a Ha. unfold hplus, sizeof_Header. lia.
Qed.

Lemma put_run m fl live x u off bs o :
  uinv m fl live -> live !! x = Some u -> Z.of_nat off + Z.of_nat (length bs) <= 16 * (u - 1) ->
  let m' := wrbytes m (x + 16 + Z.of_nat off) bs in
  onmem (put (x + 16 + Z.of_nat off) bs) (Ust _ m o) = Ok (tt, Ust _ m' o) /\
  same_off (fun a => x + 16 <= a < hplus x u) m m'.
Proof.
  intros I Hx Hlen m'. destruct (ui_live _ _ _ _ _ _ I _ _ Hx) as (? & ? & ? & _).
  destruct (ui_glob _ _ _ _ _ _ I) as (? & ? & ? & ? & ? & ? & ?). unfold hplus, sizeof_Header in *. split.
  - apply onmem_at. unfold put. by rewrite backed_true by lia.
  - eapply same_off_weaken; [apply wrbytes_same|]. cbv beta. lia.
Qed.

Lemma rdbytes_overwrite m a n off bs :
  (off + length bs <= n)%nat -> Forall (fun b => 0 <= b < 256) bs ->
  rdbytes (wrbytes m (a + Z.of_nat off) bs) a n = overwrite off bs (rdbytes m a n).
Proof.
  intros Hn Hb. unfold overwrite. apply list_eq. intros i. destruct (decide (i < n)%nat) as [Hi|Hi].
  - rewrite rdbytes_lookup by done. destruct (decide (i < off)%nat) as [H1|H1]; [|destruct (decide (i < off + length bs)%nat) as [H2|H2]].
    + rewrite lookup_app_l by (rewrite length_take, length_rdbytes; lia). rewrite lookup_take_lt, rdbytes_lookup by lia.
      f_equal. apply (wrbytes_same m (a + Z.of_nat off) bs). lia.
    + rewrite lookup_app_r by (rewrite length_take, length_rdbytes; lia). rewrite length_take, length_rdbytes, Nat.min_l by lia.
      rewrite lookup_app_l by lia.
      rewrite <- (rdbytes_wrbytes m (a + Z.of_nat off) bs) at 2 by (by rewrite Forall_forall in Hb).
      rewrite rdbytes_lookup by lia. do 2 f_equal. lia.
    + rewrite lookup_app_r by (rewrite length_take, length_rdbytes; lia). rewrite length_take, length_rdbytes, Nat.min_l by lia.
      rewrite lookup_app_r by lia. rewrite lookup_drop, rdbytes_lookup by lia.
      destruct (wrbytes_same m (a + Z.of_nat off) bs) as (_ & _ & ->); [|lia]. do 2 f_equal. lia.
  - rewrite !lookup_ge_None_2; [done|rewrite !length_app, length_take, length_drop, length_rdbytes; lia|rewrite length_rdbytes; lia].
Qed.

Lemma sim_put m o bufs st live i off bs p n :
  sim (Ust _ m o) bufs st live -> bufs !! i = Some (Some (p, n)) -> (off + length bs <= n)%nat -> Forall (fun b => 0 <= b < 256) bs ->
  exists m' l, onmem (put (p + Z.of_nat off) bs) (Ust _ m o) = Ok (tt, Ust _ m' o) /\ st !! i = Some (Some l) /\ length l = n /\
    sim (Ust _ m' o) bufs (<[i := Some (overwrite off bs l)]> st) live.
Proof.
  intros [[fl R] Hb HF Ha] Hi Hlen Hbs. cbn [u_mem u_os] in *.
  destruct (Forall2_lookup_l _ _ _ _ _ HF Hi) as ([l|] & Hl & Hok); [|done]. destruct (Hok) as [<- (u & Hu & Hn)].
  pose proof (uready_live _ _ _ _ _ R Hu) as I. destruct (put_run m fl live (p - 16) u off bs o I Hu ltac:(lia)) as [Er So].
  replace (p - 16 + 16 + Z.of_nat off) with (p + Z.of_nat off) in Er, So by lia.
  exists (wrbytes m (p + Z.of_nat off) bs), (rdbytes m p n). split_and!; [done|done|apply length_rdbytes|].
  split; cbn [u_mem u_os]; [|rewrite Hb; symmetry; apply So| |done].
  - exists fl. left. by eapply uinv_payload.
  - rewrite <- (list_insert_id bufs i (Some (p, n))) by done. eapply Forall2_set; [exact HF|..].
    + intros j b c Hj Hjb _ Hok'. eapply buf_ok_put; [done..| |done]. intros q k ->.
      pose proof (Ha _ _ _ _ _ _ Hjb Hi Hj). lia.
    + split; [by apply rdbytes_overwrite|eauto].
Qed.

Lemma sim_free m o bufs st live i p n :
  sim (Ust _ m o) bufs st live -> bufs !! i = Some (Some (p, n)) ->
  exists m' live', onmem (free freep p) (Ust _ m o) = Ok (tt, Ust _ m' o) /\
    sim (Ust _ m' o) (<[i := None]> bufs) (<[i := None]> st) live'.
Proof.
  intros [[fl R] Hb HF Ha] Hi. cbn [u_mem u_os] in *.
  destruct (Forall2_lookup_l _ _ _ _ _ HF Hi) as ([l|] & Hl & Hok); [|done]. destruct (Hok) as [<- (u & Hu & Hn)].
  pose proof (uready_live _ _ _ _ _ R Hu) as I. destruct (free_ok _ _ _ _ _ _ _ _ I Hu) as (m' & fl' & Er & I' & _ & _ & _ & So).
  pose proof (free_live_same _ _ _ _ _ _ _ _ _ I Hu So) as Hs. replace (p - 16 + 16) with p in Er by lia.
  exists m', (delete (p - 16) live). split; [by apply onmem_at|].
  split; cbn [u_mem u_os]; [exists fl'; by left|rewrite Hb; symmetry; apply So|..].
  - eapply Forall2_set; [exact HF| |done]. intros j b c Hj Hjb _ Hok'.
    assert (forall q k, b = Some (q, k) -> p - 16 <> q - 16) as Hne.
    { intros q k ->. pose proof (Ha _ _ _ _ _ _ Hi Hjb ltac:(congruence)). lia. }
    eapply (buf_ok_same m m' (delete (p - 16) live)); [|done|done]. destruct b as [[q k]|], c as [c|]; try done.
    destruct Hok' as [<- (u' & Hu' & Hk)]. split; [done|]. exists u'. split; [|done].
    rewrite lookup_delete_ne; [done|]. by apply (Hne q k).
  - intros j k q1 n1 q2 n2 Hj Hk. apply list_lookup_insert_Some in Hj as [(_ & [=] & _)|[_ Hj]].
    apply list_lookup_insert_Some in Hk as [(_ & [=] & _)|[_ Hk]]. by eapply Ha.
Qed.

Lemma sim_malloc m o bufs st live bs :
  sim (Ust _ m o) bufs st live -> act_ok (UMalloc bs) ->
  exists m' o' live' bufs' st', uexec base freep (UMalloc bs) bufs (Ust _ m o) = Ok (bufs', Ust _ m' o') /\
    abs_step (UMalloc bs) st st' /\ sim (Ust _ m' o') bufs' st' live'.
Proof.
  intros [[fl R] Hb HF Ha] [Hlen Hbs]. cbn [u_mem u_os] in *.
  destruct (malloc_ok base freep hlo m fl live o (Z.of_nat (length bs)) R ltac:(lia) Hlen Hb) as (r & m' & o' & Er & Hb' & Hr).
  unfold uexec. rewrite (bind_ok _ _ _ _ _ Er). destruct Hr as [(-> & R' & _ & Hs & _)|(x & fl' & -> & Hx & I' & Hs & _)].
  - exists m', o', live, (bufs ++ [None]), (st ++ [None]). split_and!; [done|constructor|].
    split; cbn [u_mem u_os]; [by exists fl|done|..].
    + apply Forall2_app; [|by constructor]. eapply Forall2_impl; [exact HF|]. intros b l Hok. by eapply buf_ok_same.
    + intros i j p n q k Hi Hj. apply lookup_app_Some in Hi as [Hi|[_ Hi]]; [|by apply list_lookup_singleton_Some in Hi as [_ [=]]].
      apply lookup_app_Some in Hj as [Hj|[_ Hj]]; [by eapply Ha|by apply list_lookup_singleton_Some in Hj as [_ [=]]].
  - destruct (ui_live _ _ _ _ _ _ I' x _ (lookup_insert_eq _ _ _)) as (Hxl & _).
    destruct (ui_glob _ _ _ _ _ _ I') as (? & ? & ? & ? & ? & ? & ?). rewrite (proj2 (Z.eqb_neq _ _)) by lia.
    assert (Z.of_nat (length bs) <= 16 * (nunits (Z.of_nat (length bs)) - 1)) as Hfit.
    { unfold nunits. pose proof (Z.div_mod (Z.of_nat (length bs) + 15) 16 ltac:(lia)).
      pose proof (Z.mod_pos_bound (Z.of_nat (length bs) + 15) 16 ltac:(lia)). lia. }
    destruct (put_run m' fl' _ x _ 0 bs o' I' (lookup_insert_eq _ _ _) ltac:(lia)) as [Ep So].
    rewrite Z.add_0_r in Ep, So. rewrite (bind_ok _ _ _ _ _ Ep).
    assert (forall b l, buf_ok m live b l -> forall p n, b = Some (p, n) -> p <> x + 16) as Hne.
    { intros b [l|] Hok p n -> ->; [|done]. destruct Hok as [_ (u & Hu & _)]. replace (x + 16 - 16) with x in Hu by lia. congruence. }
    eexists _, o', _, _, (st ++ [Some bs]). split_and!; [done|constructor|].
    split; cbn [u_mem u_os]; [exists fl'; left; by eapply uinv_payload; [|apply lookup_insert_eq|]|rewrite Hb'; symmetry; apply So|..].
    + apply Forall2_app.
      * eapply Forall2_impl; [exact HF|]. intros b l Hok. eapply buf_ok_put; [exact I'|apply lookup_insert_eq|done|by eapply Hne|].
        eapply buf_ok_same; [done..|]. intros p n u -> Hu. rewrite lookup_insert_ne; [done|]. specialize (Hne _ _ Hok p n eq_refl). lia.
      * constructor; [|constructor]. split; [apply rdbytes_wrbytes; by rewrite Forall_forall in Hbs|].
        replace (x + 16 - 16) with x by lia. rewrite lookup_insert_eq. eauto.
    + assert (forall i p n, bufs !! i = Some (Some (p, n)) -> p <> x + 16) as Hne'.
      { intros i p n Hi. destruct (Forall2_lookup_l _ _ _ _ _ HF Hi) as (l & _ & Hok). by eapply Hne. }
      intros i j p n q k Hi Hj Hij. apply lookup_app_Some in Hi as [Hi|[Hil Hi]]; apply lookup_app_Some in Hj as [Hj|[Hjl Hj]].
      * by eapply Ha.
      * apply list_lookup_singleton_Some in Hj as [_ [= <- <-]]. by eapply Hne'.
      * apply list_lookup_singleton_Some in Hi as [_ [= <- <-]]. intros <-. by eapply Hne'.
      * apply list_lookup_singleton_Some in Hi as [? _]. apply list_lookup_singleton_Some in Hj as [? _]. lia.
Qed.

Lemma insert_none_id {A} (l : list (option A)) i : (forall x, l !! i <> Some (Some x)) -> <[i := None]> l = l.
Proof.
  intros H. destruct (l !! i) as [[x|]|] eqn:E; [by destruct (H x)|by apply list_insert_id|].
  apply list_insert_ge. by apply lookup_ge_None.
Qed.

Lemma abs_free_id st i : (forall l, st !! i <> Some (Some l)) -> abs_step (UFree i) st st.
Proof. intros H. pose proof (abs_free i st) as A. by rewrite insert_none_id in A. Qed.

(** There is no buffer [i] on either side. *)
Lemma sim_none s bufs st live i :
  sim s bufs st live -> (forall b, bufs !! i <> Some (Some b)) -> forall l, st !! i <> Some (Some l).
Proof.
  intros S Hb l Hl. destruct (Forall2_lookup_r _ _ _ _ _ (sm_bufs _ _ _ _ S) Hl) as ([b|] & Hi & Hok); [by destruct (Hb b)|done].
Qed.

Lemma sim_step_free s bufs st live i :
  sim s bufs st live ->
  exists s' live' bufs' st', uexec base freep (UFree i) bufs s = Ok (bufs', s') /\ abs_step (UFree i) st st' /\ sim s' bufs' st' live'.
Proof.
  destruct s as [m o]. intros S. cbn [uexec]. destruct (bufs !! i) as [[[p n]|]|] eqn:Hi.
  - destruct (sim_free _ _ _ _ _ _ _ _ S Hi) as (m' & live' & Er & S'). rewrite (bind_ok _ _ _ _ _ Er).
    exists (Ust _ m' o), live', (<[i := None]> bufs), (<[i := None]> st). split_and!; [done|constructor|done].
  - exists (Ust _ m o), live, bufs, st. split_and!; [done| |done]. eapply abs_free_id, sim_none; [done|]. congruence.
  - exists (Ust _ m o), live, bufs, st. split_and!; [done| |done]. eapply abs_free_id, sim_none; [done|]. congruence.
Qed.

Lemma sim_step_put s bufs st live i off bs :
  sim s bufs st live -> act_ok (UPut i off bs) ->
  exists s' live' bufs' st', uexec base freep (UPut i off bs) bufs s = Ok (bufs', s') /\ abs_step (UPut i off bs) st st' /\
    sim s' bufs' st' live'.
Proof.
  destruct s as [m o]. intros S Ha. cbn [uexec].
  assert ((forall b, bufs !! i <> Some (Some b)) -> abs_step (UPut i off bs) st st) as Hno.
  { intros Hb. constructor. intros l Hl. by destruct (sim_none _ _ _ _ i S Hb l). }
  destruct (bufs !! i) as [[[p n]|]|] eqn:Hi; [|exists (Ust _ m o), live, bufs, st; split_and!; [done|apply Hno; congruence|done]..].
  destruct (Nat.leb_spec (off + length bs) n) as [Hle|Hlt].
  - destruct (sim_put _ _ _ _ _ _ _ _ _ _ S Hi Hle Ha) as (m' & l & Er & Hl & Hn & S'). rewrite (bind_ok _ _ _ _ _ Er).
    exists (Ust _ m' o), live, bufs, (<[i := Some (overwrite off bs l)]> st). split_and!; [done| |done]. constructor; [done|lia].
  - exists (Ust _ m o), live, bufs, st. split_and!; [done| |done]. constructor. intros l Hl.
    pose proof (Forall2_lookup_lr _ _ _ _ _ _ (sm_bufs _ _ _ _ S) Hi Hl) as [<- _]. by rewrite length_rdbytes.
Qed.

Lemma sim_step s bufs st live a :
  sim s bufs st live -> act_ok a ->
  exists s' live' bufs' st', uexec base freep a bufs s = Ok (bufs', s') /\ abs_step a st st' /\ sim s' bufs' st' live'.
Proof.
  intros S Ha. destruct a as [bs|i|i off bs]; [|by eapply sim_step_free|by eapply sim_step_put].
  destruct s as [m o]. destruct (sim_malloc _ _ _ _ _ _ S Ha) as (m' & o' & live' & bufs' & st' & ? & ? & ?).
  by exists (Ust _ m' o'), live', bufs', st'.
Qed.

Lemma sim_run acts s bufs st live :
  sim s bufs st live -> Forall act_ok acts ->
  exists s' live' bufs' st', urun base freep acts bufs s = Ok (bufs', s') /\ abs_run acts st st' /\ sim s' bufs' st' live'.
Proof.
  intros S Hok. revert s bufs st live S. induction Hok as [|a acts Ha _ IH]; intros s bufs st live S; cbn [urun].
  - exists s, live, bufs, st. by split_and!; [|constructor|].
  - destruct (sim_step _ _ _ _ _ S Ha) as (s1 & live1 & bufs1 & st1 & E1 & A1 & S1).
    destruct (IH _ _ _ _ S1) as (s' & live' & bufs' & st' & E' & A' & S'). rewrite (bind_ok _ _ _ _ _ E1).
    exists s', live', bufs', st'. split_and!; [done|by econstructor|done].
Qed.

(** What the program sees of its buffers. *)
Definition buf_holds (m : ram) (b : option (Z * nat)) (l : option (list Z)) : Prop :=
  match b, l with
  | Some (p, n), Some l => hlo <= p /\ p + Z.of_nat n <= ram_hi m /\ rdbytes m p n = l
  | None, None => True
  | _, _ => False
  end.
Definition bufs_disjoint (bufs : list (option (Z * nat))) : Prop :=
  forall i j p n q k, bufs !! i = Some (Some (p, n)) -> bufs !! j = Some (Some (q, k)) -> i <> j ->
    p + Z.of_nat n <= q \/ q + Z.of_nat k <= p.

Lemma sim_holds s bufs st live : sim s bufs st live -> Forall2 (buf_holds (u_mem s)) bufs st /\ bufs_disjoint bufs.
Proof.
  intros [[fl R] _ HF Ha]. split.
  - eapply Forall2_impl; [exact HF|]. intros [[p n]|] [l|]; try done. intros [<- (u & Hu & Hn)].
    pose proof (uready_live _ _ _ _ _ R Hu) as I. destruct (ui_live _ _ _ _ _ _ I _ _ Hu) as (? & ? & ? & _).
    unfold hplus, sizeof_Header in *. split_and!; [lia..|done].
  - intros i j p n q k Hi Hj Hij. pose proof (Ha _ _ _ _ _ _ Hi Hj Hij) as Hne.
    destruct (Forall2_lookup_l _ _ _ _ _ HF Hi) as ([?|] & _ & Hok); [|done]. destruct Hok as [_ (u & Hu & Hn)].
    destruct (Forall2_lookup_l _ _ _ _ _ HF Hj) as ([?|] & _ & Hok); [|done]. destruct Hok as [_ (v & Hv & Hk)].
    pose proof (uready_live _ _ _ _ _ R Hu) as I. pose proof (ui_disj' _ _ _ _ _ _ I _ _ _ _ Hu Hv ltac:(lia)).
    unfold hplus, sizeof_Header in *. lia.
Qed.

(** The static data before the first call: [freep] is 0. *)
Definition fresh_data (m : ram) : Prop :=
  peek 8 m freep = 0 /\ 0 < base /\ ram_lo m <= base /\ ram_lo m <= freep /\ base + 16 <= hlo /\ freep + 8 <= hlo /\
  (base + 16 <= freep \/ freep + 8 <= base) /\ hlo <= ram_hi m <= 2 ^ 35.


End Sim.

(** ** Examples *)

(** A system whose [sbrk] grows the process up to 128 KB. *)
#[local] Instance grow_os : Os := {
  os_t := Z;
  os_read _ _ o := (-1, [], o); os_write _ _ o := (-1, o); os_open _ _ o := (-1, o); os_close _ o := (-1, o);
  os_fstat _ o := (-1, [], o); os_sbrk n o := if o + n <=? 131072 then (true, o + n) else (false, o)
}.
#[local, refine] Instance grow_brk : Brk (OS := grow_os) := { brk o := o }.
Proof.
  - intros k o o'. cbn. case_cmp; intros [= <-]. split; [done|lia].
  - intros k o o'. cbn. case_cmp; intros [= <-]. done.
Defined.

Definition ex_acts : list uact := [UMalloc [1; 2; 3]; UMalloc (replicate 20 9); UPut 0 1 [7]; UFree 1; UMalloc [5]; UFree 0].



(** The size of the request in bytes is passed to [sbrk] as an [int]: for
    2^32 - 1 bytes the process grows by 16 bytes only, and the block that
    [malloc] returns starts at the end of the memory of the process. *)
Lemma malloc_huge_request :
  (fun r => match r with Ok (p, s) => Some (p, ram_hi (u_mem s), peek 4 (u_mem s) (p - 8)) | _ => None end)
    (malloc 64 80 (2 ^ 32 - 1) (Ust grow_os (Ram 0 4096 ∅) 4096)) = Some (4112, 4112, 2 ^ 28 + 1).
Proof. vm_compute. reflexivity. Qed.
