(* ===== verification/Shell.v ===== *)
(** * The shell (user/sh.c)

    The parser works on the line in RAM and builds the tree of commands with
    the [malloc] of [Umalloc]; strings of the tree are pointers into the line,
    which [nulterminate] ends with zeroes afterwards.  [runcmd] reads the tree
    and becomes a program of system calls ([prog]): after a fork the tree says
    what the child does and what the parent does.  The constant strings that
    are searched with [strchr] are lists; recursion over the line and over the
    tree takes fuel. *)

From S2P Require Import Prelude CInt Memory KMonad Blocks User Ulib Umalloc.

(** ** The structs *)

Definition EXEC : Z := 1.
Definition REDIR : Z := 2.
Definition PIPE : Z := 3.
Definition LIST : Z := 4.
Definition BACK : Z := 5.
Definition MAXARGS : Z := 10.

Definition c_type (x : Z) : Z := x.
Definition sizeof_execcmd : Z := 168.
Definition e_argv (x i : Z) : Z := x + 8 + 8 * i.
Definition e_eargv (x i : Z) : Z := x + 88 + 8 * i.
Definition sizeof_redircmd : Z := 40.
Definition r_cmd (x : Z) : Z := x + 8.
Definition r_file (x : Z) : Z := x + 16.
Definition r_efile (x : Z) : Z := x + 24.
Definition r_mode (x : Z) : Z := x + 32.
Definition r_fd (x : Z) : Z := x + 36.
(** [struct pipecmd] and [struct listcmd] have the same layout. *)
Definition sizeof_pipecmd : Z := 24.
Definition p_left (x : Z) : Z := x + 8.
Definition p_right (x : Z) : Z := x + 16.
Definition sizeof_backcmd : Z := 16.
Definition b_cmd (x : Z) : Z := x + 8.

Definition O_WRONLY : Z := 1.
Definition O_RDWR : Z := 2.
Definition O_CREATE : Z := 512.
Definition O_TRUNC : Z := 1024.

Definition whitespace : list Z := [ch " "; 9; 13; 10; 11].
Definition symbols : list Z := [ch "<"; ch "|"; ch ">"; ch "&"; ch ";"; ch "("; ch ")"].
(** [strchr(l, c) != 0] for a constant string. *)
Definition in_str (l : list Z) (c : Z) : bool := existsb (Z.eqb c) l.

(** ** System calls of a process

    [Exit] ends the process, [Exec] comes back only when it fails, [Crash] is a
    fault or the end of the fuel. *)
Inductive prog :=
| Exit (status : Z)
| Crash
| Fork (k : Z -> prog)
| Wait (k : Z -> prog)
| Exec (path : list Z) (argv : list (list Z)) (k : Z -> prog)
| Open (path : list Z) (mode : Z) (k : Z -> prog)
| Close (fd : Z) (k : Z -> prog)
| Dup (fd : Z) (k : Z -> prog)
| Pipe (k : Z -> Z -> Z -> prog)
| Write (fd : Z) (bs : list Z) (k : Z -> prog)
| Mknod (path : list Z) (major minor : Z) (k : Z -> prog)
| Sleep (n : Z) (k : Z -> prog).

(** [fprintf]: a [write] of each character. *)
Fixpoint prints (fd : Z) (l : list Z) (k : prog) : prog :=
  match l with
  | [] => k
  | c :: l => Write fd [c] (fun _ => prints fd l k)
  end.
Definition print2 : list Z -> prog -> prog := prints 2.
Definition chars (s : string) : list Z := ch <$> String.list_ascii_of_string s.

Definition nl : string := String (Ascii.ascii_of_nat 10) "".

(** [panic] in a child. *)
Definition panic (msg : string) : prog := print2 (chars (msg ++ nl)) (Exit 1).

(** [fork1] *)
Definition fork1 (k : Z -> prog) : prog := Fork (fun pid => if pid =? -1 then panic "fork" else k pid).

(** ** Running a command *)

(** A step that reads the memory of the process. *)
Definition with_mem {A} (m : ram) (c : M ram A) (k : A -> prog) : prog :=
  match c m with
  | Ok (a, _) => k a
  | _ => Crash
  end.

(** The string at [p]; the strings of an argument vector, of which the kernel
    takes at most 32. *)
Definition str_at (p : Z) : M ram (list Z) := scan p (fun k => string_at k p).
Fixpoint argv_at (n : nat) (a : Z) : M ram (list (list Z)) :=
  match n with
  | O => fault a
  | S n =>
      p <- ld64 a ;;
      if p =? 0 then ret []
      else s <- str_at p ;; l <- argv_at n (a + 8) ;; ret (s :: l)
  end.

Section Runcmd.
Context (m : ram).

Fixpoint runcmd (k : nat) (cmd : Z) : prog :=
  match k with
  | O => Crash
  | S k =>
      if cmd =? 0 then Exit 1
      else with_mem m (ld32 (c_type cmd)) (fun type =>
      if type =? EXEC then
        with_mem m (ld64 (e_argv cmd 0)) (fun a0 =>
        if a0 =? 0 then Exit 1
        else
          with_mem m (str_at a0) (fun path =>
          with_mem m (argv_at 32 (e_argv cmd 0)) (fun argv =>
          Exec path argv (fun _ => print2 (chars "exec " ++ path ++ chars (" failed" ++ nl)) (Exit 0)))))
      else if type =? REDIR then
        with_mem m (ldint (r_fd cmd)) (fun fd =>
        Close fd (fun _ =>
        with_mem m (ld64 (r_file cmd)) (fun f =>
        with_mem m (str_at f) (fun file =>
        with_mem m (ldint (r_mode cmd)) (fun mode =>
        Open file mode (fun r =>
        if r <? 0 then print2 (chars "open " ++ file ++ chars (" failed" ++ nl)) (Exit 1)
        else with_mem m (ld64 (r_cmd cmd)) (fun sub => runcmd k sub)))))))
      else if type =? LIST then
        fork1 (fun pid =>
        if pid =? 0 then with_mem m (ld64 (p_left cmd)) (runcmd k)
        else Wait (fun _ => with_mem m (ld64 (p_right cmd)) (runcmd k)))
      else if type =? PIPE then
        Pipe (fun r p0 p1 =>
        if r <? 0 then panic "pipe"
        else fork1 (fun pid =>
          if pid =? 0 then
            Close 1 (fun _ => Dup p1 (fun _ => Close p0 (fun _ => Close p1 (fun _ =>
            with_mem m (ld64 (p_left cmd)) (runcmd k)))))
          else fork1 (fun pid =>
            if pid =? 0 then
              Close 0 (fun _ => Dup p0 (fun _ => Close p0 (fun _ => Close p1 (fun _ =>
              with_mem m (ld64 (p_right cmd)) (runcmd k)))))
            else Close p0 (fun _ => Close p1 (fun _ => Wait (fun _ => Wait (fun _ => Exit 0)))))))
      else if type =? BACK then
        fork1 (fun pid => if pid =? 0 then with_mem m (ld64 (b_cmd cmd)) (runcmd k) else Exit 0)
      else panic "runcmd")
  end.
End Runcmd.

(** ** Constructors *)

Section Parser.
Context `{Os}.
(** The addresses of the allocator's variables. *)
Context (base freep : Z).

Definition execcmd : U Z :=
  cmd <- malloc base freep sizeof_execcmd ;;
  onmem (memset cmd 0 sizeof_execcmd) ;;;
  onmem (st32 (c_type cmd) EXEC) ;;;
  ret cmd.

Definition redircmd (subcmd file efile mode fd : Z) : U Z :=
  cmd <- malloc base freep sizeof_redircmd ;;
  onmem (memset cmd 0 sizeof_redircmd) ;;;
  onmem (st32 (c_type cmd) REDIR) ;;;
  onmem (st64 (r_cmd cmd) subcmd) ;;;
  onmem (st64 (r_file cmd) file) ;;;
  onmem (st64 (r_efile cmd) efile) ;;;
  onmem (st32 (r_mode cmd) mode) ;;;
  onmem (st32 (r_fd cmd) fd) ;;;
  ret cmd.

Definition pipecmd (left right : Z) : U Z :=
  cmd <- malloc base freep sizeof_pipecmd ;;
  onmem (memset cmd 0 sizeof_pipecmd) ;;;
  onmem (st32 (c_type cmd) PIPE) ;;;
  onmem (st64 (p_left cmd) left) ;;;
  onmem (st64 (p_right cmd) right) ;;;
  ret cmd.

Definition listcmd (left right : Z) : U Z :=
  cmd <- malloc base freep sizeof_pipecmd ;;
  onmem (memset cmd 0 sizeof_pipecmd) ;;;
  onmem (st32 (c_type cmd) LIST) ;;;
  onmem (st64 (p_left cmd) left) ;;;
  onmem (st64 (p_right cmd) right) ;;;
  ret cmd.

Definition backcmd (subcmd : Z) : U Z :=
  cmd <- malloc base freep sizeof_backcmd ;;
  onmem (memset cmd 0 sizeof_backcmd) ;;;
  onmem (st32 (c_type cmd) BACK) ;;;
  onmem (st64 (b_cmd cmd) subcmd) ;;;
  ret cmd.

(** ** Tokens

    [ps] is passed by value and returned. *)

(** [while(s < es && p( *s)) s++] *)
Fixpoint skip_while (p : Z -> bool) (k : nat) (s es : Z) : M ram Z :=
  match k with
  | O => diverge
  | S k => if s <? es then c <- ld8 s ;; if p c then skip_while p k (s + 1) es else ret s else ret s
  end.
Definition skip (p : Z -> bool) (s es : Z) : M ram Z := skip_while p (S (Z.to_nat (es - s))) s es.
Definition skip_space : Z -> Z -> M ram Z := skip (in_str whitespace).
Definition word_char (c : Z) : bool := negb (in_str whitespace c) && negb (in_str symbols c).

(** The token, its start and end, and what follows. *)
Definition gettoken (s es : Z) : M ram (Z * Z * Z * Z) :=
  s <- skip_space s es ;;
  let q := s in
  c <- ld8 s ;;
  let* (tok, s) :=
    if c =? 0 then ret (c, s)
    else if in_str [ch "|"; ch "("; ch ")"; ch ";"; ch "&"; ch "<"] c then ret (c, s + 1)
    else if c =? ch ">" then
      let s := s + 1 in
      d <- ld8 s ;;
      if d =? ch ">" then ret (ch "+", s + 1) else ret (c, s)
    else s <- skip word_char s es ;; ret (ch "a", s) in
  let eq := s in
  s <- skip_space s es ;;
  ret (tok, q, eq, s).

(** Whether the next character is one of [toks], and where it is. *)
Definition peek_tok (s es : Z) (toks : list Z) : M ram (bool * Z) :=
  s <- skip_space s es ;;
  c <- ld8 s ;;
  ret (negb (c =? 0) && in_str toks c, s).

(** ** The parser *)

Definition syntax {A} (msg : string) : U A := fun _ => Panic msg.

Fixpoint parseredirs (k : nat) (cmd s es : Z) : U (Z * Z) :=
  match k with
  | O => diverge
  | S k =>
      let* (b, s) := onmem (peek_tok s es [ch "<"; ch ">"]) in
      if (b : bool) then
        let* (tok, _, _, s) := onmem (gettoken s es) in
        let* (t, q, eq, s) := onmem (gettoken s es) in
        if negb (t =? ch "a") then syntax "missing file for redirection"
        else
          cmd <- (if tok =? ch "<" then redircmd cmd q eq O_RDONLY 0
                  else if tok =? ch ">" then redircmd cmd q eq (Z.lor O_WRONLY (Z.lor O_CREATE O_TRUNC)) 1
                  else if tok =? ch "+" then redircmd cmd q eq (Z.lor O_WRONLY O_CREATE) 1
                  else ret cmd) ;;
          parseredirs k cmd s es
      else ret (cmd, s)
  end.
(** More iterations than characters. *)
Definition redirs (cmd s es : Z) : U (Z * Z) := parseredirs (S (Z.to_nat (es - s))) cmd s es.

(** The loop of [parseexec] over the words. *)
Fixpoint parseexec_loop (k : nat) (cmd rt argc s es : Z) : U (Z * Z * Z) :=
  match k with
  | O => diverge
  | S k =>
      let* (b, s) := onmem (peek_tok s es [ch "|"; ch ")"; ch "&"; ch ";"]) in
      if (b : bool) then ret (rt, argc, s)
      else
        let* (tok, q, eq, s) := onmem (gettoken s es) in
        if tok =? 0 then ret (rt, argc, s)
        else if negb (tok =? ch "a") then syntax "syntax"
        else
          onmem (st64 (e_argv cmd argc) q) ;;;
          onmem (st64 (e_eargv cmd argc) eq) ;;;
          let argc := argc + 1 in
          if MAXARGS <=? argc then syntax "too many args"
          else
            let* (rt, s) := redirs rt s es in
            parseexec_loop k cmd rt argc s es
  end.
Definition parseexec_words (s es : Z) : U (Z * Z) :=
  cmd <- execcmd ;;
  let* (rt, s) := redirs cmd s es in
  let* (rt, argc, s) := parseexec_loop (S (Z.to_nat (es - s))) cmd rt 0 s es in
  onmem (st64 (e_argv cmd argc) 0) ;;;
  onmem (st64 (e_eargv cmd argc) 0) ;;;
  ret (rt, s).

(** The loop of [parseline] over ampersands. *)
Fixpoint parseback (k : nat) (cmd s es : Z) : U (Z * Z) :=
  match k with
  | O => diverge
  | S k =>
      let* (b, s) := onmem (peek_tok s es [ch "&"]) in
      if (b : bool) then
        let* (_, _, _, s) := onmem (gettoken s es) in
        cmd <- backcmd cmd ;;
        parseback k cmd s es
      else ret (cmd, s)
  end.

Fixpoint parseline (k : nat) (s es : Z) : U (Z * Z) :=
  match k with
  | O => diverge
  | S k =>
      let* (cmd, s) := parsepipe k s es in
      let* (cmd, s) := parseback (S (Z.to_nat (es - s))) cmd s es in
      let* (b, s) := onmem (peek_tok s es [ch ";"]) in
      if (b : bool) then
        let* (_, _, _, s) := onmem (gettoken s es) in
        let* (rcmd, s) := parseline k s es in
        cmd <- listcmd cmd rcmd ;;
        ret (cmd, s)
      else ret (cmd, s)
  end
with parsepipe (k : nat) (s es : Z) : U (Z * Z) :=
  match k with
  | O => diverge
  | S k =>
      let* (cmd, s) := parseexec k s es in
      let* (b, s) := onmem (peek_tok s es [ch "|"]) in
      if (b : bool) then
        let* (_, _, _, s) := onmem (gettoken s es) in
        let* (rcmd, s) := parsepipe k s es in
        cmd <- pipecmd cmd rcmd ;;
        ret (cmd, s)
      else ret (cmd, s)
  end
with parseexec (k : nat) (s es : Z) : U (Z * Z) :=
  match k with
  | O => diverge
  | S k =>
      let* (b, s) := onmem (peek_tok s es [ch "("]) in
      if (b : bool) then parseblock k s es else parseexec_words s es
  end
with parseblock (k : nat) (s es : Z) : U (Z * Z) :=
  match k with
  | O => diverge
  | S k =>
      let* (b, s) := onmem (peek_tok s es [ch "("]) in
      if negb b then syntax "parseblock"
      else
        let* (_, _, _, s) := onmem (gettoken s es) in
        let* (cmd, s) := parseline k s es in
        let* (b, s) := onmem (peek_tok s es [ch ")"]) in
        if negb b then syntax "syntax - missing )"
        else
          let* (_, _, _, s) := onmem (gettoken s es) in
          redirs cmd s es
  end.

Fixpoint nulterminate_args (n : nat) (cmd i : Z) : M ram unit :=
  match n with
  | O => diverge
  | S n =>
      a <- ld64 (e_argv cmd i) ;;
      if a =? 0 then ret tt
      else e <- ld64 (e_eargv cmd i) ;; st8 e 0 ;;; nulterminate_args n cmd (i + 1)
  end.

Fixpoint nulterminate (k : nat) (cmd : Z) : M ram unit :=
  match k with
  | O => diverge
  | S k =>
      if cmd =? 0 then ret tt
      else
        type <- ld32 (c_type cmd) ;;
        if type =? EXEC then nulterminate_args (S (Z.to_nat MAXARGS)) cmd 0
        else if type =? REDIR then
          sub <- ld64 (r_cmd cmd) ;;
          nulterminate k sub ;;;
          e <- ld64 (r_efile cmd) ;;
          st8 e 0
        else if (type =? PIPE) || (type =? LIST) then
          l <- ld64 (p_left cmd) ;;
          nulterminate k l ;;;
          r <- ld64 (p_right cmd) ;;
          nulterminate k r
        else if type =? BACK then
          sub <- ld64 (b_cmd cmd) ;;
          nulterminate k sub
        else ret tt
  end.

(** Four calls of the parser for each character; the tree is not deeper. *)
Definition parse_fuel (s es : Z) : nat := (8 + 4 * Z.to_nat (es - s))%nat.

(** [parsecmd] up to its messages: the command and where the leftovers are. *)
Definition parsecmd_left (s : Z) : U (Z * option Z) :=
  n <- onmem (strlen s) ;;
  let es := s + n in
  let k := parse_fuel s es in
  let* (cmd, s) := parseline k s es in
  let* (_, s) := onmem (peek_tok s es []) in
  if negb (s =? es) then ret (cmd, Some s)
  else onmem (nulterminate k cmd) ;;; ret (cmd, None).

Definition parsecmd (s : Z) : U Z :=
  let* (cmd, more) := parsecmd_left s in
  match more with
  | Some s => fprintf 2 ("leftovers: %s" ++ nl) [s] ;;; syntax "syntax"
  | None => ret cmd
  end.

(** ** The command loop *)

Definition getcmd (buf nbuf : Z) : U Z :=
  (fun s => let '(r, o) := os_write 2 [ch "$"; ch " "] (u_os s) in Ok (r, s <| u_os := o |>)) ;;;
  onmem (memset buf 0 nbuf) ;;;
  gets buf nbuf ;;;
  c <- onmem (ld8 buf) ;;
  ret (if c =? 0 then -1 else 0).
End Parser.

(** [chdir] and the processes of the shell: [os_spawn p] forks a child that
    runs [p] and waits for it; it is -1 if the fork fails. *)
Class ShOs `{Os} := {
  os_chdir : list Z -> os_t -> Z * os_t;
  os_spawn : prog -> os_t -> Z * os_t
}.

Section Main.
Context `{ShOs} (base freep : Z).

Definition chdir (path : Z) : U Z := fun s =>
  match str_at path (u_mem s) with
  | Ok (l, _) => let '(r, o) := os_chdir l (u_os s) in Ok (r, s <| u_os := o |>)
  | _ => Ok (-1, s)
  end.

(** What the child of [main] does with the line at [buf]: parse and run.  The
    parser ends the process with [panic], for leftovers after a message, or runs
    into a fault. *)
Definition child_prog (buf : Z) (s : ust) : prog :=
  match parsecmd_left base freep buf s with
  | Ok ((cmd, None), s') => runcmd (u_mem s') (parse_fuel buf (buf + 100)) cmd
  | Ok ((_, Some p), s') =>
      with_mem (u_mem s') (str_at p) (fun l => print2 (chars "leftovers: " ++ l ++ chars nl) (panic "syntax"))
  | Panic msg => panic msg
  | _ => Crash
  end.

(** [while((fd = open("console", O_RDWR)) >= 0)] *)
Fixpoint open_console (k : nat) (console : list Z) : U unit :=
  match k with
  | O => diverge
  | S k => fun s =>
      let '(fd, o) := os_open console O_RDWR (u_os s) in
      let s := s <| u_os := o |> in
      if fd <? 0 then Ok (tt, s)
      else if 3 <=? fd then (close fd ;;; ret tt) s
      else open_console k console s
  end.

(** One iteration of the loop of [main] and the loop, for [k] lines. *)
Definition sh_line (buf : Z) : U bool :=
  r <- getcmd buf 100 ;;
  if r <? 0 then ret false
  else
    c0 <- onmem (ld8 buf) ;;
    c1 <- onmem (ld8 (buf + 1)) ;;
    c2 <- onmem (ld8 (buf + 2)) ;;
    if (c0 =? ch "c") && (c1 =? ch "d") && (c2 =? ch " ") then
      n <- onmem (strlen buf) ;;
      onmem (st8 (buf + n - 1) 0) ;;;
      r <- chdir (buf + 3) ;;
      (if r <? 0 then fprintf 2 ("cannot cd %s" ++ nl) [buf + 3] else ret tt) ;;;
      ret true
    else
      r <- (fun s => let '(r, o) := os_spawn (child_prog buf s) (u_os s) in Ok (r, s <| u_os := o |>)) ;;
      if r =? -1 then syntax "fork" else ret true.
Fixpoint sh_main_loop (k : nat) (buf : Z) : U unit :=
  match k with
  | O => ret tt
  | S k => b <- sh_line buf ;; if (b : bool) then sh_main_loop k buf else ret tt
  end.
Definition sh_main (k : nat) (buf : Z) : U unit :=
  open_console 16 (chars "console") ;;;
  sh_main_loop k buf.
End Main.
