(* ===== verification/ShellSpec.v ===== *)
(** * What the shell should do

    The language of command lines as a grammar over tokens, the tree of a
    command, and the programs that a tree starts with their open files. *)

From S2P Require Import Prelude CInt Memory User Ulib Shell KMonad KString Blocks UlibProof.

(** ** Commands *)

Inductive command :=
| CExec (argv : list (list Z))
| CRedir (c : command) (file : list Z) (mode fd : Z)
| CPipe (l r : command)
| CList (l r : command)
| CBack (c : command).

(** The nodes of a tree, and its depth. *)
Fixpoint nodes (c : command) : Z :=
  match c with
  | CExec _ => 1
  | CRedir c _ _ _ | CBack c => 1 + nodes c
  | CPipe l r | CList l r => 1 + nodes l + nodes r
  end.
Fixpoint depth (c : command) : nat :=
  match c with
  | CExec _ => 1
  | CRedir c _ _ _ | CBack c => S (depth c)
  | CPipe l r | CList l r => S (Nat.max (depth l) (depth r))
  end.

(** ** Tokens *)

(** [TSym '+'] is the token of two greater signs. *)
Inductive token := TWord (w : list Z) | TSym (c : Z).

Definition space (c : Z) : Prop := in_str whitespace c = true.
Definition is_word (c : Z) : Prop := word_char c = true.
Definition word_ends (l : list Z) : Prop := match l with [] => True | c :: _ => word_char c = false end.
Definition single : list Z := [ch "|"; ch "("; ch ")"; ch ";"; ch "&"; ch "<"].

(** The text [l] consists of the tokens [ts], with any white space between
    them and at its ends. *)
Inductive lexes : list Z -> list token -> Prop :=
| lex_end sp : Forall space sp -> lexes sp []
| lex_single sp c l ts : Forall space sp -> c ∈ single -> lexes l ts -> lexes (sp ++ c :: l) (TSym c :: ts)
| lex_gt sp l ts : Forall space sp -> hd_error l <> Some (ch ">") -> lexes l ts -> lexes (sp ++ ch ">" :: l) (TSym (ch ">") :: ts)
| lex_append sp l ts : Forall space sp -> lexes l ts -> lexes (sp ++ ch ">" :: ch ">" :: l) (TSym (ch "+") :: ts)
| lex_word sp w l ts : Forall space sp -> w <> [] -> Forall is_word w -> word_ends l -> lexes l ts ->
    lexes (sp ++ w ++ l) (TWord w :: ts).

(** ** The grammar *)

Definition redir : Type := list Z * Z * Z.

(** The mode and the descriptor of a redirection symbol. *)
Definition redir_of (tok : Z) : option (Z * Z) :=
  if tok =? ch "<" then Some (O_RDONLY, 0)
  else if tok =? ch ">" then Some (O_WRONLY + O_CREATE + O_TRUNC, 1)
  else if tok =? ch "+" then Some (O_WRONLY + O_CREATE, 1)
  else None.

Inductive redirs_of : list token -> list redir -> Prop :=
| ro_nil : redirs_of [] []
| ro_cons tok mode fd f ts rs : redir_of tok = Some (mode, fd) -> redirs_of ts rs ->
    redirs_of (TSym tok :: TWord f :: ts) ((f, mode, fd) :: rs).

(** The last redirection is the outermost one. *)
Definition redirected (c : command) (rs : list redir) : command :=
  foldl (fun c '(f, mode, fd) => CRedir c f mode fd) c rs.

Inductive words_of : list token -> list (list Z) -> list redir -> Prop :=
| wo_nil : words_of [] [] []
| wo_cons w ts1 rs1 ts2 ws rs2 : redirs_of ts1 rs1 -> words_of ts2 ws rs2 ->
    words_of (TWord w :: ts1 ++ ts2) (w :: ws) (rs1 ++ rs2).

Definition backs (n : nat) (c : command) : command := Nat.iter n CBack c.
Definition amps (n : nat) : list token := replicate n (TSym (ch "&")).

Inductive nonterminal := NLine | NPipe | NExec.

(** line ::= pipe &... [; line];  pipe ::= exec [| pipe];
    exec ::= ( line ) redirs, or redirs and words, at most nine of them. *)
Inductive derives : nonterminal -> list token -> command -> Prop :=
| g_line n ts c : derives NPipe ts c -> derives NLine (ts ++ amps n) (backs n c)
| g_list n ts1 c1 ts2 c2 : derives NPipe ts1 c1 -> derives NLine ts2 c2 ->
    derives NLine (ts1 ++ amps n ++ TSym (ch ";") :: ts2) (CList (backs n c1) c2)
| g_pipe1 ts c : derives NExec ts c -> derives NPipe ts c
| g_pipe ts1 c1 ts2 c2 : derives NExec ts1 c1 -> derives NPipe ts2 c2 ->
    derives NPipe (ts1 ++ TSym (ch "|") :: ts2) (CPipe c1 c2)
| g_block ts0 c ts1 rs : derives NLine ts0 c -> redirs_of ts1 rs ->
    derives NExec (TSym (ch "(") :: ts0 ++ TSym (ch ")") :: ts1) (redirected c rs)
| g_exec ts0 rs0 ts1 ws rs1 : redirs_of ts0 rs0 -> words_of ts1 ws rs1 -> (length ws < 10)%nat ->
    derives NExec (ts0 ++ ts1) (redirected (CExec ws) (rs0 ++ rs1)).

(** ** Running

    The open files of a process are a table of [NOFILE] slots; [open], [dup]
    and [pipe] take the first free ones. *)

Inductive obj := OTerm (n : Z) | OFile (path : list Z) (mode : Z) | OPipeR (n : nat) | OPipeW (n : nat).
Definition fdt : Type := list (option obj).

Definition fd_free (t : fdt) : option nat := fst <$> list_find (fun o => o = None) t.
(** The first free slot is set. *)
Definition fd_alloc (t : fdt) (o : obj) : option (Z * fdt) :=
  i ← fd_free t; Some (Z.of_nat i, <[i := Some o]> t).
Definition fd_get (t : fdt) (fd : Z) : option obj := if fd <? 0 then None else mjoin (t !! Z.to_nat fd).
Definition fd_close (t : fdt) (fd : Z) : fdt := if fd <? 0 then t else <[Z.to_nat fd := None]> t.

(** A program started with its arguments and its open files. *)
Definition started : Type := list Z * list (list Z) * fdt.

(** The programs that the processes of [p] start, when every call for which
    there is room in the table succeeds: a forked child and its parent go
    their own ways; [n] pipes exist. *)
Fixpoint starts (p : prog) (n : nat) (t : fdt) : option (list started * nat) :=
  match p with
  | Exit _ => Some ([], n)
  | Crash => None
  | Fork k =>
      '(ev1, n) ← starts (k 0) n t;
      '(ev2, n) ← starts (k 1) n t;
      Some (ev1 ++ ev2, n)
  | Wait k => starts (k 1) n t
  | Exec path argv _ => Some ([(path, argv, t)], n)
  | Open path mode k =>
      match fd_alloc t (OFile path mode) with
      | Some (fd, t) => starts (k fd) n t
      | None => starts (k (-1)) n t
      end
  | Close fd k => starts (k 0) n (fd_close t fd)
  | Dup fd k =>
      match o ← fd_get t fd; fd_alloc t o with
      | Some (fd', t) => starts (k fd') n t
      | None => starts (k (-1)) n t
      end
  | Pipe k =>
      match '(fd0, t0) ← fd_alloc t (OPipeR n); '(fd1, t1) ← fd_alloc t0 (OPipeW n); Some (fd0, fd1, t1) with
      | Some (fd0, fd1, t1) => starts (k 0 fd0 fd1) (S n) t1
      | None => starts (k (-1) 0 0) n t
      end
  | Write _ bs k => starts (k (Z.of_nat (length bs))) n t
  | Mknod _ _ _ k | Sleep _ k => starts (k 0) n t
  end.

(** Standard input, output and error, and nothing else. *)
Definition stdio (i o e : obj) : fdt := [Some i; Some o; Some e] ++ replicate 13 None.

(** The programs of a command with standard input [i] and output [o]. *)
Fixpoint plumbed (c : command) (n : nat) (i o e : obj) : list started * nat :=
  match c with
  | CExec [] => ([], n)
  | CExec (w :: ws) => ([(w, w :: ws, stdio i o e)], n)
  | CRedir c f mode fd => if fd =? 0 then plumbed c n (OFile f mode) o e else plumbed c n i (OFile f mode) e
  | CPipe l r =>
      let '(ev1, n1) := plumbed l (S n) i (OPipeW n) e in
      let '(ev2, n2) := plumbed r n1 (OPipeR n) o e in
      (ev1 ++ ev2, n2)
  | CList l r =>
      let '(ev1, n1) := plumbed l n i o e in
      let '(ev2, n2) := plumbed r n1 i o e in
      (ev1 ++ ev2, n2)
  | CBack c => plumbed c n i o e
  end.

(** * Running a command tree in memory *)

(** ** A tree in memory *)

Definition node_in (m : ram) (x size type : Z) : Prop :=
  ram_lo m <= x /\ 0 < x /\ x + size <= ram_hi m /\ peek 4 m x = type.

(** The pointers of an argument vector and its end. *)
Definition argv_in (m : ram) (x : Z) (ps : list Z) : Prop :=
  (forall i p, ps !! i = Some p -> peek 8 m (e_argv x (Z.of_nat i)) = p) /\ peek 8 m (e_argv x (Z.of_nat (length ps))) = 0.

(** The tree [c] at [x], with terminated strings. *)
Fixpoint cmd_in (m : ram) (c : command) (x : Z) : Prop :=
  match c with
  | CExec ws => node_in m x 168 EXEC /\ (length ws < 10)%nat /\
      exists ps, argv_in m x ps /\ Forall2 (fun p w => 0 < p /\ str_in m p w) ps ws
  | CRedir c f mode fd => node_in m x 40 REDIR /\ (fd = 0 \/ fd = 1) /\ peek 4 m (r_fd x) = fd /\
      peek 4 m (r_mode x) = mode /\ 0 <= mode < 2 ^ 31 /\ str_in m (peek 8 m (r_file x)) f /\ cmd_in m c (peek 8 m (r_cmd x))
  | CPipe l r => node_in m x 24 PIPE /\ cmd_in m l (peek 8 m (p_left x)) /\ cmd_in m r (peek 8 m (p_right x))
  | CList l r => node_in m x 24 LIST /\ cmd_in m l (peek 8 m (p_left x)) /\ cmd_in m r (peek 8 m (p_right x))
  | CBack c => node_in m x 16 BACK /\ cmd_in m c (peek 8 m (b_cmd x))
  end.

(** ** Reading *)

Lemma string_at_ok m k a l : str_in m a l -> (length l < k)%nat -> string_at k a m = Ok (l, m).
Proof.
  revert a l. induction k as [|k IH]; intros a l Hl Hk; [lia|]. cbn [string_at]. destruct l as [|c l].
  - by rewrite (bind_ok _ _ _ _ _ (str_in_nil _ _ Hl)).
  - apply str_in_cons in Hl as (E & Hc & Hl). cbn [length] in Hk. rewrite (bind_ok _ _ _ _ _ E).
    rewrite (proj2 (Z.eqb_neq c 0)) by done. by rewrite (bind_ok _ _ _ _ _ (IH _ _ Hl ltac:(lia))).
Qed.
Lemma str_at_ok m a l : str_in m a l -> str_at a m = Ok (l, m).
Proof. intros Hl. apply scan_ok. apply string_at_ok; [done|]. destruct Hl as (_ & _ & ?). lia. Qed.

Lemma argv_at_ok m a ps ws k :
  (forall i p, ps !! i = Some p -> peek 8 m (a + 8 * Z.of_nat i) = p) -> peek 8 m (a + 8 * Z.of_nat (length ps)) = 0 ->
  Forall2 (fun p w => 0 < p /\ str_in m p w) ps ws -> (length ps < k)%nat ->
  ram_lo m <= a -> a + 8 * Z.of_nat (S (length ps)) <= ram_hi m -> argv_at k a m = Ok (ws, m).
Proof.
  intros Hp H0 HF. revert a k Hp H0. induction HF as [|p w ps ws [Hpos Hw] _ IH]; intros a k Hp H0 Hk Hlo Hhi;
    cbn [length] in *; destruct k as [|k]; [lia| |lia|]; cbn [argv_at].
  - erewrite bind_ok by (apply ld64_ok; bk). replace (a + 8 * Z.of_nat 0) with a in H0 by lia. by rewrite H0.
  - erewrite bind_ok by (apply ld64_ok; bk). pose proof (Hp 0%nat p eq_refl) as Hp0.
    replace (a + 8 * Z.of_nat 0) with a in Hp0 by lia. rewrite Hp0, (proj2 (Z.eqb_neq p 0)) by lia.
    rewrite (bind_ok _ _ _ _ _ (str_at_ok _ _ _ Hw)).
    erewrite bind_ok; [done|]. apply IH; [|rewrite <- H0; f_equal; lia|lia..].
    intros i q Hi. rewrite <- (Hp (S i) q Hi). f_equal. lia.
Qed.

Lemma with_mem_ok {A} m (c : M ram A) a (k : A -> prog) : c m = Ok (a, m) -> with_mem m c k = k a.
Proof. intros E. unfold with_mem. by rewrite E. Qed.

(** ** The table of open files *)

Lemma starts_stdin n i o e k f mode :
  starts (Close 0 (fun _ => Open f mode k)) n (stdio i o e) = starts (k 0) n (stdio (OFile f mode) o e).
Proof. done. Qed.
Lemma starts_stdout n i o e k f mode :
  starts (Close 1 (fun _ => Open f mode k)) n (stdio i o e) = starts (k 1) n (stdio i (OFile f mode) e).
Proof. done. Qed.

(** ** Running *)

Lemma starts_fork1 k n t : starts (fork1 k) n t =
  ('(ev1, n) ← starts (k 0) n t; '(ev2, n) ← starts (k 1) n t; Some (ev1 ++ ev2, n)).
Proof. done. Qed.

Lemma starts_pipe n i o e (L R : prog) (P : prog) :
  starts (Pipe (fun r p0 p1 =>
    if r <? 0 then P
    else fork1 (fun pid =>
      if pid =? 0 then Close 1 (fun _ => Dup p1 (fun _ => Close p0 (fun _ => Close p1 (fun _ => L))))
      else fork1 (fun pid =>
        if pid =? 0 then Close 0 (fun _ => Dup p0 (fun _ => Close p0 (fun _ => Close p1 (fun _ => R))))
        else Close p0 (fun _ => Close p1 (fun _ => Wait (fun _ => Wait (fun _ => Exit 0)))))))) n (stdio i o e) =
  ('(ev1, n1) ← starts L (S n) (stdio i (OPipeW n) e); '(ev2, n2) ← starts R n1 (stdio (OPipeR n) o e); Some (ev1 ++ ev2, n2)).
Proof.
  change (('(ev1, n1) ← starts L (S n) (stdio i (OPipeW n) e);
    '(ev2, n2) ← ('(ev1, n1) ← starts R n1 (stdio (OPipeR n) o e); '(ev2, n2) ← Some ([], n1); Some (ev1 ++ ev2, n2));
    Some (ev1 ++ ev2, n2)) = ('(ev1, n1) ← starts L (S n) (stdio i (OPipeW n) e);
    '(ev2, n2) ← starts R n1 (stdio (OPipeR n) o e); Some (ev1 ++ ev2, n2))).
  destruct (starts L _ _) as [[ev1 n1]|]; [|done]. cbn. destruct (starts R _ _) as [[ev2 n2]|]; [|done]. cbn. by rewrite app_nil_r.
Qed.

(** One read of [runcmd]. *)
Ltac rdstep := erewrite with_mem_ok by first [apply ld64_ok; bk | apply ld32_ok; bk | apply ldint_ok; bk].

Ltac rd64 m a := rewrite (with_mem_ok m (ld64 a) (peek 8 m a)) by (apply ld64_ok; bk).

Lemma runcmd_ok m c : forall k x n i o e, cmd_in m c x -> (depth c <= k)%nat ->
  starts (runcmd m k x) n (stdio i o e) = Some (plumbed c n i o e).
Proof.
  induction c as [ws|c IH f mode fd|l IHl r IHr|l IHl r IHr|c IH]; intros k x n i o e Hc Hk; cbn [depth] in Hk;
    (destruct k as [|k]; [lia|]); cbn [cmd_in] in Hc; destruct Hc as [(H1 & H2 & H3 & Ht) Hc];
    cbn [runcmd]; rewrite (proj2 (Z.eqb_neq x 0)) by lia; unfold c_type, e_argv, r_fd, r_mode, r_file, r_cmd, p_left, p_right, b_cmd in *;
    rdstep; rewrite Ht; cbn [Z.eqb EXEC REDIR LIST PIPE BACK Pos.eqb].
  - destruct Hc as (Hlen & ps & [Hps Hp0] & HF). pose proof (Forall2_length _ _ _ HF) as Hl. unfold e_argv in *.
    rdstep. destruct HF as [|p w ps ws [Hpos Hw] HF];
      [change (peek 8 m (x + 8 + 8 * 0) = 0) in Hp0; by rewrite Hp0|]. pose proof (Hps 0%nat p eq_refl) as Hp.
    change (peek 8 m (x + 8 + 8 * 0) = p) in Hp. rewrite Hp, (proj2 (Z.eqb_neq p 0)) by lia. rewrite (with_mem_ok _ _ _ _ (str_at_ok _ _ _ Hw)).
    erewrite with_mem_ok; [done|]. cbn [length] in *.
    apply (argv_at_ok m (x + 8 + 8 * 0) (p :: ps)); [|rewrite <- Hp0; f_equal; cbn [length]; lia|by constructor|cbn; lia..].
    intros j q Hj. rewrite <- (Hps j q Hj). f_equal. lia.
  - destruct Hc as (Hfd & Efd & Em & Hm & Hf & Hc). rdstep. rewrite Efd. rewrite i32_id by lia.
    assert (0 <= mode < 2 ^ 31) as Hm' by done.
    assert (with_mem m (ld64 (x + 16)) (fun f0 => with_mem m (str_at f0) (fun file => with_mem m (ldint (x + 32)) (fun mode =>
      Open file mode (fun r => if r <? 0 then print2 (chars "open " ++ file ++ chars (" failed" ++ nl)) (Exit 1)
        else with_mem m (ld64 (x + 8)) (fun sub => runcmd m k sub))))) =
      Open f mode (fun r => if r <? 0 then print2 (chars "open " ++ f ++ chars (" failed" ++ nl)) (Exit 1)
        else with_mem m (ld64 (x + 8)) (fun sub => runcmd m k sub))) as ->.
    { rdstep. rewrite (with_mem_ok _ _ _ _ (str_at_ok _ _ _ Hf)). rdstep. by rewrite Em, i32_id by lia. }
    destruct Hfd as [-> | ->]; [rewrite starts_stdin|rewrite starts_stdout]; cbn [Z.ltb Z.compare]; rdstep;
      by rewrite (IH _ _ _ _ _ _ Hc) by lia.
  - destruct Hc as [Hl Hr]. rewrite starts_pipe. rd64 m (x + 8). rewrite (IHl _ _ _ _ _ _ Hl) by lia. cbn [plumbed mbind option_bind].
    destruct (plumbed l _ _ _ _) as [ev1 n1]. rd64 m (x + 16). rewrite (IHr _ _ _ _ _ _ Hr) by lia. by destruct (plumbed r _ _ _ _).
  - destruct Hc as [Hl Hr]. rewrite starts_fork1. cbn [Z.eqb starts]. rd64 m (x + 8). rewrite (IHl _ _ _ _ _ _ Hl) by lia.
    cbn [plumbed mbind option_bind]. destruct (plumbed l _ _ _ _) as [ev1 n1]. rd64 m (x + 16).
    rewrite (IHr _ _ _ _ _ _ Hr) by lia. by destruct (plumbed r _ _ _ _).
  - rewrite starts_fork1. cbn [Z.eqb starts]. rd64 m (x + 8). rewrite (IH _ _ _ _ _ _ Hc) by lia.
    cbn [plumbed mbind option_bind]. destruct (plumbed c _ _ _ _). cbn. by rewrite app_nil_r.
Qed.
