(* ===== verification/ShellLex.v ===== *)
(** * The tokens of the shell in memory *)

From S2P Require Import Prelude CInt Memory KMonad KString Blocks User Ulib UlibProof Shell ShellSpec.

(** ** Leading white space *)

Fixpoint trim (l : list Z) : list Z :=
  match l with
  | c :: l' => if in_str whitespace c then trim l' else l
  | [] => []
  end.

Lemma trim_app sp l : Forall space sp -> trim (sp ++ l) = trim l.
Proof. induction 1 as [|c sp Hc _ IH]; [done|]. cbn [app trim]. by rewrite Hc. Qed.
Lemma trim_spaces sp : Forall space sp -> trim sp = [].
Proof. intros H. rewrite <- (app_nil_r sp). by rewrite trim_app. Qed.
Lemma trim_split l : exists sp, l = sp ++ trim l /\ Forall space sp.
Proof.
  induction l as [|c l (sp & E & Hsp)]; [by exists []|]. cbn [trim]. destruct (in_str whitespace c) eqn:Ec.
  - exists (c :: sp). split; [cbn; congruence|by constructor].
  - by exists [].
Qed.
Lemma trim_suffix l : trim l `suffix_of` l.
Proof. destruct (trim_split l) as (sp & E & _). by exists sp. Qed.
Lemma trim_hd l : match trim l with [] => True | c :: _ => in_str whitespace c = false end.
Proof. induction l as [|c l IH]; [done|]. cbn [trim]. by destruct (in_str whitespace c) eqn:Ec. Qed.
Lemma trim_id c l : in_str whitespace c = false -> trim (c :: l) = c :: l.
Proof. intros H. cbn [trim]. by rewrite H. Qed.

(** ** Kinds of characters *)

Lemma single_spec c : c ∈ single -> in_str whitespace c = false /\ in_str single c = true /\ c <> 0 /\ in_str symbols c = true.
Proof.
  unfold single. rewrite !elem_of_cons, elem_of_nil. intros H. repeat destruct H as [->|H]; try done.
Qed.
Lemma word_char_spec c : word_char c = true -> in_str whitespace c = false /\ in_str symbols c = false.
Proof. unfold word_char. by destruct (in_str whitespace c), (in_str symbols c). Qed.
Lemma in_str_sub l l' c : l ⊆ l' -> in_str l' c = false -> in_str l c = false.
Proof.
  intros Hs H. destruct (in_str l c) eqn:E; [|done]. unfold in_str in *. apply existsb_exists in E as (x & Hx & Ex).
  rewrite <- H. symmetry. apply existsb_exists. exists x. split; [|done]. apply list_elem_of_In, Hs. by apply list_elem_of_In.
Qed.

Lemma sub_symbols toks : forallb (in_str symbols) toks = true -> toks ⊆ symbols.
Proof.
  intros H c Hc. rewrite forallb_forall in H. specialize (H c ltac:(by apply list_elem_of_In)). unfold in_str in H.
  apply existsb_exists in H as (x & Hx & Ex). apply Z.eqb_eq in Ex as ->. by apply list_elem_of_In.
Qed.

(** What the next token starts with: a symbol, or nothing of interest. *)
Definition first_char (ts : list token) : option Z :=
  match ts with
  | TSym c :: _ => Some (if c =? ch "+" then ch ">" else c)
  | _ => None
  end.
Definition next_in (toks : list Z) (ts : list token) : bool :=
  match first_char ts with Some c => in_str toks c | None => false end.

Lemma lexes_trim l ts : lexes l ts -> lexes (trim l) ts.
Proof.
  destruct 1 as [sp Hsp|sp c l ts Hsp Hc Hl|sp l ts Hsp Hh Hl|sp l ts Hsp Hl|sp w l ts Hsp Hn Hw He Hl].
  - rewrite trim_spaces by done. by constructor.
  - rewrite trim_app, trim_id by first [done|by apply single_spec]. by apply (lex_single []).
  - rewrite trim_app, trim_id by done. by apply (lex_gt []).
  - rewrite trim_app, trim_id by done. by apply (lex_append []).
  - rewrite trim_app by done. destruct w as [|c w]; [done|]. cbn [app]. apply Forall_cons in Hw as Hw'. destruct Hw' as [Hc _].
    rewrite trim_id by (by apply word_char_spec). by apply (lex_word [] (c :: w)).
Qed.

Lemma trim_first l ts : lexes l ts ->
  match trim l with
  | [] => ts = []
  | c :: _ => match first_char ts with Some d => c = d | None => in_str symbols c = false end /\ ts <> []
  end.
Proof.
  destruct 1 as [sp Hsp|sp c l ts Hsp Hc Hl|sp l ts Hsp Hh Hl|sp l ts Hsp Hl|sp w l ts Hsp Hn Hw He Hl].
  - by rewrite trim_spaces.
  - rewrite trim_app, trim_id by first [done|by apply single_spec]. split; [|done]. cbn.
    destruct (Z.eqb_spec c (ch "+")) as [->|]; [|done]. exfalso. unfold single in Hc. rewrite !elem_of_cons, elem_of_nil in Hc.
    repeat destruct Hc as [[=]|Hc]; done.
  - by rewrite trim_app, trim_id.
  - by rewrite trim_app, trim_id.
  - rewrite trim_app by done. destruct w as [|c w]; [done|]. cbn [app]. apply Forall_cons in Hw as [Hc _].
    rewrite trim_id by (by apply word_char_spec). split; [|done]. cbn. by apply word_char_spec.
Qed.

(** ** Reading the text

    A position is the address of the rest [l] of the text that ends at [es]. *)
Section Text.
Context (es : Z).
Definition at_ (l : list Z) : Z := es - Z.of_nat (length l).
Definition text (m : ram) (l : list Z) : Prop := str_in m (at_ l) l.

Lemma text_suffix m l l' : text m l -> l' `suffix_of` l -> text m l'.
Proof.
  intros ([H1 H2] & H3 & H4) [p ->]. unfold text, at_ in *. rewrite length_app in *. split_and!; [split| |]; [| |lia..].
  - intros i c Hi. destruct (H1 (length p + i)%nat c) as [<- ?].
    + rewrite lookup_app_r by lia. by replace (length p + i - length p)%nat with i by lia.
    + split; [f_equal; lia|done].
  - rewrite <- H2. f_equal. lia.
Qed.

Lemma text_end m : text m [] -> ld8 (at_ []) m = Ok (0, m).
Proof. apply str_in_nil. Qed.
Lemma text_hd m c l : text m (c :: l) -> ld8 (at_ (c :: l)) m = Ok (c, m).
Proof. intros H. by apply str_in_cons in H as [? _]. Qed.
Lemma text_nonzero m c l : text m (c :: l) -> c <> 0.
Proof. intros H. by apply str_in_cons in H as (_ & ? & _). Qed.

Lemma skip_while_ok p m a b k :
  text m (a ++ b) -> Forall (fun c => p c = true) a -> match b with [] => True | c :: _ => p c = false end ->
  (length a < k)%nat -> skip_while p k (at_ (a ++ b)) es m = Ok (at_ b, m).
Proof.
  intros Ht Ha Hb. revert k Ht. induction Ha as [|c a Hc Ha IH]; intros k Ht Hk; (destruct k as [|k]; [cbn in Hk; lia|]); cbn [skip_while app].
  - destruct b as [|d b].
    + unfold at_. cbn [length]. rewrite (proj2 (Z.ltb_ge _ _)) by lia. done.
    + rewrite (proj2 (Z.ltb_lt _ _)) by (unfold at_; cbn [length]; lia).
      by rewrite (bind_ok _ _ _ _ _ (text_hd _ _ _ Ht)), Hb.
  - rewrite (proj2 (Z.ltb_lt _ _)) by (unfold at_; cbn [length]; lia).
    rewrite (bind_ok _ _ _ _ _ (text_hd _ _ _ Ht)), Hc.
    cbn [length] in Hk. assert (text m (a ++ b)) as Ht' by (eapply text_suffix; [exact Ht|by exists [c]]).
    specialize (IH k Ht' ltac:(lia)). rewrite <- IH. f_equal. unfold at_. cbn [length]. lia.
Qed.
Lemma skip_ok p m a b :
  text m (a ++ b) -> Forall (fun c => p c = true) a -> match b with [] => True | c :: _ => p c = false end ->
  skip p (at_ (a ++ b)) es m = Ok (at_ b, m).
Proof. intros Ht Ha Hb. apply skip_while_ok; try done. unfold at_. rewrite length_app. lia. Qed.

Lemma skip_space_ok m l : text m l -> skip_space (at_ l) es m = Ok (at_ (trim l), m).
Proof.
  intros Ht. destruct (trim_split l) as (sp & E & Hsp). unfold skip_space. rewrite E at 1. apply skip_ok; [by rewrite <- E|done|].
  apply trim_hd.
Qed.

Lemma peek_tok_ok m l ts toks :
  text m l -> lexes l ts -> toks ⊆ symbols -> peek_tok (at_ l) es toks m = Ok (next_in toks ts, at_ (trim l), m).
Proof.
  intros Ht Hl Hs. unfold peek_tok. rewrite (bind_ok _ _ _ _ _ (skip_space_ok _ _ Ht)).
  assert (text m (trim l)) as Ht' by (eapply text_suffix; [done|apply trim_suffix]).
  pose proof (trim_first _ _ Hl) as Hf. unfold next_in, ret. destruct (trim l) as [|c l'] eqn:E.
  - by rewrite (bind_ok _ _ _ _ _ (text_end _ Ht')), Hf.
  - rewrite (bind_ok _ _ _ _ _ (text_hd _ _ _ Ht')). pose proof (text_nonzero _ _ _ Ht') as Hc. rewrite (proj2 (Z.eqb_neq c 0)) by done. cbn [negb andb].
    destruct Hf as [Hf _]. destruct (first_char ts) as [d|]; [by subst d|]. by rewrite (in_str_sub _ _ _ Hs Hf).
Qed.

(** [gettoken] on a text that starts with a given token. *)
Lemma gettoken_end m l : text m l -> lexes l [] -> gettoken (at_ l) es m = Ok (0, at_ [], at_ [], at_ [], m).
Proof.
  intros Ht Hl. assert (trim l = []) as E.
  { pose proof (trim_first _ _ Hl) as Hf. destruct (trim l); [done|]. by destruct Hf. }
  assert (text m []) as Ht' by (rewrite <- E; eapply text_suffix; [done|apply trim_suffix]).
  unfold gettoken. rewrite (bind_ok _ _ _ _ _ (skip_space_ok _ _ Ht)), E, (bind_ok _ _ _ _ _ (text_end _ Ht')). cbn [Z.eqb].
  rewrite bind_ret. by rewrite (bind_ok _ _ _ _ _ (skip_space_ok _ _ Ht')).
Qed.

(** The three cases of the switch. *)
Lemma gettoken_step m l c r :
  text m l -> trim l = c :: r ->
  gettoken (at_ l) es m =
    (let* (tok, s) :=
      if in_str single c then ret (c, at_ r)
      else if c =? ch ">" then
        d <- ld8 (at_ r) ;; if d =? ch ">" then ret (ch "+", at_ r + 1) else ret (c, at_ r)
      else s <- skip word_char (at_ (c :: r)) es ;; ret (ch "a", s) in
    s' <- skip_space s es ;; ret (tok, at_ (c :: r), s, s')) m.
Proof.
  intros Ht E. assert (text m (c :: r)) as Ht' by (rewrite <- E; eapply text_suffix; [done|apply trim_suffix]).
  unfold gettoken. rewrite (bind_ok _ _ _ _ _ (skip_space_ok _ _ Ht)), E, (bind_ok _ _ _ _ _ (text_hd _ _ _ Ht')).
  rewrite (proj2 (Z.eqb_neq c 0)) by (by eapply text_nonzero). fold single.
  replace (at_ (c :: r) + 1) with (at_ r) by (unfold at_; cbn [length]; lia). done.
Qed.

(** After a token [p] white space is skipped. *)
Lemma skip_after m p r ts :
  text m (p ++ r) -> p <> [] -> lexes r ts ->
  exists l', skip_space (at_ r) es m = Ok (at_ l', m) /\ lexes l' ts /\ l' `suffix_of` (p ++ r) /\ (length l' < length (p ++ r))%nat.
Proof.
  intros Ht Hp Hr. assert (text m r) as Htr by (eapply text_suffix; [exact Ht|by exists p]).
  exists (trim r). pose proof (trim_suffix r) as Hs. pose proof (suffix_length _ _ Hs).
  split_and!; [by apply skip_space_ok|by apply lexes_trim|etransitivity; [exact Hs|by exists p]|].
  destruct p; [done|]. rewrite length_app. cbn. lia.
Qed.

Lemma gettoken_sym m l c ts :
  text m l -> lexes l (TSym c :: ts) ->
  exists q e l', gettoken (at_ l) es m = Ok (c, q, e, at_ l', m) /\ lexes l' ts /\ l' `suffix_of` l /\ (length l' < length l)%nat.
Proof.
  intros Ht Hl.
  assert (exists e p r, l = p ++ r /\ p <> [] /\ lexes r ts /\ gettoken (at_ l) es m =
    (s <- skip_space (at_ r) es ;; ret (c, at_ (trim l), e, s)) m) as (e & p & r & -> & Hp & Hr & Eg).
  { inversion Hl as [|sp c' r ts' Hsp Hc Hr|sp r ts' Hsp Hh Hr|sp r ts' Hsp Hr|]; subst.
    - assert (trim (sp ++ c :: r) = c :: r) as E by (rewrite trim_app, trim_id; first [done|by apply single_spec]).
      exists (at_ r), (sp ++ [c]), r. rewrite (gettoken_step _ _ _ _ Ht E), E, <- app_assoc. destruct (single_spec c Hc) as (_ & -> & _).
      split_and!; [done|by destruct sp|done|by rewrite bind_ret].
    - assert (trim (sp ++ ch ">" :: r) = ch ">" :: r) as E by (by rewrite trim_app, trim_id).
      assert (text m r) as Htr by (eapply text_suffix; [exact Ht|exists (sp ++ [ch ">"]); by rewrite <- app_assoc]).
      exists (at_ r), (sp ++ [ch ">"]), r. rewrite (gettoken_step _ _ _ _ Ht E), E, <- app_assoc. split_and!; [done|by destruct sp|done|].
      change (in_str single (ch ">")) with false. rewrite Z.eqb_refl. cbv iota.
      assert (forall d, default 0 (hd_error r) = d -> (d =? ch ">") = false) as Hd.
      { intros d <-. destruct r as [|d r]; [done|]. cbn in Hh |- *. apply Z.eqb_neq. congruence. }
      by rewrite bind_assoc, (bind_ok _ _ _ _ _ (str_in_hd _ _ _ Htr)), (Hd _ eq_refl), bind_ret.
    - assert (trim (sp ++ ch ">" :: ch ">" :: r) = ch ">" :: ch ">" :: r) as E by (by rewrite trim_app, trim_id).
      assert (text m (ch ">" :: r)) as Ht1 by (eapply text_suffix; [exact Ht|exists (sp ++ [ch ">"]); by rewrite <- app_assoc]).
      exists (at_ r), (sp ++ [ch ">"; ch ">"]), r. rewrite (gettoken_step _ _ _ _ Ht E), E, <- app_assoc.
      split_and!; [done|by destruct sp|done|]. change (in_str single (ch ">")) with false. rewrite Z.eqb_refl. cbv iota.
      rewrite bind_assoc, (bind_ok _ _ _ _ _ (text_hd _ _ _ Ht1)), Z.eqb_refl, bind_ret.
      by replace (at_ (ch ">" :: r) + 1) with (at_ r) by (unfold at_; cbn [length]; lia). }
  destruct (skip_after m p r ts Ht Hp Hr) as (l' & Es & H1 & H2 & H3). rewrite Eg, (bind_ok _ _ _ _ _ Es). by eexists _, _, l'.
Qed.

Lemma gettoken_word m l w ts :
  text m l -> lexes l (TWord w :: ts) ->
  exists lw l', gettoken (at_ l) es m = Ok (ch "a", at_ (w ++ lw), at_ lw, at_ l', m) /\ (w ++ lw) `suffix_of` l /\
    l' `suffix_of` lw /\ lexes l' ts /\ w <> [] /\ Forall is_word w /\ word_ends lw.
Proof.
  intros Ht Hl. inversion Hl as [| | | |sp w' r ts' Hsp Hn Hw He Hr]; subst. destruct w as [|c w]; [done|].
  pose proof Hw as Hw'. apply Forall_cons in Hw' as [Hc _]. destruct (word_char_spec c Hc) as [Hc1 Hc2].
  assert (trim (sp ++ (c :: w) ++ r) = (c :: w) ++ r) as E by (rewrite trim_app by done; cbn [app]; by rewrite trim_id).
  assert (text m ((c :: w) ++ r)) as Ht1 by (eapply text_suffix; [exact Ht|by exists sp]).
  assert (text m r) as Htr by (eapply text_suffix; [exact Ht1|by exists (c :: w)]).
  rewrite (gettoken_step _ _ c (w ++ r) Ht E).
  rewrite (in_str_sub single symbols c), (proj2 (Z.eqb_neq c (ch ">"))); [|intros ->; done|unfold single, symbols; set_solver|done].
  change (at_ (c :: w ++ r)) with (at_ ((c :: w) ++ r)).
  assert (skip word_char (at_ ((c :: w) ++ r)) es m = Ok (at_ r, m)) as Esk by (by apply skip_ok).
  rewrite bind_assoc, (bind_ok _ _ _ _ _ Esk), bind_ret, (bind_ok _ _ _ _ _ (skip_space_ok _ _ Htr)).
  exists r, (trim r). split_and!; try done; [by exists sp|apply trim_suffix|by apply lexes_trim].
Qed.
End Text.
