(* ===== verification/ShellHeap.v ===== *)
(** * The nodes of a command tree on the heap

    The constructors of the shell over the contract of [malloc]: a new node is
    a block of its own, everything else in use keeps its bytes. *)

From S2P Require Import Prelude CInt Memory KMonad KString Blocks User Ulib UlibProof Umalloc UmallocInv UmallocProof UmallocThm Shell ShellSpec ShellLex.

Lemma memset_loop_ok m a c k i :
  ram_lo m <= a + i -> a + i + Z.of_nat k <= ram_hi m ->
  exists m', memset_loop a c k i m = Ok (tt, m') /\ same_off (fun x => a + i <= x < a + i + Z.of_nat k) m m'.
Proof.
  revert m i. induction k as [|k IH]; intros m i Hlo Hhi; cbn [memset_loop].
  - exists m. split; [done|apply same_off_refl].
  - erewrite bind_ok by (apply st8_ok; bk).
    destruct (IH (poke 1 m (a + i) c) (i + 1)) as (m' & E & So); [rewrite ram_lo_poke; lia|rewrite ram_hi_poke; lia|].
    exists m'. split; [done|]. eapply same_off_trans; [apply same_off_poke|exact So|]. cbv beta. lia.
Qed.
Lemma memset_ok m a c n :
  0 <= n < 2 ^ 32 -> ram_lo m <= a -> a + n <= ram_hi m ->
  exists m', memset a c n m = Ok (a, m') /\ same_off (fun x => a <= x < a + n) m m'.
Proof.
  intros Hn Hlo Hhi. unfold memset. rewrite u32_id by lia.
  destruct (memset_loop_ok m a c (Z.to_nat n) 0) as (m' & E & So); [lia..|].
  exists m'. rewrite (bind_ok _ _ _ _ _ E). split; [done|]. apply (same_off_weaken _ _ _ _ So). lia.
Qed.

Lemma same_off_step P n m m' a v :
  same_off P m m' -> (forall x, a <= x < a + Z.of_nat n -> P x) -> same_off P m (poke n m' a v).
Proof. intros H1 H2. eapply same_off_trans; [exact H1|apply same_off_poke|]. intros x [Hx|Hx]; auto. Qed.

(** Stores inside the range of a [same_off]. *)
Ltac stores := repeat (apply same_off_step; [|lia]); apply same_off_refl.

Section Heap.
Context `{OS : Os} `{B : !Brk} (base freep hlo lim : Z).
Notation live_same := (live_same base freep hlo).
Hypothesis room : forall o, brk o + 65536 <= lim -> exists o', os_sbrk 65536 o = (true, o').

Definition hp (s : ust) (live : gmap Z Z) : Prop :=
  (exists fl, uready base freep hlo (u_mem s) fl live) /\ brk (u_os s) = ram_hi (u_mem s).

(** The [n] bytes at [y] are in a block of their own. *)
Definition own (live : gmap Z Z) (y n : Z) : Prop := exists u, live !! (y - 16) = Some u /\ n <= 16 * (u - 1).

Lemma own_mono live live' y n : own live y n -> live ⊆ live' -> own live' y n.
Proof. intros (u & Hu & Hn) Hs. exists u. split; [|done]. by eapply lookup_weaken. Qed.

Lemma own_range s live y n : hp s live -> own live y n ->
  ram_lo (u_mem s) + 16 <= y /\ 0 < y /\ hlo + 16 <= y /\ y + n <= ram_hi (u_mem s) <= 2 ^ 35.
Proof using.
  intros [[fl R] _] (u & Hu & Hn). pose proof (uready_live _ _ _ _ _ _ _ _ R Hu) as I.
  destruct (ui_live _ _ _ _ _ _ I _ _ Hu) as (? & ? & ? & _). destruct (ui_glob _ _ _ _ _ _ I) as (? & ? & ? & ? & ? & ? & ?).
  unfold hplus, sizeof_Header in *. lia.
Qed.

Lemma own_apart s live y n z k : hp s live -> own live y n -> own live z k -> y <> z -> y + n <= z \/ z + k <= y.
Proof using.
  intros [[fl R] _] (u & Hu & Hn) (v & Hv & Hk) Hne. pose proof (uready_live _ _ _ _ _ _ _ _ R Hu) as I.
  pose proof (ui_disj' _ _ _ _ _ _ I _ _ _ _ Hu Hv ltac:(lia)). unfold hplus, sizeof_Header in *. lia.
Qed.

Lemma own_peek live m m' y n k a :
  live_same live m m' -> own live y n -> y <= a -> a + Z.of_nat k <= y + n -> peek k m' a = peek k m a.
Proof using.
  intros Hs (u & Hu & Hn) H1 H2. apply peek_ext. intros x Hx. eapply live_same_at; [exact Hs|exact Hu|].
  unfold hplus, sizeof_Header. lia.
Qed.

(** Writing into one's own block. *)
Lemma hp_put s m' live y n :
  hp s live -> own live y n -> same_off (fun a => y <= a < y + n) (u_mem s) m' -> hp (Ust _ m' (u_os s)) live.
Proof using.
  intros [[fl R] Hb] (u & Hu & Hn) So. pose proof (uready_live _ _ _ _ _ _ _ _ R Hu) as I. split; cbn [u_mem u_os].
  - exists fl. left. eapply uinv_payload; [exact I|exact Hu|]. apply (same_off_weaken _ _ _ _ So). unfold hplus, sizeof_Header. lia.
  - rewrite Hb. symmetry. apply So.
Qed.
Lemma live_same_put s m' live live' y n :
  hp s live' -> own live' y n -> live !! (y - 16) = None -> live ⊆ live' ->
  same_off (fun a => y <= a < y + n) (u_mem s) m' -> live_same live (u_mem s) m'.
Proof using.
  intros Hh Ho Hy Hs So. split; [pose proof So as (-> & -> & _); split; [done|lia]|]. intros a [(z & k & Hz & Ha)|(Ha & _)]; apply So.
  - destruct Hh as [[fl R] _]. destruct Ho as (u & Hu & Hn). pose proof (uready_live _ _ _ _ _ _ _ _ R Hu) as I.
    assert (live' !! z = Some k) as Hz' by (by eapply lookup_weaken). assert (z <> y - 16) as Hne by congruence.
    pose proof (ui_disj' _ _ _ _ _ _ I _ _ _ _ Hz' Hu Hne). unfold hplus, sizeof_Header in *. lia.
  - pose proof (own_range _ _ _ _ Hh Ho). lia.
Qed.
Lemma live_same_mono live live' m m' : live_same live' m m' -> live ⊆ live' -> live_same live m m'.
Proof using.
  intros [Hg H] Hs. split; [done|]. intros a [(y & k & Hy & Ha)|Ha]; apply H; [left|by right]. exists y, k. split; [by eapply lookup_weaken|done].
Qed.

(** ** How the parser changes the state

    [n] nodes were allocated. *)
Record evolves (n : Z) (s : ust) (live : gmap Z Z) (s' : ust) (live' : gmap Z Z) : Prop := Evolves {
  ev_hp : hp s' live';
  ev_same : live_same live (u_mem s) (u_mem s');
  ev_live : live ⊆ live';
  ev_brk : brk (u_os s') <= brk (u_os s) + 65536 * n
}.

Lemma evolves_refl s live : hp s live -> evolves 0 s live s live.
Proof using. intros H. split; [done|apply live_same_refl|done|lia]. Qed.
Lemma evolves_trans n k s live s1 live1 s2 live2 :
  evolves n s live s1 live1 -> evolves k s1 live1 s2 live2 -> evolves (n + k) s live s2 live2.
Proof using.
  intros [H1 S1 L1 B1] [H2 S2 L2 B2]. split; [done| |by etransitivity|lia].
  eapply live_same_trans; [exact S1|]. by eapply live_same_mono.
Qed.
Lemma evolves_put n s live s1 live1 m' y k :
  evolves n s live s1 live1 -> own live1 y k -> live !! (y - 16) = None ->
  same_off (fun a => y <= a < y + k) (u_mem s1) m' -> evolves n s live (Ust _ m' (u_os s1)) live1.
Proof using.
  intros [H1 S1 L1 B1] Ho Hy So. split; cbn [u_mem u_os]; [by eapply hp_put| |done|done].
  eapply live_same_trans; [exact S1|]. by eapply live_same_put.
Qed.

(** ** New nodes *)

Lemma new_node s live n :
  hp s live -> 0 <= n <= 168 -> brk (u_os s) + 65536 <= lim ->
  exists y s' live', (forall K : Z -> U Z, (cmd <- malloc base freep n ;; onmem (memset cmd 0 n) ;;; K cmd) s = K y s') /\
    evolves 1 s live s' live' /\ live !! (y - 16) = None /\ own live' y n.
Proof using room.
  intros [[fl R] Hb] Hn Hr. destruct s as [m o]. cbn [u_mem u_os] in *.
  assert (1 <= nunits n <= 13 /\ n <= 16 * (nunits n - 1)) as [Hnu Hfit].
  { unfold nunits. pose proof (Z.div_mod (n + 15) 16 ltac:(lia)). pose proof (Z.mod_pos_bound (n + 15) 16 ltac:(lia)). lia. }
  destruct (malloc_ok base freep hlo m fl live o n R ltac:(lia) ltac:(lia) Hb) as (r & m1 & o1 & Er & B1 & Hcase).
  rewrite Z.max_r in Hcase by lia. destruct Hcase as [(_ & _ & Es & _)|(x & fl1 & -> & Hx & I1 & S1 & Bb)].
  { destruct (room o Hr) as [o' Eo]. change (16 * 4096) with 65536 in Es. congruence. }
  set (live1 := <[x := nunits n]> live) in *. assert (own live1 (x + 16) n) as Ho.
  { exists (nunits n). replace (x + 16 - 16) with x by lia. unfold live1. by rewrite lookup_insert_eq. }
  assert (hp (Ust _ m1 o1) live1) as H1 by (split; [exists fl1; by left|done]).
  pose proof (own_range _ _ _ _ H1 Ho) as Hrg. cbn [u_mem] in Hrg.
  destruct (memset_ok m1 (x + 16) 0 n) as (m2 & Em & So); [lia..|].
  assert (live ⊆ live1) as Hs by (by apply insert_subseteq).
  exists (x + 16), (Ust _ m2 o1), live1. replace (x + 16 - 16) with x by lia. split_and!; [|split|done|done]; cbn [u_mem u_os].
  - intros K. rewrite (bind_ok _ _ _ _ _ Er). by rewrite (bind_ok _ _ _ _ _ (onmem_at _ _ _ _ _ Em)).
  - by apply (hp_put (Ust _ m1 o1) m2 live1 (x + 16) n).
  - eapply live_same_trans; [exact S1|]. eapply (live_same_put (Ust _ m1 o1)); [exact H1|exact Ho| |exact Hs|exact So].
    by replace (x + 16 - 16) with x by lia.
  - done.
  - lia.
Qed.

Definition node_at (m : ram) (live : gmap Z Z) (y size type : Z) : Prop := own live y size /\ peek 4 m y = type.
Definition redir_at (m : ram) (live : gmap Z Z) (y sub q e mode fd : Z) : Prop :=
  node_at m live y 40 REDIR /\ peek 8 m (r_cmd y) = sub /\ peek 8 m (r_file y) = q /\ peek 8 m (r_efile y) = e /\
  peek 4 m (r_mode y) = mode /\ peek 4 m (r_fd y) = fd.
Definition pair_at (m : ram) (live : gmap Z Z) (y type left right : Z) : Prop :=
  node_at m live y 24 type /\ peek 8 m (p_left y) = left /\ peek 8 m (p_right y) = right.
Definition back_at (m : ram) (live : gmap Z Z) (y sub : Z) : Prop :=
  node_at m live y 16 BACK /\ peek 8 m (b_cmd y) = sub.

(** Stores into the new node, then the rest. *)
Lemma execcmd_ok s live :
  hp s live -> brk (u_os s) + 65536 <= lim ->
  exists y s' live', execcmd base freep s = Ok (y, s') /\ evolves 1 s live s' live' /\ live !! (y - 16) = None /\
    node_at (u_mem s') live' y 168 EXEC.
Proof using room.
  intros Hh Hr. destruct (new_node s live 168 Hh ltac:(lia) Hr) as (y & [m1 o1] & live1 & E & V & Hy & Ho).
  pose proof (own_range _ _ _ _ (ev_hp _ _ _ _ _ V) Ho) as Hrg. cbn [u_mem] in Hrg.
  exists y, (Ust _ (poke 4 m1 y 1) o1), live1. split_and!.
  - unfold execcmd. etransitivity; [apply E|]. unfold c_type, EXEC. by repeat ustep.
  - apply (evolves_put 1 s live (Ust _ m1 o1) live1 _ y 168 V Ho Hy). stores.
  - done.
  - split; [done|]. cbn [u_mem]. by peeks.
Qed.

Lemma redircmd_ok s live sub q e mode fd :
  hp s live -> brk (u_os s) + 65536 <= lim -> 0 <= sub < 2 ^ 64 -> 0 <= q < 2 ^ 64 -> 0 <= e < 2 ^ 64 ->
  0 <= mode < 2 ^ 32 -> 0 <= fd < 2 ^ 32 ->
  exists y s' live', redircmd base freep sub q e mode fd s = Ok (y, s') /\ evolves 1 s live s' live' /\ live !! (y - 16) = None /\
    redir_at (u_mem s') live' y sub q e mode fd.
Proof using room.
  intros Hh Hr Hsub Hq He Hmode Hfd. destruct (new_node s live 40 Hh ltac:(lia) Hr) as (y & [m1 o1] & live1 & E & V & Hy & Ho).
  pose proof (own_range _ _ _ _ (ev_hp _ _ _ _ _ V) Ho) as Hrg. cbn [u_mem] in Hrg.
  set (m2 := poke 4 (poke 4 (poke 8 (poke 8 (poke 8 (poke 4 m1 y 2) (y + 8) sub) (y + 16) q) (y + 24) e) (y + 32) mode) (y + 36) fd).
  exists y, (Ust _ m2 o1), live1. split_and!.
  - unfold redircmd. etransitivity; [apply E|]. unfold c_type, r_cmd, r_file, r_efile, r_mode, r_fd, REDIR. by repeat ustep.
  - apply (evolves_put 1 s live (Ust _ m1 o1) live1 _ y 40 V Ho Hy). cbn [u_mem]. unfold m2.
    stores.
  - done.
  - unfold redir_at, node_at, r_cmd, r_file, r_efile, r_mode, r_fd. cbn [u_mem]. unfold m2. split_and!; [done|by peeks..].
Qed.

(** [struct pipecmd] and [struct listcmd]. *)
Lemma pair_ok s live type left right :
  hp s live -> brk (u_os s) + 65536 <= lim -> 0 <= type < 2 ^ 32 -> 0 <= left < 2 ^ 64 -> 0 <= right < 2 ^ 64 ->
  exists y s' live', (cmd <- malloc base freep sizeof_pipecmd ;;
    onmem (memset cmd 0 sizeof_pipecmd) ;;;
    onmem (st32 (c_type cmd) type) ;;;
    onmem (st64 (p_left cmd) left) ;;;
    onmem (st64 (p_right cmd) right) ;;;
    ret cmd) s = Ok (y, s') /\ evolves 1 s live s' live' /\ live !! (y - 16) = None /\
    pair_at (u_mem s') live' y type left right.
Proof using room.
  intros Hh Hr Ht Hl Hrt. destruct (new_node s live 24 Hh ltac:(lia) Hr) as (y & [m1 o1] & live1 & E & V & Hy & Ho).
  pose proof (own_range _ _ _ _ (ev_hp _ _ _ _ _ V) Ho) as Hrg. cbn [u_mem] in Hrg.
  set (m2 := poke 8 (poke 8 (poke 4 m1 y type) (y + 8) left) (y + 16) right).
  exists y, (Ust _ m2 o1), live1. split_and!.
  - etransitivity; [apply E|]. unfold c_type, p_left, p_right. by repeat ustep.
  - apply (evolves_put 1 s live (Ust _ m1 o1) live1 _ y 24 V Ho Hy). cbn [u_mem]. unfold m2. stores.
  - done.
  - unfold pair_at, node_at, p_left, p_right. cbn [u_mem]. unfold m2. split_and!; [done|by peeks..].
Qed.
Lemma pipecmd_ok s live left right :
  hp s live -> brk (u_os s) + 65536 <= lim -> 0 <= left < 2 ^ 64 -> 0 <= right < 2 ^ 64 ->
  exists y s' live', pipecmd base freep left right s = Ok (y, s') /\ evolves 1 s live s' live' /\ live !! (y - 16) = None /\
    pair_at (u_mem s') live' y PIPE left right.
Proof using room. intros. by apply pair_ok. Qed.
Lemma listcmd_ok s live left right :
  hp s live -> brk (u_os s) + 65536 <= lim -> 0 <= left < 2 ^ 64 -> 0 <= right < 2 ^ 64 ->
  exists y s' live', listcmd base freep left right s = Ok (y, s') /\ evolves 1 s live s' live' /\ live !! (y - 16) = None /\
    pair_at (u_mem s') live' y LIST left right.
Proof using room. intros. by apply pair_ok. Qed.

Lemma backcmd_ok s live sub :
  hp s live -> brk (u_os s) + 65536 <= lim -> 0 <= sub < 2 ^ 64 ->
  exists y s' live', backcmd base freep sub s = Ok (y, s') /\ evolves 1 s live s' live' /\ live !! (y - 16) = None /\
    back_at (u_mem s') live' y sub.
Proof using room.
  intros Hh Hr Hsub. destruct (new_node s live 16 Hh ltac:(lia) Hr) as (y & [m1 o1] & live1 & E & V & Hy & Ho).
  pose proof (own_range _ _ _ _ (ev_hp _ _ _ _ _ V) Ho) as Hrg. cbn [u_mem] in Hrg.
  set (m2 := poke 8 (poke 4 m1 y 5) (y + 8) sub).
  exists y, (Ust _ m2 o1), live1. split_and!.
  - unfold backcmd. etransitivity; [apply E|]. unfold c_type, b_cmd, BACK. by repeat ustep.
  - apply (evolves_put 1 s live (Ust _ m1 o1) live1 _ y 16 V Ho Hy). cbn [u_mem]. unfold m2. stores.
  - done.
  - unfold back_at, node_at, b_cmd. cbn [u_mem]. unfold m2. split_and!; [done|by peeks..].
Qed.
End Heap.
