(* ===== verification/ShellParse.v ===== *)
(** * The parser of the shell

    The parser builds the tree of every command line of the grammar; its
    strings are slices of the line. *)

From S2P Require Import Prelude CInt Memory KMonad KString Blocks User Ulib UlibProof Umalloc UmallocProof Shell ShellSpec ShellLex ShellHeap.

Section Parse.
Context `{OS : Os} `{B : !Brk} (base freep hlo lim : Z).
Notation live_same := (live_same base freep hlo).
Notation hp := (hp base freep hlo).
Notation evolves := (evolves base freep hlo).
Hypothesis room : forall o, brk o + 65536 <= lim -> exists o', os_sbrk 65536 o = (true, o').
(** The line [txt] and its end [es], in static data. *)
Context (es : Z) (txt : list Z).
Notation at_ := (at_ es).
Hypothesis placed : 0 < at_ txt /\ es < hlo /\ hlo < 2 ^ 35 /\
  forall a, at_ txt <= a <= es -> ~ (base <= a < base + 16) /\ ~ (freep <= a < freep + 8).

Definition pst (s : ust) (live : gmap Z Z) : Prop := hp s live /\ text es (u_mem s) txt.

Lemma text_same m m' live : live_same live m m' -> text es m txt -> text es m' txt.
Proof using placed.
  intros [[E1 E2] Eb] ([H1 H2] & H3 & H4). destruct placed as (P0 & P1 & _ & P2).
  assert (forall a, at_ txt <= a <= at_ txt + Z.of_nat (length txt) -> byte_at m' a = byte_at m a) as Hb.
  { intros a Ha. apply Eb. right. unfold ShellLex.at_ in *. destruct (P2 a ltac:(lia)). split; [lia|done]. }
  split_and!; [split| |lia].
  - intros i c Hi. pose proof (lookup_lt_Some _ _ _ Hi). rewrite Hb by lia. by apply H1.
  - rewrite Hb by lia. done.
  - by rewrite E1.
Qed.
Lemma pst_evolves n s live s' live' : pst s live -> evolves n s live s' live' -> pst s' live'.
Proof using placed. intros [_ Ht] V. split; [apply V|]. eapply text_same; [apply V|done]. Qed.
Lemma pst_text s live l : pst s live -> l `suffix_of` txt -> text es (u_mem s) l.
Proof using. intros [_ Ht]. by apply text_suffix. Qed.

(** The lexer in the state of the parser. *)
Lemma on_peek s live l ts toks b :
  pst s live -> l `suffix_of` txt -> lexes l ts -> toks ⊆ symbols -> next_in toks ts = b ->
  onmem (peek_tok (at_ l) es toks) s = Ok (b, at_ (trim l), s) /\ trim l `suffix_of` txt /\ lexes (trim l) ts /\
  (length (trim l) <= length l)%nat.
Proof using.
  intros Hp Hl Hx Hs <-. destruct s as [m o]. split_and!; [|by etransitivity; [apply trim_suffix|]|by apply lexes_trim|apply suffix_length, trim_suffix].
  apply onmem_at, peek_tok_ok; [|done..]. by apply (pst_text (Ust _ m o) live).
Qed.
Lemma on_sym s live l c ts :
  pst s live -> l `suffix_of` txt -> lexes l (TSym c :: ts) ->
  exists q e l', onmem (gettoken (at_ l) es) s = Ok (c, q, e, at_ l', s) /\ l' `suffix_of` txt /\ lexes l' ts /\ (length l' < length l)%nat.
Proof using.
  intros Hp Hl Hx. destruct s as [m o]. destruct (gettoken_sym es m l c ts) as (q & e & l' & E & H1 & H2 & H3); [|done|].
  { by apply (pst_text (Ust _ m o) live). }
  exists q, e, l'. split_and!; [by apply onmem_at|by etransitivity|done|done].
Qed.

(** ** Slices of the line and trees of them *)

Definition slice (q e : Z) (w : list Z) : Prop := exists lw, (w ++ lw) `suffix_of` txt /\ q = at_ (w ++ lw) /\ e = at_ lw /\
  w <> [] /\ Forall is_word w /\ word_ends lw.

Lemma on_word s live l w ts :
  pst s live -> l `suffix_of` txt -> lexes l (TWord w :: ts) ->
  exists q e l', onmem (gettoken (at_ l) es) s = Ok (ch "a", q, e, at_ l', s) /\ slice q e w /\ l' `suffix_of` txt /\ lexes l' ts /\
    (length l' < length l)%nat.
Proof using.
  intros Hp Hl Hx. destruct s as [m o]. destruct (gettoken_word es m l w ts) as (lw & l' & E & H1 & H2 & H3 & H4 & H5 & H6); [|done|].
  { by apply (pst_text (Ust _ m o) live). }
  assert ((w ++ lw) `suffix_of` txt) as Hw by (by etransitivity).
  exists (at_ (w ++ lw)), (at_ lw), l'. split_and!; [by apply onmem_at|by exists lw| |done|].
  - etransitivity; [exact H2|]. etransitivity; [by exists w|exact Hw].
  - apply suffix_length in H1, H2. rewrite length_app in H1. destruct w; [done|]. cbn [length] in H1. lia.
Qed.

Lemma at_range l : l `suffix_of` txt -> 0 < at_ l < 2 ^ 35.
Proof using placed. intros Hl. apply suffix_length in Hl. destruct placed as (? & ? & ? & _). unfold ShellLex.at_ in *. lia. Qed.
Lemma slice_range q e w : slice q e w -> 0 < q < 2 ^ 35 /\ 0 < e < 2 ^ 35.
Proof using placed.
  intros (lw & Hs & -> & -> & _). split; apply at_range; [done|]. etransitivity; [|exact Hs]. by exists w.
Qed.

Definition exec_at (m : ram) (live : gmap Z Z) (x : Z) (ss : list (Z * Z)) : Prop :=
  node_at m live x 168 EXEC /\ (length ss < 10)%nat /\
  forall i q e, ss !! i = Some (q, e) -> peek 8 m (e_argv x (Z.of_nat i)) = q /\ peek 8 m (e_eargv x (Z.of_nat i)) = e.

Definition redir_node (m : ram) (live : gmap Z Z) (y sub : Z) (r : redir) : Prop :=
  exists q e, redir_at m live y sub q e r.1.2 r.2 /\ slice q e r.1.1 /\ (r.2 = 0 \/ r.2 = 1) /\ 0 <= r.1.2 < 2 ^ 31.

Fixpoint rep (m : ram) (live : gmap Z Z) (c : command) (x : Z) : Prop :=
  match c with
  | CExec ws => exists ss, exec_at m live x ss /\ peek 8 m (e_argv x (Z.of_nat (length ss))) = 0 /\
      Forall2 (fun s w => slice s.1 s.2 w) ss ws
  | CRedir c f mode fd => exists sub, redir_node m live x sub (f, mode, fd) /\ rep m live c sub
  | CPipe l r => exists a b, pair_at m live x PIPE a b /\ rep m live l a /\ rep m live r b
  | CList l r => exists a b, pair_at m live x LIST a b /\ rep m live l a /\ rep m live r b
  | CBack c => exists a, back_at m live x a /\ rep m live c a
  end.

Section Mono.
Context (m m' : ram) (live live' : gmap Z Z) (Hl : live ⊆ live').
(** The blocks in use keep their contents. *)
Hypothesis Hs : forall y n k a, own live y n -> y <= a -> a + Z.of_nat k <= y + n -> peek k m' a = peek k m a.

Lemma node_mono y size type : node_at m live y size type -> 4 <= size -> node_at m' live' y size type.
Proof using Hs Hl.
  intros [Ho Ht] Hsz. split; [by eapply own_mono|]. rewrite <- Ht. eapply Hs; [exact Ho|lia..].
Qed.
Lemma redir_mono y sub q e mode fd : redir_at m live y sub q e mode fd -> redir_at m' live' y sub q e mode fd.
Proof using Hs Hl.
  intros (Hn & H1 & H2 & H3 & H4 & H5). destruct (Hn) as [Ho _]. unfold redir_at, r_cmd, r_file, r_efile, r_mode, r_fd in *.
  split; [by apply node_mono|]. by rewrite !(Hs _ _ _ _ Ho) by lia.
Qed.
Lemma pair_mono y type a b : pair_at m live y type a b -> pair_at m' live' y type a b.
Proof using Hs Hl.
  intros (Hn & H1 & H2). destruct (Hn) as [Ho _]. unfold pair_at, p_left, p_right in *.
  split; [by apply node_mono|]. by rewrite !(Hs _ _ _ _ Ho) by lia.
Qed.
Lemma back_mono y a : back_at m live y a -> back_at m' live' y a.
Proof using Hs Hl.
  intros (Hn & H1). destruct (Hn) as [Ho _]. unfold back_at, b_cmd in *.
  split; [by apply node_mono|]. by rewrite !(Hs _ _ _ _ Ho) by lia.
Qed.
Lemma exec_keep x ss : exec_at m live x ss -> exec_at m' live' x ss.
Proof using Hs Hl.
  intros (Hn & H1 & H2). destruct (Hn) as [Ho _]. split; [by apply node_mono|]. split; [done|]. intros i q e Hi.
  pose proof (lookup_lt_Some _ _ _ Hi). specialize (H2 _ _ _ Hi). unfold e_argv, e_eargv in *.
  by rewrite !(Hs _ _ _ _ Ho) by lia.
Qed.
Lemma redir_node_keep y sub r : redir_node m live y sub r -> redir_node m' live' y sub r.
Proof using Hs Hl. intros (q & e & H & ?). exists q, e. split; [by apply redir_mono|done]. Qed.

Lemma rep_keep c x : rep m live c x -> rep m' live' c x.
Proof using Hs Hl.
  revert x. induction c as [ws|c IH f mode fd|l IHl r IHr|l IHl r IHr|c IH]; intros x; cbn [rep].
  - intros (ss & H1 & H2 & H3). exists ss. split_and!; [by apply exec_keep| |done]. destruct (H1) as ([Ho _] & Hlen & _).
    unfold e_argv in *. by rewrite (Hs _ _ _ _ Ho) by lia.
  - intros (sub & H1 & H2). exists sub. split; [by apply redir_node_keep|auto].
  - intros (a & b & H1 & H2 & H3). exists a, b. split; [by apply pair_mono|auto].
  - intros (a & b & H1 & H2 & H3). exists a, b. split; [by apply pair_mono|auto].
  - intros (a & H1 & H2). exists a. split; [by apply back_mono|auto].
Qed.
End Mono.
Lemma rep_mono m m' live live' c x : live_same live m m' -> live ⊆ live' -> rep m live c x -> rep m' live' c x.
Proof using. intros Hs Hl. apply rep_keep; [done|]. intros y n k a. by eapply own_peek. Qed.
Lemma exec_mono m m' live live' x ss : live_same live m m' -> live ⊆ live' -> exec_at m live x ss -> exec_at m' live' x ss.
Proof using. intros Hs Hl. apply exec_keep; [done|]. intros y n k a. by eapply own_peek. Qed.
Lemma redir_node_mono m m' live live' y sub r : live_same live m m' -> live ⊆ live' -> redir_node m live y sub r -> redir_node m' live' y sub r.
Proof using. intros Hs Hl. apply redir_node_keep; [done|]. intros z n k a. by eapply own_peek. Qed.

(** A tree is at the address of a block. *)
Lemma rep_own m live c x : rep m live c x -> is_Some (live !! (x - 16)).
Proof using.
  destruct c; cbn [rep]; [intros (? & ((? & _) & _) & _)|intros (? & (? & ? & ((? & _) & _) & _) & _)|
    intros (? & ? & ((? & _) & _) & _)|intros (? & ? & ((? & _) & _) & _)|intros (? & ((? & _) & _) & _)];
    match goal with H : own _ _ _ |- _ => destruct H as (u & -> & _) end; by eexists.
Qed.
Lemma ptr_range s live x : hp s live -> is_Some (live !! (x - 16)) -> 0 < x < 2 ^ 64.
Proof using.
  intros Hh [u Hu]. assert (own live x (16 * (u - 1))) as Ho by (by exists u). pose proof (own_range _ _ _ _ _ _ _ Hh Ho).
  destruct Hh as [[fl R] _]. pose proof (UmallocThm.uready_live _ _ _ _ _ _ _ _ R Hu) as I.
  destruct (UmallocInv.ui_live _ _ _ _ _ _ I _ _ Hu) as (_ & ? & _). lia.
Qed.

(** ** Redirections

    [chain m live x y rs]: the redirections [rs] around the node [x] are at [y]. *)
Inductive chain (m : ram) (live : gmap Z Z) (x : Z) : Z -> list redir -> Prop :=
| chain_nil : chain m live x x []
| chain_snoc y y' rs r : chain m live x y rs -> redir_node m live y' y r -> y' <> x -> chain m live x y' (rs ++ [r]).

Lemma chain_mono m m' live live' x y rs :
  live_same live m m' -> live ⊆ live' -> chain m live x y rs -> chain m' live' x y rs.
Proof using. intros Hs Hl. induction 1; econstructor; eauto. by eapply redir_node_mono. Qed.
Lemma chain_rep m live c x y rs : chain m live x y rs -> rep m live c x -> rep m live (redirected c rs) y.
Proof using.
  intros Hc Hr. induction Hc as [|y y' rs [[f mode] fd] _ IH Hn _]; [done|]. unfold redirected. rewrite foldl_app. cbn [foldl rep]. eauto.
Qed.
Lemma chain_own m live x y rs : chain m live x y rs -> is_Some (live !! (x - 16)) -> is_Some (live !! (y - 16)).
Proof using. destruct 1 as [|y y' rs r _ (q & e & ((Ho & _) & _) & _) _]; [done|]. intros _. destruct Ho as (u & -> & _). by eexists. Qed.
(** The node [x] may change. *)
Lemma chain_put s m' live x y rs :
  hp s live -> own live x 168 -> same_off (fun a => x <= a < x + 168) (u_mem s) m' ->
  chain (u_mem s) live x y rs -> chain m' live x y rs.
Proof using.
  intros Hh Ho So. induction 1 as [|y y' rs r _ IH (q & e & (Hn & H1 & H2 & H3 & H4 & H5) & Hr) Hne]; [constructor|].
  econstructor; [exact IH| |done]. exists q, e. split; [|done]. destruct Hn as [Hy Ht].
  pose proof (own_apart _ _ _ _ _ _ _ _ _ Hh Hy Ho Hne) as Hd.
  assert (forall k a, y' <= a -> a + Z.of_nat k <= y' + 40 -> peek k m' a = peek k (u_mem s) a) as Hpk.
  { intros k a Ha1 Ha2. apply (same_off_peek _ _ _ _ _ So). lia. }
  unfold redir_at, node_at, r_cmd, r_file, r_efile, r_mode, r_fd in *. by rewrite !Hpk by lia.
Qed.

(** The three kinds of redirections. *)
Lemma redircmd_chain s live x y rs q e f mode fd :
  pst s live -> chain (u_mem s) live x y rs -> is_Some (live !! (x - 16)) -> slice q e f ->
  (fd = 0 \/ fd = 1) -> 0 <= mode < 2 ^ 31 -> brk (u_os s) + 65536 <= lim ->
  exists z s' live', redircmd base freep y q e mode fd s = Ok (z, s') /\ evolves 1 s live s' live' /\
    chain (u_mem s') live' x z (rs ++ [(f, mode, fd)]).
Proof using room placed.
  intros [Hh Ht] Hc Hx Hsl Hfd Hm Hr. pose proof (slice_range _ _ _ Hsl).
  pose proof (ptr_range _ _ _ Hh (chain_own _ _ _ _ _ Hc Hx)).
  destruct (redircmd_ok base freep hlo lim room s live y q e mode fd Hh Hr) as (z & s' & live' & E & V & Hz & Hn); [lia..|].
  exists z, s', live'. split_and!; [done|done|]. econstructor; [eapply chain_mono; [apply V|apply V|exact Hc]| |].
  - by exists q, e.
  - intros ->. destruct Hx as [u Hu]. congruence.
Qed.

Lemma redir_of_inv tok mode fd : redir_of tok = Some (mode, fd) ->
  tok = ch "<" /\ mode = 0 /\ fd = 0 \/ tok = ch ">" /\ mode = 1537 /\ fd = 1 \/ tok = ch "+" /\ mode = 513 /\ fd = 1.
Proof using.
  unfold redir_of. destruct (Z.eqb_spec tok (ch "<")) as [->|]; [intros [= <- <-]; auto|].
  destruct (Z.eqb_spec tok (ch ">")) as [->|]; [intros [= <- <-]; auto|].
  destruct (Z.eqb_spec tok (ch "+")) as [->|]; [intros [= <- <-]; auto|done].
Qed.

Lemma parseredirs_step k y l ts tok f mode fd s live rs x :
  pst s live -> l `suffix_of` txt -> lexes l (TSym tok :: TWord f :: ts) -> brk (u_os s) + 65536 <= lim ->
  chain (u_mem s) live x y rs -> is_Some (live !! (x - 16)) ->
  redir_of tok = Some (mode, fd) ->
  exists z s' live' l', parseredirs base freep (S k) y (at_ l) es s = parseredirs base freep k z (at_ l') es s' /\
    evolves 1 s live s' live' /\ chain (u_mem s') live' x z (rs ++ [(f, mode, fd)]) /\ l' `suffix_of` txt /\ lexes l' ts /\
    (length l' < length l)%nat.
Proof using room placed.
  intros Hp Hl Hx Hr Hc Ho Hk%redir_of_inv. cbn [parseredirs].
  destruct (on_peek s live l _ [ch "<"; ch ">"] true Hp Hl Hx) as (Ep & Hl1 & Hx1 & Hn1); [by apply sub_symbols| |].
  { by destruct Hk as [[-> _]|[[-> _]|[-> _]]]. }
  rewrite (bind_ok _ _ _ _ _ Ep).
  destruct (on_sym s live _ _ _ Hp Hl1 Hx1) as (q0 & e0 & l2 & Eg & Hl2 & Hx2 & Hn2). rewrite (bind_ok _ _ _ _ _ Eg).
  destruct (on_word s live _ _ _ Hp Hl2 Hx2) as (q & e & l3 & Ew & Hsl & Hl3 & Hx3 & Hn3). rewrite (bind_ok _ _ _ _ _ Ew).
  rewrite Z.eqb_refl. cbn [negb].
  destruct (redircmd_chain s live x y rs q e f mode fd Hp Hc Ho Hsl) as (z & s' & live' & E & V & Hc'); [lia|lia|done|].
  exists z, s', live', l3. split_and!; [|done|done|done|done|lia].
  destruct Hk as [(-> & -> & ->)|[(-> & -> & ->)|(-> & -> & ->)]]; by rewrite (bind_ok _ _ _ _ _ E).
Qed.

Lemma parseredirs_ok ts rs : redirs_of ts rs -> forall k y s live l rest rs0 x,
  pst s live -> l `suffix_of` txt -> lexes l (ts ++ rest) -> next_in [ch "<"; ch ">"] rest = false -> (length l < k)%nat ->
  brk (u_os s) + 65536 * Z.of_nat (length rs) <= lim -> chain (u_mem s) live x y rs0 -> is_Some (live !! (x - 16)) ->
  exists z s' live' l', parseredirs base freep k y (at_ l) es s = Ok (z, at_ l', s') /\
    evolves (Z.of_nat (length rs)) s live s' live' /\ chain (u_mem s') live' x z (rs0 ++ rs) /\ l' `suffix_of` txt /\ lexes l' rest /\
    (length l' <= length l)%nat.
Proof using room placed.
  induction 1 as [|tok mode fd f ts rs Htok _ IH]; intros k y s live l rest rs0 x Hp Hl Hx Hn Hk Hr Hc Ho;
    (destruct k as [|k]; [lia|]); cbn [app] in Hx.
  { destruct (on_peek s live l _ [ch "<"; ch ">"] false Hp Hl Hx) as (Ep & Hl1 & Hx1 & Hn1); [by apply sub_symbols|done|].
    cbn [parseredirs]. rewrite (bind_ok _ _ _ _ _ Ep). rewrite app_nil_r.
    exists y, s, live, (trim l). split_and!; [done|apply evolves_refl, Hp|done..]. }
  cbn [length] in Hr. destruct (parseredirs_step k y l (ts ++ rest) tok f mode fd s live rs0 x Hp Hl Hx) as
    (z & s1 & live1 & l1 & E & V & Hc1 & Hs1 & Hx1 & Hlen); [lia|done..|].
  rewrite E. pose proof (ev_brk _ _ _ _ _ _ _ _ V) as Hb.
  destruct (IH k z s1 live1 l1 rest (rs0 ++ [(f, mode, fd)]) x) as (z' & s' & live' & l' & E' & V' & Hc' & Hs' & Hx' & Hlen');
    [by eapply pst_evolves|done|done|done|lia|lia|exact Hc1|destruct Ho as [u Hu]; exists u; eapply lookup_weaken; [done|apply V]|].
  exists z', s', live', l'. rewrite <- app_assoc in Hc'. split_and!; [done| |exact Hc'|done|done|lia].
  cbn [length]. replace (Z.of_nat (S (length rs))) with (1 + Z.of_nat (length rs)) by lia. by eapply evolves_trans.
Qed.

Lemma redirs_ok ts rs y s live l rest rs0 x :
  redirs_of ts rs -> pst s live -> l `suffix_of` txt -> lexes l (ts ++ rest) -> next_in [ch "<"; ch ">"] rest = false ->
  brk (u_os s) + 65536 * Z.of_nat (length rs) <= lim -> chain (u_mem s) live x y rs0 -> is_Some (live !! (x - 16)) ->
  exists z s' live' l', redirs base freep y (at_ l) es s = Ok (z, at_ l', s') /\
    evolves (Z.of_nat (length rs)) s live s' live' /\ chain (u_mem s') live' x z (rs0 ++ rs) /\ l' `suffix_of` txt /\ lexes l' rest /\
    (length l' <= length l)%nat.
Proof using room placed.
  intros Hrs Hp Hl Hx Hn Hr Hc Ho. unfold redirs. eapply parseredirs_ok; eauto. unfold ShellLex.at_. lia.
Qed.

(** ** Words

    What may follow the words of a command. *)
Definition ends_exec (rest : list token) : Prop := rest = [] \/ next_in [ch "|"; ch ")"; ch "&"; ch ";"] rest = true.

Lemma ends_exec_spec rest : ends_exec rest -> next_in [ch "<"; ch ">"] rest = false.
Proof using.
  intros [->|H]; [done|]. unfold next_in in *. destruct (first_char rest) as [c|]; [|done]. unfold in_str in *. cbn [existsb] in *.
  destruct (Z.eqb_spec c (ch "<")) as [->|]; [done|]. destruct (Z.eqb_spec c (ch ">")) as [->|]; done.
Qed.
Lemma words_no_redir ts ws rs rest : words_of ts ws rs -> ends_exec rest -> next_in [ch "<"; ch ">"] (ts ++ rest) = false.
Proof using. intros [|w ts1 rs1 ts2 ws' rs2 _ _] He; [by apply ends_exec_spec|done]. Qed.

(** An argument is stored. *)
Lemma exec_push s live x ss q e :
  hp s live -> exec_at (u_mem s) live x ss -> (length ss < 9)%nat -> 0 <= q < 2 ^ 64 -> 0 <= e < 2 ^ 64 ->
  exists m', (onmem (st64 (e_argv x (Z.of_nat (length ss))) q) ;;; onmem (st64 (e_eargv x (Z.of_nat (length ss))) e)) s =
      Ok (tt, Ust _ m' (u_os s)) /\
    same_off (fun a => x <= a < x + 168) (u_mem s) m' /\ exec_at m' live x (ss ++ [(q, e)]).
Proof using.
  intros Hh ([Ho Ht] & Hlen & Hss) Hl Hq He. pose proof (own_range _ _ _ _ _ _ _ Hh Ho) as Hr. destruct s as [m o]. cbn [u_mem u_os] in *.
  unfold e_argv, e_eargv in *.
  exists (poke 8 (poke 8 m (x + 8 + 8 * Z.of_nat (length ss)) q) (x + 88 + 8 * Z.of_nat (length ss)) e). split_and!.
  - ustep. apply onmem_at, st64_ok. bk.
  - stores.
  - split; [split; [done|by peeks]|]. rewrite length_app. cbn [length]. split; [lia|]. intros i q' e' Hi.
    apply lookup_app_Some in Hi as [Hi|[Hi1 Hi]].
    + pose proof (lookup_lt_Some _ _ _ Hi). unfold e_argv, e_eargv. peeks. by apply Hss.
    + apply list_lookup_singleton_Some in Hi as [Hi2 [= <- <-]]. unfold e_argv, e_eargv. replace i with (length ss) by lia. by peeks.
Qed.

Lemma parseexec_loop_ok ts ws rs : words_of ts ws rs -> forall k x y s live l rest ss ws0 rs0 n0 s0 live0,
  pst s0 live0 -> evolves n0 s0 live0 s live -> live0 !! (x - 16) = None ->
  exec_at (u_mem s) live x ss -> chain (u_mem s) live x y rs0 -> Forall2 (fun s w => slice s.1 s.2 w) ss ws0 ->
  l `suffix_of` txt -> lexes l (ts ++ rest) -> ends_exec rest -> (length ss + length ws < 10)%nat -> (length l < k)%nat ->
  brk (u_os s) + 65536 * Z.of_nat (length rs) <= lim ->
  exists y' s' live' l' ss', parseexec_loop base freep k x y (Z.of_nat (length ss)) (at_ l) es s = Ok (y', Z.of_nat (length ss'), at_ l', s') /\
    evolves (n0 + Z.of_nat (length rs)) s0 live0 s' live' /\ exec_at (u_mem s') live' x ss' /\ chain (u_mem s') live' x y' (rs0 ++ rs) /\
    Forall2 (fun s w => slice s.1 s.2 w) ss' (ws0 ++ ws) /\ l' `suffix_of` txt /\ lexes l' rest /\ (length l' <= length l)%nat.
Proof using room placed.
  induction 1 as [|w ts1 rs1 ts2 ws rs2 Hr1 Hw2 IH]; intros k x y s live l rest ss ws0 rs0 n0 s0 live0 Hp0 V0 Hx0 He Hc HF Hl Hx Hend Hlen Hk Hr;
    (destruct k as [|k]; [lia|]); pose proof (pst_evolves _ _ _ _ _ Hp0 V0) as Hp; cbn [parseexec_loop].
  - cbn [app] in Hx. rewrite !app_nil_r, Z.add_0_r. destruct Hend as [->|Hend].
    + destruct (on_peek s live l _ [ch "|"; ch ")"; ch "&"; ch ";"] false Hp Hl Hx) as (Ep & Hl1 & Hx1 & Hn1); [by apply sub_symbols|done|].
      rewrite (bind_ok _ _ _ _ _ Ep). destruct s as [m o].
      pose proof (gettoken_end es m (trim l) (pst_text (Ust _ m o) live _ Hp Hl1) Hx1) as Eg.
      rewrite (bind_ok _ _ _ _ _ (onmem_at _ _ _ _ _ Eg)). cbn [Z.eqb].
      exists y, (Ust _ m o), live, [], ss. split_and!; try done; [by apply suffix_nil|by apply lex_end|cbn; lia].
    + destruct (on_peek s live l _ [ch "|"; ch ")"; ch "&"; ch ";"] true Hp Hl Hx) as (Ep & Hl1 & Hx1 & Hn1); [by apply sub_symbols|done|].
      rewrite (bind_ok _ _ _ _ _ Ep). exists y, s, live, (trim l), ss. split_and!; done.
  - cbn [app length] in *. rewrite <- app_assoc in Hx. rewrite length_app in Hr.
    destruct (on_peek s live l _ [ch "|"; ch ")"; ch "&"; ch ";"] false Hp Hl Hx) as (Ep & Hl1 & Hx1 & Hn1); [by apply sub_symbols|done|].
    rewrite (bind_ok _ _ _ _ _ Ep).
    destruct (on_word s live _ _ _ Hp Hl1 Hx1) as (q & e & l2 & Ew & Hsl & Hl2 & Hx2 & Hn2). rewrite (bind_ok _ _ _ _ _ Ew).
    change (ch "a" =? 0) with false. rewrite Z.eqb_refl. cbn [negb]. pose proof (slice_range _ _ _ Hsl) as Hrg.
    destruct (exec_push s live x ss q e) as (m1 & Es & So & He1); [apply Hp|done|lia..|]. destruct (He) as ([Hox _] & _).
    rewrite <- bind_assoc, (bind_ok _ _ _ _ _ Es). replace (Z.of_nat (length ss) + 1) with (Z.of_nat (length (ss ++ [(q, e)]))) by (rewrite length_app; cbn; lia).
    rewrite (proj2 (Z.leb_gt MAXARGS _)) by (unfold MAXARGS; rewrite length_app; cbn; lia).
    set (s1 := Ust _ m1 (u_os s)). pose proof (evolves_put _ _ _ _ _ _ _ _ _ _ _ V0 Hox Hx0 So) as V1. fold s1 in V1.
    assert (chain (u_mem s1) live x y rs0) as Hc1 by (by apply (chain_put s m1 live x y rs0 (proj1 Hp) Hox So)).
    assert (is_Some (live !! (x - 16))) as Ho1 by (destruct Hox as (u & -> & _); by eexists).
    destruct (redirs_ok ts1 rs1 y s1 live l2 (ts2 ++ rest) rs0 x Hr1 (pst_evolves _ _ _ _ _ Hp0 V1) Hl2 Hx2) as
      (z & s2 & live2 & l3 & Er & V2 & Hc2 & Hl3 & Hx3 & Hn3); [by eapply words_no_redir|cbn [s1 u_os]; lia|done|done|].
    rewrite (bind_ok _ _ _ _ _ Er). pose proof (ev_brk _ _ _ _ _ _ _ _ V2) as Hb2. cbn [s1 u_os] in Hb2.
    destruct (IH k x z s2 live2 l3 rest (ss ++ [(q, e)]) (ws0 ++ [w]) (rs0 ++ rs1) (n0 + Z.of_nat (length rs1)) s0 live0) as
      (y' & s' & live' & l' & ss' & E' & V' & He' & Hc' & HF' & Hl' & Hx' & Hn');
      [done|by eapply evolves_trans|done|eapply exec_mono; [apply V2|apply V2|exact He1]|done|apply Forall2_app; [done|by constructor]|done|done|done|
       rewrite length_app; cbn; lia|lia|lia|].
    exists y', s', live', l', ss'. rewrite <- !app_assoc in Hc', HF'.
    replace (n0 + Z.of_nat (length (rs1 ++ rs2))) with (n0 + Z.of_nat (length rs1) + Z.of_nat (length rs2)) by (rewrite length_app; lia).
    split_and!; try done. lia.
Qed.

(** ** The rules of the grammar *)

Lemma nodes_redirected c rs : nodes (redirected c rs) = nodes c + Z.of_nat (length rs).
Proof using.
  revert c. induction rs as [|[[f mode] fd] rs IH]; intros c; cbn [redirected foldl length]; [lia|].
  fold (redirected (CRedir c f mode fd) rs). rewrite IH. cbn [nodes]. lia.
Qed.
Lemma nodes_pos c : 0 < nodes c.
Proof using. induction c; cbn [nodes]; lia. Qed.

(** A parsing function turns the start of the line [l] into the tree of [c],
    and [rest] remains. *)
Definition parses (p : U (Z * Z)) (s : ust) (live : gmap Z Z) (l : list Z) (c : command) (rest : list token) : Prop :=
  exists y s' live' l', p s = Ok (y, at_ l', s') /\ evolves (nodes c) s live s' live' /\ rep (u_mem s') live' c y /\
    l' `suffix_of` txt /\ lexes l' rest /\ (length l' <= length l)%nat.

Lemma parseexec_words_ok ts0 rs0 ts1 ws rs1 s live l rest :
  redirs_of ts0 rs0 -> words_of ts1 ws rs1 -> (length ws < 10)%nat -> pst s live -> l `suffix_of` txt ->
  lexes l (ts0 ++ ts1 ++ rest) -> ends_exec rest ->
  brk (u_os s) + 65536 * (1 + Z.of_nat (length rs0) + Z.of_nat (length rs1)) <= lim ->
  parses (parseexec_words base freep (at_ l) es) s live l (redirected (CExec ws) (rs0 ++ rs1)) rest.
Proof using room placed.
  intros Hr0 Hw1 Hlen Hp Hl Hx Hend Hr. unfold parses, parseexec_words.
  destruct (execcmd_ok base freep hlo lim room s live (proj1 Hp)) as (x & s1 & live1 & E1 & V1 & Hx0 & Hn1); [lia|].
  rewrite (bind_ok _ _ _ _ _ E1). pose proof (ev_brk _ _ _ _ _ _ _ _ V1) as Hb1. destruct (Hn1) as [Hox _].
  assert (is_Some (live1 !! (x - 16))) as Ho1 by (destruct Hox as (u & -> & _); by eexists).
  destruct (redirs_ok ts0 rs0 x s1 live1 l (ts1 ++ rest) [] x Hr0 (pst_evolves _ _ _ _ _ Hp V1) Hl Hx) as
    (y & s2 & live2 & l2 & E2 & V2 & Hc2 & Hl2 & Hx2 & Hlen2); [by eapply words_no_redir|lia|constructor|done|].
  rewrite (bind_ok _ _ _ _ _ E2). pose proof (ev_brk _ _ _ _ _ _ _ _ V2) as Hb2.
  assert (exec_at (u_mem s2) live2 x []) as He2.
  { eapply exec_mono; [apply V2|apply V2|]. split; [done|]. split; [cbn; lia|]. intros i q e Hi. by rewrite lookup_nil in Hi. }
  destruct (parseexec_loop_ok ts1 ws rs1 Hw1 (S (Z.to_nat (es - at_ l2))) x y s2 live2 l2 rest [] [] rs0 (1 + Z.of_nat (length rs0)) s live) as
    (y' & s3 & live3 & l3 & ss & E3 & V3 & He3 & Hc3 & HF3 & Hl3 & Hx3 & Hlen3);
    [done|by eapply evolves_trans|done|done|done|constructor|done|done|done|done|unfold ShellLex.at_; lia|lia|].
  rewrite (bind_ok _ _ _ _ _ E3). destruct (He3) as ([Ho3 Ht3] & Hl10 & Hss). destruct s3 as [m3 o3].
  pose proof (own_range _ _ _ _ _ _ _ (ev_hp _ _ _ _ _ _ _ _ V3) Ho3) as Hrg. cbn [u_mem] in *.
  set (m4 := poke 8 (poke 8 m3 (e_argv x (Z.of_nat (length ss))) 0) (e_eargv x (Z.of_nat (length ss))) 0).
  assert (same_off (fun a => x <= a < x + 168) m3 m4) as So by (unfold m4, e_argv, e_eargv; stores).
  pose proof (evolves_put _ _ _ _ _ _ _ _ _ _ _ V3 Ho3 Hx0 So) as V4. cbn [u_os] in V4.
  exists y', (Ust _ m4 o3), live3, l3. split_and!; [|by rewrite nodes_redirected, length_app; cbn [nodes];
    replace (1 + Z.of_nat (length rs0 + length rs1)) with (1 + Z.of_nat (length rs0) + Z.of_nat (length rs1)) by lia| |done|done|lia].
  - unfold m4, e_argv, e_eargv. by repeat ustep.
  - cbn [u_mem]. eapply chain_rep; [by apply (chain_put (Ust _ m3 o3) m4 live3 x y' _ (ev_hp _ _ _ _ _ _ _ _ V3) Ho3 So)|].
    cbn [rep]. exists ss. unfold m4, e_argv, e_eargv. split_and!; [|by peeks|done].
    split; [split; [done|by peeks]|]. split; [done|]. intros i q e Hi. pose proof (lookup_lt_Some _ _ _ Hi).
    specialize (Hss _ _ _ Hi). unfold e_argv, e_eargv in *. by peeks.
Qed.

Lemma parseback_ok n : forall k c y s live l rest,
  pst s live -> rep (u_mem s) live c y -> l `suffix_of` txt -> lexes l (amps n ++ rest) -> next_in [ch "&"] rest = false ->
  (length l < k)%nat -> brk (u_os s) + 65536 * Z.of_nat n <= lim ->
  exists z s' live' l', parseback base freep k y (at_ l) es s = Ok (z, at_ l', s') /\ evolves (Z.of_nat n) s live s' live' /\
    rep (u_mem s') live' (backs n c) z /\ l' `suffix_of` txt /\ lexes l' rest /\ (length l' <= length l)%nat.
Proof using room placed.
  induction n as [|n IH]; intros k c y s live l rest Hp Hc Hl Hx Hn Hk Hr; (destruct k as [|k]; [lia|]); cbn [parseback].
  - destruct (on_peek s live l rest [ch "&"] false Hp Hl Hx) as (Ep & Hl1 & Hx1 & Hn1); [by apply sub_symbols|done|].
    rewrite (bind_ok _ _ _ _ _ Ep). exists y, s, live, (trim l). split_and!; try done. apply evolves_refl, Hp.
  - destruct (on_peek s live l _ [ch "&"] true Hp Hl Hx) as (Ep & Hl1 & Hx1 & Hn1); [by apply sub_symbols|done|].
    rewrite (bind_ok _ _ _ _ _ Ep).
    destruct (on_sym s live _ _ _ Hp Hl1 Hx1) as (q0 & e0 & l2 & Eg & Hl2 & Hx2 & Hn2). rewrite (bind_ok _ _ _ _ _ Eg).
    pose proof (ptr_range _ _ _ (proj1 Hp) (rep_own _ _ _ _ Hc)).
    destruct (backcmd_ok base freep hlo lim room s live y (proj1 Hp)) as (z & s1 & live1 & E1 & V1 & Hz & Hb); [lia..|].
    rewrite (bind_ok _ _ _ _ _ E1). pose proof (ev_brk _ _ _ _ _ _ _ _ V1) as Hb1.
    assert (rep (u_mem s1) live1 (CBack c) z) as Hc1.
    { exists y. split; [done|]. eapply rep_mono; [apply V1|apply V1|done]. }
    destruct (IH k (CBack c) z s1 live1 l2 rest (pst_evolves _ _ _ _ _ Hp V1) Hc1 Hl2 Hx2 Hn) as
      (z' & s' & live' & l' & E' & V' & Hc' & Hl' & Hx' & Hn'); [lia..|].
    exists z', s', live', l'. split_and!; try done; [|unfold backs in *; by rewrite Nat.iter_succ_r|lia].
    replace (Z.of_nat (S n)) with (1 + Z.of_nat n) by lia. by eapply evolves_trans.
Qed.

(** Two trees joined by a new node. *)
Lemma pair_rep s live s1 live1 s2 live2 s3 live3 type n1 n2 l r a b y :
  evolves n1 s live s1 live1 -> rep (u_mem s1) live1 l a -> evolves n2 s1 live1 s2 live2 -> rep (u_mem s2) live2 r b ->
  evolves 1 s2 live2 s3 live3 -> pair_at (u_mem s3) live3 y type a b ->
  evolves (1 + n1 + n2) s live s3 live3 /\ rep (u_mem s3) live3 l a /\ rep (u_mem s3) live3 r b.
Proof using.
  intros V1 R1 V2 R2 V3 Hp. split_and!.
  - replace (1 + n1 + n2) with (n1 + n2 + 1) by lia. eapply evolves_trans; [|exact V3]. by eapply evolves_trans.
  - eapply rep_mono; [apply V3|apply V3|]. by eapply rep_mono; [apply V2|apply V2|].
  - by eapply rep_mono; [apply V3|apply V3|].
Qed.

(** ** The whole grammar *)

Definition follow_set (nt : nonterminal) : list Z :=
  match nt with NLine => [ch ")"] | NPipe => [ch ")"; ch "&"; ch ";"] | NExec => [ch "|"; ch ")"; ch "&"; ch ";"] end.
Definition follow (nt : nonterminal) (rest : list token) : Prop := rest = [] \/ next_in (follow_set nt) rest = true.
Definition fuel (nt : nonterminal) (n : nat) : nat := (match nt with NLine => 4 | NPipe => 3 | NExec => 2 end + 4 * n)%nat.
Definition parse (nt : nonterminal) (k : nat) (s : Z) : U (Z * Z) :=
  match nt with
  | NLine => parseline base freep k s es
  | NPipe => parsepipe base freep k s es
  | NExec => parseexec base freep k s es
  end.

Definition parse_ok (nt : nonterminal) (ts : list token) (c : command) : Prop := forall k s live l rest,
  pst s live -> l `suffix_of` txt -> lexes l (ts ++ rest) -> follow nt rest -> (fuel nt (length l) <= k)%nat ->
  brk (u_os s) + 65536 * nodes c <= lim -> parses (parse nt k (at_ l)) s live l c rest.

(** The next symbol decides. *)
Lemma next_in_not toks toks' ts : next_in toks ts = true -> forallb (fun c => negb (in_str toks' c)) toks = true -> next_in toks' ts = false.
Proof using.
  unfold next_in. destruct (first_char ts) as [c|]; [|done]. intros H1 H2. unfold in_str in H1. apply existsb_exists in H1 as (x & Hx & Ex).
  apply Z.eqb_eq in Ex as ->. rewrite forallb_forall in H2. specialize (H2 _ Hx). by destruct (in_str toks' x).
Qed.
Lemma follow_not nt toks rest :
  follow nt rest -> forallb (fun c => negb (in_str toks c)) (follow_set nt) = true -> next_in toks rest = false.
Proof using. intros [->|H] Hf; [done|]. by eapply next_in_not. Qed.
Lemma follow_weaken nt nt' rest :
  follow nt rest -> forallb (in_str (follow_set nt')) (follow_set nt) = true -> follow nt' rest.
Proof using.
  intros [->|H] Hf; [by left|]. right. unfold next_in in *. destruct (first_char rest) as [c|]; [|done].
  unfold in_str in H. apply existsb_exists in H as (x & Hx & Ex). apply Z.eqb_eq in Ex as ->. rewrite forallb_forall in Hf. by apply Hf.
Qed.

Lemma rule_exec ts0 rs0 ts1 ws rs1 :
  redirs_of ts0 rs0 -> words_of ts1 ws rs1 -> (length ws < 10)%nat -> parse_ok NExec (ts0 ++ ts1) (redirected (CExec ws) (rs0 ++ rs1)).
Proof using room placed.
  intros Hr0 Hw1 Hlen k s live l rest Hp Hl Hx Hf Hk Hr. destruct k as [|k]; [cbn in Hk; lia|]. rewrite <- app_assoc in Hx.
  unfold parses, parse. cbn [parseexec]. destruct (on_peek s live l _ [ch "("] false Hp Hl Hx) as (Ep & Hl1 & Hx1 & Hn1); [by apply sub_symbols| |].
  { destruct Hr0 as [|tok mode fd f ts rs Htok _]; [|by apply redir_of_inv in Htok as [(-> & _)|[(-> & _)|(-> & _)]]].
    destruct Hw1; [|done]. by eapply follow_not. }
  rewrite (bind_ok _ _ _ _ _ Ep). rewrite nodes_redirected, length_app in Hr. cbn [nodes] in Hr.
  destruct (parseexec_words_ok ts0 rs0 ts1 ws rs1 s live (trim l) rest Hr0 Hw1 Hlen Hp Hl1 Hx1 Hf) as
    (y & s' & live' & l' & E & V & R & Hl' & Hx' & Hn'); [lia|]. exists y, s', live', l'. split_and!; try done. lia.
Qed.

Lemma rule_pipe1 ts c : parse_ok NExec ts c -> parse_ok NPipe ts c.
Proof using room placed.
  intros IH k s live l rest Hp Hl Hx Hf Hk Hr. destruct k as [|k]; [cbn in Hk; lia|]. unfold parses, parse. cbn [parsepipe].
  destruct (IH k s live l rest Hp Hl Hx) as (y & s1 & live1 & l1 & E1 & V1 & R1 & Hl1 & Hx1 & Hn1);
    [by eapply follow_weaken|unfold fuel in *; lia|done|]. rewrite (bind_ok _ _ _ _ _ E1).
  destruct (on_peek s1 live1 l1 rest [ch "|"] false (pst_evolves _ _ _ _ _ Hp V1) Hl1 Hx1) as (Ep & Hl2 & Hx2 & Hn2);
    [by apply sub_symbols|by eapply follow_not|]. rewrite (bind_ok _ _ _ _ _ Ep).
  exists y, s1, live1, (trim l1). split_and!; try done. lia.
Qed.

Lemma rule_pipe ts1 c1 ts2 c2 : parse_ok NExec ts1 c1 -> parse_ok NPipe ts2 c2 -> parse_ok NPipe (ts1 ++ TSym (ch "|") :: ts2) (CPipe c1 c2).
Proof using room placed.
  intros IH1 IH2 k s live l rest Hp Hl Hx Hf Hk Hr. destruct k as [|k]; [cbn in Hk; lia|]. unfold parses, parse. cbn [parsepipe nodes] in *.
  rewrite <- app_assoc in Hx. cbn [app] in Hx. pose proof (nodes_pos c1). pose proof (nodes_pos c2).
  destruct (IH1 k s live l (TSym (ch "|") :: ts2 ++ rest) Hp Hl Hx) as (y & s1 & live1 & l1 & E1 & V1 & R1 & Hl1 & Hx1 & Hn1);
    [by right|unfold fuel in *; lia|lia|]. rewrite (bind_ok _ _ _ _ _ E1). pose proof (ev_brk _ _ _ _ _ _ _ _ V1) as Hb1.
  pose proof (pst_evolves _ _ _ _ _ Hp V1) as Hp1.
  destruct (on_peek s1 live1 l1 _ [ch "|"] true Hp1 Hl1 Hx1) as (Ep & Hl2 & Hx2 & Hn2); [by apply sub_symbols|done|].
  rewrite (bind_ok _ _ _ _ _ Ep). destruct (on_sym s1 live1 _ _ _ Hp1 Hl2 Hx2) as (q0 & e0 & l3 & Eg & Hl3 & Hx3 & Hn3).
  rewrite (bind_ok _ _ _ _ _ Eg).
  destruct (IH2 k s1 live1 l3 rest Hp1 Hl3 Hx3 Hf) as (z & s2 & live2 & l4 & E2 & V2 & R2 & Hl4 & Hx4 & Hn4); [unfold fuel in *; lia|lia|].
  cbn [parse] in E2. rewrite (bind_ok _ _ _ _ _ E2). pose proof (ev_brk _ _ _ _ _ _ _ _ V2) as Hb2.
  assert (rep (u_mem s2) live2 c1 y) as R1' by (eapply rep_mono; [apply V2|apply V2|done]).
  pose proof (ptr_range _ _ _ (ev_hp _ _ _ _ _ _ _ _ V2) (rep_own _ _ _ _ R1')).
  pose proof (ptr_range _ _ _ (ev_hp _ _ _ _ _ _ _ _ V2) (rep_own _ _ _ _ R2)).
  destruct (pipecmd_ok base freep hlo lim room s2 live2 y z (ev_hp _ _ _ _ _ _ _ _ V2)) as (x & s3 & live3 & E3 & V3 & _ & P3); [lia..|].
  rewrite (bind_ok _ _ _ _ _ E3). destruct (pair_rep _ _ _ _ _ _ _ _ _ _ _ _ _ _ _ _ V1 R1 V2 R2 V3 P3) as (V & Ra & Rb).
  exists x, s3, live3, l4. split_and!; try done; [|lia]. by exists y, z.
Qed.

Lemma nodes_backs n c : nodes (backs n c) = Z.of_nat n + nodes c.
Proof using. unfold backs. induction n as [|n IH]; [done|]. rewrite Nat.iter_succ. cbn [nodes]. lia. Qed.

(** [parseline] up to the semicolon. *)
Lemma line_start n ts c k s live l rest :
  parse_ok NPipe ts c -> pst s live -> l `suffix_of` txt -> lexes l (ts ++ amps n ++ rest) -> follow NPipe (amps n ++ rest) ->
  next_in [ch "&"] rest = false -> (fuel NPipe (length l) <= k)%nat -> brk (u_os s) + 65536 * (Z.of_nat n + nodes c) <= lim ->
  parses (let* (cmd, s) := parsepipe base freep k (at_ l) es in parseback base freep (S (Z.to_nat (es - s))) cmd s es)
    s live l (backs n c) rest.
Proof using room placed.
  intros IH Hp Hl Hx Hf Hn Hk Hr. unfold parses. pose proof (nodes_pos c).
  destruct (IH k s live l (amps n ++ rest) Hp Hl Hx Hf Hk) as (y & s1 & live1 & l1 & E1 & V1 & R1 & Hl1 & Hx1 & Hn1); [lia|].
  cbn [parse] in E1. rewrite (bind_ok _ _ _ _ _ E1). pose proof (ev_brk _ _ _ _ _ _ _ _ V1) as Hb1.
  destruct (parseback_ok n (S (Z.to_nat (es - at_ l1))) c y s1 live1 l1 rest (pst_evolves _ _ _ _ _ Hp V1) R1 Hl1 Hx1 Hn) as
    (z & s2 & live2 & l2 & E2 & V2 & R2 & Hl2 & Hx2 & Hn2); [unfold ShellLex.at_; lia|lia|].
  exists z, s2, live2, l2. split_and!; try done; [|lia]. rewrite nodes_backs, Z.add_comm. by eapply evolves_trans.
Qed.

Lemma follow_amps n rest : follow NPipe rest -> follow NPipe (amps n ++ rest).
Proof using. destruct n as [|n]; [done|]. intros _. by right. Qed.

(** [parseline] when the part before the semicolon is parsed. *)
Lemma line_step k p s y p1 s1 :
  (let* (cmd, s) := parsepipe base freep k p es in parseback base freep (S (Z.to_nat (es - s))) cmd s es) s = Ok (y, p1, s1) ->
  parseline base freep (S k) p es s =
    (let* (b, s) := onmem (peek_tok p1 es [ch ";"]) in
     if (b : bool) then
       let* (_, _, _, s) := onmem (gettoken s es) in
       let* (rcmd, s) := parseline base freep k s es in
       cmd <- listcmd base freep y rcmd ;;
       ret (cmd, s)
     else ret (y, s)) s1.
Proof using.
  intros ([cmd q] & s' & Ea & Eb)%bind_inv. cbn [parseline]. by rewrite (bind_ok _ _ _ _ _ Ea), (bind_ok _ _ _ _ _ Eb).
Qed.

Lemma rule_line n ts c : parse_ok NPipe ts c -> parse_ok NLine (ts ++ amps n) (backs n c).
Proof using room placed.
  intros IH k s live l rest Hp Hl Hx Hf Hk Hr. destruct k as [|k]; [cbn in Hk; lia|]. rewrite <- app_assoc in Hx. rewrite nodes_backs in Hr.
  destruct (line_start n ts c k s live l rest IH Hp Hl Hx) as (y & s1 & live1 & l1 & E1 & V1 & R1 & Hl1 & Hx1 & Hn1);
    [apply follow_amps; by eapply follow_weaken|by eapply follow_not|unfold fuel in *; lia|done|].
  unfold parses, parse. rewrite (line_step _ _ _ _ _ _ E1).
  destruct (on_peek s1 live1 l1 rest [ch ";"] false (pst_evolves _ _ _ _ _ Hp V1) Hl1 Hx1) as (Ep & Hl2 & Hx2 & Hn2);
    [by apply sub_symbols|by eapply follow_not|]. rewrite (bind_ok _ _ _ _ _ Ep).
  exists y, s1, live1, (trim l1). split_and!; try done. lia.
Qed.

Lemma rule_list n ts1 c1 ts2 c2 :
  parse_ok NPipe ts1 c1 -> parse_ok NLine ts2 c2 -> parse_ok NLine (ts1 ++ amps n ++ TSym (ch ";") :: ts2) (CList (backs n c1) c2).
Proof using room placed.
  intros IH1 IH2 k s live l rest Hp Hl Hx Hf Hk Hr. destruct k as [|k]; [cbn in Hk; lia|]. cbn [nodes] in Hr. rewrite nodes_backs in Hr.
  rewrite <- !app_assoc in Hx. cbn [app] in Hx. pose proof (nodes_pos c1). pose proof (nodes_pos c2).
  destruct (line_start n ts1 c1 k s live l (TSym (ch ";") :: ts2 ++ rest) IH1 Hp Hl Hx) as (y & s1 & live1 & l1 & E1 & V1 & R1 & Hl1 & Hx1 & Hn1);
    [apply follow_amps; by right|done|unfold fuel in *; lia|lia|].
  unfold parses, parse. rewrite (line_step _ _ _ _ _ _ E1). pose proof (ev_brk _ _ _ _ _ _ _ _ V1) as Hb1. rewrite nodes_backs in Hb1.
  pose proof (pst_evolves _ _ _ _ _ Hp V1) as Hp1.
  destruct (on_peek s1 live1 l1 _ [ch ";"] true Hp1 Hl1 Hx1) as (Ep & Hl2 & Hx2 & Hn2); [by apply sub_symbols|done|].
  rewrite (bind_ok _ _ _ _ _ Ep). destruct (on_sym s1 live1 _ _ _ Hp1 Hl2 Hx2) as (q0 & e0 & l3 & Eg & Hl3 & Hx3 & Hn3).
  rewrite (bind_ok _ _ _ _ _ Eg).
  destruct (IH2 k s1 live1 l3 rest Hp1 Hl3 Hx3 Hf) as (z & s2 & live2 & l4 & E2 & V2 & R2 & Hl4 & Hx4 & Hn4); [unfold fuel in *; lia|lia|].
  cbn [parse] in E2. rewrite (bind_ok _ _ _ _ _ E2). pose proof (ev_brk _ _ _ _ _ _ _ _ V2) as Hb2.
  assert (rep (u_mem s2) live2 (backs n c1) y) as R1' by (eapply rep_mono; [apply V2|apply V2|done]).
  pose proof (ptr_range _ _ _ (ev_hp _ _ _ _ _ _ _ _ V2) (rep_own _ _ _ _ R1')).
  pose proof (ptr_range _ _ _ (ev_hp _ _ _ _ _ _ _ _ V2) (rep_own _ _ _ _ R2)).
  destruct (listcmd_ok base freep hlo lim room s2 live2 y z (ev_hp _ _ _ _ _ _ _ _ V2)) as (x & s3 & live3 & E3 & V3 & _ & P3); [lia..|].
  rewrite (bind_ok _ _ _ _ _ E3). destruct (pair_rep _ _ _ _ _ _ _ _ _ _ _ _ _ _ _ _ V1 R1 V2 R2 V3 P3) as (V & Ra & Rb).
  exists x, s3, live3, l4. split_and!; try done; [|lia]. by exists y, z.
Qed.

Lemma rule_block ts0 c ts1 rs : parse_ok NLine ts0 c -> redirs_of ts1 rs ->
  parse_ok NExec (TSym (ch "(") :: ts0 ++ TSym (ch ")") :: ts1) (redirected c rs).
Proof using room placed.
  intros IH Hrs k s live l rest Hp Hl Hx Hf Hk Hr. destruct k as [|[|k]]; [cbn in Hk; lia..|]. rewrite nodes_redirected in Hr.
  cbn [app] in Hx. rewrite <- app_assoc in Hx. cbn [app] in Hx. unfold parses, parse. cbn [parseexec parseblock].
  destruct (on_peek s live l _ [ch "("] true Hp Hl Hx) as (Ep & Hl1 & Hx1 & Hn1); [by apply sub_symbols|done|].
  rewrite (bind_ok _ _ _ _ _ Ep). destruct (on_peek s live (trim l) _ [ch "("] true Hp Hl1 Hx1) as (Ep2 & Hl2 & Hx2 & Hn2); [by apply sub_symbols|done|].
  rewrite (bind_ok _ _ _ _ _ Ep2). cbn [negb].
  destruct (on_sym s live _ _ _ Hp Hl2 Hx2) as (q0 & e0 & l3 & Eg & Hl3 & Hx3 & Hn3). rewrite (bind_ok _ _ _ _ _ Eg).
  destruct (IH k s live l3 (TSym (ch ")") :: ts1 ++ rest) Hp Hl3 Hx3) as (y & s1 & live1 & l4 & E1 & V1 & R1 & Hl4 & Hx4 & Hn4);
    [by right|unfold fuel in *; lia|lia|].
  cbn [parse] in E1. rewrite (bind_ok _ _ _ _ _ E1). pose proof (ev_brk _ _ _ _ _ _ _ _ V1) as Hb1. pose proof (pst_evolves _ _ _ _ _ Hp V1) as Hp1.
  destruct (on_peek s1 live1 l4 _ [ch ")"] true Hp1 Hl4 Hx4) as (Ep5 & Hl5 & Hx5 & Hn5); [by apply sub_symbols|done|].
  rewrite (bind_ok _ _ _ _ _ Ep5). cbn [negb].
  destruct (on_sym s1 live1 _ _ _ Hp1 Hl5 Hx5) as (q1 & e1 & l6 & Eg6 & Hl6 & Hx6 & Hn6). rewrite (bind_ok _ _ _ _ _ Eg6).
  destruct (redirs_ok ts1 rs y s1 live1 l6 rest [] y Hrs Hp1 Hl6 Hx6) as (z & s2 & live2 & l7 & E2 & V2 & Hc2 & Hl7 & Hx7 & Hn7);
    [by eapply follow_not|lia|constructor|by eapply rep_own|].
  exists z, s2, live2, l7. split_and!; try done; [rewrite nodes_redirected; by eapply evolves_trans| |lia].
  eapply chain_rep; [exact Hc2|]. eapply rep_mono; [apply V2|apply V2|done].
Qed.

Lemma parse_derives nt ts c : derives nt ts c -> parse_ok nt ts c.
Proof using room placed. induction 1; [by apply rule_line|by apply rule_list|by apply rule_pipe1|by apply rule_pipe|by apply rule_block|by apply rule_exec]. Qed.
End Parse.
