(* ===== verification/ShellThm.v ===== *)
(** * Correctness of the shell (user/sh.c)

    Every command line of the grammar is parsed into the tree of its command,
    and the tree starts the programs of the command with the right open files. *)

From S2P Require Import Prelude CInt Memory KMonad KString Blocks User Ulib UlibProof Umalloc UmallocInv UmallocProof UmallocThm.
From S2P Require Import Shell ShellSpec ShellLex ShellHeap ShellParse.

(** ** Depths *)

Lemma depth_redirected c rs : depth (redirected c rs) = (depth c + length rs)%nat.
Proof.
  revert c. induction rs as [|[[f mode] fd] rs IH]; intros c; cbn [redirected foldl length]; [lia|].
  fold (redirected (CRedir c f mode fd) rs). rewrite IH. cbn [depth]. lia.
Qed.
Lemma depth_backs n c : depth (backs n c) = (n + depth c)%nat.
Proof. unfold backs. induction n as [|n IH]; [done|]. rewrite Nat.iter_succ. cbn [depth]. lia. Qed.
Lemma redirs_length ts rs : redirs_of ts rs -> (length rs <= length ts)%nat.
Proof. induction 1; cbn [length]; lia. Qed.
Lemma words_length ts ws rs : words_of ts ws rs -> (length rs <= length ts)%nat.
Proof. induction 1 as [|w ts1 rs1 ts2 ws rs2 H1 _ IH]; [done|]. apply redirs_length in H1. cbn [length]. rewrite !length_app. lia. Qed.
Lemma derives_depth nt ts c : derives nt ts c -> (depth c <= S (length ts))%nat.
Proof.
  induction 1 as [n ts c _ IH|n ts1 c1 ts2 c2 _ IH1 _ IH2| |ts1 c1 ts2 c2 _ IH1 _ IH2|ts0 c ts1 rs _ IH Hr|ts0 rs0 ts1 ws rs1 H0 H1 _];
    rewrite ?depth_backs, ?depth_redirected, ?length_app; cbn [depth length]; rewrite ?depth_backs, ?length_app; unfold amps; rewrite ?length_replicate;
    cbn [length]; try lia.
  - apply redirs_length in Hr. lia.
  - apply redirs_length in H0. apply words_length in H1. lia.
Qed.
Lemma lexes_length l ts : lexes l ts -> (length ts <= length l)%nat.
Proof.
  induction 1 as [| | | |sp w l ts _ Hw _ _ _ IH]; cbn [length]; rewrite ?length_app; cbn [length] in *; try lia.
  destruct w; [done|]. cbn [length]. lia.
Qed.

Lemma strlen_loop_ok m k s l n :
  str_in m s l -> (length l < k)%nat -> 0 <= n -> n + Z.of_nat (length l) < 2 ^ 31 ->
  strlen_loop k (s - n) n m = Ok (n + Z.of_nat (length l), m).
Proof.
  revert s l n. induction k as [|k IH]; intros s l n Hl Hk Hn Hb; [lia|]. cbn [strlen_loop]. replace (s - n + n) with s by lia.
  destruct l as [|c l]; cbn [length] in *.
  - rewrite (bind_ok _ _ _ _ _ (str_in_nil _ _ Hl)). cbn [Z.eqb negb]. unfold ret. rewrite u32_id by lia. do 2 f_equal. lia.
  - apply str_in_cons in Hl as (E & Hc & Hl). rewrite (bind_ok _ _ _ _ _ E), (proj2 (Z.eqb_neq c 0)) by done. cbn [negb].
    rewrite i32_id by lia. replace (s - n) with (s + 1 - (n + 1)) by lia. rewrite (IH (s + 1) l (n + 1) Hl) by lia.
    do 2 f_equal. lia.
Qed.
Lemma strlen_ok m s l : str_in m s l -> Z.of_nat (length l) < 2 ^ 31 -> strlen s m = Ok (Z.of_nat (length l), m).
Proof.
  intros Hl Hb. apply scan_ok. replace s with (s - 0) at 2 by lia. destruct (Hl) as (_ & _ & ?). rewrite (strlen_loop_ok m _ s l 0); [done|done|lia..].
Qed.

Section Shell.
Context `{OS : Os} `{B : !Brk} (base freep hlo lim : Z).
Notation hp := (hp base freep hlo).
Hypothesis room : forall o, brk o + 65536 <= lim -> exists o', os_sbrk 65536 o = (true, o').
Context (es : Z) (txt : list Z).
Notation at_ := (at_ es).
Hypothesis placed : 0 < at_ txt /\ es < hlo /\ hlo < 2 ^ 35 /\
  forall a, at_ txt <= a <= es -> ~ (base <= a < base + 16) /\ ~ (freep <= a < freep + 8).
Notation slice := (slice es txt).
Notation rep := (rep es txt).

(** ** Ending the strings

    The positions after words, where [nulterminate] stores 0. *)
Definition ends (a : Z) : Prop := exists lw, lw `suffix_of` txt /\ word_ends lw /\ a = at_ lw.
Definition zeroed (m m' : ram) : Prop := same_off ends m m' /\ forall a, byte_at m a = 0 -> byte_at m' a = 0.

Lemma zeroed_refl m : zeroed m m.
Proof using placed. split; [apply same_off_refl|done]. Qed.
Lemma zeroed_trans m1 m2 m3 : zeroed m1 m2 -> zeroed m2 m3 -> zeroed m1 m3.
Proof using placed. intros [S1 Z1] [S2 Z2]. split; [|auto]. eapply same_off_trans; [exact S1|exact S2|]. tauto. Qed.
Lemma slice_ends q e w : slice q e w -> ends e.
Proof using placed. intros (lw & Hs & _ & -> & _ & _ & He). exists lw. split_and!; try done. etransitivity; [by exists w|exact Hs]. Qed.
Lemma zeroed_poke m e : ends e -> zeroed m (poke 1 m e 0) /\ byte_at (poke 1 m e 0) e = 0.
Proof using placed.
  intros He. split; [split|]; [|intros a Ha; rewrite byte_at_poke1; by case_decide|rewrite byte_at_poke1; by rewrite decide_True].
  apply (same_off_weaken _ _ _ _ (same_off_poke 1 m e 0)). intros x Hx. by replace x with e by lia.
Qed.

(** The characters of words are kept. *)
Lemma slice_byte q e w i c : slice q e w -> w !! i = Some c -> ~ ends (q + Z.of_nat i).
Proof using placed.
  intros (lw & [p Hs] & -> & _ & _ & Hw & _) Hi (lw' & [p' Hs'] & He & Ea). pose proof (lookup_lt_Some _ _ _ Hi) as Hlt.
  assert (txt !! (length p + i)%nat = Some c) as H1.
  { rewrite Hs, lookup_app_r by lia. replace (length p + i - length p)%nat with i by lia. by rewrite lookup_app_l. }
  assert (length p' = length p + i)%nat as El.
  { apply (f_equal length) in Hs, Hs'. rewrite !length_app in *. unfold ShellLex.at_ in Ea. rewrite length_app in Ea. lia. }
  rewrite <- El, Hs', lookup_app_r, Nat.sub_diag in H1 by lia. destruct lw' as [|d lw']; [done|]. cbn in H1. injection H1 as ->.
  rewrite Forall_lookup in Hw. specialize (Hw _ _ Hi). unfold is_word in Hw. cbn in He. congruence.
Qed.
Lemma slice_str m m' q e w : text es m txt -> slice q e w -> zeroed m m' -> byte_at m' e = 0 -> str_in m' q w.
Proof using placed.
  intros Ht Hsl [So _] He. destruct (Hsl) as (lw & Hs & Eq & Ee & _). pose proof (text_suffix _ _ _ _ Ht Hs) as ([T1 _] & T2 & T3).
  pose proof So as (Sl & Sh & Sb). rewrite <- Eq in *. rewrite length_app in T3. split_and!; [split|by rewrite Sl|rewrite Sh; lia].
  - intros i c Hi. rewrite Sb by (by eapply slice_byte). apply T1. by apply lookup_app_l_Some.
  - rewrite <- He. f_equal. rewrite Eq, Ee. unfold ShellLex.at_. rewrite length_app. lia.
Qed.

(** ** [nulterminate] on a tree *)

Section Nul.
Context (s0 : ust) (live : gmap Z Z) (Hh : hp s0 live) (Ht : text es (u_mem s0) txt).

(** Blocks are not part of the line. *)
Lemma zeroed_peek m m' y n k a :
  zeroed m m' -> own live y n -> y <= a -> a + Z.of_nat k <= y + n -> peek k m' a = peek k m a.
Proof using Hh placed.
  intros [So _] Ho H1 H2. pose proof (own_range _ _ _ _ _ _ _ Hh Ho). destruct placed as (_ & Hes & _).
  apply (same_off_peek _ _ _ _ _ So). intros x Hx (lw & _ & _ & ->). unfold ShellLex.at_ in *. lia.
Qed.

(** All strings of the tree end. *)
Fixpoint ended (m : ram) (c : command) (x : Z) : Prop :=
  match c with
  | CExec ws => forall i, (i < length ws)%nat -> byte_at m (peek 8 m (e_eargv x (Z.of_nat i))) = 0
  | CRedir c _ _ _ => byte_at m (peek 8 m (r_efile x)) = 0 /\ ended m c (peek 8 m (r_cmd x))
  | CPipe l r | CList l r => ended m l (peek 8 m (p_left x)) /\ ended m r (peek 8 m (p_right x))
  | CBack c => ended m c (peek 8 m (b_cmd x))
  end.
Lemma rep_zeroed m m' c x : zeroed m m' -> rep m live c x -> rep m' live c x.
Proof using Hh placed. intros Hz. apply rep_keep; [done|]. intros y n k a. by eapply zeroed_peek. Qed.
Lemma ended_zeroed m m' c x : zeroed m m' -> rep m live c x -> ended m c x -> ended m' c x.
Proof using Hh placed.
  intros Hz. assert (forall y n k a, own live y n -> y <= a -> a + Z.of_nat k <= y + n -> peek k m' a = peek k m a) as Hpk.
  { intros y n k a. by eapply zeroed_peek. }
  destruct Hz as [_ Hz]. revert x. induction c as [ws|c IH f mode fd|l IHl r IHr|l IHl r IHr|c IH]; intros x; cbn [ShellParse.rep ended].
  - intros (ss & ([Ho _] & Hlen & _) & _ & HF) He i Hi. apply Forall2_length in HF. specialize (He i Hi). unfold e_eargv in *.
    rewrite (Hpk _ _ _ _ Ho) by lia. auto.
  - intros (sub & (q & e & ((Ho & _) & E1 & _ & E3 & _) & _) & Hc) [H1 H2]. unfold r_efile, r_cmd in *.
    rewrite !(Hpk _ _ _ _ Ho) by lia. rewrite E1 in *. auto.
  - intros (a & b & ((Ho & _) & E1 & E2) & Hl & Hr) [H1 H2]. unfold p_left, p_right in *. rewrite !(Hpk _ _ _ _ Ho) by lia. rewrite E1, E2 in *. auto.
  - intros (a & b & ((Ho & _) & E1 & E2) & Hl & Hr) [H1 H2]. unfold p_left, p_right in *. rewrite !(Hpk _ _ _ _ Ho) by lia. rewrite E1, E2 in *. auto.
  - intros (a & ((Ho & _) & E1) & Hc) H1. unfold b_cmd in *. rewrite !(Hpk _ _ _ _ Ho) by lia. rewrite E1 in *. auto.
Qed.

(** Where blocks and strings are. *)
Definition ranged (m : ram) : Prop := ram_lo m = ram_lo (u_mem s0) /\ ram_hi m = ram_hi (u_mem s0).
Lemma ranged_zeroed m m' : zeroed m m' -> ranged m -> ranged m'.
Proof using. intros [(E1 & E2 & _) _] [H1 H2]. split; congruence. Qed.
Lemma ends_in m e : ranged m -> ends e -> ram_lo m <= e /\ e + 1 <= ram_hi m.
Proof using Ht.
  intros [-> ->] (lw & Hs & _ & ->). destruct (text_suffix _ _ _ _ Ht Hs) as (_ & ? & ?). lia.
Qed.

Lemma nulterminate_args_ok x ss ws : forall d n j m,
  (d = length ss - j)%nat -> (j <= length ss)%nat -> (d < n)%nat -> ranged m -> exec_at m live x ss ->
  peek 8 m (e_argv x (Z.of_nat (length ss))) = 0 -> Forall2 (fun s w => slice s.1 s.2 w) ss ws ->
  exists m', nulterminate_args n x (Z.of_nat j) m = Ok (tt, m') /\ zeroed m m' /\
    forall i q e, ss !! i = Some (q, e) -> (j <= i)%nat -> byte_at m' e = 0.
Proof using Hh Ht placed.
  induction d as [|d IH]; intros n j m Hd Hj Hn Hm He H0 HF; (destruct n as [|n]; [lia|]); cbn [nulterminate_args];
    destruct (He) as ([Ho _] & Hl & Hss); pose proof (own_range _ _ _ _ _ _ _ Hh Ho) as Hr; destruct (Hm) as [Hm1 Hm2];
    erewrite bind_ok by (apply ld64_ok; unfold e_argv; bk).
  - replace j with (length ss) by lia. rewrite H0. cbn [Z.eqb]. exists m. split_and!; [done|apply zeroed_refl|].
    intros i q e Hi%lookup_lt_Some Hle. lia.
  - destruct (lookup_lt_is_Some_2 ss j) as [[q e] Hqe]; [lia|]. destruct (Hss _ _ _ Hqe) as [E1 E2].
    destruct (Forall2_lookup_l _ _ _ _ _ HF Hqe) as (w & _ & Hsl). cbn [fst snd] in Hsl.
    pose proof (slice_range _ _ _ _ _ placed _ _ _ Hsl) as Hrg.
    rewrite E1, (proj2 (Z.eqb_neq q 0)) by lia. erewrite bind_ok by (apply ld64_ok; unfold e_eargv; bk). rewrite E2.
    pose proof (ends_in m e Hm (slice_ends _ _ _ Hsl)) as Hein. erewrite bind_ok by (apply st8_ok; bk).
    destruct (zeroed_poke m e (slice_ends _ _ _ Hsl)) as [Hz Hb]. set (m1 := poke 1 m e 0) in *.
    replace (Z.of_nat j + 1) with (Z.of_nat (S j)) by lia.
    destruct (IH n (S j) m1) as (m' & E' & Hz' & Hb'); [lia..|by eapply ranged_zeroed| | |done|].
    + eapply exec_keep; [done| |exact He]. intros y k i a. by apply zeroed_peek.
    + rewrite <- H0. eapply zeroed_peek; [exact Hz|exact Ho|unfold e_argv; lia..].
    + exists m'. split_and!; [done|by eapply zeroed_trans|]. intros i q' e' Hi Hle. destruct (decide (i = j)) as [->|].
      * rewrite Hqe in Hi. injection Hi as <- <-. by apply Hz'.
      * apply (Hb' i q' e' Hi). lia.
Qed.

(** A node with two subtrees. *)
Lemma nulterminate_pair k x m type a b l r :
  (type = PIPE \/ type = LIST) -> ranged m -> pair_at m live x type a b -> rep m live l a -> rep m live r b ->
  (exists m1, nulterminate k a m = Ok (tt, m1) /\ zeroed m m1 /\ ended m1 l a) ->
  (forall m1, ranged m1 -> rep m1 live r b -> exists m2, nulterminate k b m1 = Ok (tt, m2) /\ zeroed m1 m2 /\ ended m2 r b) ->
  exists m', nulterminate (S k) x m = Ok (tt, m') /\ zeroed m m' /\ ended m' l (peek 8 m' (p_left x)) /\ ended m' r (peek 8 m' (p_right x)).
Proof using Hh Ht placed.
  intros Hty Hm ((Ho & Ety) & E1 & E2) Hl Hr (m1 & Er & Hz1 & He1) HR. pose proof (own_range _ _ _ _ _ _ _ Hh Ho) as Hrg.
  destruct (Hm) as [Hm1 Hm2]. cbn [nulterminate]. rewrite (proj2 (Z.eqb_neq x 0)) by lia. unfold c_type, p_left, p_right in *.
  erewrite bind_ok by (apply ld32_ok; bk). rewrite Ety.
  assert ((type =? EXEC) = false /\ (type =? REDIR) = false /\ (type =? PIPE) || (type =? LIST) = true) as (-> & -> & ->) by (by destruct Hty as [-> | ->]).
  erewrite bind_ok by (apply ld64_ok; bk). rewrite E1, (bind_ok _ _ _ _ _ Er).
  pose proof (ranged_zeroed _ _ Hz1 Hm) as Hm'. destruct (Hm') as [Hm1' Hm2']. erewrite bind_ok by (apply ld64_ok; bk).
  rewrite (zeroed_peek m m1 x 24 8 (x + 16) Hz1 Ho) by lia. rewrite E2.
  destruct (HR m1 Hm' (rep_zeroed _ _ _ _ Hz1 Hr)) as (m2 & Er2 & Hz2 & He2). pose proof (zeroed_trans _ _ _ Hz1 Hz2) as Hz.
  exists m2. rewrite !(zeroed_peek m _ x 24 8 _ Hz Ho) by lia. rewrite E1, E2. split_and!; [done|done| |done].
  eapply ended_zeroed; [exact Hz2|by eapply rep_zeroed|done].
Qed.

Lemma nulterminate_ok c : forall k x m, (depth c <= k)%nat -> ranged m -> rep m live c x ->
  exists m', nulterminate k x m = Ok (tt, m') /\ zeroed m m' /\ ended m' c x.
Proof using Hh Ht placed.
  induction c as [ws|c IH f mode fd|l IHl r IHr|l IHl r IHr|c IH]; intros k x m Hk Hm Hr; cbn [depth] in Hk;
    (destruct k as [|k]; [lia|]); pose proof (ptr_range _ _ _ _ _ _ Hh (rep_own _ _ _ _ _ _ Hr)) as Hx;
    cbn [ShellParse.rep] in Hr; destruct (Hm) as [Hm1 Hm2].
  3,4: destruct Hr as (a & b & Hp & Hl & Hr); (eapply nulterminate_pair; [|done|exact Hp|exact Hl|exact Hr| |]; [by auto|by apply IHl; [lia|..]|intros m1 Hm1' Hr1; by apply IHr; [lia|..]]).
  all: cbn [nulterminate]; rewrite (proj2 (Z.eqb_neq x 0)) by lia.
  - destruct Hr as (ss & He & H0 & HF). destruct (He) as ([Ho Ety] & Hl & Hss). pose proof (own_range _ _ _ _ _ _ _ Hh Ho) as Hrg.
    erewrite bind_ok by (apply ld32_ok; unfold c_type; bk). unfold c_type. rewrite Ety. cbn [Z.eqb EXEC Pos.eqb].
    destruct (nulterminate_args_ok x ss ws (length ss) (S (Z.to_nat MAXARGS)) 0 m) as (m' & E' & Hz & Hb); [lia|lia|unfold MAXARGS; lia|done..|].
    exists m'. split_and!; [done|done|]. cbn [ended]. intros i Hi. rewrite <- (Forall2_length _ _ _ HF) in Hi.
    destruct (lookup_lt_is_Some_2 ss i Hi) as [[q e] Hqe]. destruct (Hss _ _ _ Hqe) as [_ E2]. unfold e_eargv in *.
    rewrite (zeroed_peek m m' x 168 8 _ Hz Ho) by lia. rewrite E2. apply (Hb i q e Hqe). lia.
  - destruct Hr as (sub & (q & e & ((Ho & Ety) & E1 & E2 & E3 & _) & Hsl & _) & Hc). pose proof (own_range _ _ _ _ _ _ _ Hh Ho) as Hrg.
    unfold c_type, r_cmd, r_file, r_efile in *. erewrite bind_ok by (apply ld32_ok; bk). rewrite Ety. cbn [Z.eqb EXEC REDIR Pos.eqb].
    erewrite bind_ok by (apply ld64_ok; bk). cbn [fst snd] in *. rewrite E1.
    destruct (IH k sub m ltac:(lia) Hm Hc) as (m1 & Er & Hz1 & He1). rewrite (bind_ok _ _ _ _ _ Er).
    pose proof (ranged_zeroed _ _ Hz1 Hm) as Hm'. destruct (Hm') as [Hm1' Hm2']. erewrite bind_ok by (apply ld64_ok; bk).
    rewrite (zeroed_peek m m1 x 40 8 (x + 24) Hz1 Ho) by lia. rewrite E3. pose proof (ends_in m1 e Hm' (slice_ends _ _ _ Hsl)) as Hein.
    destruct (zeroed_poke m1 e (slice_ends _ _ _ Hsl)) as [Hz2 Hb]. pose proof (zeroed_trans _ _ _ Hz1 Hz2) as Hz.
    exists (poke 1 m1 e 0). split_and!; [apply st8_ok; bk|done|]. cbn [ended]. unfold r_efile, r_cmd.
    rewrite !(zeroed_peek m _ x 40 8 _ Hz Ho) by lia. rewrite E1, E3. split; [done|].
    eapply ended_zeroed; [exact Hz2|by eapply rep_zeroed|done].
  - destruct Hr as (a & ((Ho & Ety) & E1) & Hc). pose proof (own_range _ _ _ _ _ _ _ Hh Ho) as Hrg. unfold c_type, b_cmd in *.
    erewrite bind_ok by (apply ld32_ok; bk). rewrite Ety. cbn [Z.eqb EXEC REDIR PIPE LIST BACK Pos.eqb orb].
    erewrite bind_ok by (apply ld64_ok; bk). rewrite E1. destruct (IH k a m ltac:(lia) Hm Hc) as (m1 & Er & Hz1 & He1).
    exists m1. split_and!; [done|done|]. cbn [ended]. unfold b_cmd. by rewrite (zeroed_peek m m1 x 16 8 _ Hz1 Ho), E1 by lia.
Qed.

(** A tree whose strings end is a tree for [runcmd]. *)
Lemma rep_cmd_in m c x : zeroed (u_mem s0) m -> ranged m -> rep m live c x -> ended m c x -> cmd_in m c x.
Proof using Hh Ht placed.
  intros Hz Hm. assert (forall y n ty, node_at m live y n ty -> node_in m y n ty) as Hnode.
  { intros y n ty [Ho Ety]. destruct Hm as [Hm1 Hm2]. pose proof (own_range _ _ _ _ _ _ _ Hh Ho). split_and!; [lia..|done]. }
  assert (forall q e w, slice q e w -> byte_at m e = 0 -> 0 < q /\ str_in m q w) as Hstr.
  { intros q e w Hsl He. split; [pose proof (slice_range _ _ _ _ _ placed _ _ _ Hsl); lia|]. by eapply slice_str. }
  revert x. induction c as [ws|c IH f mode fd|l IHl r IHr|l IHl r IHr|c IH]; intros x; cbn [ShellParse.rep ended cmd_in].
  - intros (ss & (Hn & Hl & Hss) & H0 & HF) He. pose proof (Forall2_length _ _ _ HF) as Hlen.
    split; [by apply Hnode|]. split; [lia|]. exists (fst <$> ss). split.
    + split; [|by rewrite length_fmap]. intros i p Hi. rewrite list_lookup_fmap in Hi. destruct (ss !! i) as [[q e]|] eqn:E; [|done].
      injection Hi as <-. by apply (Hss i q e).
    + apply Forall2_fmap_l. apply Forall2_same_length_lookup_2; [done|]. intros i [q e] w Hi Hw.
      pose proof (Forall2_lookup_lr _ _ _ _ _ _ HF Hi Hw) as Hsl. destruct (Hss _ _ _ Hi) as [_ E2]. apply (Hstr _ _ _ Hsl). cbn [snd].
      rewrite <- E2. apply He. by apply lookup_lt_Some in Hw.
  - intros (sub & (q & e & (Hn & E1 & E2 & E3 & E4 & E5) & Hsl & Hfd & Hmode) & Hc) [H1 H2]. cbn [fst snd] in *. rewrite E1, E2.
    rewrite E3 in H1. rewrite E1 in H2. destruct Hmode. split_and!; try done; [by apply Hnode|by apply (Hstr q e)|by apply IH].
  - intros (a & b & (Hn & E1 & E2) & Hl & Hr) [H1 H2]. rewrite E1, E2 in *. split_and!; [by apply Hnode|auto..].
  - intros (a & b & (Hn & E1 & E2) & Hl & Hr) [H1 H2]. rewrite E1, E2 in *. split_and!; [by apply Hnode|auto..].
  - intros (a & (Hn & E1) & Hc) H1. rewrite E1 in *. split; [by apply Hnode|auto].
Qed.
End Nul.

(** ** [parsecmd] *)

Lemma parsecmd_left_ok s live ts c :
  hp s live -> text es (u_mem s) txt -> lexes txt ts -> derives NLine ts c -> Z.of_nat (length txt) < 2 ^ 31 ->
  brk (u_os s) + 65536 * nodes c <= lim ->
  exists x s', parsecmd_left base freep (at_ txt) s = Ok ((x, None), s') /\ cmd_in (u_mem s') c x.
Proof using room placed.
  intros Hh Ht Hx Hd Hlen Hr. destruct s as [m o]. cbn [u_mem u_os] in *. unfold parsecmd_left.
  rewrite (bind_ok _ _ _ _ _ (onmem_at _ _ _ _ _ (strlen_ok _ _ _ Ht Hlen))).
  replace (at_ txt + Z.of_nat (length txt)) with es by (unfold ShellLex.at_; lia).
  assert (Z.to_nat (es - at_ txt) = length txt) as Ek by (unfold ShellLex.at_; lia).
  destruct (parse_derives _ _ _ _ room _ _ placed _ _ _ Hd (parse_fuel (at_ txt) es) (Ust _ m o) live txt [] (conj Hh Ht)) as
    (x & s1 & live1 & l1 & E1 & V1 & R1 & Hl1 & Hx1 & _); [done|by rewrite app_nil_r|by left|unfold parse_fuel; cbn [fuel]; unfold fuel; lia|done|].
  cbn [parse] in E1. rewrite (bind_ok _ _ _ _ _ E1). pose proof (pst_evolves _ _ _ _ _ placed _ _ _ _ _ (conj Hh Ht) V1) as [Hh1 Ht1].
  destruct (on_peek _ _ _ _ _ s1 live1 l1 [] [] false (conj Hh1 Ht1) Hl1 Hx1) as (Ep & Hl2 & Hx2 & _); [set_solver|done|].
  rewrite (bind_ok _ _ _ _ _ Ep). assert (trim l1 = []) as ->.
  { pose proof (trim_first _ _ Hx1) as Hf. destruct (trim l1); [done|]. by destruct Hf. }
  replace (at_ []) with es by (unfold ShellLex.at_; cbn; lia). rewrite Z.eqb_refl. cbn [negb]. destruct s1 as [m1 o1]. cbn [u_mem] in *.
  destruct (nulterminate_ok (Ust _ m1 o1) live1 Hh1 Ht1 c (parse_fuel (at_ txt) es) x m1) as (m2 & E2 & Hz & He); [|done|done|].
  { pose proof (derives_depth _ _ _ Hd). pose proof (lexes_length _ _ Hx). unfold parse_fuel. lia. }
  rewrite (bind_ok _ _ _ _ _ (onmem_at _ _ _ _ _ E2)). exists x, (Ust _ m2 o1). split; [done|]. cbn [u_mem].
  eapply (rep_cmd_in (Ust _ m1 o1) live1); [done|done|done|by eapply ranged_zeroed|by eapply rep_zeroed|done].
Qed.
End Shell.

(** ** Command lines *)

(** The line [txt] is at [buf], in static data other than the variables of the
    allocator. *)
Definition line_at (base freep hlo buf : Z) (txt : list Z) (m : ram) : Prop :=
  str_in m buf txt /\ 0 < buf /\ buf + Z.of_nat (length txt) < hlo /\ hlo < 2 ^ 35 /\
  (buf + Z.of_nat (length txt) < base \/ base + 16 <= buf) /\ (buf + Z.of_nat (length txt) < freep \/ freep + 8 <= buf).

Section Line.
Context `{OS : Os} `{B : !Brk} (base freep hlo lim : Z).
Hypothesis room : forall o, brk o + 65536 <= lim -> exists o', os_sbrk 65536 o = (true, o').

Lemma parsecmd_line s live buf txt ts c :
  hp base freep hlo s live -> line_at base freep hlo buf txt (u_mem s) -> Z.of_nat (length txt) < 2 ^ 31 ->
  lexes txt ts -> derives NLine ts c -> brk (u_os s) + 65536 * nodes c <= lim ->
  exists x s', parsecmd_left base freep buf s = Ok ((x, None), s') /\ cmd_in (u_mem s') c x.
Proof using room.
  intros Hh (Ht & H1 & H2 & H3 & H4 & H5) Hlen Hx Hd Hr. set (es := buf + Z.of_nat (length txt)).
  assert (at_ es txt = buf) as Ea by (unfold at_, es; lia).
  destruct (parsecmd_left_ok base freep hlo lim room es txt) with (s := s) (live := live) (ts := ts) (c := c) as (x & s' & E & Hc); try done.
  - rewrite Ea. split_and!; [done|done|done|]. intros a Ha. unfold es in *. lia.
  - unfold text. by rewrite Ea.
  - rewrite Ea in E. eauto.
Qed.

(** C8. The parser of the shell is complete for its grammar.  If the line
    consists of tokens, with any white space between them, that the grammar
    derives for the command [c], [parsecmd] returns, and the pointer it returns
    is the root of the tree of [c] in memory, every string of it terminated. *)
Theorem sh_parse_correct s live buf txt ts c :
  hp base freep hlo s live -> line_at base freep hlo buf txt (u_mem s) -> Z.of_nat (length txt) < 2 ^ 31 ->
  lexes txt ts -> derives NLine ts c -> brk (u_os s) + 65536 * nodes c <= lim ->
  exists x s', parsecmd base freep buf s = Ok (x, s') /\ cmd_in (u_mem s') c x.
Proof using room.
  intros Hh Hl Hlen Hx Hd Hr. destruct (parsecmd_line s live buf txt ts c Hh Hl Hlen Hx Hd Hr) as (x & s' & E & Hc).
  exists x, s'. unfold parsecmd. by rewrite (bind_ok _ _ _ _ _ E).
Qed.

(** C7. The child that the shell forks for a line runs the command of the line:
    parsing and [runcmd] start exactly the programs of the command, each with
    its arguments and with standard input and output connected by the pipes
    and redirections around it, and no other file open. *)
Theorem sh_line_correct s live buf txt ts c n i o e :
  hp base freep hlo s live -> line_at base freep hlo buf txt (u_mem s) -> (length txt < 100)%nat ->
  lexes txt ts -> derives NLine ts c -> brk (u_os s) + 65536 * nodes c <= lim ->
  starts (child_prog base freep buf s) n (stdio i o e) = Some (plumbed c n i o e).
Proof using room.
  intros Hh Hl Hlen Hx Hd Hr. destruct (parsecmd_line s live buf txt ts c Hh Hl ltac:(lia) Hx Hd Hr) as (x & s' & E & Hc).
  unfold child_prog. rewrite E. apply runcmd_ok; [done|]. pose proof (derives_depth _ _ _ Hd). pose proof (lexes_length _ _ Hx).
  unfold parse_fuel. lia.
Qed.
End Line.

(** ** An example *)

(** A system with 1 GB for the process. *)
#[local] Instance sh_os : Os := {
  os_t := Z;
  os_read _ _ o := (-1, [], o); os_write _ _ o := (-1, o); os_open _ _ o := (-1, o); os_close _ o := (-1, o);
  os_fstat _ o := (-1, [], o); os_sbrk n o := if o + n <=? 2 ^ 30 then (true, o + n) else (false, o)
}.
#[local, refine] Instance sh_brk : Brk (OS := sh_os) := { brk o := o }.
Proof.
  - intros k o o'. cbn. case_cmp; intros [= <-]. split; [done|lia].
  - intros k o o'. cbn. case_cmp; intros [= <-]. done.
Defined.

Definition ex_line : list Z := chars "ls -l| (wc >out; x) &" ++ [ch_nl].
Definition ex_tokens : list token :=
  [TWord (chars "ls"); TWord (chars "-l"); TSym (ch "|"); TSym (ch "("); TWord (chars "wc"); TSym (ch ">"); TWord (chars "out");
   TSym (ch ";"); TWord (chars "x"); TSym (ch ")"); TSym (ch "&")].
Definition ex_command : command :=
  CBack (CPipe (CExec [chars "ls"; chars "-l"])
    (CList (CRedir (CExec [chars "wc"]) (chars "out") 1537 1) (CExec [chars "x"]))).

Lemma ex_lexes : lexes ex_line ex_tokens.
Proof.
  apply (lex_word [] (chars "ls")); [by repeat constructor|done|by repeat constructor|done|].
  apply (lex_word [32] (chars "-l")); [by repeat constructor|done|by repeat constructor|done|].
  apply (lex_single []); [by repeat constructor|by left|].
  apply (lex_single [32]); [by repeat constructor|by right; left|].
  apply (lex_word [] (chars "wc")); [by repeat constructor|done|by repeat constructor|done|].
  apply (lex_gt [32]); [by repeat constructor|done|].
  apply (lex_word [] (chars "out")); [by repeat constructor|done|by repeat constructor|done|].
  apply (lex_single []); [by repeat constructor|by do 3 right; left|].
  apply (lex_word [32] (chars "x")); [by repeat constructor|done|by repeat constructor|done|].
  apply (lex_single []); [by repeat constructor|by do 2 right; left|].
  apply (lex_single [32]); [by repeat constructor|by do 4 right; left|].
  apply lex_end. by repeat constructor.
Qed.

Lemma ex_derives : derives NLine ex_tokens ex_command.
Proof.
  apply (g_line 1 _ _ (g_pipe [TWord (chars "ls"); TWord (chars "-l")] _ _ _
    (g_exec [] [] _ [chars "ls"; chars "-l"] [] ro_nil
      (wo_cons (chars "ls") [] [] _ _ _ ro_nil (wo_cons (chars "-l") [] [] _ _ _ ro_nil wo_nil)) ltac:(cbn; lia))
    (g_pipe1 _ _ (g_block _ _ [] [] (g_list 0 _ _ _ _
      (g_pipe1 _ _ (g_exec [] [] _ [chars "wc"] _ ro_nil
        (wo_cons (chars "wc") _ [(chars "out", 1537, 1)] [] [] []
          (ro_cons (ch ">") _ _ (chars "out") [] [] eq_refl ro_nil) wo_nil) ltac:(cbn; lia)))
      (g_line 0 _ _ (g_pipe1 _ _ (g_exec [] [] _ [chars "x"] [] ro_nil
        (wo_cons (chars "x") [] [] _ _ _ ro_nil wo_nil) ltac:(cbn; lia))))) ro_nil)))).
Qed.

Definition ex_sh : ust := Ust sh_os (wrbytes (Ram 0 4096 ∅) 1000 (ex_line ++ [0])) 4096.

Lemma ex_hp : hp (OS := sh_os) 64 80 2048 ex_sh ∅.
Proof.
  split; [|done]. exists [(64, 0)]. right. split_and!; try done; try (cbn [ram_lo ram_hi ex_sh u_mem]; lia).
Qed.
Lemma ex_line_at : line_at 64 80 2048 1000 ex_line (u_mem ex_sh).
Proof.
  split_and!; [|vm_compute; done|vm_compute; done|vm_compute; done|right; vm_compute; done|right; vm_compute; done].
  split_and!; [split|vm_compute; done|vm_compute; done]; [|vm_compute; done]. intros i c Hi.
  do 22 (destruct i as [|i]; [by injection Hi as <-|]). done.
Qed.

Lemma sh_parse_correct_witness : exists x s', parsecmd 64 80 1000 ex_sh = Ok (x, s') /\ cmd_in (u_mem s') ex_command x.
Proof.
  apply (sh_parse_correct (OS := sh_os) 64 80 2048 (2 ^ 30)) with (live := ∅) (txt := ex_line) (ts := ex_tokens).
  - intros o Ho. exists (o + 65536). cbn in *. by rewrite (proj2 (Z.leb_le _ _)) by lia.
  - exact ex_hp.
  - exact ex_line_at.
  - vm_compute. done.
  - exact ex_lexes.
  - exact ex_derives.
  - vm_compute. done.
Defined.

Lemma sh_line_correct_witness :
  starts (child_prog 64 80 1000 ex_sh) 0 (stdio (OTerm 0) (OTerm 1) (OTerm 2)) =
  Some ([(chars "ls", [chars "ls"; chars "-l"], stdio (OTerm 0) (OPipeW 0) (OTerm 2));
         (chars "wc", [chars "wc"], stdio (OPipeR 0) (OFile (chars "out") 1537) (OTerm 2));
         (chars "x", [chars "x"], stdio (OPipeR 0) (OTerm 1) (OTerm 2))], 1%nat).
Proof.
  apply (sh_line_correct (OS := sh_os) 64 80 2048 (2 ^ 30)) with (live := ∅) (txt := ex_line) (ts := ex_tokens) (c := ex_command).
  - intros o Ho. exists (o + 65536). cbn in *. by rewrite (proj2 (Z.leb_le _ _)) by lia.
  - exact ex_hp.
  - exact ex_line_at.
  - vm_compute. lia.
  - exact ex_lexes.
  - exact ex_derives.
  - vm_compute. done.
Defined.
