(* ===== verification/Progs.v ===== *)
(** * The small user programs

    echo, cat, wc, ls, kill, ln, mkdir, rm, ps and buddy_info over the system
    calls of [User]; their [main] returns the exit status.  init and zombie
    create processes and are programs of system calls ([prog]). *)

From S2P Require Import Prelude CInt Memory KMonad Blocks User Ulib Shell.

(** The system calls of these programs beyond those of [Os]; paths are strings. *)
Class FsOs `{Os} := {
  os_link : list Z -> list Z -> os_t -> Z * os_t;
  os_unlink : list Z -> os_t -> Z * os_t;
  os_mkdir : list Z -> os_t -> Z * os_t;
  os_kill : Z -> os_t -> Z * os_t;
  os_dummy : os_t -> Z * os_t;
  os_buddy_info : os_t -> Z * list Z * os_t
}.

Section Progs.
Context `{Os}.

(** [write] of a constant string. *)
Definition write_const (fd : Z) (bs : list Z) : U Z := fun s =>
  let '(r, o) := os_write fd bs (u_os s) in Ok (r, s <| u_os := o |>).

(** ** echo.c *)
Fixpoint echo_loop (argv : list Z) : U unit :=
  match argv with
  | [] => ret tt
  | a :: argv =>
      n <- onmem (strlen a) ;;
      write 1 a (i32 n) ;;;
      (if match argv with [] => false | _ => true end then write_const 1 [ch " "] else write_const 1 [ch_nl]) ;;;
      echo_loop argv
  end.
Definition echo_main (argv : list Z) : U Z := echo_loop (tail argv) ;;; ret 0.

(** ** cat.c: [buf] is the buffer of 512 bytes; [Some 1] ends the program *)
Section Cat.
Context (buf : Z).
Definition cat_step (fd : Z) (_ : unit) : U (unit + option Z) :=
  n <- read fd buf 512 ;;
  if 0 <? n then
    r <- write 1 buf n ;;
    if negb (r =? n) then fprintf 2 ("cat: write error" ++ nl) [] ;;; ret (inr (Some 1)) else ret (inl tt)
  else if n <? 0 then fprintf 2 ("cat: read error" ++ nl) [] ;;; ret (inr (Some 1))
  else ret (inr None).
Definition cat (fuel : nat) (fd : Z) : U (option Z) := loop fuel (cat_step fd) tt.
Fixpoint cat_files (fuel : nat) (argv : list Z) : U Z :=
  match argv with
  | [] => ret 0
  | a :: argv =>
      fd <- open a 0 ;;
      if fd <? 0 then fprintf 2 ("cat: cannot open %s" ++ nl) [a] ;;; ret 1
      else
        r <- cat fuel fd ;;
        match r with
        | Some st => ret st
        | None => close fd ;;; cat_files fuel argv
        end
  end.
Definition cat_main (fuel : nat) (argv : list Z) : U Z :=
  match argv with
  | [] | [_] => r <- cat fuel 0 ;; ret (default 0 r)
  | _ :: files => cat_files fuel files
  end.
End Cat.

(** ** wc.c: lines, words, characters and whether the last one is in a word *)
Section Wc.
Context (buf : Z).
Record counts := Counts { wc_l : Z; wc_w : Z; wc_c : Z; wc_inword : bool }.
Definition wc_space : list Z := [ch " "; 13; 9; 10; 11].
Definition wc_char (k : counts) (c : Z) : counts :=
  let l := if c =? ch_nl then i32 (wc_l k + 1) else wc_l k in
  let ch := i32 (wc_c k + 1) in
  if in_str wc_space c then Counts l (wc_w k) ch false
  else if negb (wc_inword k) then Counts l (i32 (wc_w k + 1)) ch true
  else Counts l (wc_w k) ch true.
Fixpoint wc_loop (n : nat) (i : Z) (k : counts) : M ram counts :=
  match n with
  | O => ret k
  | S n => c <- ld8 (buf + i) ;; wc_loop n (i + 1) (wc_char k c)
  end.
Definition wc_step (fd : Z) (k : counts) : U (counts + (counts * bool)) :=
  n <- read fd buf 512 ;;
  if 0 <? n then k <- onmem (wc_loop (Z.to_nat n) 0 k) ;; ret (inl k)
  else ret (inr (k, n <? 0)).
(** [Some 1] ends the program; [name] is the address of a string. *)
Definition wc (fuel : nat) (fd name : Z) : U (option Z) :=
  let* (k, err) := loop fuel (wc_step fd) (Counts 0 0 0 false) in
  if (err : bool) then printf ("wc: read error" ++ nl) [] ;;; ret (Some 1)
  else printf ("%d %d %d %s" ++ nl) [wc_l k; wc_w k; wc_c k; name] ;;; ret None.
Fixpoint wc_files (fuel : nat) (argv : list Z) : U Z :=
  match argv with
  | [] => ret 0
  | a :: argv =>
      fd <- open a 0 ;;
      if fd <? 0 then printf ("wc: cannot open %s" ++ nl) [a] ;;; ret 1
      else
        r <- wc fuel fd a ;;
        match r with
        | Some st => ret st
        | None => close fd ;;; wc_files fuel argv
        end
  end.
(** [empty] is the address of the empty string. *)
Definition wc_main (fuel : nat) (empty : Z) (argv : list Z) : U Z :=
  match argv with
  | [] | [_] => r <- wc fuel 0 empty ;; ret (default 0 r)
  | _ :: files => wc_files fuel files
  end.
End Wc.

(** ** ls.c: [nbuf] is the static buffer of [fmtname], [buf], [de] and [st] are
    the locals of [ls] *)
Section Ls.
Context (nbuf buf de st : Z).
Definition ls_DIRSIZ : Z := 14.
(** Back to the last slash, or to the character before the path. *)
Fixpoint last_slash (k : nat) (path p : Z) : M ram Z :=
  match k with
  | O => diverge
  | S k => if path <=? p then c <- ld8 p ;; if negb (c =? ch "/") then last_slash k path (p - 1) else ret p else ret p
  end.
Definition fmtname (path : Z) : M ram Z :=
  n <- strlen path ;;
  p <- last_slash (S (S (Z.to_nat n))) path (path + n) ;;
  let p := p + 1 in
  n <- strlen p ;;
  if ls_DIRSIZ <=? n then ret p
  else
    memmove nbuf p (i32 n) ;;;
    memset (nbuf + n) (ch " ") (u32 (ls_DIRSIZ - n)) ;;;
    ret nbuf.
Definition ls_line (name : Z) : U unit :=
  type <- onmem (load 2 (st + 8)) ;;
  ino <- onmem (ld32 (st + 4)) ;;
  size <- onmem (ld64 (st + 16)) ;;
  printf ("%s %d %d %d" ++ nl) [name; i16 type; ino; size].
(** One entry of a directory; [p] is where its name goes. *)
Definition ls_entry (fd p : Z) (_ : unit) : U (unit + unit) :=
  n <- read fd de 16 ;;
  if negb (n =? 16) then ret (inr tt)
  else
    inum <- onmem (load 2 de) ;;
    if inum =? 0 then ret (inl tt)
    else
      onmem (memmove p (de + 2) ls_DIRSIZ) ;;;
      onmem (st8 (p + ls_DIRSIZ) 0) ;;;
      r <- stat buf st ;;
      if r <? 0 then printf ("ls: cannot stat %s" ++ nl) [buf] ;;; ret (inl tt)
      else name <- onmem (fmtname buf) ;; ls_line name ;;; ret (inl tt).
Definition ls (fuel : nat) (path : Z) : U unit :=
  fd <- open path 0 ;;
  if fd <? 0 then fprintf 2 ("ls: cannot open %s" ++ nl) [path]
  else
    r <- fstat fd st ;;
    if r <? 0 then fprintf 2 ("ls: cannot stat %s" ++ nl) [path] ;;; close fd ;;; ret tt
    else
      type <- onmem (load 2 (st + 8)) ;;
      (if (type =? 3) || (type =? 2) then
         name <- onmem (fmtname path) ;;
         ino <- onmem (ld32 (st + 4)) ;;
         size <- onmem (ld64 (st + 16)) ;;
         printf ("%s %d %d %l" ++ nl) [name; i16 type; ino; size]
       else if type =? 1 then
         n <- onmem (strlen path) ;;
         if 512 <? u32 (n + 1 + ls_DIRSIZ + 1) then printf ("ls: path too long" ++ nl) []
         else
           onmem (strcpy buf path) ;;;
           n <- onmem (strlen buf) ;;
           onmem (st8 (buf + n) (ch "/")) ;;;
           loop fuel (ls_entry fd (buf + n + 1)) tt
       else ret tt) ;;;
      close fd ;;;
      ret tt.
(** [dot] is the address of the path of the current directory. *)
Definition ls_main (fuel : nat) (dot : Z) (argv : list Z) : U Z :=
  match argv with
  | [] | [_] => ls fuel dot ;;; ret 0
  | _ :: files => (fix go files := match files with [] => ret 0 | f :: files => ls fuel f ;;; go files end) files
  end.
End Ls.
End Progs.

(** ** Programs that make one call for each argument *)

Section Calls.
Context `{FsOs}.

Definition on_path (c : list Z -> os_t -> Z * os_t) (p : Z) : U Z := fun s =>
  match str_at p (u_mem s) with
  | Ok (l, _) => let '(r, o) := c l (u_os s) in Ok (r, s <| u_os := o |>)
  | _ => Ok (-1, s)
  end.
Definition mkdir : Z -> U Z := on_path os_mkdir.
Definition unlink : Z -> U Z := on_path os_unlink.
Definition link (a b : Z) : U Z := fun s =>
  match str_at b (u_mem s) with
  | Ok (l, _) => on_path (fun old => os_link old l) a s
  | _ => Ok (-1, s)
  end.
Definition kill (pid : Z) : U Z := fun s => let '(r, o) := os_kill pid (u_os s) in Ok (r, s <| u_os := o |>).

(** kill.c *)
Fixpoint kill_loop (argv : list Z) : U unit :=
  match argv with
  | [] => ret tt
  | a :: argv => n <- onmem (atoi a) ;; kill n ;;; kill_loop argv
  end.
Definition kill_main (argv : list Z) : U Z :=
  if (length argv <? 2)%nat then fprintf 2 ("usage: kill pid..." ++ nl) [] ;;; ret 1
  else kill_loop (tail argv) ;;; ret 0.

(** ln.c *)
Definition ln_main (argv : list Z) : U Z :=
  match argv with
  | [_; old; new] =>
      r <- link old new ;;
      (if r <? 0 then fprintf 2 ("link %s %s: failed" ++ nl) [old; new] else ret tt) ;;;
      ret 0
  | _ => fprintf 2 ("Usage: ln old new" ++ nl) [] ;;; ret 1
  end.

(** mkdir.c *)
Fixpoint mkdir_loop (argv : list Z) : U unit :=
  match argv with
  | [] => ret tt
  | a :: argv =>
      r <- mkdir a ;;
      if r <? 0 then fprintf 2 ("mkdir: %s failed to create" ++ nl) [a] else mkdir_loop argv
  end.
Definition mkdir_main (argv : list Z) : U Z :=
  if (length argv <? 2)%nat then fprintf 2 ("Usage: mkdir files..." ++ nl) [] ;;; ret 1
  else mkdir_loop (tail argv) ;;; ret 0.

(** rm.c *)
Fixpoint rm_loop (argv : list Z) : U unit :=
  match argv with
  | [] => ret tt
  | a :: argv =>
      r <- unlink a ;;
      if r <? 0 then fprintf 2 ("rm: %s failed to delete" ++ nl) [a] else rm_loop argv
  end.
Definition rm_main (argv : list Z) : U Z :=
  if (length argv <? 2)%nat then fprintf 2 ("Usage: rm files..." ++ nl) [] ;;; ret 1
  else rm_loop (tail argv) ;;; ret 0.

(** ps.c *)
Definition ps_main : U Z :=
  r <- (fun s => let '(r, o) := os_dummy (u_os s) in Ok (r, s <| u_os := o |>)) ;;
  printf ("aaaa %d" ++ nl) [r] ;;;
  ret 0.

(** buddy_info.c: [info] is the address of the [struct buddy_info] *)
Definition LEVELS : Z := 10.
Definition buddy_info_main (info : Z) : U Z :=
  r <- (fun s =>
    let '(r, bs, o) := os_buddy_info (u_os s) in
    if backed (u_mem s) info (length bs) then Ok (r, Ust _ (wrbytes (u_mem s) info bs) o)
    else Ok (-1, s <| u_os := o |>)) ;;
  (if negb (r =? 0) then printf ("buddy info: kernel error" ++ nl) [] else ret tt) ;;;
  total <- onmem (ld64 info) ;;
  free <- onmem (ld64 (info + 8)) ;;
  printf ("buddy_info:" ++ nl ++ "  total=%d," ++ nl ++ "  free=%d," ++ nl ++ "  free_by_size={") [total; free] ;;;
  for_each (Z.to_nat LEVELS) 0 (fun i =>
    n <- onmem (ld64 (info + 16 + 8 * i)) ;;
    printf "%d" [n] ;;;
    if negb (i =? LEVELS - 1) then printf "," [] else ret tt) ;;;
  printf ("}" ++ nl) [] ;;;
  ret 0.
End Calls.

(** ** init.c and zombie.c *)

(** The inner loop of [main] waits for the shell [pid] and then starts it
    again; [k] bounds the calls of [wait] and [fork]. *)
Fixpoint init_wait (k : nat) (pid : Z) (again : prog) : prog :=
  match k with
  | O => Crash
  | S k => Wait (fun wpid =>
      if wpid =? pid then again
      else if wpid <? 0 then prints 1 (chars ("init: wait returned an error" ++ nl)) (Exit 1)
      else init_wait k pid again)
  end.
Fixpoint init_loop (j k : nat) : prog :=
  match j with
  | O => Crash
  | S j =>
      prints 1 (chars ("init: starting sh" ++ nl))
        (Fork (fun pid =>
          if pid <? 0 then prints 1 (chars ("init: fork failed" ++ nl)) (Exit 1)
          else if pid =? 0 then
            Exec (chars "sh") [chars "sh"] (fun _ => prints 1 (chars ("init: exec sh failed" ++ nl)) (Exit 1))
          else init_wait k pid (init_loop j k)))
  end.
Definition init_main (j k : nat) : prog :=
  let rest := Dup 0 (fun _ => Dup 0 (fun _ => init_loop j k)) in
  Open (chars "console") O_RDWR (fun fd =>
    if fd <? 0 then Mknod (chars "console") 1 0 (fun _ => Open (chars "console") O_RDWR (fun _ => rest))
    else rest).

Definition zombie_main : prog := Fork (fun pid => if 0 <? pid then Sleep 5 (fun _ => Exit 0) else Exit 0).
