(* ===== verification/UTest.v ===== *)
(** * System calls for programs of several processes

    The test programs fork, wait, exec and exit anywhere, so they need more
    calls than [User] has and a way to leave the program.  A definition follows
    one process: after [fork] it is the parent or the child, as the system's
    reply says, and [exit] or a successful [exec] ends it ([ending]).  A load or
    store outside the address space is a [Fault], for which the kernel kills
    the process. *)

From S2P Require Import Prelude CInt Memory KMonad Blocks User Ulib Umalloc Shell Progs.

Inductive ending := Exited (status : Z) | Replaced.

(** The calls beyond those of [FsOs]. *)
Class TestOs `{FsOs} := {
  os_fork : os_t -> Z * os_t;
  (** the process and its status *)
  os_wait : os_t -> Z * Z * os_t;
  (** the result and the two descriptors *)
  os_pipe : os_t -> Z * (Z * Z) * os_t;
  (** whether the program was replaced *)
  os_exec : list Z -> list (list Z) -> os_t -> bool * os_t;
  os_chdir : list Z -> os_t -> Z * os_t;
  os_dup : Z -> os_t -> Z * os_t;
  os_getpid : os_t -> Z * os_t;
  os_sleep : Z -> os_t -> Z * os_t
}.

(** What compiler and linker fix: where the constant strings, the global arrays
    and the local and the static arrays of a function are; [junk] is the value of a variable
    that was not set, [turns] bounds the loops that only the system ends. *)
Class Image := {
  lit : string -> Z;
  buf : Z;
  uninit : Z;
  locals : Z;
  statics : Z;
  a_base : Z;
  a_freep : Z;
  r_sp : Z;
  junk : Z;
  turns : nat
}.

Infix ".|" := Z.lor (at level 50, left associativity) : Z_scope.

Declare Scope proc_scope.
Delimit Scope proc_scope with proc.

Section Monad.
Context `{Os}.

(** A step of a process, or its end. *)
Definition X (A : Type) : Type := U (A + ending).
Definition xret {A} (a : A) : X A := ret (inl a).
Definition xbind {A B} (c : X A) (k : A -> X B) : X B :=
  r <- c ;;
  match r with
  | inl a => k a
  | inr e => ret (inr e)
  end.
Definition lift {A} (c : U A) : X A := a <- c ;; ret (inl a).
Definition exit {A} (status : Z) : X A := ret (inr (Exited (i32 status))).
End Monad.

Notation "x <- c ;; k" := (xbind c (fun x => k))
  (at level 100, c at next level, right associativity) : proc_scope.
Notation "'let*' p := c 'in' k" := (xbind c (fun x => match x with p => k end))
  (at level 100, p pattern, c at next level, right associativity) : proc_scope.
Notation "c ;;; k" := (xbind c (fun _ => k))
  (at level 100, right associativity) : proc_scope.

Section Control.
Context `{Os}.
Local Open Scope proc_scope.

Definition endl (s : string) : string := s ++ nl.
Definition when (b : bool) (c : X unit) : X unit := if b then c else xret tt.

(** [for(i = ...; n times; i++)], and with [break] ([Some a]). *)
Fixpoint for_n (n : nat) (i : Z) (body : Z -> X unit) : X unit :=
  match n with
  | O => xret tt
  | S n => body i ;;; for_n n (i + 1) body
  end.
Fixpoint for_brk {A} (n : nat) (i : Z) (body : Z -> X (option A)) : X (option A) :=
  match n with
  | O => xret None
  | S n =>
      r <- body i ;;
      match r with
      | Some a => xret (Some a)
      | None => for_brk n (i + 1) body
      end
  end.
(** The same with variables: the body yields their next values ([inl]) or leaves
    the loop with a result. *)
Fixpoint for_to {A B} (n : nat) (i : Z) (body : Z -> A -> X (A + B)) (a : A) : X (A + B) :=
  match n with
  | O => xret (inl a)
  | S n =>
      r <- body i a ;;
      match r with
      | inl a => for_to n (i + 1) body a
      | inr b => xret (inr b)
      end
  end.
Fixpoint for_st {A} (n : nat) (i : Z) (body : Z -> A -> X A) (a : A) : X A :=
  match n with
  | O => xret a
  | S n => a <- body i a ;; for_st n (i + 1) body a
  end.
Fixpoint each {A} (l : list A) (body : A -> X unit) : X unit :=
  match l with
  | [] => xret tt
  | a :: l => body a ;;; each l body
  end.
(** A loop whose body yields its next variables or a result. *)
Fixpoint while {A B} (k : nat) (body : A -> X (A + B)) (a : A) : X B :=
  match k with
  | O => lift diverge
  | S k =>
      r <- body a ;;
      match r with
      | inl a => while k body a
      | inr b => xret b
      end
  end.

Definition mem_ {A} (c : M ram A) : X A := lift (onmem c).
Definition printf (fmt : string) (ap : list Z) : X unit := lift (Ulib.printf fmt ap).
Definition fprintf (fd : Z) (fmt : string) (ap : list Z) : X unit := lift (Ulib.fprintf fd fmt ap).
(** The check that ends a test. *)
Definition fail_if (b : bool) (fmt : string) (ap : list Z) : X unit := when b (printf fmt ap ;;; exit 1).
Definition read (fd a n : Z) : X Z := lift (User.read fd a n).
(** [read(fd, &c, 1)] *)
Definition read_c (fd : Z) : X (Z * Z) := lift (read1 fd).
Definition write (fd a n : Z) : X Z := lift (User.write fd a n).
Definition open (path mode : Z) : X Z := lift (Ulib.open path mode).
Definition close (fd : Z) : X Z := lift (Ulib.close fd).
Definition fstat (fd st : Z) : X Z := lift (Ulib.fstat fd st).
(** The result as the unsigned pointer that it is cast to. *)
Definition sbrk (n : Z) : X Z := lift (bind (User.sbrk (i32 n)) (fun r => ret (u64 r))).
Definition st8x (a v : Z) : X unit := mem_ (st8 a v).
Definition ld8x (a : Z) : X Z := mem_ (ld8 a).
Definition memset (a c n : Z) : X unit := mem_ (Ulib.memset a c n) ;;; xret tt.
Definition strcmp (p q : Z) : X Z := mem_ (Ulib.strcmp p q).
Definition malloc `{Image} (n : Z) : X Z := lift (Umalloc.malloc a_base a_freep n).
Definition free `{Image} (p : Z) : X unit := mem_ (Umalloc.free a_freep p).
End Control.

Section Calls.
Context `{TestOs}.
Local Open Scope proc_scope.

Definition call {A} (c : os_t -> A * os_t) : X A := fun s => let '(r, o) := c (u_os s) in Ok (inl r, s <| u_os := o |>).
Definition link (a b : Z) : X Z := lift (Progs.link a b).
Definition unlink (p : Z) : X Z := lift (Progs.unlink p).
Definition mkdir (p : Z) : X Z := lift (Progs.mkdir p).
Definition chdir (p : Z) : X Z := lift (on_path os_chdir p).
Definition kill (pid : Z) : X Z := lift (Progs.kill pid).
Definition fork : X Z := call os_fork.
Definition dup (fd : Z) : X Z := call (os_dup fd).
Definition getpid : X Z := call os_getpid.
Definition sleep (n : Z) : X Z := call (os_sleep n).
(** [wait(0)], and [wait(&st)] of a variable that holds [st]. *)
Definition wait0 : X Z := r <- call os_wait ;; xret r.1.
Definition wait (st : Z) : X (Z * Z) := r <- call os_wait ;; xret (r.1, if r.1 <? 0 then st else i32 r.2).
(** [pipe(fds)] of a local array, and of any address. *)
Definition pipe : X (Z * Z * Z) := let* (r, (p0, p1)) := call os_pipe in xret (r, p0, p1).
Definition pipe_at (a : Z) : X Z := fun s =>
  let '(r, (p0, p1), o) := os_pipe (u_os s) in
  if r <? 0 then Ok (inl r, s <| u_os := o |>)
  else if backed (u_mem s) a 8 then
    match (bind (st32 a p0) (fun _ => st32 (a + 4) p1)) (u_mem s) with
    | Ok (_, m) => Ok (inl r, Ust _ m o)
    | _ => Ok (inl (-1), s <| u_os := o |>)
    end
  else Ok (inl (-1), s <| u_os := o |>).

(** [exec(path, argv)], [argv] the strings before the null pointer. *)
Fixpoint strs_at (l : list Z) : M ram (list (list Z)) :=
  match l with
  | [] => ret []
  | a :: l => bind (str_at a) (fun x => bind (strs_at l) (fun xs => ret (x :: xs)))
  end.
Definition exec (path : Z) (argv : list Z) : X Z := fun s =>
  match str_at path (u_mem s), strs_at argv (u_mem s) with
  | Ok (p, _), Ok (l, _) =>
      let '(gone, o) := os_exec p l (u_os s) in
      Ok (if (gone : bool) then inr Replaced else inl (-1), s <| u_os := o |>)
  | _, _ => Ok (inl (-1), s)
  end.
End Calls.
