(* ===== verification/Usertests.v ===== *)
(** * usertests (user/usertests.c)

    The test functions in the order of the source and the driver that runs
    each of them in a process of its own; [s] is the address of the name of the
    test.  A definition with a longer name than a function of the source is a
    part of the function that its name starts with. *)

From S2P Require Import Prelude CInt Memory KMonad Blocks Vm Riscv KState User Ulib Umalloc Shell Progs UTest.

Section Tests.
Context `{TestOs} `{Image}.
Local Open Scope proc_scope.

Definition BUFSZ : Z := (MAXOPBLOCKS + 2) * BSIZE.
Definition minus1 : Z := 0xffffffffffffffff.
(** The wild pointers of the first tests. *)
Definition addrs : list Z := [0x80000000; 0xffffffffffffffff].

Definition copyin (s : Z) : X unit :=
  each addrs (fun addr =>
    fd <- open (lit "copyin1") (O_CREATE .| O_WRONLY) ;;
    fail_if (fd <? 0) (endl "open(copyin1) failed") [] ;;;
    n <- write fd addr 8192 ;;
    fail_if (0 <=? n) (endl "write(fd, %p, 8192) returned %d, not -1") [addr; n] ;;;
    close fd ;;;
    unlink (lit "copyin1") ;;;
    n <- write 1 addr 8192 ;;
    fail_if (0 <? n) (endl "write(1, %p, 8192) returned %d, not -1 or 0") [addr; n] ;;;
    let* (r, p0, p1) := pipe in
    fail_if (r <? 0) (endl "pipe() failed") [] ;;;
    n <- write p1 addr 8192 ;;
    fail_if (0 <? n) (endl "write(pipe, %p, 8192) returned %d, not -1 or 0") [addr; n] ;;;
    close p0 ;;;
    close p1 ;;;
    xret tt).

Definition copyout (s : Z) : X unit :=
  each addrs (fun addr =>
    fd <- open (lit "README") 0 ;;
    fail_if (fd <? 0) (endl "open(README) failed") [] ;;;
    n <- read fd addr 8192 ;;
    fail_if (0 <? n) (endl "read(fd, %p, 8192) returned %d, not -1 or 0") [addr; n] ;;;
    close fd ;;;
    let* (r, p0, p1) := pipe in
    fail_if (r <? 0) (endl "pipe() failed") [] ;;;
    n <- write p1 (lit "x") 1 ;;
    fail_if (negb (n =? 1)) (endl "pipe write failed") [] ;;;
    n <- read p0 addr 8192 ;;
    fail_if (0 <? n) (endl "read(pipe, %p, 8192) returned %d, not -1 or 0") [addr; n] ;;;
    close p0 ;;;
    close p1 ;;;
    xret tt).

Definition copyinstr1 (s : Z) : X unit :=
  each addrs (fun addr =>
    fd <- open addr (O_CREATE .| O_WRONLY) ;;
    fail_if (0 <=? fd) (endl "open(%p) returned %d, not -1") [addr; fd]).

(** The calls with a bad path that [copyinstr2] and [copyinstr3] share: unlink,
    open, link and exec of the string at [b]. *)
Definition bad_path (b : Z) : X Z :=
  ret <- unlink b ;;
  fail_if (negb (ret =? -1)) (endl "unlink(%s) returned %d, not -1") [b; ret] ;;;
  fd <- open b (O_CREATE .| O_WRONLY) ;;
  fail_if (negb (fd =? -1)) (endl "open(%s) returned %d, not -1") [b; fd] ;;;
  ret <- link b b ;;
  fail_if (negb (ret =? -1)) (endl "link(%s, %s) returned %d, not -1") [b; b; ret] ;;;
  ret <- exec b [lit "xx"] ;;
  fail_if (negb (ret =? -1)) (endl "exec(%s) returned %d, not -1") [b; fd] ;;;
  xret fd.

Definition copyinstr2 (s : Z) : X unit :=
  let b := locals in
  for_n (Z.to_nat MAXPATH) 0 (fun i => st8x (b + i) (ch "x")) ;;;
  st8x (b + MAXPATH) 0 ;;;
  fd <- bad_path b ;;
  pid <- fork ;;
  fail_if (pid <? 0) (endl "fork failed") [] ;;;
  when (pid =? 0) (
    let big := statics in
    for_n (Z.to_nat PGSIZE) 0 (fun i => st8x (big + i) (ch "x")) ;;;
    st8x (big + PGSIZE) 0 ;;;
    ret <- exec (lit "echo") [big; big; big] ;;
    fail_if (negb (ret =? -1)) (endl "exec(echo, BIG) returned %d, not -1") [fd] ;;;
    exit 747) ;;;
  let* (_, st) := wait 0 in
  fail_if (negb (st =? 747)) (endl "exec(echo, BIG) succeeded, should have failed") [].

Definition copyinstr3 (s : Z) : X unit :=
  sbrk 8192 ;;;
  top <- sbrk 0 ;;
  when (negb (top mod PGSIZE =? 0)) (sbrk (PGSIZE - top mod PGSIZE) ;;; xret tt) ;;;
  top <- sbrk 0 ;;
  fail_if (negb (top mod PGSIZE =? 0)) (endl "oops") [] ;;;
  let b := top - 1 in
  st8x b (ch "x") ;;;
  bad_path b ;;;
  xret tt.

Definition rwsbrk (s : Z) : X unit :=
  a <- sbrk 8192 ;;
  fail_if (a =? minus1) (endl "sbrk(rwsbrk) failed") [] ;;;
  r <- sbrk (-8192) ;;
  fail_if (r =? minus1) (endl "sbrk(rwsbrk) shrink failed") [] ;;;
  fd <- open (lit "rwsbrk") (O_CREATE .| O_WRONLY) ;;
  fail_if (fd <? 0) (endl "open(rwsbrk) failed") [] ;;;
  n <- write fd (a + 4096) 1024 ;;
  fail_if (0 <=? n) (endl "write(fd, %p, 1024) returned %d, not -1") [a + 4096; n] ;;;
  close fd ;;;
  unlink (lit "rwsbrk") ;;;
  fd <- open (lit "README") O_RDONLY ;;
  fail_if (fd <? 0) (endl "open(rwsbrk) failed") [] ;;;
  n <- read fd (a + 4096) 10 ;;
  fail_if (0 <=? n) (endl "read(fd, %p, 10) returned %d, not -1") [a + 4096; n] ;;;
  close fd ;;;
  exit 0.

(** ** Files *)

Definition truncate1 (s : Z) : X unit :=
  let buf := locals in
  unlink (lit "truncfile") ;;;
  fd1 <- open (lit "truncfile") (O_CREATE .| O_WRONLY .| O_TRUNC) ;;
  write fd1 (lit "abcd") 4 ;;;
  close fd1 ;;;
  fd2 <- open (lit "truncfile") O_RDONLY ;;
  n <- read fd2 buf 32 ;;
  fail_if (negb (n =? 4)) (endl "%s: read %d bytes, wanted 4") [s; n] ;;;
  fd1 <- open (lit "truncfile") (O_WRONLY .| O_TRUNC) ;;
  fd3 <- open (lit "truncfile") O_RDONLY ;;
  n <- read fd3 buf 32 ;;
  when (negb (n =? 0)) (
    printf (endl "aaa fd3=%d") [fd3] ;;;
    printf (endl "%s: read %d bytes, wanted 0") [s; n] ;;;
    exit 1) ;;;
  n <- read fd2 buf 32 ;;
  when (negb (n =? 0)) (
    printf (endl "bbb fd2=%d") [fd2] ;;;
    printf (endl "%s: read %d bytes, wanted 0") [s; n] ;;;
    exit 1) ;;;
  write fd1 (lit "abcdef") 6 ;;;
  n <- read fd3 buf 32 ;;
  fail_if (negb (n =? 6)) (endl "%s: read %d bytes, wanted 6") [s; n] ;;;
  n <- read fd2 buf 32 ;;
  fail_if (negb (n =? 2)) (endl "%s: read %d bytes, wanted 2") [s; n] ;;;
  unlink (lit "truncfile") ;;;
  close fd1 ;;;
  close fd2 ;;;
  close fd3 ;;;
  xret tt.

Definition truncate2 (s : Z) : X unit :=
  unlink (lit "truncfile") ;;;
  fd1 <- open (lit "truncfile") (O_CREATE .| O_TRUNC .| O_WRONLY) ;;
  write fd1 (lit "abcd") 4 ;;;
  fd2 <- open (lit "truncfile") (O_TRUNC .| O_WRONLY) ;;
  n <- write fd1 (lit "x") 1 ;;
  fail_if (negb (n =? -1)) (endl "%s: write returned %d, expected -1") [s; n] ;;;
  unlink (lit "truncfile") ;;;
  close fd1 ;;;
  close fd2 ;;;
  xret tt.

Definition truncate3 (s : Z) : X unit :=
  fd <- open (lit "truncfile") (O_CREATE .| O_TRUNC .| O_WRONLY) ;;
  close fd ;;;
  pid <- fork ;;
  fail_if (pid <? 0) (endl "%s: fork failed") [s] ;;;
  when (pid =? 0) (
    for_n 100 0 (fun i =>
      fd <- open (lit "truncfile") O_WRONLY ;;
      fail_if (fd <? 0) (endl "%s: open failed") [s] ;;;
      n <- write fd (lit "1234567890") 10 ;;
      fail_if (negb (n =? 10)) (endl "%s: write got %d, expected 10") [s; n] ;;;
      close fd ;;;
      fd <- open (lit "truncfile") O_RDONLY ;;
      read fd locals 32 ;;;
      close fd ;;;
      xret tt) ;;;
    exit 0) ;;;
  for_n 150 0 (fun i =>
    fd <- open (lit "truncfile") (O_CREATE .| O_WRONLY .| O_TRUNC) ;;
    fail_if (fd <? 0) (endl "%s: open failed") [s] ;;;
    n <- write fd (lit "xxx") 3 ;;
    fail_if (negb (n =? 3)) (endl "%s: write got %d, expected 3") [s; n] ;;;
    close fd ;;;
    xret tt) ;;;
  let* (_, xstatus) := wait junk in
  unlink (lit "truncfile") ;;;
  exit xstatus.

Definition iputtest (s : Z) : X unit :=
  r <- mkdir (lit "iputdir") ;;
  fail_if (r <? 0) (endl "%s: mkdir failed") [s] ;;;
  r <- chdir (lit "iputdir") ;;
  fail_if (r <? 0) (endl "%s: chdir iputdir failed") [s] ;;;
  r <- unlink (lit "../iputdir") ;;
  fail_if (r <? 0) (endl "%s: unlink ../iputdir failed") [s] ;;;
  r <- chdir (lit "/") ;;
  fail_if (r <? 0) (endl "%s: chdir / failed") [s].

Definition exitiputtest (s : Z) : X unit :=
  pid <- fork ;;
  fail_if (pid <? 0) (endl "%s: fork failed") [s] ;;;
  when (pid =? 0) (
    r <- mkdir (lit "iputdir") ;;
    fail_if (r <? 0) (endl "%s: mkdir failed") [s] ;;;
    r <- chdir (lit "iputdir") ;;
    fail_if (r <? 0) (endl "%s: child chdir failed") [s] ;;;
    r <- unlink (lit "../iputdir") ;;
    fail_if (r <? 0) (endl "%s: unlink ../iputdir failed") [s] ;;;
    exit 0) ;;;
  let* (_, xstatus) := wait junk in
  exit xstatus.

Definition openiputtest (s : Z) : X unit :=
  r <- mkdir (lit "oidir") ;;
  fail_if (r <? 0) (endl "%s: mkdir oidir failed") [s] ;;;
  pid <- fork ;;
  fail_if (pid <? 0) (endl "%s: fork failed") [s] ;;;
  when (pid =? 0) (
    fd <- open (lit "oidir") O_RDWR ;;
    fail_if (0 <=? fd) (endl "%s: open directory for write succeeded") [s] ;;;
    exit 0) ;;;
  sleep 1 ;;;
  r <- unlink (lit "oidir") ;;
  fail_if (negb (r =? 0)) (endl "%s: unlink failed") [s] ;;;
  let* (_, xstatus) := wait junk in
  exit xstatus.

Definition opentest (s : Z) : X unit :=
  fd <- open (lit "echo") 0 ;;
  fail_if (fd <? 0) (endl "%s: open echo failed!") [s] ;;;
  close fd ;;;
  fd <- open (lit "doesnotexist") 0 ;;
  fail_if (0 <=? fd) (endl "%s: open doesnotexist succeeded!") [s].

Definition writetest (s : Z) : X unit :=
  let N := 100 in let SZ := 10 in
  fd <- open (lit "small") (O_CREATE .| O_RDWR) ;;
  fail_if (fd <? 0) (endl "%s: error: creat small failed!") [s] ;;;
  for_n (Z.to_nat N) 0 (fun i =>
    r <- write fd (lit "aaaaaaaaaa") SZ ;;
    fail_if (negb (r =? SZ)) (endl "%s: error: write aa %d new file failed") [s; i] ;;;
    r <- write fd (lit "bbbbbbbbbb") SZ ;;
    fail_if (negb (r =? SZ)) (endl "%s: error: write bb %d new file failed") [s; i]) ;;;
  close fd ;;;
  fd <- open (lit "small") O_RDONLY ;;
  fail_if (fd <? 0) (endl "%s: error: open small failed!") [s] ;;;
  i <- read fd buf (N * SZ * 2) ;;
  fail_if (negb (i =? N * SZ * 2)) (endl "%s: read failed") [s] ;;;
  close fd ;;;
  r <- unlink (lit "small") ;;
  fail_if (r <? 0) (endl "%s: unlink small failed") [s].

Definition writebig (s : Z) : X unit :=
  fd <- open (lit "big") (O_CREATE .| O_RDWR) ;;
  fail_if (fd <? 0) (endl "%s: error: creat big failed!") [s] ;;;
  for_n (Z.to_nat MAXFILE) 0 (fun i =>
    mem_ (st32 buf i) ;;;
    r <- write fd buf BSIZE ;;
    fail_if (negb (r =? BSIZE)) (endl "%s: error: write big file failed") [s; i]) ;;;
  close fd ;;;
  fd <- open (lit "big") O_RDONLY ;;
  fail_if (fd <? 0) (endl "%s: error: open big failed!") [s] ;;;
  while turns (fun n =>
    i <- read fd buf BSIZE ;;
    if i =? 0 then
      fail_if (n =? MAXFILE - 1) "%s: read only %d blocks from big" [s; n] ;;;
      xret (inr tt)
    else
      fail_if (negb (i =? BSIZE)) (endl "%s: read failed %d") [s; i] ;;;
      v <- mem_ (ld32 buf) ;;
      fail_if (negb (i32 v =? n)) (endl "%s: read content of block %d is %d") [s; n; i32 v] ;;;
      xret (inl (n + 1))) 0 ;;;
  close fd ;;;
  r <- unlink (lit "big") ;;
  fail_if (r <? 0) (endl "%s: unlink big failed") [s].

Definition createtest (s : Z) : X unit :=
  let N := 52%nat in let name := locals in
  st8x name (ch "a") ;;;
  st8x (name + 2) 0 ;;;
  for_n N 0 (fun i =>
    st8x (name + 1) (ch "0" + i) ;;;
    fd <- open name (O_CREATE .| O_RDWR) ;;
    close fd ;;;
    xret tt) ;;;
  st8x name (ch "a") ;;;
  st8x (name + 2) 0 ;;;
  for_n N 0 (fun i =>
    st8x (name + 1) (ch "0" + i) ;;;
    unlink name ;;;
    xret tt).

Definition dirtest (s : Z) : X unit :=
  r <- mkdir (lit "dir0") ;;
  fail_if (r <? 0) (endl "%s: mkdir failed") [s] ;;;
  r <- chdir (lit "dir0") ;;
  fail_if (r <? 0) (endl "%s: chdir dir0 failed") [s] ;;;
  r <- chdir (lit "..") ;;
  fail_if (r <? 0) (endl "%s: chdir .. failed") [s] ;;;
  r <- unlink (lit "dir0") ;;
  fail_if (r <? 0) (endl "%s: unlink dir0 failed") [s].

Definition exectest (s : Z) : X unit :=
  let buf := locals in
  unlink (lit "echo-ok") ;;;
  pid <- fork ;;
  fail_if (pid <? 0) (endl "%s: fork failed") [s] ;;;
  when (pid =? 0) (
    close 1 ;;;
    fd <- open (lit "echo-ok") (O_CREATE .| O_WRONLY) ;;
    fail_if (fd <? 0) (endl "%s: create failed") [s] ;;;
    fail_if (negb (fd =? 1)) (endl "%s: wrong fd") [s] ;;;
    r <- exec (lit "echo") [lit "echo"; lit "OK"] ;;
    fail_if (r <? 0) (endl "%s: exec echo failed") [s]) ;;;
  let* (w, xstatus) := wait junk in
  when (negb (w =? pid)) (printf (endl "%s: wait failed!") [s]) ;;;
  when (negb (xstatus =? 0)) (exit xstatus) ;;;
  fd <- open (lit "echo-ok") O_RDONLY ;;
  fail_if (fd <? 0) (endl "%s: open failed") [s] ;;;
  r <- read fd buf 2 ;;
  fail_if (negb (r =? 2)) (endl "%s: read failed") [s] ;;;
  unlink (lit "echo-ok") ;;;
  c0 <- ld8x buf ;;
  c1 <- ld8x (buf + 1) ;;
  if (c0 =? ch "O") && (c1 =? ch "K") then exit 0
  else
    printf (endl "%s: wrong output") [s] ;;;
    exit 1.

(** ** Processes *)

(** The parent's loop: the next value, the count to ask for and the total;
    [None] when a byte is wrong. *)
Definition pipe1_read (s p0 : Z) : X (option Z) :=
  while turns (fun '(seq, cc, total) =>
    n <- read p0 buf cc ;;
    if 0 <? n then
      r <- for_to (Z.to_nat n) 0 (fun i seq =>
        c <- ld8x (buf + i) ;;
        if negb (Z.land c 255 =? Z.land seq 255) then
          printf (endl "%s: pipe1 oops 2") [s] ;;;
          xret (inr tt)
        else xret (inl (seq + 1))) seq ;;
      match r with
      | inr _ => xret (inr None)
      | inl seq =>
          let cc := if BUFSZ <? cc * 2 then BUFSZ else cc * 2 in
          xret (inl (seq, cc, total + n))
      end
    else xret (inr (Some total))) (0, 1, 0).

Definition pipe1 (s : Z) : X unit :=
  let N := 5 in let SZ := 1033 in
  let* (r, p0, p1) := pipe in
  fail_if (negb (r =? 0)) (endl "%s: pipe() failed") [s] ;;;
  pid <- fork ;;
  if pid =? 0 then
    close p0 ;;;
    for_st (Z.to_nat N) 0 (fun n seq =>
      seq <- for_st (Z.to_nat SZ) 0 (fun i seq => st8x (buf + i) seq ;;; xret (seq + 1)) seq ;;
      r <- write p1 buf SZ ;;
      fail_if (negb (r =? SZ)) (endl "%s: pipe1 oops 1") [s] ;;;
      xret seq) 0 ;;;
    exit 0
  else if 0 <? pid then
    close p1 ;;;
    r <- pipe1_read s p0 ;;
    match r with
    | None => xret tt
    | Some total =>
        fail_if (negb (total =? N * SZ)) (endl "%s: pipe1 oops 3 total %d") [total] ;;;
        close p0 ;;;
        let* (_, xstatus) := wait junk in
        exit xstatus
    end
  else
    printf (endl "%s: fork() failed") [s] ;;;
    exit 1.

Definition killstatus (s : Z) : X unit :=
  for_st 100 0 (fun i xst =>
    pid1 <- fork ;;
    fail_if (pid1 <? 0) (endl "%s: fork failed") [s] ;;;
    when (pid1 =? 0) (
      while turns (fun _ => getpid ;;; xret (inl (B := unit) tt)) tt ;;;
      exit 0) ;;;
    sleep 1 ;;;
    kill pid1 ;;;
    let* (_, xst) := wait xst in
    fail_if (negb (xst =? -1)) (endl "%s: status should be -1") [s] ;;;
    xret xst) junk ;;;
  exit 0.

Definition preempt (s : Z) : X unit :=
  pid1 <- fork ;;
  fail_if (pid1 <? 0) "%s: fork failed" [s] ;;;
  when (pid1 =? 0) (lift diverge) ;;;
  pid2 <- fork ;;
  fail_if (pid2 <? 0) (endl "%s: fork failed") [s] ;;;
  when (pid2 =? 0) (lift diverge) ;;;
  let* (_, p0, p1) := pipe in
  pid3 <- fork ;;
  fail_if (pid3 <? 0) (endl "%s: fork failed") [s] ;;;
  when (pid3 =? 0) (
    close p0 ;;;
    r <- write p1 (lit "x") 1 ;;
    when (negb (r =? 1)) (printf "%s: preempt write error" [s]) ;;;
    close p1 ;;;
    lift diverge) ;;;
  close p1 ;;;
  r <- read p0 buf BUFSZ ;;
  if negb (r =? 1) then printf "%s: preempt read error" [s]
  else
    close p0 ;;;
    printf "kill... " [] ;;;
    kill pid1 ;;;
    kill pid2 ;;;
    kill pid3 ;;;
    printf "wait... " [] ;;;
    wait0 ;;;
    wait0 ;;;
    wait0 ;;;
    xret tt.

Definition exitwait (s : Z) : X unit :=
  for_n 100 0 (fun i =>
    pid <- fork ;;
    fail_if (pid <? 0) (endl "%s: fork failed") [s] ;;;
    if negb (pid =? 0) then
      let* (w, xstate) := wait junk in
      fail_if (negb (w =? pid)) (endl "%s: wait wrong pid") [s] ;;;
      fail_if (negb (i =? xstate)) (endl "%s: wait wrong exit status") [s]
    else exit i).

Definition reparent (s : Z) : X unit :=
  master_pid <- getpid ;;
  for_n 200 0 (fun i =>
    pid <- fork ;;
    fail_if (pid <? 0) (endl "%s: fork failed") [s] ;;;
    if negb (pid =? 0) then
      w <- wait0 ;;
      fail_if (negb (w =? pid)) (endl "%s: wait wrong pid") [s]
    else
      pid2 <- fork ;;
      when (pid2 <? 0) (kill master_pid ;;; exit 1) ;;;
      exit 0) ;;;
  exit 0.

Definition twochildren (s : Z) : X unit :=
  for_n 1000 0 (fun i =>
    pid1 <- fork ;;
    fail_if (pid1 <? 0) (endl "%s: fork failed") [s] ;;;
    if pid1 =? 0 then exit 0
    else
      pid2 <- fork ;;
      fail_if (pid2 <? 0) (endl "%s: fork failed") [s] ;;;
      if pid2 =? 0 then exit 0
      else
        wait0 ;;;
        wait0 ;;;
        xret tt).

Definition forkfork (s : Z) : X unit :=
  let N := 2%nat in
  for_n N 0 (fun i =>
    pid <- fork ;;
    fail_if (pid <? 0) "%s: fork failed" [s] ;;;
    when (pid =? 0) (
      for_n 200 0 (fun j =>
        pid1 <- fork ;;
        when (pid1 <? 0) (exit 1) ;;;
        when (pid1 =? 0) (exit 0) ;;;
        wait0 ;;;
        xret tt) ;;;
      exit 0)) ;;;
  for_st N 0 (fun i xstatus =>
    let* (_, xstatus) := wait xstatus in
    fail_if (negb (xstatus =? 0)) "%s: fork in child failed" [s] ;;;
    xret xstatus) junk ;;;
  xret tt.

Definition forkforkfork (s : Z) : X unit :=
  unlink (lit "stopforking") ;;;
  pid <- fork ;;
  fail_if (pid <? 0) "%s: fork failed" [s] ;;;
  when (pid =? 0) (
    while turns (fun _ =>
      fd <- open (lit "stopforking") 0 ;;
      when (0 <=? fd) (exit 0) ;;;
      r <- fork ;;
      when (r <? 0) (
        fd <- open (lit "stopforking") (O_CREATE .| O_RDWR) ;;
        close fd ;;;
        xret tt) ;;;
      xret (inl (B := unit) tt)) tt ;;;
    exit 0) ;;;
  sleep 20 ;;;
  fd <- open (lit "stopforking") (O_CREATE .| O_RDWR) ;;
  close fd ;;;
  wait0 ;;;
  sleep 10 ;;;
  xret tt.

Definition reparent2 (s : Z) : X unit :=
  for_n 800 0 (fun i =>
    pid1 <- fork ;;
    fail_if (pid1 <? 0) (endl "fork failed") [] ;;;
    when (pid1 =? 0) (
      fork ;;;
      fork ;;;
      exit 0) ;;;
    wait0 ;;;
    xret tt) ;;;
  exit 0.

Definition mem (s : Z) : X unit :=
  pid <- fork ;;
  if pid =? 0 then
    m1 <- while turns (fun m1 =>
      m2 <- malloc 10001 ;;
      if negb (m2 =? 0) then mem_ (st64 m2 m1) ;;; xret (inl m2) else xret (inr m1)) 0 ;;
    while turns (fun m1 =>
      if negb (m1 =? 0) then
        m2 <- mem_ (ld64 m1) ;;
        free m1 ;;;
        xret (inl m2)
      else xret (inr tt)) m1 ;;;
    m1 <- malloc (1024 * 20) ;;
    fail_if (m1 =? 0) (endl "couldn't allocate mem?!!") [s] ;;;
    free m1 ;;;
    exit 0
  else
    let* (_, xstatus) := wait junk in
    when (xstatus =? -1) (exit 0) ;;;
    exit xstatus.

(** The number of c and of p in what the descriptor delivers. *)
Definition sharedfd_read (buf fd SZ : Z) : X (Z * Z) :=
  while turns (fun '(nc, np) =>
    n <- read fd buf SZ ;;
    if 0 <? n then
      k <- for_st (Z.to_nat SZ) 0 (fun i '(nc, np) =>
        c <- ld8x (buf + i) ;;
        xret (if c =? ch "c" then nc + 1 else nc, if c =? ch "p" then np + 1 else np)) (nc, np) ;;
      xret (inl k)
    else xret (inr (nc, np))) (0, 0).

Definition sharedfd (s : Z) : X unit :=
  let N := 1000 in let SZ := 10 in let buf := locals in
  unlink (lit "sharedfd") ;;;
  fd <- open (lit "sharedfd") (O_CREATE .| O_RDWR) ;;
  fail_if (fd <? 0) "%s: cannot open sharedfd for writing" [s] ;;;
  pid <- fork ;;
  memset buf (if pid =? 0 then ch "c" else ch "p") SZ ;;;
  for_n (Z.to_nat N) 0 (fun i =>
    r <- write fd buf SZ ;;
    fail_if (negb (r =? SZ)) (endl "%s: write sharedfd failed") [s]) ;;;
  (if pid =? 0 then exit 0
   else
     let* (_, xstatus) := wait junk in
     when (negb (xstatus =? 0)) (exit xstatus)) ;;;
  close fd ;;;
  fd <- open (lit "sharedfd") 0 ;;
  fail_if (fd <? 0) (endl "%s: cannot open sharedfd for reading") [s] ;;;
  let* (nc, np) := sharedfd_read buf fd SZ in
  close fd ;;;
  unlink (lit "sharedfd") ;;;
  if (nc =? N * SZ) && (np =? N * SZ) then exit 0
  else
    printf (endl "%s: nc/np test fails") [s] ;;;
    exit 1.
End Tests.

(** * usertests: directories and files of several processes (user/usertests.c,
    lines 1148 to 1954) *)

Section Tests.
Context `{TestOs} `{Image}.
Local Open Scope proc_scope.

(** The child of [fourfiles] for the file [fname], number [pi]. *)
Definition fourfiles_child (s fname pi : Z) : X unit :=
  let N := 12%nat in let SZ := 500 in
  fd <- open fname (O_CREATE .| O_RDWR) ;;
  fail_if (fd <? 0) (endl "create failed") [s] ;;;
  memset buf (ch "0" + pi) SZ ;;;
  for_n N 0 (fun i =>
    n <- write fd buf SZ ;;
    fail_if (negb (n =? SZ)) (endl "write failed %d") [n]) ;;;
  exit 0.

(** The length of file number [i], of which every byte is checked. *)
Definition fourfiles_read (s fd i : Z) : X Z :=
  while turns (fun total =>
    n <- read fd buf BUFSZ ;;
    if 0 <? n then
      for_n (Z.to_nat n) 0 (fun j =>
        c <- ld8x (buf + j) ;;
        fail_if (negb (c =? ch "0" + i)) (endl "wrong char") [s]) ;;;
      xret (inl (total + n))
    else xret (inr total)) 0.

Definition fourfiles (s : Z) : X unit :=
  let names := [lit "f0"; lit "f1"; lit "f2"; lit "f3"] in
  let N := 12 in let NCHILD := 4%nat in let SZ := 500 in
  let name (i : Z) := default 0 (names !! Z.to_nat i) in
  for_n NCHILD 0 (fun pi =>
    unlink (name pi) ;;;
    pid <- fork ;;
    fail_if (pid <? 0) (endl "fork failed") [s] ;;;
    when (pid =? 0) (fourfiles_child s (name pi) pi)) ;;;
  for_st NCHILD 0 (fun pi xstatus =>
    let* (_, xstatus) := wait xstatus in
    when (negb (xstatus =? 0)) (exit xstatus) ;;;
    xret xstatus) junk ;;;
  for_n NCHILD 0 (fun i =>
    fd <- open (name i) 0 ;;
    total <- fourfiles_read s fd i ;;
    close fd ;;;
    fail_if (negb (total =? N * SZ)) (endl "wrong length %d") [total] ;;;
    unlink (name i) ;;;
    xret tt).

Definition createdelete_child (s pi : Z) : X unit :=
  let N := 20%nat in let name := locals in
  st8x name (ch "p" + pi) ;;;
  st8x (name + 2) 0 ;;;
  for_n N 0 (fun i =>
    st8x (name + 1) (ch "0" + i) ;;;
    fd <- open name (O_CREATE .| O_RDWR) ;;
    fail_if (fd <? 0) (endl "%s: create failed") [s] ;;;
    close fd ;;;
    when ((0 <? i) && (i mod 2 =? 0)) (
      st8x (name + 1) (ch "0" + i / 2) ;;;
      r <- unlink name ;;
      fail_if (r <? 0) (endl "%s: unlink failed") [s])) ;;;
  exit 0.

Definition createdelete (s : Z) : X unit :=
  let N := 20 in let NCHILD := 4%nat in let name := locals in
  for_n NCHILD 0 (fun pi =>
    pid <- fork ;;
    fail_if (pid <? 0) (endl "fork failed") [s] ;;;
    when (pid =? 0) (createdelete_child s pi)) ;;;
  for_st NCHILD 0 (fun pi xstatus =>
    let* (_, xstatus) := wait xstatus in
    when (negb (xstatus =? 0)) (exit 1) ;;;
    xret xstatus) junk ;;;
  st8x (name + 2) 0 ;;;
  st8x (name + 1) 0 ;;;
  st8x name 0 ;;;
  for_n (Z.to_nat N) 0 (fun i =>
    for_n NCHILD 0 (fun pi =>
      st8x name (ch "p" + pi) ;;;
      st8x (name + 1) (ch "0" + i) ;;;
      fd <- open name 0 ;;
      (if ((i =? 0) || (N / 2 <=? i)) && (fd <? 0) then
         printf (endl "%s: oops createdelete %s didn't exist") [s; name] ;;; exit 1
       else if ((1 <=? i) && (i <? N / 2)) && (0 <=? fd) then
         printf (endl "%s: oops createdelete %s did exist") [s; name] ;;; exit 1
       else xret tt) ;;;
      when (0 <=? fd) (close fd ;;; xret tt))) ;;;
  for_n (Z.to_nat N) 0 (fun i =>
    for_n NCHILD 0 (fun pi =>
      st8x name (ch "p" + i) ;;;
      st8x (name + 1) (ch "0" + i) ;;;
      unlink name ;;;
      xret tt)).

Definition unlinkread (s : Z) : X unit :=
  let SZ := 5 in
  fd <- open (lit "unlinkread") (O_CREATE .| O_RDWR) ;;
  fail_if (fd <? 0) (endl "%s: create unlinkread failed") [s] ;;;
  write fd (lit "hello") SZ ;;;
  close fd ;;;
  fd <- open (lit "unlinkread") O_RDWR ;;
  fail_if (fd <? 0) (endl "%s: open unlinkread failed") [s] ;;;
  r <- unlink (lit "unlinkread") ;;
  fail_if (negb (r =? 0)) (endl "%s: unlink unlinkread failed") [s] ;;;
  fd1 <- open (lit "unlinkread") (O_CREATE .| O_RDWR) ;;
  write fd1 (lit "yyy") 3 ;;;
  close fd1 ;;;
  r <- read fd buf BUFSZ ;;
  fail_if (negb (r =? SZ)) "%s: unlinkread read failed" [s] ;;;
  c <- ld8x buf ;;
  fail_if (negb (c =? ch "h")) (endl "%s: unlinkread wrong data") [s] ;;;
  r <- write fd buf 10 ;;
  fail_if (negb (r =? 10)) (endl "%s: unlinkread write failed") [s] ;;;
  close fd ;;;
  unlink (lit "unlinkread") ;;;
  xret tt.

Definition linktest (s : Z) : X unit :=
  let SZ := 5 in
  unlink (lit "lf1") ;;;
  unlink (lit "lf2") ;;;
  fd <- open (lit "lf1") (O_CREATE .| O_RDWR) ;;
  fail_if (fd <? 0) (endl "%s: create lf1 failed") [s] ;;;
  r <- write fd (lit "hello") SZ ;;
  fail_if (negb (r =? SZ)) (endl "%s: write lf1 failed") [s] ;;;
  close fd ;;;
  r <- link (lit "lf1") (lit "lf2") ;;
  fail_if (r <? 0) (endl "%s: link lf1 lf2 failed") [s] ;;;
  unlink (lit "lf1") ;;;
  r <- open (lit "lf1") 0 ;;
  fail_if (0 <=? r) (endl "%s: unlinked lf1 but it is still there!") [s] ;;;
  fd <- open (lit "lf2") 0 ;;
  fail_if (fd <? 0) (endl "%s: open lf2 failed") [s] ;;;
  r <- read fd buf BUFSZ ;;
  fail_if (negb (r =? SZ)) (endl "%s: read lf2 failed") [s] ;;;
  close fd ;;;
  r <- link (lit "lf2") (lit "lf2") ;;
  fail_if (0 <=? r) (endl "%s: link lf2 lf2 succeeded! oops") [s] ;;;
  unlink (lit "lf2") ;;;
  r <- link (lit "lf2") (lit "lf1") ;;
  fail_if (0 <=? r) (endl "%s: link non-existent succeeded! oops") [s] ;;;
  r <- link (lit ".") (lit "lf1") ;;
  fail_if (0 <=? r) (endl "%s: link . lf1 succeeded! oops") [s].

(** [concreate] has a file name of 3 bytes, [fa] of 40 and the directory entry
    as its local arrays. *)
Definition cc_file : Z := locals.
Definition cc_fa : Z := locals + 3.
Definition cc_de : Z := locals + 48.
Definition cc_N : Z := 40.

Definition concreate_list (s fd : Z) : X Z :=
  while turns (fun n =>
    r <- read fd cc_de 16 ;;
    if 0 <? r then
      inum <- mem_ (load 2 cc_de) ;;
      if inum =? 0 then xret (inl n)
      else
        let name := cc_de + 2 in
        c0 <- ld8x name ;;
        c2 <- ld8x (name + 2) ;;
        if (c0 =? ch "C") && (c2 =? 0) then
          c1 <- ld8x (name + 1) ;;
          let i := c1 - ch "0" in
          fail_if ((i <? 0) || (cc_N <=? i)) (endl "%s: concreate weird file %s") [s; name] ;;;
          f <- ld8x (cc_fa + i) ;;
          fail_if (negb (f =? 0)) (endl "%s: concreate duplicate file %s") [s; name] ;;;
          st8x (cc_fa + i) 1 ;;;
          xret (inl (n + 1))
        else xret (inl n)
    else xret (inr n)) 0.

Definition concreate (s : Z) : X unit :=
  let file := cc_file in
  st8x file (ch "C") ;;;
  st8x (file + 2) 0 ;;;
  for_n (Z.to_nat cc_N) 0 (fun i =>
    st8x (file + 1) (ch "0" + i) ;;;
    unlink file ;;;
    pid <- fork ;;
    (if negb (pid =? 0) && (i mod 3 =? 1) then link (lit "C0") file ;;; xret tt
     else if (pid =? 0) && (i mod 5 =? 1) then link (lit "C0") file ;;; xret tt
     else
       fd <- open file (O_CREATE .| O_RDWR) ;;
       fail_if (fd <? 0) (endl "concreate create %s failed") [file] ;;;
       close fd ;;;
       xret tt) ;;;
    if pid =? 0 then exit 0
    else
      let* (_, xstatus) := wait junk in
      when (negb (xstatus =? 0)) (exit 1)) ;;;
  memset cc_fa 0 cc_N ;;;
  fd <- open (lit ".") 0 ;;
  n <- concreate_list s fd ;;
  close fd ;;;
  fail_if (negb (n =? cc_N)) (endl "%s: concreate not enough files in directory listing") [s] ;;;
  for_n (Z.to_nat cc_N) 0 (fun i =>
    st8x (file + 1) (ch "0" + i) ;;;
    pid <- fork ;;
    fail_if (pid <? 0) (endl "%s: fork failed") [s] ;;;
    (if ((i mod 3 =? 0) && (pid =? 0)) || ((i mod 3 =? 1) && negb (pid =? 0)) then
       for_n 6 0 (fun _ => fd <- open file 0 ;; close fd ;;; xret tt)
     else for_n 6 0 (fun _ => unlink file ;;; xret tt)) ;;;
    if pid =? 0 then exit 0 else wait0 ;;; xret tt).

Definition linkunlink (s : Z) : X unit :=
  unlink (lit "x") ;;;
  pid <- fork ;;
  fail_if (pid <? 0) (endl "%s: fork failed") [s] ;;;
  for_st 100 0 (fun i x =>
    let x := u32 (x * 1103515245 + 12345) in
    (if x mod 3 =? 0 then fd <- open (lit "x") (O_RDWR .| O_CREATE) ;; close fd
     else if x mod 3 =? 1 then link (lit "cat") (lit "x")
     else unlink (lit "x")) ;;;
    xret x) (if negb (pid =? 0) then 1 else 97) ;;;
  if negb (pid =? 0) then wait0 ;;; xret tt else exit 0.

Definition subdir (s : Z) : X unit :=
  unlink (lit "ff") ;;;
  r <- mkdir (lit "dd") ;;
  fail_if (negb (r =? 0)) (endl "%s: mkdir dd failed") [s] ;;;
  fd <- open (lit "dd/ff") (O_CREATE .| O_RDWR) ;;
  fail_if (fd <? 0) (endl "%s: create dd/ff failed") [s] ;;;
  write fd (lit "ff") 2 ;;;
  close fd ;;;
  r <- unlink (lit "dd") ;;
  fail_if (0 <=? r) (endl "%s: unlink dd (non-empty dir) succeeded!") [s] ;;;
  r <- mkdir (lit "/dd/dd") ;;
  fail_if (negb (r =? 0)) (endl "subdir mkdir dd/dd failed") [s] ;;;
  fd <- open (lit "dd/dd/ff") (O_CREATE .| O_RDWR) ;;
  fail_if (fd <? 0) (endl "%s: create dd/dd/ff failed") [s] ;;;
  write fd (lit "FF") 2 ;;;
  close fd ;;;
  fd <- open (lit "dd/dd/../ff") 0 ;;
  fail_if (fd <? 0) (endl "%s: open dd/dd/../ff failed") [s] ;;;
  cc <- read fd buf BUFSZ ;;
  c <- ld8x buf ;;
  fail_if (negb (cc =? 2) || negb (c =? ch "f")) (endl "%s: dd/dd/../ff wrong content") [s] ;;;
  close fd ;;;
  r <- link (lit "dd/dd/ff") (lit "dd/dd/ffff") ;;
  fail_if (negb (r =? 0)) (endl "link dd/dd/ff dd/dd/ffff failed") [s] ;;;
  r <- unlink (lit "dd/dd/ff") ;;
  fail_if (negb (r =? 0)) (endl "%s: unlink dd/dd/ff failed") [s] ;;;
  r <- open (lit "dd/dd/ff") O_RDONLY ;;
  fail_if (0 <=? r) (endl "%s: open (unlinked) dd/dd/ff succeeded") [s] ;;;
  r <- chdir (lit "dd") ;;
  fail_if (negb (r =? 0)) (endl "%s: chdir dd failed") [s] ;;;
  r <- chdir (lit "dd/../../dd") ;;
  fail_if (negb (r =? 0)) (endl "%s: chdir dd/../../dd failed") [s] ;;;
  r <- chdir (lit "dd/../../../dd") ;;
  fail_if (negb (r =? 0)) (endl "chdir dd/../../dd failed") [s] ;;;
  r <- chdir (lit "./..") ;;
  fail_if (negb (r =? 0)) (endl "%s: chdir ./.. failed") [s] ;;;
  fd <- open (lit "dd/dd/ffff") 0 ;;
  fail_if (fd <? 0) (endl "%s: open dd/dd/ffff failed") [s] ;;;
  r <- read fd buf BUFSZ ;;
  fail_if (negb (r =? 2)) (endl "%s: read dd/dd/ffff wrong len") [s] ;;;
  close fd ;;;
  r <- open (lit "dd/dd/ff") O_RDONLY ;;
  fail_if (0 <=? r) (endl "%s: open (unlinked) dd/dd/ff succeeded!") [s] ;;;
  r <- open (lit "dd/ff/ff") (O_CREATE .| O_RDWR) ;;
  fail_if (0 <=? r) (endl "%s: create dd/ff/ff succeeded!") [s] ;;;
  r <- open (lit "dd/xx/ff") (O_CREATE .| O_RDWR) ;;
  fail_if (0 <=? r) (endl "%s: create dd/xx/ff succeeded!") [s] ;;;
  r <- open (lit "dd") O_CREATE ;;
  fail_if (0 <=? r) (endl "%s: create dd succeeded!") [s] ;;;
  r <- open (lit "dd") O_RDWR ;;
  fail_if (0 <=? r) (endl "%s: open dd rdwr succeeded!") [s] ;;;
  r <- open (lit "dd") O_WRONLY ;;
  fail_if (0 <=? r) (endl "%s: open dd wronly succeeded!") [s] ;;;
  r <- link (lit "dd/ff/ff") (lit "dd/dd/xx") ;;
  fail_if (r =? 0) (endl "%s: link dd/ff/ff dd/dd/xx succeeded!") [s] ;;;
  r <- link (lit "dd/xx/ff") (lit "dd/dd/xx") ;;
  fail_if (r =? 0) (endl "%s: link dd/xx/ff dd/dd/xx succeeded!") [s] ;;;
  r <- link (lit "dd/ff") (lit "dd/dd/ffff") ;;
  fail_if (r =? 0) (endl "%s: link dd/ff dd/dd/ffff succeeded!") [s] ;;;
  r <- mkdir (lit "dd/ff/ff") ;;
  fail_if (r =? 0) (endl "%s: mkdir dd/ff/ff succeeded!") [s] ;;;
  r <- mkdir (lit "dd/xx/ff") ;;
  fail_if (r =? 0) (endl "%s: mkdir dd/xx/ff succeeded!") [s] ;;;
  r <- mkdir (lit "dd/dd/ffff") ;;
  fail_if (r =? 0) (endl "%s: mkdir dd/dd/ffff succeeded!") [s] ;;;
  r <- unlink (lit "dd/xx/ff") ;;
  fail_if (r =? 0) (endl "%s: unlink dd/xx/ff succeeded!") [s] ;;;
  r <- unlink (lit "dd/ff/ff") ;;
  fail_if (r =? 0) (endl "%s: unlink dd/ff/ff succeeded!") [s] ;;;
  r <- chdir (lit "dd/ff") ;;
  fail_if (r =? 0) (endl "%s: chdir dd/ff succeeded!") [s] ;;;
  r <- chdir (lit "dd/xx") ;;
  fail_if (r =? 0) (endl "%s: chdir dd/xx succeeded!") [s] ;;;
  r <- unlink (lit "dd/dd/ffff") ;;
  fail_if (negb (r =? 0)) (endl "%s: unlink dd/dd/ff failed") [s] ;;;
  r <- unlink (lit "dd/ff") ;;
  fail_if (negb (r =? 0)) (endl "%s: unlink dd/ff failed") [s] ;;;
  r <- unlink (lit "dd") ;;
  fail_if (r =? 0) (endl "%s: unlink non-empty dd succeeded!") [s] ;;;
  r <- unlink (lit "dd/dd") ;;
  fail_if (r <? 0) (endl "%s: unlink dd/dd failed") [s] ;;;
  r <- unlink (lit "dd") ;;
  fail_if (r <? 0) (endl "%s: unlink dd failed") [s].

(** [for(sz = 499; sz < (MAXOPBLOCKS+2)*BSIZE; sz += 471)] *)
Definition bigwrite (s : Z) : X unit :=
  unlink (lit "bigwrite") ;;;
  while (Z.to_nat BUFSZ) (fun sz =>
    if sz <? (MAXOPBLOCKS + 2) * BSIZE then
      fd <- open (lit "bigwrite") (O_CREATE .| O_RDWR) ;;
      fail_if (fd <? 0) (endl "%s: cannot create bigwrite") [s] ;;;
      for_n 2 0 (fun i =>
        cc <- write fd buf sz ;;
        fail_if (negb (cc =? sz)) (endl "%s: write(%d) ret %d") [s; sz; cc]) ;;;
      close fd ;;;
      unlink (lit "bigwrite") ;;;
      xret (inl (sz + 471))
    else xret (inr tt)) 499.

Definition bigfile_read (s fd SZ : Z) : X Z :=
  while turns (fun '(i, total) =>
    cc <- read fd buf (SZ / 2) ;;
    fail_if (cc <? 0) (endl "%s: read bigfile failed") [s] ;;;
    if cc =? 0 then xret (inr total)
    else
      fail_if (negb (cc =? SZ / 2)) (endl "%s: short read bigfile") [s] ;;;
      c0 <- ld8x buf ;;
      c1 <- ld8x (buf + (SZ / 2 - 1)) ;;
      fail_if (negb (c0 =? i / 2) || negb (c1 =? i / 2)) (endl "%s: read bigfile wrong data") [s] ;;;
      xret (inl (i + 1, total + cc))) (0, 0).

Definition bigfile (s : Z) : X unit :=
  let N := 20 in let SZ := 600 in
  unlink (lit "bigfile.dat") ;;;
  fd <- open (lit "bigfile.dat") (O_CREATE .| O_RDWR) ;;
  fail_if (fd <? 0) "%s: cannot create bigfile" [s] ;;;
  for_n (Z.to_nat N) 0 (fun i =>
    memset buf i SZ ;;;
    r <- write fd buf SZ ;;
    fail_if (negb (r =? SZ)) (endl "%s: write bigfile failed") [s]) ;;;
  close fd ;;;
  fd <- open (lit "bigfile.dat") 0 ;;
  fail_if (fd <? 0) (endl "%s: cannot open bigfile") [s] ;;;
  total <- bigfile_read s fd SZ ;;
  close fd ;;;
  fail_if (negb (total =? N * SZ)) (endl "%s: read bigfile wrong total") [s] ;;;
  unlink (lit "bigfile.dat") ;;;
  xret tt.

Definition fourteen (s : Z) : X unit :=
  r <- mkdir (lit "12345678901234") ;;
  fail_if (negb (r =? 0)) (endl "%s: mkdir 12345678901234 failed") [s] ;;;
  r <- mkdir (lit "12345678901234/123456789012345") ;;
  fail_if (negb (r =? 0)) (endl "%s: mkdir 12345678901234/123456789012345 failed") [s] ;;;
  fd <- open (lit "123456789012345/123456789012345/123456789012345") O_CREATE ;;
  fail_if (fd <? 0) (endl "%s: create 123456789012345/123456789012345/123456789012345 failed") [s] ;;;
  close fd ;;;
  fd <- open (lit "12345678901234/12345678901234/12345678901234") 0 ;;
  fail_if (fd <? 0) (endl "%s: open 12345678901234/12345678901234/12345678901234 failed") [s] ;;;
  close fd ;;;
  r <- mkdir (lit "12345678901234/12345678901234") ;;
  fail_if (r =? 0) (endl "%s: mkdir 12345678901234/12345678901234 succeeded!") [s] ;;;
  r <- mkdir (lit "123456789012345/12345678901234") ;;
  fail_if (r =? 0) (endl "%s: mkdir 12345678901234/123456789012345 succeeded!") [s] ;;;
  unlink (lit "123456789012345/12345678901234") ;;;
  unlink (lit "12345678901234/12345678901234") ;;;
  unlink (lit "12345678901234/12345678901234/12345678901234") ;;;
  unlink (lit "123456789012345/123456789012345/123456789012345") ;;;
  unlink (lit "12345678901234/123456789012345") ;;;
  unlink (lit "12345678901234") ;;;
  xret tt.

Definition rmdot (s : Z) : X unit :=
  r <- mkdir (lit "dots") ;;
  fail_if (negb (r =? 0)) (endl "%s: mkdir dots failed") [s] ;;;
  r <- chdir (lit "dots") ;;
  fail_if (negb (r =? 0)) (endl "%s: chdir dots failed") [s] ;;;
  r <- unlink (lit ".") ;;
  fail_if (r =? 0) (endl "%s: rm . worked!") [s] ;;;
  r <- unlink (lit "..") ;;
  fail_if (r =? 0) (endl "%s: rm .. worked!") [s] ;;;
  r <- chdir (lit "/") ;;
  fail_if (negb (r =? 0)) (endl "%s: chdir / failed") [s] ;;;
  r <- unlink (lit "dots/.") ;;
  fail_if (r =? 0) (endl "%s: unlink dots/. worked!") [s] ;;;
  r <- unlink (lit "dots/..") ;;
  fail_if (r =? 0) (endl "%s: unlink dots/.. worked!") [s] ;;;
  r <- unlink (lit "dots") ;;
  fail_if (negb (r =? 0)) (endl "%s: unlink dots failed!") [s].

Definition dirfile (s : Z) : X unit :=
  fd <- open (lit "dirfile") O_CREATE ;;
  fail_if (fd <? 0) (endl "%s: create dirfile failed") [s] ;;;
  close fd ;;;
  r <- chdir (lit "dirfile") ;;
  fail_if (r =? 0) (endl "%s: chdir dirfile succeeded!") [s] ;;;
  fd <- open (lit "dirfile/xx") 0 ;;
  fail_if (0 <=? fd) (endl "%s: create dirfile/xx succeeded!") [s] ;;;
  fd <- open (lit "dirfile/xx") O_CREATE ;;
  fail_if (0 <=? fd) (endl "%s: create dirfile/xx succeeded!") [s] ;;;
  r <- mkdir (lit "dirfile/xx") ;;
  fail_if (r =? 0) (endl "%s: mkdir dirfile/xx succeeded!") [s] ;;;
  r <- unlink (lit "dirfile/xx") ;;
  fail_if (r =? 0) (endl "%s: unlink dirfile/xx succeeded!") [s] ;;;
  r <- link (lit "README") (lit "dirfile/xx") ;;
  fail_if (r =? 0) (endl "%s: link to dirfile/xx succeeded!") [s] ;;;
  r <- unlink (lit "dirfile") ;;
  fail_if (negb (r =? 0)) (endl "%s: unlink dirfile failed!") [s] ;;;
  fd <- open (lit ".") O_RDWR ;;
  fail_if (0 <=? fd) (endl "%s: open . for writing succeeded!") [s] ;;;
  fd <- open (lit ".") 0 ;;
  r <- write fd (lit "x") 1 ;;
  fail_if (0 <? r) (endl "%s: write . succeeded!") [s] ;;;
  close fd ;;;
  xret tt.

Definition iref (s : Z) : X unit :=
  for_n (S NINODE) 0 (fun i =>
    r <- mkdir (lit "irefd") ;;
    fail_if (negb (r =? 0)) (endl "%s: mkdir irefd failed") [s] ;;;
    r <- chdir (lit "irefd") ;;
    fail_if (negb (r =? 0)) (endl "%s: chdir irefd failed") [s] ;;;
    mkdir (lit "") ;;;
    link (lit "README") (lit "") ;;;
    fd <- open (lit "") O_CREATE ;;
    when (0 <=? fd) (close fd ;;; xret tt) ;;;
    fd <- open (lit "xx") O_CREATE ;;
    when (0 <=? fd) (close fd ;;; xret tt) ;;;
    unlink (lit "xx") ;;;
    xret tt) ;;;
  for_n (S NINODE) 0 (fun i =>
    chdir (lit "..") ;;;
    unlink (lit "irefd") ;;;
    xret tt) ;;;
  chdir (lit "/") ;;;
  xret tt.
End Tests.

(** * usertests: memory and system call arguments (user/usertests.c, lines 1956
    to 2573) *)

Section Tests.
Context `{TestOs} `{Image}.
Local Open Scope proc_scope.

Definition forktest (s : Z) : X unit :=
  let N := 1000 in
  r <- for_brk (Z.to_nat N) 0 (fun n =>
    pid <- fork ;;
    if pid <? 0 then xret (Some n)
    else
      when (pid =? 0) (exit 0) ;;;
      xret None) ;;
  let n := default N r in
  fail_if (n =? 0) (endl "%s: no fork at all!") [s] ;;;
  fail_if (n =? N) (endl "%s: fork claimed to work 1000 times!") [s] ;;;
  for_n (Z.to_nat n) 0 (fun _ =>
    w <- wait0 ;;
    fail_if (w <? 0) (endl "%s: wait stopped early") [s]) ;;;
  w <- wait0 ;;
  fail_if (negb (w =? -1)) (endl "%s: wait got too many") [s].

Definition sbrkbasic (s : Z) : X unit :=
  let TOOMUCH := 1024 * 1024 * 1024 in
  pid <- fork ;;
  fail_if (pid <? 0) (endl "fork failed in sbrkbasic") [] ;;;
  when (pid =? 0) (
    a <- sbrk TOOMUCH ;;
    when (a =? minus1) (exit 0) ;;;
    for_n (Z.to_nat (TOOMUCH / 4096)) 0 (fun i => st8x (a + 4096 * i) 99) ;;;
    exit 1) ;;;
  let* (_, xstatus) := wait junk in
  fail_if (xstatus =? 1) (endl "%s: too much memory allocated!") [s] ;;;
  a <- sbrk 0 ;;
  a <- for_st 5000 0 (fun i a =>
    b <- sbrk 1 ;;
    fail_if (negb (b =? a)) (endl "%s: sbrk test failed %d %x %x") [s; i; a; b] ;;;
    st8x b 1 ;;;
    xret (b + 1)) a ;;
  pid <- fork ;;
  fail_if (pid <? 0) (endl "%s: sbrk test fork failed") [s] ;;;
  sbrk 1 ;;;
  c <- sbrk 1 ;;
  fail_if (negb (c =? a + 1)) (endl "%s: sbrk test failed post-fork") [s] ;;;
  when (pid =? 0) (exit 0) ;;;
  let* (_, xstatus) := wait xstatus in
  exit xstatus.

(** [for(pp = a; pp < eee; pp += 4096) *pp = 1;] *)
Definition touch_pages (a eee : Z) : X unit :=
  while (S (Z.to_nat (eee - a))) (fun pp => if pp <? eee then st8x pp 1 ;;; xret (inl (pp + 4096)) else xret (inr tt)) a.

Definition sbrkmuch (s : Z) : X unit :=
  let BIG := 100 * 1024 * 1024 in
  oldbrk <- sbrk 0 ;;
  a <- sbrk 0 ;;
  let amt := u64 (BIG - a) in
  p <- sbrk amt ;;
  fail_if (negb (p =? a)) (endl "%s: sbrk test failed to grow big address space; enough phys mem?") [s] ;;;
  eee <- sbrk 0 ;;
  touch_pages a eee ;;;
  let lastaddr := BIG - 1 in
  st8x lastaddr 99 ;;;
  a <- sbrk 0 ;;
  c <- sbrk (- PGSIZE) ;;
  fail_if (c =? minus1) (endl "%s: sbrk could not deallocate") [s] ;;;
  c <- sbrk 0 ;;
  fail_if (negb (c =? u64 (a - PGSIZE))) (endl "%s: sbrk deallocation produced wrong address, a %x c %x") [s; a; c] ;;;
  a <- sbrk 0 ;;
  c <- sbrk PGSIZE ;;
  wrong <- (if negb (c =? a) then xret true else x <- sbrk 0 ;; xret (negb (x =? u64 (a + PGSIZE)))) ;;
  fail_if wrong (endl "%s: sbrk re-allocation failed, a %x c %x") [s; a; c] ;;;
  v <- ld8x lastaddr ;;
  fail_if (v =? 99) (endl "%s: sbrk de-allocation didn't really deallocate") [s] ;;;
  a <- sbrk 0 ;;
  x <- sbrk 0 ;;
  c <- sbrk (- (x - oldbrk)) ;;
  fail_if (negb (c =? a)) (endl "%s: sbrk downsize failed, a %x c %x") [s; a; c].

Definition kernmem (s : Z) : X unit :=
  for_n (Z.to_nat (2000000 / 50000)) 0 (fun k =>
    let a := KERNBASE + 50000 * k in
    pid <- fork ;;
    fail_if (pid <? 0) (endl "%s: fork failed") [s] ;;;
    when (pid =? 0) (
      v <- ld8x a ;;
      printf (endl "%s: oops could read %x = %x") [s; a; v] ;;;
      exit 1) ;;;
    let* (_, xstatus) := wait junk in
    when (negb (xstatus =? -1)) (exit 1)).

(** [for( ; a != 0; a <<= 1)]: the bits of a word bound the iterations. *)
Definition MAXVAplus (s : Z) : X unit :=
  while 65 (fun a =>
    if negb (a =? 0) then
      pid <- fork ;;
      fail_if (pid <? 0) (endl "%s: fork failed") [s] ;;;
      when (pid =? 0) (
        st8x a 99 ;;;
        printf (endl "%s: oops wrote %x") [s; a] ;;;
        exit 1) ;;;
      let* (_, xstatus) := wait junk in
      when (negb (xstatus =? -1)) (exit 1) ;;;
      xret (inl (u64 (Z.shiftl a 1)))
    else xret (inr tt)) MAXVA.

(** One of the ten children that take a lot of memory; the value of [fork]. *)
Definition sbrkfail_child (p0 p1 : Z) : X Z :=
  let BIG := 100 * 1024 * 1024 in
  pid <- fork ;;
  when (pid =? 0) (
    a <- sbrk 0 ;;
    sbrk (u64 (BIG - a)) ;;;
    write p1 (lit "x") 1 ;;;
    while turns (fun _ => sleep 1000 ;;; xret (inl tt)) tt) ;;;
  when (negb (pid =? -1)) (read_c p0 ;;; xret tt) ;;;
  xret pid.

Definition sbrkfail (s : Z) : X unit :=
  let BIG := 100 * 1024 * 1024 in
  let* (r, p0, p1) := pipe in
  fail_if (negb (r =? 0)) (endl "%s: pipe() failed") [s] ;;;
  pids <- for_st 10 0 (fun i pids => pid <- sbrkfail_child p0 p1 ;; xret (pids ++ [pid])) [] ;;
  c <- sbrk PGSIZE ;;
  each pids (fun pid => when (negb (pid =? -1)) (kill pid ;;; wait0 ;;; xret tt)) ;;;
  fail_if (c =? minus1) (endl "%s: failed sbrk leaked memory") [s] ;;;
  pid <- fork ;;
  fail_if (pid <? 0) (endl "%s: fork failed") [s] ;;;
  when (pid =? 0) (
    a <- sbrk 0 ;;
    sbrk (10 * BIG) ;;;
    n <- for_st (Z.to_nat (10 * BIG / PGSIZE)) 0 (fun k n => v <- ld8x (a + PGSIZE * k) ;; xret (i32 (n + v))) 0 ;;
    printf (endl "%s: allocate a lot of memory succeeded %d") [s; n] ;;;
    exit 1) ;;;
  let* (_, xstatus) := wait junk in
  when (negb (xstatus =? -1) && negb (xstatus =? 2)) (exit 1).

Definition sbrkarg (s : Z) : X unit :=
  a <- sbrk PGSIZE ;;
  fd <- open (lit "sbrk") (O_CREATE .| O_WRONLY) ;;
  unlink (lit "sbrk") ;;;
  fail_if (fd <? 0) (endl "%s: open sbrk failed") [s] ;;;
  n <- write fd a PGSIZE ;;
  fail_if (n <? 0) (endl "%s: write sbrk failed") [s] ;;;
  close fd ;;;
  a <- sbrk PGSIZE ;;
  r <- pipe_at a ;;
  fail_if (negb (r =? 0)) (endl "%s: pipe() failed") [s].

Definition validatetest (s : Z) : X unit :=
  let hi := 1100 * 1024 in
  for_n (Z.to_nat (hi / PGSIZE + 1)) 0 (fun k =>
    r <- link (lit "nosuchfile") (PGSIZE * k) ;;
    fail_if (negb (r =? -1)) (endl "%s: link should not succeed") [s]).

Definition bsstest (s : Z) : X unit :=
  for_n (Z.to_nat 10000) 0 (fun i =>
    c <- ld8x (uninit + i) ;;
    fail_if (negb (c =? 0)) (endl "%s: bss test failed") [s]).

(** The long argument: a line and 199 blanks. *)
Definition bigarg : string :=
  endl "bigargs test: failed" ++ String.string_of_list_ascii (replicate 199 " "%char).

Definition bigargtest (s : Z) : X unit :=
  unlink (lit "bigarg-ok") ;;;
  pid <- fork ;;
  (if pid =? 0 then
     exec (lit "echo") (replicate (MAXARG - 1) (lit bigarg)) ;;;
     fd <- open (lit "bigarg-ok") O_CREATE ;;
     close fd ;;;
     exit 0
   else fail_if (pid <? 0) (endl "%s: bigargtest: fork failed") [s]) ;;;
  let* (_, xstatus) := wait junk in
  when (negb (xstatus =? 0)) (exit xstatus) ;;;
  fd <- open (lit "bigarg-ok") 0 ;;
  fail_if (fd <? 0) (endl "%s: bigarg test failed!") [s] ;;;
  close fd ;;;
  xret tt.

Definition fsfull_name (nfiles : Z) : X unit :=
  let name := locals in
  st8x name (ch "f") ;;;
  st8x (name + 1) (ch "0" + nfiles / 1000) ;;;
  st8x (name + 2) (ch "0" + nfiles mod 1000 / 100) ;;;
  st8x (name + 3) (ch "0" + nfiles mod 100 / 10) ;;;
  st8x (name + 4) (ch "0" + nfiles mod 10) ;;;
  st8x (name + 5) 0.

(** One file, of which the first loop counts the bytes. *)
Definition fsfull_file (fd : Z) : X Z :=
  while turns (fun total =>
    cc <- write fd buf BSIZE ;;
    if cc <? BSIZE then xret (inr total) else xret (inl (total + cc))) 0.

Definition fsfull : X unit :=
  let name := locals in
  printf (endl "fsfull test") [] ;;;
  nfiles <- while turns (fun nfiles =>
    fsfull_name nfiles ;;;
    printf (endl "writing %s") [name] ;;;
    fd <- open name (O_CREATE .| O_RDWR) ;;
    if fd <? 0 then printf (endl "open %s failed") [name] ;;; xret (inr nfiles)
    else
      total <- fsfull_file fd ;;
      printf (endl "wrote %d bytes") [total] ;;;
      close fd ;;;
      if total =? 0 then xret (inr nfiles) else xret (inl (nfiles + 1))) 0 ;;
  while (S (S (Z.to_nat nfiles))) (fun nfiles =>
    if 0 <=? nfiles then
      fsfull_name nfiles ;;;
      unlink name ;;;
      xret (inl (nfiles - 1))
    else xret (inr tt)) nfiles ;;;
  printf (endl "fsfull test finished") [].

Definition argptest (s : Z) : X unit :=
  fd <- open (lit "init") O_RDONLY ;;
  fail_if (fd <? 0) (endl "%s: open failed") [s] ;;;
  a <- sbrk 0 ;;
  read fd (a - 1) (-1) ;;;
  close fd ;;;
  xret tt.

(** The end of [stacktest] and [textwrite]: the child should have been killed. *)
Definition killed_child : X unit :=
  let* (_, xstatus) := wait junk in
  if xstatus =? -1 then exit 0 else exit xstatus.

Definition stacktest (s : Z) : X unit :=
  pid <- fork ;;
  (if pid =? 0 then
     let sp := r_sp - PGSIZE in
     v <- ld8x sp ;;
     printf (endl "%s: stacktest: read below stack %p") [s; v] ;;;
     exit 1
   else fail_if (pid <? 0) (endl "%s: fork failed") [s]) ;;;
  killed_child.

(** The text is not in the RAM of the process, which starts behind it. *)
Definition textwrite (s : Z) : X unit :=
  pid <- fork ;;
  (if pid =? 0 then mem_ (st32 0 10) ;;; exit 1
   else fail_if (pid <? 0) (endl "%s: fork failed") [s]) ;;;
  killed_child.

Definition big : Z := 0xeaeb0b5b00002f5e.
Definition pgbug (s : Z) : X unit :=
  exec big [] ;;;
  pipe_at big ;;;
  exit 0.

(** A process that changes its size and exits, and its parent. *)
Definition sbrkbugs_child (c : X unit) : X unit :=
  pid <- fork ;;
  fail_if (pid <? 0) (endl "fork failed") [] ;;;
  when (pid =? 0) (c ;;; exit 0) ;;;
  wait0 ;;;
  xret tt.
Definition sbrkbugs (s : Z) : X unit :=
  sbrkbugs_child (sz <- sbrk 0 ;; sbrk (- i32 sz) ;;; xret tt) ;;;
  sbrkbugs_child (sz <- sbrk 0 ;; sbrk (- (i32 sz - 3500)) ;;; xret tt) ;;;
  sbrkbugs_child (
    sz <- sbrk 0 ;;
    sbrk (u64 (10 * 4096 + 2048 - sz)) ;;;
    sbrk (-10) ;;;
    xret tt) ;;;
  exit 0.

Definition sbrklast (s : Z) : X unit :=
  top <- sbrk 0 ;;
  when (negb (top mod 4096 =? 0)) (sbrk (4096 - top mod 4096) ;;; xret tt) ;;;
  sbrk 4096 ;;;
  sbrk 10 ;;;
  sbrk (-20) ;;;
  top <- sbrk 0 ;;
  let p := top - 64 in
  st8x p (ch "x") ;;;
  st8x (p + 1) 0 ;;;
  fd <- open p (O_RDWR .| O_CREATE) ;;
  write fd p 1 ;;;
  close fd ;;;
  fd <- open p O_RDWR ;;
  st8x p 0 ;;;
  read fd p 1 ;;;
  c <- ld8x p ;;
  when (negb (c =? ch "x")) (exit 1).

Definition sbrk8000 (s : Z) : X unit :=
  sbrk 0x80000004 ;;;
  top <- sbrk 0 ;;
  c <- ld8x (top - 1) ;;
  st8x (top - 1) (c + 1).

Definition badarg (s : Z) : X unit :=
  for_n (Z.to_nat 50000) 0 (fun i => exec (lit "echo") [0xffffffff] ;;; xret tt) ;;;
  exit 0.
End Tests.

(** * usertests: the slow tests and the driver (user/usertests.c, lines 2576 to
    3101) *)

Section Tests.
Context `{TestOs} `{Image}.
Local Open Scope proc_scope.

Definition bigdir_name (i : Z) : X unit :=
  let name := locals in
  st8x name (ch "x") ;;;
  st8x (name + 1) (ch "0" + i / 64) ;;;
  st8x (name + 2) (ch "0" + i mod 64) ;;;
  st8x (name + 3) 0.

Definition bigdir (s : Z) : X unit :=
  let N := 500%nat in let name := locals in
  unlink (lit "bd") ;;;
  fd <- open (lit "bd") O_CREATE ;;
  fail_if (fd <? 0) (endl "%s: bigdir create failed") [s] ;;;
  close fd ;;;
  for_n N 0 (fun i =>
    bigdir_name i ;;;
    r <- link (lit "bd") name ;;
    fail_if (negb (r =? 0)) (endl "%s: bigdir link(bd, %s) failed") [s; name]) ;;;
  unlink (lit "bd") ;;;
  for_n N 0 (fun i =>
    bigdir_name i ;;;
    r <- unlink name ;;
    fail_if (negb (r =? 0)) "%s: bigdir unlink failed" [s]).

Definition manywrites_child (s ci : Z) : X unit :=
  let howmany := 30%nat in let name := locals in
  st8x name (ch "b") ;;;
  st8x (name + 1) (ch "a" + ci) ;;;
  st8x (name + 2) 0 ;;;
  unlink name ;;;
  for_n howmany 0 (fun iters =>
    for_n (Z.to_nat (ci + 1)) 0 (fun i =>
      fd <- open name (O_CREATE .| O_RDWR) ;;
      fail_if (fd <? 0) (endl "%s: cannot create %s") [s; name] ;;;
      let sz := BUFSZ in
      cc <- write fd buf sz ;;
      fail_if (negb (cc =? sz)) (endl "%s: write(%d) ret %d") [s; sz; cc] ;;;
      close fd ;;;
      xret tt) ;;;
    unlink name ;;;
    xret tt) ;;;
  unlink name ;;;
  exit 0.

Definition manywrites (s : Z) : X unit :=
  let nchildren := 4%nat in
  for_n nchildren 0 (fun ci =>
    pid <- fork ;;
    fail_if (pid <? 0) (endl "fork failed") [] ;;;
    when (pid =? 0) (manywrites_child s ci)) ;;;
  for_n nchildren 0 (fun ci =>
    let* (_, st) := wait 0 in
    when (negb (st =? 0)) (exit st)) ;;;
  exit 0.

Definition badwrite (s : Z) : X unit :=
  let assumed_free := 600%nat in
  unlink (lit "junk") ;;;
  for_n assumed_free 0 (fun i =>
    fd <- open (lit "junk") (O_CREATE .| O_WRONLY) ;;
    fail_if (fd <? 0) (endl "open junk failed") [] ;;;
    write fd 0xffffffffff 1 ;;;
    close fd ;;;
    unlink (lit "junk") ;;;
    xret tt) ;;;
  fd <- open (lit "junk") (O_CREATE .| O_WRONLY) ;;
  fail_if (fd <? 0) (endl "open junk failed") [] ;;;
  r <- write fd (lit "x") 1 ;;
  fail_if (negb (r =? 1)) (endl "write failed") [] ;;;
  close fd ;;;
  unlink (lit "junk") ;;;
  exit 0.

Definition execout (s : Z) : X unit :=
  for_n 15 0 (fun avail =>
    pid <- fork ;;
    if pid <? 0 then printf (endl "fork failed") [] ;;; exit 1
    else if pid =? 0 then
      while turns (fun _ =>
        a <- sbrk 4096 ;;
        if a =? minus1 then xret (inr tt) else st8x (a + 4096 - 1) 1 ;;; xret (inl tt)) tt ;;;
      for_n (Z.to_nat avail) 0 (fun i => sbrk (-4096) ;;; xret tt) ;;;
      close 1 ;;;
      exec (lit "echo") [lit "echo"; lit "x"] ;;;
      exit 0
    else wait0 ;;; xret tt) ;;;
  exit 0.

(** The names of [diskfull] and [outofinodes]. *)
Definition big_name (fi : Z) : X unit :=
  let name := locals in
  st8x name (ch "b") ;;;
  st8x (name + 1) (ch "i") ;;;
  st8x (name + 2) (ch "g") ;;;
  st8x (name + 3) (ch "0" + fi) ;;;
  st8x (name + 4) 0.
Definition zz_name (i : Z) : X unit :=
  let name := locals in
  st8x name (ch "z") ;;;
  st8x (name + 1) (ch "z") ;;;
  st8x (name + 2) (ch "0" + i / 32) ;;;
  st8x (name + 3) (ch "0" + i mod 32) ;;;
  st8x (name + 4) 0.

(** Files until one cannot be created or written; their number. *)
Definition diskfull_fill (s : Z) : X Z :=
  let name := locals in let buf := locals + 32 in
  while turns (fun fi =>
    big_name fi ;;;
    unlink name ;;;
    fd <- open name (O_CREATE .| O_RDWR .| O_TRUNC) ;;
    if fd <? 0 then
      printf (endl "%s: could not create file %s") [s; name] ;;;
      xret (inr fi)
    else
      r <- for_brk (Z.to_nat MAXFILE) 0 (fun i =>
        r <- write fd buf BSIZE ;;
        if negb (r =? BSIZE) then close fd ;;; xret (Some tt) else xret None) ;;
      close fd ;;;
      match r with
      | Some _ => xret (inr (fi + 1))
      | None => xret (inl (fi + 1))
      end) 0.

(** [nzz] names of files that are created until one fails, and removed. *)
Definition zz_create (nzz : nat) : X unit :=
  for_brk nzz 0 (fun i =>
    zz_name i ;;;
    unlink locals ;;;
    fd <- open locals (O_CREATE .| O_RDWR .| O_TRUNC) ;;
    if fd <? 0 then xret (Some tt) else close fd ;;; xret None) ;;;
  xret tt.
Definition zz_remove (nzz : nat) : X unit := for_n nzz 0 (fun i => zz_name i ;;; unlink locals ;;; xret tt).

Definition diskfull (s : Z) : X unit :=
  let nzz := 128%nat in
  unlink (lit "diskfulldir") ;;;
  fi <- diskfull_fill s ;;
  zz_create nzz ;;;
  r <- mkdir (lit "diskfulldir") ;;
  when (r =? 0) (printf (endl "%s: mkdir(diskfulldir) unexpectedly succeeded!") []) ;;;
  unlink (lit "diskfulldir") ;;;
  zz_remove nzz ;;;
  for_n (Z.to_nat fi) 0 (fun i => big_name i ;;; unlink locals ;;; xret tt).

Definition outofinodes (s : Z) : X unit :=
  let nzz := (32 * 32)%nat in
  zz_create nzz ;;;
  zz_remove nzz.

(** ** The driver *)

Definition test : Type := (Z -> X unit) * string.

Definition quicktests : list test :=
  [(copyin, "copyin"); (copyout, "copyout"); (copyinstr1, "copyinstr1"); (copyinstr2, "copyinstr2");
   (copyinstr3, "copyinstr3"); (rwsbrk, "rwsbrk"); (truncate1, "truncate1"); (truncate2, "truncate2");
   (truncate3, "truncate3"); (openiputtest, "openiput"); (exitiputtest, "exitiput"); (iputtest, "iput");
   (opentest, "opentest"); (writetest, "writetest"); (writebig, "writebig"); (createtest, "createtest");
   (dirtest, "dirtest"); (exectest, "exectest"); (pipe1, "pipe1"); (killstatus, "killstatus"); (preempt, "preempt");
   (exitwait, "exitwait"); (reparent, "reparent"); (twochildren, "twochildren"); (forkfork, "forkfork");
   (forkforkfork, "forkforkfork"); (reparent2, "reparent2"); (mem, "mem"); (sharedfd, "sharedfd");
   (fourfiles, "fourfiles"); (createdelete, "createdelete"); (unlinkread, "unlinkread"); (linktest, "linktest");
   (concreate, "concreate"); (linkunlink, "linkunlink"); (subdir, "subdir"); (bigwrite, "bigwrite"); (bigfile, "bigfile");
   (fourteen, "fourteen"); (rmdot, "rmdot"); (dirfile, "dirfile"); (iref, "iref"); (forktest, "forktest");
   (sbrkbasic, "sbrkbasic"); (sbrkmuch, "sbrkmuch"); (kernmem, "kernmem"); (MAXVAplus, "MAXVAplus"); (sbrkfail, "sbrkfail");
   (sbrkarg, "sbrkarg"); (validatetest, "validatetest"); (bsstest, "bsstest"); (bigargtest, "bigargtest");
   (argptest, "argptest"); (stacktest, "stacktest"); (textwrite, "textwrite"); (pgbug, "pgbug"); (sbrkbugs, "sbrkbugs");
   (sbrklast, "sbrklast"); (sbrk8000, "sbrk8000"); (badarg, "badarg")]%string.

Definition slowtests : list test :=
  [(bigdir, "bigdir"); (manywrites, "manywrites"); (badwrite, "badwrite"); (execout, "execout"); (diskfull, "diskfull");
   (outofinodes, "outofinodes")]%string.

(** Whether the child's status was 0. *)
Definition run (f : Z -> X unit) (s : Z) : X bool :=
  printf "test %s: " [s] ;;;
  pid <- fork ;;
  fail_if (pid <? 0) (endl "runtest: fork error") [] ;;;
  if pid =? 0 then f s ;;; exit 0
  else
    let* (_, xstatus) := wait junk in
    (if negb (xstatus =? 0) then printf (endl "FAILED") [] else printf (endl "OK") []) ;;;
    xret (xstatus =? 0).

Fixpoint runtests (tests : list test) (justone : Z) : X Z :=
  match tests with
  | [] => xret 0
  | (f, name) :: tests =>
      let s := lit name in
      want <- (if justone =? 0 then xret true else r <- strcmp s justone ;; xret (r =? 0)) ;;
      if (want : bool) then
        ok <- run f s ;;
        if negb ok then printf (endl "SOME TESTS FAILED") [] ;;; xret 1 else runtests tests justone
      else runtests tests justone
  end.

(** The child of [countfree] and the loop of its parent. *)
Definition countfree_child (p1 : Z) : X unit :=
  while turns (fun _ =>
    a <- sbrk 4096 ;;
    if a =? minus1 then xret (inr tt)
    else
      st8x (a + 4096 - 1) 1 ;;;
      r <- write p1 (lit "x") 1 ;;
      fail_if (negb (r =? 1)) (endl "write() failed in countfree()") [] ;;;
      xret (inl tt)) tt.
Definition countfree_read (p0 : Z) : X Z :=
  while turns (fun n =>
    let* (cc, _) := read_c p0 in
    fail_if (cc <? 0) (endl "read() failed in countfree()") [] ;;;
    if cc =? 0 then xret (inr n) else xret (inl (i32 (n + 1)))) 0.
Definition countfree : X Z :=
  let* (r, p0, p1) := pipe in
  fail_if (r <? 0) (endl "pipe() failed in countfree()") [] ;;;
  pid <- fork ;;
  fail_if (pid <? 0) (endl "fork failed in countfree()") [] ;;;
  when (pid =? 0) (
    close p0 ;;;
    countfree_child p1 ;;;
    exit 0) ;;;
  close p1 ;;;
  n <- countfree_read p0 ;;
  close p0 ;;;
  wait0 ;;;
  xret n.

(** One round; [Some 1] ends the driver. *)
Definition drive_round (quick : bool) (continuous justone : Z) : X (option Z) :=
  printf (endl "usertests starting") [] ;;;
  free0 <- countfree ;;
  r <- runtests quicktests justone ;;
  if negb (r =? 0) && negb (continuous =? 2) then xret (Some 1)
  else
    r <- (if quick then xret 0
          else
            when (justone =? 0) (printf (endl "usertests slow tests starting") []) ;;;
            runtests slowtests justone) ;;
    if negb (r =? 0) && negb (continuous =? 2) then xret (Some 1)
    else
      free1 <- countfree ;;
      if free1 <? free0 then
        printf (endl "FAILED -- lost some free pages %d (out of %d)") [free1; free0] ;;;
        xret (if negb (continuous =? 2) then Some 1 else None)
      else xret None.
Definition drivetests (quick : bool) (continuous justone : Z) : X Z :=
  while turns (fun _ =>
    r <- drive_round quick continuous justone ;;
    match r with
    | Some st => xret (inr st)
    | None => if continuous =? 0 then xret (inr 0) else xret (inl tt)
    end) tt.

(** [argv] are the addresses of the arguments. *)
Definition usertests_main (argv : list Z) : X unit :=
  let go quick continuous justone :=
    r <- drivetests quick continuous justone ;;
    when (negb (r =? 0)) (exit 1) ;;;
    printf (endl "ALL TESTS PASSED") [] ;;;
    exit 0 in
  match argv with
  | [] | [_] => go false 0 0
  | [_; a] =>
      q <- strcmp a (lit "-q") ;;
      if q =? 0 then go true 0 0
      else
        c <- strcmp a (lit "-c") ;;
        if c =? 0 then go false 1 0
        else
          c <- strcmp a (lit "-C") ;;
          if c =? 0 then go false 2 0
          else
            c <- ld8x a ;;
            if negb (c =? ch "-") then go false 0 a
            else printf (endl "Usage: usertests [-c] [-C] [-q] [testname]") [] ;;; exit 1
  | _ => printf (endl "Usage: usertests [-c] [-C] [-q] [testname]") [] ;;; exit 1
  end.
End Tests.
