(* ===== verification/Grind.v ===== *)
(** * grind, forktest and stressfs (user/grind.c, user/forktest.c,
    user/stressfs.c)

    grind makes random system calls in two processes; its generator of random
    numbers keeps its state in the variable [rand_next]. *)

From S2P Require Import Prelude CInt Memory KMonad Blocks User Ulib Umalloc Shell Progs UTest.

(** ** The generator *)

(** [ctx] is the address of the state, an unsigned long. *)
Definition do_rand (ctx : Z) : M ram Z :=
  c <- ld64 ctx ;;
  let x := c mod 0x7ffffffe + 1 in
  let hi := Z.quot x 127773 in
  let lo := Z.rem x 127773 in
  let x := 16807 * lo - 2836 * hi in
  let x := if x <? 0 then x + 0x7fffffff else x in
  let x := x - 1 in
  st64 ctx x ;;;
  ret (i32 x).

Section Grind.
Context `{TestOs} `{Image}.
(** The addresses of [rand_next] and of the static [buf] of [go]. *)
Context (rand_next gbuf : Z).
Local Open Scope proc_scope.

Definition rand : X Z := mem_ (do_rand rand_next).

Definition chdir_or_exit (path : string) (msg : string) : X unit :=
  r <- chdir (lit path) ;;
  fail_if (negb (r =? 0)) (endl msg) [].
Definition open_close (path : string) : X unit :=
  fd <- open (lit path) (O_CREATE .| O_RDWR) ;;
  close fd ;;;
  xret tt.

(** [what] from 1 to 12: calls on files; the new [fd]. *)
Definition go_files (what fd : Z) : X Z :=
  if what =? 1 then open_close "grindir/../a" ;;; xret fd
  else if what =? 2 then open_close "grindir/../grindir/../b" ;;; xret fd
  else if what =? 3 then unlink (lit "grindir/../a") ;;; xret fd
  else if what =? 4 then
    chdir_or_exit "grindir" "grind: chdir grindir failed" ;;;
    unlink (lit "../b") ;;;
    chdir (lit "/") ;;;
    xret fd
  else if what =? 5 then
    close fd ;;;
    open (lit "/grindir/../a") (O_CREATE .| O_RDWR)
  else if what =? 6 then
    close fd ;;;
    open (lit "/./grindir/./../b") (O_CREATE .| O_RDWR)
  else if what =? 7 then write fd gbuf 999 ;;; xret fd
  else if what =? 8 then read fd gbuf 999 ;;; xret fd
  else if what =? 9 then
    mkdir (lit "grindir/../a") ;;;
    open_close "a/../a/./a" ;;;
    unlink (lit "a/a") ;;;
    xret fd
  else if what =? 10 then
    mkdir (lit "/../b") ;;;
    open_close "grindir/../b/b" ;;;
    unlink (lit "b/b") ;;;
    xret fd
  else if what =? 11 then
    unlink (lit "b") ;;;
    link (lit "../grindir/./../a") (lit "../b") ;;;
    xret fd
  else if what =? 12 then
    unlink (lit "../grindir/../a") ;;;
    link (lit ".././b") (lit "/grindir/../a") ;;;
    xret fd
  else xret fd.

(** A child that runs [c], and the parent, which goes on with [k]. *)
Definition with_child (c : X unit) (k : Z -> X unit) : X unit :=
  pid <- fork ;;
  if pid =? 0 then c
  else if pid <? 0 then printf (endl "grind: fork failed") [] ;;; exit 1
  else k pid.
Definition wait_for (_ : Z) : X unit := wait0 ;;; xret tt.

(** [what] from 13 to 20: processes, memory and a pipe. *)
Definition go_procs (what break0 : Z) : X unit :=
  if what =? 13 then with_child (exit 0) wait_for
  else if what =? 14 then with_child (fork ;;; fork ;;; exit 0) wait_for
  else if what =? 15 then sbrk 6011 ;;; xret tt
  else if what =? 16 then
    a <- sbrk 0 ;;
    when (break0 <? a) (a <- sbrk 0 ;; sbrk (- (a - break0)) ;;; xret tt)
  else if what =? 17 then
    with_child (open_close "a" ;;; exit 0) (fun pid =>
      chdir_or_exit "../grindir/.." "grind: chdir failed" ;;;
      kill pid ;;;
      wait0 ;;;
      xret tt)
  else if what =? 18 then with_child (me <- getpid ;; kill me ;;; exit 0) wait_for
  else if what =? 19 then
    let* (r, p0, p1) := pipe in
    fail_if (r <? 0) (endl "grind: pipe failed") [] ;;;
    with_child (
      fork ;;;
      fork ;;;
      r <- write p1 (lit "x") 1 ;;
      when (negb (r =? 1)) (printf (endl "grind: pipe write failed") []) ;;;
      let* (r, _) := read_c p0 in
      when (negb (r =? 1)) (printf (endl "grind: pipe read failed") []) ;;;
      exit 0) (fun pid =>
        close p0 ;;;
        close p1 ;;;
        wait0 ;;;
        xret tt)
  else if what =? 20 then
    with_child (
      unlink (lit "a") ;;;
      mkdir (lit "a") ;;;
      chdir (lit "a") ;;;
      unlink (lit "../a") ;;;
      open (lit "x") (O_CREATE .| O_RDWR) ;;;
      unlink (lit "x") ;;;
      exit 0) wait_for
  else xret tt.

(** [what] = 21; the local [struct stat] has [ino] at 4 and [size] at 16. *)
Definition go_stat : X unit :=
  let st := locals in
  unlink (lit "c") ;;;
  fd1 <- open (lit "c") (O_CREATE .| O_RDWR) ;;
  fail_if (fd1 <? 0) (endl "grind: create c failed") [] ;;;
  r <- write fd1 (lit "x") 1 ;;
  fail_if (negb (r =? 1)) (endl "grind: write c failed") [] ;;;
  r <- fstat fd1 st ;;
  fail_if (negb (r =? 0)) (endl "grind: fstat failed") [] ;;;
  size <- mem_ (ld64 (st + 16)) ;;
  fail_if (negb (size =? 1)) (endl "grind: fstat reports wrong size %d") [i32 size] ;;;
  ino <- mem_ (ld32 (st + 4)) ;;
  fail_if (200 <? ino) (endl "grind: fstat reports crazy i-number %d") [ino] ;;;
  close fd1 ;;;
  unlink (lit "c") ;;;
  xret tt.

Definition fail2_if (b : bool) (msg : string) (status : Z) : X unit := when b (fprintf 2 (endl msg) [] ;;; exit status).

(** [what] = 22: echo hi | cat. *)
Definition go_pipeline : X unit :=
  let* (r, a0, a1) := pipe in
  fail2_if (r <? 0) "grind: pipe failed" 1 ;;;
  let* (r, b0, b1) := pipe in
  fail2_if (r <? 0) "grind: pipe failed" 1 ;;;
  pid1 <- fork ;;
  (if pid1 =? 0 then
     close b0 ;;;
     close b1 ;;;
     close a0 ;;;
     close 1 ;;;
     d <- dup a1 ;;
     fail2_if (negb (d =? 1)) "grind: dup failed" 1 ;;;
     close a1 ;;;
     exec (lit "grindir/../echo") [lit "echo"; lit "hi"] ;;;
     fprintf 2 (endl "grind: echo: not found") [] ;;;
     exit 2
   else fail2_if (pid1 <? 0) "grind: fork failed" 3) ;;;
  pid2 <- fork ;;
  (if pid2 =? 0 then
     close a1 ;;;
     close b0 ;;;
     close 0 ;;;
     d <- dup a0 ;;
     fail2_if (negb (d =? 0)) "grind: dup failed" 4 ;;;
     close a0 ;;;
     close 1 ;;;
     d <- dup b1 ;;
     fail2_if (negb (d =? 1)) "grind: dup failed" 5 ;;;
     close b1 ;;;
     exec (lit "/cat") [lit "cat"] ;;;
     fprintf 2 (endl "grind: cat: not found") [] ;;;
     exit 6
   else fail2_if (pid2 <? 0) "grind: fork failed" 7) ;;;
  close a0 ;;;
  close a1 ;;;
  close b1 ;;;
  let buf := locals in
  each [buf; buf + 1; buf + 2; buf + 3] (fun a => st8x a 0) ;;;
  read b0 buf 1 ;;;
  read b0 (buf + 1) 1 ;;;
  read b0 (buf + 2) 1 ;;;
  close b0 ;;;
  let* (_, st1) := wait junk in
  let* (_, st2) := wait junk in
  bad <- (if negb (st1 =? 0) || negb (st2 =? 0) then xret true
          else c <- strcmp buf (lit (endl "hi")) ;; xret (negb (c =? 0))) ;;
  when bad (
    printf ("grind: exec pipeline failed %d %d " ++ String (Ascii.ascii_of_nat 34) "%s" ++ String (Ascii.ascii_of_nat 34) nl) [st1; st2; buf] ;;;
    exit 1).

(** One turn of the loop of [go]: the next [fd] and [iters]. *)
Definition go_step (which_child break0 : Z) (y : Z * Z) : X (Z * Z + unit) :=
  let '(fd, iters) := y in
  let iters := u64 (iters + 1) in
  when (iters mod 500 =? 0) (write 1 (if negb (which_child =? 0) then lit "B" else lit "A") 1 ;;; xret tt) ;;;
  v <- rand ;;
  let what := Z.rem v 23 in
  fd <- go_files what fd ;;
  go_procs what break0 ;;;
  when (what =? 21) go_stat ;;;
  when (what =? 22) go_pipeline ;;;
  xret (inl (fd, iters)).

Definition go (which_child : Z) : X unit :=
  break0 <- sbrk 0 ;;
  mkdir (lit "grindir") ;;;
  chdir_or_exit "grindir" "grind: chdir grindir failed" ;;;
  chdir (lit "/") ;;;
  while turns (go_step which_child break0) (-1, 0).

Definition iter : X unit :=
  unlink (lit "a") ;;;
  unlink (lit "b") ;;;
  pid1 <- fork ;;
  fail_if (pid1 <? 0) (endl "grind: fork failed") [] ;;;
  when (pid1 =? 0) (
    v <- mem_ (ld64 rand_next) ;;
    mem_ (st64 rand_next (Z.lxor v 31)) ;;;
    go 0 ;;;
    exit 0) ;;;
  pid2 <- fork ;;
  fail_if (pid2 <? 0) (endl "grind: fork failed") [] ;;;
  when (pid2 =? 0) (
    v <- mem_ (ld64 rand_next) ;;
    mem_ (st64 rand_next (Z.lxor v 7177)) ;;;
    go 1 ;;;
    exit 0) ;;;
  let* (_, st1) := wait (-1) in
  when (negb (st1 =? 0)) (
    kill pid1 ;;;
    kill pid2 ;;;
    xret tt) ;;;
  wait (-1) ;;;
  exit 0.

Definition grind_main : X unit :=
  while turns (fun _ =>
    pid <- fork ;;
    when (pid =? 0) (iter ;;; exit 0) ;;;
    when (0 <? pid) (wait0 ;;; xret tt) ;;;
    sleep 20 ;;;
    v <- mem_ (ld64 rand_next) ;;
    mem_ (st64 rand_next (u64 (v + 1))) ;;;
    xret (inl tt)) tt.
End Grind.

(** ** forktest.c *)

Section Forktest.
Context `{TestOs} `{Image}.
Local Open Scope proc_scope.

Definition print (s : Z) : X unit :=
  n <- mem_ (strlen s) ;;
  write 1 s (i32 n) ;;;
  xret tt.

Definition forktest_N : nat := 1000.

Definition forktest : X unit :=
  print (lit (endl "fork test")) ;;;
  r <- for_brk forktest_N 0 (fun n =>
    pid <- fork ;;
    if pid <? 0 then xret (Some n)
    else
      when (pid =? 0) (exit 0) ;;;
      xret None) ;;
  match r with
  | None =>
      print (lit (endl "fork claimed to work N times!")) ;;;
      exit 1
  | Some n =>
      for_n (Z.to_nat n) 0 (fun _ =>
        w <- wait0 ;;
        when (w <? 0) (print (lit (endl "wait stopped early")) ;;; exit 1)) ;;;
      w <- wait0 ;;
      when (negb (w =? -1)) (print (lit (endl "wait got too many")) ;;; exit 1) ;;;
      print (lit (endl "fork test OK"))
  end.
Definition forktest_main : X unit := forktest ;;; exit 0.

(** ** stressfs.c: [path] of 10 bytes and [data] of 512 are its local arrays *)

Definition stressfs_main : X unit :=
  let path := locals in let data := locals + 10 in
  for_n 10 0 (fun i => st8x (path + i) (default 0 (chars "stressfs0" !! Z.to_nat i))) ;;;
  printf (endl "stressfs starting") [] ;;;
  memset data (ch "a") 512 ;;;
  r <- for_brk 4 0 (fun i => pid <- fork ;; xret (if 0 <? pid then Some i else None)) ;;
  let i := default 4 r in
  printf (endl "write %d") [i] ;;;
  c <- ld8x (path + 8) ;;
  st8x (path + 8) (c + i) ;;;
  fd <- open path (O_CREATE .| O_RDWR) ;;
  for_n 20 0 (fun _ => write fd data 512 ;;; xret tt) ;;;
  close fd ;;;
  printf (endl "read") [] ;;;
  fd <- open path O_RDONLY ;;
  for_n 20 0 (fun _ => read fd data 512 ;;; xret tt) ;;;
  close fd ;;;
  wait0 ;;;
  exit 0.
End Forktest.
