(* ===== verification/GrindThm.v ===== *)
(** * Theorems about grind and forktest *)

From S2P Require Import Prelude CInt Memory KMonad Blocks User Ulib Umalloc Shell Progs UTest Grind.

(** ** The generator *)

(** The modulus 2^31 - 1 and the inverse of 16807. *)
Definition rand_M : Z := 0x7fffffff.
Definition rand_inv : Z := 1407677000.

Lemma rand_inverse y : 0 < y < rand_M -> (rand_inv * (16807 * y mod rand_M)) mod rand_M = y.
Proof.
  intros Hy. unfold rand_M, rand_inv in *. rewrite Zmult_mod_idemp_r, Z.mul_assoc, <- Zmult_mod_idemp_l.
  change (1407677000 * 16807 mod 2147483647) with 1. rewrite Z.mul_1_l. apply Z.mod_small. lia.
Qed.

Lemma rand_step y : 0 < y < rand_M ->
  let x := 16807 * Z.rem y 127773 - 2836 * Z.quot y 127773 in
  (if x <? 0 then x + 0x7fffffff else x) = 16807 * y mod rand_M /\ 0 < 16807 * y mod rand_M < rand_M.
Proof.
  intros Hy x. assert (16807 * y mod rand_M <> 0) as Hn.
  { intros E. pose proof (rand_inverse y Hy) as Hi. rewrite E, Z.mul_0_r in Hi. change (0 mod rand_M) with 0 in Hi. lia. }
  pose proof (Z.mod_pos_bound (16807 * y) rand_M ltac:(done)) as Hm. split; [|lia]. unfold x, rand_M in *.
  rewrite Z.rem_mod_nonneg, Z.quot_div_nonneg by lia.
  pose proof (Z.div_mod y 127773 ltac:(lia)) as Hd. pose proof (Z.mod_pos_bound y 127773 ltac:(lia)) as Hl.
  assert (0 <= y / 127773 < 16808) as Hq by (split; [apply Z.div_pos; lia|apply Z.div_lt_upper_bound; lia]).
  set (q := y / 127773) in *. set (l := y mod 127773) in *.
  destruct (Z.ltb_spec (16807 * l - 2836 * q) 0).
  - apply (Z.mod_unique _ _ (q - 1)); lia.
  - apply (Z.mod_unique _ _ q); lia.
Qed.



(** ** forktest *)

(** What forktest tests.  A process has a number of children; [fork] fails when
    there are [limit] of them and may fail before, and otherwise the run goes on
    in the parent, with one child more, or in the child ([child]: the process
    is a child that has made no call since its [fork]).  [wait] collects a child,
    when it has exited, or fails if there is none. *)
Class ForkLaws `{TestOs} := {
  kids : os_t -> nat;
  limit : nat;
  child : os_t -> bool;
  fork_law o : ((os_fork o).1 < 0 /\ kids (os_fork o).2 = kids o) \/
    (0 < (os_fork o).1 /\ kids (os_fork o).2 = S (kids o) /\ (kids o < limit)%nat) \/
    ((os_fork o).1 = 0 /\ child (os_fork o).2 = true);
  wait_law o : match kids o with
    | O => (os_wait o).1.1 = -1 /\ kids (os_wait o).2 = O
    | S k => 0 < (os_wait o).1.1 /\ kids (os_wait o).2 = k
    end;
  write_law fd bs o : kids (os_write fd bs o).2 = kids o
}.

Section Forktest.
Context `{FL : ForkLaws} `{Image}.
Local Open Scope proc_scope.

Lemma xbind_ok {A B} (c : X A) (k : A -> X B) s a s' : c s = Ok (inl a, s') -> xbind c k s = k a s'.
Proof. intros E. unfold xbind. by rewrite (bind_ok _ _ _ _ _ E). Qed.

(** The constant strings are in memory. *)
Definition strings_in (m : ram) : Prop := forall str, exists n, strlen (lit str) m = Ok (n, m).

Definition same_run (k : nat) (s s' : ust) : Prop := u_mem s' = u_mem s /\ kids (u_os s') = k.

Lemma print_ok str s : strings_in (u_mem s) -> exists s', print (lit str) s = Ok (inl tt, s') /\ same_run (kids (u_os s)) s s'.
Proof.
  intros Hs. destruct (Hs str) as [n E]. unfold print. rewrite (xbind_ok _ _ s n s); cycle 1.
  { unfold mem_, lift. destruct s as [m o]. by rewrite (bind_ok _ _ _ _ _ (onmem_at _ _ o _ _ E)). }
  unfold xbind, write, lift, bind, User.write. destruct (backed (u_mem s) (lit str) (Z.to_nat (i32 n))); cbn; [|by exists s].
  pose proof (write_law 1 (rdbytes (u_mem s) (lit str) (Z.to_nat (i32 n))) (u_os s)) as Hw.
  destruct (os_write _ _ _) as [r o]. cbn in Hw. eexists. split; [reflexivity|]. by split.
Qed.

Lemma fork_ok s : exists r s', fork s = Ok (inl r, s') /\ u_mem s' = u_mem s /\
  (r < 0 /\ kids (u_os s') = kids (u_os s) \/ 0 < r /\ kids (u_os s') = S (kids (u_os s)) /\ (kids (u_os s) < limit)%nat \/
   r = 0 /\ child (u_os s') = true).
Proof.
  unfold fork, call. pose proof (fork_law (u_os s)) as Hf. destruct (os_fork (u_os s)) as [r o]. by exists r, (s <| u_os := o |>).
Qed.

Lemma wait0_ok s : exists r s', wait0 s = Ok (inl r, s') /\ u_mem s' = u_mem s /\
  match kids (u_os s) with O => r = -1 /\ kids (u_os s') = O | S k => 0 < r /\ kids (u_os s') = k end.
Proof.
  unfold wait0, xbind, bind, call. pose proof (wait_law (u_os s)) as Hw. destruct (os_wait (u_os s)) as [[r st] o].
  by exists r, (s <| u_os := o |>).
Qed.

(** The loop ends in the child at once, or in the parent with its children
    counted. *)
Lemma forks_ok n i s : kids (u_os s) = Z.to_nat i -> 0 <= i -> (limit < Z.to_nat i + n)%nat -> (Z.to_nat i <= limit)%nat ->
  exists r s', for_brk n i (fun n => pid <- fork ;; if pid <? 0 then xret (Some n) else UTest.when (pid =? 0) (exit 0) ;;; xret None) s =
    Ok (r, s') /\ (r = inr (Exited 0) /\ child (u_os s') = true \/ exists k, r = inl (Some k) /\ 0 <= k /\ same_run (Z.to_nat k) s s').
Proof.
  revert i s. induction n as [|n IH]; intros i s Hk Hi Hl Hle; [lia|]. cbn [for_brk].
  destruct (fork_ok s) as (r & s1 & E & Em & [(Hr & Hn)|[(Hr & Hn & Hlt)|[-> Hc]]]).
  - rewrite (xbind_ok _ _ s (Some i) s1); [|by rewrite (xbind_ok _ _ _ _ _ E), (proj2 (Z.ltb_lt r 0)) by lia].
    exists (inl (Some i)), s1. split; [done|]. right. exists i. split_and!; [done|done|]. split; [done|by rewrite <- Hk].
  - rewrite (xbind_ok _ _ s None s1).
    + destruct (IH (i + 1) s1) as (r' & s2 & E2 & [Hc|(k & -> & Hk2 & Em2 & Hs2)]); [lia..|by exists r', s2; auto|].
      exists (inl (Some k)), s2. split; [done|]. right. exists k. split_and!; [done|done|split; [congruence|done]].
    + rewrite (xbind_ok _ _ _ _ _ E), (proj2 (Z.ltb_ge r 0)) by lia. unfold UTest.when. rewrite (proj2 (Z.eqb_neq r 0)) by lia. done.
  - exists (inr (Exited 0)), s1. split; [|by left]. unfold xbind at 1, bind at 1. by rewrite (xbind_ok _ _ _ _ _ E).
Qed.

Lemma waits_ok n i s : kids (u_os s) = n ->
  exists s', for_n n i (fun _ => w <- wait0 ;; UTest.when (w <? 0) (print (lit (endl "wait stopped early")) ;;; exit 1)) s = Ok (inl tt, s') /\
    same_run 0 s s'.
Proof.
  revert i s. induction n as [|n IH]; intros i s Hk; cbn [for_n]; [by exists s|].
  destruct (wait0_ok s) as (r & s1 & E & Em & Hw). rewrite Hk in Hw. destruct Hw as [Hr Hn].
  rewrite (xbind_ok _ _ s tt s1); cycle 1.
  { rewrite (xbind_ok _ _ _ _ _ E). unfold UTest.when. by rewrite (proj2 (Z.ltb_ge r 0)) by lia. }
  destruct (IH (i + 1) s1 Hn) as (s2 & E2 & Em2 & Hs2). exists s2. split; [done|split; [congruence|done]].
Qed.

(** C36. forktest passes.  On every system on which a process can have fewer than
    1000 children, a run of forktest that starts without children exits with
    status 0: in a child it does so without a further system call, and in the
    parent after [fork] has failed and every child has been collected. *)
Theorem forktest_passes s :
  (limit < forktest_N)%nat -> kids (u_os s) = 0%nat -> strings_in (u_mem s) ->
  exists s', forktest_main s = Ok (inr (Exited 0), s') /\ (child (u_os s') = true \/ kids (u_os s') = 0%nat).
Proof.
  intros Hl Hk Hs. unfold forktest_main, xbind at 1.
  enough (exists r s', forktest s = Ok (r, s') /\
    (r = inr (Exited 0) /\ child (u_os s') = true \/ r = inl tt /\ kids (u_os s') = 0%nat)) as (r & s' & E & Hr).
  { exists s'. unfold bind. rewrite E. destruct Hr as [[-> Hc]|[-> Hk']]; auto. }
  unfold forktest. destruct (print_ok (endl "fork test") s Hs) as (s1 & E1 & Em1 & Hk1). rewrite (xbind_ok _ _ _ _ _ E1).
  destruct (forks_ok forktest_N 0 s1) as (r & s2 & E2 & [[-> Hc]|(k & -> & Hk2 & Em2 & Hs2)]); [by rewrite Hk1, Hk|lia|done|lia| |].
  { exists (inr (Exited 0)), s2. split; [|by left]. unfold xbind at 1, bind at 1. by rewrite E2. }
  rewrite (xbind_ok _ _ _ _ _ E2). destruct (waits_ok (Z.to_nat k) 0 s2 Hs2) as (s3 & E3 & Em3 & Hs3). rewrite (xbind_ok _ _ _ _ _ E3).
  destruct (wait0_ok s3) as (r & s4 & E4 & Em4 & Hw). rewrite Hs3 in Hw. destruct Hw as [-> Hk4]. rewrite (xbind_ok _ _ _ _ _ E4).
  unfold UTest.when. cbn [Z.eqb negb Z.opp]. rewrite (xbind_ok (xret tt) _ s4 tt s4 eq_refl).
  destruct (print_ok (endl "fork test OK") s4) as (s5 & E5 & Em5 & Hk5); [by rewrite Em4, Em3, Em2, Em1|].
  exists (inl tt), s5. split; [done|right; split; [done|congruence]].
Qed.
End Forktest.

(** A system with at most three children; the state has their number, how many
    calls of [fork] it takes until the run goes on in the child, if it does, and
    whether it just did. *)
#[local] Instance toy_os : Os := {
  os_t := nat * option nat * bool;
  os_read _ _ o := (0, [], o);
  os_write _ bs o := (Z.of_nat (length bs), o);
  os_open _ _ o := (-1, o);
  os_close _ o := (-1, o);
  os_fstat _ o := (-1, [], o);
  os_sbrk _ o := (false, o)
}.
#[local] Instance toy_fs : FsOs := {
  os_link _ _ o := (-1, o);
  os_unlink _ o := (-1, o);
  os_mkdir _ o := (-1, o);
  os_kill _ o := (-1, o);
  os_dummy o := (0, o);
  os_buddy_info o := (-1, [], o)
}.
#[local] Instance toy_procs : TestOs := {
  os_fork '(k, w, _) :=
    match w with
    | Some 0%nat => (0, (0%nat, None, true))
    | _ => if (k <? 3)%nat then (7, (S k, pred <$> w, false)) else (-1, (k, w, false))
    end;
  os_wait '(k, w, _) := match k with O => (-1, 0, (O, w, false)) | S k => (7, 0, (k, w, false)) end;
  os_pipe o := (-1, (0, 0), o);
  os_exec _ _ o := (false, o);
  os_chdir _ o := (-1, o);
  os_dup _ o := (-1, o);
  os_getpid o := (1, o);
  os_sleep _ o := (0, o)
}.
#[local] Instance toy_image : Image := {
  lit _ := 0x1000; buf := 0; uninit := 0; locals := 0; statics := 0; a_base := 0; a_freep := 0; r_sp := 0; junk := 0; turns := 0
}.
#[local] Instance toy_laws : ForkLaws.
Proof.
  refine {| kids := fun o : @os_t toy_os => o.1.1; limit := 3; child := fun o => o.2 |}.
  - intros [[k w] b]. unfold os_fork, toy_procs. destruct w as [[|n]|]; [by right; right|..];
      (destruct (Nat.ltb_spec k 3); [right; left|left]; cbn [fst snd]; split_and!; done || lia).
  - by intros [[[|k] w] b].
  - by intros fd bs [[k w] b].
Defined.

(** A run in the parent, and one in the third child. *)
Lemma forktest_passes_witness :
  (exists s', forktest_main (Ust toy_os (Ram 0x1000 0x2000 ∅) (0%nat, None, false)) = Ok (inr (Exited 0), s')) /\
  (exists s', forktest_main (Ust toy_os (Ram 0x1000 0x2000 ∅) (0%nat, Some 2%nat, false)) = Ok (inr (Exited 0), s')).
Proof.
  split.
  - destruct (forktest_passes (Ust toy_os (Ram 0x1000 0x2000 ∅) (0%nat, None, false))) as (s' & E & _); [unfold forktest_N; cbn; lia|done|intros str; by exists 0|].
    by exists s'.
  - destruct (forktest_passes (Ust toy_os (Ram 0x1000 0x2000 ∅) (0%nat, Some 2%nat, false))) as (s' & E & _); [unfold forktest_N; cbn; lia|done|intros str; by exists 0|].
    by exists s'.
Defined.
